(* ===== verification/_CoqProject ===== *)
-Q . S2P
Prelude.v
Postgres.v
Json.v
StripeApi.v
Events.v
InvoiceNumbers.v
InvoiceNumberFacts.v
Invoices.v
InvoiceFacts.v
Metering.v
MeteringFacts.v
Ledger.v
CatalogSpec.v
CatalogCache.v
CatalogSync.v
CatalogSyncFacts.v
CatalogSyncTheorems.v
CatalogSyncConverge.v
CatalogSyncResult.v
Credits.v
CreditsMemory.v
CreditsMemoryFacts.v
CreditsLedger.v
CreditsSpec.v
CreditsTheorems.v
CreditsPostgres.v
CreditsPostgresFacts.v
CreditsPostgresTheorems.v
CreditHandlers.v
CreditHandlerFacts.v
Checkout.v
CheckoutFacts.v
Webhooks.v
WebhookWorld.v
WebhookFacts.v
WebhookTheorems.v
WebhookSource.v
WebhookSourceFacts.v
WebhookQueuePg.v
WebhookQueueFacts.v
Subscriptions.v
SubscriptionFacts.v
SubscriptionsPostgres.v
SubscriptionOps.v
SubscriptionWitnesses.v
Plans.v
PlansFacts.v
Customers.v
CustomersFacts.v
PortalConfig.v
PortalConfigFacts.v
Connector.v
ConnectorHealth.v
ConnectorFacts.v
ConnectorDelivery.v
StripeCalls.v
StripeCatalog.v
StripeCatalogFacts.v
StripeCheckout.v
StripeSubscriptions.v
StripeInvoices.v
Coupons.v
Refunds.v
Disputes.v
PaymentMethods.v
Quotes.v
Climate.v
StripeBackendFacts.v
StripeOrphans.v
StripeKeyFacts.v
StripeInvoiceFacts.v
BillingFacts.v
Drift.v
Flags.v
Cli.v
CliServices.v
CliFacts.v
WebhookQueueLife.v
Observability.v
Examples.v
