(* ===== verification/Prelude.v ===== *)
(** * rho-stripe: a verification development

    rho-stripe is a Go library that puts an application's catalog, credits,
    subscriptions, invoices, usage and entitlements on top of Stripe. A catalog is declared
    in Go and synced to Stripe; customers pay through checkout sessions; Stripe's webhooks
    come back and are deduplicated, queued and dispatched to handlers, which grant credits
    and keep a mirror of the subscriptions; the application asks the ledger, the mirror and
    the plans what a subject may do, reports usage and issues invoices. The ledger, the
    mirror, the queue, usage, invoice numbers and customers each have a repository in
    memory and one in Postgres. This development translates that core into executable definitions
    and proves what makes it correct.

    ** Parts, files and sources (paths under src/)

    - Prelude (this file): what the code uses of Go: [int64] as [Z] with its
      wrap-around, [(value, error)] as [res], strings and their separators, decimal
      printing, sorting, maps ranged over in any order. [GoRuntime] is the interface to
      the choices of the runtime ([sort.Slice] is not stable, [range] has no order,
      [AddDate]); [reference_runtime] is an instance. Also the shared lemmas on lists and
      sums, the hint databases and the tactic [reflect_bools].
    - Postgres: the [sql] monad: statements that may fail, transactions that commit or
      roll back, a schedule of faults, and the instant of a timestamp ([PgTime]).
    - Json: [encoding/json], as the library uses it, compact or indented, with the round
      trips [parse_render] and [parse_MarshalIndent].
    - StripeApi: idempotency keys and content hashes, the limits of metadata, times and
      errors (stripeapi/idempotency.go, metadata_validate.go, time.go, errors.go).
    - Events: the event wrapper and the namespace stamp (webhooks/event.go,
      webhooks/namespace.go, meta/namespace.go).
    - CatalogSpec: the declared catalog and its validation (catalog/types.go, spec.go).
      CatalogCache: the cache of lookup keys (catalog/cache.go).
    - CatalogSync: comparing a catalog with Stripe, applying the plan, drift
      (catalog/backend.go, diff.go, sync.go, drift.go). CatalogSyncFacts has the laws of
      Stripe, [StripeLaws], and the calls of a plan; CatalogSyncTheorems what a plan
      contains; CatalogSyncConverge follows each product and price through the calls;
      CatalogSyncResult has the theorems and a backend with the laws.
    - InvoiceNumbers, InvoiceNumberFacts: gapless numbers, in memory and in Postgres
      (invoices/number_repo.go, repos/postgres/invoice_number_repo.go). Invoices, InvoiceFacts:
      drafts, lines, the number ledger and its recovery, and the audit report with its
      encodings in CSV and JSON (invoices/).
    - Metering, MeteringFacts: usage, its aggregation and its reconciliation with Stripe's
      meters (metering/, repos/postgres/usage_repo.go, stripeapi/meter_backend.go).
    - Ledger: the greedy draw of a deduction. Credits: the data of the ledger, the
      interface [CreditRepo] and the facade (credits/types.go, repo.go, operations.go).
      CreditsMemory: the in-memory repository, method by method (credits/repo.go).
      CreditsMemoryFacts, CreditsLedger and CreditsSpec have the invariant of the books
      and its consequences, CreditsTheorems the theorems. CreditsPostgres: the ledger in
      Postgres, statement by statement (repos/postgres/credit_repo.go), CreditsPostgresFacts
      and CreditsPostgresTheorems its refinement of the in-memory one and what it keeps
      under faults and retries.
    - CreditHandlers, CreditHandlerFacts: the handlers that turn events into grants and
      revocations (credits/session_metadata.go, grant_handler.go, recurring_handler.go,
      refund_handler.go), against the interface [GrantLaws].
    - Checkout, CheckoutFacts: sessions, the portal, customer balances and the mapping of
      subjects to customers (checkout/, subject/, repos/postgres/customer_repo.go), up to the
      credits a purchase leads to. PortalConfig, PortalConfigFacts: the configuration of
      the portal (checkout/portalconfig/).
    - Customers, CustomersFacts: export, erasure, import and tax ids (customers/).
    - Webhooks: receiving, deduplicating, dispatching and queueing events
      (webhooks/handler.go, handlers.go, async.go, eventlog.go) as programs over their
      calls. WebhookWorld runs them; WebhookFacts interleaves them; WebhookTheorems has
      the outcome of each delivery and the in-memory log, queue and throttle.
      WebhookSource, WebhookSourceFacts: the configuration of the receiver, its source-address
      filter down to the readers of package net, the refresher of the addresses, the signer
      (webhooks/handler.go, source_ips.go, signer.go). WebhookQueuePg, WebhookQueueFacts: the
      queue in Postgres, its workers and its sweeper (repos/postgres/webhook_queue.go).
    - Subscriptions: the mirror (subscriptions/types.go, repo.go, mirror.go,
      reconcile.go, hot_path.go), SubscriptionFacts its theorems against [MirrorLaws],
      SubscriptionsPostgres the Postgres repository (repos/postgres/subscription_repo.go),
      SubscriptionOps what the application asks of Stripe (subscriptions/operations.go,
      seats.go, schedules.go, refund_failed_handler.go), SubscriptionWitnesses concrete runs.
    - Plans, PlansFacts: snapshots of features and limits (plans/plans.go).
    - Connector: the configuration of the library, the wiring of its handlers with those of
      the application, [New] and [Shutdown] (connector/connector.go, builders.go, must.go,
      stripeapi/client.go). ConnectorHealth: the readiness probe and its cache
      (connector/health.go). ConnectorFacts: what [New] accepts and builds.
      ConnectorDelivery: from an order through a delivery to the books.
    - StripeCalls: a request to Stripe, its parameters and answers, programs of requests
      ([calls]), and what Stripe does with an idempotency key ([with_idempotency]).
      StripeCatalog, StripeCheckout, StripeSubscriptions, StripeInvoices: the backends of
      the library as such programs (stripeapi/backend.go, checkout_backend.go,
      subscription_backend.go, invoice_backend.go). Coupons, Refunds, Disputes,
      PaymentMethods, Quotes, Climate: the packages of these names with their backends
      (coupons/, payments/, disputes/, paymentmethods/, quotes/, climate/,
      stripeapi/coupon_backend.go, refund_backend.go, test_clock.go).
      StripeCatalogFacts: the catalog backend over a server with the laws of the API has the
      effects the sync is proved against, as long as the keys it sends are new. StripeBackendFacts: repeating a write.
      StripeOrphans: writes of several requests that fail. StripeKeyFacts:
      what a key tells apart and what it misses. StripeInvoiceFacts: pages and drafts.
      BillingFacts: refunds, promotion codes, orders.
    - Drift: the texts of a plan and of a drift report, and the detector that checks at an
      interval, as a step relation with its stop function (catalog/diff.go, drift.go).
    - Flags: package flag, with the numbers it reads. Cli, CliServices: the
      commands over the components they call, with their exit codes and what they print
      (cli/cli.go, customers_helpers.go). CliFacts: syncing, checking for drift and
      schedules from the command line, and what the other commands do not reach.
    - WebhookQueueLife: the workers of the Postgres queue from start to shutdown, with the
      contexts that a shutdown cancels (repos/postgres/webhook_queue.go).
    - Observability: the metrics and spans around the receiver, the queue and the calls to
      Stripe (observability/).
    - Examples: the event fixtures with the signed body of a request ([Fixtures],
      connectortest/) and the catalogs of the example programs with the constants they are
      written with ([Catalogs], examples/, cmd/, catalog/types.go).

    ** How the code is modelled

    A struct is a record, a method a function from the state and the inputs to the result
    and the state, an error a value. A method that holds a mutex for its whole body is one
    step. The clock, random ids and the answers of other systems are inputs. Where
    interleaving matters, in the webhooks, a handler is a tree of calls and [sys_step]
    interleaves any number of them. A panic of an index out of range is [None]. Metadata maps
    that the code shares are references into a [heap], so that a write through one
    is seen through the others.

    Interfaces between components are classes, with the laws their clients rely on apart:
    [CreditRepo] and [GrantLaws], [IdemStore], [SubscriptionRepo] and [MirrorLaws],
    [Backend] and [StripeLaws], [NumberRepo] and [NumberLaws], [UsageRepo], [MeterServer],
    [CustomerRepo], [CheckoutBackend], [StripeClient], [PortalApi] and [PortalLaws],
    [InvoiceBackend], [CatalogServer], [InvoiceListing], [Sha256], [Float64Text],
    [PgTime]. Clients are proved against the laws; the
    repositories of this library are proved to obey them, and for a service outside it
    an instance shows that the laws can hold.

    ** What the theorems show

    - Credits: the books balance in every reachable state; a deduction succeeds exactly
      when the credits suffice, spends those first that expire first, and counts once
      however often it is repeated; a grant is issued at most once per reference; expiry,
      revocation, balance and history are what they say; redelivered events change
      nothing, and what was bought is granted in full. The ledger in Postgres refines the
      one in memory statement by statement, its books balance whatever faults occur, and a
      deduction that is retried until it is answered counts once.
    - Catalog: validation accepts exactly the well-formed catalogs, but for metered prices of
      products that grant credits and percentages that are NaN, which pass; the cache is warmed
      completely or not at all; a sync that succeeds leaves nothing to sync, under the
      conditions [sync_converges] lists.
    - Invoices and usage: numbers have no gaps and are final; a draft and its number agree
      or the disagreement is reported to the orphan hook; usage is counted once per request and
      billed once per window, whatever is retried within the 24 hours for which Stripe
      remembers an identifier; both repositories agree. An exported report is read back
      from its CSV, by the names of the columns, and from its JSON.
    - Checkout and customers: a session says what was asked for; a subject has one customer
      in the in-memory mapping; every unit of credit bought in a session that completes is on the books. Erasure goes
      in order, its report is true, and nothing is left to spend; an import does what it
      reports.
    - Idempotency keys and hashes tell their inputs apart, short of a collision, and those
      of evidence and quotes tell every field apart.
    - Requests to Stripe: a keyed write of [backend_write] that is repeated is carried out
      once; a failed session or subscription asks to archive exactly the prices or products
      it has created; the catalog backend does what the sync relies on under keys that
      are new, and nothing under a key that is remembered; lookups are complete whatever the
      number of keys, and so are the pages of invoices, up to 99 a page; a refund is sent exactly if it is valid.
    - The connector: [New] returns one exactly for a valid configuration of a free namespace,
      and it is wired as configured; live connectors have different namespaces; an event runs
      the handler of the library and then that of the application; an order that completes
      is on the books; the probes of Stripe are spaced.
    - The command line: a dry run changes nothing; after a sync that has succeeded [diff]
      has nothing to say; drift-check is a gate; what a schedule or a number is written as
      is read back; a stopped drift detector is silent.
    - Webhooks: under every interleaving an event has at most one successful handler run, and
      one more for each time its claim expires or its item is handed out again; as long as
      claims last no two run at the same time; each delivery ends as documented; duplicates and
      foreign events reach no handler (but a policy without callback gives up with 200,
      [nil_callback_gives_up]); the queues lose nothing, a claim is exclusive, a
      worker drains its queue, a shutdown can end and ends every worker ([shutdown_quiet],
      [shutdown_returns]). The address filter admits exactly the configured IPv4
      networks, everything when there are none, and is never switched off by a bad download.
    - Subscriptions and plans: the mirror holds the newest event of each subscription
      whatever the order of delivery, both repositories behave alike but where stated;
      operations change only what was asked for; snapshots are what the plans declare.
    - Fixtures and examples: a fixture that is posted is verified as the event that was built,
      reaches the handlers of its namespace only and grants the credits it was built with;
      every example catalog is accepted.
    - Several theorems state where the code falls short of its documentation:
      [refund_misses_checkout_grants], [ProcessQueued_always_runs],
      [same_second_dropped], [negative_limit_unlimited], [underscore_archives_nothing],
      [failing_head_starves], [claim_not_fenced], [CanonicalMap_collides],
      [direct_without_request_collapses], [deleted_customer_is_reused],
      [forget_retry_misses_app], [late_event_undoes_import], [header_decides],
      [cleared_text_never_settles], [detail_changes_ignored], [second_change_refused],
      [second_shutdown_unlocks], [failed_probe_sticks], [unpaid_session_credited],
      [async_payment_unhandled], [failed_cancel_forgotten], [second_cancel_swallowed],
      [default_back_swallowed], [equal_credit_swallowed], [equal_refund_swallowed],
      [equal_order_gets_first_session], [retry_reuses_archived],
      [draft_fails_with_caller_key], [send_fails_with_caller_key], [draft_takes_no_items],
      [session_key_misses_terms], [changed_terms_refused], [auto_finalize_ignored],
      [prior_transactions_not_sent], [quote_stamp_overridden], [coupon_ids_collide],
      [sync_creates_no_coupon], [nan_tons_ordered], [climate_order_repeated],
      [stop_in_callback_deadlocks], [sync_ignores_meters], [atoi_wraps],
      [seats_of_any_subject], [due_days_overflow], [cli_drafts_share_key],
      [cli_draft_unstamped], [replay_misses_custom], [cli_erases_nobody],
      [import_backfills_nothing], [search_query_injection], [shutdown_redelivers],
      [overage_unheard], [examples_archive_nothing], [metered_grant_accepted],
      [nan_percent_accepted], [nil_callback_gives_up].

    ** Bounds and fuel

    The JSON reader has fuel [2 * length + 1]: each step consumes a byte or returns from
    one, and [parse_render] shows that it suffices for every rendered document. The
    itoa of subscriptions/operations.go fills a buffer of ten bytes, and running out of
    it is [None] as it is a panic there. The fields of an IPv6 address are read in eight
    turns, two bytes each, as the loop of net/netip ends at sixteen bytes. A worker of the
    Postgres queue is run for a number of claims, and [worker_drains] gives the number that
    empties the queue. The batches of lookup keys have as much fuel as there are keys, and
    [lookup_complete] shows that none is left out; a client that follows pages needs one turn
    more than there are invoices ([pages_complete]). All other recursion is structural. [int64] sums wrap, and the theorems
    on balances and limits say so; amounts in the books are unbounded only where the
    invariant shows that they stay in range.

    ** Not modelled, and the plan

    stripe-go, Stripe, Postgres, SHA-256 and the application's handlers are parameters; what
    a theorem needs of them is a class or a hypothesis. Left out are the logs, which are output
    only, the main functions of the commands and examples, which read the environment,
    call the constructor and serve, and the SQL migrations, whose tables and keys appear
    as the states of the repositories. *)
From stdpp Require Export base list gmap strings numbers sorting pretty.
From Stdlib Require Export Ascii String.
From Stdlib Require Export ZArith Lia.
From Stdlib Require Import DecimalString DecimalN DecimalFacts.
#[export] Set Default Goal Selector "!".
Open Scope string_scope.
Open Scope list_scope.
Open Scope Z_scope.

(** ** Results: a Go [(value, error)] pair in which the error is nil exactly when
    the value is meaningful. *)
Inductive res (E A : Type) : Type :=
| Ok (a : A)
| Err (e : E).
Arguments Ok {E A} a.
Arguments Err {E A} e.

(** ** Machine integers: [int64] as [Z] with Go's wrap-around. *)
Definition int64_min : Z := - 2 ^ 63.
Definition int64_max : Z := 2 ^ 63 - 1.
Definition in_int64 (z : Z) : Prop := int64_min <= z <= int64_max.
Definition wrap64 (z : Z) : Z := (z + 2 ^ 63) mod 2 ^ 64 - 2 ^ 63.
Definition add64 (a b : Z) : Z := wrap64 (a + b).
Definition sub64 (a b : Z) : Z := wrap64 (a - b).

Lemma wrap64_id z : in_int64 z -> wrap64 z = z.
Proof.
  unfold in_int64, wrap64, int64_min, int64_max. intros [H1 H2].
  rewrite Z.mod_small; lia.
Qed.

Lemma wrap64_in z : in_int64 (wrap64 z).
Proof.
  unfold in_int64, wrap64, int64_min, int64_max.
  pose proof (Z.mod_pos_bound (z + 2 ^ 63) (2 ^ 64) ltac:(lia)). lia.
Qed.

Lemma wrap64_add_l a b : wrap64 (wrap64 a + b) = wrap64 (a + b).
Proof.
  unfold wrap64.
  replace ((a + 2 ^ 63) mod 2 ^ 64 - 2 ^ 63 + b + 2 ^ 63)
    with ((a + 2 ^ 63) mod 2 ^ 64 + b) by lia.
  rewrite Zplus_mod_idemp_l. do 2 f_equal. lia.
Qed.

Lemma wrap64_add_r a b : wrap64 (a + wrap64 b) = wrap64 (a + b).
Proof. rewrite Z.add_comm, wrap64_add_l. f_equal. lia. Qed.

Lemma add64_exact a b : in_int64 (a + b) -> add64 a b = a + b.
Proof. apply wrap64_id. Qed.

Lemma sub64_exact a b : in_int64 (a - b) -> sub64 a b = a - b.
Proof. apply wrap64_id. Qed.

(** ** Sums *)
Definition sumZ (l : list Z) : Z := foldr Z.add 0 l.

Lemma sumZ_nil : sumZ [] = 0.
Proof. done. Qed.
Lemma sumZ_cons x l : sumZ (x :: l) = x + sumZ l.
Proof. done. Qed.
Lemma sumZ_app l1 l2 : sumZ (l1 ++ l2) = sumZ l1 + sumZ l2.
Proof. induction l1 as [|x l1 IH]; cbn [app]; rewrite ?sumZ_cons, ?IH, ?sumZ_nil; lia. Qed.
Lemma sumZ_nonneg l : Forall (fun z => 0 <= z) l -> 0 <= sumZ l.
Proof. induction 1; rewrite ?sumZ_cons; [done | lia]. Qed.
#[export] Instance sumZ_perm : Proper ((≡ₚ) ==> (=)) sumZ.
Proof. intros l1 l2 H. induction H; rewrite ?sumZ_cons; lia. Qed.

Lemma sumZ_insert (l : list Z) i x y :
  l !! i = Some x -> sumZ (<[i:=y]> l) = sumZ l - x + y.
Proof.
  revert i. induction l as [|z l IH]; intros [|i] H; try done; simpl in H.
  - simplify_eq. cbn. lia.
  - change (sumZ (<[S i:=y]> (z :: l))) with (z + sumZ (<[i:=y]> l)).
    rewrite (IH i H), sumZ_cons. lia.
Qed.

Definition sum64 (l : list Z) : Z := foldl add64 0 l.

Lemma foldl_add64 l a : foldl add64 (wrap64 a) l = wrap64 (a + sumZ l).
Proof.
  revert a. induction l as [|x l IH]; intros a; cbn [foldl].
  - by rewrite sumZ_nil, Z.add_0_r.
  - unfold add64 at 2. rewrite wrap64_add_l, IH, sumZ_cons. f_equal. lia.
Qed.

Lemma sum64_wrap l : sum64 l = wrap64 (sumZ l).
Proof.
  unfold sum64. change 0 with (wrap64 0) at 1. by rewrite foldl_add64, Z.add_0_l.
Qed.

Lemma sum64_exact l : in_int64 (sumZ l) -> sum64 l = sumZ l.
Proof. intros. by rewrite sum64_wrap, wrap64_id. Qed.

(** ** Strings *)
#[global] Arguments String.append !_ _ / : simpl nomatch.
Notation "s1 ^^ s2" := (String.append s1 s2) (at level 52, left associativity) : string_scope.

Definition has_prefix (p s : string) : bool := String.prefix p s.

(** [s[n:]]. *)
Fixpoint string_drop (n : nat) (s : string) : string :=
  match n, s with
  | O, _ => s
  | S n, String _ s => string_drop n s
  | S _, EmptyString => EmptyString
  end.

(** [s[:i], s[i+1:]] at the first occurrence of byte [c], if there is one. *)
Fixpoint split_at (c : ascii) (s : string) : option (string * string) :=
  match s with
  | EmptyString => None
  | String x s' =>
      if Ascii.eqb x c then Some (EmptyString, s')
      else match split_at c s' with
           | Some (a, b) => Some (String x a, b)
           | None => None
           end
  end.

(** Whether byte [c] occurs in [s]. *)
Fixpoint string_has (c : ascii) (s : string) : bool :=
  match s with
  | EmptyString => false
  | String x s' => Ascii.eqb x c || string_has c s'
  end.

Lemma append_nil_r s : s ^^ "" = s.
Proof. induction s as [|c s IH]; cbn; [done|]. by rewrite IH. Qed.

Lemma append_assoc a b c : (a ^^ b) ^^ c = a ^^ (b ^^ c).
Proof. induction a as [|x a IH]; cbn; [done|]. by rewrite IH. Qed.

Lemma append_inj_l p a b : p ^^ a = p ^^ b -> a = b.
Proof. induction p as [|c p IH]; cbn; [done|]. intros [= H]. auto. Qed.

Lemma prefix_append p s : String.prefix p (p ^^ s) = true.
Proof. induction p as [|c p IH]; cbn; [by destruct s|]. by destruct (ascii_dec c c). Qed.

Lemma drop_append p s : string_drop (String.length p) (p ^^ s) = s.
Proof. induction p as [|c p IH]; cbn; [done|]. exact IH. Qed.

Lemma prefix_spec p s : String.prefix p s = true -> s = p ^^ string_drop (String.length p) s.
Proof.
  revert s. induction p as [|c p IH]; intros [|x s]; cbn; try done.
  destruct (ascii_dec c x) as [->|]; [|done]. intros H. by rewrite <- (IH s H).
Qed.

Lemma length_append a b : String.length (a ^^ b) = (String.length a + String.length b)%nat.
Proof. induction a as [|c a IH]; cbn; [done|]. by rewrite IH. Qed.

Lemma split_at_append c a b :
  string_has c a = false -> split_at c (a ^^ String c b) = Some (a, b).
Proof.
  induction a as [|x a IH]; cbn.
  - intros _. by rewrite Ascii.eqb_refl.
  - intros [Hx Ha]%orb_false_iff. by rewrite Hx, (IH Ha).
Qed.

Lemma split_at_spec c s a b :
  split_at c s = Some (a, b) -> s = a ^^ String c b /\ string_has c a = false.
Proof.
  revert a b. induction s as [|x s IH]; intros a b; cbn; [done|].
  destruct (Ascii.eqb x c) eqn:E.
  - apply Ascii.eqb_eq in E as ->. intros [= <- <-]. done.
  - destruct (split_at c s) as [[a' b']|]; [|done]. intros [= <- <-].
    destruct (IH a' b' eq_refl) as [-> Ha]. cbn. by rewrite E, Ha.
Qed.

Lemma split_at_None c s : split_at c s = None <-> string_has c s = false.
Proof.
  induction s as [|x s IH]; cbn; [done|].
  destruct (Ascii.eqb x c); cbn; [done|].
  destruct (split_at c s) as [[a b]|]; rewrite <- IH; done.
Qed.

Lemma string_has_append c a b : string_has c (a ^^ b) = string_has c a || string_has c b.
Proof. induction a as [|x a IH]; cbn; [done|]. by rewrite IH, orb_assoc. Qed.

(** A separator that does not occur in the first component makes a concatenated
    key injective. *)
Lemma sep_inj c a b a' b' :
  string_has c a = false -> string_has c a' = false ->
  a ^^ String c b = a' ^^ String c b' -> a = a' /\ b = b'.
Proof.
  intros Ha Ha' H. pose proof (split_at_append c a b Ha) as H1.
  rewrite H, (split_at_append c a' b' Ha') in H1. by simplify_eq.
Qed.

(** ** Time: a [time.Time] is its instant in nanoseconds since the Unix epoch. *)
Definition second : Z := 1000000000.
Definition day : Z := 86400 * second.
(** The zero [time.Time], January 1, year 1 UTC. *)
Definition time_zero : Z := - 62135596800 * second.
Definition IsZero (t : Z) : bool := t =? time_zero.
(** [time.Unix(u, 0)]. *)
Definition time_Unix (u : Z) : Z := u * second.
(** [t.Unix()]. *)
Definition Unix (t : Z) : Z := t / second.

Lemma Unix_time_Unix u : Unix (time_Unix u) = u.
Proof. unfold Unix, time_Unix, second. by rewrite Z.div_mul. Qed.

(** *** Decimal renderings: the verbs [%d] and [%0wd] of [fmt]. *)
Fixpoint zeros (n : nat) : string :=
  match n with O => "" | S n => String "0" (zeros n) end.
Definition dec_digits (n : N) : string := NilZero.string_of_uint (N.to_uint n).
Definition fmt_d (z : Z) : string :=
  if z <? 0 then "-" ^^ dec_digits (Z.to_N (- z)) else dec_digits (Z.to_N z).
Definition fmt_0d (w : nat) (z : Z) : string :=
  if z <? 0
  then let d := dec_digits (Z.to_N (- z)) in "-" ^^ zeros (w - 1 - String.length d) ^^ d
  else let d := dec_digits (Z.to_N z) in zeros (w - String.length d) ^^ d.

(** [strconv.ParseInt(s, 10, 64)]: an optional sign and decimal digits, in range. *)
Definition parse_digits (s : string) : option N :=
  match s with
  | EmptyString => None
  | _ => match NilEmpty.uint_of_string s with
         | Some d => Some (N.of_uint d)
         | None => None
         end
  end.
Definition parse_int64 (s : string) : option Z :=
  let r := match s with
           | String c s' =>
               if Ascii.eqb c "-" then match parse_digits s' with Some n => Some (- Z.of_N n) | None => None end
               else if Ascii.eqb c "+" then match parse_digits s' with Some n => Some (Z.of_N n) | None => None end
               else match parse_digits s with Some n => Some (Z.of_N n) | None => None end
           | EmptyString => None
           end in
  match r with
  | Some z => if (int64_min <=? z) && (z <=? int64_max) then Some z else None
  | None => None
  end.

(** [t.UTC().Format(time.RFC3339)]: the civil date of the day number, then the time
    of day, at second granularity. *)
Definition civil (days : Z) : Z * Z * Z :=
  let z := days + 719468 in
  let era := z / 146097 in
  let doe := z - era * 146097 in
  let yoe := (doe - doe / 1460 + doe / 36524 - doe / 146096) / 365 in
  let doy := doe - (365 * yoe + yoe / 4 - yoe / 100) in
  let mp := (5 * doy + 2) / 153 in
  let d := doy - (153 * mp + 2) / 5 + 1 in
  let m := if mp <? 10 then mp + 3 else mp - 9 in
  (yoe + era * 400 + (if m <=? 2 then 1 else 0), m, d).
Definition format_rfc3339 (t : Z) : string :=
  let u := Unix t in
  let '(y, m, d) := civil (u / 86400) in
  let s := u mod 86400 in
  fmt_0d 4 y ^^ "-" ^^ fmt_0d 2 m ^^ "-" ^^ fmt_0d 2 d ^^ "T" ^^
  fmt_0d 2 (s / 3600) ^^ ":" ^^ fmt_0d 2 (s / 60 mod 60) ^^ ":" ^^ fmt_0d 2 (s mod 60) ^^ "Z".

Example format_rfc3339_2026 : format_rfc3339 (time_Unix 1779885296) = "2026-05-27T12:34:56Z".
Proof. vm_compute. reflexivity. Qed.

(** ** Orders given by a Go [less] function *)
Class StrictWeak {A} (less : A -> A -> bool) : Prop := {
  less_asym x y : less x y = true -> less y x = false;
  less_negtrans x y z : less y x = false -> less z y = false -> less z x = false;
}.

Abbreviation sorted_by less := (StronglySorted (fun x y => less y x = false)).

#[export] Instance Zltb_order : StrictWeak Z.ltb.
Proof. split; intros *; rewrite ?Z.ltb_lt, ?Z.ltb_ge; lia. Qed.
Lemma string_ltb_cons a s b t :
  String.ltb (String a s) (String b t) = (N_of_ascii a <? N_of_ascii b)%N || (Ascii.eqb a b && String.ltb s t).
Proof.
  unfold String.ltb. cbn. unfold Ascii.compare. destruct (N.compare_spec (N_of_ascii a) (N_of_ascii b)) as [E|Hlt|Hgt].
  - apply (f_equal ascii_of_N) in E. rewrite !ascii_N_embedding in E. subst b.
    by rewrite N.ltb_irrefl, Ascii.eqb_refl.
  - by rewrite (proj2 (N.ltb_lt _ _) Hlt).
  - rewrite (proj2 (N.ltb_ge _ _)) by lia. destruct (Ascii.eqb_spec a b) as [->|]; [lia|done].
Qed.
#[export] Instance string_ltb_order : StrictWeak String.ltb.
Proof.
  split.
  - intros x. induction x as [|a x IH]; intros [|b y]; try done. rewrite !string_ltb_cons, orb_true_iff, orb_false_iff, andb_true_iff.
    intros [Hab|[->%Ascii.eqb_eq Hxy]].
    + rewrite N.ltb_lt in Hab. split; [by apply N.ltb_ge; lia|]. destruct (Ascii.eqb_spec b a) as [->|]; [lia|done].
    + by rewrite N.ltb_irrefl, Ascii.eqb_refl, (IH _ Hxy).
  - intros x. induction x as [|a x IH]; intros [|b y] [|c z]; try done.
    rewrite !string_ltb_cons, !orb_false_iff, !N.ltb_ge, !andb_false_iff. intros [H1 H1'] [H2 H2']. split; [lia|].
    destruct (Ascii.eqb_spec c a) as [->|]; [|by left]. right.
    assert (N_of_ascii a = N_of_ascii b) as E by lia. apply (f_equal ascii_of_N) in E. rewrite !ascii_N_embedding in E. subst b.
    rewrite Ascii.eqb_refl in H1', H2'. destruct H1' as [?|H1'], H2' as [?|H2']; [done..|]. by apply (IH y).
Qed.
(** Ordering by an integer and then, where it is equal, by something else. *)
Lemma lexZ_order {A} (k : A -> Z) (lt2 : A -> A -> bool) :
  StrictWeak lt2 -> StrictWeak (fun x y => if k x =? k y then lt2 x y else k x <? k y).
Proof.
  intros H2. split.
  - intros x y. rewrite (Z.eqb_sym (k y)). destruct (Z.eqb_spec (k x) (k y)); [apply less_asym|].
    rewrite Z.ltb_lt, Z.ltb_ge. lia.
  - intros x y z. destruct (Z.eqb_spec (k y) (k x)) as [E1|], (Z.eqb_spec (k z) (k y)) as [E2|].
    + rewrite E2, E1, Z.eqb_refl. apply less_negtrans.
    + rewrite <- E1, (proj2 (Z.eqb_neq _ _)) by done. done.
    + rewrite E2, (proj2 (Z.eqb_neq _ _)) by done. done.
    + rewrite !Z.ltb_ge. intros ? ?. rewrite (proj2 (Z.eqb_neq _ _)), Z.ltb_ge by lia. lia.
Qed.

Lemma sorted_by_lookup {A} (less : A -> A -> bool) l i j x y :
  sorted_by less l -> l !! i = Some x -> l !! j = Some y -> (i < j)%nat -> less y x = false.
Proof.
  intros Hs. revert i j. induction Hs as [|z l Hs IH Hz]; intros [|i] [|j] Hi Hj Hij; try done; try lia.
  - cbn in Hi. simplify_eq. exact (Forall_lookup_1 _ _ _ _ Hz Hj).
  - apply (IH i j); [done..|lia].
Qed.

(** ** What Go leaves unspecified.

    [sort.Slice] promises a permutation in order but not the order of equal
    elements; ranging over a map visits every entry in some order; and
    [t.AddDate(0, 0, n)] works in the calendar of the location of [t], so that a
    day need not be 24 hours long. The models take them from this interface, and
    the theorems hold for every implementation of it. *)
Class GoRuntime := {
  sort_slice : forall {A : Type}, (A -> A -> bool) -> list A -> list A;
  sort_slice_perm : forall A (less : A -> A -> bool) l, sort_slice less l ≡ₚ l;
  sort_slice_sorted : forall A (less : A -> A -> bool) l,
    StrictWeak less -> sorted_by less (sort_slice less l);
  map_range : forall {A : Type}, gmap string A -> list (string * A);
  map_range_perm : forall A (m : gmap string A), map_range m ≡ₚ map_to_list m;
  add_days : Z -> Z -> Z;
  add_days_later : forall t d, 0 < d <= 1000000 -> t < add_days t d;
}.

Section insertion_sort.
Context {A : Type} (less : A -> A -> bool).

Fixpoint insert_sorted (x : A) (l : list A) : list A :=
  match l with
  | [] => [x]
  | y :: l' => if less y x then y :: insert_sorted x l' else x :: y :: l'
  end.

Definition insertion_sort (l : list A) : list A := foldr insert_sorted [] l.

Lemma insert_sorted_perm x l : insert_sorted x l ≡ₚ x :: l.
Proof.
  induction l as [|y l IH]; cbn; [done|].
  destruct (less y x); [|done]. rewrite IH. apply Permutation_swap.
Qed.

Lemma insertion_sort_perm l : insertion_sort l ≡ₚ l.
Proof. induction l as [|x l IH]; cbn; [done|]. by rewrite insert_sorted_perm, IH. Qed.

Lemma insert_sorted_ok `{!StrictWeak less} x l :
  sorted_by less l -> sorted_by less (insert_sorted x l).
Proof.
  induction 1 as [|y l Hl IH Hy]; cbn; [by repeat constructor|].
  destruct (less y x) eqn:E.
  - constructor; [done|]. rewrite insert_sorted_perm. constructor; [|done].
    by apply less_asym.
  - constructor; [by constructor|]. constructor; [done|].
    eapply Forall_impl; [exact Hy|]. intros z Hz. cbn in *. by eapply less_negtrans.
Qed.

Lemma insertion_sort_ok `{!StrictWeak less} l : sorted_by less (insertion_sort l).
Proof. induction l as [|x l IH]; cbn; [constructor|]. by apply insert_sorted_ok. Qed.
End insertion_sort.

(** The implementation the witnesses run: insertion sort, the canonical order of
    [gmap], and days of 24 hours (the UTC location). *)
#[export, refine] Instance reference_runtime : GoRuntime := {|
  sort_slice := @insertion_sort;
  map_range A m := map_to_list m;
  add_days t d := t + d * day;
|}.
Proof.
  - apply @insertion_sort_perm.
  - intros. by apply insertion_sort_ok.
  - done.
  - unfold day, second. lia.
Defined.

Lemma map_range_elem `{GoRuntime} {A} (m : gmap string A) k v :
  (k, v) ∈ map_range m <-> m !! k = Some v.
Proof. rewrite map_range_perm. apply elem_of_map_to_list. Qed.

Lemma map_range_keys `{GoRuntime} {A} (m : gmap string A) : NoDup (map fst (map_range m)).
Proof. rewrite map_range_perm. apply NoDup_fst_map_to_list. Qed.

Lemma map_range_map `{GoRuntime} {A} (m : gmap string A) : list_to_map (map_range m) = m.
Proof.
  rewrite <- (list_to_map_to_list m) at 2. apply list_to_map_proper; [apply map_range_keys|].
  apply map_range_perm.
Qed.

(** ** Maps on the heap: a Go [map[string]string] is a reference, [nil] included. *)
Abbreviation smap := (gmap string string).
Record heap := mkHeap { cells : gmap nat smap; next_loc : nat }.
Abbreviation mapref := (option nat).

Definition heap_empty : heap := mkHeap ∅ 0.
(** Reading through a reference; a nil map reads as the empty map. *)
Definition hread (h : heap) (r : mapref) : smap :=
  match r with
  | None => ∅
  | Some l => default ∅ (cells h !! l)
  end.
Definition halloc (m : smap) (h : heap) : nat * heap :=
  (next_loc h, mkHeap (<[next_loc h := m]> (cells h)) (S (next_loc h))).
Definition hwrite (l : nat) (k v : string) (h : heap) : heap :=
  mkHeap (<[l := <[k := v]> (hread h (Some l))]> (cells h)) (next_loc h).
(** [m[k]] with Go's zero value for an absent key. *)
Definition mget (m : smap) (k : string) : string := default "" (m !! k).

Lemma hread_hwrite l k v h : hread (hwrite l k v h) (Some l) = <[k := v]> (hread h (Some l)).
Proof. unfold hwrite. cbn. by rewrite lookup_insert_eq. Qed.
Lemma hread_hwrite_ne l k v h r : r <> Some l -> hread (hwrite l k v h) r = hread h r.
Proof. destruct r as [l'|]; [|done]. intros Hne. cbn. rewrite lookup_insert_ne by congruence. done. Qed.
Lemma mget_insert m k v : mget (<[k := v]> m) k = v.
Proof. unfold mget. by rewrite lookup_insert_eq. Qed.
Lemma mget_insert_ne m k k' v : k <> k' -> mget (<[k := v]> m) k' = mget m k'.
Proof. intros. unfold mget. by rewrite lookup_insert_ne. Qed.

(** ** Lists: [map] under lookup and update *)
Lemma map_insert {A B} (f : A -> B) l i x : map f (<[i:=x]> l) = <[i:=f x]> (map f l).
Proof. exact (list_fmap_insert f l i x). Qed.
Lemma map_lookup {A B} (f : A -> B) l i : map f l !! i = f <$> l !! i.
Proof. exact (list_lookup_fmap f l i). Qed.
Lemma map_insert_same {A B} (f : A -> B) l i x y :
  l !! i = Some x -> f y = f x -> map f (<[i:=y]> l) = map f l.
Proof. intros Hi E. rewrite map_insert, E. apply list_insert_id. by rewrite map_lookup, Hi. Qed.
Lemma elem_of_map {A B} (f : A -> B) l y : y ∈ map f l <-> exists x, y = f x /\ x ∈ l.
Proof. exact (list_elem_of_fmap f l y). Qed.
Lemma NoDup_map_inj {A B} (f : A -> B) l i j x y :
  NoDup (map f l) -> l !! i = Some x -> l !! j = Some y -> f x = f y -> i = j.
Proof.
  intros Hn Hi Hj E. eapply (NoDup_lookup _ i j (f x)); [exact Hn|..]; rewrite map_lookup.
  - by rewrite Hi.
  - by rewrite Hj, E.
Qed.

#[export] Instance filter_bool_perm {A} (f : A -> bool) : Proper ((≡ₚ) ==> (≡ₚ)) (List.filter f).
Proof.
  intros l l' Hp. induction Hp as [|x l l' _ IH|x y l|l1 l2 l3 _ IH1 _ IH2]; cbn; [done|..].
  - destruct (f x); by rewrite IH.
  - destruct (f x), (f y); try done. apply Permutation_swap.
  - by rewrite IH1.
Qed.

(** ** Automation *)
Create HintDb rho.

(** Break the first [if]/[match] of the goal or of a hypothesis on an atomic
    scrutinee, remembering the case. *)
Ltac break_match :=
  match goal with
  | |- context [match ?x with _ => _ end] =>
      lazymatch x with context [match _ with _ => _ end] => fail | _ => destruct x eqn:? end
  | H : context [match ?x with _ => _ end] |- _ =>
      lazymatch x with context [match _ with _ => _ end] => fail | _ => destruct x eqn:? end
  end.
(** Turn boolean tests into propositions. *)
Ltac reflect_bools :=
  repeat match goal with
  | H : (_ && _)%bool = true |- _ => apply andb_true_iff in H as [? ?]
  | H : (_ || _)%bool = false |- _ => apply orb_false_iff in H as [? ?]
  | H : negb _ = true |- _ => apply negb_true_iff in H
  | H : negb _ = false |- _ => apply negb_false_iff in H
  | H : (_ =? _)%Z = true |- _ => apply Z.eqb_eq in H
  | H : (_ =? _)%Z = false |- _ => apply Z.eqb_neq in H
  | H : (_ <? _)%Z = true |- _ => apply Z.ltb_lt in H
  | H : (_ <? _)%Z = false |- _ => apply Z.ltb_ge in H
  | H : (_ <=? _)%Z = true |- _ => apply Z.leb_le in H
  | H : (_ <=? _)%Z = false |- _ => apply Z.leb_gt in H
  | H : String.eqb _ _ = true |- _ => apply String.eqb_eq in H
  | H : String.eqb _ _ = false |- _ => apply String.eqb_neq in H
  end.

(** ** Decimal renderings round-trip *)
Lemma to_uint_norm n : Decimal.unorm (N.to_uint n) = N.to_uint n.
Proof. by rewrite <- DecimalN.Unsigned.to_of, DecimalN.Unsigned.of_to. Qed.

Lemma dec_digits_nonnil n : dec_digits n = NilEmpty.string_of_uint (N.to_uint n) /\
  exists c s, dec_digits n = String c s.
Proof.
  unfold dec_digits. pose proof (DecimalFacts.unorm_nonnil (N.to_uint n)) as Hn.
  rewrite to_uint_norm in Hn. destruct (N.to_uint n); try done; cbn; eauto.
Qed.

Lemma parse_dec_digits n : parse_digits (dec_digits n) = Some n.
Proof.
  destruct (dec_digits_nonnil n) as [E (c & s & E')]. unfold parse_digits. rewrite E', <- E', E.
  by rewrite NilEmpty.usu, DecimalN.Unsigned.of_to.
Qed.

(** The digits of a rendering: no leading zero, except in zero itself. *)
Lemma dec_digits_head n : dec_digits n = "0" \/
  exists c s, dec_digits n = String c s /\ Ascii.eqb c "0" = false /\ Ascii.eqb c "-" = false /\
    Ascii.eqb c "+" = false.
Proof.
  pose proof (DecimalFacts.unorm_nonnil (N.to_uint n)) as Hn.
  pose proof (to_uint_norm n) as E. rewrite E in Hn. unfold dec_digits.
  destruct (N.to_uint n) as [|u|u|u|u|u|u|u|u|u|u]; [done|..]; cbn; try (right; by eauto 8).
  left. rewrite DecimalFacts.unorm_D0 in E. unfold Decimal.unorm in E.
  destruct (Decimal.nzhead u) eqn:Eu; try done; [by injection E as <-|].
  exfalso. by apply (DecimalFacts.nzhead_nonzero u u0).
Qed.

Lemma parse_fmt_d z : in_int64 z -> parse_int64 (fmt_d z) = Some z.
Proof.
  intros [H1 H2]. unfold parse_int64, fmt_d. destruct (z <? 0) eqn:E; reflect_bools.
  - cbn. rewrite parse_dec_digits, Z2N.id, Z.opp_involutive by lia.
    by rewrite (proj2 (Z.leb_le _ _) H1), (proj2 (Z.leb_le _ _) H2).
  - destruct (dec_digits_nonnil (Z.to_N z)) as [_ (c & s & Ec)].
    assert (Hs : Ascii.eqb c "-" = false /\ Ascii.eqb c "+" = false).
    { destruct (dec_digits_head (Z.to_N z)) as [Eh|(c' & s' & Eh & _ & ? & ?)];
        rewrite Ec in Eh; injection Eh as -> ->; done. }
    destruct Hs as [Hs1 Hs2]. rewrite Ec, Hs1, Hs2, <- Ec, parse_dec_digits, Z2N.id by lia.
    by rewrite (proj2 (Z.leb_le _ _) H1), (proj2 (Z.leb_le _ _) H2).
Qed.

#[global] Arguments fmt_d : simpl never.
#[global] Arguments parse_int64 : simpl never.

Lemma fmt_d_inj z z' : in_int64 z -> in_int64 z' -> fmt_d z = fmt_d z' -> z = z'.
Proof.
  intros Hz Hz' E. pose proof (parse_fmt_d z Hz) as P. rewrite E, (parse_fmt_d z' Hz') in P. congruence.
Qed.
