(* ===== verification/Postgres.v ===== *)
(** * Postgres: statements, transactions and faults.

    A program over a database of type [D] sends statements one at a time. Each may fail:
    the [faults] of a run say which, with what error, and whether the server had carried
    the statement out when the connection broke. [transaction] rolls back on an error of
    its body; a commit that fails may have been carried out. [ORDER BY] is the sorting of
    [GoRuntime]: a sorted permutation, with ties in any order. *)
From S2P Require Import Prelude.

(** A [timestamptz] has microseconds. *)
Class PgTime := {
  pg_ts : Z -> Z;
  pg_ts_micro : forall t, t mod 1000 = 0 -> pg_ts t = t;
}.

(** [SUM] has no width; [Scan] into an int64 does. *)
Definition scan_sum (l : list Z) : res string Z :=
  let s := sumZ l in
  if (int64_min <=? s) && (s <=? int64_max) then Ok s else Err "converting driver.Value: value out of range".
Lemma scan_sum_ok l s : scan_sum l = Ok s -> s = sumZ l /\ in_int64 s.
Proof.
  unfold scan_sum. destruct (_ && _) eqn:E; [|done]. intros [= <-]. split; [done|].
  by apply andb_true_iff in E as [?%Z.leb_le ?%Z.leb_le].
Qed.

Record fault := mkFault { f_error : string; f_applied : bool }.
Abbreviation faults := (nat -> option fault).
Definition no_faults : faults := fun _ => None.

(** How a body ends that did not fail: it commits, or returns and the deferred
    [Rollback] runs. *)
Inductive tx_end (A : Type) := Commit (a : A) | Rollback (a : A).
Arguments Commit {A} a.
Arguments Rollback {A} a.

Section sql.
Context {D : Type}.

(** The number of statements sent so far, and the database. *)
Definition sql (A : Type) : Type := faults -> nat -> D -> res string A * (nat * D).

Definition sret {A} (a : A) : sql A := fun _ n d => (Ok a, (n, d)).
Definition sfail {A} (e : string) : sql A := fun _ n d => (Err e, (n, d)).
Definition sbind {A B} (p : sql A) (k : A -> sql B) : sql B := fun fs n d =>
  match p fs n d with
  | (Ok a, (n', d')) => k a fs n' d'
  | (Err e, nd) => (Err e, nd)
  end.
(** [fmt.Errorf("prefix: %w", err)]. *)
Definition named {A} (prefix : string) (p : sql A) : sql A := fun fs n d =>
  match p fs n d with
  | (Ok a, nd) => (Ok a, nd)
  | (Err e, nd) => (Err (prefix ^^ ": " ^^ e), nd)
  end.
Definition stmt {A} (f : D -> res string A * D) : sql A := fun fs n d =>
  match fs n with
  | None => let '(r, d') := f d in (r, (S n, d'))
  | Some flt => (Err (f_error flt), (S n, if f_applied flt then snd (f d) else d))
  end.
Definition query {A} (f : D -> res string A) : sql A := stmt (fun d => (f d, d)).
Definition begin_tx : sql unit := stmt (fun d => (Ok tt, d)).

(** [BeginTx], the body, [Commit]; on an error the deferred [Rollback]. *)
Definition transaction {A} (begin_err : string -> string) (commit_err : A -> string -> string) (body : sql (tx_end A)) : sql A := fun fs n d =>
  match begin_tx fs n d with
  | (Err e, (n1, _)) => (Err (begin_err e), (n1, d))
  | (Ok _, (n1, _)) =>
      match body fs n1 d with
      | (Err e, (n2, _)) => (Err e, (n2, d))
      | (Ok (Rollback a), (n2, _)) => (Ok a, (n2, d))
      | (Ok (Commit a), (n2, d2)) =>
          match fs n2 with
          | None => (Ok a, (S n2, d2))
          | Some flt => (Err (commit_err a (f_error flt)), (S n2, if f_applied flt then d2 else d))
          end
      end
  end.
End sql.
Arguments sql D A : clear implicits.

Declare Scope sql_scope.
Delimit Scope sql_scope with sql.
Bind Scope sql_scope with sql.
Notation "x <- p ;; q" := (sbind p (fun x => q)) (at level 100, p at next level, right associativity) : sql_scope.
Notation "p ;; q" := (sbind p (fun _ => q)) (at level 100, right associativity) : sql_scope.

Section facts.
Context {D A : Type}.
Implicit Types (p : sql D A) (d : D).

(** A program that never changes the database. *)
Definition reads p : Prop := forall fs n d, snd (snd (p fs n d)) = d.
Lemma reads_query (f : D -> res string A) : reads (query f).
Proof. intros fs n d. unfold query, stmt. destruct (fs n) as [flt|]; [by destruct (f_applied flt)|done]. Qed.

(** What a program does when no statement fails. *)
Definition runs p d : res string A * D := let '(r, (_, d')) := p no_faults 0%nat d in (r, d').

(** All or nothing: a transaction leaves the database as it was, or as its body does
    when it comes to its commit. *)
Lemma transaction_atomic (be : string -> string) (ce : A -> string -> string) (body : sql D (tx_end A)) fs n d r n' d' :
  transaction be ce body fs n d = (r, (n', d')) ->
  d' = d \/ exists a n2, body fs (S n) d = (Ok (Commit a), (n2, d')).
Proof.
  unfold transaction, begin_tx, stmt. destruct (fs n) as [flt|]; [intros [= _ _ <-]; by left|].
  destruct (body fs (S n) d) as [[[a|a]|e] [n2 d2]] eqn:E; [|by intros [= _ _ <-]; left|by intros [= _ _ <-]; left].
  destruct (fs n2) as [flt|]; [destruct (f_applied flt)|]; intros [= _ _ <-]; eauto.
Qed.
Lemma transaction_ok (be : string -> string) (ce : A -> string -> string) (body : sql D (tx_end A)) fs n d a n' d' :
  transaction be ce body fs n d = (Ok a, (n', d')) ->
  exists n2, body fs (S n) d = (Ok (Commit a), (n2, d')) \/
    d' = d /\ exists d2, body fs (S n) d = (Ok (Rollback a), (n2, d2)).
Proof.
  unfold transaction, begin_tx, stmt. destruct (fs n) as [flt|]; [done|].
  destruct (body fs (S n) d) as [[[a'|a']|e] [n2 d2]] eqn:E; [|intros [= -> _ <-]; eauto 6|done].
  destruct (fs n2); [done|]. intros [= -> _ <-]. eauto.
Qed.
End facts.

Lemma sbind_ok {D A B} (p : sql D A) (k : A -> sql D B) fs n d b nd :
  sbind p k fs n d = (Ok b, nd) -> exists a n1 d1, p fs n d = (Ok a, (n1, d1)) /\ k a fs n1 d1 = (Ok b, nd).
Proof. unfold sbind. destruct (p fs n d) as [[a|e] [n1 d1]] eqn:E; [eauto 6|done]. Qed.
Lemma named_ok {D A} prefix (p : sql D A) fs n d a nd :
  named prefix p fs n d = (Ok a, nd) -> p fs n d = (Ok a, nd).
Proof. unfold named. by destruct (p fs n d) as [[?|?] ?]. Qed.
Lemma stmt_ok {D A} (f : D -> res string A * D) fs n d a n' d' :
  stmt f fs n d = (Ok a, (n', d')) -> f d = (Ok a, d') /\ n' = S n.
Proof. unfold stmt. destruct (fs n); [done|]. destruct (f d). by intros [= -> <- ->]. Qed.
Lemma query_ok {D A} (f : D -> res string A) fs n d a n' d' :
  query f fs n d = (Ok a, (n', d')) -> f d = Ok a /\ d' = d.
Proof. intros [E _]%stmt_ok. by injection E as -> ->. Qed.
