(* ===== verification/Json.v ===== *)
(** * Json: what the library uses of Go's [encoding/json].

    [json] is the syntax tree of a document, [parse] the reader of [json.Unmarshal]
    (RFC 8259 as the package reads it: escapes, surrogate pairs, coercion of invalid
    UTF-8, no trailing data), [render] the writer of [json.Marshal] (HTML-safe
    escapes). [dec_*] are the rules by which a tree is stored into a Go value:
    [null] leaves a string, number or struct alone and sets a pointer, map or slice
    to nil, keys match field names up to case, a type mismatch is an error. [parse_render]
    is the round trip the session-metadata theorem rests on. *)
From S2P Require Import Prelude.

#[local] Unset Elimination Schemes.
Inductive json :=
| JNull
| JBool (b : bool)
| JNum (lit : string)
| JStr (s : string)
| JArr (l : list json)
| JObj (l : list (string * json)).
#[local] Set Elimination Schemes.

(** Induction with the hypothesis for the elements of arrays and objects. *)
Section json_ind.
Variable P : json -> Prop.
Hypothesis Hnull : P JNull.
Hypothesis Hbool : forall b, P (JBool b).
Hypothesis Hnum : forall lit, P (JNum lit).
Hypothesis Hstr : forall s, P (JStr s).
Hypothesis Harr : forall l, Forall P l -> P (JArr l).
Hypothesis Hobj : forall l, Forall (fun kv => P (snd kv)) l -> P (JObj l).
Fixpoint json_ind (j : json) : P j :=
  match j with
  | JNull => Hnull
  | JBool b => Hbool b
  | JNum lit => Hnum lit
  | JStr s => Hstr s
  | JArr l => Harr l ((fix go l : Forall P l :=
      match l with [] => Forall_nil_2 _ | j :: l' => Forall_cons_2 _ _ _ (json_ind j) (go l') end) l)
  | JObj l => Hobj l ((fix go l : Forall (fun kv => P (snd kv)) l :=
      match l with
      | [] => Forall_nil_2 _
      | kv :: l' => Forall_cons_2 _ _ _ (json_ind (snd kv)) (go l')
      end) l)
  end.
End json_ind.

(** ** Bytes *)
Definition quote : ascii := "034"%char.
Definition byte (c : ascii) : N := N_of_ascii c.
Definition chr (n : N) : ascii := ascii_of_N n.
Definition between (a b : N) (c : ascii) : bool := (a <=? byte c)%N && (byte c <=? b)%N.
Definition is_digit (c : ascii) : bool := between 48 57 c.
Definition is_ws (c : ascii) : bool :=
  Ascii.eqb c " " || Ascii.eqb c "009" || Ascii.eqb c "010" || Ascii.eqb c "013".

Definition hex_val (c : ascii) : option N :=
  if is_digit c then Some (byte c - 48)%N
  else if between 97 102 c then Some (byte c - 87)%N
  else if between 65 70 c then Some (byte c - 55)%N
  else None.
Definition hex4 (a b c d : ascii) : option N :=
  match hex_val a, hex_val b, hex_val c, hex_val d with
  | Some a, Some b, Some c, Some d => Some (a * 4096 + b * 256 + c * 16 + d)%N
  | _, _, _, _ => None
  end.

(** The UTF-8 encoding of a code point. *)
Definition utf8 (r : N) : string :=
  if (r <? 128)%N then String (chr r) ""
  else if (r <? 2048)%N then String (chr (192 + r / 64)) (String (chr (128 + r mod 64)) "")
  else if (r <? 65536)%N then
    String (chr (224 + r / 4096)) (String (chr (128 + r / 64 mod 64)) (String (chr (128 + r mod 64)) ""))
  else
    String (chr (240 + r / 262144)) (String (chr (128 + r / 4096 mod 64))
      (String (chr (128 + r / 64 mod 64)) (String (chr (128 + r mod 64)) ""))).
Definition replacement : string := utf8 65533.

Definition cont (c : ascii) : bool := between 128 191 c.
Definition utf8_2 (a b : ascii) : bool := between 194 223 a && cont b.
Definition utf8_3 (a b c : ascii) : bool :=
  (((byte a =? 224)%N && between 160 191 b) || (between 225 236 a && cont b) ||
   ((byte a =? 237)%N && between 128 159 b) || (between 238 239 a && cont b)) && cont c.
Definition utf8_4 (a b c d : ascii) : bool :=
  (((byte a =? 240)%N && between 144 191 b) || (between 241 243 a && cont b) ||
   ((byte a =? 244)%N && between 128 143 b)) && cont c && cont d.

(** Every byte that does not belong to a well-formed sequence becomes U+FFFD. *)
Fixpoint coerce_utf8 (s : string) : string :=
  match s with
  | EmptyString => EmptyString
  | String a s1 =>
      if (byte a <? 128)%N then String a (coerce_utf8 s1)
      else match s1 with
      | String b s2 =>
          if utf8_2 a b then String a (String b (coerce_utf8 s2))
          else match s2 with
          | String c s3 =>
              if utf8_3 a b c then String a (String b (String c (coerce_utf8 s3)))
              else match s3 with
              | String d s4 =>
                  if utf8_4 a b c d
                  then String a (String b (String c (String d (coerce_utf8 s4))))
                  else replacement ^^ coerce_utf8 s1
              | EmptyString => replacement ^^ coerce_utf8 s1
              end
          | EmptyString => replacement ^^ coerce_utf8 s1
          end
      | EmptyString => replacement
      end
  end.

(** ** Reading *)
Fixpoint skip_ws (s : string) : string :=
  match s with
  | String c s' => if is_ws c then skip_ws s' else s
  | EmptyString => s
  end.

Definition consed (p : string) (r : option (string * string)) : option (string * string) :=
  match r with Some (t, rest) => Some (p ^^ t, rest) | None => None end.

Definition simple_escape (e : ascii) : option ascii :=
  if Ascii.eqb e quote then Some quote
  else if Ascii.eqb e "\" then Some "\"%char
  else if Ascii.eqb e "/" then Some "/"%char
  else if Ascii.eqb e "b" then Some "008"%char
  else if Ascii.eqb e "f" then Some "012"%char
  else if Ascii.eqb e "n" then Some "010"%char
  else if Ascii.eqb e "r" then Some "013"%char
  else if Ascii.eqb e "t" then Some "009"%char
  else None.

Definition is_surrogate (r : N) : bool := (55296 <=? r)%N && (r <? 57344)%N.
(** [utf16.DecodeRune], when the halves form a pair. *)
Definition surrogate_pair (hi lo : N) : option N :=
  if (55296 <=? hi)%N && (hi <? 56320)%N && (56320 <=? lo)%N && (lo <? 57344)%N
  then Some ((hi - 55296) * 1024 + (lo - 56320) + 65536)%N else None.

(** The rest of a string after its opening quote: its bytes with the escapes
    resolved, and what follows the closing quote. *)
Fixpoint read_string (s : string) : option (string * string) :=
  match s with
  | EmptyString => None
  | String c s' =>
      if Ascii.eqb c quote then Some ("", s')
      else if Ascii.eqb c "\" then
        match s' with
        | String e s2 =>
            if Ascii.eqb e "u" then
              match s2 with
              | String h1 (String h2 (String h3 (String h4 s3))) =>
                  match hex4 h1 h2 h3 h4 with
                  | None => None
                  | Some r =>
                      if negb (is_surrogate r) then consed (utf8 r) (read_string s3)
                      else match s3 with
                      | String b1 (String b2 (String l1 (String l2 (String l3 (String l4 s4))))) =>
                          match (if Ascii.eqb b1 "\" && Ascii.eqb b2 "u" then hex4 l1 l2 l3 l4 else None) with
                          | Some lo =>
                              match surrogate_pair r lo with
                              | Some cp => consed (utf8 cp) (read_string s4)
                              | None => consed replacement (read_string s3)
                              end
                          | None => consed replacement (read_string s3)
                          end
                      | _ => consed replacement (read_string s3)
                      end
                  end
              | _ => None
              end
            else match simple_escape e with
                 | Some x => consed (String x "") (read_string s2)
                 | None => None
                 end
        | EmptyString => None
        end
      else if (byte c <? 32)%N then None
      else consed (String c "") (read_string s')
  end.

Fixpoint span_digits (s : string) : string * string :=
  match s with
  | String c s' =>
      if is_digit c then let '(d, r) := span_digits s' in (String c d, r) else ("", s)
  | EmptyString => ("", s)
  end.

(** A number: an optional sign, digits without a leading zero, an optional fraction,
    an optional exponent. *)
Definition read_int (s : string) : option (string * string) :=
  match s with
  | String c s' =>
      if Ascii.eqb c "0" then Some ("0", s')
      else match span_digits s with
           | (EmptyString, _) => None
           | (d, r) => Some (d, r)
           end
  | EmptyString => None
  end.
Definition read_frac (s : string) : option (string * string) :=
  match s with
  | String c s' =>
      if Ascii.eqb c "." then
        match span_digits s' with
        | (EmptyString, _) => None
        | (d, r) => Some (String c d, r)
        end
      else Some ("", s)
  | EmptyString => Some ("", s)
  end.
Definition read_exp (s : string) : option (string * string) :=
  match s with
  | String c s' =>
      if Ascii.eqb c "e" || Ascii.eqb c "E" then
        let '(sg, s2) :=
          match s' with
          | String x s2 => if Ascii.eqb x "+" || Ascii.eqb x "-" then (String x "", s2) else ("", s')
          | EmptyString => ("", s')
          end in
        match span_digits s2 with
        | (EmptyString, _) => None
        | (d, r) => Some (String c (sg ^^ d), r)
        end
      else Some ("", s)
  | EmptyString => Some ("", s)
  end.
Definition read_number (s : string) : option (string * string) :=
  let '(sg, s1) :=
    match s with
    | String c s' => if Ascii.eqb c "-" then ("-", s') else ("", s)
    | EmptyString => ("", s)
    end in
  match read_int s1 with
  | None => None
  | Some (i, s2) =>
      match read_frac s2 with
      | None => None
      | Some (f, s3) =>
          match read_exp s3 with
          | None => None
          | Some (e, s4) => Some (sg ^^ i ^^ f ^^ e, s4)
          end
      end
  end.

Definition read_lit (lit : string) (j : json) (s : string) : option (json * string) :=
  if String.prefix lit s then Some (j, string_drop (String.length lit) s) else None.

(** One value and what follows it; the fuel bounds the nesting. *)
Fixpoint read_value (fuel : nat) (s : string) : option (json * string) :=
  match fuel with
  | O => None
  | S fuel =>
      match skip_ws s with
      | EmptyString => None
      | String c s' =>
          if Ascii.eqb c quote then
            match read_string s' with
            | Some (t, r) => Some (JStr (coerce_utf8 t), r)
            | None => None
            end
          else if Ascii.eqb c "[" then
            match skip_ws s' with
            | String c2 r =>
                if Ascii.eqb c2 "]" then Some (JArr [], r)
                else match read_elems fuel s' with
                     | Some (l, r) => Some (JArr l, r)
                     | None => None
                     end
            | EmptyString => None
            end
          else if Ascii.eqb c "{" then
            match skip_ws s' with
            | String c2 r =>
                if Ascii.eqb c2 "}" then Some (JObj [], r)
                else match read_members fuel s' with
                     | Some (l, r) => Some (JObj l, r)
                     | None => None
                     end
            | EmptyString => None
            end
          else if Ascii.eqb c "n" then read_lit "null" JNull (String c s')
          else if Ascii.eqb c "t" then read_lit "true" (JBool true) (String c s')
          else if Ascii.eqb c "f" then read_lit "false" (JBool false) (String c s')
          else match read_number (String c s') with
               | Some (lit, r) => Some (JNum lit, r)
               | None => None
               end
      end
  end
with read_elems (fuel : nat) (s : string) : option (list json * string) :=
  match fuel with
  | O => None
  | S fuel =>
      match read_value fuel s with
      | None => None
      | Some (j, r) =>
          match skip_ws r with
          | String c r' =>
              if Ascii.eqb c "]" then Some ([j], r')
              else if Ascii.eqb c "," then
                match read_elems fuel r' with
                | Some (l, r2) => Some (j :: l, r2)
                | None => None
                end
              else None
          | EmptyString => None
          end
      end
  end
with read_members (fuel : nat) (s : string) : option (list (string * json) * string) :=
  match fuel with
  | O => None
  | S fuel =>
      match skip_ws s with
      | String q s1 =>
          if Ascii.eqb q quote then
            match read_string s1 with
            | None => None
            | Some (k, s2) =>
                match skip_ws s2 with
                | String c s3 =>
                    if Ascii.eqb c ":" then
                      match read_value fuel s3 with
                      | None => None
                      | Some (j, r) =>
                          match skip_ws r with
                          | String c r' =>
                              if Ascii.eqb c "}" then Some ([(coerce_utf8 k, j)], r')
                              else if Ascii.eqb c "," then
                                match read_members fuel r' with
                                | Some (l, r2) => Some ((coerce_utf8 k, j) :: l, r2)
                                | None => None
                                end
                              else None
                          | EmptyString => None
                          end
                      end
                    else None
                | EmptyString => None
                end
            end
          else None
      | EmptyString => None
      end
  end.

(** The whole input; every level of nesting takes at least one byte. *)
Definition parse (s : string) : option json :=
  match read_value (S (2 * String.length s)) s with
  | Some (j, r) => match skip_ws r with EmptyString => Some j | _ => None end
  | None => None
  end.

(** ** Writing *)
Definition hex_digit (n : N) : ascii := if (n <? 10)%N then chr (48 + n) else chr (87 + n).
Definition unicode_escape (n : N) : string :=
  "\u" ^^ String (hex_digit (n / 4096)) (String (hex_digit (n / 256 mod 16))
    (String (hex_digit (n / 16 mod 16)) (String (hex_digit (n mod 16)) ""))).

Definition escape_ascii (c : ascii) : string :=
  if Ascii.eqb c quote then String "\" (String quote "")
  else if Ascii.eqb c "\" then "\\"
  else if Ascii.eqb c "008" then "\b"
  else if Ascii.eqb c "012" then "\f"
  else if Ascii.eqb c "010" then "\n"
  else if Ascii.eqb c "013" then "\r"
  else if Ascii.eqb c "009" then "\t"
  else if (byte c <? 32)%N || Ascii.eqb c "<" || Ascii.eqb c ">" || Ascii.eqb c "&"
       then unicode_escape (byte c)
  else String c "".

(** U+2028 and U+2029. *)
Definition line_separator (a b c : ascii) : bool :=
  (byte a =? 226)%N && (byte b =? 128)%N && ((byte c =? 168)%N || (byte c =? 169)%N).

Fixpoint escape (s : string) : string :=
  match s with
  | EmptyString => EmptyString
  | String a s1 =>
      if (byte a <? 128)%N then escape_ascii a ^^ escape s1
      else match s1 with
      | String b s2 =>
          if utf8_2 a b then String a (String b (escape s2))
          else match s2 with
          | String c s3 =>
              if utf8_3 a b c then
                (if line_separator a b c then unicode_escape (8064 + byte c)
                 else String a (String b (String c ""))) ^^ escape s3
              else match s3 with
              | String d s4 =>
                  if utf8_4 a b c d then String a (String b (String c (String d (escape s4))))
                  else unicode_escape 65533 ^^ escape s1
              | EmptyString => unicode_escape 65533 ^^ escape s1
              end
          | EmptyString => unicode_escape 65533 ^^ escape s1
          end
      | EmptyString => unicode_escape 65533
      end
  end.

Definition render_string (s : string) : string := String quote (escape s ^^ String quote "").

Fixpoint render (j : json) : string :=
  match j with
  | JNull => "null"
  | JBool true => "true"
  | JBool false => "false"
  | JNum lit => lit
  | JStr s => render_string s
  | JArr l => "[" ^^ String.concat "," (map render l) ^^ "]"
  | JObj l => "{" ^^ String.concat "," (map (fun '(k, j) => render_string k ^^ ":" ^^ render j) l) ^^ "}"
  end.

(** How a document is laid out: what stands before an element at a depth, and after a
    colon. *)
Record layout := mkLayout { ly_break : nat -> string; ly_gap : string }.
(** [Marshal], and [MarshalIndent] with two spaces: no space at all, a line for every
    element. *)
Definition compact : layout := mkLayout (fun _ => "") "".
Fixpoint blanks (n : nat) : string := match n with O => "" | S n => String " " (blanks n) end.
Definition indented : layout := mkLayout (fun d => String "010" (blanks (2 * d))) " ".
Fixpoint print (L : layout) (d : nat) (j : json) : string :=
  match j with
  | JNull => "null"
  | JBool true => "true"
  | JBool false => "false"
  | JNum lit => lit
  | JStr s => render_string s
  | JArr [] => "[]"
  | JArr l => "[" ^^ String.concat "," (map (fun j => ly_break L (S d) ^^ print L (S d) j) l) ^^ ly_break L d ^^ "]"
  | JObj [] => "{}"
  | JObj l =>
      "{" ^^ String.concat "," (map (fun '(k, j) => ly_break L (S d) ^^ render_string k ^^ ":" ^^ ly_gap L ^^ print L (S d) j) l) ^^
      ly_break L d ^^ "}"
  end.
Definition MarshalIndent (j : json) : string := print indented 0 j.

(** ** Reading back a string *)
Lemma consed_consed p q r : consed p (consed q r) = consed (p ^^ q) r.
Proof. destruct r as [[t rest]|]; cbn; [|done]. by rewrite append_assoc. Qed.

Lemma read_plain c s :
  Ascii.eqb c quote = false -> Ascii.eqb c "\" = false -> (byte c <? 32)%N = false ->
  read_string (String c s) = consed (String c "") (read_string s).
Proof. intros H1 H2 H3. cbn [read_string]. by rewrite H1, H2, H3. Qed.

Lemma high_plain c s :
  (byte c <? 128)%N = false -> read_string (String c s) = consed (String c "") (read_string s).
Proof.
  intros H. apply read_plain; destruct c as [[] [] [] [] [] [] [] []]; done.
Qed.

Lemma read_escape_ascii c s :
  (byte c <? 128)%N = true ->
  read_string (escape_ascii c ^^ s) = consed (String c "") (read_string s).
Proof. destruct c as [[] [] [] [] [] [] [] []]; (discriminate || reflexivity). Qed.

Lemma read_replacement s :
  read_string (unicode_escape 65533 ^^ s) = consed replacement (read_string s).
Proof. reflexivity. Qed.

Lemma read_separator a b c s :
  line_separator a b c = true ->
  read_string (unicode_escape (8064 + byte c) ^^ s) =
    consed (String a (String b (String c ""))) (read_string s).
Proof.
  unfold line_separator. intros [[Ha Hb]%andb_true_iff Hc]%andb_true_iff.
  apply N.eqb_eq in Ha, Hb. apply orb_true_iff in Hc.
  rewrite <- (ascii_N_embedding a), <- (ascii_N_embedding b), <- (ascii_N_embedding c).
  unfold byte in *. rewrite Ha, Hb. rewrite !N_ascii_embedding by
    (destruct Hc as [->%N.eqb_eq| ->%N.eqb_eq]; lia).
  by destruct Hc as [->%N.eqb_eq| ->%N.eqb_eq].
Qed.

Lemma cont_high c : cont c = true -> (byte c <? 128)%N = false.
Proof. unfold cont, between. intros [?%N.leb_le _]%andb_true_iff. by apply N.ltb_ge. Qed.

Lemma utf8_high :
  (forall a b, utf8_2 a b = true -> (byte b <? 128)%N = false) /\
  (forall a b c, utf8_3 a b c = true -> (byte b <? 128)%N = false /\ (byte c <? 128)%N = false) /\
  (forall a b c d, utf8_4 a b c d = true ->
     (byte b <? 128)%N = false /\ (byte c <? 128)%N = false /\ (byte d <? 128)%N = false).
Proof.
  unfold utf8_2, utf8_3, utf8_4, cont, between. setoid_rewrite N.ltb_ge.
  split; [|split]; intros *; rewrite ?andb_true_iff, ?orb_true_iff, ?andb_true_iff, ?N.leb_le, ?N.eqb_eq; lia.
Qed.

Lemma read_escape s rest :
  read_string (escape s ^^ String quote rest) = Some (coerce_utf8 s, rest).
Proof.
  destruct utf8_high as (H2 & H3 & H4).
  remember (String.length s) as n eqn:Hn. revert s Hn.
  induction n as [n IH] using lt_wf_ind. intros [|a s1] ->; [reflexivity|].
  assert (R : forall t, (String.length t <= String.length s1)%nat ->
    read_string (escape t ^^ String quote rest) = Some (coerce_utf8 t, rest)).
  { intros t Ht. eapply IH; [|done]. cbn. lia. }
  cbn [escape coerce_utf8]. destruct (byte a <? 128)%N eqn:Ea.
  { rewrite append_assoc, read_escape_ascii, R by done. done. }
  destruct s1 as [|b s2]; [reflexivity|]. destruct (utf8_2 a b) eqn:E2.
  { cbn [String.append]. rewrite !high_plain by eauto. rewrite R by (cbn; lia). done. }
  assert (Rep : read_string ((unicode_escape 65533 ^^ escape (String b s2)) ^^ String quote rest) =
    Some (replacement ^^ coerce_utf8 (String b s2), rest)).
  { rewrite append_assoc, read_replacement, R by done. done. }
  destruct s2 as [|c s3]; [exact Rep|]. destruct (utf8_3 a b c) eqn:E3.
  { apply H3 in E3 as [Eb Ec]. destruct (line_separator a b c) eqn:El.
    - rewrite append_assoc, (read_separator a b c), R by (done || cbn; lia). done.
    - cbn [String.append]. rewrite !high_plain by done. rewrite R by (cbn; lia). done. }
  destruct s3 as [|d s4]; [exact Rep|]. destruct (utf8_4 a b c d) eqn:E4; [|exact Rep].
  apply H4 in E4 as (Eb & Ec & Ed).
  cbn [String.append]. rewrite !high_plain by done. rewrite R by (cbn; lia). done.
Qed.

(** ** Reading back a tree *)

(** Trees [json.Marshal] writes without loss: valid UTF-8 and integer literals. *)
Definition utf8_ok (s : string) : Prop := coerce_utf8 s = s.
Fixpoint json_ok (j : json) : Prop :=
  match j with
  | JNull | JBool _ => True
  | JNum lit => exists z, lit = fmt_d z
  | JStr s => utf8_ok s
  | JArr l => foldr (fun j P => json_ok j /\ P) True l
  | JObj l => foldr (fun '(k, j) P => utf8_ok k /\ json_ok j /\ P) True l
  end.
Fixpoint jsize (j : json) : nat :=
  match j with
  | JArr l => S (foldr (fun j n => S (jsize j + n)) O l)
  | JObj l => S (foldr (fun '(_, j) n => S (jsize j + n)) O l)
  | _ => 1
  end.

(** What may follow a value inside a document. *)
Definition delim (rest : string) : Prop :=
  rest = "" \/ exists c r, rest = String c r /\
    (Ascii.eqb c "," || Ascii.eqb c "]" || Ascii.eqb c "}" || is_ws c = true).

Lemma delim_number rest :
  delim rest -> span_digits rest = ("", rest) /\ read_frac rest = Some ("", rest) /\
    read_exp rest = Some ("", rest).
Proof.
  intros [->|(c & r & -> & Hc)]; [done|].
  unfold is_ws in Hc. rewrite !orb_true_iff, !Ascii.eqb_eq in Hc. destruct_or!; subst; done.
Qed.

Lemma span_digits_uint (u : Decimal.uint) rest :
  span_digits rest = ("", rest) ->
  span_digits (DecimalString.NilEmpty.string_of_uint u ^^ rest)
    = (DecimalString.NilEmpty.string_of_uint u, rest).
Proof. intros Hr. induction u as [|u IH|u IH|u IH|u IH|u IH|u IH|u IH|u IH|u IH|u IH]; cbn; by rewrite ?IH, ?Hr. Qed.

Lemma read_int_dec n rest :
  delim rest -> read_int (dec_digits n ^^ rest) = Some (dec_digits n, rest).
Proof.
  intros Hd. destruct (delim_number rest Hd) as (Hs & _ & _).
  destruct (dec_digits_head n) as [->|(c & s & E & E0 & _)]; [done|].
  destruct (dec_digits_nonnil n) as [En _].
  unfold read_int. rewrite E at 1. cbn [String.append]. rewrite E0.
  rewrite En, span_digits_uint by done. rewrite <- En, E. done.
Qed.

Lemma dec_digits_no_minus n rest :
  exists c s, dec_digits n ^^ rest = String c s /\ Ascii.eqb c "-" = false.
Proof.
  destruct (dec_digits_head n) as [->|(c & s & -> & _ & ? & _)]; cbn; eauto.
Qed.

Lemma read_number_fmt z rest :
  delim rest -> read_number (fmt_d z ^^ rest) = Some (fmt_d z, rest).
Proof.
  intros Hd. destruct (delim_number rest Hd) as (_ & Hf & He). unfold fmt_d, read_number.
  destruct (z <? 0).
  - cbn [String.append]. rewrite Ascii.eqb_refl. rewrite read_int_dec, Hf, He by done.
    cbn. by rewrite !append_nil_r.
  - destruct (dec_digits_no_minus (Z.to_N z) rest) as (c & s & E & Em).
    rewrite E at 1. rewrite Em. rewrite read_int_dec, Hf, He by done.
    cbn. by rewrite !append_nil_r.
Qed.

(** The first byte of a rendered value. *)
Lemma fmt_d_head z rest : exists c s, fmt_d z ^^ rest = String c s /\
  is_ws c = false /\ Ascii.eqb c quote = false /\ Ascii.eqb c "[" = false /\
  Ascii.eqb c "{" = false /\ Ascii.eqb c "n" = false /\ Ascii.eqb c "t" = false /\
  Ascii.eqb c "f" = false /\ Ascii.eqb c "]" = false.
Proof.
  unfold fmt_d. destruct (z <? 0); [by eexists _, _; cbn|].
  destruct (dec_digits_nonnil (Z.to_N z)) as [E (c & s & Ec)]. rewrite E in Ec |- *.
  destruct (N.to_uint (Z.to_N z)); cbn in Ec; [done|..]; by eexists _, _; cbn.
Qed.

Lemma read_number_value fuel z rest :
  delim rest -> read_value (S fuel) (fmt_d z ^^ rest) = Some (JNum (fmt_d z), rest).
Proof.
  intros Hd. pose proof (read_number_fmt z rest Hd) as R.
  destruct (fmt_d_head z rest) as (c & s & E & Hw & Hq & Hb & Hc & Hn & Ht & Hf & _).
  rewrite E in *. cbn [read_value skip_ws]. by rewrite Hw, Hq, Hb, Hc, Hn, Ht, Hf, R.
Qed.

Lemma read_render_string s rest :
  exists t, render_string s ^^ rest = String quote t /\ read_string t = Some (coerce_utf8 s, rest).
Proof.
  unfold render_string. eexists. split; [done|].
  rewrite append_assoc. apply read_escape.
Qed.

(** *** White space *)
Fixpoint all_ws (s : string) : bool := match s with EmptyString => true | String c s => is_ws c && all_ws s end.
Definition layout_ok (L : layout) : Prop := (forall d, all_ws (ly_break L d) = true) /\ all_ws (ly_gap L) = true.
Lemma skip_all_ws w s : all_ws w = true -> skip_ws (w ^^ s) = skip_ws s.
Proof. induction w as [|c w IH]; [done|]. cbn. intros [Hc Hw]%andb_true_iff. by rewrite Hc, IH. Qed.
Lemma read_value_ws fuel w s : all_ws w = true -> read_value (S fuel) (w ^^ s) = read_value (S fuel) s.
Proof. intros Hw. cbn [read_value]. by rewrite skip_all_ws. Qed.
Lemma delim_ws w c r : all_ws w = true -> Ascii.eqb c "," || Ascii.eqb c "]" || Ascii.eqb c "}" = true -> delim (w ^^ String c r).
Proof.
  intros Hw Hc. right. destruct w as [|a w]; cbn in *; [exists c, r; by rewrite Hc|].
  apply andb_true_iff in Hw as [Ha _]. eexists _, _. split; [done|]. by rewrite Ha, orb_true_r.
Qed.

Section layout.
Context (L : layout) (HL : layout_ok L).
Lemma break_ws d : all_ws (ly_break L d) = true.
Proof using HL. apply HL. Qed.
Lemma print_head d j rest :
  json_ok j -> exists c s, print L d j ^^ rest = String c s /\ is_ws c = false /\ Ascii.eqb c "]" = false.
Proof using Type.
  destruct j as [|[]|lit|s|[]|[]]; cbn; try by eauto 6.
  intros (z & ->). destruct (fmt_d_head z rest) as (c & s & E & Hw & Hr).
  exists c, s. repeat split; try done. tauto.
Qed.

(** What the tree lemma shows of one value. *)
Definition reads_back (j : json) : Prop :=
  json_ok j -> forall d fuel rest, (jsize j <= fuel)%nat -> delim rest ->
    read_value fuel (print L d j ^^ rest) = Some (j, rest).
Abbreviation elem d j := (ly_break L (S d) ^^ print L (S d) j).
Abbreviation member d k j := (ly_break L (S d) ^^ render_string k ^^ ":" ^^ ly_gap L ^^ print L (S d) j).
Lemma jsize_pos j : (1 <= jsize j)%nat.
Proof using Type. destruct j; cbn; lia. Qed.
Lemma read_spaced w j d fuel rest : reads_back j -> json_ok j -> all_ws w = true -> (jsize j <= fuel)%nat -> delim rest ->
  read_value fuel (w ^^ (print L d j ^^ rest)) = Some (j, rest).
Proof using Type.
  intros Hj Hok Hw Hf Hd. pose proof (jsize_pos j). destruct fuel as [|fuel]; [lia|]. rewrite read_value_ws by done. by apply Hj.
Qed.

Lemma read_elems_ok l d fuel rest :
  l <> [] -> Forall reads_back l -> json_ok (JArr l) -> (jsize (JArr l) <= S fuel)%nat ->
  read_elems fuel (String.concat "," (map (fun j => elem d j) l) ^^ (ly_break L d ^^ String "]" rest)) = Some (l, rest).
Proof using HL.
  intros Hne Hl. revert fuel. induction Hl as [|j l Hj Hl IH]; intros fuel Hok Hs; [done|].
  destruct Hok as [Hokj Hok]. cbn in Hs. destruct fuel as [|fuel]; [lia|].
  destruct l as [|j2 l].
  - cbn [map String.concat read_elems]. rewrite append_assoc.
    rewrite (read_spaced _ j (S d)) by (done || apply break_ws || (apply delim_ws; [apply break_ws|done]) || lia).
    by rewrite skip_all_ws by apply break_ws.
  - change (String.concat "," (map (fun j => elem d j) (j :: j2 :: l)))
      with (elem d j ^^ ("," ^^ String.concat "," (map (fun j => elem d j) (j2 :: l)))).
    cbn [read_elems]. rewrite !append_assoc.
    rewrite (read_spaced _ j (S d)) by (done || apply break_ws || (by apply (delim_ws "")) || lia).
    cbn [String.append skip_ws]. change (is_ws ",") with false. cbv iota.
    rewrite IH; [done|done|done|cbn in *; lia].
Qed.

Lemma read_members_ok l d fuel rest :
  l <> [] -> Forall (fun kv => reads_back (snd kv)) l -> json_ok (JObj l) ->
  (jsize (JObj l) <= S fuel)%nat ->
  read_members fuel (String.concat "," (map (fun '(k, j) => member d k j) l) ^^ (ly_break L d ^^ String "}" rest)) = Some (l, rest).
Proof using HL.
  intros Hne Hl. revert fuel. induction Hl as [|[k j] l Hj Hl IH]; intros fuel Hok Hs; [done|].
  destruct Hok as (Hk & Hokj & Hok). cbn in Hs, Hj. destruct fuel as [|fuel]; [lia|].
  assert (M : forall rest', delim rest' -> read_members (S fuel) (member d k j ^^ rest') =
    match skip_ws rest' with
    | String c r' =>
        if Ascii.eqb c "}" then Some ([(k, j)], r')
        else if Ascii.eqb c "," then
          match read_members fuel r' with
          | Some (l, r2) => Some ((k, j) :: l, r2)
          | None => None
          end
        else None
    | EmptyString => None
    end).
  { intros rest' Hd. rewrite !append_assoc. cbn [read_members]. rewrite skip_all_ws by apply break_ws.
    destruct (read_render_string k (":" ^^ (ly_gap L ^^ (print L (S d) j ^^ rest')))) as (t & -> & Et).
    cbn [skip_ws]. change (is_ws quote) with false. cbv iota.
    rewrite Ascii.eqb_refl, Et, Hk. cbn [String.append skip_ws]. change (is_ws ":") with false. cbv iota beta.
    change (Ascii.eqb ":" ":") with true. cbv iota.
    rewrite (read_spaced _ j (S d)) by (done || apply HL || lia). by rewrite Hk. }
  destruct l as [|[k2 j2] l].
  - cbn [map String.concat]. rewrite M by (apply delim_ws; [apply break_ws|done]). by rewrite skip_all_ws by apply break_ws.
  - change (String.concat "," (map (fun '(k, j) => member d k j) ((k, j) :: (k2, j2) :: l)))
      with (member d k j ^^ ("," ^^ String.concat "," (map (fun '(k, j) => member d k j) ((k2, j2) :: l)))).
    rewrite append_assoc, M by (by apply (delim_ws "")).
    cbn [String.append skip_ws]. change (is_ws ",") with false. cbv iota.
    rewrite IH; [done|done|done|cbn in *; lia].
Qed.
(** The first byte after the white space of a list of elements or members. *)
Lemma concat_head d (f : json -> string) j l rest :
  (forall r, exists c s, f j ^^ r = ly_break L (S d) ^^ String c s /\ is_ws c = false /\ Ascii.eqb c "]" = false) ->
  exists c s, skip_ws (String.concat "," (map f (j :: l)) ^^ rest) = String c s /\ Ascii.eqb c "]" = false.
Proof using HL.
  intros Hf. assert (Hr : exists r, String.concat "," (map f (j :: l)) ^^ rest = f j ^^ r).
  { destruct l as [|j2 l]; [by exists rest|]. eexists ("," ^^ String.concat "," (map f (j2 :: l)) ^^ rest).
    change (String.concat "," (map f (j :: j2 :: l))) with (f j ^^ ("," ^^ String.concat "," (map f (j2 :: l)))). by rewrite !append_assoc. }
  destruct Hr as [r ->]. destruct (Hf r) as (c & s & -> & Hw & Hc). exists c, s. rewrite skip_all_ws by apply break_ws. cbn. by rewrite Hw.
Qed.
Lemma read_print j : reads_back j.
Proof using HL.
  induction j as [|b|lit|s|l IH|l IH] using json_ind; intros Hok d fuel rest Hs Hd;
    (destruct fuel as [|fuel]; [cbn in Hs; lia|]).
  - by destruct rest.
  - by destruct b, rest.
  - destruct Hok as (z & ->). by apply read_number_value.
  - cbn [print]. destruct (read_render_string s rest) as (t & -> & Et).
    cbn [read_value skip_ws]. change (is_ws quote) with false. cbv iota.
    rewrite Ascii.eqb_refl, Et. cbn in Hok. by rewrite Hok, Hok.
  - destruct l as [|j l]; [reflexivity|].
    pose proof (read_elems_ok (j :: l) d fuel rest ltac:(done) IH Hok ltac:(lia)) as R.
    destruct (concat_head d (fun j => elem d j) j l (ly_break L d ^^ String "]" rest)) as (c & s & E & Hb).
    { intros r. destruct Hok as [Hj _]. destruct (print_head (S d) j r Hj) as (c & s & E & Hw & Hc).
      exists c, s. by rewrite append_assoc, E. }
    cbn [print]. rewrite !append_assoc. cbn [String.append].
    cbn [read_value skip_ws]. change (is_ws "[") with false. cbv iota.
    change (Ascii.eqb "[" quote) with false. change (Ascii.eqb "[" "[") with true. cbv iota. by rewrite E, Hb, R.
  - destruct l as [|[k j] l]; [reflexivity|].
    pose proof (read_members_ok ((k, j) :: l) d fuel rest ltac:(done) IH Hok ltac:(lia)) as R.
    cbn [print]. rewrite !append_assoc. cbn [String.append].
    set (body := String.concat "," _ ^^ (ly_break L d ^^ String "}" rest)) in *.
    assert (H : exists s, skip_ws body = String quote s).
    { subst body. destruct l as [|[k2 j2] l]; cbn [map String.concat]; rewrite !append_assoc, skip_all_ws by apply break_ws;
        unfold render_string; cbn [String.append skip_ws]; change (is_ws quote) with false; cbv iota; eauto. }
    destruct H as (s & E).
    cbn [read_value skip_ws]. change (is_ws "{") with false. cbv iota.
    change (Ascii.eqb "{" quote) with false. change (Ascii.eqb "{" "[") with false.
    change (Ascii.eqb "{" "{") with true. cbv iota. rewrite E. change (Ascii.eqb quote "}") with false. cbv iota. by rewrite R.
Qed.

Lemma concat_length ls :
  (foldr (fun s n => String.length s + n)%nat O ls <= String.length (String.concat "," ls))%nat.
Proof.
  induction ls as [|x ls IH]; [done|]. destruct ls as [|y ls]; [cbn; lia|].
  change (String.concat "," (x :: y :: ls)) with (x ^^ ("," ^^ String.concat "," (y :: ls))).
  rewrite !length_append. cbn [foldr] in *. lia.
Qed.

Lemma elems_length {A} (f : A -> string) (size : A -> nat) l :
  Forall (fun x => size x < 2 * String.length (f x))%nat l ->
  (foldr (fun x n => S (size x + n)) O l <= 2 * String.length (String.concat "," (map f l)))%nat.
Proof using Type.
  intros Hl. pose proof (concat_length (map f l)) as Hc.
  assert (foldr (fun x n => S (size x + n)) O l <= 2 * foldr (fun s n => String.length s + n) O (map f l))%nat; [|lia].
  clear Hc. induction Hl as [|x l Hx _ IH]; cbn in *; lia.
Qed.
Lemma jsize_length j d : json_ok j -> (jsize j < 2 * String.length (print L d j))%nat.
Proof using Type.
  revert d. induction j as [|b|lit|s|l IH|l IH] using json_ind; intros d Hok.
  - cbn. lia.
  - destruct b; cbn; lia.
  - destruct Hok as (z & ->). destruct (fmt_d_head z "") as (c & s & E & _).
    rewrite append_nil_r in E. cbn [jsize print]. rewrite E. cbn. lia.
  - cbn [jsize print]. unfold render_string. cbn. rewrite length_append. cbn. lia.
  - assert (Hl : (foldr (fun j n => S (jsize j + n)) O l <= 2 * String.length (String.concat "," (map (fun j => elem d j) l)))%nat).
    { apply elems_length. cbn in Hok. induction IH as [|j l Hj Hl IH]; constructor; destruct Hok as [Ho Hok].
      - specialize (Hj (S d) Ho). rewrite length_append. lia.
      - by apply IH. }
    destruct l as [|j l]; [cbn; lia|]. cbn [jsize print]. rewrite !length_append. cbn [String.length]. lia.
  - assert (Hl : (foldr (fun x n => S (jsize (snd x) + n)) O l <=
                  2 * String.length (String.concat "," (map (fun x => member d (fst x) (snd x)) l)))%nat).
    { apply (elems_length (fun x => member d (fst x) (snd x)) (fun x => jsize (snd x))). cbn in Hok.
      induction IH as [|[k j] l Hj Hl IH]; constructor; destruct Hok as (_ & Ho & Hok).
      - specialize (Hj (S d) Ho). cbn [fst snd] in *. rewrite !length_append. lia.
      - by apply IH. }
    assert (E1 : foldr (fun '(_, j) n => S (jsize j + n)) O l = foldr (fun x n => S (jsize (snd x) + n)) O l).
    { clear. induction l as [|[k j] l IH]; [done|]. cbn. by rewrite IH. }
    assert (E2 : map (fun '(k, j) => member d k j) l = map (fun x => member d (fst x) (snd x)) l).
    { apply map_ext. by intros [k j]. }
    destruct l as [|kj l]; [cbn; lia|]. cbn [jsize print]. rewrite E1, E2, !length_append. cbn [String.length]. lia.
Qed.

(** Reading what was written gives the tree back, whatever the layout. *)
Lemma parse_print j : json_ok j -> parse (print L 0 j) = Some j.
Proof using HL.
  intros Hok. unfold parse. pose proof (jsize_length j 0 Hok).
  pose proof (read_print j Hok 0%nat (S (2 * String.length (print L 0 j))) "" ltac:(lia) ltac:(by left)) as R.
  rewrite append_nil_r in R. by rewrite R.
Qed.
End layout.
Lemma compact_ok : layout_ok compact.
Proof. done. Qed.
Lemma blanks_ws n : all_ws (blanks n) = true.
Proof. by induction n. Qed.
Lemma indented_ok : layout_ok indented.
Proof. split; [|done]. intros d. cbn. apply blanks_ws. Qed.
(** [Marshal] is the layout without space. *)
Lemma render_print j d : render j = print compact d j.
Proof.
  revert d. induction j as [|b|lit|s|l IH|l IH] using json_ind; intros d; try done.
  - destruct l as [|j l]; [done|]. cbn [render print ly_break compact]. rewrite append_nil_r. do 3 f_equal.
    apply map_ext_Forall. eapply Forall_impl; [exact IH|]. intros x Hx. by rewrite (Hx (S d)).
  - destruct l as [|kj l]; [done|]. cbn [render print ly_break ly_gap compact]. rewrite append_nil_r. do 3 f_equal.
    apply map_ext_Forall. eapply Forall_impl; [exact IH|]. intros [k x] Hx. cbn in *. by rewrite (Hx (S d)), append_nil_r.
Qed.
Lemma parse_render j : json_ok j -> parse (render j) = Some j.
Proof. rewrite (render_print j 0). apply (parse_print compact compact_ok). Qed.
Lemma parse_MarshalIndent j : json_ok j -> parse (MarshalIndent j) = Some j.
Proof. apply (parse_print indented indented_ok). Qed.

(** ** What [Marshal] writes is valid UTF-8 *)
Definition keeps (s : string) : Prop := forall r, coerce_utf8 (s ^^ r) = s ^^ coerce_utf8 r.
Lemma keeps_app a b : keeps a -> keeps b -> keeps (a ^^ b).
Proof. intros Ha Hb r. by rewrite !append_assoc, Ha, Hb. Qed.
Lemma keeps_ascii c s : (byte c <? 128)%N = true -> keeps s -> keeps (String c s).
Proof. intros Hc Hs r. cbn. by rewrite Hc, Hs. Qed.
Lemma keeps_nil : keeps "".
Proof. done. Qed.
Lemma keeps_ok s : keeps s -> utf8_ok s.
Proof. intros Hs. unfold utf8_ok. specialize (Hs ""). by rewrite append_nil_r in Hs; rewrite Hs; cbn; rewrite append_nil_r. Qed.
Lemma keeps_escape_ascii c : (byte c <? 128)%N = true -> keeps (escape_ascii c).
Proof. destruct c as [[] [] [] [] [] [] [] []]; intros E; first [discriminate E|intros r; reflexivity]. Qed.
Lemma keeps_separator c : (byte c =? 168)%N || (byte c =? 169)%N = true -> keeps (unicode_escape (8064 + byte c)).
Proof. intros [->%N.eqb_eq| ->%N.eqb_eq]%orb_true_iff r; reflexivity. Qed.
Lemma keeps_escape s : keeps (escape s).
Proof.
  remember (String.length s) as n eqn:Hn. revert s Hn.
  induction n as [n IH] using lt_wf_ind. intros [|a s1] ->; [apply keeps_nil|].
  assert (R : forall t, (String.length t <= String.length s1)%nat -> keeps (escape t)).
  { intros t Ht. eapply IH; [|done]. cbn. lia. }
  assert (Rep : keeps (unicode_escape 65533 ^^ escape s1)) by (apply keeps_app; [intros r; reflexivity|by apply R]).
  cbn [escape]. destruct (byte a <? 128)%N eqn:Ea; [by apply keeps_app; [apply keeps_escape_ascii|apply R]|].
  destruct s1 as [|b s2]; [intros r; reflexivity|]. destruct (utf8_2 a b) eqn:E2.
  { intros r. cbn. rewrite Ea, E2. by rewrite R by (cbn; lia). }
  destruct s2 as [|c s3]; [exact Rep|]. destruct (utf8_3 a b c) eqn:E3.
  { destruct (line_separator a b c) eqn:El.
    - apply keeps_app; [|apply R; cbn; lia]. apply keeps_separator. unfold line_separator in El. by apply andb_true_iff in El as [_ ->].
    - intros r. cbn. rewrite Ea, E2, E3. by rewrite R by (cbn; lia). }
  destruct s3 as [|d s4]; [exact Rep|]. destruct (utf8_4 a b c d) eqn:E4; [|exact Rep].
  intros r. cbn. rewrite Ea, E2, E3, E4. by rewrite R by (cbn; lia).
Qed.
Lemma keeps_render_string s : keeps (render_string s).
Proof. unfold render_string. apply keeps_ascii; [done|]. apply keeps_app; [apply keeps_escape|by apply keeps_ascii; [|apply keeps_nil]]. Qed.
Lemma keeps_fmt_d z : keeps (fmt_d z).
Proof.
  assert (Hd : forall n, keeps (dec_digits n)).
  { intros n. destruct (dec_digits_nonnil n) as [-> _]. induction (N.to_uint n); [apply keeps_nil|by apply keeps_ascii..]. }
  unfold fmt_d. destruct (z <? 0); [by apply keeps_ascii|done].
Qed.
Lemma keeps_concat l : Forall keeps l -> keeps (String.concat "," l).
Proof.
  induction 1 as [|s l Hs Hl IH]; [apply keeps_nil|]. destruct l as [|t l]; [done|].
  change (keeps (s ^^ ("," ^^ String.concat "," (t :: l)))). apply keeps_app; [done|]. by apply keeps_ascii.
Qed.
Lemma keeps_render j : json_ok j -> keeps (render j).
Proof.
  assert (Hc : forall c s, (byte c <? 128)%N = true -> keeps s -> keeps (String c s)) by apply keeps_ascii.
  induction j as [|[]|lit|s|l IH|l IH] using json_ind; cbn [render]; intros Hj.
  - intros r. reflexivity.
  - intros r. reflexivity.
  - intros r. reflexivity.
  - destruct Hj as [z ->]. apply keeps_fmt_d.
  - apply keeps_render_string.
  - apply keeps_app; [apply keeps_app; [by apply Hc; [|apply keeps_nil]|]|by apply Hc; [|apply keeps_nil]]. apply keeps_concat, Forall_map.
    induction IH as [|j l Hjk _ IHl]; [constructor|]. destruct Hj as [? ?]. constructor; auto.
  - apply keeps_app; [apply keeps_app; [by apply Hc; [|apply keeps_nil]|]|by apply Hc; [|apply keeps_nil]]. apply keeps_concat, Forall_map.
    induction IH as [|[k j] l Hjk _ IHl]; [constructor|]. destruct Hj as (? & ? & ?). constructor; [|auto].
    apply keeps_app; [apply keeps_app; [apply keeps_render_string|by apply Hc; [|apply keeps_nil]]|auto].
Qed.
Lemma utf8_ok_render j : json_ok j -> utf8_ok (render j).
Proof. intros Hj. by apply keeps_ok, keeps_render. Qed.

Lemma utf8_ok_ascii s : (forall i c, String.get i s = Some c -> (byte c <? 128)%N = true) -> utf8_ok s.
Proof.
  unfold utf8_ok. induction s as [|a s IH]; [done|]. intros Ha. cbn [coerce_utf8].
  rewrite (Ha 0%nat a eq_refl), IH; [done|]. intros i c. apply (Ha (S i) c).
Qed.

(** ** Storing a tree into a Go value *)

(** Names compare up to the case of letters; U+017F and U+212A fold to s and k. *)
Fixpoint fold_name (s : string) : string :=
  match s with
  | EmptyString => EmptyString
  | String a s1 =>
      if between 65 90 a then String (chr (byte a + 32)) (fold_name s1)
      else match s1 with
      | String b s2 =>
          if (byte a =? 197)%N && (byte b =? 191)%N then String "s" (fold_name s2)
          else match s2 with
          | String c s3 =>
              if (byte a =? 226)%N && (byte b =? 132)%N && (byte c =? 170)%N
              then String "k" (fold_name s3)
              else String a (fold_name s1)
          | EmptyString => String a (fold_name s1)
          end
      | EmptyString => String a (fold_name s1)
      end
  end.

(** A decoder updates the value it is given, or fails on a type mismatch. *)
Definition decoder (A : Type) := A -> json -> option A.

Definition dec_string : decoder string := fun cur j =>
  match j with JNull => Some cur | JStr s => Some s | _ => None end.
Definition dec_int64 : decoder Z := fun cur j =>
  match j with JNull => Some cur | JNum lit => parse_int64 lit | _ => None end.
Definition dec_bool : decoder bool := fun cur j =>
  match j with JNull => Some cur | JBool b => Some b | _ => None end.
(** [any]: the tree itself; [None] is nil. *)
Definition dec_any : decoder (option json) := fun _ j =>
  match j with JNull => Some None | _ => Some (Some j) end.
Definition dec_ptr {A} (zero : A) (dec : decoder A) : decoder (option A) := fun cur j =>
  match j with
  | JNull => Some None
  | _ => match dec (default zero cur) j with Some a => Some (Some a) | None => None end
  end.
Fixpoint dec_elems {A} (zero : A) (dec : decoder A) (l : list json) : option (list A) :=
  match l with
  | [] => Some []
  | j :: l' =>
      match dec zero j, dec_elems zero dec l' with
      | Some a, Some r => Some (a :: r)
      | _, _ => None
      end
  end.
Definition dec_slice {A} (zero : A) (dec : decoder A) : decoder (list A) := fun _ j =>
  match j with JNull => Some [] | JArr l => dec_elems zero dec l | _ => None end.
(** [map[string]string]: entries are added to the map there is; a nil map and an
    empty one read alike. *)
Fixpoint dec_entries (cur : smap) (l : list (string * json)) : option smap :=
  match l with
  | [] => Some cur
  | (k, j) :: l' =>
      match dec_string "" j with
      | Some v => dec_entries (<[k := v]> cur) l'
      | None => None
      end
  end.
Definition dec_smap : decoder smap := fun cur j =>
  match j with JNull => Some ∅ | JObj l => dec_entries cur l | _ => None end.

(** A struct: every key that names the field, in order, updates it. *)
Fixpoint dec_field {A} (name : string) (dec : decoder A) (cur : A) (l : list (string * json))
  : option A :=
  match l with
  | [] => Some cur
  | (k, j) :: l' =>
      if String.eqb (fold_name k) (fold_name name) then
        match dec cur j with Some a => dec_field name dec a l' | None => None end
      else dec_field name dec cur l'
  end.
Definition dec_struct {A} (dec : A -> list (string * json) -> option A) : decoder A := fun cur j =>
  match j with JNull => Some cur | JObj l => dec cur l | _ => None end.

(** [json.Unmarshal(data, &v)] with [v] at its zero value. *)
Definition Unmarshal {A} (zero : A) (dec : decoder A) (data : string) : option A :=
  match parse data with Some j => dec zero j | None => None end.

(** Decide which of the literal keys of an object name which fields. *)
Ltac match_names :=
  repeat match goal with
  | |- context [String.eqb (fold_name ?a) (fold_name ?b)] =>
      let r := eval vm_compute in (String.eqb (fold_name a) (fold_name b)) in
      replace (String.eqb (fold_name a) (fold_name b)) with r by (vm_compute; reflexivity); cbv iota
  end.

(** ** Decoding what was encoded *)
Lemma dec_elems_map {A} (zero : A) dec (enc : A -> json) l :
  Forall (fun a => dec zero (enc a) = Some a) l -> dec_elems zero dec (map enc l) = Some l.
Proof. induction 1 as [|a l Ha _ IH]; cbn; [done|]. by rewrite Ha, IH. Qed.

Lemma json_ok_arr l : Forall json_ok l -> json_ok (JArr l).
Proof. induction 1; cbn in *; auto. Qed.

(** A [map[string]string], the entries in any order. *)
Definition enc_smap (l : list (string * string)) : json := JObj (map (fun '(k, v) => (k, JStr v)) l).

Lemma json_ok_smap l : Forall (fun kv => utf8_ok (fst kv) /\ utf8_ok (snd kv)) l -> json_ok (enc_smap l).
Proof. induction 1 as [|[k v] l [Hk Hv] _ IH]; cbn in *; auto. Qed.

Lemma dec_enc_smap l (m : smap) :
  NoDup (map fst l) -> dec_entries m (map (fun '(k, v) => (k, JStr v)) l) = Some (list_to_map l ∪ m).
Proof.
  revert m. induction l as [|[k v] l IH]; intros m; cbn [map dec_entries list_to_map fst].
  - intros _. cbn. by rewrite (left_id_L ∅ (∪)).
  - intros [Hk Hl]%NoDup_cons. cbn [dec_string]. rewrite IH by done. f_equal.
    cbn. rewrite <- insert_union_l. apply map_eq. intros i.
    destruct (decide (i = k)) as [->|Hi].
    + rewrite lookup_insert_eq, lookup_union_r; [by rewrite lookup_insert_eq|].
      by apply not_elem_of_list_to_map_1.
    + rewrite lookup_insert_ne by done. rewrite !lookup_union. by rewrite lookup_insert_ne.
Qed.
