(* ===== verification/StripeApi.v ===== *)
(** * StripeApi: idempotency keys, metadata limits, times and error kinds
      (src/stripeapi/idempotency.go, metadata_validate.go, time.go, errors.go).

    SHA-256 is a parameter with the length of its digest as its law; the theorems about
    keys say that two intents share a key only where the truncated digest collides. Ranging
    over a map is that of [GoRuntime], and may differ from one process to the next. *)
From S2P Require Import Prelude Json.

(** ** Bytes *)
Fixpoint string_take (n : nat) (s : string) : string :=
  match n, s with
  | S n, String c s => String c (string_take n s)
  | _, _ => ""
  end.
(** [hex.EncodeToString]. *)
Fixpoint hex_encode (s : string) : string :=
  match s with
  | EmptyString => ""
  | String c s => String (hex_digit (byte c / 16)) (String (hex_digit (byte c mod 16)) (hex_encode s))
  end.
(** [binary.BigEndian.PutUint64] is [big_endian 8]. *)
Fixpoint big_endian (k : nat) (n : N) : string :=
  match k with
  | O => ""
  | S k => String (chr (n / 256 ^ N.of_nat k mod 256)) (big_endian k n)
  end.
Definition strlen (s : string) : N := N.of_nat (String.length s).
(** [utf8.RuneCountInString]: a byte of no well-formed sequence counts for one. *)
Fixpoint count_starts (s : string) : Z :=
  match s with
  | EmptyString => 0
  | String c s => (if cont c then 0 else 1) + count_starts s
  end.
Definition rune_count (s : string) : Z := count_starts (coerce_utf8 s).

Class Sha256 := {
  sha256 : string -> string;
  sha256_length : forall s, String.length (sha256 s) = 32%nat;
}.

(** ** idempotency.go *)
Definition writeLenPrefixed (s : string) : string := big_endian 8 (strlen s) ^^ s.
Definition preimage (l : list string) : string := foldr (fun s h => writeLenPrefixed s ^^ h) "" l.

Definition sorted_keys `{GoRuntime} (m : smap) : list string := sort_slice String.ltb (map fst (map_range m)).
Definition fields_of `{GoRuntime} (m : smap) : list string := flat_map (fun k => [k; mget m k]) (sorted_keys m).

Section keys.
Context `{Sha256}.
Definition digest16 (s : string) : string := string_take 16 (sha256 s).
Definition deriveKey (op : string) (inputs : list string) : string :=
  op ^^ ":" ^^ hex_encode (digest16 (preimage (op :: inputs))).

(** The context carries the caller's key, [""] when there is none. *)
Definition WithIdempotencyKey (key : string) (ctx : string) : string := key.
Definition ApplyIdempotencyKey (ctx op : string) (inputs : list string) : string :=
  if negb (String.eqb ctx "") then ctx else deriveKey op inputs.

Context `{GoRuntime}.
Definition ContentHash (op : string) (fields : smap) : string :=
  hex_encode (digest16 (preimage (op :: fields_of fields))).
End keys.

Definition nul : string := String "000" "".
(** [strings.Join(xs, "\x00")]. *)
Fixpoint CanonicalStrings (xs : list string) : string :=
  match xs with
  | [] => ""
  | [x] => x
  | x :: rest => x ^^ nul ^^ CanonicalStrings rest
  end.
Definition CanonicalMap `{GoRuntime} (m : smap) : string :=
  CanonicalStrings (map (fun k => k ^^ "=" ^^ mget m k) (sorted_keys m)).
Definition CanonicalInt64 (n : Z) : string := fmt_d n.

(** ** metadata_validate.go *)
Definition MetadataMaxKeys : Z := 50.
Definition MetadataMaxKeyChars : Z := 40.
Definition MetadataMaxValueChars : Z := 500.
Inductive limit_error :=
| TooManyKeys (n : Z)
| KeyTooLong (k : string)
| ValueTooLong (k : string) (n : Z).
Fixpoint check_entries (l : list (string * string)) : option limit_error :=
  match l with
  | [] => None
  | (k, v) :: rest =>
      if MetadataMaxKeyChars <? rune_count k then Some (KeyTooLong k)
      else if MetadataMaxValueChars <? rune_count v then Some (ValueTooLong k (rune_count v))
      else check_entries rest
  end.
Definition ValidateMetadata `{GoRuntime} (m : smap) : option limit_error :=
  let n := Z.of_nat (size m) in
  if MetadataMaxKeys <? n then Some (TooManyKeys n) else check_entries (map_range m).

Definition lower_byte (c : ascii) : ascii := if between 65 90 c then chr (byte c + 32) else c.
Fixpoint NormalizeCurrency (s : string) : string :=
  match s with
  | EmptyString => ""
  | String c s => String (lower_byte c) (NormalizeCurrency s)
  end.

(** ** time.go *)
Definition UnixToTime (u : Z) : Z := if u =? 0 then time_zero else time_Unix u.
Definition UnixToTimePtr (u : Z) : option Z := if u =? 0 then None else Some (time_Unix u).

(** ** errors.go: a chain of wrapped errors *)
Record stripe_error := mkStripeError { se_Code : string; se_HTTPStatusCode : Z }.
Inductive go_error :=
| EStripe (e : stripe_error)
| EPlain (msg : string)
| EWrap (msg : string) (e : go_error).
Fixpoint AsStripeError (e : go_error) : option stripe_error :=
  match e with
  | EStripe se => Some se
  | EPlain _ => None
  | EWrap _ e => AsStripeError e
  end.
Definition IsStripeErrorCode (e : go_error) (codes : list string) : bool :=
  match AsStripeError e with
  | None => false
  | Some se => existsb (fun c => String.eqb (se_Code se) c) codes
  end.
Definition IsRateLimited (e : go_error) : bool :=
  match AsStripeError e with
  | None => false
  | Some se => se_HTTPStatusCode se =? 429
  end.

(** ** The encoding is unambiguous *)
Lemma append_inj_len a b a' b' : String.length a = String.length a' -> a ^^ b = a' ^^ b' -> a = a' /\ b = b'.
Proof.
  revert a'. induction a as [|c a IH]; intros [|c' a']; cbn; try done.
  intros [= Hl] [= -> E]. by destruct (IH a' Hl E) as [-> ->].
Qed.
Lemma append_inj_len_r a b a' b' : String.length b = String.length b' -> a ^^ b = a' ^^ b' -> a = a' /\ b = b'.
Proof.
  intros Hl E. apply append_inj_len; [|done]. apply (f_equal String.length) in E. rewrite !length_append in E. lia.
Qed.
Lemma take_length n s : (n <= String.length s)%nat -> String.length (string_take n s) = n.
Proof. revert s. induction n as [|n IH]; intros [|c s]; cbn; intros; try lia. rewrite IH; lia. Qed.
Lemma hex_length s : String.length (hex_encode s) = (2 * String.length s)%nat.
Proof. induction s as [|c s IH]; cbn; [done|]. rewrite IH. lia. Qed.
Lemma byte_bound c : (byte c < 256)%N.
Proof. apply N_ascii_bounded. Qed.
Lemma hex_digit_inj n m : (n < 16)%N -> (m < 16)%N -> hex_digit n = hex_digit m -> n = m.
Proof.
  unfold hex_digit, chr. intros Hn Hm E. apply (f_equal N_of_ascii) in E.
  destruct (N.ltb_spec n 10), (N.ltb_spec m 10); rewrite !N_ascii_embedding in E by lia; lia.
Qed.
Lemma hex_encode_inj s s' : hex_encode s = hex_encode s' -> s = s'.
Proof.
  revert s'. induction s as [|c s IH]; intros [|c' s']; cbn; try done. intros [= E1 E2 E3].
  pose proof (byte_bound c) as Hc. pose proof (byte_bound c') as Hc'.
  apply hex_digit_inj in E1; [|apply N.Div0.div_lt_upper_bound; lia..].
  apply hex_digit_inj in E2; [|apply N.mod_lt; lia..].
  assert (byte c = byte c') as E by (rewrite (N.div_mod' (byte c) 16), (N.div_mod' (byte c') 16); congruence).
  apply (f_equal ascii_of_N) in E. unfold byte in E. rewrite !ascii_N_embedding in E. by rewrite E, (IH s').
Qed.
Lemma big_endian_length k n : String.length (big_endian k n) = k.
Proof. induction k as [|k IH]; cbn; [done|]. by rewrite IH. Qed.
Fixpoint be_value (s : string) (acc : N) : N :=
  match s with EmptyString => acc | String c s => be_value s (acc * 256 + byte c)%N end.
Lemma be_value_spec k n acc : be_value (big_endian k n) acc = (acc * 256 ^ N.of_nat k + n mod 256 ^ N.of_nat k)%N.
Proof.
  revert acc. induction k as [|k IH]; intros acc; cbn [big_endian be_value]; [rewrite N.mod_1_r; cbn; lia|].
  rewrite IH. unfold byte, chr. rewrite N_ascii_embedding by (apply N.mod_lt; lia).
  rewrite Nat2N.inj_succ, N.pow_succ_r'. set (p := (256 ^ N.of_nat k)%N). assert (p <> 0)%N by (apply N.pow_nonzero; lia).
  rewrite (N.mul_comm 256 p), N.Div0.mod_mul_r. lia.
Qed.
Definition fits (s : string) : Prop := (strlen s < 2 ^ 64)%N.
Lemma big_endian_inj n m : (n < 2 ^ 64)%N -> (m < 2 ^ 64)%N -> big_endian 8 n = big_endian 8 m -> n = m.
Proof.
  intros Hn Hm E. apply (f_equal (fun s => be_value s 0)) in E. rewrite !be_value_spec in E.
  change (256 ^ N.of_nat 8)%N with (2 ^ 64)%N in E. rewrite !N.mod_small in E by done. lia.
Qed.
Lemma preimage_inj l l' : Forall fits l -> Forall fits l' -> preimage l = preimage l' -> l = l'.
Proof.
  intros Hl. revert l'. induction Hl as [|s l Hs Hl IH]; intros l' Hl' E; destruct Hl' as [|s' l' Hs' Hl']; [done..|].
  cbn [preimage foldr] in E. unfold writeLenPrefixed in E. rewrite !append_assoc in E.
  apply append_inj_len in E as [E1 E]; [|by rewrite !big_endian_length].
  apply big_endian_inj in E1; [|done..]. apply append_inj_len in E as [-> E]; [|unfold strlen in E1; lia].
  f_equal. by apply IH.
Qed.

Section key_facts.
Context `{Sha256}.
(** Two encodings the truncated digest does not tell apart. *)
Definition collide (l l' : list string) : Prop :=
  preimage l <> preimage l' /\ digest16 (preimage l) = digest16 (preimage l').
Lemma digest16_length s : String.length (digest16 s) = 16%nat.
Proof. unfold digest16. apply take_length. rewrite sha256_length. lia. Qed.
Lemma digest16_preimage l l' :
  Forall fits l -> Forall fits l' -> hex_encode (digest16 (preimage l)) = hex_encode (digest16 (preimage l')) ->
  l = l' \/ collide l l'.
Proof.
  intros Hl Hl' E%hex_encode_inj. destruct (decide (preimage l = preimage l')) as [Ep|Ep].
  - left. by apply preimage_inj.
  - by right.
Qed.

Lemma deriveKey_inj op inputs op' inputs' :
  Forall fits (op :: inputs) -> Forall fits (op' :: inputs') ->
  deriveKey op inputs = deriveKey op' inputs' -> (op = op' /\ inputs = inputs') \/ collide (op :: inputs) (op' :: inputs').
Proof.
  intros Hl Hl' E. unfold deriveKey in E. rewrite !append_assoc in E.
  apply append_inj_len_r in E as [-> E]; [|by rewrite !length_append, !hex_length, !digest16_length].
  apply append_inj_l in E. apply digest16_preimage in E as [E|E]; [left|by right|done..]. by injection E as ->.
Qed.
(** C22: A derived idempotency key identifies the operation and the list of its inputs:
    two writes share a key only if they are the same operation on the same inputs, or
    the truncated SHA-256 takes their two different encodings to the same digest. Neither a separator inside an input nor moving a
    boundary between inputs can make two keys equal. *)
Theorem deriveKey_injective op inputs op' inputs' :
  Forall fits (op :: inputs) -> Forall fits (op' :: inputs') ->
  deriveKey op inputs = deriveKey op' inputs' -> (op = op' /\ inputs = inputs') \/ collide (op :: inputs) (op' :: inputs').
Proof. exact (deriveKey_inj op inputs op' inputs'). Qed.
End key_facts.

(** *** Maps, whatever the order in which they are visited *)
Lemma string_ltb_total x y : String.ltb x y = false -> String.ltb y x = false -> x = y.
Proof.
  unfold String.ltb. rewrite (String.compare_antisym x y). destruct (String.compare y x) eqn:E; cbn; [|done..].
  intros _ _. symmetry. by apply String.compare_eq_iff.
Qed.
Lemma sorted_keys_elem `{GoRuntime} m k : k ∈ sorted_keys m <-> is_Some (m !! k).
Proof.
  unfold sorted_keys. rewrite sort_slice_perm, list_elem_of_fmap. split.
  - intros ([k' v] & -> & Hin). rewrite map_range_elem in Hin. eauto.
  - intros [v Hv]. exists (k, v). by rewrite map_range_elem.
Qed.
Lemma sorted_keys_unique (r1 r2 : GoRuntime) m : sorted_keys (H := r1) m = sorted_keys (H := r2) m.
Proof.
  apply (StronglySorted_unique_strong (fun x y => String.ltb y x = false)).
  - intros x y _ _ E1 E2. by apply string_ltb_total.
  - apply sort_slice_sorted, _.
  - apply sort_slice_sorted, _.
  - unfold sorted_keys. rewrite !sort_slice_perm, !map_range_perm. done.
Qed.
Lemma flat_pairs_inj (f g : string -> string) l l' :
  flat_map (fun k => [k; f k]) l = flat_map (fun k => [k; g k]) l' -> l = l' /\ forall k, k ∈ l -> f k = g k.
Proof.
  revert l'. induction l as [|k l IH]; intros [|k' l']; cbn; try done.
  - by split; [|intros ? ?%not_elem_of_nil].
  - intros [= -> E1 E]. destruct (IH l' E) as [-> IH']. split; [done|]. intros k [->|Hk]%elem_of_cons; auto.
Qed.
Definition fields_fit (m : smap) : Prop := map_Forall (fun k v => fits k /\ fits v) m.
Lemma flat_fits `{GoRuntime} op m :
  fits op -> fields_fit m -> Forall fits (op :: fields_of m).
Proof.
  intros Hop Hm. constructor; [done|]. apply Forall_forall. intros s Hs. rewrite list_elem_of_In in Hs.
  apply in_flat_map in Hs as (k & Hk & Hs).
  rewrite <- list_elem_of_In, sorted_keys_elem in Hk. destruct Hk as [v Hv]. destruct (Hm k v Hv).
  unfold mget in Hs. rewrite Hv in Hs. cbn in Hs. by destruct Hs as [<-|[<-|[]]].
Qed.

(** A content hash identifies its fields across processes: two processes, each visiting
    its map in an order of its own, compute the same hash of the same operation and
    fields, and different ones of different operations or fields, unless the
    truncated SHA-256 takes the two encodings to the same digest. *)
Theorem ContentHash_identifies `{Sha256} (r1 r2 : GoRuntime) op m op' m' :
  fits op -> fits op' -> fields_fit m -> fields_fit m' ->
  ~ collide (op :: fields_of (H := r1) m) (op' :: fields_of (H := r2) m') ->
  ContentHash (H0 := r1) op m = ContentHash (H0 := r2) op' m' <-> op = op' /\ m = m'.
Proof.
  intros Hop Hop' Hm Hm' Hnc. split.
  - intros E. apply digest16_preimage in E as [E|E]; [|done|by apply flat_fits..].
    injection E as -> E. split; [done|]. unfold fields_of in E. rewrite (sorted_keys_unique r2 r1) in E. apply flat_pairs_inj in E as [Ek Ev].
    apply map_eq. intros k. specialize (Ev k). pose proof (@sorted_keys_elem r1 m k) as Hk. pose proof (@sorted_keys_elem r1 m' k) as Hk'.
    rewrite <- Ek, Hk in Hk'. rewrite Hk in Ev. unfold mget in Ev.
    destruct (m !! k) as [v|], (m' !! k) as [v'|]; cbn in *.
    + f_equal. eauto.
    + by destruct (proj1 Hk' ltac:(eauto)).
    + by destruct (proj2 Hk' ltac:(eauto)).
    + done.
  - intros [-> ->]. unfold ContentHash, fields_of. by rewrite (sorted_keys_unique r1 r2).
Qed.

(** The rendering of a map that callers pass as one input is not injective: two
    metadata maps with a separator inside a value give the same input, so that two
    different writes share their idempotency key. *)
Theorem CanonicalMap_collides `{Sha256} (r : GoRuntime) :
  exists m m' : smap, m <> m' /\ CanonicalMap m = CanonicalMap m' /\
    forall op subject, deriveKey op [subject; CanonicalMap m] = deriveKey op [subject; CanonicalMap m'].
Proof.
  set (m := {["a" := "1"; "b" := "2"]} : smap). set (m' := {["a" := "1" ^^ nul ^^ "b=2"]} : smap).
  assert (E : CanonicalMap m = CanonicalMap m').
  { unfold CanonicalMap. rewrite !(sorted_keys_unique r reference_runtime). by vm_compute. }
  exists m, m'. split_and!; [|done|by rewrite E].
  intros Em. apply (f_equal (lookup "b")) in Em. by vm_compute in Em.
Qed.

(** [ValidateMetadata] accepts exactly the maps within the limits of Stripe, counting
    characters and not bytes, in whatever order it visits the entries. *)
Theorem ValidateMetadata_correct `{GoRuntime} m :
  ValidateMetadata m = None <->
  Z.of_nat (size m) <= MetadataMaxKeys /\
  map_Forall (fun k v => rune_count k <= MetadataMaxKeyChars /\ rune_count v <= MetadataMaxValueChars) m.
Proof.
  unfold ValidateMetadata. destruct (Z.ltb_spec MetadataMaxKeys (Z.of_nat (size m))).
  - split; [done|]. intros [? _]. lia.
  - transitivity (Forall (fun kv => rune_count (fst kv) <= MetadataMaxKeyChars /\ rune_count (snd kv) <= MetadataMaxValueChars) (map_range m)).
    + induction (map_range m) as [|[k v] l IH]; [done|]. cbn [check_entries]. rewrite Forall_cons, <- IH. cbn [fst snd].
      destruct (Z.ltb_spec MetadataMaxKeyChars (rune_count k)), (Z.ltb_spec MetadataMaxValueChars (rune_count v));
        (split; [done || auto|intros [[? ?] ?]; lia || done]).
    + rewrite Forall_forall. unfold map_Forall. split.
      * intros Hf. split; [lia|]. intros k v Hkv. apply (Hf (k, v)), map_range_elem, Hkv.
      * intros [_ Hf] [k v] Hin%map_range_elem. exact (Hf k v Hin).
Qed.

Module KeysDemo.
(** A digest for evaluation: the last sixteen bytes. *)
Definition demo_sha (s : string) : string := string_take 32 (string_drop (String.length s) (zeros 16 ^^ s) ^^ zeros 32).
Lemma demo_sha_length s : String.length (demo_sha s) = 32%nat.
Proof. unfold demo_sha. apply take_length. rewrite length_append. change (String.length (zeros 32)) with 32%nat. lia. Qed.
#[export] Instance demo_Sha256 : Sha256 := {| sha256 := demo_sha; sha256_length := demo_sha_length |}.
(** Another process visits its maps the other way round. *)
#[refine] Definition reverse_runtime : GoRuntime := {|
  sort_slice A less l := insertion_sort less (rev l);
  map_range A m := rev (map_to_list m);
  add_days t d := t + d * day;
|}.
Proof.
  - intros. by rewrite insertion_sort_perm, <- Permutation_rev.
  - intros. by apply insertion_sort_ok.
  - intros. by rewrite <- Permutation_rev.
  - unfold day, second. lia.
Defined.
Definition fields1 : smap := {["email" := "a@b.c"; "name" := "Ada"]}.
Definition fields2 : smap := {["email" := "a@b.c"; "name" := "Bob"]}.
Lemma fits_short s : (String.length s <=? 4096)%nat = true -> fits s.
Proof. intros Hs%Nat.leb_le. unfold fits, strlen. cbn. lia. Qed.
Lemma fields1_fit : fields_fit fields1.
Proof. intros k v. unfold fields1. intros [[<- <-]|[_ [<- <-]%lookup_singleton_Some]]%lookup_insert_Some; split; by apply fits_short. Qed.
Lemma fields2_fit : fields_fit fields2.
Proof. intros k v. unfold fields2. intros [[<- <-]|[_ [<- <-]%lookup_singleton_Some]]%lookup_insert_Some; split; by apply fits_short. Qed.
Lemma deriveKey_injective_witness :
  exists key, deriveKey "customer.create" ["org"; "ada"] = key /\
    (("customer.create" = "customer.create" /\ ["org"; "ada"] = ["org"; "ada"]) \/
     collide ["customer.create"; "org"; "ada"] ["customer.create"; "org"; "ada"]).
Proof.
  eexists. split; [vm_compute; reflexivity|].
  apply (deriveKey_injective "customer.create" ["org"; "ada"] "customer.create" ["org"; "ada"]);
    [repeat constructor; by apply fits_short..|reflexivity].
Defined.
Lemma ContentHash_identifies_witness :
  ContentHash (H0 := reference_runtime) "customer.update" fields1 <> ContentHash (H0 := reverse_runtime) "customer.update" fields2.
Proof.
  intros E. eapply (ContentHash_identifies reference_runtime reverse_runtime "customer.update" fields1 "customer.update" fields2)
    in E as [_ E]; [|by apply fits_short..|apply fields1_fit|apply fields2_fit|].
  - apply (f_equal (lookup "name")) in E. vm_compute in E. discriminate.
  - intros [_ E']. vm_compute in E'. discriminate.
Defined.
End KeysDemo.
