(* ===== verification/Events.v ===== *)
(** * Events: the Stripe event as the library sees it (src/webhooks/event.go) and
      the namespace stamp (src/meta/namespace.go, src/webhooks/namespace.go).

    [stripe_event] holds the fields of stripe-go's [Event] the library reads; its
    decoding from the wire belongs to that package. *)
From S2P Require Import Prelude Json.

Record stripe_event := mkStripeEvent {
  se_ID : string;
  se_Type : string;
  se_Livemode : bool;
  se_Created : Z;
  (** [Data.Raw], or [None] for a nil [Data]. *)
  se_Data : option string;
}.

Record Event := mkEvent {
  ev_ID : string;
  ev_Type : string;
  ev_LiveMode : bool;
  ev_CreatedUnix : Z;
  ev_Raw : option stripe_event;
}.

Definition fromStripeEvent (e : stripe_event) : Event :=
  mkEvent (se_ID e) (se_Type e) (se_Livemode e) (se_Created e) (Some e).

(** [evt.Raw.Data.Raw], unless one of the pointers is nil or it is empty. *)
Definition raw_data (e : option stripe_event) : option string :=
  match e with
  | Some e => match se_Data e with
              | Some (String c s) => Some (String c s)
              | _ => None
              end
  | None => None
  end.
Definition event_data (evt : Event) : option string := raw_data (ev_Raw evt).

(** ** The namespace stamp *)
Definition MetadataKeyNamespace : string := "app_namespace".

Definition StampNamespace (m : smap) (ns : string) : smap :=
  if String.eqb ns "" then m else <[MetadataKeyNamespace := ns]> m.

(** The struct with the one field [Metadata]. *)
Definition dec_metadata : decoder smap :=
  dec_struct (fun m l => dec_field "metadata" dec_smap m l).

Definition extractAppNamespace (evt : stripe_event) : option string :=
  match raw_data (Some evt) with
  | None => None
  | Some raw =>
      match Unmarshal ∅ dec_metadata raw with
      | None => None
      | Some m =>
          match m !! MetadataKeyNamespace with
          | Some ns => if String.eqb ns "" then None else Some ns
          | None => None
          end
      end
  end.

Inductive filterDecision := filterDispatch | filterSkip | filterUnrouted.
#[export] Instance filterDecision_eq_dec : EqDecision filterDecision.
Proof. solve_decision. Defined.

Definition classifyNamespace (namespace : string) (evt : stripe_event) : filterDecision :=
  if String.eqb namespace "" then filterDispatch
  else match extractAppNamespace evt with
       | None => filterUnrouted
       | Some ns => if String.eqb ns namespace then filterDispatch else filterSkip
       end.

Lemma StampNamespace_lookup m ns :
  ns <> "" -> StampNamespace m ns !! MetadataKeyNamespace = Some ns.
Proof.
  intros Hns. unfold StampNamespace. rewrite (proj2 (String.eqb_neq _ _) Hns).
  by rewrite lookup_insert_eq.
Qed.
