(* ===== verification/InvoiceNumbers.v ===== *)
(** * InvoiceNumbers: the ledger of invoice numbers
      (src/invoices/number_repo.go, src/repos/postgres/invoice_number_repo.go).

    [NumberRepo] is the interface; [MemoryNumberRepo] the repository under its mutex, a
    method being one step; [NumberConn] a connection to the Postgres repository with the
    faults and clocks it will meet. *)
From S2P Require Import Prelude Postgres.

Inductive number_error := ErrNumberNotIssued | ErrNumberAlreadyResolved | ErrNumberRepo (msg : string).

Class NumberRepo (S : Type) := {
  nr_Next : string -> S -> res number_error string * S;
  nr_MarkUsed : string -> string -> S -> option number_error * S;
  nr_MarkVoided : string -> string -> S -> option number_error * S;
}.

Record IssuedNumber := mkIssued { in_Number : string; in_Prefix : string; in_Counter : Z; in_IssuedAt : Z }.

(** ** In memory *)
Record nrStatus := mkStatus { ns_State : string; ns_StripeID : string; ns_Reason : string }.
Record MemoryNumberRepo := mkNumberRepo { mn_seq : gmap string Z; mn_status : gmap string nrStatus }.
Definition NewMemoryNumberRepo : MemoryNumberRepo := mkNumberRepo ∅ ∅.

(** [fmt.Sprintf("%s%06d", prefix, counter)]. *)
Definition defaultFormatter (prefix : string) (counter : Z) : string := prefix ^^ fmt_0d 6 counter.

Definition mn_Next (prefix : string) (r : MemoryNumberRepo) : res number_error string * MemoryNumberRepo :=
  let c := add64 (default 0 (mn_seq r !! prefix)) 1 in
  let number := defaultFormatter prefix c in
  (Ok number, mkNumberRepo (<[prefix := c]> (mn_seq r)) (<[number := mkStatus "issued" "" ""]> (mn_status r))).

Definition mn_MarkUsed (number stripeID : string) (r : MemoryNumberRepo) : option number_error * MemoryNumberRepo :=
  match mn_status r !! number with
  | None => (Some ErrNumberNotIssued, r)
  | Some cur =>
      if String.eqb (ns_State cur) "issued" then
        (None, mkNumberRepo (mn_seq r) (<[number := mkStatus "used" stripeID ""]> (mn_status r)))
      else if String.eqb (ns_State cur) "used" then
        (if String.eqb (ns_StripeID cur) stripeID then (None, r) else (Some ErrNumberAlreadyResolved, r))
      else (Some ErrNumberAlreadyResolved, r)
  end.

Definition mn_MarkVoided (number reason : string) (r : MemoryNumberRepo) : option number_error * MemoryNumberRepo :=
  match mn_status r !! number with
  | None => (Some ErrNumberNotIssued, r)
  | Some cur =>
      if String.eqb (ns_State cur) "issued" then
        (None, mkNumberRepo (mn_seq r) (<[number := mkStatus "voided" "" reason]> (mn_status r)))
      else if String.eqb (ns_State cur) "voided" then (None, r)
      else (Some ErrNumberAlreadyResolved, r)
  end.

#[export] Instance memory_NumberRepo : NumberRepo MemoryNumberRepo := {
  nr_Next := mn_Next; nr_MarkUsed := mn_MarkUsed; nr_MarkVoided := mn_MarkVoided;
}.

(** ** Postgres: the table by its primary key *)
Record NumberRow := mkNumberRow {
  nw_prefix : string;
  nw_counter : Z;
  nw_state : string;
  nw_stripe_invoice_id : option string;
  nw_void_reason : option string;
  nw_issued_at : Z;
  nw_resolved_at : option Z;
}.
Abbreviation numbers_table := (gmap string NumberRow).

Section postgres.
Context `{GoRuntime} `{PgTime} (formatter : string -> Z -> string).

(** [SELECT MAX(counter) ... WHERE prefix = $1]; NULL on no rows. *)
Definition max_counter (prefix : string) (t : numbers_table) : option Z :=
  foldr (fun '(_, row) acc =>
    if String.eqb (nw_prefix row) prefix then
      match acc with None => Some (nw_counter row) | Some m => Some (Z.max (nw_counter row) m) end
    else acc) None (map_to_list t).
Definition counter_taken (prefix : string) (counter : Z) (t : numbers_table) : bool :=
  existsb (fun '(_, row) => String.eqb (nw_prefix row) prefix && (nw_counter row =? counter)) (map_to_list t).
Definition duplicate_key : string := "duplicate key value violates unique constraint".

(** [INSERT], under the primary key and [UNIQUE (prefix, counter)]. *)
Definition insert_number (number prefix : string) (counter now : Z) (t : numbers_table) : res string unit * numbers_table :=
  match t !! number with
  | Some _ => (Err duplicate_key, t)
  | None =>
      if counter_taken prefix counter t then (Err duplicate_key, t)
      else (Ok tt, <[number := mkNumberRow prefix counter "issued" None None now None]> t)
  end.
Definition advisory_lock : sql numbers_table unit := query (fun _ => Ok tt).

Definition pn_Next (now : Z) (prefix : string) : sql numbers_table string :=
  transaction (fun e => "postgres.InvoiceNumberRepo.Next: begin tx: " ^^ e)
    (fun _ e => "postgres.InvoiceNumberRepo.Next: commit: " ^^ e)
    (named "postgres.InvoiceNumberRepo.Next: advisory lock" advisory_lock ;;
     current <- named "postgres.InvoiceNumberRepo.Next: read max counter"
                  (query (fun t => Ok (max_counter prefix t))) ;;
     let next := match current with Some c => add64 c 1 | None => 1 end in
     let number := formatter prefix next in
     named "postgres.InvoiceNumberRepo.Next: insert" (stmt (insert_number number prefix next now)) ;;
     sret (Commit number))%sql.

(** [UPDATE ... SET state = 'used' ... WHERE number = $1], and the void. *)
Definition set_used (stripeInvoiceID : string) (now : Z) (row : NumberRow) : NumberRow :=
  mkNumberRow (nw_prefix row) (nw_counter row) "used" (Some stripeInvoiceID) (nw_void_reason row)
    (nw_issued_at row) (Some (pg_ts now)).
Definition set_voided (reason : string) (now : Z) (row : NumberRow) : NumberRow :=
  mkNumberRow (nw_prefix row) (nw_counter row) "voided" (nw_stripe_invoice_id row) (Some reason)
    (nw_issued_at row) (Some (pg_ts now)).

Definition pn_MarkUsed (now : Z) (number stripeInvoiceID : string) : sql numbers_table (option number_error) :=
  transaction (fun e => "postgres.InvoiceNumberRepo.MarkUsed: begin: " ^^ e) (fun _ e => e)
    (found <- named "postgres.InvoiceNumberRepo.MarkUsed: read" (query (fun t => Ok (t !! number))) ;;
     match found with
     | None => sret (Rollback (Some ErrNumberNotIssued))
     | Some row =>
         if String.eqb (nw_state row) "issued" then
           named "postgres.InvoiceNumberRepo.MarkUsed: update"
             (stmt (fun t => (Ok tt, alter (set_used stripeInvoiceID now) number t))) ;;
           sret (Commit None)
         else if String.eqb (nw_state row) "used" then
           (if bool_decide (nw_stripe_invoice_id row = Some stripeInvoiceID) then sret (Commit None)
            else sret (Rollback (Some ErrNumberAlreadyResolved)))
         else if String.eqb (nw_state row) "voided" then sret (Rollback (Some ErrNumberAlreadyResolved))
         else sret (Commit None)
     end)%sql.

Definition pn_MarkVoided (now : Z) (number reason : string) : sql numbers_table (option number_error) :=
  transaction (fun e => "postgres.InvoiceNumberRepo.MarkVoided: begin: " ^^ e) (fun _ e => e)
    (found <- named "postgres.InvoiceNumberRepo.MarkVoided: read" (query (fun t => Ok (t !! number))) ;;
     match found with
     | None => sret (Rollback (Some ErrNumberNotIssued))
     | Some row =>
         if String.eqb (nw_state row) "issued" then
           named "postgres.InvoiceNumberRepo.MarkVoided: update"
             (stmt (fun t => (Ok tt, alter (set_voided reason now) number t))) ;;
           sret (Commit None)
         else if String.eqb (nw_state row) "voided" then sret (Commit None)
         else if String.eqb (nw_state row) "used" then sret (Rollback (Some ErrNumberAlreadyResolved))
         else sret (Commit None)
     end)%sql.

(** [ORDER BY prefix, counter]. *)
Definition issued_less (a b : IssuedNumber) : bool :=
  if String.eqb (in_Prefix a) (in_Prefix b) then in_Counter a <? in_Counter b
  else String.ltb (in_Prefix a) (in_Prefix b).
Definition pn_ListIssuedOlderThan (deadline : Z) : sql numbers_table (list IssuedNumber) :=
  named "postgres.InvoiceNumberRepo.ListIssuedOlderThan"
    (query (fun t => Ok (sort_slice issued_less
      (omap (fun '(number, row) =>
         if String.eqb (nw_state row) "issued" && (nw_issued_at row <? pg_ts deadline)
         then Some (mkIssued number (nw_prefix row) (nw_counter row) (nw_issued_at row)) else None)
         (map_range t))))).

(** ** A connection *)
Record NumberConn := mkNumberConn {
  nc_faults : faults;
  nc_clock : nat -> Z;  (** the clocks, by the statements sent so far *)
  nc_sent : nat;
  nc_table : numbers_table;
}.
Definition on_conn {A} (p : Z -> sql numbers_table A) (c : NumberConn) : res string A * NumberConn :=
  let '(r, (n, t)) := p (nc_clock c (nc_sent c)) (nc_faults c) (nc_sent c) (nc_table c) in
  (r, mkNumberConn (nc_faults c) (nc_clock c) n t).
Definition mark_result (r : res string (option number_error)) : option number_error :=
  match r with Ok e => e | Err m => Some (ErrNumberRepo m) end.

#[export] Instance postgres_NumberRepo : NumberRepo NumberConn := {
  nr_Next prefix c :=
    let '(r, c') := on_conn (fun now => pn_Next now prefix) c in
    (match r with Ok n => Ok n | Err m => Err (ErrNumberRepo m) end, c');
  nr_MarkUsed number id c :=
    let '(r, c') := on_conn (fun now => pn_MarkUsed now number id) c in (mark_result r, c');
  nr_MarkVoided number reason c :=
    let '(r, c') := on_conn (fun now => pn_MarkVoided now number reason) c in (mark_result r, c');
}.
End postgres.
