(* ===== verification/InvoiceNumberFacts.v ===== *)
(** * InvoiceNumberFacts: invoice numbers have no gaps, are issued once, and both
      repositories keep the same ledger. *)
From S2P Require Import Prelude Postgres InvoiceNumbers.

(** ** The format separates prefix and counter *)
Definition is_digit (c : ascii) : bool := (48 <=? N_of_ascii c)%N && (N_of_ascii c <=? 57)%N.
Fixpoint all_digits (s : string) : bool :=
  match s with "" => true | String c s => is_digit c && all_digits s end.
Fixpoint ends_digit (s : string) : bool :=
  match s with
  | "" => false
  | String c s' => match s' with "" => is_digit c | _ => ends_digit s' end
  end.

Lemma ends_digit_cons c s : ends_digit (String c s) = false -> ends_digit s = false.
Proof. by destruct s. Qed.
Lemma all_digits_ends p d : all_digits (p ^^ d) = true -> p <> "" -> ends_digit p = true.
Proof.
  induction p as [|c p IH]; [done|]. cbn. intros [Hc Hp]%andb_true_iff _. destruct p; [done|]. by apply IH.
Qed.
Lemma split_digits p p' d d' :
  ends_digit p = false -> ends_digit p' = false -> all_digits d = true -> all_digits d' = true ->
  p ^^ d = p' ^^ d' -> p = p' /\ d = d'.
Proof.
  revert p'. induction p as [|c p IH]; intros [|c' p'] Hp Hp' Hd Hd' E; cbn in E.
  - done.
  - subst d. by rewrite (all_digits_ends (String c' p') d' Hd) in Hp'.
  - subst d'. by rewrite (all_digits_ends (String c p) d Hd') in Hp.
  - injection E as -> E. apply ends_digit_cons in Hp, Hp'. by destruct (IH p') as [-> ->].
Qed.

Lemma string_of_uint_digits u : all_digits (DecimalString.NilEmpty.string_of_uint u) = true.
Proof. by induction u. Qed.
Lemma dec_digits_digits n : all_digits (dec_digits n) = true.
Proof. destruct (dec_digits_nonnil n) as [-> _]. apply string_of_uint_digits. Qed.
Lemma zeros_digits k s : all_digits s = true -> all_digits (zeros k ^^ s) = true.
Proof. intros Hs. by induction k. Qed.
Lemma fmt_0d_digits w z : 0 <= z -> all_digits (fmt_0d w z) = true.
Proof.
  intros Hz. unfold fmt_0d. rewrite (proj2 (Z.ltb_ge _ _) Hz). apply zeros_digits, dec_digits_digits.
Qed.

Lemma zeros_inj k k' c c' s s' :
  Ascii.eqb c "0" = false -> Ascii.eqb c' "0" = false ->
  zeros k ^^ String c s = zeros k' ^^ String c' s' -> String c s = String c' s'.
Proof.
  intros Hc Hc'. revert k'. induction k as [|k IH]; intros [|k'] E; cbn in E; [done|..].
  - injection E as -> _. done.
  - injection E as <- _. done.
  - injection E as E. by apply (IH k').
Qed.
Lemma fmt_0d_inj w z z' : 1 <= z -> 1 <= z' -> fmt_0d w z = fmt_0d w z' -> z = z'.
Proof.
  intros Hz Hz'. unfold fmt_0d. rewrite !(proj2 (Z.ltb_ge _ _)) by lia.
  assert (Hhead : forall y, 1 <= y -> exists c s, dec_digits (Z.to_N y) = String c s /\ Ascii.eqb c "0" = false).
  { intros y Hy. destruct (dec_digits_head (Z.to_N y)) as [E|(c & s & E & Hc & _)]; [|eauto].
    pose proof (parse_dec_digits (Z.to_N y)) as P. rewrite E in P. injection P as P. lia. }
  destruct (Hhead z Hz) as (c & s & E & Hc), (Hhead z' Hz') as (c' & s' & E' & Hc').
  cbv zeta. rewrite E, E' at 2. intros Heq. apply zeros_inj in Heq; [|done..]. rewrite <- E, <- E' in Heq.
  pose proof (parse_dec_digits (Z.to_N z)) as P. rewrite Heq, parse_dec_digits in P. injection P as P. lia.
Qed.

Lemma defaultFormatter_inj p p' z z' :
  ends_digit p = false -> ends_digit p' = false -> 1 <= z -> 1 <= z' ->
  defaultFormatter p z = defaultFormatter p' z' -> p = p' /\ z = z'.
Proof.
  intros Hp Hp' Hz Hz' E. apply split_digits in E as [-> E]; [|done|done|apply fmt_0d_digits; lia..].
  split; [done|]. by apply (fmt_0d_inj 6).
Qed.

(** ** The table as a state machine *)
Definition next_counter (prefix : string) (t : numbers_table) : Z :=
  match max_counter prefix t with Some c => add64 c 1 | None => 1 end.
Definition has_counter (prefix : string) (c : Z) (t : numbers_table) : Prop :=
  exists number row, t !! number = Some row /\ nw_prefix row = prefix /\ nw_counter row = c.

Definition counter_in (prefix : string) (c : Z) (l : list (string * NumberRow)) : Prop :=
  exists number row, (number, row) ∈ l /\ nw_prefix row = prefix /\ nw_counter row = c.
Lemma has_counter_in prefix c t : has_counter prefix c t <-> counter_in prefix c (map_to_list t).
Proof. unfold has_counter, counter_in. by setoid_rewrite elem_of_map_to_list. Qed.
Lemma counter_in_cons prefix c number row l :
  counter_in prefix c ((number, row) :: l) <-> (nw_prefix row = prefix /\ nw_counter row = c) \/ counter_in prefix c l.
Proof.
  unfold counter_in. split.
  - intros (n & r & [[= -> ->]|Hin]%elem_of_cons & Hp & Hc); [by left|right; eauto].
  - intros [[Hp Hc]|(n & r & Hin & Hp & Hc)]; [exists number, row|exists n, r]; set_solver.
Qed.

Lemma max_counter_spec prefix t :
  match max_counter prefix t with
  | None => forall c, ~ has_counter prefix c t
  | Some m => has_counter prefix m t /\ forall c, has_counter prefix c t -> c <= m
  end.
Proof.
  unfold max_counter.
  assert (G : forall l, match foldr (fun '(_, row) acc => if String.eqb (nw_prefix row) prefix then
      match acc with None => Some (nw_counter row) | Some m => Some (Z.max (nw_counter row) m) end else acc) None l with
    | None => forall c, ~ counter_in prefix c l
    | Some m => counter_in prefix m l /\ forall c, counter_in prefix c l -> c <= m
    end).
  { induction l as [|[k row] l IH]; cbn.
    - intros c (n & r & Hin & _). by apply not_elem_of_nil in Hin.
    - destruct (String.eqb_spec (nw_prefix row) prefix) as [E|Hne], (foldr _ _ l) as [m|].
      + destruct IH as [Hm Hmax]. split.
        * apply counter_in_cons. destruct (Z.max_spec (nw_counter row) m) as [[_ ->]|[_ ->]]; auto.
        * intros c [[_ <-]|Hc%Hmax]%counter_in_cons; lia.
      + split; [apply counter_in_cons; auto|]. intros c [[_ <-]|Hc]%counter_in_cons; [lia|by destruct (IH c)].
      + destruct IH as [Hm Hmax]. split; [apply counter_in_cons; auto|].
        intros c [[? _]|Hc%Hmax]%counter_in_cons; done.
      + intros c [[? _]|Hc]%counter_in_cons; [done|by destruct (IH c)]. }
  specialize (G (map_to_list t)). destruct (foldr _ _ _).
  - rewrite has_counter_in. destruct G as [? Hmax]. split; [done|]. intros c Hc. by apply Hmax, has_counter_in.
  - intros c Hc. by apply (G c), has_counter_in.
Qed.

Lemma counter_taken_spec prefix c t : counter_taken prefix c t = true <-> has_counter prefix c t.
Proof.
  rewrite has_counter_in. unfold counter_taken, counter_in. rewrite existsb_exists. split.
  - intros ([k row] & Hin & [Hp Hc]%andb_true_iff). rewrite <- list_elem_of_In in Hin.
    apply String.eqb_eq in Hp. apply Z.eqb_eq in Hc. eauto.
  - intros (k & row & Hin & <- & <-). exists (k, row). rewrite <- list_elem_of_In.
    by rewrite String.eqb_refl, Z.eqb_refl.
Qed.

Section steps.
Context `{PgTime} (formatter : string -> Z -> string).

Inductive number_step (t : numbers_table) : numbers_table -> Prop :=
| step_issue prefix now :
    t !! formatter prefix (next_counter prefix t) = None ->
    ~ has_counter prefix (next_counter prefix t) t ->
    number_step t (<[formatter prefix (next_counter prefix t) :=
      mkNumberRow prefix (next_counter prefix t) "issued" None None now None]> t)
| step_use number row id now :
    t !! number = Some row -> nw_state row = "issued" ->
    number_step t (<[number := set_used id now row]> t)
| step_void number row reason now :
    t !! number = Some row -> nw_state row = "issued" ->
    number_step t (<[number := set_voided reason now row]> t).
Definition may_step (t t' : numbers_table) : Prop := t' = t \/ number_step t t'.

(** The body of [Next], whatever fails. *)
Lemma pn_Next_step now prefix fs n t r n' t' :
  pn_Next formatter now prefix fs n t = (r, (n', t')) ->
  may_step t t' /\ (t' = t \/ t !! formatter prefix (next_counter prefix t) = None) /\
  (forall number, r = Ok number -> t !! number = None /\ number = formatter prefix (next_counter prefix t) /\
     t' = <[number := mkNumberRow prefix (next_counter prefix t) "issued" None None now None]> t).
Proof.
  intros E.
  assert (Hbody : forall a n2 t2,
    (named "postgres.InvoiceNumberRepo.Next: advisory lock" advisory_lock ;;
     current <- named "postgres.InvoiceNumberRepo.Next: read max counter" (query (fun t => Ok (max_counter prefix t))) ;;
     let next := match current with Some c => add64 c 1 | None => 1 end in
     let number := formatter prefix next in
     named "postgres.InvoiceNumberRepo.Next: insert" (stmt (insert_number number prefix next now)) ;;
     sret (Commit number))%sql fs (S n) t = (Ok a, (n2, t2)) ->
    a = Commit (formatter prefix (next_counter prefix t)) /\ number_step t t2 /\
    t !! formatter prefix (next_counter prefix t) = None /\
    t2 = <[formatter prefix (next_counter prefix t) :=
      mkNumberRow prefix (next_counter prefix t) "issued" None None now None]> t).
  { intros a n2 t2 (u1 & m1 & d1 & H1%named_ok%query_ok & (cur & m2 & d2 & H2%named_ok%query_ok & H3)%sbind_ok)%sbind_ok.
    destruct H1 as [_ ->], H2 as [[= <-] ->]. cbv zeta in H3. fold (next_counter prefix t) in H3.
    apply sbind_ok in H3 as ([] & m3 & d3 & [H3 _]%named_ok%stmt_ok & [= <- <- <-]).
    unfold insert_number in H3. destruct (t !! formatter prefix _) eqn:Et; [done|].
    destruct (counter_taken _ _ _) eqn:Ec; [done|]. injection H3 as <-. split; [done|].
    split; [|done]. apply step_issue; [done|]. rewrite <- counter_taken_spec. congruence. }
  unfold pn_Next in E. split; [|split].
  - apply transaction_atomic in E as [->|(a & n2 & E)]; [by left|]. right. by apply Hbody in E as (_ & ? & _).
  - apply transaction_atomic in E as [->|(a & n2 & E)]; [by left|]. right. by apply Hbody in E as (_ & _ & ? & _).
  - intros number ->. apply transaction_ok in E as [n2 [E|[-> [d2 E]]]]; apply Hbody in E as (Ea & _ & Hno & ->).
    + injection Ea as ->. auto.
    + done.
Qed.

Lemma alter_insert {A} (f : A -> A) (t : gmap string A) k x : t !! k = Some x -> alter f k t = <[k := f x]> t.
Proof. intros Hx. apply map_eq. intros i. destruct (decide (i = k)) as [->|]; by simplify_map_eq. Qed.

Lemma pn_MarkUsed_step now number id fs n t r n' t' :
  pn_MarkUsed now number id fs n t = (r, (n', t')) -> may_step t t'.
Proof.
  intros [->|(a & n2 & E)]%transaction_atomic; [by left|].
  apply sbind_ok in E as (found & n1 & d1 & [[= <-] ->]%named_ok%query_ok & E).
  destruct (t !! number) as [row|] eqn:Et; [|done].
  destruct (String.eqb_spec (nw_state row) "issued") as [Es|].
  - apply sbind_ok in E as (u & n3 & d3 & [[= _ <-] _]%named_ok%stmt_ok & [= _ _ <-]).
    right. rewrite (alter_insert _ _ _ row Et). by apply step_use.
  - left. destruct (String.eqb _ "used"); [destruct (bool_decide _)|destruct (String.eqb _ "voided")]; unfold sret in E; by simplify_eq.
Qed.
Lemma pn_MarkVoided_step now number reason fs n t r n' t' :
  pn_MarkVoided now number reason fs n t = (r, (n', t')) -> may_step t t'.
Proof.
  intros [->|(a & n2 & E)]%transaction_atomic; [by left|].
  apply sbind_ok in E as (found & n1 & d1 & [[= <-] ->]%named_ok%query_ok & E).
  destruct (t !! number) as [row|] eqn:Et; [|done].
  destruct (String.eqb_spec (nw_state row) "issued") as [Es|].
  - apply sbind_ok in E as (u & n3 & d3 & [[= _ <-] _]%named_ok%stmt_ok & [= _ _ <-]).
    right. rewrite (alter_insert _ _ _ row Et). by apply step_void.
  - left. destruct (String.eqb _ "voided"); [|destruct (String.eqb _ "used")]; unfold sret in E; by simplify_eq.
Qed.

(** ** Calls of a connection *)
Inductive number_call :=
| CNext (prefix : string)
| CMarkUsed (number id : string)
| CMarkVoided (number reason : string).
Inductive number_answer := Issued (r : res number_error string) | Marked (e : option number_error).

Definition number_exec {S} `{NumberRepo S} (c : number_call) (s : S) : number_answer * S :=
  match c with
  | CNext prefix => let '(r, s') := nr_Next prefix s in (Issued r, s')
  | CMarkUsed number id => let '(e, s') := nr_MarkUsed number id s in (Marked e, s')
  | CMarkVoided number reason => let '(e, s') := nr_MarkVoided number reason s in (Marked e, s')
  end.
Fixpoint number_run {S} `{NumberRepo S} (cs : list number_call) (s : S) : list number_answer * S :=
  match cs with
  | [] => ([], s)
  | c :: cs => let '(a, s1) := number_exec c s in let '(l, s2) := number_run cs s1 in (a :: l, s2)
  end.
#[local] Instance repo : NumberRepo NumberConn := postgres_NumberRepo formatter.

Lemma exec_step c conn : may_step (nc_table conn) (nc_table (snd (number_exec c conn))).
Proof.
  destruct c as [prefix|number id|number reason]; cbn -[pn_Next pn_MarkUsed pn_MarkVoided]; unfold on_conn.
  - destruct (pn_Next _ _ _ _ _ _) as [r [n t]] eqn:E. by apply pn_Next_step in E as [? _].
  - destruct (pn_MarkUsed _ _ _ _ _ _) as [r [n t]] eqn:E. by apply pn_MarkUsed_step in E.
  - destruct (pn_MarkVoided _ _ _ _ _ _) as [r [n t]] eqn:E. by apply pn_MarkVoided_step in E.
Qed.

(** A property of tables that every step keeps, counting the steps. *)
Lemma run_invariant (I : Z -> numbers_table -> Prop) (bound : Z) :
  (forall k t, I k t -> I (k + 1) t) ->
  (forall k t t', I k t -> k < bound -> number_step t t' -> I (k + 1) t') ->
  forall cs conn k, I k (nc_table conn) -> k + Z.of_nat (List.length cs) <= bound ->
    I (k + Z.of_nat (List.length cs)) (nc_table (snd (number_run cs conn))).
Proof.
  intros Hmono Hstep cs. induction cs as [|c cs IH]; intros conn k HI Hb; cbn [number_run List.length] in *.
  - by rewrite Z.add_0_r.
  - destruct (number_exec c conn) as [a s1] eqn:E. specialize (IH s1 (k + 1)).
    destruct (number_run cs s1) as [l s2]. cbn [snd] in *.
    replace (k + Z.of_nat (S (List.length cs))) with (k + 1 + Z.of_nat (List.length cs)) in * by lia.
    apply IH; [|done]. pose proof (exec_step c conn) as Hs. rewrite E in Hs. cbn in Hs.
    destruct Hs as [->|Hs]; [by apply Hmono|]. eapply Hstep; [done|lia|done].
Qed.
End steps.

(** ** No gaps *)
Section gapless.
Context `{PgTime} (formatter : string -> Z -> string).
#[local] Instance repo_of : NumberRepo NumberConn := postgres_NumberRepo formatter.

(** A row is issued, used with an invoice or voided with a reason. *)
Definition row_ok (row : NumberRow) : Prop :=
  (nw_state row = "issued" /\ nw_stripe_invoice_id row = None /\ nw_void_reason row = None) \/
  (nw_state row = "used" /\ is_Some (nw_stripe_invoice_id row) /\ nw_void_reason row = None) \/
  (nw_state row = "voided" /\ nw_stripe_invoice_id row = None /\ is_Some (nw_void_reason row)).
Record ledger_ok (k : Z) (t : numbers_table) : Prop := {
  lo_name number row : t !! number = Some row -> number = formatter (nw_prefix row) (nw_counter row);
  lo_row number row : t !! number = Some row -> row_ok row;
  lo_gapless prefix : exists n, 0 <= n <= k /\ forall c, has_counter prefix c t <-> 1 <= c <= n;
}.

Lemma next_counter_gapless prefix t n :
  n < int64_max -> (forall c, has_counter prefix c t <-> 1 <= c <= n) -> 0 <= n -> next_counter prefix t = n + 1.
Proof.
  intros Hb Hn Hpos. unfold next_counter. pose proof (max_counter_spec prefix t) as Hm.
  destruct (max_counter prefix t) as [m|].
  - destruct Hm as [Hm Hmax]. apply Hn in Hm. assert (n <= m) by (apply Hmax, Hn; lia).
    rewrite add64_exact; [lia|]. unfold in_int64, int64_min in *. lia.
  - destruct (decide (n = 0)) as [->|]; [done|]. destruct (Hm 1). apply Hn. lia.
Qed.

Lemma has_counter_insert prefix c number row t :
  t !! number = None ->
  has_counter prefix c (<[number := row]> t) <-> (nw_prefix row = prefix /\ nw_counter row = c) \/ has_counter prefix c t.
Proof.
  intros Hno. unfold has_counter. split.
  - intros (n & r & [[<- <-]|[_ Hr]]%lookup_insert_Some & Hp & Hc); [by left|right; eauto].
  - intros [[Hp Hc]|(n & r & Hr & Hp & Hc)].
    + exists number, row. by rewrite lookup_insert_eq.
    + exists n, r. rewrite lookup_insert_ne by congruence. done.
Qed.
Lemma has_counter_update prefix c number row row' t :
  t !! number = Some row -> nw_prefix row' = nw_prefix row -> nw_counter row' = nw_counter row ->
  has_counter prefix c (<[number := row']> t) <-> has_counter prefix c t.
Proof.
  intros Hrow Ep Ec. unfold has_counter. split.
  - intros (n & r & [[<- <-]|[_ Hr]]%lookup_insert_Some & Hp & Hc); [exists number, row; split_and!; congruence|eauto].
  - intros (n & r & Hr & Hp & Hc). destruct (decide (n = number)) as [->|].
    + exists number, row'. rewrite lookup_insert_eq. split_and!; congruence.
    + exists n, r. by rewrite lookup_insert_ne.
Qed.

Lemma ledger_ok_update k number row row' t :
  ledger_ok k t -> t !! number = Some row -> nw_prefix row' = nw_prefix row -> nw_counter row' = nw_counter row ->
  row_ok row' -> ledger_ok k (<[number := row']> t).
Proof.
  intros [Hname Hrow Hgap] Ht Ep Ec Hok. split.
  - intros n r [[<- <-]|[_ Hr]]%lookup_insert_Some; [rewrite Ep, Ec|]; auto.
  - intros n r [[<- <-]|[_ Hr]]%lookup_insert_Some; eauto.
  - intros prefix. destruct (Hgap prefix) as (n & Hn & Hc). exists n. split; [done|].
    intros c. rewrite (has_counter_update prefix c number row row' t) by done. apply Hc.
Qed.

Lemma ledger_ok_mono k t : ledger_ok k t -> ledger_ok (k + 1) t.
Proof.
  intros [Hname Hrow Hgap]. split; [done..|]. intros prefix. destruct (Hgap prefix) as (n & Hn & Hc).
  exists n. split; [lia|done].
Qed.
Lemma ledger_ok_step k t t' : ledger_ok k t -> k < int64_max -> number_step formatter t t' -> ledger_ok (k + 1) t'.
Proof.
  intros Hok Hk Hs. destruct Hs as [prefix now Hno Hfree|number row id now Hrow Hst|number row reason now Hrow Hst].
  - destruct Hok as [Hname Hrow Hgap]. split.
    + intros n r [[<- <-]|[_ Hr]]%lookup_insert_Some; auto.
    + intros n r [[<- <-]|[_ Hr]]%lookup_insert_Some; [by left|eauto].
    + intros p. destruct (Hgap p) as (n & Hn & Hc). destruct (decide (p = prefix)) as [->|Hne].
      * assert (E : next_counter prefix t = n + 1) by (apply next_counter_gapless; [lia|done|lia]).
        exists (n + 1). split; [lia|]. intros c. rewrite has_counter_insert, Hc by done. cbn. rewrite E. split; [intros [[_ <-]|?]; lia|].
        intros ?. destruct (decide (c = n + 1)) as [->|]; [by left|right; lia].
      * exists n. split; [lia|]. intros c. rewrite has_counter_insert, Hc by done. cbn. split; [intros [[? _]|?]; [done|lia]|by right].
  - apply ledger_ok_mono. eapply ledger_ok_update; [done|done|done|done|]. right. left. split; [done|]. split; [by eexists|].
    destruct (lo_row _ _ Hok _ _ Hrow) as [(_ & _ & ?)|[(? & _)|(? & _)]]; [done|congruence..].
  - apply ledger_ok_mono. eapply ledger_ok_update; [done|done|done|done|]. right. right. split; [done|]. split; [|by eexists].
    destruct (lo_row _ _ Hok _ _ Hrow) as [(_ & ? & _)|[(? & _)|(? & _)]]; [done|congruence..].
Qed.

Lemma ledger_ok_empty : ledger_ok 0 ∅.
Proof.
  split; [by intros ? ? ?%lookup_empty_Some..|]. intros prefix. exists 0. split; [lia|]. intros c. split; [|lia].
  intros (n & r & Hr & _). by apply lookup_empty_Some in Hr.
Qed.
Lemma run_ledger_ok cs conn :
  nc_table conn = ∅ -> Z.of_nat (List.length cs) <= int64_max ->
  ledger_ok (Z.of_nat (List.length cs)) (nc_table (snd (number_run cs conn))).
Proof.
  intros Ht Hb. apply (run_invariant formatter ledger_ok int64_max) with (k := 0); [..|lia].
  - apply ledger_ok_mono.
  - apply ledger_ok_step.
  - rewrite Ht. apply ledger_ok_empty.
Qed.

(** C9: the numbers of a prefix have no gaps. Whatever calls are made and whatever
    statements fail, the counters in the ledger of a prefix are exactly one to some n,
    each under its own formatted number, and every number is issued, used with an
    invoice or voided with a reason. *)
Theorem numbers_gapless cs conn :
  nc_table conn = ∅ -> Z.of_nat (List.length cs) <= int64_max ->
  let t := nc_table (snd (number_run cs conn)) in
  (forall prefix, exists n, 0 <= n /\ forall c,
     (exists row, t !! formatter prefix c = Some row /\ nw_prefix row = prefix /\ nw_counter row = c) <-> 1 <= c <= n) /\
  (forall number row, t !! number = Some row -> row_ok row).
Proof.
  intros Ht Hb t. destruct (run_ledger_ok cs conn Ht Hb) as [Hname Hrow Hgap]. split; [|done].
  intros prefix. destruct (Hgap prefix) as (n & Hn & Hc). exists n. split; [lia|]. intros c. rewrite <- Hc. split.
  - intros (row & Hr & Hp & Hcc). eexists _, row. done.
  - intros (number & row & Hr & Hp & Hcc). exists row. split; [|done]. rewrite <- Hp, <- Hcc, <- (Hname _ _ Hr). done.
Qed.

(** A number is issued once and resolved once. A number in the ledger is never
    issued again, keeps its place in its sequence, and once it is used or voided its
    row never changes, whatever calls follow and whatever fails. *)
Theorem number_final cs conn number row :
  nc_table conn !! number = Some row ->
  let '(answers, conn') := number_run cs conn in
  (Issued (Ok number) ∉ answers) /\
  exists row', nc_table conn' !! number = Some row' /\ nw_prefix row' = nw_prefix row /\
    nw_counter row' = nw_counter row /\ (nw_state row <> "issued" -> row' = row).
Proof.
  revert conn row. induction cs as [|c cs IH]; intros conn row Hrow; cbn [number_run].
  - split; [apply not_elem_of_nil|]. exists row. done.
  - destruct (number_exec c conn) as [a s1] eqn:E.
    assert (Hs : exists row1, nc_table s1 !! number = Some row1 /\ nw_prefix row1 = nw_prefix row /\
      nw_counter row1 = nw_counter row /\ (nw_state row <> "issued" -> row1 = row)).
    { assert (Hs : may_step formatter (nc_table conn) (nc_table (snd (number_exec c conn)))) by apply exec_step. rewrite E in Hs. cbn in Hs.
      destruct Hs as [->|[prefix now Hno Hfree|n1 r1 id now Hr1 Hst|n1 r1 reason now Hr1 Hst]]; [eauto 6|..].
      - exists row. rewrite lookup_insert_ne by congruence. done.
      - destruct (decide (n1 = number)) as [->|]; [|exists row; by rewrite lookup_insert_ne].
        rewrite lookup_insert_eq. eexists. split; [done|]. cbn. split_and!; congruence.
      - destruct (decide (n1 = number)) as [->|]; [|exists row; by rewrite lookup_insert_ne].
        rewrite lookup_insert_eq. eexists. split; [done|]. cbn. split_and!; congruence. }
    destruct Hs as (row1 & H1 & Hp & Hc & Hst). specialize (IH s1 row1 H1).
    destruct (number_run cs s1) as [l s2]. destruct IH as [Hnot (row' & Hr' & Hp' & Hc' & Hst')].
    split.
    + intros [<-|Hin]%elem_of_cons; [|done]. destruct c as [prefix|? ?|? ?]; cbn -[pn_Next pn_MarkUsed pn_MarkVoided] in E.
      * unfold on_conn in E. destruct (pn_Next _ _ _ _ _ _) as [[num|e] [n t]] eqn:En; [|done]. injection E as -> <-.
        apply pn_Next_step in En as (_ & _ & En). destruct (En _ eq_refl) as [Hno _]. congruence.
      * by destruct (on_conn _ _).
      * by destruct (on_conn _ _).
    + exists row'. split; [done|]. split_and!; [congruence..|]. intros Hne. specialize (Hst Hne). subst row1. by apply Hst'.
Qed.
End gapless.

(** ** Postgres keeps the ledger of the memory repository *)
Section refinement.
Context `{PgTime}.
#[local] Instance default_repo : NumberRepo NumberConn := postgres_NumberRepo defaultFormatter.

Lemma max_counter_is prefix t m :
  has_counter prefix m t -> (forall c, has_counter prefix c t -> c <= m) -> max_counter prefix t = Some m.
Proof.
  intros Hm Hmax. pose proof (max_counter_spec prefix t) as Hs. destruct (max_counter prefix t) as [m'|].
  - destruct Hs as [Hm' Hmax']. specialize (Hmax m' Hm'). specialize (Hmax' m Hm). f_equal. lia.
  - by destruct (Hs m).
Qed.
Lemma max_counter_ext prefix t t' :
  (forall c, has_counter prefix c t <-> has_counter prefix c t') -> max_counter prefix t = max_counter prefix t'.
Proof.
  intros E. pose proof (max_counter_spec prefix t') as Hs. destruct (max_counter prefix t') as [m|].
  - destruct Hs as [Hm Hmax]. apply max_counter_is; [by apply E|]. intros c Hc. by apply Hmax, E.
  - pose proof (max_counter_spec prefix t) as Ht. destruct (max_counter prefix t) as [m|]; [|done].
    destruct Ht as [Hm _]. destruct (Hs m). by apply E.
Qed.

Definition status_of (row : NumberRow) : nrStatus :=
  mkStatus (nw_state row) (default "" (nw_stripe_invoice_id row)) (default "" (nw_void_reason row)).
Record agree (t : numbers_table) (m : MemoryNumberRepo) : Prop := {
  ag_status number : status_of <$> t !! number = mn_status m !! number;
  ag_seq prefix : max_counter prefix t = mn_seq m !! prefix;
  ag_clean number row : t !! number = Some row -> ends_digit (nw_prefix row) = false;
}.

Lemma agree_update t m number row row' :
  agree t m -> t !! number = Some row -> nw_prefix row' = nw_prefix row -> nw_counter row' = nw_counter row ->
  agree (<[number := row']> t) (mkNumberRepo (mn_seq m) (<[number := status_of row']> (mn_status m))).
Proof.
  intros [Hst Hseq Hcl] Ht Ep Ec. split; cbn.
  - intros n. destruct (decide (n = number)) as [->|]; [by rewrite !lookup_insert_eq|].
    by rewrite !lookup_insert_ne.
  - intros prefix. rewrite <- Hseq. apply max_counter_ext. intros c. by apply (has_counter_update prefix c number row).
  - intros n r [[<- <-]|[_ Hr]]%lookup_insert_Some; [rewrite Ep|]; eauto.
Qed.

Lemma next_free t m k prefix :
  agree t m -> ledger_ok defaultFormatter k t -> k < int64_max -> ends_digit prefix = false ->
  t !! defaultFormatter prefix (next_counter prefix t) = None /\ ~ has_counter prefix (next_counter prefix t) t.
Proof.
  intros Ha Hok Hk Hp. destruct (lo_gapless _ _ _ Hok prefix) as (n & Hn & Hc).
  assert (E : next_counter prefix t = n + 1) by (apply next_counter_gapless; [lia|done|lia]). rewrite E.
  assert (Hfree : ~ has_counter prefix (n + 1) t) by (rewrite Hc; lia). split; [|done].
  destruct (t !! _) as [row|] eqn:Et; [|done]. exfalso. pose proof (lo_name _ _ _ Hok _ _ Et) as En.
  assert (1 <= nw_counter row).
  { destruct (lo_gapless _ _ _ Hok (nw_prefix row)) as (n' & _ & Hc'). apply Hc'. eexists _, row. done. }
  apply defaultFormatter_inj in En as [Ep Ec]; [|done|by eapply ag_clean|lia|done].
  apply Hfree. eexists _, row. done.
Qed.

Lemma agree_next t m k prefix now :
  agree t m -> ledger_ok defaultFormatter k t -> k < int64_max -> ends_digit prefix = false ->
  let c := next_counter prefix t in let number := defaultFormatter prefix c in
  t !! number = None ->
  agree (<[number := mkNumberRow prefix c "issued" None None now None]> t)
    (mkNumberRepo (<[prefix := c]> (mn_seq m)) (<[number := mkStatus "issued" "" ""]> (mn_status m))).
Proof.
  intros Ha Hok Hk Hcl c number Hno. split; cbn.
  - intros n. destruct (decide (n = number)) as [->|]; [by rewrite !lookup_insert_eq|].
    rewrite !lookup_insert_ne by done. apply Ha.
  - intros p. destruct (decide (p = prefix)) as [->|].
    + rewrite lookup_insert_eq. apply max_counter_is.
      * apply has_counter_insert; [done|]. by left.
      * intros c' [[_ <-]|Hc]%has_counter_insert; [done| |done]. unfold c.
        destruct (lo_gapless _ _ _ Hok prefix) as (n & Hn & Hg).
        rewrite (next_counter_gapless prefix t n) by (done || lia). apply Hg in Hc. lia.
    + rewrite lookup_insert_ne, <- (ag_seq _ _ Ha) by done. apply max_counter_ext. intros c'.
      rewrite has_counter_insert by done. cbn. split; [by intros [[? _]|?]|by right].
  - intros n r [[<- <-]|[_ Hr]]%lookup_insert_Some; [done|by eapply ag_clean].
Qed.

Definition clean_call (c : number_call) : Prop :=
  match c with CNext prefix => ends_digit prefix = false | _ => True end.

Lemma exec_agree c conn m k :
  clean_call c -> nc_faults conn = no_faults -> agree (nc_table conn) m ->
  ledger_ok defaultFormatter k (nc_table conn) -> k < int64_max ->
  let '(a, conn') := number_exec c conn in let '(a', m') := number_exec c m in
  a = a' /\ nc_faults conn' = no_faults /\ agree (nc_table conn') m'.
Proof.
  intros Hcl Hf Ha Hok Hk. destruct conn as [fs clock sent t]. cbn in Hf, Ha, Hok. subst fs.
  destruct c as [prefix|number id|number reason]; cbn [number_exec nr_Next nr_MarkUsed nr_MarkVoided default_repo postgres_NumberRepo memory_NumberRepo];
    unfold on_conn; cbn [nc_faults nc_clock nc_sent nc_table].
  - destruct (next_free t m k prefix Ha Hok Hk Hcl) as [Hno Hfree].
    unfold pn_Next, transaction, begin_tx, sbind, named, advisory_lock, query, stmt, no_faults. cbn -[next_counter].
    fold (next_counter prefix t). unfold insert_number. rewrite Hno.
    destruct (counter_taken prefix (next_counter prefix t) t) eqn:Et; [by apply counter_taken_spec in Et|].
    unfold mn_Next. assert (Ec : add64 (default 0 (mn_seq m !! prefix)) 1 = next_counter prefix t).
    { unfold next_counter. rewrite (ag_seq _ _ Ha). by destruct (mn_seq m !! prefix). }
    cbv zeta. rewrite Ec. split; [done|]. split; [done|]. by eapply agree_next.
  - unfold pn_MarkUsed, transaction, begin_tx, sbind, named, query, stmt, no_faults. cbn.
    unfold mn_MarkUsed. rewrite <- (ag_status _ _ Ha). destruct (t !! number) as [row|] eqn:Et; cbn; [|done].
    destruct (lo_row _ _ _ Hok _ _ Et) as [(Es & Ei & Er)|[(Es & [x Ei] & Er)|(Es & Ei & [x Er])]]; rewrite Es; cbn.
    + split; [done|]. split; [done|]. rewrite (alter_insert _ _ _ row Et).
      assert (E : mkStatus "used" id "" = status_of (set_used id (clock sent) row)) by (unfold status_of; cbn; by rewrite Er).
      rewrite E. by apply (agree_update t m number row).
    + rewrite Ei. cbn. destruct (String.eqb_spec x id) as [->|Hne].
      * by rewrite bool_decide_eq_true_2.
      * by rewrite bool_decide_eq_false_2 by congruence.
    + done.
  - unfold pn_MarkVoided, transaction, begin_tx, sbind, named, query, stmt, no_faults. cbn.
    unfold mn_MarkVoided. rewrite <- (ag_status _ _ Ha). destruct (t !! number) as [row|] eqn:Et; cbn; [|done].
    destruct (lo_row _ _ _ Hok _ _ Et) as [(Es & Ei & Er)|[(Es & [x Ei] & Er)|(Es & Ei & [x Er])]]; rewrite Es; cbn; [|done..].
    split; [done|]. split; [done|]. rewrite (alter_insert _ _ _ row Et).
    assert (E : mkStatus "voided" "" reason = status_of (set_voided reason (clock sent) row)) by (unfold status_of; cbn; by rewrite Ei).
    rewrite E. by apply (agree_update t m number row).
Qed.

Lemma run_agree cs conn m k :
  Forall clean_call cs -> nc_faults conn = no_faults -> agree (nc_table conn) m ->
  ledger_ok defaultFormatter k (nc_table conn) -> k + Z.of_nat (List.length cs) <= int64_max ->
  fst (number_run cs conn) = fst (number_run cs m).
Proof.
  revert conn m k. induction cs as [|c cs IH]; intros conn m k Hcl Hf Ha Hok Hk; [done|].
  cbn [number_run List.length] in *. apply Forall_cons in Hcl as [Hc Hcs].
  pose proof (exec_agree c conn m k Hc Hf Ha Hok ltac:(lia)) as He.
  assert (Hs : may_step defaultFormatter (nc_table conn) (nc_table (snd (number_exec c conn)))) by apply exec_step.
  destruct (number_exec c conn) as [a s1], (number_exec c m) as [a' m1]. cbn in Hs. destruct He as (-> & Hf1 & Ha1).
  specialize (IH s1 m1 (k + 1) Hcs Hf1 Ha1). destruct (number_run cs s1), (number_run cs m1). cbn in *. f_equal.
  apply IH; [|lia]. destruct Hs as [->|Hs].
  - by apply ledger_ok_mono.
  - by eapply ledger_ok_step; [..|lia|].
Qed.

(** C25: the Postgres repository refines the one in memory. From an empty ledger, with no
    statement failing and no prefix ending in a digit, every sequence of calls gets the
    same answers from both. *)
Theorem postgres_refines_memory cs conn :
  nc_faults conn = no_faults -> nc_table conn = ∅ -> Forall clean_call cs ->
  Z.of_nat (List.length cs) <= int64_max ->
  fst (number_run cs conn) = fst (number_run cs NewMemoryNumberRepo).
Proof.
  intros Hf Ht Hcl Hb. apply (run_agree cs conn _ 0); [done|done| | |lia]; rewrite Ht.
  - split; cbn.
    + intros number. by rewrite !lookup_empty.
    + intros prefix. rewrite lookup_empty. unfold max_counter. by rewrite map_to_list_empty.
    + by intros ? ? ?%lookup_empty_Some.
  - apply ledger_ok_empty.
Qed.

(** Prefixes that end in a digit share numbers. The millionth-and-first number of a
    prefix is the first one of the prefix followed by the digit one: in memory the second
    issue takes the number over and its record of use is lost, in Postgres that sequence
    can issue nothing more. *)
Theorem digit_prefix_collides prefix now fs n m t row :
  mn_seq m !! prefix = Some 1000000 -> max_counter prefix t = Some 1000000 ->
  let number := defaultFormatter (prefix ^^ "1") 1 in
  t !! number = Some row ->
  mn_status (snd (mn_Next prefix m)) !! number = Some (mkStatus "issued" "" "") /\
  exists e n', pn_Next defaultFormatter now prefix fs n t = (Err e, (n', t)).
Proof.
  intros Hseq Hmax number Hrow.
  assert (En : defaultFormatter prefix (add64 1000000 1) = number).
  { unfold number, defaultFormatter. rewrite append_assoc. f_equal. }
  split.
  - unfold mn_Next. rewrite Hseq. change (default 0 (Some 1000000)) with 1000000. cbv zeta. rewrite En.
    cbn [snd mn_status]. by rewrite lookup_insert_eq.
  - destruct (pn_Next _ _ _ _ _ _) as [r [n' t']] eqn:E. apply pn_Next_step in E as (_ & Hs & Hr).
    unfold next_counter in *. rewrite Hmax, En in *. destruct Hs as [->|?]; [|congruence].
    destruct r as [x|e]; [|eauto]. destruct (Hr x eq_refl) as (? & -> & _). congruence.
Qed.
End refinement.

(** ** Witnesses *)
Module NumbersDemo.
#[local] Instance micros : PgTime.
Proof.
  refine {| pg_ts t := t / 1000 * 1000 |}. intros t Ht. pose proof (Z.div_mod t 1000 ltac:(lia)). lia.
Defined.
Definition conn : NumberConn := mkNumberConn no_faults (fun n => Z.of_nat n) 0 ∅.
(** The connection breaks at the fifth statement, after the server carried it out. *)
Definition flaky : NumberConn :=
  mkNumberConn (fun n => if Nat.eqb n 4 then Some (mkFault "broken pipe" true) else None) (fun n => Z.of_nat n) 0 ∅.
Definition calls : list number_call :=
  [CNext "AT-"; CMarkUsed "AT-000001" "in_1"; CNext "AT-"; CMarkVoided "AT-000002" "no"; CMarkVoided "AT-000001" "no"].
#[local] Instance demo_repo : NumberRepo NumberConn := postgres_NumberRepo defaultFormatter.

Lemma numbers_gapless_witness :
  let t := nc_table (snd (number_run calls flaky)) in
  (forall prefix, exists n, 0 <= n /\ forall c,
     (exists row, t !! defaultFormatter prefix c = Some row /\ nw_prefix row = prefix /\ nw_counter row = c) <-> 1 <= c <= n) /\
  (forall number row, t !! number = Some row -> row_ok row).
Proof.
  apply (numbers_gapless defaultFormatter calls flaky).
  - reflexivity.
  - vm_compute. discriminate.
Defined.
Lemma number_final_witness :
  let '(answers, conn') := number_run calls (snd (number_run [CNext "AT-"; CMarkUsed "AT-000001" "in_1"] conn)) in
  (Issued (Ok "AT-000001") ∉ answers) /\
  exists row', nc_table conn' !! "AT-000001" = Some row' /\ nw_prefix row' = "AT-" /\
    nw_counter row' = 1 /\ ("used" <> "issued" -> row' = mkNumberRow "AT-" 1 "used" (Some "in_1") None 0 (Some 0)).
Proof.
  apply (number_final defaultFormatter calls (snd (number_run [CNext "AT-"; CMarkUsed "AT-000001" "in_1"] conn)) "AT-000001"
    (mkNumberRow "AT-" 1 "used" (Some "in_1") None 0 (Some 0))).
  vm_compute. reflexivity.
Defined.
Lemma postgres_refines_memory_witness :
  fst (number_run calls conn) = fst (number_run calls NewMemoryNumberRepo) /\
  fst (number_run calls conn) =
    [Issued (Ok "AT-000001"); Marked None; Issued (Ok "AT-000002"); Marked None; Marked (Some ErrNumberAlreadyResolved)].
Proof.
  split; [|vm_compute; reflexivity]. apply (postgres_refines_memory calls conn).
  - reflexivity.
  - reflexivity.
  - repeat constructor.
  - vm_compute. discriminate.
Defined.
Lemma digit_prefix_collides_witness :
  let m := mkNumberRepo {[ "A" := 1000000 ]} {[ "A1000001" := mkStatus "used" "in_1" "" ]} in
  let row c s := mkNumberRow s c "used" (Some "in_1") None 0 (Some 0) in
  let t : numbers_table := {[ "A1000000" := row 1000000 "A"; "A1000001" := row 1 "A1" ]} in
  mn_status (snd (mn_Next "A" m)) !! "A1000001" = Some (mkStatus "issued" "" "") /\
  exists e n', pn_Next defaultFormatter 0 "A" no_faults 0%nat t = (Err e, (n', t)).
Proof.
  intros m row t. apply (digit_prefix_collides "A" 0 no_faults 0%nat m t (row 1 "A1")); vm_compute; reflexivity.
Defined.
End NumbersDemo.
