(* ===== verification/Invoices.v ===== *)
(** * Invoices: drafts with numbers of one's own, and the audit export
      (src/invoices/types.go, backend.go, operations.go, audit.go).

    The backend is stripe-go behind an interface over its state, the orphan hook a
    function of the application. [Encode] writes CSV with the quoting of [encoding/csv] and
    JSON as [encoding/json] indents it; the times of a report are in UTC. What the sink for
    errors of the hook receives is the list [iw_stderr]. *)
From S2P Require Import Prelude Json Events InvoiceNumbers.

(** ** Data (types.go, backend.go) *)
Record CreateLineItem := mkLineItem {
  li_Description : string; li_Amount : Z; li_Currency : string; li_Quantity : Z }.
Record CreateInput := mkCreateInput {
  ci_Customer : string; ci_DueIn : Z; ci_Memo : string; ci_LineItems : list CreateLineItem;
  ci_Metadata : smap; ci_NumberOverride : string; ci_NumberPrefix : string }.
Record Invoice := mkInvoice {
  iv_StripeID : string; iv_Number : string; iv_Status : string; iv_Customer : string; iv_Currency : string;
  iv_AmountTotal : Z; iv_AmountPaid : Z; iv_DueDate : option Z; iv_HostedInvoiceURL : string; iv_PDFURL : string }.
Definition Invoice_zero : Invoice := mkInvoice "" "" "" "" "" 0 0 None "" "".
Record CreditNoteInput := mkCreditNote {
  cn_InvoiceID : string; cn_Lines : list CreateLineItem; cn_Reason_ : string; cn_Refund : bool }.
Record InvoicePageRequest := mkPageRequest {
  pq_CustomerID : string; pq_Status : string; pq_Limit : Z; pq_StartingAfter : string }.
Record InvoicePage := mkPage { pg_Invoices : list Invoice; pg_HasMore : bool; pg_LastID : string }.
Definition InvoicePage_zero : InvoicePage := mkPage [] false "".

Record InvoicePeriod := mkPeriod { pe_Start : Z; pe_End : Z }.
Inductive InvoiceEntryType := EntryTypeInvoice | EntryTypeCreditNote.
Record AuditEntry := mkAuditEntry {
  ae_StripeID : string; ae_Number : string; ae_Type : InvoiceEntryType; ae_Status : string;
  ae_CustomerID : string; ae_CustomerEmail : string; ae_CustomerVATID : string; ae_CustomerCountry : string;
  ae_Currency : string; ae_AmountTotal : Z; ae_AmountTax : Z; ae_AmountPaid : Z; ae_Created : Z;
  ae_Finalized : option Z; ae_Paid : option Z; ae_Voided : option Z; ae_HostedInvoiceURL : string }.
Record AuditReport := mkReport {
  rp_Period : InvoicePeriod; rp_Entries : list AuditEntry;
  rp_TotalsTotal : gmap string Z; rp_TotalsTax : gmap string Z; rp_TotalsPaid : gmap string Z }.

(** The backend interface (backend.go). *)
Class InvoiceBackend (B : Type) := {
  ib_ListInvoices : InvoicePeriod -> B -> res string (list AuditEntry);
  ib_CreateDraft : CreateInput -> B -> res string Invoice * B;
  ib_Finalize : string -> B -> res string Invoice * B;
  ib_FinalizeAndSend : string -> B -> Invoice * option string * B;
  ib_Void : string -> B -> option string * B;
  ib_MarkUncollectible : string -> B -> option string * B;
  ib_IssueCreditNote : CreditNoteInput -> B -> option string * B;
  ib_ListOverdue : B -> res string (list Invoice);
  ib_ListByCustomer : string -> string -> Z -> B -> res string (list Invoice);
  ib_ListByCustomerPage : InvoicePageRequest -> B -> res string InvoicePage;
}.

(** ** Operations (operations.go) *)
Record OrphanInfo := mkOrphan {
  oi_Number : string; oi_Reason : string; oi_StripeInvoiceID : string;
  oi_LedgerError : number_error; oi_StripeError : option string }.
Inductive invoice_error :=
| InvInvalid (msg : string)
| InvNext (e : number_error)
| InvStripe (e : string)
| InvMarkUsed (number stripeID : string) (e : number_error).

Section operations.
Context {N B A : Type} `{NumberRepo N} `{InvoiceBackend B}.

(** The facade: whether a number repository is wired, the namespace, the hook. *)
Record InvoiceOps := mkInvoiceOps {
  io_numbers : bool;
  io_namespace : string;
  io_onOrphan : option (OrphanInfo -> A -> option string * A);
}.
(** [New] and its options, in the order they are applied; [None] is the panic without a
    backend. *)
Inductive InvoiceOption :=
| WithNumberRepo (given : bool)
| WithNamespace (ns : string)
| WithOrphanHook (h : option (OrphanInfo -> A -> option string * A)).
Definition apply_option (o : InvoiceOps) (opt : InvoiceOption) : InvoiceOps :=
  match opt with
  | WithNumberRepo given => mkInvoiceOps given (io_namespace o) (io_onOrphan o)
  | WithNamespace ns => mkInvoiceOps (io_numbers o) ns (io_onOrphan o)
  | WithOrphanHook h => mkInvoiceOps (io_numbers o) (io_namespace o) h
  end.
Definition NewInvoices (backend : bool) (opts : list InvoiceOption) : option InvoiceOps :=
  if backend then Some (foldl apply_option (mkInvoiceOps false "" None) opts) else None.
(** The ledger, Stripe, the application and what was written to stderr. *)
Record InvoiceWorld := mkInvoiceWorld {
  iw_numbers : N; iw_backend : B; iw_app : A; iw_stderr : list (string * OrphanInfo) }.

Fixpoint check_items (i : Z) (items : list CreateLineItem) : option string :=
  match items with
  | [] => None
  | li :: rest =>
      if li_Amount li <=? 0 then Some ("invoices: LineItems[" ^^ fmt_d i ^^ "].Amount must be positive")
      else if String.eqb (li_Currency li) "" then Some ("invoices: LineItems[" ^^ fmt_d i ^^ "].Currency is required")
      else check_items (i + 1) rest
  end.
Definition check_input (input : CreateInput) : option string :=
  if String.eqb (ci_Customer input) "" then Some "invoices: CreateInput.Customer is required"
  else match ci_LineItems input with
       | [] => Some "invoices: CreateInput.LineItems is required"
       | items => check_items 0 items
       end.

Definition with_override (number : string) (input : CreateInput) : CreateInput :=
  mkCreateInput (ci_Customer input) (ci_DueIn input) (ci_Memo input) (ci_LineItems input) (ci_Metadata input)
    number (ci_NumberPrefix input).
Definition stamped (ns : string) (input : CreateInput) : CreateInput :=
  mkCreateInput (ci_Customer input) (ci_DueIn input) (ci_Memo input) (ci_LineItems input)
    (StampNamespace (ci_Metadata input) ns) (ci_NumberOverride input) (ci_NumberPrefix input).

Definition reportOrphan (o : InvoiceOps) (info : OrphanInfo) (w : InvoiceWorld) : InvoiceWorld :=
  match io_onOrphan o with
  | None => w
  | Some hook =>
      match hook info (iw_app w) with
      | (None, a) => mkInvoiceWorld (iw_numbers w) (iw_backend w) a (iw_stderr w)
      | (Some e, a) => mkInvoiceWorld (iw_numbers w) (iw_backend w) a (iw_stderr w ++ [(e, info)])
      end
  end.

(** The Stripe call and what follows it, with the number that was allocated, if any. *)
Definition create_numbered (o : InvoiceOps) (allocated : string) (input : CreateInput) (w : InvoiceWorld)
  : Invoice * option invoice_error * InvoiceWorld :=
  match ib_CreateDraft (stamped (io_namespace o) input) (iw_backend w) with
  | (Err e, b) =>
      let w1 := mkInvoiceWorld (iw_numbers w) b (iw_app w) (iw_stderr w) in
      if String.eqb allocated "" then (Invoice_zero, Some (InvStripe e), w1)
      else
        let '(voidErr, n) := nr_MarkVoided allocated ("stripe CreateDraft failed: " ^^ e) (iw_numbers w1) in
        let w2 := mkInvoiceWorld n b (iw_app w) (iw_stderr w) in
        let w3 := match voidErr with
                  | None => w2
                  | Some ve => reportOrphan o (mkOrphan allocated "void_failed_after_stripe_error" "" ve (Some e)) w2
                  end in
        (Invoice_zero, Some (InvStripe e), w3)
  | (Ok inv, b) =>
      let w1 := mkInvoiceWorld (iw_numbers w) b (iw_app w) (iw_stderr w) in
      if String.eqb allocated "" then (inv, None, w1)
      else
        let '(markErr, n) := nr_MarkUsed allocated (iv_StripeID inv) (iw_numbers w1) in
        let w2 := mkInvoiceWorld n b (iw_app w) (iw_stderr w) in
        match markErr with
        | None => (inv, None, w2)
        | Some me =>
            (inv, Some (InvMarkUsed allocated (iv_StripeID inv) me),
             reportOrphan o (mkOrphan allocated "used_failed_after_stripe_success" (iv_StripeID inv) me None) w2)
        end
  end.

Definition CreateDraft (o : InvoiceOps) (input : CreateInput) (w : InvoiceWorld)
  : Invoice * option invoice_error * InvoiceWorld :=
  match check_input input with
  | Some msg => (Invoice_zero, Some (InvInvalid msg), w)
  | None =>
      if io_numbers o && String.eqb (ci_NumberOverride input) "" then
        match nr_Next (ci_NumberPrefix input) (iw_numbers w) with
        | (Err e, n) =>
            (Invoice_zero, Some (InvNext e), mkInvoiceWorld n (iw_backend w) (iw_app w) (iw_stderr w))
        | (Ok num, n) =>
            create_numbered o num (with_override num input)
              (mkInvoiceWorld n (iw_backend w) (iw_app w) (iw_stderr w))
        end
      else create_numbered o "" input w
  end.

(** The remaining operations check their argument and make one call. *)
Definition with_id {R} (id : string) (zero : R) (call : B -> res string R * B) (b : B)
  : R * option invoice_error * B :=
  if String.eqb id "" then (zero, Some (InvInvalid "invoices: invoiceID is required"), b)
  else match call b with
       | (Ok r, b') => (r, None, b')
       | (Err e, b') => (zero, Some (InvStripe e), b')
       end.
Definition ok_unit (r : option string * B) : res string unit * B :=
  match r with (None, b) => (Ok tt, b) | (Some e, b) => (Err e, b) end.
Definition inv_Finalize (id : string) := with_id id Invoice_zero (ib_Finalize id).
(** The backend returns the invoice it finalized next to the error of the sending. *)
Definition inv_FinalizeAndSend (id : string) (b : B) : Invoice * option invoice_error * B :=
  if String.eqb id "" then (Invoice_zero, Some (InvInvalid "invoices: invoiceID is required"), b)
  else let '(inv, e, b') := ib_FinalizeAndSend id b in (inv, InvStripe <$> e, b').
Definition inv_Void (id : string) := with_id id tt (fun b => ok_unit (ib_Void id b)).
Definition inv_MarkUncollectible (id : string) := with_id id tt (fun b => ok_unit (ib_MarkUncollectible id b)).
Definition inv_IssueCreditNote (input : CreditNoteInput) (b : B) : option invoice_error * B :=
  if String.eqb (cn_InvoiceID input) "" then (Some (InvInvalid "invoices: CreditNoteInput.InvoiceID is required"), b)
  else match cn_Lines input with
       | [] => (Some (InvInvalid "invoices: CreditNoteInput.Lines is required"), b)
       | _ => match ib_IssueCreditNote input b with
              | (None, b') => (None, b')
              | (Some e, b') => (Some (InvStripe e), b')
              end
       end.
Definition inv_ListOverdue (b : B) : res string (list Invoice) := ib_ListOverdue b.
Definition inv_ListByCustomer (customerID status : string) (limit : Z) (b : B) : res invoice_error (list Invoice) :=
  if String.eqb customerID "" then Err (InvInvalid "invoices.ListByCustomer: customerID is required")
  else match ib_ListByCustomer customerID status limit b with Ok l => Ok l | Err e => Err (InvStripe e) end.
Definition inv_ListByCustomerPage (req : InvoicePageRequest) (b : B) : res invoice_error InvoicePage :=
  if String.eqb (pq_CustomerID req) "" then Err (InvInvalid "invoices.ListByCustomerPage: CustomerID is required")
  else match ib_ListByCustomerPage req b with Ok p => Ok p | Err e => Err (InvStripe e) end.
End operations.
Arguments InvoiceOps : clear implicits.
Arguments InvoiceOption : clear implicits.
Arguments InvoiceWorld : clear implicits.

(** ** The audit export (audit.go) *)
Definition entry_before (a b : AuditEntry) : bool :=
  if ae_Created a =? ae_Created b then String.ltb (ae_StripeID a) (ae_StripeID b)
  else ae_Created a <? ae_Created b.
(** [totals[c] += amount] on a map whose absent keys read as zero. *)
Definition add_to (c : string) (amount : Z) (m : gmap string Z) : gmap string Z :=
  <[c := add64 (default 0 (m !! c)) amount]> m.
Definition totals (amount : AuditEntry -> Z) (entries : list AuditEntry) : gmap string Z :=
  foldl (fun m e => add_to (ae_Currency e) (amount e) m) ∅ entries.

Inductive audit_error := AuditListerMissing | AuditPeriod | AuditList (e : string).
Section audit.
Context `{GoRuntime} {B : Type} `{InvoiceBackend B}.
Definition ExportAuditLog (lister : option B) (period : InvoicePeriod) : res audit_error AuditReport :=
  match lister with
  | None => Err AuditListerMissing
  | Some b =>
      if pe_End period <? pe_Start period then Err AuditPeriod
      else match ib_ListInvoices period b with
           | Err e => Err (AuditList e)
           | Ok listed =>
               let entries := sort_slice entry_before listed in
               Ok (mkReport period entries (totals ae_AmountTotal entries) (totals ae_AmountTax entries)
                     (totals ae_AmountPaid entries))
           end
  end.
End audit.

(** *** encoding/csv *)
Definition ascii_in (l : list ascii) (c : ascii) : bool := existsb (Ascii.eqb c) l.
Fixpoint any_char (p : ascii -> bool) (s : string) : bool :=
  match s with "" => false | String c s => p c || any_char p s end.
Definition byte (n : nat) : ascii := ascii_of_nat n.
(** Whether the first rune is a space of Unicode. *)
Definition starts_with_space (s : string) : bool :=
  match s with
  | String a rest =>
      ascii_in (map byte [9; 10; 11; 12; 13; 32]%nat) a ||
      existsb (fun p => has_prefix p s)
        (map (fun l => fold_right (fun n s => String (byte n) s) "" l)
          [[194; 133]; [194; 160]; [225; 154; 128]; [226; 128; 128]; [226; 128; 129]; [226; 128; 130];
           [226; 128; 131]; [226; 128; 132]; [226; 128; 133]; [226; 128; 134]; [226; 128; 135]; [226; 128; 136];
           [226; 128; 137]; [226; 128; 138]; [226; 128; 168]; [226; 128; 169]; [226; 128; 175]; [226; 129; 159];
           [227; 128; 128]]%nat)
  | "" => false
  end.
Definition dquote : ascii := byte 34.
Definition fieldNeedsQuotes (field : string) : bool :=
  if String.eqb field "" then false
  else if String.eqb field "\." then true
  else any_char (ascii_in [byte 44; dquote; byte 13; byte 10]) field || starts_with_space field.
Fixpoint escape_field (s : string) : string :=
  match s with
  | "" => ""
  | String c s => if Ascii.eqb c dquote then String dquote (String dquote (escape_field s))
                  else String c (escape_field s)
  end.
Definition csv_field (field : string) : string :=
  if fieldNeedsQuotes field then String dquote (escape_field field ^^ String dquote "") else field.
Definition csv_record (fields : list string) : string :=
  String.concat "," (map csv_field fields) ^^ String (byte 10) "".

(** *** Encode *)
Definition formatTime (t : option Z) : string :=
  match t with
  | None => ""
  | Some t => if IsZero t then "" else format_rfc3339 t
  end.
Definition entry_type (t : InvoiceEntryType) : string :=
  match t with EntryTypeInvoice => "invoice" | EntryTypeCreditNote => "credit_note" end.
Definition audit_header : list string :=
  ["stripe_id"; "number"; "type"; "status"; "customer_id"; "customer_email"; "customer_vat_id";
   "customer_country"; "currency"; "amount_total"; "amount_tax"; "amount_paid"; "created"; "finalized";
   "paid"; "voided"; "hosted_invoice_url"].
Definition audit_row (e : AuditEntry) : list string :=
  [ae_StripeID e; ae_Number e; entry_type (ae_Type e); ae_Status e; ae_CustomerID e; ae_CustomerEmail e;
   ae_CustomerVATID e; ae_CustomerCountry e; ae_Currency e; fmt_d (ae_AmountTotal e); fmt_d (ae_AmountTax e);
   fmt_d (ae_AmountPaid e); formatTime (Some (ae_Created e)); formatTime (ae_Finalized e); formatTime (ae_Paid e);
   formatTime (ae_Voided e); ae_HostedInvoiceURL e].
Definition sortedCurrencies `{GoRuntime} (m : gmap string Z) : list string :=
  sort_slice String.ltb (map fst (map_range m)).
Definition totals_row (r : AuditReport) (c : string) : list string :=
  [c; fmt_d (default 0 (rp_TotalsTotal r !! c)); fmt_d (default 0 (rp_TotalsTax r !! c));
   fmt_d (default 0 (rp_TotalsPaid r !! c))].
Definition audit_records `{GoRuntime} (r : AuditReport) : list (list string) :=
  [audit_header] ++ map audit_row (rp_Entries r) ++ [[]] ++
  [["#totals_currency"; "amount_total"; "amount_tax"; "amount_paid"]] ++
  map (totals_row r) (sortedCurrencies (rp_TotalsTotal r)).
Definition encodeCSV `{GoRuntime} (r : AuditReport) : string :=
  String.concat "" (map csv_record (audit_records r)).

(** *** JSON *)
(** Nanoseconds without their trailing zeros. *)
Fixpoint trim_zeros (s : string) : string :=
  match s with
  | "" => ""
  | String c s => match trim_zeros s with
                  | "" => if Ascii.eqb c "0" then "" else String c ""
                  | t => String c t
                  end
  end.
Definition fraction (t : Z) : string := let n := t mod second in if n =? 0 then "" else "." ^^ trim_zeros (fmt_0d 9 n).
Definition date_time (t : Z) : string :=
  let u := Unix t in
  let '(y, m, d) := civil (u / 86400) in
  let s := u mod 86400 in
  fmt_0d 4 y ^^ "-" ^^ fmt_0d 2 m ^^ "-" ^^ fmt_0d 2 d ^^ "T" ^^ fmt_0d 2 (s / 3600) ^^ ":" ^^ fmt_0d 2 (s / 60 mod 60) ^^ ":" ^^ fmt_0d 2 (s mod 60).
(** [Time.MarshalJSON]: [time.RFC3339Nano], an error for a year of more than four digits. *)
Definition time_json (t : Z) : option json :=
  let '(y, _, _) := civil (Unix t / 86400) in
  if (y <? 0) || (9999 <? y) then None else Some (JStr (date_time t ^^ fraction t ^^ "Z")).
Definition time_ptr_json (t : option Z) : option json := match t with None => Some JNull | Some t => time_json t end.
Definition entry_json (e : AuditEntry) : option json :=
  created ← time_json (ae_Created e); finalized ← time_ptr_json (ae_Finalized e);
  paid ← time_ptr_json (ae_Paid e); voided ← time_ptr_json (ae_Voided e);
  Some (JObj [("StripeID", JStr (ae_StripeID e)); ("Number", JStr (ae_Number e)); ("Type", JStr (entry_type (ae_Type e)));
    ("Status", JStr (ae_Status e)); ("CustomerID", JStr (ae_CustomerID e)); ("CustomerEmail", JStr (ae_CustomerEmail e));
    ("CustomerVATID", JStr (ae_CustomerVATID e)); ("CustomerCountry", JStr (ae_CustomerCountry e)); ("Currency", JStr (ae_Currency e));
    ("AmountTotal", JNum (fmt_d (ae_AmountTotal e))); ("AmountTax", JNum (fmt_d (ae_AmountTax e)));
    ("AmountPaid", JNum (fmt_d (ae_AmountPaid e))); ("Created", created); ("Finalized", finalized); ("Paid", paid);
    ("Voided", voided); ("HostedInvoiceURL", JStr (ae_HostedInvoiceURL e))]).
(** A map is written with its keys in order. *)
Definition totals_json `{GoRuntime} (m : gmap string Z) : json :=
  JObj (map (fun c => (c, JNum (fmt_d (default 0 (m !! c))))) (sortedCurrencies m)).
(** [isNil] says whether an empty slice of entries is the nil slice, which is written as null. *)
Definition report_json `{GoRuntime} (isNil : bool) (r : AuditReport) : option json :=
  start ← time_json (pe_Start (rp_Period r)); end_ ← time_json (pe_End (rp_Period r));
  entries ← mapM entry_json (rp_Entries r);
  Some (JObj [("Period", JObj [("Start", start); ("End", end_)]);
    ("Entries", match entries with [] => if isNil then JNull else JArr [] | _ => JArr entries end);
    ("TotalsTotal", totals_json (rp_TotalsTotal r)); ("TotalsTax", totals_json (rp_TotalsTax r)); ("TotalsPaid", totals_json (rp_TotalsPaid r))]).
Inductive encode_error := YearOutOfRange | UnknownFormat (format : string).
Definition encodeJSON `{GoRuntime} (isNil : bool) (r : AuditReport) : res encode_error string :=
  match report_json isNil r with Some j => Ok (MarshalIndent j) | None => Err YearOutOfRange end.
Definition Encode `{GoRuntime} (isNil : bool) (r : AuditReport) (format : string) : res encode_error string :=
  if String.eqb format "" || String.eqb format "csv" then Ok (encodeCSV r)
  else if String.eqb format "json" then encodeJSON isNil r
  else Err (UnknownFormat format).
