(* ===== verification/InvoiceFacts.v ===== *)
(** * InvoiceFacts: no number gets lost, and the audit adds up.

    [NumberLaws] is what a draft relies on of the number ledger; both repositories
    keep it. *)
From S2P Require Import Prelude Postgres Json Events InvoiceNumbers InvoiceNumberFacts Invoices.

Definition issued_status : nrStatus := mkStatus "issued" "" "".
Class NumberLaws (S : Type) `{NumberRepo S} := {
  number_status : S -> string -> option nrStatus;
  next_issued prefix s n s' : nr_Next prefix s = (Ok n, s') -> number_status s' n = Some issued_status;
  used_marked n id s s' : nr_MarkUsed n id s = (None, s') -> number_status s n = Some issued_status ->
    number_status s' n = Some (mkStatus "used" id "");
  voided_marked n reason s s' : nr_MarkVoided n reason s = (None, s') -> number_status s n = Some issued_status ->
    number_status s' n = Some (mkStatus "voided" "" reason);
}.

#[export, refine] Instance memory_NumberLaws : NumberLaws MemoryNumberRepo := {|
  number_status m n := mn_status m !! n;
|}.
Proof.
  - intros prefix s n s' [= <- <-]. cbn. by rewrite lookup_insert_eq.
  - intros n id s s' E Hs. cbn in E. unfold mn_MarkUsed in E. rewrite Hs in E. cbn in E. injection E as <-.
    cbn. by rewrite lookup_insert_eq.
  - intros n id s s' E Hs. cbn in E. unfold mn_MarkVoided in E. rewrite Hs in E. cbn in E. injection E as <-.
    cbn. by rewrite lookup_insert_eq.
Defined.

Section postgres_laws.
Context `{PgTime} (formatter : string -> Z -> string).
#[local] Instance pg_repo : NumberRepo NumberConn := postgres_NumberRepo formatter.

Lemma issued_row row : status_of row = issued_status ->
  nw_state row = "issued" /\ default "" (nw_stripe_invoice_id row) = "" /\ default "" (nw_void_reason row) = "".
Proof. by intros [= -> -> ->]. Qed.

Lemma pn_MarkUsed_ok now number id fs n t n' t' row :
  pn_MarkUsed now number id fs n t = (Ok None, (n', t')) -> t !! number = Some row -> nw_state row = "issued" ->
  t' !! number = Some (set_used id now row).
Proof.
  intros [n2 [E|[_ [d2 E]]]]%transaction_ok Hrow Hst;
    apply sbind_ok in E as (found & n1 & d1 & [[= <-] ->]%named_ok%query_ok & E); rewrite Hrow, Hst in E; cbn in E;
    apply sbind_ok in E as (u & n3 & d3 & [[= _ <-] _]%named_ok%stmt_ok & E); [|done].
  injection E as _ <-. by rewrite lookup_alter_eq, Hrow.
Qed.
Lemma pn_MarkVoided_ok now number reason fs n t n' t' row :
  pn_MarkVoided now number reason fs n t = (Ok None, (n', t')) -> t !! number = Some row -> nw_state row = "issued" ->
  t' !! number = Some (set_voided reason now row).
Proof.
  intros [n2 [E|[_ [d2 E]]]]%transaction_ok Hrow Hst;
    apply sbind_ok in E as (found & n1 & d1 & [[= <-] ->]%named_ok%query_ok & E); rewrite Hrow, Hst in E; cbn in E;
    apply sbind_ok in E as (u & n3 & d3 & [[= _ <-] _]%named_ok%stmt_ok & E); [|done].
  injection E as _ <-. by rewrite lookup_alter_eq, Hrow.
Qed.

#[refine] Definition postgres_NumberLaws : NumberLaws NumberConn := {|
  number_status c n := status_of <$> nc_table c !! n;
|}.
Proof.
  - intros prefix s n s'. cbn -[pn_Next]. unfold on_conn. destruct (pn_Next _ _ _ _ _ _) as [[x|e] [k t]] eqn:E; [|done].
    intros [= -> <-]. apply pn_Next_step in E as (_ & _ & E). destruct (E n eq_refl) as (_ & _ & ->).
    cbn. by rewrite lookup_insert_eq.
  - intros n id s s'. cbn -[pn_MarkUsed]. unfold on_conn. destruct (pn_MarkUsed _ _ _ _ _ _) as [[x|e] [k t]] eqn:E; [|done].
    intros [= -> <-] Hs. destruct (nc_table s !! n) as [row|] eqn:Er; [|done]. apply (inj Some) in Hs.
    apply issued_row in Hs as (Es & _ & Ev). cbn. rewrite (pn_MarkUsed_ok _ _ _ _ _ _ _ _ row E Er Es).
    unfold status_of. cbn. by rewrite Ev.
  - intros n id s s'. cbn -[pn_MarkVoided]. unfold on_conn. destruct (pn_MarkVoided _ _ _ _ _ _) as [[x|e] [k t]] eqn:E; [|done].
    intros [= -> <-] Hs. destruct (nc_table s !! n) as [row|] eqn:Er; [|done]. apply (inj Some) in Hs.
    apply issued_row in Hs as (Es & Ei & _). cbn. rewrite (pn_MarkVoided_ok _ _ _ _ _ _ _ _ row E Er Es).
    unfold status_of. cbn. by rewrite Ei.
Defined.
End postgres_laws.

Section drafts.
Context {N B A : Type} `{NumberLaws N} `{InvoiceBackend B}.
Implicit Types (o : InvoiceOps A) (w : InvoiceWorld N B A).

Lemma report_told o hook info w : io_onOrphan o = Some hook -> iw_app (reportOrphan o info w) = snd (hook info (iw_app w)).
Proof. unfold reportOrphan. intros ->. by destruct (hook info (iw_app w)) as [[e|] a]. Qed.
Lemma report_backend o info w :
  iw_backend (reportOrphan o info w) = iw_backend w /\ iw_numbers (reportOrphan o info w) = iw_numbers w.
Proof. unfold reportOrphan. destruct (io_onOrphan o) as [hook|]; [|done]. by destruct (hook info (iw_app w)) as [[e|] a]. Qed.

(** C16: with an orphan hook, a number that was allocated is accounted for. Stripe is called
    once, with the number and the namespace; then the number is used by the invoice that was
    created, or the error names both and the hook is called with them; and when Stripe
    refuses, the number is voided, or the hook is called with it. *)
Theorem CreateDraft_accounts o hook input w num n1 :
  io_onOrphan o = Some hook -> check_input input = None -> io_numbers o = true -> ci_NumberOverride input = "" ->
  nr_Next (ci_NumberPrefix input) (iw_numbers w) = (Ok num, n1) -> num <> "" ->
  let '(answer, b) := ib_CreateDraft (stamped (io_namespace o) (with_override num input)) (iw_backend w) in
  let '(inv, err, w') := CreateDraft o input w in
  iw_backend w' = b /\
  match answer with
  | Ok created => inv = created /\
      (err = None /\ number_status (iw_numbers w') num = Some (mkStatus "used" (iv_StripeID created) "") \/
       exists e, err = Some (InvMarkUsed num (iv_StripeID created) e) /\
         iw_app w' = snd (hook (mkOrphan num "used_failed_after_stripe_success" (iv_StripeID created) e None) (iw_app w)))
  | Err msg => err = Some (InvStripe msg) /\
      (number_status (iw_numbers w') num = Some (mkStatus "voided" "" ("stripe CreateDraft failed: " ^^ msg)) \/
       exists e, iw_app w' = snd (hook (mkOrphan num "void_failed_after_stripe_error" "" e (Some msg)) (iw_app w)))
  end.
Proof.
  intros Hhook Hc Hn Ho Hnext Hne. unfold CreateDraft. rewrite Hc, Hn, Ho, Hnext. cbn [andb String.eqb].
  unfold create_numbered. cbn [iw_backend iw_numbers iw_app iw_stderr].
  pose proof (next_issued _ _ _ _ Hnext) as Hst.
  destruct (ib_CreateDraft _ (iw_backend w)) as [[created|msg] b]; rewrite (proj2 (String.eqb_neq _ _) Hne).
  - destruct (nr_MarkUsed num (iv_StripeID created) n1) as [[e|] n2] eqn:E.
    + split; [by apply report_backend|]. split; [done|]. right. exists e. split; [done|]. by rewrite (report_told _ hook).
    + split; [done|]. split; [done|]. left. split; [done|]. cbn. by eapply used_marked.
  - destruct (nr_MarkVoided num _ n1) as [[e|] n2] eqn:E.
    + split; [by apply report_backend|]. split; [done|]. right. exists e. by rewrite (report_told _ hook).
    + split; [done|]. split; [done|]. left. cbn. by eapply voided_marked.
Qed.
End drafts.

(** ** The audit *)
#[export] Instance entry_before_order : StrictWeak entry_before.
Proof.
  apply (lexZ_order ae_Created (fun a b => String.ltb (ae_StripeID a) (ae_StripeID b))).
  split; intros *; [apply less_asym|apply less_negtrans].
Qed.

(** The amounts of a currency. *)
Definition of_currency (c : string) (entries : list AuditEntry) : list AuditEntry :=
  List.filter (fun e => String.eqb (ae_Currency e) c) entries.
Lemma totals_lookup amount entries c :
  totals amount entries !! c =
    match of_currency c entries with
    | [] => None
    | l => Some (wrap64 (sumZ (map amount l)))
    end.
Proof.
  unfold totals. induction entries as [|e entries IH] using rev_ind; [done|].
  rewrite foldl_app. cbn [foldl]. unfold add_to, of_currency in *. rewrite List.filter_app. cbn [List.filter].
  destruct (String.eqb_spec (ae_Currency e) c) as [<-|Hne].
  - rewrite lookup_insert_eq, IH. set (l := List.filter _ entries).
    replace (match l ++ [e] with [] => None | l' => Some (wrap64 (sumZ (map amount l'))) end)
      with (Some (wrap64 (sumZ (map amount (l ++ [e]))))) by (by destruct l).
    rewrite map_app, sumZ_app. cbn [map]. rewrite sumZ_cons, sumZ_nil, Z.add_0_r. f_equal.
    unfold add64. destruct l as [|x l]; [done|]. cbn [default]. apply wrap64_add_l.
  - rewrite lookup_insert_ne by done. by rewrite IH, app_nil_r.
Qed.
Lemma of_currency_perm c l l' : l ≡ₚ l' -> of_currency c l ≡ₚ of_currency c l'.
Proof.
  unfold of_currency. induction 1 as [| x l l' _ IH| x y l | l1 l2 l3 _ IH1 _ IH2]; cbn; [done|..].
  - destruct (String.eqb _ c); by rewrite IH.
  - destruct (String.eqb (ae_Currency x) c), (String.eqb (ae_Currency y) c); try done. apply Permutation_swap.
  - by rewrite IH1.
Qed.
Lemma sumZ_perm l l' : l ≡ₚ l' -> sumZ l = sumZ l'.
Proof. induction 1; rewrite ?sumZ_cons; lia. Qed.
Lemma totals_perm amount l l' : l ≡ₚ l' -> totals amount l = totals amount l'.
Proof.
  intros Hp. apply map_eq. intros c. rewrite !totals_lookup. pose proof (of_currency_perm c l l' Hp) as Hc.
  assert (E : sumZ (map amount (of_currency c l)) = sumZ (map amount (of_currency c l'))) by (apply sumZ_perm, Permutation_map, Hc).
  destruct (of_currency c l) as [|x xs], (of_currency c l') as [|y ys].
  - done.
  - by apply Permutation_nil_cons in Hc.
  - by apply Permutation_sym, Permutation_nil_cons in Hc.
  - by rewrite E.
Qed.

(** The audit export is complete and adds up. Its entries are the listed ones, sorted
    by time and then by id, and the totals of a currency are the sums over the entries
    in it, wrapped to 64 bits; a currency without entries has no total. *)
Theorem ExportAuditLog_correct `{GoRuntime} {B} `{InvoiceBackend B} b period listed :
  pe_Start period <= pe_End period -> ib_ListInvoices period b = Ok listed ->
  exists r, ExportAuditLog (Some b) period = Ok r /\ rp_Entries r ≡ₚ listed /\
    sorted_by entry_before (rp_Entries r) /\
    forall c, let sum amount := match of_currency c listed with
                                | [] => None
                                | l => Some (wrap64 (sumZ (map amount l)))
                                end in
      rp_TotalsTotal r !! c = sum ae_AmountTotal /\ rp_TotalsTax r !! c = sum ae_AmountTax /\
      rp_TotalsPaid r !! c = sum ae_AmountPaid.
Proof.
  intros Hp Hl. unfold ExportAuditLog. rewrite (proj2 (Z.ltb_ge _ _) Hp), Hl. eexists. split; [done|]. cbn.
  split; [apply sort_slice_perm|]. split; [apply sort_slice_sorted, _|]. intros c.
  rewrite !(totals_perm _ (sort_slice entry_before listed) listed) by apply sort_slice_perm.
  rewrite !totals_lookup. by destruct (of_currency c listed).
Qed.

(** ** Witnesses *)
Module InvoicesDemo.
(** A backend that numbers its invoices and knows what it was asked to create. *)
Definition stripe : Type := list CreateInput.
Definition entry (id : string) (created amount : Z) (currency : string) : AuditEntry :=
  mkAuditEntry id "" EntryTypeInvoice "paid" "cus_1" "" "" "" currency amount 0 amount created None None None "".
Definition listed : list AuditEntry := [entry "in_2" 20 700 "eur"; entry "in_1" 10 300 "eur"; entry "in_3" 20 50 "usd"].
#[local] Instance backend : InvoiceBackend stripe := {
  ib_ListInvoices _ _ := Ok listed;
  ib_CreateDraft input b :=
    if String.eqb (ci_Memo input) "refuse" then (Err "card_declined", b)
    else (Ok (mkInvoice "in_1" (ci_NumberOverride input) "draft" (ci_Customer input) "eur" 100 0 None "" ""), b ++ [input]);
  ib_Finalize _ b := (Ok Invoice_zero, b);
  ib_FinalizeAndSend _ b := (Invoice_zero, None, b);
  ib_Void _ b := (None, b);
  ib_MarkUncollectible _ b := (None, b);
  ib_IssueCreditNote _ b := (None, b);
  ib_ListOverdue _ := Ok [];
  ib_ListByCustomer _ _ _ _ := Ok [];
  ib_ListByCustomerPage _ _ := Ok InvoicePage_zero;
}.
Definition ops : InvoiceOps (list OrphanInfo) := mkInvoiceOps true "acme" (Some (fun info a => (None, a ++ [info]))).
Definition input (memo : string) : CreateInput :=
  mkCreateInput "cus_1" 0 memo [mkLineItem "seat" 100 "eur" 1] ∅ "" "AT-".
Definition world : InvoiceWorld MemoryNumberRepo stripe (list OrphanInfo) :=
  mkInvoiceWorld NewMemoryNumberRepo [] [] [].
Definition world' : InvoiceWorld MemoryNumberRepo stripe (list OrphanInfo) := snd (CreateDraft ops (input "refuse") world).

Lemma CreateDraft_accounts_witness :
  iw_backend world' = [] /\ iw_app world' = [] /\
  number_status (iw_numbers world') "AT-000001" = Some (mkStatus "voided" "" "stripe CreateDraft failed: card_declined").
Proof.
  pose proof (CreateDraft_accounts ops _ (input "refuse") world "AT-000001" (snd (nr_Next "AT-" NewMemoryNumberRepo))
    eq_refl eq_refl eq_refl eq_refl eq_refl ltac:(discriminate)) as H.
  destruct H as [_ H]. split; [reflexivity|]. split; [reflexivity|].
  destruct H as [_ [H|(e & H)]]; [exact H|vm_compute in H; discriminate].
Defined.
Lemma ExportAuditLog_correct_witness :
  exists r, ExportAuditLog (B := stripe) (Some []) (mkPeriod 0 100) = Ok r /\ rp_Entries r ≡ₚ listed /\
    rp_TotalsTotal r !! "eur" = Some 1000.
Proof.
  destruct (ExportAuditLog_correct (B := stripe) [] (mkPeriod 0 100) listed) as (r & E & Hp & _ & Ht); [cbn; lia|reflexivity|].
  exists r. split; [exact E|]. split; [exact Hp|]. destruct (Ht "eur") as [-> _]. vm_compute. reflexivity.
Defined.
End InvoicesDemo.

(** ** The export is readable *)
(** A reader of comma-separated records after RFC 4180: a quoted field may contain anything,
    a quote in it is doubled, and nothing but a separator follows it; a quote elsewhere is an
    error, as is a quoted field that does not end. A line feed ends a record. *)
Module Csv.
Inductive state := FieldStart | Bare | Quoted | QuoteSeen.
Definition separator (c : ascii) : bool := Ascii.eqb c "," || Ascii.eqb c "010".
Definition snoc (s : string) (c : ascii) : string := s ^^ String c "".
Fixpoint read (st : state) (field : string) (row : list string) (s : string) : option (list (list string)) :=
  match s with
  | "" => match st with
          | Quoted => None
          | FieldStart => match row with [] => Some [] | _ => Some [row ++ [""]] end
          | _ => Some [row ++ [field]]
          end
  | String c s =>
      let continues (st : state) (field : string) := read st field row s in
      let ends (field : string) :=
        if Ascii.eqb c "," then read FieldStart "" (row ++ [field]) s
        else (fun rows => (row ++ [field]) :: rows) <$> read FieldStart "" [] s in
      match st with
      | FieldStart => if separator c then ends "" else if Ascii.eqb c dquote then continues Quoted "" else continues Bare (String c "")
      | Bare => if separator c then ends field else if Ascii.eqb c dquote then None else continues Bare (snoc field c)
      | Quoted => if Ascii.eqb c dquote then continues QuoteSeen field else continues Quoted (snoc field c)
      | QuoteSeen => if separator c then ends field else if Ascii.eqb c dquote then continues Quoted (snoc field c) else None
      end
  end.
Definition read_csv (s : string) : option (list (list string)) := read FieldStart "" [] s.

(** What follows a field: the rest of the record or of the document. *)
Definition after (field : string) (row : list string) (c : ascii) (s : string) : option (list (list string)) :=
  if Ascii.eqb c "," then read FieldStart "" (row ++ [field]) s else (fun rows => (row ++ [field]) :: rows) <$> read FieldStart "" [] s.
Lemma read_sep st field row c s : separator c = true -> st = Bare \/ st = QuoteSeen -> read st field row (String c s) = after field row c s.
Proof. intros Hc [-> | ->]; cbn; by rewrite Hc. Qed.
Lemma separator_not_quote c : separator c = true -> Ascii.eqb c dquote = false.
Proof. unfold separator. intros [->%Ascii.eqb_eq| ->%Ascii.eqb_eq]%orb_true_iff; done. Qed.
Lemma read_quote_quote field row s : read Quoted field row (String dquote (String dquote s)) = read Quoted (snoc field dquote) row s.
Proof. done. Qed.
Lemma read_quote_end field row c s : separator c = true -> read Quoted field row (String dquote (String c s)) = after field row c s.
Proof. intros Hc. change (read QuoteSeen field row (String c s) = after field row c s). by apply read_sep; [|right]. Qed.
Lemma read_quoted field row f c s : separator c = true ->
  read Quoted field row (escape_field f ^^ String dquote (String c s)) = after (field ^^ f) row c s.
Proof.
  intros Hc. revert field. induction f as [|a f IH]; intros field; cbn [escape_field String.append].
  - by rewrite append_nil_r, read_quote_end.
  - destruct (Ascii.eqb a dquote) eqn:Ea; cbn [String.append].
    + apply Ascii.eqb_eq in Ea as ->. rewrite read_quote_quote, IH. unfold snoc. by rewrite append_assoc.
    + cbn [read]. rewrite Ea, IH. unfold snoc. by rewrite append_assoc.
Qed.
Definition plain (f : string) : bool := negb (any_char (ascii_in [Invoices.byte 44; dquote; Invoices.byte 13; Invoices.byte 10]) f).
Lemma plain_cons a f : plain (String a f) = true -> separator a = false /\ Ascii.eqb a dquote = false /\ plain f = true.
Proof.
  unfold plain. cbn. rewrite !orb_false_r, !negb_orb, !andb_true_iff, !negb_true_iff. unfold separator. rewrite orb_false_iff. tauto.
Qed.
Lemma read_bare field row f c s : plain f = true -> separator c = true -> read Bare field row (f ^^ String c s) = after (field ^^ f) row c s.
Proof.
  intros Hf Hc. revert field Hf. induction f as [|a f IH]; intros field Hf; [by rewrite append_nil_r; apply read_sep; [|left]|].
  apply plain_cons in Hf as (Hs & Hq & Hf). cbn [String.append read]. rewrite Hs, Hq, IH by done. unfold snoc. by rewrite append_assoc.
Qed.
Lemma read_field row f c s : separator c = true -> read FieldStart "" row (csv_field f ^^ String c s) = after f row c s.
Proof.
  intros Hc. unfold csv_field. destruct (fieldNeedsQuotes f) eqn:Hq.
  - cbn [String.append read]. change (separator dquote) with false. rewrite Ascii.eqb_refl. cbv iota. rewrite append_assoc. by apply (read_quoted "").
  - unfold fieldNeedsQuotes in Hq. destruct (String.eqb_spec f "") as [->|Hne]; [cbn; by rewrite Hc|].
    destruct (String.eqb f "\."); [done|]. apply orb_false_iff in Hq as [Hp _].
    assert (Hpl : plain f = true) by (unfold plain; by rewrite Hp).
    destruct f as [|a f]; [done|]. apply plain_cons in Hpl as (Hs & Hd & Hf). cbn [String.append read]. rewrite Hs, Hd.
    exact (read_bare (String a "") row f c s Hf Hc).
Qed.
Lemma read_record row fields s : fields <> [] ->
  read FieldStart "" row (csv_record fields ^^ s) = (fun rows => (row ++ fields) :: rows) <$> read FieldStart "" [] s.
Proof.
  unfold csv_record. intros Hne. revert row. induction fields as [|f [|f' fields] IH]; intros row; [done|..].
  - cbn [map String.concat]. rewrite append_assoc. cbn [String.append]. by rewrite read_field.
  - change (String.concat "," (map csv_field (f :: f' :: fields))) with (csv_field f ^^ ("," ^^ String.concat "," (map csv_field (f' :: fields)))).
    rewrite !append_assoc. cbn [String.append]. rewrite read_field by done. unfold after. cbn [Ascii.eqb].
    change (Ascii.eqb "," ",") with true. cbv iota. rewrite append_assoc in IH. cbn [String.append] in IH. rewrite IH by done.
    by rewrite <- app_assoc.
Qed.
(** A record of no fields is written as an empty line, which reads as one empty field. *)
Definition seen (fields : list string) : list string := match fields with [] => [""] | _ => fields end.
Lemma read_records records : read_csv (String.concat "" (map csv_record records)) = Some (map seen records).
Proof.
  unfold read_csv. assert (Hc : forall l, String.concat "" l = foldr (fun s t => s ^^ t) "" l).
  { induction l as [|x [|y l] IH]; [done|cbn; by rewrite append_nil_r|]. change (String.concat "" (x :: y :: l)) with (x ^^ ("" ^^ String.concat "" (y :: l))).
    by rewrite IH. }
  rewrite Hc. induction records as [|fields records IH]; [done|]. cbn [map foldr]. destruct fields as [|f fields].
  - cbn [csv_record map String.concat String.append read]. change (separator (Invoices.byte 10)) with true. cbv iota.
    change (Ascii.eqb (Invoices.byte 10) ",") with false. cbv iota. by rewrite IH.
  - rewrite read_record by done. by rewrite IH.
Qed.
End Csv.
(** *** Reading an audit export

    As a consumer of the file does it: the records are split by the rules of CSV, a field is
    found by the name of its column in the header, amounts are read as 64-bit integers, and the
    totals follow the first empty line under a header of their own. Times stay text. *)
Record audit_line := mkLine {
  al_StripeID : string; al_Number : string; al_Type : InvoiceEntryType; al_Status : string;
  al_CustomerID : string; al_CustomerEmail : string; al_CustomerVATID : string; al_CustomerCountry : string;
  al_Currency : string; al_AmountTotal : Z; al_AmountTax : Z; al_AmountPaid : Z; al_Created : string;
  al_Finalized : string; al_Paid : string; al_Voided : string; al_HostedInvoiceURL : string }.
Fixpoint column (name : string) (header row : list string) : option string :=
  match header, row with
  | h :: header', f :: row' => if String.eqb h name then Some f else column name header' row'
  | _, _ => None
  end.
Definition read_type (t : string) : option InvoiceEntryType :=
  if String.eqb t "invoice" then Some EntryTypeInvoice else if String.eqb t "credit_note" then Some EntryTypeCreditNote else None.
Definition read_line (header row : list string) : option audit_line :=
  let text name := column name header row in
  let amount name := text name ≫= parse_int64 in
  id ← text "stripe_id"; number ← text "number"; type ← text "type" ≫= read_type; status ← text "status";
  customer ← text "customer_id"; email ← text "customer_email"; vat ← text "customer_vat_id"; country ← text "customer_country";
  currency ← text "currency"; total ← amount "amount_total"; tax ← amount "amount_tax"; paid ← amount "amount_paid";
  created ← text "created"; finalized ← text "finalized"; paid_at ← text "paid"; voided ← text "voided"; url ← text "hosted_invoice_url";
  Some (mkLine id number type status customer email vat country currency total tax paid created finalized paid_at voided url).
Definition read_total (header row : list string) : option (string * (Z * Z * Z)) :=
  let amount name := column name header row ≫= parse_int64 in
  c ← column "#totals_currency" header row; total ← amount "amount_total"; tax ← amount "amount_tax"; paid ← amount "amount_paid";
  Some (c, (total, tax, paid)).
Fixpoint until_blank (rows : list (list string)) : list (list string) * list (list string) :=
  match rows with
  | [] => ([], [])
  | row :: rows' => if bool_decide (row = [""]) then ([], rows') else let '(l, r) := until_blank rows' in (row :: l, r)
  end.
Definition read_audit (text : string) : option (list audit_line * list (string * (Z * Z * Z))) :=
  match Csv.read_csv text with
  | Some (header :: rows) =>
      match until_blank rows with
      | (entries, totals_header :: totals) =>
          lines ← mapM (read_line header) entries; sums ← mapM (read_total totals_header) totals; Some (lines, sums)
      | _ => None
      end
  | _ => None
  end.

Definition line_of (e : AuditEntry) : audit_line :=
  mkLine (ae_StripeID e) (ae_Number e) (ae_Type e) (ae_Status e) (ae_CustomerID e) (ae_CustomerEmail e) (ae_CustomerVATID e)
    (ae_CustomerCountry e) (ae_Currency e) (ae_AmountTotal e) (ae_AmountTax e) (ae_AmountPaid e) (formatTime (Some (ae_Created e)))
    (formatTime (ae_Finalized e)) (formatTime (ae_Paid e)) (formatTime (ae_Voided e)) (ae_HostedInvoiceURL e).
(** The amounts are 64-bit integers, as in Go they are. *)
Definition amounts_ok (r : AuditReport) : Prop :=
  Forall (fun e => in_int64 (ae_AmountTotal e) /\ in_int64 (ae_AmountTax e) /\ in_int64 (ae_AmountPaid e)) (rp_Entries r) /\
  forall c, in_int64 (default 0 (rp_TotalsTotal r !! c)) /\ in_int64 (default 0 (rp_TotalsTax r !! c)) /\ in_int64 (default 0 (rp_TotalsPaid r !! c)).

Lemma read_type_of t : read_type (entry_type t) = Some t.
Proof. by destruct t. Qed.
Lemma read_line_of e :
  in_int64 (ae_AmountTotal e) -> in_int64 (ae_AmountTax e) -> in_int64 (ae_AmountPaid e) ->
  read_line audit_header (audit_row e) = Some (line_of e).
Proof.
  intros H1 H2 H3. unfold read_line, audit_header, audit_row. cbn -[parse_int64 fmt_d read_type formatTime].
  by rewrite read_type_of, !parse_fmt_d by done.
Qed.
Lemma mapM_map {A B C} (f : B -> option C) (g : A -> B) (h : A -> C) l :
  (forall a, a ∈ l -> f (g a) = Some (h a)) -> mapM f (map g l) = Some (map h l).
Proof.
  induction l as [|a l IH]; intros Hl; [done|]. cbn. rewrite Hl by (by left). cbn. rewrite IH by (intros x Hx; apply Hl; by right). done.
Qed.
Lemma until_blank_rows l rest : until_blank (map audit_row l ++ [""] :: rest) = (map audit_row l, rest).
Proof. induction l as [|e l IH]; [done|]. cbn [map app until_blank]. rewrite bool_decide_eq_false_2 by done. by rewrite IH. Qed.
Lemma currencies_keys `{GoRuntime} (m : gmap string Z) : sortedCurrencies m ≡ₚ (map_to_list m).*1.
Proof. unfold sortedCurrencies. rewrite sort_slice_perm. apply Permutation_map, map_range_perm. Qed.

(** C40: The CSV export of an audit report gives the report back to whoever reads it by the names
    of its columns: every entry with each of its fields, whatever they contain, its
    amounts as numbers and its times as RFC 3339, in order; and after them, once for each
    currency of the totals, the three sums. *)
Theorem audit_csv_reads_back `{GoRuntime} r :
  amounts_ok r ->
  exists sums, read_audit (encodeCSV r) = Some (map line_of (rp_Entries r), sums) /\
    sums.*1 ≡ₚ (map_to_list (rp_TotalsTotal r)).*1 /\
    forall c total tax paid, (c, (total, tax, paid)) ∈ sums ->
      rp_TotalsTotal r !! c = Some total /\ tax = default 0 (rp_TotalsTax r !! c) /\ paid = default 0 (rp_TotalsPaid r !! c).
Proof.
  intros [Hent Htot]. set (m := rp_TotalsTotal r) in *.
  set (sum c := (c, (default 0 (m !! c), default 0 (rp_TotalsTax r !! c), default 0 (rp_TotalsPaid r !! c)))).
  exists (map sum (sortedCurrencies m)). split_and!.
  - unfold read_audit, encodeCSV. rewrite Csv.read_records. unfold audit_records. cbn [app map Csv.seen].
    rewrite !map_app. cbn [map Csv.seen app].
    replace (map Csv.seen (map audit_row (rp_Entries r))) with (map audit_row (rp_Entries r)) by (by rewrite map_map).
    replace (map Csv.seen (map (totals_row r) (sortedCurrencies (rp_TotalsTotal r)))) with (map (totals_row r) (sortedCurrencies m)) by (by rewrite map_map).
    rewrite until_blank_rows. rewrite (mapM_map _ audit_row line_of); [|rewrite Forall_forall in Hent; intros e He; by apply read_line_of; apply Hent].
    cbn [mbind option_bind]. rewrite (mapM_map _ (totals_row r) sum); [done|]. intros c _. destruct (Htot c) as (H1 & H2 & H3).
    unfold read_total, totals_row. cbn -[parse_int64 fmt_d]. by rewrite !parse_fmt_d.
  - rewrite <- (currencies_keys m). by rewrite <- list_fmap_compose, list_fmap_id.
  - intros c total tax paid (c' & [= -> -> -> ->] & Hc)%elem_of_map. split_and!; try done.
    rewrite (currencies_keys m) in Hc. apply list_elem_of_fmap in Hc as ([k v] & -> & Hk%elem_of_map_to_list). cbn. by rewrite Hk.
Qed.

Fixpoint ascii_only (s : string) : bool := match s with "" => true | String c s => (Json.byte c <? 128)%N && ascii_only s end.
Lemma ascii_only_app a b : ascii_only (a ^^ b) = ascii_only a && ascii_only b.
Proof. induction a as [|c a IH]; [done|]. cbn. by rewrite IH, andb_assoc. Qed.
Lemma ascii_only_utf8 s : ascii_only s = true -> utf8_ok s.
Proof. unfold utf8_ok. induction s as [|c s IH]; [done|]. cbn. intros [-> Hs]%andb_true_iff. by rewrite IH. Qed.
Lemma ascii_only_fmt_0d w z : ascii_only (fmt_0d w z) = true.
Proof.
  assert (Hd : forall n, ascii_only (dec_digits n) = true).
  { intros n. destruct (dec_digits_nonnil n) as [-> _]. by induction (N.to_uint n). }
  assert (Hz : forall k s, ascii_only s = true -> ascii_only (zeros k ^^ s) = true) by (intros k s Hs; by induction k).
  unfold fmt_0d. destruct (z <? 0); rewrite ?append_assoc; cbn [String.append ascii_only]; by rewrite Hz.
Qed.
Lemma ascii_only_trim s : ascii_only s = true -> ascii_only (trim_zeros s) = true.
Proof.
  induction s as [|c s IH]; [done|]. cbn. intros [Hc Hs]%andb_true_iff. specialize (IH Hs).
  destruct (trim_zeros s) as [|c' t]; [destruct (Ascii.eqb c "0"); [done|cbn; by rewrite Hc]|]. cbn in *. by rewrite Hc.
Qed.
Lemma time_json_ok t j : time_json t = Some j -> json_ok j.
Proof.
  unfold time_json. destruct (civil _) as [[y m] d]. destruct (_ || _); [done|]. intros [= <-]. apply ascii_only_utf8.
  assert (Hf : ascii_only (fraction t) = true).
  { unfold fraction. destruct (_ =? 0); [done|]. rewrite ascii_only_app. by rewrite ascii_only_trim by apply ascii_only_fmt_0d. }
  assert (Hdt : ascii_only (date_time t) = true).
  { unfold date_time. destruct (civil _) as [[y' m'] d']. by rewrite !ascii_only_app, !ascii_only_fmt_0d. }
  by rewrite !ascii_only_app, Hf, Hdt.
Qed.
Lemma time_ptr_json_ok t j : time_ptr_json t = Some j -> json_ok j.
Proof. destruct t as [t|]; [apply time_json_ok|by intros [= <-]]. Qed.
(** The strings of an entry and the currencies are valid UTF-8. *)
Definition entry_text_ok (e : AuditEntry) : Prop :=
  Forall utf8_ok [ae_StripeID e; ae_Number e; ae_Status e; ae_CustomerID e; ae_CustomerEmail e; ae_CustomerVATID e; ae_CustomerCountry e;
    ae_Currency e; ae_HostedInvoiceURL e].
Definition report_text_ok (r : AuditReport) : Prop :=
  Forall entry_text_ok (rp_Entries r) /\
  forall m, m ∈ [rp_TotalsTotal r; rp_TotalsTax r; rp_TotalsPaid r] -> forall c, is_Some (m !! c) -> utf8_ok c.
Lemma entry_json_ok e j : entry_text_ok e -> entry_json e = Some j -> json_ok j.
Proof.
  unfold entry_text_ok, entry_json. rewrite !Forall_cons. intros Ht.
  destruct (time_json (ae_Created e)) as [c|] eqn:Ec; [|done]. destruct (time_ptr_json (ae_Finalized e)) as [f|] eqn:Ef; [|done].
  destruct (time_ptr_json (ae_Paid e)) as [p|] eqn:Ep; [|done]. destruct (time_ptr_json (ae_Voided e)) as [v|] eqn:Ev; [|done]. intros [= <-].
  apply time_json_ok in Ec. apply time_ptr_json_ok in Ef, Ep, Ev. cbn.
  destruct Ht as (? & ? & ? & ? & ? & ? & ? & ? & ? & _). split_and!; try done; eauto. by destruct (ae_Type e).
Qed.
Lemma totals_json_ok `{GoRuntime} m : (forall c, is_Some (m !! c) -> utf8_ok c) -> json_ok (totals_json m).
Proof.
  intros Hm. unfold totals_json. cbn. assert (Hall : Forall utf8_ok (sortedCurrencies m)).
  { apply Forall_forall. intros c Hc. apply Hm. unfold sortedCurrencies in Hc. rewrite sort_slice_perm, list_elem_of_fmap in Hc.
    destruct Hc as ([k v] & -> & Hin%map_range_elem). by eexists. }
  induction Hall as [|c l Hc _ IH]; cbn; [done|]. split_and!; eauto.
Qed.
Lemma report_json_ok `{GoRuntime} isNil r j : report_text_ok r -> report_json isNil r = Some j -> json_ok j.
Proof.
  intros [He Hm]. unfold report_json. destruct (time_json (pe_Start _)) as [a|] eqn:Ea; [|done]. destruct (time_json (pe_End _)) as [b|] eqn:Eb; [|done].
  cbn [mbind option_bind]. destruct (mapM entry_json (rp_Entries r)) as [l|] eqn:El; [|done]. cbn [mbind option_bind]. intros [= <-].
  apply time_json_ok in Ea, Eb. apply mapM_Some in El.
  assert (Hl : json_ok (JArr l)).
  { apply json_ok_arr. clear -He El. induction El as [|e j es l Hej _ IH]; [done|]. apply Forall_cons in He as [H1 H2].
    constructor; [by eapply entry_json_ok|by apply IH]. }
  cbn [json_ok foldr]. split_and!; try done; try (apply totals_json_ok; apply Hm; set_solver).
  destruct l; [by destruct isNil|done].
Qed.
(** The JSON of an audit report reads back as its tree; there is one unless a year has more
    than four digits. *)
Theorem audit_json_reads_back `{GoRuntime} isNil r text :
  report_text_ok r -> encodeJSON isNil r = Ok text -> exists j, report_json isNil r = Some j /\ parse text = Some j.
Proof.
  intros Ht. unfold encodeJSON. destruct (report_json isNil r) as [j|] eqn:E; [|done]. intros [= <-]. exists j. split; [done|].
  apply parse_MarshalIndent. by eapply report_json_ok.
Qed.
(** The text, with apostrophes for the quotes. *)
Fixpoint with_quotes (s : string) : string :=
  match s with "" => "" | String c s => String (if Ascii.eqb c "'" then dquote else c) (with_quotes s) end.
Example audit_json_text :
  encodeJSON (H := reference_runtime) true (mkReport (mkPeriod 0 (1500000000 * second + 250000000)) [] {["eur" := 700; "chf" := 5]} ∅ ∅) =
  Ok (with_quotes (String.concat (String "010" "")
    ["{"; "  'Period': {"; "    'Start': '1970-01-01T00:00:00Z',"; "    'End': '2017-07-14T02:40:00.25Z'"; "  },"; "  'Entries': null,";
     "  'TotalsTotal': {"; "    'chf': 5,"; "    'eur': 700"; "  },"; "  'TotalsTax': {},"; "  'TotalsPaid': {}"; "}"])).
Proof. vm_compute. done. Qed.
Lemma audit_json_reads_back_witness :
  exists j, report_json (H := reference_runtime) false (mkReport (mkPeriod 0 100) (map (fun e => e) InvoicesDemo.listed) {["eur" := 1000; "usd" := 50]} ∅ ∅) = Some j /\
    parse (MarshalIndent j) = Some j.
Proof.
  set (r := mkReport (mkPeriod 0 100) _ _ _ _).
  destruct (encodeJSON (H := reference_runtime) false r) as [text|] eqn:E; [|vm_compute in E; discriminate].
  destruct (audit_json_reads_back (H := reference_runtime) false r text) as (j & Hj & Hp); [|exact E|].
  - split; [repeat constructor|]. intros m Hm c [z Hc]. cbn in Hm.
    repeat (apply elem_of_cons in Hm as [->|Hm]); [| | |by apply not_elem_of_nil in Hm]; cbn in Hc; [|by rewrite lookup_empty in Hc..].
    rewrite lookup_insert_Some, lookup_singleton_Some in Hc. destruct Hc as [[<- _]|[_ [<- _]]]; reflexivity.
  - exists j. split; [exact Hj|]. unfold encodeJSON in E. rewrite Hj in E. injection E as <-. exact Hp.
Defined.
(** A report whose fields hold commas, quotes and line breaks. *)
Definition awkward : AuditReport :=
  mkReport (mkPeriod 0 100)
    [mkAuditEntry "in_1" "AT-000001" EntryTypeInvoice "paid" "cus_1" (String dquote ("Doe, Jane" ^^ String dquote "<j@x.y>")) ""
       (String "010" "AT") "eur" 1000 200 1000 (5 * second) None (Some (6 * second)) None "https://x"]
    {["eur" := 1000]} {["eur" := 200]} ∅.
Lemma audit_csv_reads_back_witness :
  exists sums, read_audit (encodeCSV (H := reference_runtime) awkward) = Some (map line_of (rp_Entries awkward), sums) /\
    map fst sums ≡ₚ ["eur"] /\ (forall total tax paid, ("eur", (total, tax, paid)) ∈ sums -> total = 1000 /\ tax = 200 /\ paid = 0).
Proof.
  destruct (audit_csv_reads_back (H := reference_runtime) awkward) as (sums & Hr & Hk & Hs).
  - split; [repeat constructor; vm_compute; discriminate|]. intros c. cbn [awkward rp_TotalsTotal rp_TotalsTax rp_TotalsPaid].
    destruct (decide (c = "eur")) as [->|Hc]; [repeat split; vm_compute; discriminate|].
    rewrite !lookup_singleton_ne, lookup_empty by done. repeat split; vm_compute; discriminate.
  - exists sums. split; [exact Hr|]. split; [exact Hk|]. intros total tax paid Hin. destruct (Hs _ _ _ _ Hin) as (Ht & -> & ->).
    vm_compute in Ht. injection Ht as <-. split_and!; reflexivity.
Defined.
