(* ===== verification/Metering.v ===== *)
(** * Metering: usage events, their totals and the push to Stripe
      (src/metering/types.go, repo.go, operations.go, backend.go, reconcile.go,
      src/repos/postgres/usage_repo.go, src/stripeapi/meter_backend.go).

    [UsageRepo] is the interface over a repository's state. A Go [time.Time] is its
    nanoseconds since 1970; where the code prints one with %v, what is printed (which
    depends on the location and on a monotonic reading) is carried along. The lookup of
    customers and the call of Stripe are parameters. *)
From S2P Require Import Prelude Postgres Json StripeApi.

(** ** Data (types.go, backend.go) *)
Record MeterEvent := mkMeterEvent {
  me_SubjectID : string; me_Metric : string; me_Quantity : Z; me_OccurredAt : Z;
  me_RequestID : string; me_Metadata : smap }.
Record UsagePeriod := mkUsagePeriod { up_Start : Z; up_End : Z; up_StartText : string }.
Record UsageAggregate := mkAggregate {
  ua_SubjectID : string; ua_Metric : string; ua_Total : Z; ua_Period : UsagePeriod }.
Record PushEvent := mkPush {
  pu_EventName : string; pu_StripeCustomer : string; pu_Value : Z; pu_Identifier : string; pu_TimestampUnix : Z }.

Class UsageRepo (S : Type) := {
  ur_RecordUsage : Z -> MeterEvent -> S -> option string * S;
  ur_AggregateByPeriod : string -> UsagePeriod -> S -> res string (list UsageAggregate);
  ur_QueryByPeriod : string -> string -> Z -> Z -> S -> res string Z;
  ur_PruneOlderThan : Z -> S -> res string Z * S;
}.

(** [!OccurredAt.Before(start) && OccurredAt.Before(end)]. *)
Definition in_window (start fin t : Z) : bool := negb (t <? start) && (t <? fin).
Definition set_occurred (t : Z) (e : MeterEvent) : MeterEvent :=
  mkMeterEvent (me_SubjectID e) (me_Metric e) (me_Quantity e) t (me_RequestID e) (me_Metadata e).
Definition with_time (now : Z) (e : MeterEvent) : MeterEvent :=
  if IsZero (me_OccurredAt e) then set_occurred now e else e.

(** ** In memory (repo.go) *)
Module MemUsage.
Record memoryUsage := mkUsage { rows : list MeterEvent; events : gmap string bool }.
Definition mu_NewMemoryRepo : memoryUsage := mkUsage [] ∅.
Definition usage_key (e : MeterEvent) : string := me_SubjectID e ^^ "|" ^^ me_Metric e ^^ "|" ^^ me_RequestID e.

Definition mu_RecordUsage (now : Z) (evt : MeterEvent) (r : memoryUsage) : option string * memoryUsage :=
  let key := usage_key evt in
  let hasReq := negb (String.eqb (me_RequestID evt) "") in
  if hasReq && default false (events r !! key) then (None, r)
  else (None, mkUsage (rows r ++ [with_time now evt]) (if hasReq then <[key := true]> (events r) else events r)).

Definition mu_totals (metric : string) (period : UsagePeriod) (l : list MeterEvent) : gmap string Z :=
  foldl (fun m e =>
    if negb (String.eqb (me_Metric e) metric) then m
    else if negb (in_window (up_Start period) (up_End period) (me_OccurredAt e)) then m
    else <[me_SubjectID e := add64 (default 0 (m !! me_SubjectID e)) (me_Quantity e)]> m) ∅ l.
Definition subject_less (a b : UsageAggregate) : bool := String.ltb (ua_SubjectID a) (ua_SubjectID b).
Definition mu_AggregateByPeriod `{GoRuntime} (metric : string) (period : UsagePeriod) (r : memoryUsage)
  : list UsageAggregate :=
  sort_slice subject_less
    (map (fun '(s, t) => mkAggregate s metric t period) (map_range (mu_totals metric period (rows r)))).
Definition mu_QueryByPeriod (subject metric : string) (start fin : Z) (r : memoryUsage) : Z :=
  foldl (fun total e =>
    if negb (String.eqb (me_SubjectID e) subject) || negb (String.eqb (me_Metric e) metric) then total
    else if negb (in_window start fin (me_OccurredAt e)) then total
    else add64 total (me_Quantity e)) 0 (rows r).
Definition mu_PruneOlderThan (before : Z) (r : memoryUsage) : Z * memoryUsage :=
  let kept := List.filter (fun e => negb (me_OccurredAt e <? before)) (rows r) in
  (Z.of_nat (List.length (rows r) - List.length kept), mkUsage kept (events r)).

#[export] Instance memory_UsageRepo `{GoRuntime} : UsageRepo memoryUsage := {
  ur_RecordUsage := mu_RecordUsage;
  ur_AggregateByPeriod metric period r := Ok (mu_AggregateByPeriod metric period r);
  ur_QueryByPeriod subject metric start fin r := Ok (mu_QueryByPeriod subject metric start fin r);
  ur_PruneOlderThan before r := let '(n, r') := mu_PruneOlderThan before r in (Ok n, r');
}.
End MemUsage.

(** ** Postgres (usage_repo.go): the table by its unique key *)
Module PgUsage.
Record UsageRow := mkUsageRow { uw_quantity : Z; uw_occurred_at : Z; uw_metadata : string }.
Abbreviation usage_table := (gmap (string * string * string) UsageRow).
(** A connection: the faults it will meet, the statements sent, the table. *)
Record UsageConn := mkUsageConn { uc_faults : faults; uc_sent : nat; uc_table : usage_table }.

Section postgres.
Context `{GoRuntime} `{PgTime}.

Definition on_usage {A} (p : sql usage_table A) (c : UsageConn) : res string A * UsageConn :=
  let '(r, (n, t)) := p (uc_faults c) (uc_sent c) (uc_table c) in (r, mkUsageConn (uc_faults c) n t).

(** [INSERT ... ON CONFLICT DO NOTHING], under [CHECK (quantity > 0)]. *)
Definition insert_usage (now : Z) (evt : MeterEvent) (t : usage_table) : res string unit * usage_table :=
  let key := (me_SubjectID evt, me_Metric evt, me_RequestID evt) in
  if me_Quantity evt <=? 0 then (Err "violates check constraint", t)
  else match t !! key with
       | Some _ => (Ok tt, t)
       | None => (Ok tt, <[key := mkUsageRow (me_Quantity evt) (pg_ts (me_OccurredAt (with_time now evt)))
                                    (render (enc_smap (map_range (me_Metadata evt))))]> t)
       end.
Definition pu_RecordUsage (now : Z) (evt : MeterEvent) : sql usage_table unit :=
  named "postgres.UsageRepo.RecordUsage" (stmt (insert_usage now evt)).

(** The rows a [WHERE] selects. *)
Definition usage_where (p : string * string * string -> UsageRow -> bool) (t : usage_table)
  : list (string * string * string * UsageRow) :=
  List.filter (fun '(k, row) => p k row) (map_to_list t).
Definition row_in (start fin : Z) (row : UsageRow) : bool :=
  negb (uw_occurred_at row <? pg_ts start) && (uw_occurred_at row <? pg_ts fin).
Fixpoint scan_groups (metric : string) (period : UsagePeriod) (sel : list (string * string * string * UsageRow))
    (subjects : list string) : res string (list UsageAggregate) :=
  match subjects with
  | [] => Ok []
  | s :: rest =>
      match scan_sum (map (fun '(_, row) => uw_quantity row)
                        (List.filter (fun '(k, _) => String.eqb (fst (fst k)) s) sel)) with
      | Err e => Err e
      | Ok total =>
          match scan_groups metric period sel rest with
          | Err e => Err e
          | Ok out => Ok (mkAggregate s metric total period :: out)
          end
      end
  end.
(** [GROUP BY subject_id ORDER BY subject_id]. *)
Definition pu_AggregateByPeriod (metric : string) (period : UsagePeriod) : sql usage_table (list UsageAggregate) :=
  (out <- named "postgres.UsageRepo.AggregateByPeriod" (query (fun t =>
     let sel := usage_where (fun k row => String.eqb (snd (fst k)) metric &&
                  row_in (up_Start period) (up_End period) row) t in
     Ok (scan_groups metric period sel
           (sort_slice String.ltb (remove_dups (map (fun '(k, _) => fst (fst k)) sel)))))) ;;
   match out with
   | Err e => sfail e
   | Ok aggs => sret aggs
   end)%sql.
Definition pu_QueryByPeriod (subject metric : string) (start fin : Z) : sql usage_table Z :=
  named "postgres.UsageRepo.QueryByPeriod" (query (fun t =>
    scan_sum (map (fun '(_, row) => uw_quantity row)
      (usage_where (fun k row => String.eqb (fst (fst k)) subject && String.eqb (snd (fst k)) metric &&
         row_in start fin row) t)))).
Definition pu_PruneOlderThan (before : Z) : sql usage_table Z :=
  named "postgres.UsageRepo.PruneOlderThan" (stmt (fun t =>
    let kept := filter (fun kr => negb (uw_occurred_at (snd kr) <? pg_ts before) = true) t in
    (Ok (Z.of_nat (size t - size kept)), kept))).

#[export] Instance postgres_UsageRepo : UsageRepo UsageConn := {
  ur_RecordUsage now evt c :=
    let '(r, c') := on_usage (pu_RecordUsage now evt) c in
    (match r with Ok _ => None | Err e => Some e end, c');
  ur_AggregateByPeriod metric period c := fst (on_usage (pu_AggregateByPeriod metric period) c);
  ur_QueryByPeriod subject metric start fin c := fst (on_usage (pu_QueryByPeriod subject metric start fin) c);
  ur_PruneOlderThan before c := on_usage (pu_PruneOlderThan before) c;
}.
End postgres.
End PgUsage.

(** ** Operations (operations.go) *)
Section operations.
Context {S : Type} `{UsageRepo S}.
Definition usage_Record (now : Z) (evt : MeterEvent) (s : S) : option string * S :=
  if String.eqb (me_SubjectID evt) "" then (Some "metering: MeterEvent.SubjectID is required", s)
  else if String.eqb (me_Metric evt) "" then (Some "metering: MeterEvent.Metric is required", s)
  else if me_Quantity evt <=? 0 then (Some "metering: MeterEvent.Quantity must be positive", s)
  else if String.eqb (me_RequestID evt) "" then (Some "metering: MeterEvent.RequestID is required (idempotency)", s)
  else ur_RecordUsage now evt s.
Definition usage_QueryByPeriod (subject metric : string) (start fin : Z) (s : S) : res string Z :=
  ur_QueryByPeriod subject metric start fin s.
Definition PruneOldEvents (before : Z) (s : S) : res string Z * S := ur_PruneOlderThan before s.

(** ** Reconciliation (reconcile.go) *)
Context {B : Type} (PushBatch : list PushEvent -> B -> option string * B)
  (customers_Get : string -> res string (option string)) `{Sha256}.

Record UsageReconcileStats := mkStats { rs_Aggregates : Z; rs_Pushed : Z }.
Definition reconcileIdentifier (namespace metric subject periodStart : string) : string :=
  hex_encode (sha256 (namespace ^^ "|" ^^ metric ^^ "|" ^^ subject ^^ "|" ^^ periodStart)).

Fixpoint resolve_events (namespace metric : string) (period : UsagePeriod) (aggs : list UsageAggregate)
  : res string (list PushEvent) :=
  match aggs with
  | [] => Ok []
  | a :: rest =>
      match customers_Get (ua_SubjectID a) with
      | Err e => Err e
      | Ok found =>
          match resolve_events namespace metric period rest with
          | Err e => Err e
          | Ok out =>
              match found with
              | None => Ok out
              | Some custID =>
                  Ok (mkPush (namespace ^^ "." ^^ metric) custID (ua_Total a)
                        (reconcileIdentifier namespace metric (ua_SubjectID a) (up_StartText period))
                        (Unix (up_End period)) :: out)
              end
          end
      end
  end.

Definition ReconcileToStripe (namespace metric : string) (period : UsagePeriod) (s : S) (b : B)
  : UsageReconcileStats * option string * B :=
  match ur_AggregateByPeriod metric period s with
  | Err e => (mkStats 0 0, Some ("metering: aggregate: " ^^ e), b)
  | Ok aggs =>
      let n := Z.of_nat (List.length aggs) in
      match resolve_events namespace metric period aggs with
      | Err e => (mkStats n 0, Some ("metering: customer resolve: " ^^ e), b)
      | Ok [] => (mkStats n 0, None, b)
      | Ok events =>
          match PushBatch events b with
          | (Some e, b') => (mkStats n 0, Some ("metering: push: " ^^ e), b')
          | (None, b') => (mkStats n (Z.of_nat (List.length events)), None, b')
          end
      end
  end.

Definition RecordDirect (namespace metric subj : string) (value : Z) (requestID : string) (b : B)
  : option string * B :=
  match customers_Get subj with
  | Err e => (Some ("metering: RecordDirect: customer resolve: " ^^ e), b)
  | Ok None => (Some "metering: RecordDirect: no Stripe Customer", b)
  | Ok (Some custID) =>
      let identifier := if String.eqb requestID "" then reconcileIdentifier namespace metric subj "{}" else requestID in
      PushBatch [mkPush (namespace ^^ "." ^^ metric) custID value identifier 0] b
  end.
End operations.

(** ** The Stripe side (stripeapi/meter_backend.go): one call per event *)
Record MeterParams := mkMeterParams {
  mp_EventName : string; mp_Identifier : string; mp_customer : string; mp_value : string;
  mp_Timestamp : option Z; mp_IdempotencyKey : string }.
Definition meter_params `{Sha256} (ctx : string) (e : PushEvent) : MeterParams :=
  mkMeterParams (pu_EventName e) (pu_Identifier e) (pu_StripeCustomer e) (fmt_d (pu_Value e))
    (if 0 <? pu_TimestampUnix e then Some (pu_TimestampUnix e) else None)
    (ApplyIdempotencyKey ctx "meter_event.push"
       [pu_EventName e; pu_Identifier e; pu_StripeCustomer e; fmt_d (pu_Value e); fmt_d (pu_TimestampUnix e)]).
Fixpoint mb_PushBatch `{Sha256} {B : Type} (Create : MeterParams -> B -> option string * B)
    (ctx : string) (events : list PushEvent) (b : B) : option string * B :=
  match events with
  | [] => (None, b)
  | e :: rest =>
      match Create (meter_params ctx e) b with
      | (Some err, b') =>
          (Some ("stripe.BillingMeterEvents.Create(" ^^ pu_EventName e ^^ ", " ^^ pu_StripeCustomer e ^^ "): " ^^ err), b')
      | (None, b') => mb_PushBatch Create ctx rest b'
      end
  end.
