(* ===== verification/MeteringFacts.v ===== *)
(** * MeteringFacts: usage is counted once, and billed once.

    [recorded] is the reference: the events that pass the checks, the first of each
    (subject, metric, request). *)
From S2P Require Import Prelude Postgres Json StripeApi Metering.
Import MemUsage PgUsage.

(** ** The reference *)
Definition event_key (e : MeterEvent) : string * string * string := (me_SubjectID e, me_Metric e, me_RequestID e).
Definition event_valid (e : MeterEvent) : bool :=
  negb (String.eqb (me_SubjectID e) "") && negb (String.eqb (me_Metric e) "") &&
  (0 <? me_Quantity e) && negb (String.eqb (me_RequestID e) "").
Definition known (e : MeterEvent) (l : list MeterEvent) : bool :=
  existsb (fun x => bool_decide (event_key x = event_key e)) l.
Definition record_step (l : list MeterEvent) (ne : Z * MeterEvent) : list MeterEvent :=
  let '(now, e) := ne in if event_valid e && negb (known e l) then l ++ [with_time now e] else l.
Definition recorded (cs : list (Z * MeterEvent)) : list MeterEvent := foldl record_step [] cs.
(** The quantities of a subject and metric in a window. *)
Definition counted (subject metric : string) (start fin : Z) (l : list MeterEvent) : list Z :=
  map me_Quantity (List.filter (fun e => String.eqb (me_SubjectID e) subject && String.eqb (me_Metric e) metric &&
    in_window start fin (me_OccurredAt e)) l).

Lemma with_time_key now e : event_key (with_time now e) = event_key e.
Proof. unfold with_time. by destruct (IsZero _). Qed.
Lemma with_time_quantity now e : me_Quantity (with_time now e) = me_Quantity e.
Proof. unfold with_time. by destruct (IsZero _). Qed.
Lemma known_spec e l : known e l = true <-> exists x, x ∈ l /\ event_key x = event_key e.
Proof.
  unfold known. rewrite existsb_exists. split.
  - intros (x & Hin & E%bool_decide_eq_true). rewrite <- list_elem_of_In in Hin. eauto.
  - intros (x & Hin & E). exists x. rewrite <- list_elem_of_In, bool_decide_eq_true. done.
Qed.
Lemma usage_Record_cases {S} `{UsageRepo S} now e (s : S) :
  usage_Record now e s = ur_RecordUsage now e s /\ event_valid e = true \/
  snd (usage_Record now e s) = s /\ event_valid e = false.
Proof.
  unfold usage_Record, event_valid. rewrite Z.leb_antisym.
  destruct (String.eqb _ ""); [by right|]. destruct (String.eqb _ ""); [by right|].
  destruct (0 <? me_Quantity e); [|by right]. destruct (String.eqb _ ""); [by right|by left].
Qed.
Lemma event_valid_request e : event_valid e = true -> String.eqb (me_RequestID e) "" = false /\ 0 < me_Quantity e.
Proof.
  unfold event_valid. rewrite !andb_true_iff, !negb_true_iff, Z.ltb_lt. tauto.
Qed.

Definition record_all {S} `{UsageRepo S} (cs : list (Z * MeterEvent)) (s : S) : S :=
  foldl (fun s '(now, e) => snd (usage_Record now e s)) s cs.

(** ** In memory *)
Section memory.
Context `{GoRuntime}.

Lemma mu_Query_counted subject metric start fin r :
  mu_QueryByPeriod subject metric start fin r = wrap64 (sumZ (counted subject metric start fin (rows r))).
Proof.
  unfold mu_QueryByPeriod, counted. rewrite <- sum64_wrap. unfold sum64. generalize 0. generalize (rows r).
  intros l. induction l as [|e l IH]; intros z; [done|]. cbn. rewrite IH. clear IH.
  by destruct (String.eqb (me_SubjectID e) subject), (String.eqb (me_Metric e) metric), (in_window _ _ _).
Qed.

(** Keys without the separator are told apart. *)
Definition clean_event (e : MeterEvent) : Prop :=
  string_has "|" (me_SubjectID e) = false /\ string_has "|" (me_Metric e) = false.
Lemma usage_key_inj e e' : clean_event e -> clean_event e' -> usage_key e = usage_key e' -> event_key e = event_key e'.
Proof.
  intros [H1 H2] [H1' H2'] E. unfold usage_key in E. rewrite !append_assoc in E.
  apply (sep_inj "|") in E as [E1 E]; [|done..]. apply (sep_inj "|") in E as [E2 E3]; [|done..].
  unfold event_key. congruence.
Qed.

Record mem_ok (r : memoryUsage) (l : list MeterEvent) : Prop := {
  mo_rows : rows r = l;
  mo_clean e : e ∈ l -> clean_event e;
  mo_keys k : default false (events r !! k) = true <-> exists e, e ∈ l /\ usage_key e = k;
}.
Lemma mem_ok_step r l now e : mem_ok r l -> clean_event e -> mem_ok (snd (usage_Record now e r)) (record_step l (now, e)).
Proof.
  intros [Hr Hcl Hk] He. cbn [record_step].
  destruct (usage_Record_cases now e r) as [[-> Hv]|[-> Hv]]; rewrite Hv; cbn [andb]; [|by split].
  destruct (event_valid_request e Hv) as [Hreq _]. cbn. unfold mu_RecordUsage. rewrite Hreq. cbn [negb andb].
  assert (Hkn : default false (events r !! usage_key e) = known e l).
  { apply eq_true_iff_eq. rewrite Hk, known_spec. split.
    - intros (x & Hx & E). exists x. split; [done|]. apply usage_key_inj; auto.
    - intros (x & Hx & E). exists x. split; [done|]. unfold event_key in E. injection E as E1 E2 E3. unfold usage_key. congruence. }
  rewrite Hkn. destruct (known e l) eqn:Ek; cbn [negb]; [by split|]. cbn.
  pose proof (with_time_key now e) as Ew. unfold event_key in Ew. injection Ew as E1 E2 E3.
  assert (Eu : usage_key (with_time now e) = usage_key e) by (unfold usage_key; congruence).
  split; cbn.
  - by rewrite Hr.
  - intros x [Hx|Hx]%elem_of_app; [auto|]. apply list_elem_of_singleton in Hx as ->. unfold clean_event. by rewrite E1, E2.
  - intros k. destruct (decide (k = usage_key e)) as [->|Hne].
    + rewrite lookup_insert_eq. split; [|done]. intros _. exists (with_time now e). split; [set_solver|done].
    + rewrite lookup_insert_ne by done. rewrite Hk. split; intros (x & Hx & E).
      * exists x. set_solver.
      * apply elem_of_app in Hx as [Hx|Hx]; [eauto|]. apply list_elem_of_singleton in Hx as ->. congruence.
Qed.
Lemma mem_ok_all cs r l :
  mem_ok r l -> Forall (fun ne => clean_event (snd ne)) cs -> mem_ok (record_all cs r) (foldl record_step l cs).
Proof.
  revert r l. induction cs as [|[now e] cs IH]; intros r l Hok Hcl; [done|]. apply Forall_cons in Hcl as [He Hcl].
  cbn. apply IH; [|done]. by apply mem_ok_step.
Qed.
Lemma mem_ok_empty : mem_ok mu_NewMemoryRepo [].
Proof.
  split; [done|..].
  - by intros e ?%not_elem_of_nil.
  - intros k. cbn. rewrite lookup_empty. split; [done|]. by intros (e & ?%not_elem_of_nil & _).
Qed.

(** *** Aggregates *)
Definition in_group (metric : string) (period : UsagePeriod) (e : MeterEvent) : bool :=
  String.eqb (me_Metric e) metric && in_window (up_Start period) (up_End period) (me_OccurredAt e).
Lemma mu_totals_app metric period l e :
  mu_totals metric period (l ++ [e]) =
  if in_group metric period e
  then <[me_SubjectID e := add64 (default 0 (mu_totals metric period l !! me_SubjectID e)) (me_Quantity e)]>
         (mu_totals metric period l)
  else mu_totals metric period l.
Proof.
  unfold mu_totals, in_group. rewrite foldl_app. cbn.
  by destruct (String.eqb _ metric), (in_window _ _ _).
Qed.
Lemma counted_app subject metric start fin l1 l2 :
  counted subject metric start fin (l1 ++ l2) = counted subject metric start fin l1 ++ counted subject metric start fin l2.
Proof. unfold counted. by rewrite List.filter_app, map_app. Qed.
Lemma counted_one subject metric period e :
  counted subject metric (up_Start period) (up_End period) [e] =
  if String.eqb (me_SubjectID e) subject && in_group metric period e then [me_Quantity e] else [].
Proof. unfold counted, in_group. cbn. rewrite andb_assoc. by destruct (_ && _). Qed.
Lemma mu_totals_spec metric period l subject :
  mu_totals metric period l !! subject =
  if existsb (fun e => String.eqb (me_SubjectID e) subject && in_group metric period e) l
  then Some (wrap64 (sumZ (counted subject metric (up_Start period) (up_End period) l))) else None.
Proof.
  induction l as [|e l IH] using rev_ind; [done|].
  rewrite mu_totals_app, existsb_app, counted_app, counted_one. cbn [existsb].
  destruct (in_group metric period e); [|rewrite andb_false_r, app_nil_r, !orb_false_r; exact IH].
  rewrite andb_true_r, orb_false_r. destruct (String.eqb_spec (me_SubjectID e) subject) as [->|Hne].
  - rewrite orb_true_r, lookup_insert_eq, IH, sumZ_app. cbn. rewrite Z.add_0_r. f_equal.
    destruct (existsb _ l) eqn:Ex; cbn; [by rewrite <- wrap64_add_l|].
    assert (counted subject metric (up_Start period) (up_End period) l = []) as ->; [|done].
    clear IH. unfold counted. induction l as [|x l IH]; [done|]. cbn in *. apply orb_false_iff in Ex as [E1 E2].
    unfold in_group in E1. rewrite andb_assoc in E1. rewrite E1. auto.
  - rewrite orb_false_r, app_nil_r, lookup_insert_ne by done. exact IH.
Qed.
#[local] Instance subject_less_order : StrictWeak subject_less.
Proof. split; intros *; unfold subject_less; [apply (less_asym (less := String.ltb))|apply (less_negtrans (less := String.ltb))]. Qed.
Lemma aggregate_elem metric period r a :
  a ∈ mu_AggregateByPeriod metric period r <->
  mu_totals metric period (rows r) !! ua_SubjectID a = Some (ua_Total a) /\ ua_Metric a = metric /\ ua_Period a = period.
Proof.
  unfold mu_AggregateByPeriod. rewrite sort_slice_perm, list_elem_of_fmap. split.
  - intros ([s t] & -> & Hin). rewrite map_range_elem in Hin. done.
  - intros (Hin & <- & <-). exists (ua_SubjectID a, ua_Total a). rewrite map_range_elem. by destruct a.
Qed.

Lemma aggregate_subjects metric period r : NoDup (map ua_SubjectID (mu_AggregateByPeriod metric period r)).
Proof.
  unfold mu_AggregateByPeriod. rewrite sort_slice_perm, map_map.
  erewrite map_ext; [apply map_range_keys|]. by intros [s t].
Qed.
Lemma aggregate_total metric period r a :
  a ∈ mu_AggregateByPeriod metric period r ->
  ua_Total a = mu_QueryByPeriod (ua_SubjectID a) metric (up_Start period) (up_End period) r.
Proof.
  intros (Ha & _)%aggregate_elem. rewrite mu_totals_spec in Ha. rewrite mu_Query_counted.
  destruct (existsb _ _); [|done]. by injection Ha.
Qed.

(** C36: Aggregation and the per-subject query agree, whatever the order in which the
    totals map is visited: [AggregateByPeriod] lists, in order and once each, exactly the
    subjects with an event of the metric in the window, and the total of each is what
    [QueryByPeriod] answers for it. *)
Theorem aggregate_agrees metric period r :
  let aggs := mu_AggregateByPeriod metric period r in
  sorted_by subject_less aggs /\ NoDup (map ua_SubjectID aggs) /\
  (forall a, a ∈ aggs -> ua_Total a = mu_QueryByPeriod (ua_SubjectID a) metric (up_Start period) (up_End period) r) /\
  (forall subject, subject ∈ map ua_SubjectID aggs <->
     exists e, e ∈ rows r /\ me_SubjectID e = subject /\ in_group metric period e = true).
Proof.
  cbn zeta. split_and!.
  - apply sort_slice_sorted, _.
  - apply aggregate_subjects.
  - apply aggregate_total.
  - intros subject. transitivity (is_Some (mu_totals metric period (rows r) !! subject)).
    + rewrite list_elem_of_fmap. split.
      * intros (a & -> & (Ha & _)%aggregate_elem). eauto.
      * intros [t Ht]. exists (mkAggregate subject metric t period). by rewrite aggregate_elem.
    + rewrite mu_totals_spec. destruct (existsb _ _) eqn:E.
      * split; [|eauto]. intros _. apply existsb_exists in E as (e & Hin & [Es Eg]%andb_true_iff).
        exists e. by rewrite list_elem_of_In, <- String.eqb_eq.
      * split; [by intros [? ?]|]. intros (e & Hin & <- & Eg).
        assert (existsb (fun x => String.eqb (me_SubjectID x) (me_SubjectID e) && in_group metric period x) (rows r) = true) as Ex;
          [|by rewrite Ex in E]. apply existsb_exists. exists e. by rewrite <- list_elem_of_In, String.eqb_refl.
Qed.
End memory.

(** *** What the reference holds *)
Lemma foldl_known l cs e : known e l = true -> known e (foldl record_step l cs) = true.
Proof.
  revert l. induction cs as [|[now x] cs IH]; intros l Hk; [done|]. cbn. apply IH.
  destruct (_ && _); [|done]. unfold known in *. by rewrite existsb_app, Hk.
Qed.
Lemma recorded_has cs now e : (now, e) ∈ cs -> event_valid e = true -> known e (recorded cs) = true.
Proof.
  unfold recorded. generalize (@nil MeterEvent). induction cs as [|[n x] cs IH]; intros l Hin Hv; [by apply not_elem_of_nil in Hin|].
  apply elem_of_cons in Hin as [[= <- <-]|Hin]; [|by apply IH]. cbn. apply foldl_known. rewrite Hv. cbn.
  destruct (known e l) eqn:Ek; [done|]. cbn. apply known_spec. exists (with_time now e). split; [set_solver|apply with_time_key].
Qed.
Lemma recorded_from cs l x :
  x ∈ foldl record_step l cs -> x ∈ l \/ exists now e, (now, e) ∈ cs /\ event_valid e = true /\ x = with_time now e.
Proof.
  revert l. induction cs as [|[now e] cs IH]; intros l Hin; [by left|]. cbn in Hin.
  destruct (IH _ Hin) as [Hx|(n & y & Hy & Hv & ->)]; [|right; set_solver].
  destruct (event_valid e) eqn:Hv; [|by left]. destruct (known e l); [by left|]. cbn in Hx.
  apply elem_of_app in Hx as [Hx|Hx%list_elem_of_singleton]; [by left|]. right. exists now, e. set_solver.
Qed.
Lemma recorded_keys cs l : NoDup (map event_key l) -> NoDup (map event_key (foldl record_step l cs)).
Proof.
  revert l. induction cs as [|[now e] cs IH]; intros l Hnd; [done|]. cbn. apply IH.
  destruct (event_valid e && negb (known e l)) eqn:E; [|done]. apply andb_true_iff in E as [_ Hk%negb_true_iff].
  rewrite map_app. apply NoDup_app. split_and!; [done| |apply NoDup_singleton].
  cbn. intros k Hk' ->%list_elem_of_singleton. rewrite with_time_key in Hk'.
  apply list_elem_of_fmap in Hk' as (x & Ex & Hx). assert (known e l = true) as E; [|congruence].
  apply known_spec. eauto.
Qed.

(** In memory every event is counted once: after any sequence of [Record] calls, a
    query answers the sum (in 64 bits) of the quantities of the events that passed the
    checks, each (subject, metric, request) taken the first time only. *)
Theorem usage_counted_once `{GoRuntime} cs subject metric start fin :
  Forall (fun ne => clean_event (snd ne)) cs ->
  usage_QueryByPeriod subject metric start fin (record_all cs mu_NewMemoryRepo) =
    Ok (wrap64 (sumZ (counted subject metric start fin (recorded cs)))) /\
  NoDup (map event_key (recorded cs)).
Proof.
  intros Hcl. split; [|apply recorded_keys, NoDup_nil_2]. cbn. rewrite mu_Query_counted. do 3 f_equal.
  f_equal. apply (mo_rows _ _ (mem_ok_all cs _ _ mem_ok_empty Hcl)).
Qed.

(** ** In Postgres, with faults and retries *)
Section postgres.
Context `{GoRuntime} `{PgTime}.

(** The calls and what each returned. *)
Fixpoint outcomes (cs : list (Z * MeterEvent)) (c : UsageConn) : list (MeterEvent * option string) :=
  match cs with
  | [] => []
  | (now, e) :: rest => (e, fst (usage_Record now e c)) :: outcomes rest (snd (usage_Record now e c))
  end.
Definition usage_row (e : MeterEvent) : UsageRow :=
  mkUsageRow (me_Quantity e) (pg_ts (me_OccurredAt e)) (render (enc_smap (map_range (me_Metadata e)))).
Lemma usage_row_time now e :
  usage_row (with_time now e) = mkUsageRow (me_Quantity e) (pg_ts (me_OccurredAt (with_time now e)))
                                  (render (enc_smap (map_range (me_Metadata e)))).
Proof. unfold usage_row, with_time. by destruct (IsZero _). Qed.

Lemma pg_record_cases now e (c : UsageConn) :
  event_valid e = true ->
  uc_faults (snd (usage_Record now e c)) = uc_faults c /\
  (uc_table (snd (usage_Record now e c)) = uc_table c /\
     (fst (usage_Record now e c) = None -> is_Some (uc_table c !! event_key e)) \/
   uc_table c !! event_key e = None /\
   uc_table (snd (usage_Record now e c)) = <[event_key e := usage_row (with_time now e)]> (uc_table c)).
Proof.
  intros Hv. destruct (usage_Record_cases now e c) as [[-> _]|[_ Hv']]; [|congruence].
  destruct (event_valid_request e Hv) as [_ Hq]. destruct c as [fs n t]. cbn.
  unfold on_usage, pu_RecordUsage, named, stmt, insert_usage. cbn. rewrite <- usage_row_time, (proj2 (Z.leb_gt _ _) Hq).
  fold (event_key e). destruct (fs n) as [[er ap]|]; cbn; destruct (t !! event_key e) as [row|] eqn:Et; cbn;
    (split; [done|]); try destruct ap; cbn; first [by right|left; split; [done|by eauto]].
Qed.
Lemma pg_record_invalid now e (c : UsageConn) : event_valid e = false -> snd (usage_Record now e c) = c.
Proof. intros Hv. destruct (usage_Record_cases now e c) as [[_ Hv']|[-> _]]; [congruence|done]. Qed.

(** Every row comes from a call; every acknowledged event has a row. *)
Record pg_ok (t : usage_table) (cs : list (Z * MeterEvent)) (out : list (MeterEvent * option string)) : Prop := {
  po_from k row : t !! k = Some row ->
    exists now e, (now, e) ∈ cs /\ event_valid e = true /\ event_key e = k /\ row = usage_row (with_time now e);
  po_acked e : (e, None) ∈ out -> event_valid e = true -> is_Some (t !! event_key e);
}.
Lemma pg_ok_all cs c cs0 out0 :
  pg_ok (uc_table c) cs0 out0 -> pg_ok (uc_table (record_all cs c)) (cs0 ++ cs) (out0 ++ outcomes cs c).
Proof.
  revert c cs0 out0. induction cs as [|[now e] cs IH]; intros c cs0 out0 Hok; cbn [outcomes record_all foldl]; [by rewrite !app_nil_r|].
  rewrite (cons_middle _ cs0), (cons_middle _ out0), !app_assoc. apply IH. clear IH. destruct Hok as [Hf Ha].
  destruct (event_valid e) eqn:Hv.
  - destruct (pg_record_cases now e c Hv) as (_ & [[-> Hack]|[Hnone ->]]).
    + split; [intros k row (n & x & ? & ?)%Hf; exists n, x; set_solver|].
      intros x [Hx|Hx%list_elem_of_singleton]%elem_of_app Hvx; [eauto|]. injection Hx as -> Hx. eauto.
    + split.
      * intros k row [[<- <-]|[Hne (n & x & ? & ?)%Hf]]%lookup_insert_Some; [exists now, e|exists n, x]; set_solver.
      * intros x Hx Hvx. destruct (decide (event_key x = event_key e)) as [->|Hne]; [rewrite lookup_insert_eq; eauto|].
        rewrite lookup_insert_ne by done. apply elem_of_app in Hx as [Hx|Hx%list_elem_of_singleton]; [eauto|]. congruence.
  - rewrite pg_record_invalid by done. split; [intros k row (n & x & ? & ?)%Hf; exists n, x; set_solver|].
    intros x [Hx|Hx%list_elem_of_singleton]%elem_of_app Hvx; [eauto|]. congruence.
Qed.

(** Retries repeat their event, times are whole microseconds, and each event was
    acknowledged by at least one call. *)
Record retried (cs : list (Z * MeterEvent)) (c : UsageConn) : Prop := {
  rt_same now e now' e' : (now, e) ∈ cs -> (now', e') ∈ cs -> event_key e = event_key e' -> with_time now e = with_time now' e';
  rt_micro now e : (now, e) ∈ cs -> me_OccurredAt (with_time now e) mod 1000 = 0;
  rt_acked now e : (now, e) ∈ cs -> event_valid e = true -> exists e', (e', None) ∈ outcomes cs c /\ event_valid e' = true /\ event_key e' = event_key e;
}.
Lemma pg_table_recorded cs c :
  uc_table c = ∅ -> retried cs c ->
  uc_table (record_all cs c) = list_to_map (map (fun e => (event_key e, usage_row e)) (recorded cs)).
Proof.
  intros Hemp Hrt. assert (pg_ok (uc_table (record_all cs c)) cs (outcomes cs c)) as [Hf Ha].
  { apply (pg_ok_all cs c [] []). rewrite Hemp. split; [by intros ? ?|]. by intros e ?%not_elem_of_nil. }
  assert (Hnd : NoDup (map event_key (recorded cs))) by apply recorded_keys, NoDup_nil_2.
  assert (Hnd' : NoDup (map (fun e => (event_key e, usage_row e)) (recorded cs)).*1).
  { change (NoDup (map fst (map (fun e => (event_key e, usage_row e)) (recorded cs)))). rewrite map_map. exact Hnd. }
  apply map_eq. intros k. apply option_eq. intros row. rewrite <- elem_of_list_to_map by done. rewrite list_elem_of_fmap. split.
  - intros (now & e & Hin & Hv & <- & ->)%Hf. pose proof (recorded_has cs now e Hin Hv) as (x & Hx & Ex)%known_spec.
    exists x. split; [|done]. destruct (recorded_from cs [] x Hx) as [?%not_elem_of_nil|(n & y & Hy & _ & ->)]; [done|].
    rewrite with_time_key in Ex. by rewrite with_time_key, Ex, (rt_same _ _ Hrt _ _ _ _ Hy Hin Ex).
  - intros (x & [= -> ->] & Hx). destruct (recorded_from cs [] x Hx) as [?%not_elem_of_nil|(n & y & Hy & Hv & ->)]; [done|].
    destruct (rt_acked _ _ Hrt n y Hy Hv) as (y' & Hy' & Hv' & Ek). destruct (Ha y' Hy' Hv') as [row Hrow].
    rewrite with_time_key, <- Ek, Hrow. f_equal. apply Hf in Hrow as (now & e & Hin & _ & Ee & ->).
    rewrite Ek in Ee. by rewrite (rt_same _ _ Hrt _ _ _ _ Hin Hy Ee).
Qed.
Lemma table_counted subject metric start fin l :
  NoDup (map event_key l) -> start mod 1000 = 0 -> fin mod 1000 = 0 ->
  Forall (fun e => me_OccurredAt e mod 1000 = 0) l ->
  map (fun '(_, row) => uw_quantity row)
    (usage_where (fun k row => String.eqb (fst (fst k)) subject && String.eqb (snd (fst k)) metric && row_in start fin row)
       (list_to_map (map (fun e => (event_key e, usage_row e)) l))) ≡ₚ counted subject metric start fin l.
Proof.
  intros Hnd Hs Hfin Hl. unfold usage_where. rewrite map_to_list_to_map.
  2:{ change (NoDup (map fst (map (fun e => (event_key e, usage_row e)) l))). by rewrite map_map. }
  clear Hnd. unfold counted. induction Hl as [|e l He Hl IH]; [done|]. cbn -[row_in in_window].
  assert (row_in start fin (usage_row e) = in_window start fin (me_OccurredAt e)) as ->.
  { unfold row_in, in_window. cbn. by rewrite !pg_ts_micro. }
  destruct (_ && _); [cbn; by rewrite IH|exact IH].
Qed.
Lemma record_all_faults cs (c : UsageConn) : uc_faults (record_all cs c) = uc_faults c.
Proof.
  revert c. induction cs as [|[now e] cs IH]; intros c; [done|]. cbn. change (uc_faults (record_all cs (snd (usage_Record now e c))) = uc_faults c).
  rewrite IH. destruct (event_valid e) eqn:Hv; [apply (pg_record_cases now e c Hv)|by rewrite pg_record_invalid].
Qed.

(** Usage in Postgres is counted exactly once under faults. Calls may fail, with or without
    having taken effect, and be retried; once every event has been acknowledged, a
    query that reaches the server answers the sum over the distinct events: nothing
    acknowledged is lost and no retry counts twice. *)
Theorem retries_count_once cs c subject metric start fin :
  uc_table c = ∅ -> retried cs c -> start mod 1000 = 0 -> fin mod 1000 = 0 ->
  uc_faults c (uc_sent (record_all cs c)) = None ->
  in_int64 (sumZ (counted subject metric start fin (recorded cs))) ->
  usage_QueryByPeriod subject metric start fin (record_all cs c) =
    Ok (sumZ (counted subject metric start fin (recorded cs))).
Proof.
  intros Hemp Hrt Hs Hfin Hno Hr.
  assert (Hmicro : Forall (fun e => me_OccurredAt e mod 1000 = 0) (recorded cs)).
  { apply Forall_forall. intros e He. destruct (recorded_from cs [] e He) as [?%not_elem_of_nil|(n & y & Hy & _ & ->)]; [done|].
    exact (rt_micro _ _ Hrt n y Hy). }
  pose proof (pg_table_recorded cs c Hemp Hrt) as Ht.
  cbn. unfold on_usage, pu_QueryByPeriod, named, query, stmt. rewrite record_all_faults, Hno, Ht. unfold scan_sum.
  rewrite (sumZ_perm _ _ (table_counted subject metric start fin (recorded cs) (recorded_keys cs [] (NoDup_nil_2)) Hs Hfin Hmicro)).
  destruct Hr as [Hlo Hhi]. by rewrite (proj2 (Z.leb_le _ _) Hlo), (proj2 (Z.leb_le _ _) Hhi).
Qed.
End postgres.

(** ** Billing *)

(** What Stripe documents of meter events: an identifier that was counted is not counted
    again for 24 hours; a new one is counted, or the call fails. A call that fails may have
    been counted. [billed] are the events counted, each with the time of Stripe's clock
    at which it was. *)
Class MeterServer {B : Type} (Create : MeterParams -> B -> option string * B) := {
  billed : B -> list (Z * MeterParams);
  clock : B -> Z;
  clock_create p b : clock b <= clock (snd (Create p b));
  billed_again p b t q : (t, q) ∈ billed b -> mp_Identifier q = mp_Identifier p -> clock (snd (Create p b)) < t + day ->
    billed (snd (Create p b)) = billed b;
  billed_new p b : mp_Identifier p ∉ map (fun e => mp_Identifier e.2) (billed b) ->
    (exists t, clock b <= t /\ billed (snd (Create p b)) = billed b ++ [(t, p)]) \/
    billed (snd (Create p b)) = billed b /\ fst (Create p b) <> None;
}.
Definition metered `{MeterServer B Create} (b : B) : list MeterParams := map snd (billed b).

Lemma append_inj_r a b p : a ^^ p = b ^^ p -> a = b.
Proof. intros E. by apply append_inj_len_r in E as [-> _]. Qed.

Section billing.
Context `{GoRuntime} `{Sha256} {B : Type} (Create : MeterParams -> B -> option string * B) `{!MeterServer Create}.
Context (customers_Get : string -> res string (option string)) (ctx namespace metric : string) (period : UsagePeriod).

(** The events that have been counted since [b0], all of them among [want]. *)
Record pushed (want : list MeterParams) (b0 b : B) (sub : list (Z * MeterParams)) : Prop := {
  pd_billed : billed b = billed b0 ++ sub;
  pd_from t p : (t, p) ∈ sub -> p ∈ want /\ clock b0 <= t;
  pd_nodup : NoDup (map (fun e => mp_Identifier e.2) sub);
  pd_clock : clock b0 <= clock b;
}.
Lemma push_once want b0 b sub p :
  pushed want b0 b sub -> p ∈ want -> mp_Identifier p ∉ map (fun e => mp_Identifier e.2) (billed b0) ->
  clock (snd (Create p b)) < clock b0 + day ->
  exists sub', pushed want b0 (snd (Create p b)) sub' /\ (forall q, q ∈ sub -> q ∈ sub') /\
    (fst (Create p b) = None -> mp_Identifier p ∈ map (fun e => mp_Identifier e.2) sub').
Proof.
  intros [Hb Hf Hnd Hcl] Hp Hnew Hday. pose proof (clock_create p b) as Hmono.
  destruct (decide (mp_Identifier p ∈ map (fun e => mp_Identifier e.2) sub)) as [Hin|Hin].
  - exists sub. split_and!; [|done|done]. split; [|done|done|lia]. pose proof Hin as ([t q] & E & Hq)%elem_of_map. cbn in E.
    rewrite (billed_again p b t q); [done| |done|]; [rewrite Hb; set_solver|]. destruct (Hf t q Hq). lia.
  - assert (mp_Identifier p ∉ map (fun e => mp_Identifier e.2) (billed b)) as Hn by (rewrite Hb, map_app; set_solver).
    destruct (billed_new p b Hn) as [(t & Ht & E)|[E Hfail]].
    + exists (sub ++ [(t, p)]). split_and!; [split|set_solver|].
      * by rewrite E, Hb, app_assoc.
      * intros t' q [Hq|[= -> ->]%list_elem_of_singleton]%elem_of_app; [auto|]. split; [done|lia].
      * rewrite map_app. apply NoDup_app. split_and!; [done| |apply NoDup_singleton].
        intros i Hi [= ->]%list_elem_of_singleton. done.
      * lia.
      * intros _. rewrite map_app. apply elem_of_app. right. by left.
    + exists sub. split_and!; [|done|done]. split; [by rewrite E|done|done|lia].
Qed.
Lemma batch_clock evs b : clock b <= clock (snd (mb_PushBatch Create ctx evs b)).
Proof.
  revert b. induction evs as [|e evs IH]; intros b; cbn; [done|]. pose proof (clock_create (meter_params ctx e) b) as Hc.
  destruct (Create (meter_params ctx e) b) as [[err|] b1]; cbn in *; [done|]. specialize (IH b1). lia.
Qed.
Lemma push_batch want b0 b sub evs :
  pushed want b0 b sub ->
  (forall e, e ∈ evs -> meter_params ctx e ∈ want /\ pu_Identifier e ∉ map (fun e => mp_Identifier e.2) (billed b0)) ->
  clock (snd (mb_PushBatch Create ctx evs b)) < clock b0 + day ->
  exists sub', pushed want b0 (snd (mb_PushBatch Create ctx evs b)) sub' /\ (forall q, q ∈ sub -> q ∈ sub') /\
    (fst (mb_PushBatch Create ctx evs b) = None -> forall e, e ∈ evs -> pu_Identifier e ∈ map (fun e => mp_Identifier e.2) sub').
Proof.
  revert b sub. induction evs as [|e evs IH]; intros b sub Hp Hevs; cbn; intros Hday.
  - exists sub. split_and!; [done..|]. by intros _ e ?%not_elem_of_nil.
  - destruct (Hevs e) as [Hw Hn]; [set_solver|].
    pose proof (push_once want b0 b sub (meter_params ctx e) Hp Hw Hn) as Hone.
    pose proof (fun b => batch_clock evs b) as Hc.
    destruct (Create (meter_params ctx e) b) as [[err|] b1]; cbn in *; [destruct (Hone Hday) as (sub1 & Hp1 & Hsub1 & _); by exists sub1|].
    destruct Hone as (sub1 & Hp1 & Hsub1 & Hok1); [specialize (Hc b1); lia|].
    destruct (IH b1 sub1 Hp1) as (sub2 & Hp2 & Hsub2 & Hok2); [set_solver|done|].
    exists sub2. split_and!; [done|auto|]. intros E x [->|Hx]%elem_of_cons; [|auto].
    specialize (Hok1 eq_refl). apply elem_of_map in Hok1 as (q & Eq & Hq). apply elem_of_map. exists q. auto.
Qed.

(** The bill of a subject: what the query answers for it, if it has a customer. *)
Definition bill (r : memoryUsage) (subject : string) : option PushEvent :=
  match customers_Get subject with
  | Ok (Some cust) =>
      Some (mkPush (namespace ^^ "." ^^ metric) cust (mu_QueryByPeriod subject metric (up_Start period) (up_End period) r)
              (reconcileIdentifier namespace metric subject (up_StartText period)) (Unix (up_End period)))
  | _ => None
  end.
Definition bills (r : memoryUsage) : list PushEvent :=
  omap (bill r) (map ua_SubjectID (mu_AggregateByPeriod metric period r)).
Definition customers_answer (r : memoryUsage) : Prop :=
  forall a, a ∈ mu_AggregateByPeriod metric period r -> exists found, customers_Get (ua_SubjectID a) = Ok found.
(** SHA-256 tells the identifiers of the window apart. *)
Definition no_collision (r : memoryUsage) : Prop :=
  let text subject := namespace ^^ "|" ^^ metric ^^ "|" ^^ subject ^^ "|" ^^ up_StartText period in
  forall a a', a ∈ mu_AggregateByPeriod metric period r -> a' ∈ mu_AggregateByPeriod metric period r ->
    sha256 (text (ua_SubjectID a)) = sha256 (text (ua_SubjectID a')) -> text (ua_SubjectID a) = text (ua_SubjectID a').

Lemma resolve_bills r :
  customers_answer r ->
  resolve_events customers_Get namespace metric period (mu_AggregateByPeriod metric period r) = Ok (bills r).
Proof.
  unfold customers_answer, bills. intros Hans. pose proof (aggregate_total metric period r) as Htot. revert Hans Htot.
  induction (mu_AggregateByPeriod metric period r) as [|a l IH]; intros Hans Htot; [done|]. cbn.
  destruct (Hans a) as [found Hf]; [set_solver|]. rewrite Hf, IH by set_solver.
  assert (Eb : bill r (ua_SubjectID a) = match found with None => None | Some cust => Some (mkPush (namespace ^^ "." ^^ metric) cust
    (ua_Total a) (reconcileIdentifier namespace metric (ua_SubjectID a) (up_StartText period)) (Unix (up_End period))) end).
  { unfold bill. rewrite Hf, Htot by set_solver. by destruct found. }
  rewrite Eb. by destruct found.
Qed.
Lemma bills_identifiers r : no_collision r -> NoDup (map pu_Identifier (bills r)).
Proof.
  unfold no_collision, bills. intros Hnc. pose proof (aggregate_subjects metric period r) as Hnd. revert Hnc Hnd.
  induction (mu_AggregateByPeriod metric period r) as [|a l IH]; intros Hnc Hnd; [constructor|].
  apply NoDup_cons in Hnd as [Hna Hnd]. cbn. assert (NoDup (map pu_Identifier (omap (bill r) (map ua_SubjectID l)))) as IHl.
  { apply IH; [|done]. intros x y Hx Hy. apply Hnc; set_solver. }
  unfold bill at 1. destruct (customers_Get (ua_SubjectID a)) as [[cust|]|] eqn:Hc; cbn; [|done..]. constructor; [|done].
  intros (e & Ee & He)%list_elem_of_fmap. apply list_elem_of_omap in He as (s & Hs & Eb).
  apply list_elem_of_fmap in Hs as (a' & -> & Ha'). unfold bill in Eb.
  destruct (customers_Get (ua_SubjectID a')) as [[cust'|]|]; [|done..]. injection Eb as <-. cbn in Ee.
  apply hex_encode_inj, Hnc in Ee; [|set_solver..]. rewrite !append_assoc in Ee.
  do 4 apply append_inj_l in Ee. apply append_inj_r in Ee. apply Hna. rewrite Ee. apply list_elem_of_fmap. eauto.
Qed.
Lemma reconcile_run r b :
  customers_answer r ->
  snd (ReconcileToStripe (mb_PushBatch Create ctx) customers_Get namespace metric period r b)
    = snd (mb_PushBatch Create ctx (bills r) b) /\
  (snd (fst (ReconcileToStripe (mb_PushBatch Create ctx) customers_Get namespace metric period r b)) = None ->
   fst (mb_PushBatch Create ctx (bills r) b) = None).
Proof.
  intros Hans. unfold ReconcileToStripe. cbn. rewrite resolve_bills by done.
  destruct (bills r) as [|e l]; [done|]. by destruct (mb_PushBatch Create ctx (e :: l) b) as [[err|] b'].
Qed.

Section runs.
Context (r : memoryUsage).
Let run b := ReconcileToStripe (mb_PushBatch Create ctx) customers_Get namespace metric period r b.
(** Runs of a window, with time passing in between. *)
Inductive reruns (b : B) : B -> Prop :=
| rr_start : reruns b b
| rr_run b' : reruns b b' -> reruns b (snd (run b'))
| rr_wait b' b'' : reruns b b' -> billed b'' = billed b' -> clock b' <= clock b'' -> reruns b b''.

Lemma run_clock b : customers_answer r -> clock b <= clock (snd (run b)).
Proof. intros Hans. unfold run. rewrite (proj1 (reconcile_run r b Hans)). apply batch_clock. Qed.
Lemma reruns_pushed b b' :
  customers_answer r -> (forall e, e ∈ bills r -> pu_Identifier e ∉ map (fun e => mp_Identifier e.2) (billed b)) ->
  reruns b b' -> clock b' < clock b + day -> exists sub, pushed (map (meter_params ctx) (bills r)) b b' sub.
Proof.
  intros Hans Hnew. induction 1 as [|b' _ IH|b' b'' _ IH Hb Hc]; intros Hday.
  - exists []. split; [by rewrite app_nil_r|by intros t p ?%not_elem_of_nil|constructor|done].
  - pose proof (run_clock b' Hans) as Hc. destruct IH as [sub IH]; [lia|]. unfold run in *. rewrite (proj1 (reconcile_run r b' Hans)) in *.
    destruct (push_batch _ b b' sub (bills r) IH) as (sub' & Hp & _); [|done|by exists sub'].
    intros e He. split; [|auto]. apply elem_of_map. eauto.
  - destruct IH as [sub [H1 H2 H3 H4]]; [lia|]. exists sub. split; [by rewrite Hb|done|done|lia].
Qed.
Lemma pushed_all b b' sub :
  no_collision r -> pushed (map (meter_params ctx) (bills r)) b b' sub ->
  (forall e, e ∈ bills r -> pu_Identifier e ∈ map (fun e => mp_Identifier e.2) sub) ->
  map snd sub ≡ₚ map (meter_params ctx) (bills r).
Proof.
  intros Hnc [_ Hf Hnd _] Hall. assert (Hids : NoDup (map mp_Identifier (map (meter_params ctx) (bills r))))
    by (rewrite map_map; by apply bills_identifiers).
  assert (Hsub : NoDup (map mp_Identifier (map snd sub))) by (by rewrite map_map).
  apply NoDup_Permutation; [by apply (NoDup_fmap_1 mp_Identifier)..|]. intros p. split.
  - intros ([t q] & -> & Hq)%elem_of_map. by apply (Hf t).
  - intros He. pose proof He as (e & -> & Hin)%elem_of_map. specialize (Hall e Hin). apply elem_of_map in Hall as ([t q] & Eq & Hq). cbn in Eq.
    destruct (Hf t q Hq) as [Hw _]. assert (q = meter_params ctx e) as <-; [|apply elem_of_map; by exists (t, q)].
    apply list_elem_of_lookup in Hw as [i Hi], He as [j Hj].
    assert (i = j) as -> by (by apply (NoDup_map_inj mp_Identifier (map (meter_params ctx) (bills r)) i j q (meter_params ctx e))). congruence.
Qed.
End runs.


(** Direct pushes without a request id collapse: once one has been counted for a
    subject and metric, one in the next 24 hours is not counted, whatever its value, since
    both carry the same identifier. *)
Theorem direct_without_request_collapses subject cust v1 v2 b b' :
  customers_Get subject = Ok (Some cust) ->
  reconcileIdentifier namespace metric subject "{}" ∉ map mp_Identifier (metered b) ->
  RecordDirect (mb_PushBatch Create ctx) customers_Get namespace metric subject v1 "" b = (None, b') ->
  let second := RecordDirect (mb_PushBatch Create ctx) customers_Get namespace metric subject v2 "" b' in
  clock (snd second) < clock b + day -> billed (snd second) = billed b'.
Proof.
  unfold metered. rewrite map_map. intros Hc Hn E1. unfold RecordDirect in *. rewrite Hc in *. cbn in *. set (i := reconcileIdentifier _ _ _ _) in *.
  set (p1 := meter_params ctx (mkPush _ _ v1 _ _)) in *. set (p2 := meter_params ctx (mkPush _ _ v2 _ _)).
  destruct (billed_new p1 b Hn) as [(t & Ht & Eb)|[_ Hf]]; [|by destruct (Create p1 b) as [[?|] ?]].
  assert (Hb' : billed b' = billed b ++ [(t, p1)]) by (destruct (Create p1 b) as [[?|] ?]; [done|]; injection E1 as <-; done).
  pose proof (billed_again p2 b' t p1) as Ha. rewrite Hb' in Ha at 1. intros Hday. revert Ha.
  destruct (Create p2 b') as [[err|] b2]; cbn in *; intros Ha; (apply Ha; [set_solver|done|lia]).
Qed.
End billing.

Module MeteringDemo.
Import KeysDemo.
Definition at_ (t : Z) : Z := time_Unix t.
Definition ev (subject request : string) (q t : Z) : MeterEvent := mkMeterEvent subject "calls" q (at_ t) request ∅.
Definition demo_calls : list (Z * MeterEvent) :=
  [(at_ 9, ev "org_1" "r1" 5 100); (at_ 9, ev "org_1" "r1" 5 100); (at_ 9, ev "org_2" "r2" 7 110);
   (at_ 9, ev "org_1" "" 3 120); (at_ 9, ev "org_1" "r3" 4 130); (at_ 9, ev "org_1" "r4" 9 900)].
Definition hour : UsagePeriod := mkUsagePeriod (at_ 100) (at_ 500) "00:01:40".
Definition demo_usage : memoryUsage := record_all demo_calls mu_NewMemoryRepo.

Lemma usage_counted_once_witness :
  usage_QueryByPeriod "org_1" "calls" (at_ 100) (at_ 500) demo_usage = Ok 9 /\ NoDup (map event_key (recorded demo_calls)).
Proof.
  destruct (usage_counted_once demo_calls "org_1" "calls" (at_ 100) (at_ 500)) as [E Hnd].
  - repeat constructor.
  - split; [|exact Hnd]. unfold demo_usage. rewrite E. vm_compute. reflexivity.
Defined.

(** Postgres keeps whole microseconds. *)
#[export, refine] Instance demo_time : PgTime := {| pg_ts t := t / 1000 * 1000 |}.
Proof. intros t Ht. pose proof (Z.div_mod t 1000). lia. Defined.
(** The first call takes effect but its answer is lost; the second is the retry. *)
Definition lossy : UsageConn := mkUsageConn (fun n => if (n =? 0)%nat then Some (mkFault "connection reset" true) else None) 0 ∅.
Definition retry_calls : list (Z * MeterEvent) := [(0, ev "org_1" "r1" 5 100); (7, ev "org_1" "r1" 5 100); (8, ev "org_1" "r2" 6 101)].
Lemma retry_calls_retried : retried retry_calls lossy.
Proof.
  split.
  - intros now e now' e' H1 H2. unfold retry_calls in H1, H2.
    repeat (apply elem_of_cons in H1 as [[= -> ->]|H1]); try (by apply not_elem_of_nil in H1);
      repeat (apply elem_of_cons in H2 as [[= -> ->]|H2]); try (by apply not_elem_of_nil in H2);
      intros E; first [reflexivity|vm_compute in E; discriminate].
  - intros now e H1. unfold retry_calls in H1.
    repeat (apply elem_of_cons in H1 as [[= -> ->]|H1]); try (by apply not_elem_of_nil in H1); reflexivity.
  - intros now e H1 _. unfold retry_calls in H1.
    assert (E : outcomes retry_calls lossy = [(ev "org_1" "r1" 5 100, Some "postgres.UsageRepo.RecordUsage: connection reset");
      (ev "org_1" "r1" 5 100, None); (ev "org_1" "r2" 6 101, None)]) by (vm_compute; reflexivity).
    exists e. rewrite E. repeat (apply elem_of_cons in H1 as [[= -> ->]|H1]); try (by apply not_elem_of_nil in H1);
      (split; [set_solver|done]).
Qed.
Lemma retries_count_once_witness :
  fst (usage_Record 0 (ev "org_1" "r1" 5 100) lossy) = Some "postgres.UsageRepo.RecordUsage: connection reset" /\
  usage_QueryByPeriod "org_1" "calls" (at_ 0) (at_ 500) (record_all retry_calls lossy) = Ok 11.
Proof.
  split; [vm_compute; reflexivity|].
  rewrite (retries_count_once retry_calls lossy "org_1" "calls" (at_ 0) (at_ 500));
    [vm_compute; reflexivity|reflexivity|apply retry_calls_retried|reflexivity|reflexivity|vm_compute; reflexivity|].
  vm_compute; split; discriminate.
Defined.

(** A server that loses the answer of its second call; each call takes a second. *)
Record server := mkServer { sv_calls : nat; sv_events : list (Z * MeterParams) }.
Definition sv_clock (b : server) : Z := Z.of_nat (sv_calls b) * second.
Definition demo_Create (p : MeterParams) (b : server) : option string * server :=
  (if (sv_calls b =? 1)%nat then Some "timeout" else None,
   mkServer (S (sv_calls b))
     (if bool_decide (mp_Identifier p ∈ map (fun e => mp_Identifier e.2) (sv_events b)) then sv_events b
      else sv_events b ++ [(sv_clock b, p)])).
#[export, refine] Instance demo_server : MeterServer demo_Create := {| billed := sv_events; clock := sv_clock |}.
Proof.
  - intros p b. unfold sv_clock, second. cbn. lia.
  - intros p b t q Hq E _. cbn. rewrite bool_decide_eq_true_2; [done|]. apply elem_of_map. exists (t, q). by rewrite <- E.
  - intros p b Hp. cbn. rewrite bool_decide_eq_false_2 by done. left. by eexists.
Defined.
Definition demo_customers (s : string) : res string (option string) := Ok (if String.eqb s "org_3" then None else Some ("cus_" ^^ s)).
Definition empty_server : server := mkServer 0 [].
Lemma direct_without_request_collapses_witness :
  let first := RecordDirect (mb_PushBatch demo_Create "") demo_customers "app" "fees" "org_1" 100 "" empty_server in
  fst first = None /\
  sv_events (snd (RecordDirect (mb_PushBatch demo_Create "") demo_customers "app" "fees" "org_1" 250 "" (snd first))) =
    sv_events (snd first).
Proof.
  cbn zeta. split; [vm_compute; reflexivity|].
  exact (direct_without_request_collapses demo_Create demo_customers "" "app" "fees" "org_1" "cus_org_1" 100 250 empty_server
    (snd (RecordDirect (mb_PushBatch demo_Create "") demo_customers "app" "fees" "org_1" 100 "" empty_server)) eq_refl (not_elem_of_nil _) eq_refl
    ltac:(vm_compute; reflexivity)).
Defined.
End MeteringDemo.
