(* ===== verification/Ledger.v ===== *)
(** * Ledger: the greedy draw a deduction is planned with.

    [draw pool amount] walks a pool of available amounts in order and takes from
    each what it can until [amount] is met: the abstract planning loop, of which
    the loop of src/credits/repo.go is an instance. *)
From S2P Require Import Prelude.

Section draw.
Context {K : Type}.
Implicit Types (pool steps : list (K * Z)).

Fixpoint draw pool (amount : Z) : list (K * Z) * Z :=
  match pool with
  | [] => ([], amount)
  | (k, a) :: pool' =>
      if amount =? 0 then ([], amount)
      else
        let take := if amount <? a then amount else a in
        let '(steps, unmet) := draw pool' (amount - take) in
        ((k, take) :: steps, unmet)
  end.

Definition positive_pool pool : Prop := Forall (fun p => 0 < snd p) pool.
Definition pool_sum pool : Z := sumZ (map snd pool).

Lemma pool_sum_cons k a pool : pool_sum ((k, a) :: pool) = a + pool_sum pool.
Proof. done. Qed.

Lemma pool_sum_nonneg pool : positive_pool pool -> 0 <= pool_sum pool.
Proof. induction 1 as [|[k a]]; rewrite ?pool_sum_cons; cbn in *; [done | lia]. Qed.

Lemma draw_zero pool : draw pool 0 = ([], 0).
Proof. by destruct pool as [|[k a] pool]. Qed.

(** Stepping equations, without the accumulating [let]. *)
Lemma draw_full k a pool amount :
  0 < a <= amount ->
  draw ((k, a) :: pool) amount =
    ((k, a) :: fst (draw pool (amount - a)), snd (draw pool (amount - a))).
Proof.
  intros Ha. cbn [draw].
  destruct (amount =? 0) eqn:E; [reflect_bools; lia|].
  destruct (amount <? a) eqn:E'; [reflect_bools; lia|].
  by destruct (draw pool (amount - a)).
Qed.

Lemma draw_partial k a pool amount :
  0 < amount < a -> draw ((k, a) :: pool) amount = ([(k, amount)], 0).
Proof.
  intros Ha. cbn [draw].
  destruct (amount =? 0) eqn:E; [reflect_bools; lia|].
  destruct (amount <? a) eqn:E'; [|reflect_bools; lia].
  by rewrite Z.sub_diag, draw_zero.
Qed.

(** The three cases of a walk, for induction over the pool. *)
Lemma draw_cases k a pool amount :
  0 < a -> 0 <= amount ->
  (amount = 0 /\ draw ((k, a) :: pool) amount = ([], 0)) \/
  (0 < amount < a /\ draw ((k, a) :: pool) amount = ([(k, amount)], 0)) \/
  (0 < a <= amount /\ draw ((k, a) :: pool) amount =
     ((k, a) :: fst (draw pool (amount - a)), snd (draw pool (amount - a)))).
Proof.
  intros Ha Hm. destruct (decide (amount = 0)) as [->|]; [left; by rewrite draw_zero|].
  destruct (decide (amount < a)); right; [left|right].
  - split; [lia|]. by apply draw_partial; lia.
  - split; [lia|]. by apply draw_full; lia.
Qed.

Lemma draw_unmet pool amount :
  positive_pool pool -> 0 <= amount ->
  snd (draw pool amount) = Z.max 0 (amount - pool_sum pool).
Proof.
  intros Hp. revert amount. induction Hp as [|[k a] pool Ha Hp IH]; intros amount Hm.
  - cbn. lia.
  - pose proof (pool_sum_nonneg _ Hp). rewrite pool_sum_cons. cbn in Ha.
    destruct (draw_cases k a pool amount Ha Hm) as [[-> ->]|[[? ->]|[? ->]]]; cbn [snd];
      [lia..|]. rewrite IH; lia.
Qed.

Lemma draw_total pool amount :
  positive_pool pool -> 0 <= amount ->
  pool_sum (fst (draw pool amount)) + snd (draw pool amount) = amount.
Proof.
  intros Hp. revert amount. induction Hp as [|[k a] pool Ha Hp IH]; intros amount Hm; [done|].
  cbn in Ha.
  destruct (draw_cases k a pool amount Ha Hm) as [[-> ->]|[[? ->]|[? ->]]];
    cbn [fst snd]; rewrite ?pool_sum_cons; [done|cbn; lia|].
  specialize (IH (amount - a)). lia.
Qed.

(** Each step draws a positive part of the pool entry at its position. *)
Lemma draw_lookup pool amount j k t :
  positive_pool pool -> 0 <= amount ->
  fst (draw pool amount) !! j = Some (k, t) ->
  exists a, pool !! j = Some (k, a) /\ 0 < t <= a.
Proof.
  intros Hp. revert amount j. induction Hp as [|[k' a] pool Ha Hp IH]; intros amount j Hm; [done|].
  cbn in Ha.
  destruct (draw_cases k' a pool amount Ha Hm) as [[-> ->]|[[? ->]|[? ->]]]; cbn [fst].
  - done.
  - destruct j; [|done]. intros [= -> ->]. exists a. split; [done|lia].
  - destruct j as [|j]; cbn.
    + intros [= -> ->]. exists t. split; [done|lia].
    + intros Hj. apply (IH (amount - a) j); [lia|done].
Qed.

(** First in, first out: a step past position [i] means entry [i] was drained. *)
Lemma draw_fifo pool amount i j s :
  positive_pool pool -> 0 <= amount -> (i < j)%nat ->
  fst (draw pool amount) !! j = Some s ->
  fst (draw pool amount) !! i = pool !! i.
Proof.
  intros Hp. revert amount i j. induction Hp as [|[k' a] pool Ha Hp IH]; intros amount i j Hm Hij; [done|].
  cbn in Ha.
  destruct (draw_cases k' a pool amount Ha Hm) as [[-> ->]|[[? ->]|[? ->]]]; cbn [fst].
  - done.
  - by destruct j as [|[|j]]; [lia|..].
  - destruct j as [|j]; [lia|]. destruct i as [|i]; [done|]. cbn. intros Hj.
    apply (IH (amount - a) i j); [lia|lia|done].
Qed.

Lemma draw_keys pool amount :
  positive_pool pool -> 0 <= amount ->
  exists n, map fst (fst (draw pool amount)) = take n (map fst pool).
Proof.
  intros Hp. revert amount. induction Hp as [|[k a] pool Ha Hp IH]; intros amount Hm.
  - by exists O.
  - cbn in Ha.
    destruct (draw_cases k a pool amount Ha Hm) as [[-> ->]|[[? ->]|[? ->]]]; cbn [fst map].
    + by exists O.
    + by exists 1%nat.
    + destruct (IH (amount - a)) as [n ->]; [lia|]. by exists (S n).
Qed.

Lemma draw_keys_NoDup pool amount :
  positive_pool pool -> 0 <= amount -> NoDup (map fst pool) ->
  NoDup (map fst (fst (draw pool amount))).
Proof.
  intros Hp Hm Hn. destruct (draw_keys pool amount Hp Hm) as [n ->].
  rewrite <- (take_drop n (map fst pool)) in Hn. by apply NoDup_app in Hn as [? _].
Qed.
End draw.
