(* ===== verification/CatalogSpec.v ===== *)
(** * CatalogSpec: the declarative catalog and its validation
      (src/catalog/types.go, spec.go).

    A Go map is a [gmap], ranged over in an order the runtime chooses; a
    [float64] percentage is a [spec_float], NaN and the infinities included, compared as
    IEEE 754 does. [NewSpec] collects every problem; [spec_ok] is the declarative account
    of a catalog that passes. *)
From Stdlib Require Import SpecFloat.
From S2P Require Import Prelude.
Open Scope Z_scope.

(** ** Data (types.go) *)
Definition PriceTypeRecurring : string := "recurring".
Definition PriceTypeOneTime : string := "one_time".
Definition CouponDurationOnce : string := "once".
Definition CouponDurationRepeating : string := "repeating".
Definition CouponDurationForever : string := "forever".

Record Meter := mkMeter { m_DisplayName : string; m_EventName : string; m_AggregateBy : string }.
Record Price := mkPrice {
  pr_Amount : Z;
  pr_Currency : string;
  pr_Type : string;
  pr_Interval : string;
  pr_IntervalCount : Z;
  pr_MeterRef : string;
  pr_TaxBehavior : string;
  pr_TaxRateOverrides : list string;
}.
Record CreditGrant := mkCreditGrant { cg_Bucket : string; cg_Amount : Z; cg_ValidDays : Z }.
Record RecurringGrant := mkRecurringGrant {
  rg_Bucket : string; rg_Amount : Z; rg_ValidDaysFromGrant : Z }.
Record Product := mkProduct {
  p_Name : string;
  p_Description : string;
  p_TaxCategory : string;
  p_Prices : gmap string Price;
  p_CreditGrant : option CreditGrant;
  p_RecurringGrant : option RecurringGrant;
  p_Metadata : smap;
}.
(** The [float64] of an integer constant. *)
Definition float64 (z : Z) : spec_float := binary_normalize 53 1024 z 0 false.
Record Coupon := mkCoupon {
  c_PercentOff : spec_float;
  c_AmountOff : Z;
  c_Currency : string;
  c_Duration : string;
  c_DurationMonths : Z;
  c_MaxRedemptions : Z;
  c_AppliesToProducts : list string;
  c_Preserve : bool;
}.
Record Spec := mkSpec {
  Namespace : string;
  Products : gmap string Product;
  Coupons : gmap string Coupon;
  Meters : gmap string Meter;
}.

(** ** The key patterns *)
Definition in_range (lo hi : ascii) (c : ascii) : bool :=
  (N_of_ascii lo <=? N_of_ascii c)%N && (N_of_ascii c <=? N_of_ascii hi)%N.
Definition lower (c : ascii) : bool := in_range "a" "z" c.
Definition upper (c : ascii) : bool := in_range "A" "Z" c.
Definition digit (c : ascii) : bool := in_range "0" "9" c.
Fixpoint all_chars (p : ascii -> bool) (s : string) : bool :=
  match s with EmptyString => true | String c s' => p c && all_chars p s' end.
(** [^first rest{0,n}$]. *)
Definition key_pattern (first rest : ascii -> bool) (n : nat) (s : string) : bool :=
  match s with
  | EmptyString => false
  | String c s' => first c && all_chars rest s' && Nat.leb (String.length s') n
  end.
Definition word_lower (c : ascii) : bool := lower c || digit c || Ascii.eqb c "_".
Definition namespaceRegex : string -> bool := key_pattern lower word_lower 29.
Definition keyRegex : string -> bool :=
  key_pattern (fun c => lower c || digit c) word_lower 62.
Definition couponKeyRegex : string -> bool :=
  key_pattern (fun c => upper c || lower c || digit c)
    (fun c => upper c || lower c || digit c || Ascii.eqb c "_") 62.
Definition currencyRegex (s : string) : bool :=
  all_chars lower s && Nat.eqb (String.length s) 3.
Definition namespaceRegex_String : string := "^[a-z][a-z0-9_]{0,29}$".
Definition keyRegex_String : string := "^[a-z0-9][a-z0-9_]{0,62}$".
Definition couponKeyRegex_String : string := "^[A-Za-z0-9][A-Za-z0-9_]{0,62}$".

(** ** Validation (spec.go) *)
Record FieldError := mkFieldError { fe_Field : string; fe_Message : string }.

Definition quoted (s : string) : string := String "034" (s ^^ String "034" "").

(** [if cond { fields = append(fields, FieldError{field, msg}) }]. *)
Definition complain (cond : bool) (field msg : string) : list FieldError :=
  if cond then [mkFieldError field msg] else [].

Definition validatePrice (prefix : string) (p : Price) : Price * list FieldError :=
  let type := if String.eqb (pr_Type p) "" then PriceTypeRecurring else pr_Type p in
  let recurring := String.eqb type PriceTypeRecurring in
  let one_time := negb recurring && String.eqb type PriceTypeOneTime in
  let fields :=
    complain (negb (String.eqb type PriceTypeRecurring) && negb (String.eqb type PriceTypeOneTime))
      (prefix ^^ "type") ("must be " ^^ quoted PriceTypeRecurring ^^ " or " ^^ quoted PriceTypeOneTime) ++
    complain (pr_Amount p <? 0) (prefix ^^ "amount") "must be non-negative (0 = free tier)" ++
    (if String.eqb (pr_Currency p) "" then [mkFieldError (prefix ^^ "currency") "required"]
     else complain (negb (currencyRegex (pr_Currency p)))
            (prefix ^^ "currency") "must be a 3-letter lowercase ISO 4217 code") ++
    complain (recurring && String.eqb (pr_Interval p) "")
      (prefix ^^ "interval") ("required for recurring prices (" ^^ quoted "month" ^^ "|" ^^ quoted "year" ^^ "|" ^^
         quoted "week" ^^ "|" ^^ quoted "day" ^^ ")") ++
    complain (one_time && negb (String.eqb (pr_Interval p) ""))
      (prefix ^^ "interval") "must be empty for one_time prices" ++
    complain (one_time && negb (pr_IntervalCount p =? 0))
      (prefix ^^ "interval_count") "must be zero for one_time prices" in
  let count :=
    if recurring && (pr_IntervalCount p =? 0) then 1 else pr_IntervalCount p in
  (mkPrice (pr_Amount p) (pr_Currency p) type (pr_Interval p) count (pr_MeterRef p)
     (pr_TaxBehavior p) (pr_TaxRateOverrides p), fields).

(** The loop over a map that rejects a bad key and stores what the body returns for
    a good one. *)
Section range_validate.
Context {A B : Type} (key_ok : string -> bool) (bad_key : string -> FieldError)
  (body : string -> A -> B * list FieldError).
Definition range_step (acc : gmap string B * list FieldError) (kv : string * A)
  : gmap string B * list FieldError :=
  let '(m, fields) := acc in
  let '(key, a) := kv in
  if negb (key_ok key) then (m, fields ++ [bad_key key])
  else let '(b, more) := body key a in (<[key := b]> m, fields ++ more).
Definition range_validate (l : list (string * A)) : gmap string B * list FieldError :=
  foldl range_step (∅, []) l.
End range_validate.

Definition recurring_grant_fields (prefix : string) (hasRecurring : bool)
    (o : option RecurringGrant) : list FieldError :=
  match o with
  | None => []
  | Some rg =>
      complain (negb hasRecurring) (prefix ^^ "recurring_grant")
        "recurring_grant is only valid on products with recurring prices" ++
      complain (String.eqb (rg_Bucket rg) "") (prefix ^^ "recurring_grant.bucket") "required" ++
      complain (rg_Amount rg <=? 0) (prefix ^^ "recurring_grant.amount") "must be positive" ++
      complain (rg_ValidDaysFromGrant rg <? 0)
        (prefix ^^ "recurring_grant.valid_days_from_grant") "must be non-negative"
  end.
Definition credit_grant_fields (prefix : string) (hasRecurring : bool)
    (o : option CreditGrant) : list FieldError :=
  match o with
  | None => []
  | Some cg =>
      complain hasRecurring (prefix ^^ "credit_grant")
        "credit_grant is only valid on products with one_time prices" ++
      complain (String.eqb (cg_Bucket cg) "") (prefix ^^ "credit_grant.bucket") "required" ++
      complain (cg_Amount cg <=? 0) (prefix ^^ "credit_grant.amount") "must be positive" ++
      complain (cg_ValidDays cg <? 0) (prefix ^^ "credit_grant.valid_days")
        "must be non-negative (0 = never expires)"
  end.

Section validation.
Context `{GoRuntime}.

Definition validateProduct (key : string) (p : Product) : Product * list FieldError :=
  let prefix := "products." ^^ key ^^ "." in
  let '(prices, price_fields) :=
    range_validate keyRegex
      (fun priceKey => mkFieldError (prefix ^^ "prices." ^^ priceKey) ("key must match " ^^ keyRegex_String))
      (fun priceKey price => validatePrice (prefix ^^ "prices." ^^ priceKey ^^ ".") price)
      (map_range (p_Prices p)) in
  let hasRecurring :=
    existsb (fun '(_, pr) => String.eqb (pr_Type pr) PriceTypeRecurring) (map_to_list prices) in
  let fields :=
    complain (String.eqb (p_Name p) "") (prefix ^^ "name") "required" ++
    complain (String.eqb (p_TaxCategory p) "") (prefix ^^ "tax_category") "required" ++
    complain (bool_decide (p_Prices p = ∅)) (prefix ^^ "prices") "at least one price is required" ++
    price_fields ++
    recurring_grant_fields prefix hasRecurring (p_RecurringGrant p) ++
    credit_grant_fields prefix hasRecurring (p_CreditGrant p) in
  (mkProduct (p_Name p) (p_Description p) (p_TaxCategory p) prices (p_CreditGrant p)
     (p_RecurringGrant p) (p_Metadata p), fields).

Definition validateCoupon (key : string) (c : Coupon) : list FieldError :=
  let prefix := "coupons." ^^ key ^^ "." in
  let hasPercent := negb (SFeqb (c_PercentOff c) (float64 0)) in
  let hasAmount := negb (c_AmountOff c =? 0) in
  complain (Bool.eqb hasPercent hasAmount) ("coupons." ^^ key)
    "exactly one of percent_off or amount_off must be set" ++
  complain (hasPercent && (SFleb (c_PercentOff c) (float64 0) || SFltb (float64 100) (c_PercentOff c)))
    (prefix ^^ "percent_off") "must be in (0, 100]" ++
  (if hasAmount then
     complain (c_AmountOff c <? 0) (prefix ^^ "amount_off") "must be positive" ++
     (if String.eqb (c_Currency c) ""
      then [mkFieldError (prefix ^^ "currency") "required when amount_off is set"]
      else complain (negb (currencyRegex (c_Currency c)))
             (prefix ^^ "currency") "must be a 3-letter lowercase ISO 4217 code")
   else []) ++
  (if String.eqb (c_Duration c) CouponDurationOnce || String.eqb (c_Duration c) CouponDurationForever
   then []
   else if String.eqb (c_Duration c) CouponDurationRepeating then
     complain (c_DurationMonths c <=? 0) (prefix ^^ "duration_months")
       "must be positive when duration is repeating"
   else if String.eqb (c_Duration c) "" then [mkFieldError (prefix ^^ "duration") "required"]
   else [mkFieldError (prefix ^^ "duration") ("must be " ^^ quoted "once" ^^ " | " ^^ quoted "repeating" ^^ " | " ^^ quoted "forever")]).

Definition normalizeMeter (key : string) (m : Meter) : Meter :=
  mkMeter (if String.eqb (m_DisplayName m) "" then key else m_DisplayName m)
    (if String.eqb (m_EventName m) "" then key else m_EventName m)
    (if String.eqb (m_AggregateBy m) "" then "sum" else m_AggregateBy m).

(** The check of [MeterRef] on one normalized price. *)
Definition meter_ref_fields (meters : gmap string Meter) (productKey priceKey : string) (price : Price)
  : list FieldError :=
  let field := "products." ^^ productKey ^^ ".prices." ^^ priceKey ^^ ".meter_ref" in
  if String.eqb (pr_MeterRef price) "" then []
  else
    complain (bool_decide (meters !! pr_MeterRef price = None)) field
      ("references undeclared Meter " ^^ quoted (pr_MeterRef price)) ++
    complain (negb (String.eqb (pr_Type price) PriceTypeRecurring) && negb (String.eqb (pr_Type price) ""))
      field "meter_ref requires recurring price type".

Definition NewSpec (s : Spec) : res (list FieldError) Spec :=
  let '(products, product_fields) :=
    range_validate keyRegex
      (fun key => mkFieldError ("products." ^^ key) ("key must match " ^^ keyRegex_String))
      validateProduct (map_range (Products s)) in
  let '(coupons, coupon_fields) :=
    range_validate couponKeyRegex
      (fun key => mkFieldError ("coupons." ^^ key) ("key must match " ^^ couponKeyRegex_String))
      (fun key c => (c, validateCoupon key c)) (map_range (Coupons s)) in
  let '(meters, meter_fields) :=
    range_validate keyRegex
      (fun key => mkFieldError ("meters." ^^ key) ("key must match " ^^ keyRegex_String))
      (fun key m => (normalizeMeter key m, [])) (map_range (Meters s)) in
  let ref_fields :=
    List.concat (map (fun '(productKey, prod) =>
      List.concat (map (fun '(priceKey, price) => meter_ref_fields meters productKey priceKey price)
                     (map_range (p_Prices prod)))) (map_range products)) in
  let fields :=
    complain (negb (namespaceRegex (Namespace s))) "namespace" ("must match " ^^ namespaceRegex_String) ++
    complain (bool_decide (Products s = ∅)) "products" "at least one product is required" ++
    product_fields ++ coupon_fields ++ meter_fields ++ ref_fields in
  match fields with
  | [] => Ok (mkSpec (Namespace s) products coupons meters)
  | _ => Err fields
  end.

(** [MustSpec] panics ([None]) where [NewSpec] fails. *)
Definition MustSpec (s : Spec) : option Spec :=
  match NewSpec s with Ok out => Some out | Err _ => None end.

Definition NamespacedPriceKey (s : Spec) (productKey priceKey : string) : string :=
  Namespace s ^^ "." ^^ productKey ^^ "." ^^ priceKey.
Definition string_less (a b : string) : bool := String.ltb a b.
Definition AllLookupKeys (s : Spec) : list string :=
  sort_slice string_less
    (List.concat (map (fun '(pk, p) =>
       map (fun '(prk, _) => NamespacedPriceKey s pk prk) (map_range (p_Prices p)))
       (map_range (Products s)))).
Definition NamespacedProductID (s : Spec) (productKey : string) : string :=
  "prod_" ^^ Namespace s ^^ "_" ^^ productKey.
Definition NamespacedCouponID (s : Spec) (couponKey : string) : string :=
  couponKey ^^ "_" ^^ Namespace s.
End validation.

(** ** The declarative account *)
Definition price_type (p : Price) : string :=
  if String.eqb (pr_Type p) "" then PriceTypeRecurring else pr_Type p.
Definition price_ok (p : Price) : Prop :=
  (price_type p = PriceTypeRecurring /\ pr_Interval p <> "" \/
   price_type p = PriceTypeOneTime /\ pr_Interval p = "" /\ pr_IntervalCount p = 0) /\
  0 <= pr_Amount p /\ currencyRegex (pr_Currency p) = true.
Definition has_recurring (p : Product) : Prop :=
  exists k pr, p_Prices p !! k = Some pr /\ price_type pr = PriceTypeRecurring.
Definition product_ok (p : Product) : Prop :=
  p_Name p <> "" /\ p_TaxCategory p <> "" /\ p_Prices p <> ∅ /\
  map_Forall (fun k pr => keyRegex k = true /\ price_ok pr) (p_Prices p) /\
  (forall rg, p_RecurringGrant p = Some rg ->
     has_recurring p /\ rg_Bucket rg <> "" /\ 0 < rg_Amount rg /\ 0 <= rg_ValidDaysFromGrant rg) /\
  (forall cg, p_CreditGrant p = Some cg ->
     ~ has_recurring p /\ cg_Bucket cg <> "" /\ 0 < cg_Amount cg /\ 0 <= cg_ValidDays cg).
(** Zero of either sign; in (0, 100]. *)
Definition percent_zero (x : spec_float) : Prop := exists sign, x = S754_zero sign.
Definition percent_in_range (x : spec_float) : Prop := SFltb (float64 0) x = true /\ SFleb x (float64 100) = true.
(** Every comparison with NaN is false, but for [!=]: a percentage that is not a number counts
    as set, and as neither too small nor too large. *)
Definition coupon_ok (c : Coupon) : Prop :=
  (percent_zero (c_PercentOff c) /\ 0 < c_AmountOff c /\ currencyRegex (c_Currency c) = true \/
   c_AmountOff c = 0 /\ (percent_in_range (c_PercentOff c) \/ c_PercentOff c = S754_nan)) /\
  (c_Duration c = CouponDurationOnce \/ c_Duration c = CouponDurationForever \/
   c_Duration c = CouponDurationRepeating /\ 0 < c_DurationMonths c).
Definition meter_refs_ok (s : Spec) : Prop :=
  forall pk p prk pr, Products s !! pk = Some p -> p_Prices p !! prk = Some pr ->
    pr_MeterRef pr <> "" -> is_Some (Meters s !! pr_MeterRef pr) /\ price_type pr = PriceTypeRecurring.
Record spec_ok (s : Spec) : Prop := {
  ok_namespace : namespaceRegex (Namespace s) = true;
  ok_products : Products s <> ∅;
  ok_product : map_Forall (fun k p => keyRegex k = true /\ product_ok p) (Products s);
  ok_coupon : map_Forall (fun k c => couponKeyRegex k = true /\ coupon_ok c) (Coupons s);
  ok_meter : map_Forall (fun k _ => keyRegex k = true) (Meters s);
  ok_refs : meter_refs_ok s;
}.

(** The normal form: defaults filled in. *)
Definition normal_price (p : Price) : Price :=
  mkPrice (pr_Amount p) (pr_Currency p) (price_type p) (pr_Interval p)
    (if String.eqb (price_type p) PriceTypeRecurring && (pr_IntervalCount p =? 0) then 1
     else pr_IntervalCount p)
    (pr_MeterRef p) (pr_TaxBehavior p) (pr_TaxRateOverrides p).
Definition normal_product (p : Product) : Product :=
  mkProduct (p_Name p) (p_Description p) (p_TaxCategory p) (normal_price <$> p_Prices p)
    (p_CreditGrant p) (p_RecurringGrant p) (p_Metadata p).
Definition normal_spec (s : Spec) : Spec :=
  mkSpec (Namespace s) (normal_product <$> Products s) (Coupons s)
    (map_imap (fun k m => Some (normalizeMeter k m)) (Meters s)).

(** ** The loops *)
Section range_facts.
Context {A B : Type} (key_ok : string -> bool) (bad_key : string -> FieldError)
  (body : string -> A -> B * list FieldError).

Lemma range_validate_fields l m fields :
  snd (foldl (range_step key_ok bad_key body) (m, fields) l) =
    fields ++ List.concat (map (fun '(k, a) =>
      if key_ok k then snd (body k a) else [bad_key k]) l).
Proof.
  revert m fields. induction l as [|[k a] l IH]; intros m fields; cbn; [by rewrite app_nil_r|].
  destruct (key_ok k); cbn; [destruct (body k a)|]; rewrite IH, <- app_assoc; done.
Qed.

Lemma range_validate_lookup l m fields k' :
  NoDup (map fst l) -> Forall (fun '(k, _) => key_ok k = true) l ->
  fst (foldl (range_step key_ok bad_key body) (m, fields) l) !! k' =
    match (list_to_map l : gmap string A) !! k' with
    | Some a => Some (fst (body k' a))
    | None => m !! k'
    end.
Proof.
  revert m fields. induction l as [|[k a] l IH]; intros m fields Hn Hk; [done|].
  inv Hn. inv Hk. cbn [foldl range_step]. rewrite H3. cbn [negb].
  destruct (body k a) as [b more] eqn:E. rewrite IH by done. cbn.
  destruct (decide (k = k')) as [<-|Hne].
  - rewrite !lookup_insert_eq. by rewrite not_elem_of_list_to_map_1, E.
  - by rewrite !lookup_insert_ne.
Qed.

Lemma range_validate_nil `{GoRuntime} (m : gmap string A) :
  snd (range_validate key_ok bad_key body (map_range m)) = [] <->
  map_Forall (fun k a => key_ok k = true /\ snd (body k a) = []) m.
Proof.
  unfold range_validate. rewrite range_validate_fields. cbn [app].
  rewrite List.concat_nil_Forall, Forall_map, Forall_forall. split.
  - intros Hl k a Hk. specialize (Hl (k, a)). rewrite map_range_elem in Hl. specialize (Hl Hk).
    cbn in Hl. by destruct (key_ok k).
  - intros Hm [k a] Hk%map_range_elem. cbn. by destruct (Hm k a Hk) as [-> ->].
Qed.

Lemma range_validate_fst `{GoRuntime} (m : gmap string A) k :
  map_Forall (fun k _ => key_ok k = true) m ->
  fst (range_validate key_ok bad_key body (map_range m)) !! k =
    (fun a => fst (body k a)) <$> m !! k.
Proof.
  intros Hm. unfold range_validate. rewrite range_validate_lookup, map_range_map.
  - by destruct (m !! k).
  - apply map_range_keys.
  - apply Forall_forall. intros [k' a] Hk'%map_range_elem. by apply (Hm k' a).
Qed.
End range_facts.

Lemma complain_nil cond f msg : complain cond f msg = [] <-> cond = false.
Proof. by destruct cond. Qed.

Lemma app_nil_iff {A} (l l' : list A) : l ++ l' = [] <-> l = [] /\ l' = [].
Proof. split; [apply app_eq_nil|]. by intros [-> ->]. Qed.

Lemma currency_nonempty c : currencyRegex c = true -> c <> "".
Proof. by intros H ->. Qed.

Ltac decide_strings :=
  repeat match goal with
  | |- context [String.eqb ?a ?b] => destruct (String.eqb_spec a b)
  | H : context [String.eqb ?a ?b] |- _ => destruct (String.eqb_spec a b)
  end.

Lemma currency_check p prefix :
  (if String.eqb (pr_Currency p) "" then [mkFieldError (prefix ^^ "currency") "required"]
   else complain (negb (currencyRegex (pr_Currency p)))
          (prefix ^^ "currency") "must be a 3-letter lowercase ISO 4217 code") = [] <->
  currencyRegex (pr_Currency p) = true.
Proof.
  destruct (String.eqb_spec (pr_Currency p) "") as [->|Hne]; [done|].
  rewrite complain_nil. by destruct (currencyRegex _).
Qed.

Lemma validatePrice_spec prefix p :
  fst (validatePrice prefix p) = normal_price p /\
  (snd (validatePrice prefix p) = [] <-> price_ok p).
Proof.
  split; [done|]. unfold validatePrice. cbn [snd]. fold (price_type p).
  rewrite !app_nil_iff, !complain_nil, currency_check. unfold price_ok.
  destruct (pr_Amount p <? 0) eqn:Ea; reflect_bools; [split; [by intros (_ & ? & _)|lia]|].
  destruct (String.eqb_spec (price_type p) PriceTypeRecurring) as [->|H1]; cbn.
  - destruct (String.eqb_spec (pr_Interval p) "") as [E|E]; cbn.
    + split; [by intros (_ & _ & _ & ? & _)|]. intros [[[_ H]|(H & _)] _]; [done|discriminate H].
    + split; [intros (_ & _ & ? & _); split; [by left|done]|]. by intros (_ & _ & ?).
  - destruct (String.eqb_spec (price_type p) PriceTypeOneTime) as [->|H2]; cbn;
      [|split; [by intros (? & _)|]; intros [[[? _]|[? _]] _]; done].
    destruct (String.eqb_spec (pr_Interval p) "") as [E|E]; cbn;
      [|split; [by intros (_ & _ & _ & _ & ? & _)|]; intros [[[? _]|(_ & ? & _)] _]; done].
    destruct (pr_IntervalCount p =? 0) eqn:Ec; cbn; reflect_bools.
    + split; [intros (_ & _ & ? & _); split; [by right|done]|]. by intros (_ & _ & ?).
    + split; [by intros (_ & _ & _ & _ & _ & ?)|]. intros [[[? _]|(_ & _ & ?)] _]; done.
Qed.

(** A range whose body is correct normalizes the whole map. *)
Lemma range_validate_spec {A B} `{GoRuntime} key_ok bad_key (body : string -> A -> B * list FieldError)
    (norm : string -> A -> B) (ok : A -> Prop) (m : gmap string A) :
  (forall k a, fst (body k a) = norm k a /\ (snd (body k a) = [] <-> ok a)) ->
  (snd (range_validate key_ok bad_key body (map_range m)) = [] <->
     map_Forall (fun k a => key_ok k = true /\ ok a) m) /\
  (map_Forall (fun k _ => key_ok k = true) m ->
     fst (range_validate key_ok bad_key body (map_range m)) = map_imap (fun k a => Some (norm k a)) m).
Proof.
  intros Hb. split.
  - rewrite range_validate_nil. unfold map_Forall.
    split; intros Hm k a Hk; destruct (Hm k a Hk); split; try done; by apply (Hb k a).
  - intros Hk. apply map_eq. intros k. rewrite range_validate_fst by done.
    rewrite map_lookup_imap. destruct (m !! k) as [a|]; [|done]. cbn. by destruct (Hb k a) as [-> _].
Qed.

Lemma map_imap_fmap {A B} (f : A -> B) (m : gmap string A) :
  map_imap (fun _ a => Some (f a)) m = f <$> m.
Proof. apply map_eq. intros k. rewrite map_lookup_imap, lookup_fmap. by destruct (m !! k). Qed.

Lemma existsb_recurring (p : Product) :
  existsb (fun '(_, pr) => String.eqb (pr_Type pr) PriceTypeRecurring)
    (map_to_list (normal_price <$> p_Prices p)) = true <-> has_recurring p.
Proof.
  rewrite existsb_exists. unfold has_recurring. split.
  - intros ([k pr] & Hin & Ht). apply list_elem_of_In, elem_of_map_to_list in Hin.
    rewrite lookup_fmap in Hin. destruct (p_Prices p !! k) as [pr0|] eqn:E; [|done].
    cbn in Hin. injection Hin as <-. apply String.eqb_eq in Ht. by exists k, pr0.
  - intros (k & pr & E & Ht). exists (k, normal_price pr). split.
    + apply list_elem_of_In, elem_of_map_to_list. by rewrite lookup_fmap, E.
    + by apply String.eqb_eq.
Qed.

Lemma recurring_grant_nil prefix hr o :
  recurring_grant_fields prefix hr o = [] <->
  forall rg, o = Some rg ->
    hr = true /\ rg_Bucket rg <> "" /\ 0 < rg_Amount rg /\ 0 <= rg_ValidDaysFromGrant rg.
Proof.
  destruct o as [rg|]; [|done]. cbn.
  rewrite !app_nil_iff, !complain_nil, negb_false_iff, String.eqb_neq, Z.leb_gt, Z.ltb_ge.
  split; [by intros ? ? [= <-]|auto].
Qed.

Lemma credit_grant_nil prefix hr o :
  credit_grant_fields prefix hr o = [] <->
  forall cg, o = Some cg ->
    hr = false /\ cg_Bucket cg <> "" /\ 0 < cg_Amount cg /\ 0 <= cg_ValidDays cg.
Proof.
  destruct o as [cg|]; [|done]. cbn.
  rewrite !app_nil_iff, !complain_nil, String.eqb_neq, Z.leb_gt, Z.ltb_ge.
  split; [by intros ? ? [= <-]|auto].
Qed.

Section spec_facts.
Context `{GoRuntime}.

Lemma validateProduct_spec key p :
  (snd (validateProduct key p) = [] <-> product_ok p) /\
  (product_ok p -> fst (validateProduct key p) = normal_product p).
Proof.
  unfold validateProduct.
  set (R := range_validate _ _ _ (map_range (p_Prices p))).
  assert (HR : (snd R = [] <-> map_Forall (fun k pr => keyRegex k = true /\ price_ok pr) (p_Prices p)) /\
    (map_Forall (fun k _ => keyRegex k = true) (p_Prices p) -> fst R = normal_price <$> p_Prices p)).
  { rewrite <- map_imap_fmap. apply (range_validate_spec _ _ _ (fun _ => normal_price)).
    intros k a. apply validatePrice_spec. }
  destruct R as [prices pf]. cbn [fst snd] in HR. destruct HR as [Hpf Hpr].
  assert (Hkeys : map_Forall (fun k pr => keyRegex k = true /\ price_ok pr) (p_Prices p) ->
    prices = normal_price <$> p_Prices p).
  { intros Hm. apply Hpr. intros k pr Hk. by destruct (Hm k pr Hk). }
  cbn [fst snd]. split.
  2: { intros (_ & _ & _ & Hm & _). unfold normal_product. by rewrite (Hkeys Hm). }
  rewrite !app_nil_iff, !complain_nil, Hpf. unfold product_ok.
  rewrite String.eqb_neq, String.eqb_neq, bool_decide_eq_false.
  assert (Hrec : map_Forall (fun k pr => keyRegex k = true /\ price_ok pr) (p_Prices p) ->
    existsb (fun '(_, pr) => String.eqb (pr_Type pr) PriceTypeRecurring) (map_to_list prices) = true
    <-> has_recurring p).
  { intros Hm. rewrite (Hkeys Hm). apply existsb_recurring. }
  set (hr := existsb _ _) in *. clearbody hr.
  rewrite recurring_grant_nil, credit_grant_nil.
  split; intros (H1 & H2 & H3 & Hm & H4 & H5); specialize (Hrec Hm); repeat (split; [done|]).
  - split; [intros rg E; destruct (H4 rg E)|intros cg E; destruct (H5 cg E)];
      (split; [|done]); rewrite <- Hrec; [done|by rewrite not_true_iff_false].
  - split; [intros rg E; destruct (H4 rg E)|intros cg E; destruct (H5 cg E)];
      (split; [|done]); rewrite <- Hrec in *; [done|by rewrite <- not_true_iff_false].
Qed.

Lemma duration_nil prefix c :
  (if String.eqb (c_Duration c) CouponDurationOnce || String.eqb (c_Duration c) CouponDurationForever
   then []
   else if String.eqb (c_Duration c) CouponDurationRepeating then
     complain (c_DurationMonths c <=? 0) (prefix ^^ "duration_months")
       "must be positive when duration is repeating"
   else if String.eqb (c_Duration c) "" then [mkFieldError (prefix ^^ "duration") "required"]
   else [mkFieldError (prefix ^^ "duration")
           ("must be " ^^ quoted "once" ^^ " | " ^^ quoted "repeating" ^^ " | " ^^ quoted "forever")]) = []
  <-> (c_Duration c = CouponDurationOnce \/ c_Duration c = CouponDurationForever \/
       c_Duration c = CouponDurationRepeating /\ 0 < c_DurationMonths c).
Proof.
  destruct (String.eqb_spec (c_Duration c) CouponDurationOnce) as [->|H1]; [cbn; tauto|].
  destruct (String.eqb_spec (c_Duration c) CouponDurationForever) as [->|H2]; [cbn; tauto|]. cbn [orb].
  destruct (String.eqb_spec (c_Duration c) CouponDurationRepeating) as [->|H3].
  - rewrite complain_nil, Z.leb_gt. split; [auto|]. by intros [?|[?|[_ ?]]].
  - destruct (String.eqb (c_Duration c) ""); split; try done; intros [?|[?|[? _]]]; done.
Qed.

Lemma coupon_currency_nil prefix c :
  (if String.eqb (c_Currency c) ""
   then [mkFieldError (prefix ^^ "currency") "required when amount_off is set"]
   else complain (negb (currencyRegex (c_Currency c)))
          (prefix ^^ "currency") "must be a 3-letter lowercase ISO 4217 code") = [] <->
  currencyRegex (c_Currency c) = true.
Proof.
  destruct (String.eqb_spec (c_Currency c) "") as [->|Hne]; [done|].
  rewrite complain_nil. by destruct (currencyRegex _).
Qed.

Lemma float64_hundred : float64 100 = S754_finite false 7036874417766400 (-46).
Proof. reflexivity. Qed.
Lemma percent_zero_spec x : SFeqb x (float64 0) = true <-> percent_zero x.
Proof.
  unfold percent_zero. destruct x as [[]|[]| |[] m e]; (split; [eauto; done|by intros [? ?]]).
Qed.
Lemma SFltb_flip x y : x <> S754_nan -> y <> S754_nan -> SFltb y x = negb (SFleb x y).
Proof.
  intros Hx Hy. unfold SFltb, SFleb. destruct x as [[]|[]| |[] m e], y as [[]|[]| |[] m' e']; try done; cbn.
  - rewrite (Z.compare_antisym e e'). destruct (e ?= e') eqn:E; try done. cbn. change (Pos.compare_cont Eq m' m) with (Pos.compare m' m).
    change (Pos.compare_cont Eq m m') with (Pos.compare m m'). rewrite (Pos.compare_antisym m m'). by destruct (Pos.compare m m').
  - rewrite (Z.compare_antisym e e'). destruct (e ?= e') eqn:E; try done. cbn. change (Pos.compare_cont Eq m' m) with (Pos.compare m' m).
    change (Pos.compare_cont Eq m m') with (Pos.compare m m'). rewrite (Pos.compare_antisym m m'). by destruct (Pos.compare m m').
Qed.
Lemma percent_accepted x :
  SFleb x (float64 0) || SFltb (float64 100) x = false <-> percent_in_range x \/ x = S754_nan.
Proof.
  assert (x = S754_nan \/ x <> S754_nan) as [->|Hx] by (destruct x; auto). { cbn. naive_solver. } unfold percent_in_range.
  rewrite orb_false_iff, !SFltb_flip, negb_false_iff, negb_true_iff by (done || by rewrite float64_hundred). naive_solver.
Qed.
Lemma in_range_nonzero x : percent_in_range x -> ~ percent_zero x.
Proof. intros [Hx _] [[] ->]; done. Qed.
Lemma validateCoupon_spec key c : validateCoupon key c = [] <-> coupon_ok c.
Proof.
  unfold validateCoupon, coupon_ok. rewrite !app_nil_iff, !complain_nil, duration_nil.
  pose proof (percent_accepted (c_PercentOff c)) as Ha. pose proof (in_range_nonzero (c_PercentOff c)) as Hr.
  pose proof (percent_zero_spec (c_PercentOff c)) as Hz. assert (Hn : c_PercentOff c = S754_nan -> ~ percent_zero (c_PercentOff c)) by by intros -> [].
  destruct (SFeqb (c_PercentOff c) (float64 0)), (Z.eqb_spec (c_AmountOff c) 0) as [Ea|Ea];
    cbn [negb andb Bool.eqb]; rewrite ?app_nil_iff, ?complain_nil, ?coupon_currency_nil, ?Z.ltb_ge.
  - split; [by intros (? & _)|]. intros [[(_ & ? & _)|(_ & ?)] _]; [lia|tauto].
  - split; [intros (_ & _ & [? ?] & ?)|intros [[(_ & ? & ?)|(? & _)] ?]; [|done]]; [split; [left; split; [tauto|split; [lia|done]]|done]|].
    repeat (split; [done|]). split; [split; [lia|done]|done].
  - rewrite Ha. split; [intros (_ & ? & _ & ?); split; [by right|done]|]. intros [[(? & _)|(_ & ?)] ?]; [by apply Hz in H0|done].
  - split; [by intros (? & _)|]. by intros [[(?%Hz & _)|(? & _)] _].
Qed.

Lemma meter_ref_nil meters pk prk pr :
  meter_ref_fields meters pk prk pr = [] <->
  (pr_MeterRef pr <> "" -> is_Some (meters !! pr_MeterRef pr) /\ price_type pr = PriceTypeRecurring).
Proof.
  unfold meter_ref_fields, price_type.
  destruct (String.eqb_spec (pr_MeterRef pr) "") as [E|Hne]; [done|].
  rewrite app_nil_iff, !complain_nil, bool_decide_eq_false, andb_false_iff, !negb_false_iff, !String.eqb_eq.
  rewrite not_eq_None_Some.
  destruct (String.eqb_spec (pr_Type pr) "") as [->|Ht]; intuition.
Qed.

Lemma ref_fields_nil meters (products : gmap string Product) :
  List.concat (map (fun '(productKey, prod) =>
    List.concat (map (fun '(priceKey, price) => meter_ref_fields meters productKey priceKey price)
                   (map_range (p_Prices prod)))) (map_range products)) = [] <->
  forall pk p prk pr, products !! pk = Some p -> p_Prices p !! prk = Some pr ->
    meter_ref_fields meters pk prk pr = [].
Proof.
  rewrite List.concat_nil_Forall, Forall_map, Forall_forall. split.
  - intros Hl pk p prk pr Hp Hpr. specialize (Hl (pk, p) (proj2 (map_range_elem _ _ _) Hp)). cbn in Hl.
    rewrite List.concat_nil_Forall, Forall_map, Forall_forall in Hl.
    apply (Hl (prk, pr)). by apply map_range_elem.
  - intros Hl [pk p] Hp%map_range_elem. cbn. rewrite List.concat_nil_Forall, Forall_map, Forall_forall.
    intros [prk pr] Hpr%map_range_elem. by apply (Hl pk p).
Qed.

Lemma normal_refs s meters :
  (forall k, is_Some (meters !! k) <-> is_Some (Meters s !! k)) ->
  (forall pk p prk pr, (normal_product <$> Products s) !! pk = Some p -> p_Prices p !! prk = Some pr ->
     meter_ref_fields meters pk prk pr = []) <-> meter_refs_ok s.
Proof.
  intros Hm.
  assert (E : forall pk prk pr, meter_ref_fields meters pk prk (normal_price pr) = [] <->
    (pr_MeterRef pr <> "" -> is_Some (Meters s !! pr_MeterRef pr) /\ price_type pr = PriceTypeRecurring)).
  { intros. rewrite meter_ref_nil. cbn [normal_price pr_MeterRef]. rewrite Hm.
    assert (price_type (normal_price pr) = price_type pr) as ->; [|done].
    unfold price_type at 1. cbn [normal_price pr_Type]. unfold price_type.
    destruct (String.eqb (pr_Type pr) "") eqn:Et; [done|]. by rewrite Et. }
  unfold meter_refs_ok. split.
  - intros Hr pk p prk pr Hp Hpr. apply (E pk prk), (Hr pk (normal_product p)).
    + by rewrite lookup_fmap, Hp.
    + cbn. by rewrite lookup_fmap, Hpr.
  - intros Hr pk p prk pr Hp Hpr. rewrite lookup_fmap in Hp.
    destruct (Products s !! pk) as [p0|] eqn:E0; [|done]. cbn in Hp. injection Hp as <-.
    cbn in Hpr. rewrite lookup_fmap in Hpr. destruct (p_Prices p0 !! prk) as [pr0|] eqn:E1; [|done].
    cbn in Hpr. injection Hpr as <-. apply E. by apply (Hr pk p0 prk).
Qed.

(** What the three loops of [NewSpec] return. *)
Lemma products_loop bad m :
  let R := range_validate keyRegex bad validateProduct (map_range m) in
  (snd R = [] <-> map_Forall (fun k p => keyRegex k = true /\ product_ok p) m) /\
  (map_Forall (fun k p => keyRegex k = true /\ product_ok p) m -> fst R = normal_product <$> m).
Proof.
  cbv zeta. split.
  - rewrite range_validate_nil. unfold map_Forall.
    split; intros Hm k p Hk; destruct (Hm k p Hk); split; try done; by apply (validateProduct_spec k p).
  - intros Hm. apply map_eq. intros k. rewrite range_validate_fst by (intros k' p Hk; by apply (Hm k' p)).
    rewrite lookup_fmap. destruct (m !! k) as [p|] eqn:E; [|done]. cbn. f_equal.
    apply validateProduct_spec. by apply (Hm k p).
Qed.

Lemma coupons_loop bad m :
  let R := range_validate couponKeyRegex bad (fun key c => (c, validateCoupon key c)) (map_range m) in
  (snd R = [] <-> map_Forall (fun k c => couponKeyRegex k = true /\ coupon_ok c) m) /\
  (map_Forall (fun k c => couponKeyRegex k = true /\ coupon_ok c) m -> fst R = m).
Proof.
  cbv zeta. destruct (range_validate_spec couponKeyRegex bad (fun key c => (c, validateCoupon key c))
    (fun _ c => c) coupon_ok m (fun k c => conj eq_refl (validateCoupon_spec k c))) as [H1 H2].
  split; [done|]. intros Hm. rewrite H2 by (intros k c Hk; by apply (Hm k c)).
  rewrite map_imap_fmap. apply map_fmap_id.
Qed.

Lemma meters_loop bad m :
  let R := range_validate keyRegex bad (fun key m => (normalizeMeter key m, [])) (map_range m) in
  (snd R = [] <-> map_Forall (fun k _ => keyRegex k = true) m) /\
  (map_Forall (fun k _ => keyRegex k = true) m ->
     fst R = map_imap (fun k m => Some (normalizeMeter k m)) m).
Proof.
  cbv zeta. destruct (range_validate_spec keyRegex bad (fun key m => (normalizeMeter key m, []))
    normalizeMeter (fun _ => True) m) as [H1 H2]; [done|].
  split; [|done]. rewrite H1. unfold map_Forall.
  split; intros Hm k x Hk; [by apply (Hm k x)|split; [by apply (Hm k x)|done]].
Qed.

Lemma NewSpec_spec s :
  match NewSpec s with
  | Ok s' => spec_ok s /\ s' = normal_spec s
  | Err fields => fields <> [] /\ ~ spec_ok s
  end.
Proof.
  unfold NewSpec.
  destruct (products_loop (fun key => mkFieldError ("products." ^^ key) ("key must match " ^^ keyRegex_String))
    (Products s)) as [Hp Hp'].
  destruct (coupons_loop (fun key => mkFieldError ("coupons." ^^ key) ("key must match " ^^ couponKeyRegex_String))
    (Coupons s)) as [Hc Hc'].
  destruct (meters_loop (fun key => mkFieldError ("meters." ^^ key) ("key must match " ^^ keyRegex_String))
    (Meters s)) as [Hm Hm'].
  destruct (range_validate _ _ validateProduct _) as [products pf].
  destruct (range_validate _ _ (fun key c => (c, validateCoupon key c)) _) as [coupons cf].
  destruct (range_validate _ _ (fun key m => (normalizeMeter key m, [])) _) as [meters mf].
  cbn [fst snd] in *. set (refs := List.concat _).
  assert (Hrefs : map_Forall (fun k p => keyRegex k = true /\ product_ok p) (Products s) ->
    map_Forall (fun k _ => keyRegex k = true) (Meters s) -> refs = [] <-> meter_refs_ok s).
  { intros HP HM. unfold refs. rewrite ref_fields_nil, (Hp' HP). apply normal_refs.
    intros k. rewrite (Hm' HM), map_lookup_imap. by destruct (Meters s !! k). }
  set (fields := complain _ _ _ ++ _).
  assert (E : fields = [] <-> spec_ok s).
  { unfold fields. rewrite !app_nil_iff, !complain_nil, negb_false_iff, bool_decide_eq_false, Hp, Hc, Hm.
    split.
    - intros (H1 & H2 & H3 & H4 & H5 & H6). split; try done. by apply Hrefs.
    - intros [H1 H2 H3 H4 H5 H6]. repeat (split; [done|]). by apply Hrefs. }
  destruct fields as [|f fs].
  - destruct E as [E _]. specialize (E eq_refl). split; [done|].
    destruct E as [_ _ H3 H4 H5 _]. unfold normal_spec. by rewrite (Hp' H3), (Hc' H4), (Hm' H5).
  - split; [done|]. by intros ?%E.
Qed.

(** Two things pass that are documented or meant not to. A metered price of a product that
    grants credits: validation is said to refuse it (types.go, [MeterRef]). A percentage that
    is not a number: the message says that it must be in (0, 100]. *)
Definition metered_apart (s : Spec) : Prop :=
  forall pk p prk pr, Products s !! pk = Some p -> p_Prices p !! prk = Some pr -> pr_MeterRef pr <> "" ->
    p_CreditGrant p = None /\ p_RecurringGrant p = None.
Definition percents_are_numbers (s : Spec) : Prop :=
  map_Forall (fun _ c => c_PercentOff c <> S754_nan) (Coupons s).
(** A well-formed catalog in the sense of the documentation. *)
Definition well_formed (s : Spec) : Prop := spec_ok s /\ metered_apart s /\ percents_are_numbers s.

(** C32: For catalogs in which no product that grants credits has a metered price and no
    coupon's percentage is NaN, validation accepts exactly the well-formed ones,
    and returns them with every default filled in; the others are refused with at least one
    field named. *)
Theorem NewSpec_correct s :
  metered_apart s -> percents_are_numbers s ->
  match NewSpec s with
  | Ok s' => well_formed s /\ s' = normal_spec s
  | Err fields => fields <> [] /\ ~ well_formed s
  end.
Proof.
  intros Hm Hp. pose proof (NewSpec_spec s) as Hs. unfold well_formed. destruct (NewSpec s); [|tauto]. by destruct Hs as [Hs ->].
Qed.
End spec_facts.

(** ** Keys never contain the separator *)
Lemma all_chars_has p c s : all_chars p s = true -> p c = false -> string_has c s = false.
Proof.
  intros Hs Hc. induction s as [|x s IH]; [done|]. cbn in *. apply andb_true_iff in Hs as [Hx Hs].
  rewrite (IH Hs), orb_false_r. apply not_true_iff_false. intros ->%Ascii.eqb_eq. congruence.
Qed.

Lemma key_pattern_has first rest n c s :
  key_pattern first rest n s = true -> first c = false -> rest c = false -> string_has c s = false.
Proof.
  destruct s as [|x s]; [done|]. cbn. intros [[Hx Hs]%andb_true_iff _]%andb_true_iff Hf Hr.
  rewrite (all_chars_has rest c s Hs Hr), orb_false_r.
  apply not_true_iff_false. intros ->%Ascii.eqb_eq. congruence.
Qed.

Lemma keyRegex_dot k : keyRegex k = true -> string_has "." k = false.
Proof. intros Hk. by apply (key_pattern_has _ _ _ _ _ Hk). Qed.
Lemma namespaceRegex_dot k : namespaceRegex k = true -> string_has "." k = false.
Proof. intros Hk. by apply (key_pattern_has _ _ _ _ _ Hk). Qed.

(** Price keys of validated catalogs are told apart by their lookup keys. *)
Lemma NamespacedPriceKey_inj s pk prk pk' prk' :
  keyRegex pk = true -> keyRegex pk' = true ->
  NamespacedPriceKey s pk prk = NamespacedPriceKey s pk' prk' -> pk = pk' /\ prk = prk'.
Proof.
  intros Hk Hk' E. unfold NamespacedPriceKey in E. rewrite !append_assoc in E.
  apply append_inj_l in E. apply (append_inj_l ".") in E.
  apply sep_inj in E; [done|by apply keyRegex_dot..].
Qed.

Module SpecDemo.
Definition monthly (meter : string) : Price := mkPrice 900 "eur" "" "month" 0 meter "" [].
Definition plan (meter : string) (grant : option RecurringGrant) : Product :=
  mkProduct "Pro" "" "txcd_10103000" {["monthly" := monthly meter]} None grant ∅.
Definition catalog_of (p : Product) (percent : spec_float) : Spec :=
  mkSpec "shop" {["pro" := p]} {["SAVE20" := mkCoupon percent 0 "" CouponDurationOnce 0 0 [] false]} {["api_calls" := mkMeter "" "" ""]}.
Definition demo : Spec := catalog_of (plan "api_calls" None) (float64 20).
Lemma NewSpec_correct_witness : NewSpec (H := reference_runtime) demo = Ok (normal_spec demo) /\ well_formed demo.
Proof.
  assert (Hm : metered_apart demo) by (intros pk p prk pr Hpk _ _; cbn [demo catalog_of Products] in Hpk; by apply lookup_singleton_Some in Hpk as [<- <-]).
  assert (Hp : percents_are_numbers demo) by (intros k c Hk; cbn [demo catalog_of Coupons] in Hk; by apply lookup_singleton_Some in Hk as [<- <-]).
  assert (Hok : exists s', NewSpec (H := reference_runtime) demo = Ok s') by (eexists; vm_compute; reflexivity).
  pose proof (NewSpec_correct (H := reference_runtime) demo Hm Hp) as Hc. destruct Hok as [s' E].
  rewrite E in Hc |- *. destruct Hc as [Hc ->]. by split.
Defined.
(** What the hypotheses of [NewSpec_correct] leave out is accepted. *)
Example metered_grant_accepted : exists s', NewSpec (H := reference_runtime) (catalog_of (plan "api_calls" (Some (mkRecurringGrant "calls" 100 30))) (float64 20)) = Ok s'.
Proof. eexists. vm_compute. reflexivity. Qed.
Example nan_percent_accepted : exists s', NewSpec (H := reference_runtime) (catalog_of (plan "" None) S754_nan) = Ok s'.
Proof. eexists. vm_compute. reflexivity. Qed.
End SpecDemo.
