(* ===== verification/CatalogCache.v ===== *)
(** * CatalogCache: the lookup-key cache (src/catalog/cache.go).

    [Warm] resolves every lookup key of the catalog through a [PriceLister], which is
    stripe-go behind an interface and a parameter here; the swap of the map under the
    write lock is one step. *)
From S2P Require Import Prelude CatalogSpec.

Record ResolvedPrice := mkResolved {
  rp_LookupKey : string;
  rp_PriceID : string;
  rp_ProductID : string;
  rp_Active : bool;
}.

Record Cache := mkCache { byKey : smap; cc_warmed : bool }.
Definition NewCache : Cache := mkCache ∅ false.

Inductive warm_error := WarmList (msg : string) | WarmMissing (keys : list string).

Section cache.
Context `{GoRuntime}.
Context (ListByLookupKeys : list string -> res string (list ResolvedPrice)).

(** [next[p.LookupKey] = p.PriceID] for every active price, in order. *)
Fixpoint fill (resolved : list ResolvedPrice) (next : smap) : smap :=
  match resolved with
  | [] => next
  | p :: rest =>
      fill rest (if rp_Active p then <[rp_LookupKey p := rp_PriceID p]> next else next)
  end.

Definition missing_keys (next : smap) (keys : list string) : list string :=
  List.filter (fun k => match next !! k with Some _ => false | None => true end) keys.

Definition Warm (spec : Spec) (c : Cache) : option warm_error * Cache :=
  match AllLookupKeys spec with
  | [] => (None, mkCache (byKey c) true)
  | keys =>
      match ListByLookupKeys keys with
      | Err e => (Some (WarmList e), c)
      | Ok resolved =>
          let next := fill resolved ∅ in
          match missing_keys next keys with
          | [] => (None, mkCache next true)
          | missing => (Some (WarmMissing missing), c)
          end
      end
  end.

Definition Refresh (spec : Spec) (c : Cache) : option warm_error * Cache := Warm spec c.
Definition Lookup (c : Cache) (namespacedKey : string) : option string := byKey c !! namespacedKey.
Definition Warmed (c : Cache) : bool := cc_warmed c.

Fixpoint find_value (id : string) (l : list (string * string)) : option string :=
  match l with
  | [] => None
  | (k, v) :: rest => if String.eqb v id then Some k else find_value id rest
  end.
Definition PriceKeyByStripeID (c : Cache) (stripeID : string) : option string :=
  find_value stripeID (map_range (byKey c)).

(** ** Facts *)

(** The ids of the active prices listed under a key, the last one first. *)
Definition listed (k : string) (resolved : list ResolvedPrice) : list string :=
  map rp_PriceID (List.filter (fun p => rp_Active p && String.eqb (rp_LookupKey p) k) resolved).

Lemma fill_lookup resolved next k :
  fill resolved next !! k = match last (listed k resolved) with Some id => Some id | None => next !! k end.
Proof.
  revert next. induction resolved as [|p rest IH]; intros next; [done|]. cbn [fill]. rewrite IH.
  unfold listed. cbn [List.filter]. destruct (rp_Active p); cbn [andb]; [|done].
  destruct (String.eqb_spec (rp_LookupKey p) k) as [<-|Hk]; cbn [map].
  - rewrite last_cons. destruct (last _); [done|]. by rewrite lookup_insert_eq.
  - destruct (last _); [done|]. by rewrite lookup_insert_ne.
Qed.

Lemma missing_nil next keys :
  missing_keys next keys = [] -> forall k, k ∈ keys -> is_Some (next !! k).
Proof.
  unfold missing_keys. induction keys as [|k keys IH]; cbn; intros E k' Hk'.
  - by apply not_elem_of_nil in Hk'.
  - destruct (next !! k) eqn:Ek; [|done]. apply elem_of_cons in Hk' as [->|Hk']; [by eexists|auto].
Qed.

Lemma find_value_spec id l k : find_value id l = Some k -> (k, id) ∈ l.
Proof.
  induction l as [|[k' v] l IH]; cbn; [done|]. destruct (String.eqb_spec v id) as [->|];
    [intros [= ->]; by left|]. right. auto.
Qed.
Lemma find_value_None id l : find_value id l = None -> forall k, (k, id) ∉ l.
Proof.
  induction l as [|[k' v] l IH]; cbn; intros E k Hk; [by apply not_elem_of_nil in Hk|].
  destruct (String.eqb_spec v id) as [->|Hv]; [done|].
  apply elem_of_cons in Hk as [[= -> ->]|Hk]; [done|]. by eapply IH.
Qed.

(** The reverse direction answers with a key that leads back to the id, and answers
    whenever there is one. *)
Lemma PriceKeyByStripeID_spec c id :
  match PriceKeyByStripeID c id with
  | Some k => Lookup c k = Some id
  | None => forall k, Lookup c k <> Some id
  end.
Proof.
  unfold PriceKeyByStripeID, Lookup. destruct (find_value id (map_range (byKey c))) as [k|] eqn:E.
  - apply find_value_spec in E. by apply map_range_elem.
  - intros k Hk. apply (find_value_None _ _ E k). by apply map_range_elem.
Qed.

(** Warming is all or nothing. When [Warm] succeeds, the cache is warmed and every
    lookup key of the catalog resolves to an active price Stripe listed under it, from
    which the reverse lookup finds a key of the same price; when it fails, the cache is
    what it was, and either the listing failed or the reported keys are exactly the
    catalog's keys without an active price. *)
Theorem Warm_correct spec c :
  let '(err, c') := Warm spec c in
  match err with
  | None =>
      Warmed c' = true /\
      forall k, k ∈ AllLookupKeys spec ->
        exists id resolved, ListByLookupKeys (AllLookupKeys spec) = Ok resolved /\
          Lookup c' k = Some id /\ id ∈ listed k resolved /\
          exists k', PriceKeyByStripeID c' id = Some k' /\ Lookup c' k' = Some id
  | Some (WarmList e) => c' = c /\ ListByLookupKeys (AllLookupKeys spec) = Err e
  | Some (WarmMissing missing) =>
      c' = c /\ exists resolved, ListByLookupKeys (AllLookupKeys spec) = Ok resolved /\
        missing <> [] /\
        forall k, k ∈ missing <-> k ∈ AllLookupKeys spec /\ listed k resolved = []
  end.
Proof.
  unfold Warm. destruct (AllLookupKeys spec) as [|k0 ks] eqn:Ek.
  { split; [done|]. intros k Hk. by apply not_elem_of_nil in Hk. }
  destruct (ListByLookupKeys (k0 :: ks)) as [resolved|e]; [|done].
  assert (L : forall k, fill resolved ∅ !! k = last (listed k resolved)).
  { intros k. rewrite fill_lookup. destruct (last _); [done|]. by rewrite lookup_empty. }
  destruct (missing_keys (fill resolved ∅) (k0 :: ks)) as [|m ms] eqn:Em.
  - split; [done|]. intros k Hk. destruct (missing_nil _ _ Em k Hk) as [id Hid].
    exists id, resolved. split; [done|]. split; [done|]. split.
    { rewrite L in Hid. by apply last_Some_elem_of. }
    pose proof (PriceKeyByStripeID_spec (mkCache (fill resolved ∅) true) id) as P.
    destruct (PriceKeyByStripeID _ id) as [k'|]; [by exists k'|]. by destruct (P k).
  - split; [done|]. exists resolved. split; [done|]. split; [done|]. intros k.
    rewrite <- Em. unfold missing_keys. rewrite !list_elem_of_In, filter_In.
    f_equiv. rewrite L. destruct (last (listed k resolved)) eqn:El.
    + split; [done|]. intros E. by rewrite E in El.
    + by rewrite last_None in El.
Qed.
End cache.
