(* ===== verification/CatalogSync.v ===== *)
(** * CatalogSync: bringing Stripe in line with the catalog
      (src/catalog/backend.go, diff.go, sync.go, drift.go).

    [Diff] compares the catalog with a listing of Stripe's products and prices and
    yields a plan, [Apply] runs a plan call by call, [CheckDrift] reports one. The
    backend is an interface over its state. A [Reason] is kept as its format with the
    arguments, and an error of [Apply] as what it names before the backend's error; the
    rendering of plans and reports as text is left out. An index out of range is [None]. *)
From S2P Require Import Prelude CatalogSpec Events.

(** ** Data (backend.go, diff.go) *)
Record ExistingPrice := mkExPrice {
  ep_ID : string; ep_LookupKey : string; ep_Active : bool; ep_Amount : Z; ep_Currency : string;
  ep_Type : string; ep_Interval : string; ep_IntervalCount : Z; ep_Metadata : smap }.
Record ExistingProduct := mkExProduct {
  xp_ID : string; xp_Name : string; xp_TaxCode : string; xp_Active : bool; xp_Description : string;
  xp_Metadata : smap; xp_Prices : list ExistingPrice }.
Definition ExistingProduct_zero : ExistingProduct := mkExProduct "" "" "" false "" ∅ [].
Record NewProduct := mkNewProduct {
  np_ID : string; np_Name : string; np_TaxCode : string; np_Description : string; np_Metadata : smap }.
Record NewPrice := mkNewPrice {
  nr_ProductID : string; nr_LookupKey : string; nr_Amount : Z; nr_Currency : string; nr_Type : string;
  nr_Interval : string; nr_IntervalCount : Z; nr_Metadata : smap; nr_TransferLookupKey : bool;
  nr_TaxBehavior : string; nr_TaxRateOverrides : list string }.
Record ProductUpdate := mkProductUpdate { pu_Name : string; pu_Description : string; pu_Metadata : smap }.
Record ExistingMeter := mkExMeter {
  xm_ID : string; xm_EventName : string; xm_DisplayName : string; xm_AggregateBy : string; xm_Active : bool }.
Record NewMeter := mkNewMeter { nm_EventName : string; nm_DisplayName : string; nm_AggregateBy : string }.

Inductive PlanOp := OpCreate | OpUpdate | OpReplace | OpArchive | OpUnarchive | OpDrift.
Inductive PlanKind := KindProduct | KindPrice | KindMeter.
#[export] Instance PlanOp_eq_dec : EqDecision PlanOp.
Proof. solve_decision. Defined.
#[export] Instance PlanKind_eq_dec : EqDecision PlanKind.
Proof. solve_decision. Defined.

Inductive reason :=
| ProductMissing | ProductArchived | ProductGone | PriceMissing | PriceGone | MeterMissing | MeterGone
| NameChanged (old new : string) | DescriptionChanged | ProductChanged
| AmountChanged (old new : Z) | CurrencyChanged (old new : string) | TypeChanged (old new : string)
| IntervalChanged (old new : string) | IntervalCountChanged (old new : Z) | PriceChanged.

Record PlanItem := mkItem {
  it_Op : PlanOp; it_Kind : PlanKind; it_Key : string; it_Reason : reason;
  it_NewProduct : option NewProduct; it_ExistingProduct : option ExistingProduct;
  it_NewPrice : option NewPrice; it_ExistingPrice : option ExistingPrice;
  it_NewMeter : option NewMeter; it_ExistingMeter : option ExistingMeter }.
Record Plan := mkPlan { pl_Namespace : string; pl_Items : list PlanItem }.

(** ** Helpers *)
Definition namespacedMetadata (namespace : string) (base : smap) : smap :=
  <[MetadataKeyNamespace := namespace]> base.

Definition priceNeedsReplace (p : Price) (existing : ExistingPrice) : bool :=
  if negb (ep_Active existing) then true
  else if negb (pr_Amount p =? ep_Amount existing) then true
  else if negb (String.eqb (pr_Currency p) (ep_Currency existing)) then true
  else if negb (String.eqb (pr_Type p) (ep_Type existing)) then true
  else if String.eqb (pr_Type p) PriceTypeRecurring then
    if negb (String.eqb (pr_Interval p) (ep_Interval existing)) then true
    else negb (pr_IntervalCount p =? ep_IntervalCount existing)
  else false.
Definition priceReplaceReason (p : Price) (e : ExistingPrice) : reason :=
  if negb (pr_Amount p =? ep_Amount e) then AmountChanged (ep_Amount e) (pr_Amount p)
  else if negb (String.eqb (pr_Currency p) (ep_Currency e)) then CurrencyChanged (ep_Currency e) (pr_Currency p)
  else if negb (String.eqb (pr_Type p) (ep_Type e)) then TypeChanged (ep_Type e) (pr_Type p)
  else if negb (String.eqb (pr_Interval p) (ep_Interval e)) then IntervalChanged (ep_Interval e) (pr_Interval p)
  else if negb (pr_IntervalCount p =? ep_IntervalCount e)
       then IntervalCountChanged (ep_IntervalCount e) (pr_IntervalCount p)
  else PriceChanged.
Definition productNeedsUpdate (p : Product) (existing : ExistingProduct) : bool :=
  negb (String.eqb (p_Name p) (xp_Name existing)) ||
  negb (String.eqb (p_Description p) (xp_Description existing)).
Definition productUpdateReason (p : Product) (e : ExistingProduct) : reason :=
  if negb (String.eqb (p_Name p) (xp_Name e)) then NameChanged (xp_Name e) (p_Name p)
  else if negb (String.eqb (p_Description p) (xp_Description e)) then DescriptionChanged
  else ProductChanged.

(** [strings.HasPrefix], then [strings.TrimPrefix]. *)
Definition trim_prefix (prefix s : string) : option string :=
  if has_prefix prefix s then Some (string_drop (String.length prefix) s) else None.
Definition existingProductKey (p : ExistingProduct) (namespace : string) : string :=
  default "" (trim_prefix ("prod_" ^^ namespace ^^ "_") (xp_ID p)).
(** [id[len("prod_"):]] panics on a shorter id. *)
Definition stripeProductSuffix (id : string) : option string :=
  if Nat.ltb (String.length id) 5 then None
  else match split_at "_" (string_drop 5 id) with
       | Some (_, rest) => Some rest
       | None => Some ""
       end.
Definition lookupKeyInSpec (spec : Spec) (lookupKey : string) : string :=
  match trim_prefix (Namespace spec ^^ ".") lookupKey with
  | None => ""
  | Some rest =>
      match split_at "." rest with
      | None => ""
      | Some (productKey, priceKey) =>
          match Products spec !! productKey with
          | None => ""
          | Some product =>
              match p_Prices product !! priceKey with
              | None => ""
              | Some _ => productKey ^^ "." ^^ priceKey
              end
          end
      end
  end.
Definition keyFromLookupKey (namespace lookupKey : string) : string :=
  default lookupKey (trim_prefix (namespace ^^ ".") lookupKey).

Section diff.
Context `{GoRuntime}.

Definition sortedKeys {V} (m : gmap string V) : list string :=
  sort_slice string_less (map fst (map_range m)).
Fixpoint product_suffixes (current : list ExistingProduct) (seen : gmap string unit)
  : option (gmap string unit) :=
  match current with
  | [] => Some seen
  | p :: rest =>
      match stripeProductSuffix (xp_ID p) with
      | None => None
      | Some k => product_suffixes rest (if String.eqb k "" then seen else <[k := tt]> seen)
      end
  end.
Definition sortedProductKeys (current : list ExistingProduct) : option (list string) :=
  match product_suffixes current ∅ with
  | None => None
  | Some seen => Some (sort_slice string_less (map fst (map_range seen)))
  end.

(** ** Diff *)
Definition index_products (current : list ExistingProduct) : gmap string ExistingProduct :=
  foldl (fun m p => <[xp_ID p := p]> m) ∅ current.
Definition index_prices (current : list ExistingProduct) : gmap string ExistingPrice :=
  foldl (fun m p => foldl (fun m price =>
    if String.eqb (ep_LookupKey price) "" then m else <[ep_LookupKey price := price]> m) m (xp_Prices p))
    ∅ current.

Definition new_product (spec : Spec) (productKey : string) (product : Product) : NewProduct :=
  mkNewProduct (NamespacedProductID spec productKey) (p_Name product) (p_TaxCategory product)
    (p_Description product) (namespacedMetadata (Namespace spec) (p_Metadata product)).
Definition new_price (spec : Spec) (productKey priceKey : string) (price : Price) (transfer : bool) : NewPrice :=
  mkNewPrice (NamespacedProductID spec productKey) (NamespacedPriceKey spec productKey priceKey)
    (pr_Amount price) (pr_Currency price) (pr_Type price) (pr_Interval price) (pr_IntervalCount price)
    (namespacedMetadata (Namespace spec) ∅) transfer (pr_TaxBehavior price) (pr_TaxRateOverrides price).

Definition product_item (op : PlanOp) (key : string) (r : reason) (n : option NewProduct)
    (e : option ExistingProduct) : PlanItem := mkItem op KindProduct key r n e None None None None.
Definition price_item (op : PlanOp) (key : string) (r : reason) (n : option NewPrice)
    (e : option ExistingPrice) : PlanItem := mkItem op KindPrice key r None None n e None None.
Definition meter_item (op : PlanOp) (key : string) (r : reason) (n : option NewMeter)
    (e : option ExistingMeter) : PlanItem := mkItem op KindMeter key r None None None None n e.

Definition diff_product (spec : Spec) (byID : gmap string ExistingProduct) (productKey : string)
    (product : Product) : list PlanItem :=
  match byID !! NamespacedProductID spec productKey with
  | None =>
      [product_item OpCreate productKey ProductMissing (Some (new_product spec productKey product)) None]
  | Some existing =>
      if xp_Active existing && productNeedsUpdate product existing then
        [product_item OpUpdate productKey (productUpdateReason product existing)
           (Some (new_product spec productKey product)) (Some existing)]
      else if negb (xp_Active existing) then
        [product_item OpUnarchive productKey ProductArchived None (Some existing)]
      else []
  end.
Definition diff_price (spec : Spec) (byKey : gmap string ExistingPrice) (productKey priceKey : string)
    (price : Price) : list PlanItem :=
  let itemKey := productKey ^^ "." ^^ priceKey in
  match byKey !! NamespacedPriceKey spec productKey priceKey with
  | None => [price_item OpCreate itemKey PriceMissing (Some (new_price spec productKey priceKey price false)) None]
  | Some existing =>
      if priceNeedsReplace price existing then
        [price_item OpReplace itemKey (priceReplaceReason price existing)
           (Some (new_price spec productKey priceKey price true)) (Some existing)]
      else []
  end.
(** Ranging over sorted keys and looking each one up. *)
Definition range_sorted {V} (m : gmap string V) (f : string -> V -> list PlanItem) : list PlanItem :=
  List.concat (map (fun k => match m !! k with Some v => f k v | None => [] end) (sortedKeys m)).
Definition diff_spec (spec : Spec) (current : list ExistingProduct) : list PlanItem :=
  range_sorted (Products spec) (fun productKey product =>
    diff_product spec (index_products current) productKey product ++
    range_sorted (p_Prices product) (fun priceKey price =>
      diff_price spec (index_prices current) productKey priceKey price)).

Fixpoint find_product (namespace productKey : string) (current : list ExistingProduct) : ExistingProduct :=
  match current with
  | [] => ExistingProduct_zero
  | p :: rest => if String.eqb (existingProductKey p namespace) productKey then p
                 else find_product namespace productKey rest
  end.
Definition archive_prices (spec : Spec) (prices : list ExistingPrice) : list PlanItem :=
  List.concat (map (fun ep =>
    if String.eqb (lookupKeyInSpec spec (ep_LookupKey ep)) "" && ep_Active ep then
      [price_item OpArchive (keyFromLookupKey (Namespace spec) (ep_LookupKey ep)) PriceGone None (Some ep)]
    else []) prices).
Definition diff_current (spec : Spec) (current : list ExistingProduct) (productKey : string) : list PlanItem :=
  let existing := find_product (Namespace spec) productKey current in
  (match Products spec !! productKey with
   | None => if xp_Active existing then [product_item OpArchive productKey ProductGone None (Some existing)] else []
   | Some _ => []
   end) ++ archive_prices spec (xp_Prices existing).

Definition Diff (spec : Spec) (current : list ExistingProduct) : option Plan :=
  match sortedProductKeys current with
  | None => None
  | Some keys =>
      Some (mkPlan (Namespace spec)
        (diff_spec spec current ++ List.concat (map (diff_current spec current) keys)))
  end.

(** ** Meters *)
Definition index_meters (current : list ExistingMeter) : gmap string ExistingMeter :=
  foldl (fun m x => <[xm_EventName x := x]> m) ∅ current.
Definition diff_meter (spec : Spec) (byEvent : gmap string ExistingMeter) (meterKey : string) (m : Meter)
  : list PlanItem :=
  let event := Namespace spec ^^ "." ^^ m_EventName m in
  match byEvent !! event with
  | None => [meter_item OpCreate meterKey MeterMissing
               (Some (mkNewMeter event (m_DisplayName m) (m_AggregateBy m))) None]
  | Some _ => []
  end.
Definition archive_meter (spec : Spec) (m : ExistingMeter) : list PlanItem :=
  match trim_prefix (Namespace spec ^^ ".") (xm_EventName m) with
  | None => []
  | Some shortName =>
      let declared := existsb (fun '(_, sm) => String.eqb (m_EventName sm) shortName) (map_range (Meters spec)) in
      if negb declared && xm_Active m then [meter_item OpArchive shortName MeterGone None (Some m)] else []
  end.
Definition DiffWithMeters (spec : Spec) (products : list ExistingProduct) (meters : list ExistingMeter)
  : option Plan :=
  match Diff spec products with
  | None => None
  | Some plan =>
      Some (mkPlan (pl_Namespace plan)
        (pl_Items plan ++ range_sorted (Meters spec) (diff_meter spec (index_meters meters)) ++
         List.concat (map (archive_meter spec) meters)))
  end.

Definition Empty (p : Plan) : bool :=
  negb (existsb (fun it => negb (bool_decide (it_Op it = OpDrift))) (pl_Items p)).
End diff.

(** ** Apply (sync.go) *)
Class Backend (B : Type) := {
  bk_ListProductsByNamespace : string -> B -> res string (list ExistingProduct);
  bk_CreateProduct : NewProduct -> B -> option string * B;
  bk_UpdateProduct : string -> ProductUpdate -> B -> option string * B;
  bk_UpdateProductActive : string -> bool -> B -> option string * B;
  bk_CreatePrice : NewPrice -> B -> option string * B;
  bk_UpdatePriceActive : string -> bool -> B -> option string * B;
  bk_ListMetersByNamespace : string -> B -> res string (list ExistingMeter);
  bk_CreateMeter : NewMeter -> B -> option string * B;
  bk_ArchiveMeter : string -> B -> option string * B;
}.

Section apply.
Context {B : Type} `{Backend B}.

Definition itemsByOpKind (items : list PlanItem) (op : PlanOp) (kind : PlanKind) : list PlanItem :=
  List.filter (fun it => bool_decide (it_Op it = op) && bool_decide (it_Kind it = kind)) items.

(** An error: the step, the key of the item and what the backend said. *)
Record apply_error := mkApplyError { ae_step : string; ae_Key : string; ae_err : string }.
Abbreviation step := (B -> option apply_error * B).
Definition wrap (what : string) (it : PlanItem) (r : option string * B) : option apply_error * B :=
  match r with (Some e, b) => (Some (mkApplyError what (it_Key it) e), b) | (None, b) => (None, b) end.

(** A loop that stops at the first error, and the next loop. *)
Fixpoint each (f : PlanItem -> step) (items : list PlanItem) (b : B) : option apply_error * B :=
  match items with
  | [] => (None, b)
  | it :: rest => match f it b with (Some e, b') => (Some e, b') | (None, b') => each f rest b' end
  end.
Definition and_then (r : option apply_error * B) (k : step) : option apply_error * B :=
  match r with (Some e, b) => (Some e, b) | (None, b) => k b end.

(** Dereferencing a field an item of its kind always has; nil panics. *)
Definition deref {A} (o : option A) (f : A -> B -> option string * B) (b : B) : option string * B :=
  match o with Some a => f a b | None => (Some "panic: nil pointer", b) end.

Definition apply_create_product (it : PlanItem) : step := fun b =>
  wrap "create product" it (deref (it_NewProduct it) bk_CreateProduct b).
Definition apply_unarchive_product (it : PlanItem) : step := fun b =>
  wrap "unarchive product" it
    (deref (it_ExistingProduct it) (fun e => bk_UpdateProductActive (xp_ID e) true) b).
Definition apply_update_product (it : PlanItem) : step := fun b =>
  wrap "update product" it
    (deref (it_NewProduct it) (fun n => deref (it_ExistingProduct it) (fun e =>
       bk_UpdateProduct (xp_ID e) (mkProductUpdate (np_Name n) (np_Description n) (np_Metadata n)))) b).
Definition apply_create_price (it : PlanItem) : step := fun b =>
  wrap "create price" it (deref (it_NewPrice it) bk_CreatePrice b).
Definition apply_replace_price (it : PlanItem) : step := fun b =>
  and_then (wrap "replace (create new) price" it (deref (it_NewPrice it) bk_CreatePrice b))
    (fun b => wrap "replace (archive old) price" it
       (deref (it_ExistingPrice it) (fun e => bk_UpdatePriceActive (ep_ID e) false) b)).
Definition apply_archive_price (it : PlanItem) : step := fun b =>
  wrap "archive price" it (deref (it_ExistingPrice it) (fun e => bk_UpdatePriceActive (ep_ID e) false) b).
Definition apply_archive_product (it : PlanItem) : step := fun b =>
  wrap "archive product" it
    (deref (it_ExistingProduct it) (fun e => bk_UpdateProductActive (xp_ID e) false) b).
Definition apply_create_meter (it : PlanItem) : step := fun b =>
  wrap "create meter" it (deref (it_NewMeter it) bk_CreateMeter b).
Definition apply_archive_meter (it : PlanItem) : step := fun b =>
  wrap "archive meter" it (deref (it_ExistingMeter it) (fun e => bk_ArchiveMeter (xm_ID e)) b).

(** The loops of [Apply], in order. *)
Definition phases : list (PlanOp * PlanKind * (PlanItem -> step)) :=
  [ (OpCreate, KindProduct, apply_create_product); (OpUnarchive, KindProduct, apply_unarchive_product);
    (OpUpdate, KindProduct, apply_update_product); (OpCreate, KindPrice, apply_create_price);
    (OpReplace, KindPrice, apply_replace_price); (OpArchive, KindPrice, apply_archive_price);
    (OpArchive, KindProduct, apply_archive_product); (OpCreate, KindMeter, apply_create_meter);
    (OpArchive, KindMeter, apply_archive_meter) ].
Fixpoint run_phases (ps : list (PlanOp * PlanKind * (PlanItem -> step)))
    (items : list PlanItem) (b : B) : option apply_error * B :=
  match ps with
  | [] => (None, b)
  | (op, kind, f) :: rest => and_then (each f (itemsByOpKind items op kind) b) (run_phases rest items)
  end.
Definition Apply (plan : Plan) (b : B) : option apply_error * B := run_phases phases (pl_Items plan) b.

(** ** Drift (drift.go) *)
Record DriftReport := mkDrift {
  dr_Namespace : string; dr_CheckedAt : Z; dr_Items : list PlanItem; dr_HasDrift : bool }.
Inductive drift_error := ListProducts (msg : string) | ListMeters (msg : string) | DiffPanic.

Definition CheckDrift `{GoRuntime} (now : Z) (spec : Spec) (b : B) : res drift_error DriftReport :=
  match bk_ListProductsByNamespace (Namespace spec) b with
  | Err e => Err (ListProducts e)
  | Ok products =>
      match bk_ListMetersByNamespace (Namespace spec) b with
      | Err e => Err (ListMeters e)
      | Ok meters =>
          match DiffWithMeters spec products meters with
          | None => Err DiffPanic
          | Some plan => Ok (mkDrift (Namespace spec) now (pl_Items plan) (negb (Empty plan)))
          end
      end
  end.
Definition report_Apply (r : DriftReport) (b : B) : option apply_error * B :=
  if negb (dr_HasDrift r) then (None, b) else Apply (mkPlan "" (dr_Items r)) b.
End apply.
