(* ===== verification/CatalogSyncFacts.v ===== *)
(** * CatalogSyncFacts: the laws of Stripe, and a sync as the list of its calls.

    [StripeLaws] is what sync relies on of Stripe, as its API documents it: products
    by id, prices by id with their owner, lookup keys that belong to one price at a
    time, and what each call does when Stripe carries it out. *)
From S2P Require Import Prelude CatalogSpec Events CatalogSync.

(** What Diff looks at in a product: its name, description and activity. *)
Abbreviation pstate := (string * string * bool)%type.
Abbreviation products_map := (gmap string pstate).
(** A price with the product that owns it. *)
Abbreviation prices_map := (gmap string (string * ExistingPrice)).

Definition set_active (a : bool) (x : pstate) : pstate := (fst x, a).
Definition set_price_active (a : bool) (x : string * ExistingPrice) : string * ExistingPrice :=
  let e := snd x in
  (fst x, mkExPrice (ep_ID e) (ep_LookupKey e) a (ep_Amount e) (ep_Currency e) (ep_Type e) (ep_Interval e)
            (ep_IntervalCount e) (ep_Metadata e)).
Definition clear_key (key : string) (x : string * ExistingPrice) : string * ExistingPrice :=
  let e := snd x in
  if String.eqb (ep_LookupKey e) key then
    (fst x, mkExPrice (ep_ID e) "" (ep_Active e) (ep_Amount e) (ep_Currency e) (ep_Type e) (ep_Interval e)
              (ep_IntervalCount e) (ep_Metadata e))
  else x.
Definition update_product (u : ProductUpdate) (x : pstate) : pstate :=
  let '(name, desc, a) := x in
  (if String.eqb (pu_Name u) "" then name else pu_Name u,
   if String.eqb (pu_Description u) "" then desc else pu_Description u, a).

(** A price as created from [n]. *)
Definition price_from (n : NewPrice) (pid : string) (e : ExistingPrice) : Prop :=
  ep_ID e = pid /\ ep_LookupKey e = nr_LookupKey n /\ ep_Active e = true /\ ep_Amount e = nr_Amount n /\
  ep_Currency e = nr_Currency n /\
  (nr_Type n = PriceTypeRecurring -> ep_Type e = PriceTypeRecurring /\ ep_Interval e = nr_Interval n /\
     (0 < nr_IntervalCount n -> ep_IntervalCount e = nr_IntervalCount n)) /\
  (nr_Type n = PriceTypeOneTime -> ep_Type e = PriceTypeOneTime).

(** One call that changes Stripe, and what it does. *)
Inductive call :=
| KCreateProduct (n : NewProduct)
| KUpdateProduct (id : string) (u : ProductUpdate)
| KProductActive (id : string) (a : bool)
| KCreatePrice (n : NewPrice)
| KPriceActive (pid : string) (a : bool)
| KMeter.

Abbreviation maps := (products_map * prices_map)%type.
Definition effect (c : call) (s s' : maps) : Prop :=
  let '(P, R) := s in
  match c with
  | KCreateProduct n => P !! np_ID n = None /\ s' = (<[np_ID n := (np_Name n, np_Description n, true)]> P, R)
  | KUpdateProduct id u => s' = (alter (update_product u) id P, R)
  | KProductActive id a => s' = (alter (set_active a) id P, R)
  | KCreatePrice n =>
      exists pid e, R !! pid = None /\ price_from n pid e /\
        (nr_TransferLookupKey n = false -> forall i o x, R !! i = Some (o, x) -> ep_LookupKey x <> nr_LookupKey n) /\
        s' = (P, <[pid := (nr_ProductID n, e)]> (clear_key (nr_LookupKey n) <$> R))
  | KPriceActive pid a => s' = (P, alter (set_price_active a) pid R)
  | KMeter => s' = s
  end.

(** A listing of the products of a namespace. *)
Record lists (ns : string) (s : maps) (l : list ExistingProduct) : Prop := {
  ls_nodup : NoDup (map xp_ID l);
  ls_ids id : (exists p, p ∈ l /\ xp_ID p = id) <-> is_Some (fst s !! id) /\ has_prefix ("prod_" ^^ ns ^^ "_") id = true;
  ls_state p : p ∈ l -> fst s !! xp_ID p = Some (xp_Name p, xp_Description p, xp_Active p);
  ls_prices p e : p ∈ l -> e ∈ xp_Prices p <-> snd s !! ep_ID e = Some (xp_ID p, e);
}.

(** Of a call that succeeds: it has been carried out, which a call is whose idempotency key
    Stripe does not remember (StripeCatalogFacts). *)
Class StripeLaws (B : Type) `{Backend B} := {
  view : B -> maps;
  price_id b pid o e : snd (view b) !! pid = Some (o, e) -> ep_ID e = pid;
  price_owner b pid o e : snd (view b) !! pid = Some (o, e) -> is_Some (fst (view b) !! o);
  price_key b i j o o' e e' : snd (view b) !! i = Some (o, e) -> snd (view b) !! j = Some (o', e') ->
    ep_LookupKey e <> "" -> ep_LookupKey e = ep_LookupKey e' -> i = j;
  list_law ns b l : bk_ListProductsByNamespace ns b = Ok l -> lists ns (view b) l;
  create_product_law n b b' : bk_CreateProduct n b = (None, b') -> effect (KCreateProduct n) (view b) (view b');
  update_product_law id u b b' : bk_UpdateProduct id u b = (None, b') -> effect (KUpdateProduct id u) (view b) (view b');
  product_active_law id a b b' : bk_UpdateProductActive id a b = (None, b') -> effect (KProductActive id a) (view b) (view b');
  create_price_law n b b' : bk_CreatePrice n b = (None, b') -> effect (KCreatePrice n) (view b) (view b');
  price_active_law pid a b b' : bk_UpdatePriceActive pid a b = (None, b') -> effect (KPriceActive pid a) (view b) (view b');
  create_meter_law n b b' : bk_CreateMeter n b = (None, b') -> effect KMeter (view b) (view b');
  archive_meter_law id b b' : bk_ArchiveMeter id b = (None, b') -> effect KMeter (view b) (view b');
}.

(** ** Runs of calls *)
Inductive run : list call -> maps -> maps -> Prop :=
| run_nil s : run [] s s
| run_cons c cs s s1 s2 : effect c s s1 -> run cs s1 s2 -> run (c :: cs) s s2.

Lemma run_app cs1 cs2 s s1 s2 : run cs1 s s1 -> run cs2 s1 s2 -> run (cs1 ++ cs2) s s2.
Proof. induction 1; cbn; [done|]. intros. econstructor; eauto. Qed.

Lemma run_app_inv cs1 cs2 s s2 : run (cs1 ++ cs2) s s2 -> exists s1, run cs1 s s1 /\ run cs2 s1 s2.
Proof.
  revert s. induction cs1 as [|c cs1 IH]; intros s Hr; cbn in Hr; [eexists; split; [constructor|done]|].
  inversion Hr as [|? ? ? s1 ? He Hrest]; subst. destruct (IH _ Hrest) as (s' & Hr1 & Hr2).
  exists s'. split; [by econstructor|done].
Qed.

Lemma run_preserve (Q : maps -> Prop) cs s s' :
  (forall c t t', c ∈ cs -> effect c t t' -> Q t -> Q t') -> run cs s s' -> Q s -> Q s'.
Proof.
  intros Hp Hr. induction Hr as [|c cs s s1 s2 He _ IH]; [done|]. intros Hq. apply IH.
  - intros c' t t' Hc. apply Hp. by right.
  - eapply Hp; [|done|done]. by left.
Qed.

Lemma run_establish (I Q : maps -> Prop) c cs s s' :
  c ∈ cs -> (forall t t', effect c t t' -> I t -> Q t') ->
  (forall c t t', c ∈ cs -> effect c t t' -> I t -> I t') ->
  (forall c t t', c ∈ cs -> effect c t t' -> Q t -> Q t') ->
  run cs s s' -> I s -> Q s'.
Proof.
  intros Hin He HI HQ Hr Hs. apply list_elem_of_split in Hin as (cs1 & cs2 & ->).
  apply run_app_inv in Hr as (s1 & H1 & H2).
  inversion H2 as [|? ? ? s2 ? Heff Hrest]; subst. eapply run_preserve; [|done|].
  - intros c' t t' Hc. apply HQ. apply elem_of_app. right. by right.
  - eapply He; [done|]. eapply run_preserve; [|done|done].
    intros c' t t' Hc. apply HI. apply elem_of_app. by left.
Qed.

(** ** The calls of a plan *)
Definition item_calls (op : PlanOp) (kind : PlanKind) (it : PlanItem) : list call :=
  match op, kind with
  | OpCreate, KindProduct => match it_NewProduct it with Some n => [KCreateProduct n] | None => [] end
  | OpUnarchive, KindProduct =>
      match it_ExistingProduct it with Some e => [KProductActive (xp_ID e) true] | None => [] end
  | OpUpdate, KindProduct =>
      match it_NewProduct it, it_ExistingProduct it with
      | Some n, Some e => [KUpdateProduct (xp_ID e) (mkProductUpdate (np_Name n) (np_Description n) (np_Metadata n))]
      | _, _ => []
      end
  | OpCreate, KindPrice => match it_NewPrice it with Some n => [KCreatePrice n] | None => [] end
  | OpReplace, KindPrice =>
      match it_NewPrice it, it_ExistingPrice it with
      | Some n, Some e => [KCreatePrice n; KPriceActive (ep_ID e) false]
      | _, _ => []
      end
  | OpArchive, KindPrice =>
      match it_ExistingPrice it with Some e => [KPriceActive (ep_ID e) false] | None => [] end
  | OpArchive, KindProduct =>
      match it_ExistingProduct it with Some e => [KProductActive (xp_ID e) false] | None => [] end
  | _, KindMeter => [KMeter]
  | _, _ => []
  end.
Definition order : list (PlanOp * PlanKind) :=
  [ (OpCreate, KindProduct); (OpUnarchive, KindProduct); (OpUpdate, KindProduct); (OpCreate, KindPrice);
    (OpReplace, KindPrice); (OpArchive, KindPrice); (OpArchive, KindProduct); (OpCreate, KindMeter);
    (OpArchive, KindMeter) ].
Definition plan_calls (items : list PlanItem) : list call :=
  List.concat (map (fun '(op, kind) =>
    List.concat (map (item_calls op kind) (itemsByOpKind items op kind))) order).

Section laws.
Context {B : Type} `{StripeLaws B}.

Lemma each_run op kind f items b b' :
  (forall it b b', f it b = (None, b') -> run (item_calls op kind it) (view b) (view b')) ->
  each f items b = (None, b') -> run (List.concat (map (item_calls op kind) items)) (view b) (view b').
Proof.
  intros Hf. revert b. induction items as [|it items IH]; intros b; cbn.
  - intros [= <-]. constructor.
  - destruct (f it b) as [[e|] b1] eqn:E; [done|]. intros Hr. eapply run_app; eauto.
Qed.

Lemma run_one c s s' : effect c s s' -> run [c] s s'.
Proof. intros. econstructor; [done|constructor]. Qed.

Lemma wrap_None what it (r : option string * B) b' : wrap what it r = (None, b') -> r = (None, b').
Proof. destruct r as [[e|] b]; [done|]. by intros [= <-]. Qed.

Lemma phase_runs op kind f :
  (op, kind, f) ∈ phases ->
  forall it b b', f it b = (None, b') -> run (item_calls op kind it) (view b) (view b').
Proof.
  unfold phases. rewrite !elem_of_cons, elem_of_nil. intros Hin it b b' Hf.
  repeat (destruct Hin as [[= -> -> ->]|Hin]); [..|done]; cbn;
    unfold apply_create_product, apply_unarchive_product, apply_update_product, apply_replace_price,
      apply_create_price, apply_archive_price, apply_archive_product, apply_create_meter,
      apply_archive_meter in Hf; try apply wrap_None in Hf; unfold deref in Hf.
  - destruct (it_NewProduct it); [|done]. by apply run_one, create_product_law.
  - destruct (it_ExistingProduct it); [|done]. by apply run_one, product_active_law.
  - destruct (it_NewProduct it); [|done]. destruct (it_ExistingProduct it); [|done].
    by apply run_one, update_product_law.
  - destruct (it_NewPrice it); [|done]. by apply run_one, create_price_law.
  - destruct (it_NewPrice it) as [n|]; [|done]. cbn in Hf.
    destruct (bk_CreatePrice n b) as [[e|] b1] eqn:E; [done|]. cbn in Hf. apply wrap_None in Hf.
    destruct (it_ExistingPrice it); [|done]. econstructor; [by apply create_price_law|].
    by apply run_one, price_active_law.
  - destruct (it_ExistingPrice it); [|done]. by apply run_one, price_active_law.
  - destruct (it_ExistingProduct it); [|done]. by apply run_one, product_active_law.
  - destruct (it_NewMeter it); [|done]. by eapply run_one, create_meter_law.
  - destruct (it_ExistingMeter it); [|done]. by eapply run_one, archive_meter_law.
Qed.

Lemma apply_run plan b b' : Apply plan b = (None, b') -> run (plan_calls (pl_Items plan)) (view b) (view b').
Proof.
  unfold Apply, plan_calls.
  assert (G : forall ps, (forall x, x ∈ ps -> x ∈ phases) -> forall b, run_phases ps (pl_Items plan) b = (None, b') ->
    run (List.concat (map (fun '(op, kind) =>
      List.concat (map (item_calls op kind) (itemsByOpKind (pl_Items plan) op kind))) (map fst ps))) (view b) (view b')).
  { induction ps as [|[[op kind] f] ps IH]; intros Hin b0; cbn.
    - intros [= <-]. constructor.
    - unfold and_then. destruct (each f _ b0) as [[e|] b1] eqn:E; [done|]. intros Hr.
      eapply run_app; [|apply IH; [|done]].
      + eapply each_run; [|done]. apply phase_runs, Hin. by left.
      + intros x Hx. apply Hin. by right. }
  intros Hr. by apply (G phases).
Qed.
End laws.
