(* ===== verification/CatalogSyncTheorems.v ===== *)
(** * CatalogSyncTheorems: what a plan contains.

    Keys and ids read back, the indexes of [Diff] are what they index, [Diff_items] is
    the plan item by item, and a plan creates at most one price per lookup key. *)
From S2P Require Import Prelude CatalogSpec Events CatalogSync CatalogSyncFacts.

(** ** Keys and ids *)
Lemma trim_append p s : trim_prefix p (p ^^ s) = Some s.
Proof. unfold trim_prefix, has_prefix. by rewrite prefix_append, drop_append. Qed.
Lemma trim_spec p s r : trim_prefix p s = Some r -> s = p ^^ r.
Proof. unfold trim_prefix. destruct (has_prefix p s) eqn:E; [|done]. intros [= <-]. by apply prefix_spec. Qed.

Lemma product_id_inj spec k k' : NamespacedProductID spec k = NamespacedProductID spec k' -> k = k'.
Proof. unfold NamespacedProductID. apply append_inj_l. Qed.

Lemma product_id_key spec p k :
  xp_ID p = NamespacedProductID spec k -> existingProductKey p (Namespace spec) = k.
Proof. unfold existingProductKey, NamespacedProductID. intros ->. by rewrite trim_append. Qed.

Lemma listed_id spec id :
  has_prefix ("prod_" ^^ Namespace spec ^^ "_") id = true <-> exists k, id = NamespacedProductID spec k.
Proof.
  unfold NamespacedProductID. split.
  - intros Hp. eexists. by apply prefix_spec.
  - intros [k ->]. apply prefix_append.
Qed.

Lemma suffix_id spec k :
  string_has "_" (Namespace spec) = false -> stripeProductSuffix (NamespacedProductID spec k) = Some k.
Proof.
  intros Hns. unfold stripeProductSuffix, NamespacedProductID. rewrite !append_assoc.
  rewrite length_append. cbn [String.length Nat.ltb Nat.leb Nat.add].
  rewrite (drop_append "prod_"). cbn [String.append]. by rewrite split_at_append.
Qed.

Lemma declared_key spec pk prk product price :
  keyRegex pk = true -> Products spec !! pk = Some product -> p_Prices product !! prk = Some price ->
  lookupKeyInSpec spec (NamespacedPriceKey spec pk prk) <> "".
Proof.
  intros Hk Hp Hr. unfold lookupKeyInSpec, NamespacedPriceKey.
  replace (Namespace spec ^^ "." ^^ pk ^^ "." ^^ prk) with ((Namespace spec ^^ ".") ^^ (pk ^^ String "." prk))
    by (rewrite !append_assoc; done).
  rewrite trim_append, split_at_append by (by apply keyRegex_dot). rewrite Hp, Hr. by destruct pk.
Qed.
Lemma declared_key_inv spec lk :
  lookupKeyInSpec spec lk <> "" -> exists pk prk product price,
    Products spec !! pk = Some product /\ p_Prices product !! prk = Some price /\
    lk = NamespacedPriceKey spec pk prk.
Proof.
  unfold lookupKeyInSpec. destruct (trim_prefix _ lk) as [rest|] eqn:Et; [|done].
  destruct (split_at "." rest) as [[pk prk]|] eqn:Es; [|done].
  destruct (Products spec !! pk) as [product|] eqn:Ep; [|done].
  destruct (p_Prices product !! prk) as [price|] eqn:Er; [|done]. intros _.
  exists pk, prk, product, price. split; [done|]. split; [done|].
  apply trim_spec in Et. apply split_at_spec in Es as [-> _]. rewrite Et.
  unfold NamespacedPriceKey. by rewrite !append_assoc.
Qed.

Section diff_facts.
Context `{GoRuntime}.

Lemma sortedKeys_elem {V} (m : gmap string V) k : k ∈ sortedKeys m <-> is_Some (m !! k).
Proof.
  unfold sortedKeys. rewrite sort_slice_perm, elem_of_map. split.
  - intros ([k' v] & -> & Hin). apply map_range_elem in Hin. by eexists.
  - intros [v Hv]. exists (k, v). split; [done|]. by apply map_range_elem.
Qed.
Lemma sortedKeys_nodup {V} (m : gmap string V) : NoDup (sortedKeys m).
Proof. unfold sortedKeys. rewrite sort_slice_perm. apply map_range_keys. Qed.

Lemma in_concat_map {A B} (f : A -> list B) l y :
  y ∈ List.concat (map f l) <-> exists x, x ∈ l /\ y ∈ f x.
Proof.
  rewrite list_elem_of_In, in_concat. split.
  - intros (l' & Hl & Hy). apply in_map_iff in Hl as (x & <- & Hx). exists x. by rewrite !list_elem_of_In.
  - intros (x & Hx & Hy). exists (f x). rewrite list_elem_of_In in Hx. rewrite list_elem_of_In in Hy.
    split; [|done]. by apply in_map.
Qed.
Lemma concat_map_nil {A B} (f : A -> list B) l : (forall x, x ∈ l -> f x = []) -> List.concat (map f l) = [].
Proof.
  induction l as [|x l IH]; intros Hf; [done|]. cbn. rewrite Hf by (by left). apply IH.
  intros y Hy. apply Hf. by right.
Qed.

Lemma range_sorted_elem {V} (m : gmap string V) f it :
  it ∈ range_sorted m f <-> exists k v, m !! k = Some v /\ it ∈ f k v.
Proof.
  unfold range_sorted. rewrite in_concat_map. split.
  - intros (k & _ & Hit). destruct (m !! k) as [v|] eqn:E; [|by apply not_elem_of_nil in Hit]. by exists k, v.
  - intros (k & v & E & Hit). exists k. rewrite sortedKeys_elem, E. split; [by eexists|done].
Qed.
Lemma range_sorted_nil {V} (m : gmap string V) f : (forall k v, m !! k = Some v -> f k v = []) -> range_sorted m f = [].
Proof. intros Hf. apply concat_map_nil. intros k _. destruct (m !! k) eqn:E; auto. Qed.

(** ** The indexes *)
Lemma index_products_spec l id p :
  NoDup (map xp_ID l) -> index_products l !! id = Some p <-> p ∈ l /\ xp_ID p = id.
Proof.
  unfold index_products. induction l as [|x l IH] using rev_ind; intros Hn.
  - cbn. rewrite lookup_empty. split; [done|]. intros [Hin _]. by apply not_elem_of_nil in Hin.
  - rewrite foldl_app. cbn. rewrite map_app in Hn. apply NoDup_app in Hn as (Hn & Hd & _).
    rewrite elem_of_app, list_elem_of_singleton. destruct (decide (xp_ID x = id)) as [<-|Hne].
    + rewrite lookup_insert_eq. split; [intros [= ->]; auto|]. intros [[Hin| ->] Hid]; [|done].
      exfalso. apply (Hd (xp_ID p)); [apply elem_of_map; eauto|]. rewrite Hid. by left.
    + rewrite lookup_insert_ne by done. rewrite IH by done. split; [intros [? ?]; auto|].
      intros [[Hin| ->] Hid]; [done|]. by destruct Hne.
Qed.

Definition all_prices (l : list ExistingProduct) : list ExistingPrice := List.concat (map xp_Prices l).
Definition index_step (m : gmap string ExistingPrice) (price : ExistingPrice) :=
  if String.eqb (ep_LookupKey price) "" then m else <[ep_LookupKey price := price]> m.
Lemma index_prices_flat l : index_prices l = foldl index_step ∅ (all_prices l).
Proof.
  unfold index_prices, all_prices. generalize (∅ : gmap string ExistingPrice).
  induction l as [|p l IH]; intros m; [done|]. cbn. rewrite foldl_app. apply IH.
Qed.
Lemma index_prices_sound l k e :
  index_prices l !! k = Some e -> k <> "" /\ e ∈ all_prices l /\ ep_LookupKey e = k.
Proof.
  rewrite index_prices_flat. induction (all_prices l) as [|x xs IH] using rev_ind; [cbn [foldl]; by rewrite lookup_empty|].
  rewrite foldl_app. cbn. unfold index_step at 1. rewrite elem_of_app, list_elem_of_singleton.
  destruct (String.eqb_spec (ep_LookupKey x) "") as [|Hx]; [intros Hk; destruct (IH Hk) as (? & ? & ?); auto|].
  destruct (decide (ep_LookupKey x = k)) as [<-|Hne].
  - rewrite lookup_insert_eq. intros [= ->]. auto.
  - rewrite lookup_insert_ne by done. intros Hk. destruct (IH Hk) as (? & ? & ?). auto.
Qed.
Lemma index_prices_complete l e :
  e ∈ all_prices l -> ep_LookupKey e <> "" -> is_Some (index_prices l !! ep_LookupKey e).
Proof.
  rewrite index_prices_flat. induction (all_prices l) as [|x xs IH] using rev_ind; intros Hin He;
    [by apply not_elem_of_nil in Hin|].
  rewrite foldl_app. cbn. unfold index_step at 1. apply elem_of_app in Hin as [Hin|Hin].
  - destruct (String.eqb _ ""); [auto|]. destruct (decide (ep_LookupKey x = ep_LookupKey e)) as [->|].
    + rewrite lookup_insert_eq. by eexists.
    + rewrite lookup_insert_ne by done. auto.
  - apply list_elem_of_singleton in Hin as ->. rewrite (proj2 (String.eqb_neq _ _) He), lookup_insert_eq.
    by eexists.
Qed.
Lemma all_prices_elem l e : e ∈ all_prices l <-> exists p, p ∈ l /\ e ∈ xp_Prices p.
Proof. apply in_concat_map. Qed.

(** ** The suffixes *)
Lemma product_suffixes_spec spec l seen :
  string_has "_" (Namespace spec) = false ->
  (forall p, p ∈ l -> exists k, xp_ID p = NamespacedProductID spec k) ->
  exists seen', product_suffixes l seen = Some seen' /\
    forall k, is_Some (seen' !! k) <-> is_Some (seen !! k) \/ (k <> "" /\ exists p, p ∈ l /\ xp_ID p = NamespacedProductID spec k).
Proof.
  intros Hns. revert seen. induction l as [|p l IH]; intros seen Hl; cbn.
  - exists seen. split; [done|]. intros k. split; [by left|]. intros [?|(_ & p & Hin & _)]; [done|].
    by apply not_elem_of_nil in Hin.
  - destruct (Hl p ltac:(by left)) as [kp Hkp]. rewrite Hkp, suffix_id by done.
    destruct (IH (if String.eqb kp "" then seen else <[kp := tt]> seen)) as (seen' & E & Hs).
    { intros q Hq. apply Hl. by right. }
    exists seen'. split; [done|]. intros k. rewrite Hs. setoid_rewrite elem_of_cons.
    destruct (String.eqb_spec kp "") as [->|Hkp'].
    + split; [intros [?|(? & q & ? & ?)]; [by left|right; eauto]|].
      intros [?|(? & q & [->|?] & Hq)]; [by left| |right; eauto].
      rewrite Hkp in Hq. by apply product_id_inj in Hq as <-.
    + rewrite lookup_insert_is_Some'. split.
      * intros [[<-|?]|(? & q & ? & ?)]; [right; eauto|by left|right; eauto].
      * intros [?|(? & q & [->|?] & Hq)]; [auto| |right; eauto].
        rewrite Hkp in Hq. apply product_id_inj in Hq as <-. auto.
Qed.

Lemma find_product_cases ns key l :
  find_product ns key l = ExistingProduct_zero \/
  (find_product ns key l ∈ l /\ existingProductKey (find_product ns key l) ns = key).
Proof.
  induction l as [|p l IH]; cbn; [by left|]. destruct (String.eqb_spec (existingProductKey p ns) key) as [E|_].
  - right. split; [by left|done].
  - destruct IH as [?|[? ?]]; [by left|]. right. split; [by right|done].
Qed.
Lemma find_product_found ns key p l :
  p ∈ l -> existingProductKey p ns = key ->
  find_product ns key l ∈ l /\ existingProductKey (find_product ns key l) ns = key.
Proof.
  induction l as [|x l IH]; intros Hin Hk; cbn; [by apply not_elem_of_nil in Hin|].
  destruct (String.eqb_spec (existingProductKey x ns) key) as [E|Hne]; [split; [by left|done]|].
  apply elem_of_cons in Hin as [->|Hin]; [done|]. destruct (IH Hin Hk). split; [by right|done].
Qed.

(** ** What a plan contains *)
Lemma Diff_items spec l plan :
  string_has "_" (Namespace spec) = false ->
  (forall p, p ∈ l -> exists k, xp_ID p = NamespacedProductID spec k) ->
  NoDup (map xp_ID l) ->
  Diff spec l = Some plan -> forall it,
  it ∈ pl_Items plan <->
    (exists pk product, Products spec !! pk = Some product /\
       (it ∈ diff_product spec (index_products l) pk product \/
        exists prk price, p_Prices product !! prk = Some price /\
          it ∈ diff_price spec (index_prices l) pk prk price)) \/
    (exists k p, k <> "" /\ p ∈ l /\ xp_ID p = NamespacedProductID spec k /\
       (it ∈ archive_prices spec (xp_Prices p) \/
        Products spec !! k = None /\ xp_Active p = true /\
        it = product_item OpArchive k ProductGone None (Some p))).
Proof.
  intros Hns Hl Hnd. unfold Diff, sortedProductKeys.
  destruct (product_suffixes_spec spec l ∅ Hns Hl) as (seen & Es & Hseen).
  rewrite Es. intros [= <-] it. cbn [pl_Items]. rewrite elem_of_app. f_equiv.
  - unfold diff_spec. rewrite range_sorted_elem. split.
    + intros (pk & product & Hp & Hit). exists pk, product. split; [done|].
      apply elem_of_app in Hit as [?|Hit]; [by left|]. right. by apply range_sorted_elem in Hit.
    + intros (pk & product & Hp & Hit). exists pk, product. split; [done|]. apply elem_of_app.
      destruct Hit as [?|?]; [by left|]. right. by apply range_sorted_elem.
  - rewrite in_concat_map.
    assert (Hf : forall k p, p ∈ l -> xp_ID p = NamespacedProductID spec k ->
      find_product (Namespace spec) k l = p).
    { intros k p Hp Hid. destruct (find_product_found (Namespace spec) k p l Hp (product_id_key _ _ _ Hid)) as [Hin Hk].
      set (q := find_product (Namespace spec) k l) in *.
      destruct (Hl q Hin) as (kq & Hq). rewrite (product_id_key _ _ _ Hq) in Hk. subst kq.
      pose proof (proj2 (index_products_spec l (xp_ID p) p Hnd) (conj Hp eq_refl)) as E1.
      pose proof (proj2 (index_products_spec l (xp_ID p) q Hnd) (conj Hin (eq_trans Hq (eq_sym Hid)))) as E2.
      rewrite E1 in E2. congruence. }
    assert (Hkeys : forall k, k ∈ sort_slice string_less (map fst (map_range seen)) <->
      k <> "" /\ exists p, p ∈ l /\ xp_ID p = NamespacedProductID spec k).
    { intros k. pose proof (sortedKeys_elem seen k) as E. unfold sortedKeys in E. rewrite E, Hseen, lookup_empty.
      split; [|by right]. intros [[? ?]|?]; done. }
    unfold diff_current. split.
    + intros (k & Hk & Hit). apply Hkeys in Hk as (Hk & p & Hp & Hid). exists k, p. do 3 (split; [done|]).
      rewrite (Hf k p Hp Hid) in Hit. apply elem_of_app in Hit as [Hit|Hit]; [right|by left].
      destruct (Products spec !! k); [by apply not_elem_of_nil in Hit|].
      destruct (xp_Active p); [|by apply not_elem_of_nil in Hit].
      by apply list_elem_of_singleton in Hit.
    + intros (k & p & Hk & Hp & Hid & Hit). exists k. split.
      * apply Hkeys. eauto.
      * rewrite (Hf k p Hp Hid). apply elem_of_app. destruct Hit as [?|(-> & -> & ->)]; [by right|left; by left].
Qed.

(** ** A plan creates a price per lookup key *)
Lemma nodup_concat_map {A B} (f : A -> list B) l :
  NoDup l -> (forall x, x ∈ l -> NoDup (f x)) ->
  (forall x y z, x ∈ l -> y ∈ l -> z ∈ f x -> z ∈ f y -> x = y) -> NoDup (List.concat (map f l)).
Proof.
  induction 1 as [|x l Hx Hl IH]; intros Hf Hd; [constructor|]. cbn. apply NoDup_app. split; [apply Hf; by left|].
  split.
  - intros z Hz (y & Hy & Hz')%in_concat_map. apply Hx. rewrite (Hd x y z); [done|by left|by right|done..].
  - apply IH; [intros; apply Hf; by right|]. intros y y' z Hy Hy'. apply Hd; by right.
Qed.
Lemma nodup_concat_inj {A B} (f : A -> list B) l x y z :
  NoDup (List.concat (map f l)) -> x ∈ l -> y ∈ l -> z ∈ f x -> z ∈ f y -> x = y.
Proof.
  induction l as [|a l IH]; intros Hn Hx Hy Hzx Hzy; [by apply not_elem_of_nil in Hx|].
  cbn in Hn. apply NoDup_app in Hn as (_ & Hd & Hn).
  apply elem_of_cons in Hx as [->|Hx]; apply elem_of_cons in Hy as [->|Hy]; [done| | |by apply IH].
  - destruct (Hd z Hzx). apply in_concat_map. eauto.
  - destruct (Hd z Hzy). apply in_concat_map. eauto.
Qed.
Lemma concat_map_sublist {A B} (f g : A -> list B) p l :
  (forall x, g x `sublist_of` f x) -> List.concat (map g (List.filter p l)) `sublist_of` List.concat (map f l).
Proof.
  intros Hg. induction l as [|x l IH]; [constructor|]. cbn. destruct (p x); cbn.
  - by apply sublist_app.
  - by apply sublist_inserts_l.
Qed.

Definition new_keys (it : PlanItem) : list string :=
  match it_NewPrice it with Some n => [nr_LookupKey n] | None => [] end.
Definition item_keys (items : list PlanItem) : list string := List.concat (map new_keys items).
Lemma item_keys_app l1 l2 : item_keys (l1 ++ l2) = item_keys l1 ++ item_keys l2.
Proof. unfold item_keys. by rewrite map_app, concat_app. Qed.
Lemma item_keys_concat {A} (f : A -> list PlanItem) l :
  item_keys (List.concat (map f l)) = List.concat (map (fun x => item_keys (f x)) l).
Proof. induction l as [|x l IH]; [done|]. cbn [map List.concat]. by rewrite item_keys_app, IH. Qed.

Lemma item_keys_range {V} (m : gmap string V) f :
  (forall k v, m !! k = Some v -> NoDup (item_keys (f k v))) ->
  (forall k k' v v' z, m !! k = Some v -> m !! k' = Some v' -> z ∈ item_keys (f k v) -> z ∈ item_keys (f k' v') -> k = k') ->
  NoDup (item_keys (range_sorted m f)).
Proof.
  intros Hf Hd. unfold range_sorted. rewrite item_keys_concat. apply nodup_concat_map; [apply sortedKeys_nodup|..].
  - intros k _. destruct (m !! k) eqn:E; [by apply Hf|constructor].
  - intros k k' z _ _. destruct (m !! k) eqn:E; [|by intros ?%not_elem_of_nil].
    destruct (m !! k') eqn:E'; [|by intros _ ?%not_elem_of_nil]. by eapply Hd.
Qed.
Lemma diff_product_keys spec byID pk product : item_keys (diff_product spec byID pk product) = [].
Proof.
  unfold diff_product. destruct (byID !! _) as [e|]; [|done]. destruct (xp_Active e && _); [done|].
  by destruct (negb (xp_Active e)).
Qed.
Lemma diff_price_keys spec byKey pk prk price :
  item_keys (diff_price spec byKey pk prk price) = [] \/
  item_keys (diff_price spec byKey pk prk price) = [NamespacedPriceKey spec pk prk].
Proof.
  unfold diff_price. destruct (byKey !! _) as [e|]; [|by right].
  destruct (priceNeedsReplace price e); [by right|by left].
Qed.
Lemma diff_prices_keys spec byKey pk product z :
  z ∈ item_keys (range_sorted (p_Prices product) (diff_price spec byKey pk)) ->
  exists prk, z = NamespacedPriceKey spec pk prk.
Proof.
  intros (it & Hit & Hz)%in_concat_map. apply range_sorted_elem in Hit as (prk & price & _ & Hit). exists prk.
  assert (Hin : z ∈ item_keys (diff_price spec byKey pk prk price)) by (apply in_concat_map; eauto).
  destruct (diff_price_keys spec byKey pk prk price) as [E|E]; rewrite E in Hin.
  - by apply not_elem_of_nil in Hin.
  - by apply list_elem_of_singleton in Hin.
Qed.
Lemma archives_keys spec l k : item_keys (diff_current spec l k) = [].
Proof.
  unfold diff_current. rewrite item_keys_app. apply app_nil_iff. split.
  - destruct (Products spec !! k); [done|]. by destruct (xp_Active _).
  - unfold archive_prices. rewrite item_keys_concat. apply concat_map_nil. intros e _.
    by destruct (String.eqb _ "" && _).
Qed.

Lemma plan_keys_nodup spec l plan :
  (forall pk product, Products spec !! pk = Some product -> keyRegex pk = true) ->
  Diff spec l = Some plan -> NoDup (item_keys (pl_Items plan)).
Proof.
  intros Hk. unfold Diff. destruct (sortedProductKeys l) as [keys|]; [|done]. intros [= <-]. cbn [pl_Items].
  rewrite item_keys_app, item_keys_concat, (concat_map_nil _ keys), app_nil_r by (intros; apply archives_keys).
  unfold diff_spec. apply item_keys_range.
  - intros pk product Hp. rewrite item_keys_app, diff_product_keys. cbn [app]. apply item_keys_range.
    + intros prk price _. destruct (diff_price_keys spec (index_prices l) pk prk price) as [E|E]; rewrite E; [constructor|apply NoDup_singleton].
    + intros prk prk' price price' z _ _ Hz Hz'.
      destruct (diff_price_keys spec (index_prices l) pk prk price) as [E|E]; rewrite E in Hz; [by apply not_elem_of_nil in Hz|].
      destruct (diff_price_keys spec (index_prices l) pk prk' price') as [E'|E']; rewrite E' in Hz'; [by apply not_elem_of_nil in Hz'|].
      apply list_elem_of_singleton in Hz, Hz'. subst z. by apply NamespacedPriceKey_inj in Hz' as [_ ?]; [|by eapply Hk..].
  - intros pk pk' product product' z Hp Hp'. rewrite !item_keys_app, !diff_product_keys. cbn [app].
    intros [prk ->]%diff_prices_keys [prk' E]%diff_prices_keys.
    by apply NamespacedPriceKey_inj in E as [? _]; [|by eapply Hk..].
Qed.
End diff_facts.
