(* ===== verification/CatalogSyncConverge.v ===== *)
(** * CatalogSyncConverge: each product and price through the calls of a plan.

    [okcall] are the calls a plan makes. A property that every such call keeps holds at
    the end when it holds at the start or when one call of the plan brings it about
    ([plan_preserve], [plan_establish]); [second_empty] puts the products and prices
    together. *)
From S2P Require Import Prelude CatalogSpec Events CatalogSync CatalogSyncFacts CatalogSyncTheorems.

#[local] Arguments NamespacedProductID : simpl never.
#[local] Arguments NamespacedPriceKey : simpl never.

Section converge.
Context `{GoRuntime} (spec : Spec) (P0 : products_map) (R0 : prices_map) (l : list ExistingProduct) (plan : Plan).
Abbreviation pid_of := (NamespacedProductID spec).
Abbreviation key_of := (NamespacedPriceKey spec).
Hypothesis (Hns : string_has "_" (Namespace spec) = false)
  (Hkeys : forall pk product, Products spec !! pk = Some product -> keyRegex pk = true)
  (Hlist : lists (Namespace spec) (P0, R0) l)
  (Hid0 : forall pid o e, R0 !! pid = Some (o, e) -> ep_ID e = pid)
  (Howner0 : forall pid o e, R0 !! pid = Some (o, e) -> is_Some (P0 !! o))
  (Hunique0 : forall i j o o' e e', R0 !! i = Some (o, e) -> R0 !! j = Some (o', e') ->
     ep_LookupKey e <> "" -> ep_LookupKey e = ep_LookupKey e' -> i = j)
  (Hplan : Diff spec l = Some plan).

Definition declared_price (pk prk : string) (price : Price) : Prop :=
  exists product, Products spec !! pk = Some product /\ p_Prices product !! prk = Some price.

Lemma listed_ids p : p ∈ l -> exists k, xp_ID p = pid_of k.
Proof.
  intros Hp. apply listed_id. apply (ls_ids _ _ _ Hlist (xp_ID p)). eauto.
Qed.
Lemma items_iff it : it ∈ pl_Items plan <->
    (exists pk product, Products spec !! pk = Some product /\
       (it ∈ diff_product spec (index_products l) pk product \/
        exists prk price, p_Prices product !! prk = Some price /\
          it ∈ diff_price spec (index_prices l) pk prk price)) \/
    (exists k p, k <> "" /\ p ∈ l /\ xp_ID p = pid_of k /\
       (it ∈ archive_prices spec (xp_Prices p) \/
        Products spec !! k = None /\ xp_Active p = true /\
        it = product_item OpArchive k ProductGone None (Some p))).
Proof. apply (Diff_items spec l plan Hns listed_ids (ls_nodup _ _ _ Hlist) Hplan). Qed.

Lemma lookup_product k p : index_products l !! k = Some p <-> p ∈ l /\ xp_ID p = k.
Proof. apply index_products_spec, (ls_nodup _ _ _ Hlist). Qed.
Lemma lookup_product_None pk : index_products l !! pid_of pk = None <-> P0 !! pid_of pk = None.
Proof.
  rewrite !eq_None_not_Some. f_equiv. split.
  - intros [p Hp]. apply lookup_product in Hp as [Hp Hk].
    apply (ls_ids _ _ _ Hlist (pid_of pk)). eauto.
  - intros Hs. destruct (proj2 (ls_ids _ _ _ Hlist (pid_of pk))) as (p & Hp & Hk).
    { split; [done|]. apply listed_id. eauto. }
    exists p. by apply lookup_product.
Qed.
Lemma listed_price e : e ∈ all_prices l -> exists k p, p ∈ l /\ xp_ID p = pid_of k /\ R0 !! ep_ID e = Some (pid_of k, e).
Proof.
  intros (p & Hp & He)%all_prices_elem. destruct (listed_ids p Hp) as [k Hk]. exists k, p.
  split; [done|]. split; [done|]. rewrite <- Hk. by apply (ls_prices _ _ _ Hlist).
Qed.

(** The calls a plan makes. *)
Inductive okcall : call -> Prop :=
| ok_create pk product : Products spec !! pk = Some product -> P0 !! pid_of pk = None ->
    okcall (KCreateProduct (new_product spec pk product))
| ok_unarchive pk product : Products spec !! pk = Some product -> okcall (KProductActive (pid_of pk) true)
| ok_update pk product m : Products spec !! pk = Some product ->
    okcall (KUpdateProduct (pid_of pk) (mkProductUpdate (p_Name product) (p_Description product) m))
| ok_create_price pk prk price t : declared_price pk prk price ->
    (forall e, index_prices l !! key_of pk prk = Some e -> priceNeedsReplace price e = true) ->
    okcall (KCreatePrice (new_price spec pk prk price t))
| ok_archive_price pid o e : R0 !! pid = Some (o, e) ->
    (lookupKeyInSpec spec (ep_LookupKey e) = "" \/
     exists pk prk price, declared_price pk prk price /\ ep_LookupKey e = key_of pk prk /\
       priceNeedsReplace price e = true) ->
    okcall (KPriceActive pid false)
| ok_archive_product k : Products spec !! k = None -> okcall (KProductActive (pid_of k) false)
| ok_meter : okcall KMeter.

Lemma plan_calls_elem items c :
  c ∈ plan_calls items <-> exists it, it ∈ items /\ (it_Op it, it_Kind it) ∈ order /\ c ∈ item_calls (it_Op it) (it_Kind it) it.
Proof.
  unfold plan_calls. rewrite in_concat_map. split.
  - intros ([op kind] & Ho & Hc). apply in_concat_map in Hc as (it & Hit & Hc). unfold itemsByOpKind in Hit.
    rewrite list_elem_of_In, filter_In, <- list_elem_of_In, andb_true_iff, !bool_decide_eq_true in Hit.
    destruct Hit as (Hit & <- & <-). by exists it.
  - intros (it & Hit & Ho & Hc). exists (it_Op it, it_Kind it). split; [done|]. apply in_concat_map.
    exists it. split; [|done]. unfold itemsByOpKind.
    by rewrite list_elem_of_In, filter_In, <- list_elem_of_In, !bool_decide_eq_true_2.
Qed.

Lemma plan_calls_ok c : c ∈ plan_calls (pl_Items plan) -> okcall c.
Proof.
  intros (it & Hit & _ & Hc)%plan_calls_elem. apply items_iff in Hit as [(pk & product & Hp & Hit)|(k & p & Hk & Hp & Hid & Hit)].
  - destruct Hit as [Hit|(prk & price & Hr & Hit)].
    + unfold diff_product in Hit. destruct (index_products l !! pid_of pk) as [e|] eqn:Ei.
      * apply lookup_product in Ei as [_ Ei].
        destruct (xp_Active e && productNeedsUpdate product e).
        { apply list_elem_of_singleton in Hit as ->. cbn in Hc. apply list_elem_of_singleton in Hc as ->.
          rewrite Ei. by apply (ok_update pk product). }
        destruct (negb (xp_Active e)); [|by apply not_elem_of_nil in Hit].
        apply list_elem_of_singleton in Hit as ->. cbn in Hc. apply list_elem_of_singleton in Hc as ->.
        rewrite Ei. by eapply ok_unarchive.
      * apply list_elem_of_singleton in Hit as ->. cbn in Hc. apply list_elem_of_singleton in Hc as ->.
        apply ok_create; [done|]. by apply lookup_product_None.
    + unfold diff_price in Hit. destruct (index_prices l !! key_of pk prk) as [e|] eqn:Ei.
      * destruct (priceNeedsReplace price e) eqn:En; [|by apply not_elem_of_nil in Hit].
        apply list_elem_of_singleton in Hit as ->. cbn in Hc. apply elem_of_cons in Hc as [->|Hc].
        -- apply ok_create_price; [by exists product|]. intros e'. rewrite Ei. congruence.
        -- apply list_elem_of_singleton in Hc as ->.
           apply index_prices_sound in Ei as (_ & Hin & Hkey).
           destruct (listed_price e Hin) as (k & p & _ & _ & HR). eapply ok_archive_price; [done|].
           right. exists pk, prk, price. split; [by exists product|]. done.
      * apply list_elem_of_singleton in Hit as ->. cbn in Hc. apply list_elem_of_singleton in Hc as ->.
        apply ok_create_price; [by exists product|]. intros e. by rewrite Ei.
  - destruct Hit as [Hit|(Hno & Ha & ->)].
    + apply in_concat_map in Hit as (e & He & Hit).
      destruct (String.eqb_spec (lookupKeyInSpec spec (ep_LookupKey e)) "") as [E|]; [|by apply not_elem_of_nil in Hit].
      destruct (ep_Active e); [|by apply not_elem_of_nil in Hit].
      apply list_elem_of_singleton in Hit as ->. cbn in Hc. apply list_elem_of_singleton in Hc as ->.
      apply (ls_prices _ _ _ Hlist p e Hp) in He. eapply ok_archive_price; [done|]. by left.
    + cbn in Hc. apply list_elem_of_singleton in Hc as ->. rewrite Hid. by apply ok_archive_product.
Qed.

(** ** Products *)
Context (P' : products_map) (R' : prices_map).
Hypothesis (Hrun : run (plan_calls (pl_Items plan)) (P0, R0) (P', R')).

(** A description that is dropped cannot be taken away in Stripe, and a product that
    is archived is only brought back. *)
Hypothesis (Hdesc : forall pk product n d a, Products spec !! pk = Some product -> P0 !! pid_of pk = Some (n, d, a) ->
    (p_Description product = "" -> d = "") /\ (a = false -> n = p_Name product /\ d = p_Description product))
  (Hname : forall pk product, Products spec !! pk = Some product -> p_Name product <> "").

(** What the plan's calls keep, and what the call of an item brings about. *)
Definition kept (Q : maps -> Prop) : Prop :=
  forall c t t', c ∈ plan_calls (pl_Items plan) -> effect c t t' -> Q t -> Q t'.
Lemma plan_preserve (Q : maps -> Prop) : kept Q -> Q (P0, R0) -> Q (P', R').
Proof. intros HQ. by apply (run_preserve Q _ _ _ HQ). Qed.
Lemma plan_establish (I Q : maps -> Prop) it c :
  it ∈ pl_Items plan -> bool_decide ((it_Op it, it_Kind it) ∈ order) = true ->
  c ∈ item_calls (it_Op it) (it_Kind it) it ->
  (forall t t', effect c t t' -> I t -> Q t') -> kept I -> kept Q -> I (P0, R0) -> Q (P', R').
Proof.
  intros Hit Ho%bool_decide_eq_true Hc He HI HQ. eapply run_establish; [|done..].
  apply plan_calls_elem. eauto.
Qed.

Ltac run_calls := let c := fresh "c" in let t' := fresh "t'" in
  intros c [P R] t' Hc%plan_calls_ok He.
Ltac call_cases Hc He := inversion Hc as [pk' product' Hp' Hnew|pk' product' Hp'|pk' product' m Hp'
  |pk' prk' price' tr Hd Hdirty|pid' o' e' HR Hwhy|k' Hk'|]; subst; cbn in He; subst.

Definition product_at (pk : string) (Q : pstate -> Prop) (t : maps) : Prop :=
  exists x, fst t !! pid_of pk = Some x /\ Q x.

Lemma product_kept pk product (Q : pstate -> Prop) :
  Products spec !! pk = Some product ->
  (forall x, Q x -> Q (set_active true x)) ->
  (forall x m, Q x -> Q (update_product (mkProductUpdate (p_Name product) (p_Description product) m) x)) ->
  kept (product_at pk Q).
Proof.
  intros Hp Hact Hupd. run_calls. intros (x & Hx & HQ). unfold product_at. cbn in Hx.
  call_cases Hc He.
  - destruct He as [Hfree ->]. cbn in *. destruct (decide (pid_of pk' = pid_of pk)) as [E|].
    { rewrite E, Hx in Hfree. done. }
    rewrite lookup_insert_ne by done. eauto.
  - cbn. destruct (decide (pid_of pk' = pid_of pk)) as [E|]; [|rewrite lookup_alter_ne by done; eauto].
    rewrite E, lookup_alter_eq, Hx. cbn. eauto.
  - cbn. destruct (decide (pid_of pk' = pid_of pk)) as [E|]; [|rewrite lookup_alter_ne by done; eauto].
    rewrite E, lookup_alter_eq, Hx. apply product_id_inj in E as ->. rewrite Hp in Hp'. injection Hp' as <-. cbn. eauto.
  - destruct He as (pid & e & _ & _ & _ & ->). cbn. eauto.
  - cbn. eauto.
  - cbn. rewrite lookup_alter_ne; [eauto|]. intros E%product_id_inj. congruence.
  - cbn. eauto.
Qed.

Definition exact (product : Product) (x : pstate) : Prop := x = (p_Name product, p_Description product, true).

Lemma exact_kept pk product : Products spec !! pk = Some product -> kept (product_at pk (exact product)).
Proof.
  intros Hp. apply (product_kept pk product _ Hp); [by intros x ->|].
  intros x m ->. unfold exact, update_product. cbn.
  by destruct (String.eqb _ ""), (String.eqb _ "").
Qed.

Section one_product.
Context (pk : string) (product : Product) (Hp : Products spec !! pk = Some product).

Lemma product_item_in it : it ∈ diff_product spec (index_products l) pk product -> it ∈ pl_Items plan.
Proof. intros Hit. apply items_iff. left. exists pk, product. auto. Qed.

Lemma created_exact : index_products l !! pid_of pk = None -> product_at pk (exact product) (P', R').
Proof.
  intros Ei. pose proof (product_item_in) as Hitem. unfold diff_product in Hitem. rewrite Ei in Hitem.
  eapply (plan_establish (fun _ => True));
    [apply Hitem; by left|reflexivity|by left| |done|by apply exact_kept|done].
  intros [P R] t' [_ ->] _. unfold product_at. cbn. rewrite lookup_insert_eq. eexists. split; [done|]. done.
Qed.

Lemma unarchived_exact e :
  index_products l !! pid_of pk = Some e -> xp_Active e = false -> P0 !! pid_of pk = Some (p_Name product, p_Description product, false) ->
  product_at pk (exact product) (P', R').
Proof.
  intros Ei Ea Hst. pose proof (product_item_in) as Hitem. unfold diff_product in Hitem. rewrite Ei, Ea in Hitem.
  apply lookup_product in Ei as [_ Hide].
  eapply (plan_establish (product_at pk (fun x => fst x = (p_Name product, p_Description product))));
    [apply Hitem; by left|reflexivity|by left| | |by apply exact_kept|].
  - intros [P R] t' -> ([[n d] a] & Hx & E). unfold product_at. cbn in *. injection E as -> ->. rewrite Hide, lookup_alter_eq, Hx.
    cbn. eexists. split; [done|]. done.
  - apply (product_kept pk product _ Hp); [done|].
    intros [[n d] a] m E. cbn in *. injection E as -> ->. by destruct (String.eqb _ ""), (String.eqb _ "").
  - exists (p_Name product, p_Description product, false). done.
Qed.

Lemma updated_exact e :
  index_products l !! pid_of pk = Some e -> xp_Active e = true ->
  P0 !! pid_of pk = Some (xp_Name e, xp_Description e, true) ->
  (p_Description product = "" -> xp_Description e = "") -> product_at pk (exact product) (P', R').
Proof.
  intros Ei Ea Hst Hd. pose proof (product_item_in) as Hitem. unfold diff_product in Hitem. rewrite Ei, Ea in Hitem.
  apply lookup_product in Ei as [_ Hide]. cbn [andb negb] in Hitem. destruct (productNeedsUpdate product e) eqn:En.
  2: { apply plan_preserve; [by apply exact_kept|]. eexists. split; [done|].
       unfold productNeedsUpdate in En. reflect_bools. unfold exact. congruence. }
  eapply (plan_establish (product_at pk (fun x => snd x = true /\ (p_Description product = "" -> snd (fst x) = ""))));
    [apply Hitem; by left|reflexivity|by left| | |by apply exact_kept|].
  - intros [P R] t' -> ([[n d] a] & Hx & Ha & Hdd). unfold product_at. cbn in *. subst a.
    rewrite Hide, lookup_alter_eq, Hx. cbn. eexists. split; [done|]. unfold exact.
    rewrite (proj2 (String.eqb_neq _ _) (Hname _ _ Hp)).
    destruct (String.eqb_spec (p_Description product) "") as [E|]; [by rewrite E, Hdd|done].
  - apply (product_kept pk product _ Hp); [by intros [[n d] a] [_ ?]|].
    intros [[n d] a] m [Ha Hdd]. cbn in *. split; [done|]. intros E. rewrite E. cbn. auto.
  - eexists. split; [done|]. done.
Qed.
End one_product.

Lemma final_product pk product :
  Products spec !! pk = Some product -> P' !! pid_of pk = Some (p_Name product, p_Description product, true).
Proof.
  intros Hp.
  assert (G : product_at pk (exact product) (P', R')); [|destruct G as (x & E & ->); exact E].
  destruct (index_products l !! pid_of pk) as [e|] eqn:Ei; [|by apply created_exact].
  pose proof Ei as [He Hide]%lookup_product. pose proof (ls_state _ _ _ Hlist e He) as Hst. cbn in Hst.
  rewrite Hide in Hst. destruct (Hdesc pk product _ _ _ Hp Hst) as [Hd Harch].
  destruct (xp_Active e) eqn:Ea; [by eapply updated_exact|].
  destruct (Harch eq_refl) as [En Ed]. eapply unarchived_exact; [done..|]. congruence.
Qed.

(** A product that is not declared is never brought back. *)
Lemma undeclared_kept k (Q : option pstate -> Prop) :
  Products spec !! k = None -> (forall x, Q x -> Q (set_active false <$> x)) -> kept (fun t => Q (fst t !! pid_of k)).
Proof.
  intros Hno HQ. run_calls. intros Hq. cbn in Hq.
  assert (Hne : forall pk' product', Products spec !! pk' = Some product' -> pid_of pk' <> pid_of k)
    by (intros pk' product' Hp' E%product_id_inj; congruence).
  call_cases Hc He.
  - destruct He as [_ ->]. cbn. rewrite lookup_insert_ne; [done|by eapply Hne].
  - cbn. rewrite lookup_alter_ne; [done|by eapply Hne].
  - cbn. rewrite lookup_alter_ne; [done|by eapply Hne].
  - destruct He as (pid & e & _ & _ & _ & ->). done.
  - done.
  - cbn. destruct (decide (pid_of k' = pid_of k)) as [->|]; [rewrite lookup_alter_eq; by apply HQ|].
    by rewrite lookup_alter_ne.
  - done.
Qed.

Definition off (x : option pstate) : Prop := forall y, x = Some y -> snd y = false.
Lemma off_kept k : Products spec !! k = None -> kept (fun t => off (fst t !! pid_of k)).
Proof.
  intros Hno. apply (undeclared_kept k off Hno). intros [x|] _ y; cbn; [by intros [= <-]|done].
Qed.

Lemma final_gone k : k <> "" -> Products spec !! k = None -> off (P' !! pid_of k).
Proof.
  intros Hk Hno. destruct (P0 !! pid_of k) as [[[n0 d0] [|]]|] eqn:E0.
  2,3: apply (plan_preserve _ (off_kept k Hno)); cbn; rewrite E0; intros y [= <-]; done.
  destruct (proj2 (ls_ids _ _ _ Hlist (pid_of k))) as (p & Hp & Hid).
  { split; [cbn; by rewrite E0|]. apply listed_id. eauto. }
  pose proof (ls_state _ _ _ Hlist p Hp) as Hst. cbn in Hst. rewrite Hid, E0 in Hst. injection Hst as _ _ Ha.
  assert (Hitem : product_item OpArchive k ProductGone None (Some p) ∈ pl_Items plan).
  { apply items_iff. right. exists k, p. do 3 (split; [done|]). right. done. }
  eapply (plan_establish (fun _ => True) (fun t => off (fst t !! pid_of k)) _ _ Hitem);
    [reflexivity|by left| |done|exact (off_kept k Hno)|done].
  intros [P R] t' -> _. cbn. rewrite Hid, lookup_alter_eq. intros y. destruct (P !! pid_of k); [by intros [= <-]|done].
Qed.

(** ** Prices *)
Lemma same_key pk prk pk' prk' price price' :
  declared_price pk prk price -> declared_price pk' prk' price' -> key_of pk prk = key_of pk' prk' ->
  pk = pk' /\ prk = prk' /\ price = price'.
Proof.
  intros (product & Hp & Hr) (product' & Hp' & Hr') E.
  apply NamespacedPriceKey_inj in E as [<- <-]; [|by eapply Hkeys..]. split; [done|]. split; [done|]. congruence.
Qed.
Lemma declared_key_of pk prk price : declared_price pk prk price -> lookupKeyInSpec spec (key_of pk prk) <> "".
Proof. intros (product & Hp & Hr). by eapply declared_key; [eapply Hkeys| |]. Qed.

Lemma key_nonempty pk prk : key_of pk prk <> "".
Proof. unfold NamespacedPriceKey. by destruct (Namespace spec). Qed.

(** The calls on prices, seen from one price that was there before. *)
Lemma old_price_kept pid (Q : string * ExistingPrice -> Prop) :
  is_Some (R0 !! pid) ->
  (forall x pk prk price, Q x -> declared_price pk prk price ->
     (forall e, index_prices l !! key_of pk prk = Some e -> priceNeedsReplace price e = true) ->
     Q (clear_key (key_of pk prk) x)) ->
  (forall x o e, Q x -> R0 !! pid = Some (o, e) ->
     (lookupKeyInSpec spec (ep_LookupKey e) = "" \/ exists pk prk price, declared_price pk prk price /\
        ep_LookupKey e = key_of pk prk /\ priceNeedsReplace price e = true) ->
     Q (set_price_active false x)) ->
  kept (fun t => exists x, snd t !! pid = Some x /\ Q x).
Proof.
  intros Hold Hclear Hoff. run_calls. intros (x & Hx & HQ). cbn in Hx. call_cases Hc He; cbn; [| |eauto| | |eauto..].
  - destruct He as [_ ->]. cbn. eauto.
  - eauto.
  - destruct He as (pid' & e & Hfree & _ & _ & ->). cbn. rewrite lookup_insert_ne by congruence.
    rewrite lookup_fmap, Hx. eexists. split; [done|]. by eapply Hclear.
  - destruct (decide (pid' = pid)) as [->|]; [|rewrite lookup_alter_ne by done; eauto].
    rewrite lookup_alter_eq, Hx. eexists. split; [done|]. by eapply Hoff.
Qed.

Lemma clear_key_other key x : ep_LookupKey (snd x) <> key -> clear_key key x = x.
Proof. intros Hne. unfold clear_key. by rewrite (proj2 (String.eqb_neq _ _) Hne). Qed.
Lemma clear_key_active key x : ep_Active (snd (clear_key key x)) = ep_Active (snd x).
Proof. unfold clear_key. cbv zeta. by destruct (String.eqb _ key). Qed.

(** The price of a lookup key in the listing is the only one. *)
Lemma listed_unique pid k e :
  R0 !! pid = Some (pid_of k, e) -> ep_LookupKey e <> "" -> index_prices l !! ep_LookupKey e = Some e.
Proof.
  intros HR Hne.
  assert (Hin : e ∈ all_prices l).
  { destruct (proj2 (ls_ids _ _ _ Hlist (pid_of k))) as (p & Hp & Hid).
    { split; [by apply (Howner0 pid (pid_of k) e)|]. apply listed_id. eauto. }
    apply all_prices_elem. exists p. split; [done|]. apply (ls_prices _ _ _ Hlist p e Hp).
    cbn. by rewrite (Hid0 _ _ _ HR), Hid. }
  destruct (index_prices_complete l e Hin Hne) as [e' He']. rewrite He'. f_equal.
  apply index_prices_sound in He' as (_ & Hin' & Hk). destruct (listed_price e' Hin') as (k' & p' & _ & _ & HR').
  assert (ep_ID e' = pid) as E by (apply (Hunique0 _ _ _ _ _ _ HR' HR); congruence). rewrite E in HR'. congruence.
Qed.

(** A declared price that matches stays as it is. *)
Lemma clean_price pk prk price e :
  declared_price pk prk price -> index_prices l !! key_of pk prk = Some e -> priceNeedsReplace price e = false ->
  exists o, snd (P', R') !! ep_ID e = Some (pid_of o, e).
Proof.
  intros Hd Ei Hclean. pose proof Ei as (Hne & Hin & Hk)%index_prices_sound.
  destruct (listed_price e Hin) as (k & p & _ & _ & HR). exists k.
  assert (G : exists x, snd (P', R') !! ep_ID e = Some x /\ x = (pid_of k, e)); [|by destruct G as (x & ? & ->)].
  apply plan_preserve; [|by eexists].
  apply old_price_kept; [by eexists|..].
  - intros x pk' prk' price' -> Hd' Hdirty. apply clear_key_other. cbn. rewrite Hk. intros E.
    destruct (same_key _ _ _ _ _ _ Hd Hd' E) as (<- & <- & <-). by rewrite (Hdirty e Ei) in Hclean.
  - intros x o e' _ HR' Hwhy. exfalso. rewrite HR in HR'. injection HR' as <- <-. rewrite Hk in Hwhy.
    destruct Hwhy as [Hwhy|(pk' & prk' & price' & Hd' & E & Hr)]; [by apply (declared_key_of _ _ _ Hd)|].
    destruct (same_key _ _ _ _ _ _ Hd Hd' E) as (<- & <- & <-). congruence.
Qed.

Definition dead (pid : string) (t : maps) : Prop := exists x, snd t !! pid = Some x /\ ep_Active (snd x) = false.
Lemma dead_kept pid : is_Some (R0 !! pid) -> kept (dead pid).
Proof.
  intros Hold. apply old_price_kept; [done|..]; [|done].
  intros x pk prk price Hx _ _. by rewrite clear_key_active.
Qed.
Lemma there_kept pid : is_Some (R0 !! pid) -> kept (fun t => exists x, snd t !! pid = Some x /\ True).
Proof. intros Hold. by apply old_price_kept. Qed.
Lemma archived_dead pid it :
  is_Some (R0 !! pid) -> it ∈ pl_Items plan -> bool_decide ((it_Op it, it_Kind it) ∈ order) = true ->
  KPriceActive pid false ∈ item_calls (it_Op it) (it_Kind it) it -> dead pid (P', R').
Proof.
  intros [x Hx] Hit Ho Hc. eapply plan_establish; [exact Hit|exact Ho|exact Hc| |by apply there_kept; eexists|by apply dead_kept; eexists|].
  - intros [P R] t' -> (y & Hy & _). cbn in *. unfold dead. cbn. rewrite lookup_alter_eq, Hy. by eexists.
  - cbn. eauto.
Qed.

Lemma final_old pid k e o e' :
  k <> "" -> R0 !! pid = Some (pid_of k, e) -> R' !! pid = Some (o, e') -> ep_Active e' = true ->
  lookupKeyInSpec spec (ep_LookupKey e') <> "".
Proof.
  intros Hk HR HR' Hact. assert (Hold : is_Some (R0 !! pid)) by by eexists.
  assert (Hdead : ~ dead pid (P', R')) by (intros (x & Hx & Hoff); cbn in Hx; rewrite HR' in Hx; injection Hx as <-; cbn in Hoff; congruence).
  destruct (ep_Active e) eqn:Ea.
  2: { destruct Hdead. apply plan_preserve; [by apply dead_kept|]. exists (pid_of k, e). done. }
  destruct (decide (lookupKeyInSpec spec (ep_LookupKey e) = "")) as [Hno|Hyes].
  - destruct Hdead. destruct (proj2 (ls_ids _ _ _ Hlist (pid_of k))) as (p & Hp & Hid).
    { split; [by apply (Howner0 pid (pid_of k) e)|]. apply listed_id. eauto. }
    eapply (archived_dead pid (price_item OpArchive (keyFromLookupKey (Namespace spec) (ep_LookupKey e)) PriceGone None (Some e)));
      [done| |reflexivity|cbn; rewrite (Hid0 _ _ _ HR); by left].
    apply items_iff. right. exists k, p. do 3 (split; [done|]). left. apply in_concat_map. exists e.
    split; [apply (ls_prices _ _ _ Hlist p e Hp); cbn; by rewrite (Hid0 _ _ _ HR), Hid|].
    rewrite Hno, Ea. by left.
  - pose proof (declared_key_inv _ _ Hyes) as (pk & prk & product & price & Hp & Hr & Ekey).
    assert (Hd : declared_price pk prk price) by by exists product.
    assert (Ei : index_prices l !! key_of pk prk = Some e).
    { rewrite <- Ekey. apply (listed_unique pid k); [done|]. rewrite Ekey. apply key_nonempty. }
    destruct (priceNeedsReplace price e) eqn:En.
    + destruct Hdead. eapply (archived_dead pid (price_item OpReplace (pk ^^ "." ^^ prk) (priceReplaceReason price e)
        (Some (new_price spec pk prk price true)) (Some e)));
        [done| |reflexivity|cbn; rewrite (Hid0 _ _ _ HR); right; by left].
      apply items_iff. left. exists pk, product. split; [done|]. right. exists prk, price. split; [done|].
      unfold diff_price. rewrite Ei, En. by left.
    + destruct (clean_price pk prk price e Hd Ei En) as [o' Ho']. cbn in Ho'. rewrite (Hid0 _ _ _ HR), HR' in Ho'.
      congruence.
Qed.

(** A declared price that is missing or differs is created. *)
Definition grows (t : maps) : Prop := forall pid, is_Some (R0 !! pid) -> is_Some (snd t !! pid).
Definition fresh_price (pk prk : string) (price : Price) (t : maps) : Prop :=
  grows t /\ exists pid e tr, R0 !! pid = None /\ snd t !! pid = Some (pid_of pk, e) /\
    price_from (new_price spec pk prk price tr) pid e.

Lemma grows_kept : kept grows.
Proof.
  intros c t t' Hc He Hg pid Hold. destruct (Hg pid Hold) as [x Hx].
  destruct (there_kept pid Hold c t t' Hc He) as (y & Hy & _); eauto.
Qed.
Lemma grows_fresh t pid : grows t -> snd t !! pid = None -> R0 !! pid = None.
Proof.
  intros Hg Hn. apply eq_None_not_Some. intros Hs%Hg. rewrite Hn in Hs. by destruct Hs.
Qed.

Lemma fresh_kept pk prk price : declared_price pk prk price -> kept (fresh_price pk prk price).
Proof.
  intros Hdp c t t' Hin Heff [Hg (pid & e & tr & Hn & Hx & Hfrom)].
  split; [by eapply grows_kept|]. apply plan_calls_ok in Hin. destruct t as [P R]. cbn in Hx.
  inversion Hin as [pk' product' Hp' Hnew|pk' product' Hp'|pk' product' m Hp'
    |pk' prk' price' tr' Hd Hdirty|pid' o' e' HR Hwhy|k' Hk'|]; subst; cbn in Heff; subst; cbn; eauto 10.
  - destruct Heff as [_ ->]. cbn. eauto 10.
  - destruct Heff as (pid' & e' & Hfree & Hfrom' & _ & ->). cbn.
    destruct (decide (key_of pk prk = key_of pk' prk')) as [E|Hne].
    + destruct (same_key _ _ _ _ _ _ Hdp Hd E) as (<- & <- & <-). exists pid', e', tr'.
      rewrite lookup_insert_eq. split; [by apply (grows_fresh (P, R))|done].
    + exists pid, e, tr. rewrite lookup_insert_ne by congruence. rewrite lookup_fmap, Hx. cbn [fmap option_fmap option_map].
      rewrite clear_key_other; [done|]. cbn [snd]. destruct Hfrom as (_ & -> & _). exact Hne.
  - exists pid, e, tr. rewrite lookup_alter_ne by congruence. done.
Qed.

Lemma created_price pk prk price :
  declared_price pk prk price ->
  (forall e, index_prices l !! key_of pk prk = Some e -> priceNeedsReplace price e = true) ->
  fresh_price pk prk price (P', R').
Proof.
  intros Hdp Hdirty. pose proof Hdp as (product & Hp & Hr).
  assert (exists it tr, it ∈ pl_Items plan /\ bool_decide ((it_Op it, it_Kind it) ∈ order) = true /\
    KCreatePrice (new_price spec pk prk price tr) ∈ item_calls (it_Op it) (it_Kind it) it) as (it & tr & Hit & Ho & Hc).
  { assert (Hitem : forall it, it ∈ diff_price spec (index_prices l) pk prk price -> it ∈ pl_Items plan).
    { intros it Hit. apply items_iff. left. exists pk, product. split; [done|]. right. eauto. }
    unfold diff_price in Hitem. destruct (index_prices l !! key_of pk prk) as [e|].
    - rewrite (Hdirty e eq_refl) in Hitem. eexists _, true. split; [apply Hitem; by left|].
      split; [reflexivity|by left].
    - eexists _, false. split; [apply Hitem; by left|]. split; [reflexivity|by left]. }
  eapply plan_establish; [exact Hit|exact Ho|exact Hc| |exact grows_kept|by apply fresh_kept|by intros pid].
  intros [P R] t' Heff Hg. split; [eapply grows_kept; [|exact Heff|done]|].
  - apply plan_calls_elem. apply bool_decide_eq_true in Ho. eauto.
  - destruct Heff as (pid & e & Hfree & Hfrom & _ & ->). exists pid, e, tr. cbn. rewrite lookup_insert_eq.
    split; [by apply (grows_fresh (P, R))|done].
Qed.

(** ** New prices keep their lookup keys *)
Definition created (c : call) : list string :=
  match c with KCreatePrice n => [nr_LookupKey n] | _ => [] end.
Definition news (t : maps) (cs : list call) : Prop :=
  forall pid o e, R0 !! pid = None -> snd t !! pid = Some (o, e) ->
    lookupKeyInSpec spec (ep_LookupKey e) <> "" /\ ep_LookupKey e ∉ List.concat (map created cs).

Lemma run_news cs t t' :
  run cs t t' -> (forall c, c ∈ cs -> okcall c) -> NoDup (List.concat (map created cs)) -> news t cs -> news t' [].
Proof.
  induction 1 as [|c cs [P R] t1 t2 He _ IH]; intros Hok Hnd Hn.
  - intros pid o e H0 Hx. destruct (Hn pid o e H0 Hx). split; [done|]. apply not_elem_of_nil.
  - cbn in Hnd. apply NoDup_app in Hnd as (_ & Hdis & Hnd). apply IH; [intros; apply Hok; by right|done|].
    assert (Hold : forall pid o e, R0 !! pid = None -> R !! pid = Some (o, e) ->
      lookupKeyInSpec spec (ep_LookupKey e) <> "" /\ ep_LookupKey e ∉ created c /\ ep_LookupKey e ∉ List.concat (map created cs)).
    { intros pid o e H0 Hx. destruct (Hn pid o e H0 Hx) as [Hk Hnot]. cbn in Hnot. set_solver. }
    pose proof (Hok c ltac:(by left)) as Hc. intros pid o e H0 Hx.
    inversion Hc as [pk' product' Hp' Hnew|pk' product' Hp'|pk' product' m Hp'
      |pk' prk' price' tr' Hd Hdirty|pid' o' e' HR Hwhy|k' Hk'|]; subst; cbn in He.
    4: { destruct He as (pid' & e' & Hfree & Hfrom & _ & ->). cbn in Hx.
         destruct (decide (pid' = pid)) as [->|Hne].
         - rewrite lookup_insert_eq in Hx. injection Hx as <- <-. destruct Hfrom as (_ & -> & _). cbn [nr_LookupKey new_price].
           split; [by eapply declared_key_of|]. apply Hdis. by left.
         - rewrite lookup_insert_ne, lookup_fmap in Hx by done. destruct (R !! pid) as [[o1 e1]|] eqn:E1; [|done].
           destruct (Hold _ _ _ H0 E1) as (Hk & Hnot & Hrest). cbn in Hx, Hnot.
           rewrite clear_key_other in Hx by (cbn; set_solver). by injection Hx as <- <-. }
    4: { subst t1. cbn in Hx. rewrite lookup_alter_ne in Hx by congruence. by destruct (Hold _ _ _ H0 Hx) as (? & _ & ?). }
    1: destruct He as [_ ->].
    all: subst; by destruct (Hold _ _ _ H0 Hx) as (? & _ & ?).
Qed.

Lemma concat_calls {A} (f : A -> list call) xs :
  List.concat (map created (List.concat (map f xs))) = List.concat (map (fun x => List.concat (map created (f x))) xs).
Proof. induction xs as [|x xs IH]; [done|]. cbn [map List.concat]. by rewrite map_app, concat_app, IH. Qed.

Lemma item_created op kind it : List.concat (map created (item_calls op kind it)) `sublist_of` new_keys it.
Proof.
  unfold item_calls, new_keys. destruct op, kind; cbn; try apply sublist_nil_l;
    destruct (it_NewPrice it); cbn; try apply sublist_nil_l;
    try destruct (it_ExistingPrice it); cbn; try apply sublist_nil_l; try done;
    try destruct (it_NewProduct it), (it_ExistingProduct it); apply sublist_nil_l.
Qed.

Lemma plan_created_nodup : NoDup (List.concat (map created (plan_calls (pl_Items plan)))).
Proof.
  pose proof (plan_keys_nodup spec l plan Hkeys Hplan) as Hnd. unfold item_keys in Hnd. unfold plan_calls. rewrite concat_calls.
  apply nodup_concat_map.
  - apply (bool_decide_eq_true_1 _). reflexivity.
  - intros [op kind] _. rewrite concat_calls. eapply sublist_NoDup; [exact Hnd|]. apply concat_map_sublist, item_created.
  - assert (Hin : forall op kind z, z ∈ List.concat (map created (List.concat (map (item_calls op kind)
        (itemsByOpKind (pl_Items plan) op kind)))) ->
      exists it, it ∈ pl_Items plan /\ (it_Op it, it_Kind it) = (op, kind) /\ z ∈ new_keys it).
    { intros op kind z. rewrite concat_calls. intros (it & Hit & Hz)%in_concat_map. exists it. unfold itemsByOpKind in Hit.
      rewrite list_elem_of_In, filter_In, <- list_elem_of_In, andb_true_iff, !bool_decide_eq_true in Hit.
      destruct Hit as (Hit & -> & ->). split; [done|]. split; [done|].
      eapply elem_of_sublist; [exact Hz|apply item_created]. }
    intros [op kind] [op' kind'] z _ _ (it & Hit & <- & Hz)%Hin (it' & Hit' & <- & Hz')%Hin.
    by rewrite (nodup_concat_inj _ _ _ _ _ Hnd Hit Hit' Hz Hz').
Qed.

Lemma final_new pid o e : R0 !! pid = None -> R' !! pid = Some (o, e) -> lookupKeyInSpec spec (ep_LookupKey e) <> "".
Proof.
  intros H0 Hx.
  destruct (run_news _ _ _ Hrun plan_calls_ok plan_created_nodup) with (pid := pid) (o := o) (e := e) as [? _]; [|done..].
  intros pid' o' e' H0' Hx'. cbn in Hx'. congruence.
Qed.

(** ** The second comparison *)
Hypothesis (Hprice : forall pk prk price, declared_price pk prk price ->
    (pr_Type price = PriceTypeRecurring /\ 0 < pr_IntervalCount price) \/ pr_Type price = PriceTypeOneTime).

Lemma created_clean pk prk price tr pid e :
  declared_price pk prk price -> price_from (new_price spec pk prk price tr) pid e -> priceNeedsReplace price e = false.
Proof.
  intros Hd (_ & _ & Ha & Ham & Hc & Hrec & Hone). cbn in *. unfold priceNeedsReplace.
  rewrite Ha, Ham, Hc, Z.eqb_refl, String.eqb_refl. cbn.
  destruct (Hprice _ _ _ Hd) as [[Ht Hn]|Ht].
  - destruct (Hrec Ht) as (Et & Ei & En). rewrite Et, Ei, En, Ht, !String.eqb_refl, Z.eqb_refl by done. done.
  - rewrite (Hone Ht), Ht. done.
Qed.

Lemma final_price pk prk price :
  declared_price pk prk price -> exists pid o e, R' !! pid = Some (pid_of o, e) /\ ep_LookupKey e = key_of pk prk /\
    priceNeedsReplace price e = false.
Proof.
  intros Hd.
  assert (Hnew : (forall e, index_prices l !! key_of pk prk = Some e -> priceNeedsReplace price e = true) ->
    exists pid o e, R' !! pid = Some (pid_of o, e) /\ ep_LookupKey e = key_of pk prk /\ priceNeedsReplace price e = false).
  { intros Hdirty. destruct (created_price pk prk price Hd Hdirty) as (_ & pid & e & tr & _ & Hx & Hfrom).
    exists pid, pk, e. split; [done|]. split; [by destruct Hfrom as (_ & -> & _)|by eapply created_clean]. }
  destruct (index_prices l !! key_of pk prk) as [e|] eqn:Ei; [|by apply Hnew; intros].
  destruct (priceNeedsReplace price e) eqn:En; [apply Hnew; by intros e' [= <-]|].
  destruct (clean_price pk prk price e Hd Ei En) as [o Ho]. exists (ep_ID e), o, e. split; [done|].
  split; [|done]. by apply index_prices_sound in Ei as (_ & _ & ?).
Qed.

Context (l' : list ExistingProduct) (Hlist' : lists (Namespace spec) (P', R') l').
Hypothesis (Howner' : forall pid o e, R' !! pid = Some (o, e) -> is_Some (P' !! o))
  (Hid' : forall pid o e, R' !! pid = Some (o, e) -> ep_ID e = pid)
  (Hunique' : forall i j o o' e e', R' !! i = Some (o, e) -> R' !! j = Some (o', e') ->
     ep_LookupKey e <> "" -> ep_LookupKey e = ep_LookupKey e' -> i = j).

Lemma second_listed k : is_Some (P' !! pid_of k) -> exists p, p ∈ l' /\ xp_ID p = pid_of k.
Proof. intros Hs. apply (ls_ids _ _ _ Hlist' (pid_of k)). split; [done|]. apply listed_id. eauto. Qed.
Lemma second_price p e : p ∈ l' -> e ∈ xp_Prices p -> R' !! ep_ID e = Some (xp_ID p, e).
Proof. intros Hp He. by apply (ls_prices _ _ _ Hlist' p e Hp) in He. Qed.

Lemma second_product pk product :
  Products spec !! pk = Some product -> diff_product spec (index_products l') pk product = [].
Proof.
  intros Hp. pose proof (final_product pk product Hp) as Hf.
  destruct (second_listed pk) as (p & Hin & Hid); [by eexists|].
  pose proof (ls_state _ _ _ Hlist' p Hin) as Hst. cbn in Hst. rewrite Hid, Hf in Hst. injection Hst as En Ed Ea.
  unfold diff_product. rewrite (proj2 (index_products_spec l' (pid_of pk) p (ls_nodup _ _ _ Hlist')) (conj Hin Hid)).
  unfold productNeedsUpdate. by rewrite <- Ea, <- En, <- Ed, !String.eqb_refl.
Qed.

Lemma second_price_clean pk prk price :
  declared_price pk prk price -> diff_price spec (index_prices l') pk prk price = [].
Proof.
  intros Hd. destruct (final_price pk prk price Hd) as (pid & o & e & HR & Hk & Hclean).
  destruct (second_listed o) as (p & Hin & Hid); [by eapply Howner'|].
  assert (He : e ∈ all_prices l').
  { apply all_prices_elem. exists p. split; [done|]. apply (ls_prices _ _ _ Hlist' p e Hin). cbn.
    by rewrite (Hid' _ _ _ HR), Hid. }
  destruct (index_prices_complete l' e He) as [e2 He2]; [rewrite Hk; apply key_nonempty|].
  rewrite Hk in He2. pose proof He2 as (_ & (p2 & Hp2 & Hin2)%all_prices_elem & Hk2)%index_prices_sound.
  pose proof (second_price p2 e2 Hp2 Hin2) as HR2.
  assert (E : ep_ID e2 = pid).
  { apply (Hunique' _ _ _ _ _ _ HR2 HR); [rewrite Hk2; apply key_nonempty|congruence]. }
  rewrite E, HR in HR2. injection HR2 as _ <-. unfold diff_price. by rewrite He2, Hclean.
Qed.

Lemma second_archive p k : p ∈ l' -> k <> "" -> xp_ID p = pid_of k -> archive_prices spec (xp_Prices p) = [].
Proof.
  intros Hp Hk Hid. apply concat_map_nil. intros e He. destruct (ep_Active e) eqn:Ea; [|by rewrite andb_false_r].
  rewrite (proj2 (String.eqb_neq _ _)); [done|]. pose proof (second_price p e Hp He) as HR.
  destruct (R0 !! ep_ID e) as [[o0 e0]|] eqn:E0; [|by eapply final_new].
  enough (o0 = pid_of k) as -> by (eapply final_old; eauto).
  assert (G : exists x, snd (P', R') !! ep_ID e = Some x /\ fst x = o0).
  { apply plan_preserve; [|cbn; eauto]. apply old_price_kept; [by eexists|..]; [|done].
    intros x pk prk price <- _ _. unfold clear_key. cbv zeta. by destruct (String.eqb _ _). }
  destruct G as (x & Hx & <-). cbn in Hx. rewrite HR in Hx. injection Hx as <-. done.
Qed.

Lemma second_empty : Diff spec l' = Some (mkPlan (Namespace spec) []).
Proof.
  assert (Hids : forall p, p ∈ l' -> exists k, xp_ID p = pid_of k).
  { intros p Hp. apply listed_id. apply (ls_ids _ _ _ Hlist' (xp_ID p)). eauto. }
  destruct (product_suffixes_spec spec l' ∅ Hns Hids) as (seen & Es & _).
  destruct (Diff spec l') as [[ns items]|] eqn:Ed; [|unfold Diff, sortedProductKeys in Ed; by rewrite Es in Ed].
  assert (ns = Namespace spec) as -> by (unfold Diff in Ed; destruct (sortedProductKeys l'); [congruence|done]).
  f_equal. f_equal. destruct items as [|it items]; [done|].
  pose proof (proj1 (Diff_items spec l' _ Hns Hids (ls_nodup _ _ _ Hlist') Ed it) ltac:(by left)) as Hit.
  exfalso. apply (not_elem_of_nil it).
  destruct Hit as [(pk & product & Hp & [Hit|(prk & price & Hr & Hit)])|(k & p & Hk & Hp & Hid & [Hit|(Hno & Ha & ->)])].
  - by rewrite second_product in Hit.
  - rewrite second_price_clean in Hit; [done|by exists product].
  - by rewrite (second_archive p k) in Hit.
  - pose proof (ls_state _ _ _ Hlist' p Hp) as Hst. cbn in Hst. rewrite Hid in Hst.
    pose proof (final_gone k Hk Hno _ Hst) as Hoff. cbn in Hoff. congruence.
Qed.
End converge.
