(* ===== verification/CatalogSyncResult.v ===== *)
(** * CatalogSyncResult: a sync that succeeds leaves nothing to do.

    The convergence of [Diff] and [Apply] over any backend that obeys [StripeLaws],
    and [Store], a backend held in memory that obeys them. *)
From S2P Require Import Prelude CatalogSpec Events CatalogSync CatalogSyncFacts CatalogSyncTheorems CatalogSyncConverge.

#[local] Arguments NamespacedProductID : simpl never.

Section sync.
Context `{GoRuntime} {B : Type} `{StripeLaws B}.

(** What a validated catalog promises to the comparison. *)
Lemma valid_product s spec pk product :
  NewSpec s = Ok spec -> Products spec !! pk = Some product -> keyRegex pk = true /\ p_Name product <> "".
Proof.
  intros Hn. pose proof (NewSpec_spec s) as Hs. rewrite Hn in Hs. destruct Hs as [Hok ->]. cbn. rewrite lookup_fmap.
  destruct (Products s !! pk) as [p|] eqn:E; [|done]. intros [= <-].
  by destruct (ok_product s Hok pk p E) as [? (? & _)].
Qed.
Lemma valid_price s spec pk prk price :
  NewSpec s = Ok spec ->
  (forall pk product prk price, Products s !! pk = Some product -> p_Prices product !! prk = Some price ->
     0 <= pr_IntervalCount price) ->
  declared_price spec pk prk price ->
  pr_Type price = PriceTypeRecurring /\ 0 < pr_IntervalCount price \/ pr_Type price = PriceTypeOneTime.
Proof.
  intros Hn Hcount. pose proof (NewSpec_spec s) as Hs. rewrite Hn in Hs. destruct Hs as [Hok ->].
  intros (product & Hp & Hr). cbn in Hp. rewrite lookup_fmap in Hp.
  destruct (Products s !! pk) as [p|] eqn:E; [|done]. injection Hp as <-. cbn in Hr. rewrite lookup_fmap in Hr.
  destruct (p_Prices p !! prk) as [r|] eqn:Er; [|done]. injection Hr as <-. cbn.
  destruct (ok_product s Hok pk p E) as [_ (_ & _ & _ & Hprices & _)].
  destruct (Hprices prk r Er) as [_ [[[Ht _]|[Ht _]] _]]; [left|by right].
  split; [done|]. rewrite Ht. cbn. specialize (Hcount _ _ _ _ E Er).
  destruct (Z.eqb_spec (pr_IntervalCount r) 0); lia.
Qed.

Lemma synced_empty s spec b b' l l' plan :
  NewSpec s = Ok spec ->
  string_has "_" (Namespace spec) = false ->
  (forall pk product prk price, Products s !! pk = Some product -> p_Prices product !! prk = Some price ->
     0 <= pr_IntervalCount price) ->
  bk_ListProductsByNamespace (Namespace spec) b = Ok l ->
  (forall pk product p, Products spec !! pk = Some product -> p ∈ l -> xp_ID p = NamespacedProductID spec pk ->
     (p_Description product = "" -> xp_Description p = "") /\
     (xp_Active p = false -> productNeedsUpdate product p = false)) ->
  Diff spec l = Some plan ->
  Apply plan b = (None, b') ->
  bk_ListProductsByNamespace (Namespace spec) b' = Ok l' ->
  Diff spec l' = Some (mkPlan (Namespace spec) []).
Proof.
  intros Hn Hns Hcount Hl Hdesc Hplan Hrun%apply_run Hl'. apply list_law in Hl, Hl'.
  pose proof (price_id b) as Hid. pose proof (price_owner b) as Ho. pose proof (price_key b) as Hk.
  pose proof (price_id b') as Hid'. pose proof (price_owner b') as Ho'. pose proof (price_key b') as Hk'.
  destruct (view b) as [P0 R0], (view b') as [P' R'].
  eapply (second_empty spec P0 R0 l plan Hns); try eassumption.
  - intros pk product Hp. by apply (valid_product s spec pk product Hn Hp).
  - intros pk product n d a Hp HP.
    destruct (proj2 (ls_ids _ _ _ Hl (NamespacedProductID spec pk))) as (p & Hin & E).
    { split; [by eexists|]. apply listed_id. eauto. }
    pose proof (ls_state _ _ _ Hl p Hin) as Hst. cbn in Hst. rewrite E, HP in Hst. injection Hst as -> -> ->.
    destruct (Hdesc pk product p Hp Hin E) as [Hd Ha]. split; [done|]. intros Hoff.
    specialize (Ha Hoff). unfold productNeedsUpdate in Ha. reflect_bools. done.
  - intros pk product Hp. by apply (valid_product s spec pk product Hn Hp).
  - intros pk prk price. by apply (valid_price s).
Qed.
(** C3: a catalog sync converges. After a plan computed from a listing of Stripe is applied
    without an error, comparing the catalog with a new listing yields the empty plan:
    every declared product and price is in place, and nothing else of the namespace is
    active. The catalog is a validated one, its namespace has no underscore and no
    interval count is negative; a description the catalog drops was empty in Stripe, and
    an archived product that is declared again has its name and description. A call that
    succeeds has been carried out ([StripeLaws]). *)
Theorem sync_converges s spec b b' l l' plan :
  NewSpec s = Ok spec ->
  string_has "_" (Namespace spec) = false ->
  (forall pk product prk price, Products s !! pk = Some product -> p_Prices product !! prk = Some price ->
     0 <= pr_IntervalCount price) ->
  bk_ListProductsByNamespace (Namespace spec) b = Ok l ->
  (forall pk product p, Products spec !! pk = Some product -> p ∈ l -> xp_ID p = NamespacedProductID spec pk ->
     (p_Description product = "" -> xp_Description p = "") /\
     (xp_Active p = false -> productNeedsUpdate product p = false)) ->
  Diff spec l = Some plan ->
  Apply plan b = (None, b') ->
  bk_ListProductsByNamespace (Namespace spec) b' = Ok l' ->
  Diff spec l' = Some (mkPlan (Namespace spec) []).
Proof. exact (synced_empty s spec b b' l l' plan). Qed.
End sync.

(** ** A namespace with an underscore *)
Section underscore.
Context `{GoRuntime} (spec : Spec) (a c : string) (l : list ExistingProduct).
Hypothesis (Hns : Namespace spec = a ^^ "_" ^^ c) (Ha : string_has "_" a = false)
  (Hl : forall p, p ∈ l -> exists k, xp_ID p = NamespacedProductID spec k /\ has_prefix (c ^^ "_") k = false).

Lemma underscore_suffix k : stripeProductSuffix (NamespacedProductID spec k) = Some (c ^^ "_" ^^ k).
Proof using Hns Ha.
  unfold stripeProductSuffix, NamespacedProductID. rewrite Hns, !append_assoc, length_append.
  cbn [String.length Nat.ltb Nat.leb Nat.add]. rewrite (drop_append "prod_"). cbn [String.append].
  by rewrite split_at_append.
Qed.
Lemma underscore_suffixes l1 seen :
  (forall p, p ∈ l1 -> p ∈ l) -> (forall k, is_Some (seen !! k) -> has_prefix (c ^^ "_") k = true) ->
  exists seen', product_suffixes l1 seen = Some seen' /\ forall k, is_Some (seen' !! k) -> has_prefix (c ^^ "_") k = true.
Proof using Hns Ha Hl.
  revert seen. induction l1 as [|p l1 IH]; intros seen Hin Hseen; cbn; [eauto|].
  destruct (Hl p) as (k & -> & _); [apply Hin; by left|]. rewrite underscore_suffix.
  apply IH; [intros q Hq; apply Hin; by right|].
  destruct (String.eqb _ ""); [done|]. intros k'. rewrite lookup_insert_is_Some'. intros [<-|Hk]; [|by apply Hseen].
  replace (c ^^ "_" ^^ k) with ((c ^^ "_") ^^ k) by (by rewrite append_assoc). apply prefix_append.
Qed.

(** In a namespace with an underscore, as the validation allows, a sync archives nothing:
    the key taken from a product's id keeps the rest of the namespace and matches no
    product, so the plan only holds what the catalog declares. *)
Theorem underscore_archives_nothing plan :
  Diff spec l = Some plan -> pl_Items plan = diff_spec spec l.
Proof using Hns Ha Hl.
  unfold Diff, sortedProductKeys. destruct (underscore_suffixes l ∅) as (seen & -> & Hseen); [done|by intros k []|].
  intros [= <-]. cbn [pl_Items]. rewrite (concat_map_nil _ _); [by rewrite app_nil_r|]. intros k Hk.
  assert (Hpre : has_prefix (c ^^ "_") k = true) by (by apply Hseen, sortedKeys_elem).
  unfold diff_current. destruct (find_product_cases (Namespace spec) k l) as [->|[Hin Hkey]].
  - cbn. by destruct (Products spec !! k).
  - destruct (Hl _ Hin) as (k' & Hid & Hno). rewrite (product_id_key _ _ _ Hid) in Hkey. congruence.
Qed.
End underscore.

(** ** A backend in memory *)
Module Store.
Definition state : Type := maps.

(** Prices carry their ids, their owners exist, and a lookup key belongs to one price. *)
Definition valid_state (s : state) : Prop :=
  map_Forall (fun pid x => ep_ID (snd x) = pid /\ is_Some (fst s !! fst x)) (snd s) /\
  map_Forall (fun i x => map_Forall (fun j y =>
    ep_LookupKey (snd x) = "" \/ ep_LookupKey (snd x) <> ep_LookupKey (snd y) \/ i = j) (snd s)) (snd s).
#[export] Instance valid_dec s : Decision (valid_state s).
Proof. unfold valid_state. apply _. Defined.

(** A call fails on a state that is not valid, and when it would leave one. *)
Definition guarded (r : option state) (s : state) : option string * state :=
  match r with
  | Some s' => if decide (valid_state s /\ valid_state s') then (None, s') else (Some "invalid request", s)
  | None => (Some "invalid request", s)
  end.
#[local] Arguments guarded : simpl never.
Definition visible (s : state) : maps := if decide (valid_state s) then s else (∅, ∅).

Definition listing (ns : string) (s : state) : list ExistingProduct :=
  map (fun '(id, (name, desc, active)) =>
    mkExProduct id name "" active desc ∅
      (map (fun x => snd (snd x)) (List.filter (fun x => String.eqb (fst (snd x)) id) (map_to_list (snd s)))))
    (List.filter (fun x => has_prefix ("prod_" ^^ ns ^^ "_") (fst x)) (map_to_list (fst s))).

Definition price_of (n : NewPrice) (pid : string) : ExistingPrice :=
  mkExPrice pid (nr_LookupKey n) true (nr_Amount n) (nr_Currency n) (nr_Type n) (nr_Interval n)
    (nr_IntervalCount n) (nr_Metadata n).
Definition key_free (key : string) (s : state) : Prop :=
  map_Forall (fun _ x => ep_LookupKey (snd x) <> key) (snd s).
#[export] Instance key_free_dec key s : Decision (key_free key s).
Proof. unfold key_free. apply _. Defined.
Definition create_price (n : NewPrice) (s : state) : option state :=
  let pid := Nat.iter (size (snd s)) (String "p") "price_" in
  if decide (snd s !! pid = None /\ (nr_TransferLookupKey n = false -> key_free (nr_LookupKey n) s)) then
    Some (fst s, <[pid := (nr_ProductID n, price_of n pid)]> (clear_key (nr_LookupKey n) <$> snd s))
  else None.

#[export] Instance backend : Backend state := {
  bk_ListProductsByNamespace ns s := if decide (valid_state s) then Ok (listing ns s) else Err "invalid state";
  bk_CreateProduct n s :=
    guarded (match fst s !! np_ID n with
             | Some _ => None
             | None => Some (<[np_ID n := (np_Name n, np_Description n, true)]> (fst s), snd s)
             end) s;
  bk_UpdateProduct id u s := guarded (Some (alter (update_product u) id (fst s), snd s)) s;
  bk_UpdateProductActive id a s := guarded (Some (alter (set_active a) id (fst s), snd s)) s;
  bk_CreatePrice n s := guarded (create_price n s) s;
  bk_UpdatePriceActive pid a s := guarded (Some (fst s, alter (set_price_active a) pid (snd s))) s;
  bk_ListMetersByNamespace _ _ := Ok [];
  bk_CreateMeter _ s := (None, s);
  bk_ArchiveMeter _ s := (None, s);
}.

Lemma guarded_ok r s s' : guarded r s = (None, s') -> r = Some s' /\ visible s = s /\ visible s' = s'.
Proof.
  unfold guarded, visible. destruct r as [r|]; [|done]. destruct (decide _) as [[Hs Hr]|]; [|done].
  intros [= ->]. by rewrite !decide_True.
Qed.
Lemma visible_valid s : valid_state (visible s).
Proof. unfold visible. destruct (decide (valid_state s)); [done|]. split; apply map_Forall_empty. Qed.

Lemma listing_elem ns s p :
  p ∈ listing ns s <-> has_prefix ("prod_" ^^ ns ^^ "_") (xp_ID p) = true /\
    fst s !! xp_ID p = Some (xp_Name p, xp_Description p, xp_Active p) /\ xp_TaxCode p = "" /\ xp_Metadata p = ∅ /\
    xp_Prices p = map (fun x => snd (snd x)) (List.filter (fun x => String.eqb (fst (snd x)) (xp_ID p)) (map_to_list (snd s))).
Proof.
  unfold listing. rewrite elem_of_map. split.
  - intros ([id [[name desc] active]] & -> & Hin). cbn.
    rewrite list_elem_of_In, filter_In, <- list_elem_of_In, elem_of_map_to_list in Hin. cbn in Hin. tauto.
  - destruct p as [id name tax active desc meta prices]. cbn. intros (Hp & Hs & -> & -> & ->).
    exists (id, (name, desc, active)). split; [done|].
    by rewrite list_elem_of_In, filter_In, <- list_elem_of_In, elem_of_map_to_list.
Qed.

Lemma listing_nodup ns s : NoDup (map xp_ID (listing ns s)).
Proof.
  unfold listing. rewrite map_map.
  rewrite (map_ext _ fst) by (intros [id [[name desc] active]]; done).
  pose proof (NoDup_fst_map_to_list (fst s)) as Hn. change (NoDup (map fst (map_to_list (fst s)))) in Hn.
  induction (map_to_list (fst s)) as [|x xs IH]; [constructor|]. cbn in Hn |- *. inversion Hn as [|? ? Hx Hxs]; subst.
  destruct (has_prefix _ (fst x)); [|by apply IH]. cbn. constructor; [|by apply IH].
  intros (y & Ey & Hy)%elem_of_map. apply Hx, elem_of_map. exists y. split; [done|].
  rewrite list_elem_of_In, filter_In, <- list_elem_of_In in Hy. tauto.
Qed.

Lemma listing_lists ns s : valid_state s -> lists ns s (listing ns s).
Proof.
  intros [Hids _]. split.
  - apply listing_nodup.
  - intros id. split.
    + intros (p & (Hp & Hs & _)%listing_elem & <-). split; [by eexists|done].
    + intros [[[[name desc] active] Hs] Hp]. eexists (mkExProduct id name "" active desc ∅ _).
      split; [|reflexivity]. apply listing_elem. cbn. do 4 (split; [done|]). reflexivity.
  - by intros p (_ & Hs & _)%listing_elem.
  - intros p e (_ & _ & _ & _ & ->)%listing_elem. rewrite elem_of_map. split.
    + intros ([pid [o e']] & -> & Hin). rewrite list_elem_of_In, filter_In, <- list_elem_of_In, elem_of_map_to_list in Hin.
      cbn in *. destruct Hin as [Hin <-%String.eqb_eq]. destruct (Hids pid _ Hin) as [E _]. cbn in E. by rewrite E.
    + intros Hin. exists (ep_ID e, (xp_ID p, e)). split; [done|].
      rewrite list_elem_of_In, filter_In, <- list_elem_of_In, elem_of_map_to_list. cbn. by rewrite String.eqb_refl.
Qed.

Lemma create_price_effect n s s' : create_price n s = Some s' -> effect (KCreatePrice n) s s'.
Proof.
  unfold create_price. cbv zeta. destruct (decide _) as [[Hfree Hkey]|]; [|done]. intros [= <-].
  destruct s as [P R]. cbn in *. eexists _, (price_of n _). split; [exact Hfree|]. split; [|split; [|reflexivity]].
  - unfold price_from. cbn. do 5 (split; [done|]). split; [|done]. intros ->. done.
  - intros Ht i o x Hx. by apply (Hkey Ht i (o, x)).
Qed.

#[export, refine] Instance laws : StripeLaws state := {| view := visible |}.
Proof.
  - intros s pid o e Hx. by destruct (proj1 (visible_valid s) pid _ Hx).
  - intros s pid o e Hx. by destruct (proj1 (visible_valid s) pid _ Hx).
  - intros s i j o o' e e' Hi Hj Hne E. destruct (proj2 (visible_valid s) i _ Hi j _ Hj) as [?|[?|?]]; done.
  - intros ns s l. cbn. destruct (decide (valid_state s)) as [Hv|]; [|done]. intros [= <-].
    unfold visible. rewrite decide_True by done. by apply listing_lists.
  - intros n s s' Hg. cbn in Hg. apply guarded_ok in Hg as (E & -> & ->). destruct s as [P R]. cbn in E |- *.
    destruct (P !! np_ID n); [done|]. by injection E as <-.
  - intros id u s s' Hg. cbn in Hg. apply guarded_ok in Hg as (E & -> & ->). destruct s as [P R]. by injection E as <-.
  - intros id a s s' Hg. cbn in Hg. apply guarded_ok in Hg as (E & -> & ->). destruct s as [P R]. by injection E as <-.
  - intros n s s' Hg. cbn in Hg. apply guarded_ok in Hg as (E & -> & ->). by apply create_price_effect.
  - intros pid a s s' Hg. cbn in Hg. apply guarded_ok in Hg as (E & -> & ->). destruct s as [P R]. by injection E as <-.
  - intros n s s' [= <-]. by destruct (visible s).
  - intros id s s' [= <-]. by destruct (visible s).
Defined.

(** A catalog with a renamed plan at a new price and a new add-on, against a store that
    also holds a product of the past. *)
Definition usd (amount : Z) (type interval : string) : Price := mkPrice amount "usd" type interval 0 "" "" [].
Definition declared : Spec :=
  mkSpec "acme"
    {[ "pro" := mkProduct "Pro" "" "txcd_1" {[ "monthly" := usd 2000 "recurring" "month" ]} None None ∅;
       "pack" := mkProduct "Pack" "Credits" "txcd_1" {[ "once" := usd 500 "one_time" "" ]} None None ∅ ]} ∅ ∅.
Definition spec : Spec := normal_spec declared.
Definition before : state :=
  ({[ "prod_acme_pro" := ("Professional", "", true); "prod_acme_old" := ("Old", "", true) ]},
   {[ "pr_1" := ("prod_acme_pro", mkExPrice "pr_1" "acme.pro.monthly" true 1000 "usd" "recurring" "month" 1 ∅);
      "pr_2" := ("prod_acme_old", mkExPrice "pr_2" "acme.old.monthly" true 900 "usd" "recurring" "month" 1 ∅) ]}).
Definition plan : Plan := default (mkPlan "" []) (Diff spec (listing "acme" before)).
Definition after : state := snd (Apply plan before).

Lemma sync_converges_witness :
  map (fun it => (it_Op it, it_Key it)) (pl_Items plan) =
    [(OpCreate, "pack"); (OpCreate, "pack.once"); (OpUpdate, "pro"); (OpReplace, "pro.monthly");
     (OpArchive, "old"); (OpArchive, "old.monthly")] /\
  Diff spec (listing "acme" after) = Some (mkPlan "acme" []).
Proof.
  split; [vm_compute; reflexivity|].
  apply (sync_converges declared spec before after (listing "acme" before) (listing "acme" after) plan).
  - vm_compute. reflexivity.
  - reflexivity.
  - assert (Hc : map_Forall (fun _ product => map_Forall (fun _ price => 0 <= pr_IntervalCount price) (p_Prices product)) (Products declared))
      by (apply (bool_decide_eq_true_1 _); vm_compute; reflexivity).
    intros pk product prk price Hp Hr. exact (Hc pk product Hp prk price Hr).
  - vm_compute. reflexivity.
  - assert (Hc : map_Forall (fun pk product => Forall (fun p => xp_ID p = NamespacedProductID spec pk ->
        (p_Description product = "" -> xp_Description p = "") /\
        (xp_Active p = false -> productNeedsUpdate product p = false)) (listing "acme" before)) (Products spec))
      by (apply (bool_decide_eq_true_1 _); vm_compute; reflexivity).
    intros pk product p Hp Hin. exact (proj1 (Forall_forall _ _) (Hc pk product Hp) p Hin).
  - vm_compute. reflexivity.
  - vm_compute. reflexivity.
  - vm_compute. reflexivity.
Defined.

(** The same catalog in the namespace my_app, and a product that is no longer declared. *)
Definition spec_my_app : Spec := mkSpec "my_app" (Products spec) ∅ ∅.
Definition gone : list ExistingProduct := [mkExProduct "prod_my_app_old" "Old" "" true "" ∅ []].
Lemma underscore_archives_nothing_witness :
  NewSpec (mkSpec "my_app" (Products declared) ∅ ∅) = Ok spec_my_app /\
  pl_Items (default (mkPlan "" []) (Diff spec_my_app gone)) = diff_spec spec_my_app gone.
Proof.
  split; [vm_compute; reflexivity|].
  apply (underscore_archives_nothing spec_my_app "my" "app" gone); [reflexivity..| |vm_compute; reflexivity].
  intros p Hp. exists "old". apply list_elem_of_singleton in Hp as ->. split; reflexivity.
Defined.
End Store.
