(* ===== verification/Credits.v ===== *)
(** * Credits: the data of the credit ledger, its repository interface and the
      [Operations] facade (src/credits/types.go, repo.go, operations.go).

    [CreditRepo] is the Go interface as a class over the repository's state: one
    method per Go method, each a function of the state and of a [stamp], the
    readings of the clock and the random identifiers the call draws. The
    in-memory implementation is CreditsMemory.v. *)
From S2P Require Import Prelude.

(** ** Data (types.go) *)
Definition SourceStripePayment : string := "stripe_payment".
Definition SourceAdminGrant : string := "admin_grant".
Definition SourceSignupBonus : string := "signup_bonus".
Definition SourceRefund : string := "refund".

Record Grant := mkGrant {
  g_ID : string;
  g_SubjectID : string;
  g_Bucket : string;
  g_AmountInitial : Z;
  g_AmountRemaining : Z;
  g_GrantedAt : Z;
  g_ExpiresAt : option Z;
  g_Source : string;
  g_SourceRef : string;
  g_Metadata : mapref;
}.

Record GrantInput := mkGrantInput {
  gi_SubjectID : string;
  gi_Bucket : string;
  gi_Amount : Z;
  gi_ValidDays : Z;
  gi_Source : string;
  gi_SourceRef : string;
  gi_Metadata : mapref;
}.

Record DeductInput := mkDeductInput {
  di_SubjectID : string;
  di_Bucket : string;
  di_Amount : Z;
  di_Reason : string;
  di_RequestID : string;
  di_Metadata : mapref;
}.

Record Deduction := mkDeduction {
  d_ID : string;
  d_SubjectID : string;
  d_Bucket : string;
  d_GrantID : string;
  d_Amount : Z;
  d_Reason : string;
  d_RequestID : string;
  d_CreatedAt : Z;
  d_Metadata : mapref;
}.

Record Balance := mkBalance {
  b_SubjectID : string;
  b_Bucket : string;
  b_Total : Z;
  b_NextExpiry : option Z;
  b_GrantCount : Z;
}.

Inductive EntryType := EntryTypeGrant | EntryTypeDeduction.

Record LedgerEntry := mkEntry {
  le_Type : EntryType;
  le_Timestamp : Z;
  le_Bucket : string;
  le_Amount : Z;
  le_Reason : string;
  le_Source : string;
  le_SourceRef : string;
  le_GrantID : string;
}.

#[export] Instance Grant_eq_dec : EqDecision Grant.
Proof. solve_decision. Defined.
#[export] Instance Grant_inhabited : Inhabited Grant :=
  populate (mkGrant "" "" "" 0 0 time_zero None "" "" None).
#[export] Instance Deduction_eq_dec : EqDecision Deduction.
Proof. solve_decision. Defined.

(** The zero [Balance]. *)
Definition Balance_zero : Balance := mkBalance "" "" 0 None 0.

(** ** Errors of the facade, and what a repository can report. *)
Inductive credits_error :=
| ErrGrantAmount        (* GrantInput.Amount must be positive *)
| ErrDeductAmount       (* DeductInput.Amount must be positive *)
| ErrRequestIDRequired  (* DeductInput.RequestID is required for idempotency *)
| ErrInsufficientCredit
| ErrGrantIDRequired    (* grantID is required *)
| ErrRepo (msg : string).

(** ** The repository interface (repo.go, CreditRepo) *)

(** What one call reads from outside: the first and later readings of the clock
    (one per bucket where a call reads it once per bucket), and the identifiers it
    draws from the random source. *)
Record stamp := mkStamp {
  st_now : Z;
  st_later : string -> Z;
  st_id : string;
  st_ids : nat -> string;
}.

Class CreditRepo (S : Type) := {
  cr_Grant : stamp -> GrantInput -> S -> res credits_error Grant * S;
  cr_ListBySubject : string -> S -> res credits_error (list Grant);
  cr_TryDeduct : stamp -> DeductInput -> S -> res credits_error (bool * Balance) * S;
  cr_Balance : stamp -> string -> string -> S -> res credits_error Balance;
  cr_AllBalances : stamp -> string -> S -> res credits_error (gmap string Balance);
  cr_RunExpiry : stamp -> S -> res credits_error (Z * Z) * S;
  cr_History : string -> Z -> S -> res credits_error (list LedgerEntry);
  cr_RevokeGrant : stamp -> string -> string -> S -> res credits_error unit * S;
  cr_FindGrantsBySourceRef : string -> S -> res credits_error (list Grant);
  (** Reading a metadata map the repository handed out. *)
  cr_metadata : S -> mapref -> smap;
  (** Building a map literal that is passed to the repository. *)
  cr_new_map : smap -> S -> nat * S;
}.

(** ** Operations (operations.go) *)
Module Operations.
Section ops.
Context {S : Type} `{CreditRepo S}.

Definition op_Grant (st : stamp) (gin : GrantInput) (s : S) : res credits_error Grant * S :=
  if gi_Amount gin <=? 0 then (Err ErrGrantAmount, s)
  else cr_Grant st gin s.

(** The Go signature returns the balance beside the error; it is the zero balance
    on the guards, and the repository's on success. *)
Definition op_TryDeduct (st : stamp) (din : DeductInput) (s : S)
  : res credits_error (bool * Balance) * S :=
  if di_Amount din <=? 0 then (Err ErrDeductAmount, s)
  else if String.eqb (di_RequestID din) "" then (Err ErrRequestIDRequired, s)
  else cr_TryDeduct st din s.

(** [Deduct] returns the balance beside [ErrInsufficientCredit] too. *)
Definition op_Deduct (st : stamp) (din : DeductInput) (s : S)
  : option Balance * option credits_error * S :=
  match op_TryDeduct st din s with
  | (Err e, s') => (None, Some e, s')
  | (Ok (false, bal), s') => (Some bal, Some ErrInsufficientCredit, s')
  | (Ok (true, bal), s') => (Some bal, None, s')
  end.

Definition op_HasAccess (st : stamp) (subject bucket : string) (s : S)
  : res credits_error bool :=
  match cr_Balance st subject bucket s with
  | Err e => Err e
  | Ok bal => Ok (0 <? b_Total bal)
  end.

Definition op_RevokeGrant (st : stamp) (grantID reason : string) (s : S)
  : res credits_error unit * S :=
  if String.eqb grantID "" then (Err ErrGrantIDRequired, s)
  else cr_RevokeGrant st grantID reason s.
End ops.
End Operations.
