(* ===== verification/CreditsMemory.v ===== *)
(** * CreditsMemory: the in-memory repository of src/credits/repo.go.

    [memoryRepo] is the Go struct under its mutex: every method holds the lock for
    its whole body, so a method is one atomic step on the state. [ledger_inv] is
    the invariant of the books, [reachable] the states a sequence of calls can
    produce. *)
From S2P Require Import Prelude Credits.

Module Memory.

(** ** State *)
Record memoryRepo := mkRepo {
  bySubject : gmap string (list Grant);
  deductionBySubject : gmap string (list Deduction);
  seenGrant : gmap string string;
  seenDeduction : gmap string string;
  repoHeap : heap;
}.

Definition NewMemoryRepo : memoryRepo := mkRepo ∅ ∅ ∅ ∅ heap_empty.

(** A missing key of a Go map of slices reads as the nil slice. *)
Definition grants_of (r : memoryRepo) (s : string) : list Grant :=
  default [] (bySubject r !! s).
Definition deductions_of (r : memoryRepo) (s : string) : list Deduction :=
  default [] (deductionBySubject r !! s).

Definition set_remaining (z : Z) (g : Grant) : Grant :=
  mkGrant (g_ID g) (g_SubjectID g) (g_Bucket g) (g_AmountInitial g) z
    (g_GrantedAt g) (g_ExpiresAt g) (g_Source g) (g_SourceRef g) (g_Metadata g).
Definition set_metadata (m : mapref) (g : Grant) : Grant :=
  mkGrant (g_ID g) (g_SubjectID g) (g_Bucket g) (g_AmountInitial g) (g_AmountRemaining g)
    (g_GrantedAt g) (g_ExpiresAt g) (g_Source g) (g_SourceRef g) m.

(** [g.ExpiresAt != nil && g.ExpiresAt.Before(now)]. *)
Definition expired (now : Z) (g : Grant) : bool :=
  match g_ExpiresAt g with
  | Some e => e <? now
  | None => false
  end.

(** ** Grant *)
Definition grantDedupKey (gin : GrantInput) : string :=
  if String.eqb (gi_SourceRef gin) "" then ""
  else gi_SubjectID gin ^^ "|" ^^ gi_Bucket gin ^^ "|" ^^ gi_SourceRef gin.

Fixpoint find_id (id : string) (gs : list Grant) : option Grant :=
  match gs with
  | [] => None
  | g :: gs' => if String.eqb (g_ID g) id then Some g else find_id id gs'
  end.

Section repo.
Context `{GoRuntime}.

Definition new_grant (now : Z) (newID : string) (gin : GrantInput) : Grant :=
  mkGrant newID (gi_SubjectID gin) (gi_Bucket gin) (gi_Amount gin) (gi_Amount gin) now
    (if 0 <? gi_ValidDays gin then Some (add_days now (gi_ValidDays gin)) else None)
    (gi_Source gin) (gi_SourceRef gin) (gi_Metadata gin).

Definition repo_Grant (now : Z) (newID : string) (gin : GrantInput) (r : memoryRepo)
  : Grant * memoryRepo :=
  let dedupKey := grantDedupKey gin in
  let hit :=
    if String.eqb dedupKey "" then None
    else match seenGrant r !! dedupKey with
         | Some id => find_id id (grants_of r (gi_SubjectID gin))
         | None => None
         end in
  match hit with
  | Some g => (g, r)
  | None =>
      let g := new_grant now newID gin in
      (g, mkRepo
            (<[gi_SubjectID gin := grants_of r (gi_SubjectID gin) ++ [g]]> (bySubject r))
            (deductionBySubject r)
            (if String.eqb dedupKey "" then seenGrant r else <[dedupKey := newID]> (seenGrant r))
            (seenDeduction r) (repoHeap r))
  end.

(** ** Balance *)
Definition balance_step (now : Z) (bucket : string) (bal : Balance) (g : Grant) : Balance :=
  if negb (String.eqb (g_Bucket g) bucket) || (g_AmountRemaining g <=? 0) then bal
  else if expired now g then bal
  else
    mkBalance (b_SubjectID bal) (b_Bucket bal)
      (add64 (b_Total bal) (g_AmountRemaining g))
      (match g_ExpiresAt g with
       | Some e =>
           match b_NextExpiry bal with
           | None => Some e
           | Some ne => if e <? ne then Some e else Some ne
           end
       | None => b_NextExpiry bal
       end)
      (b_GrantCount bal + 1).

Definition balanceLocked (now : Z) (subject bucket : string) (r : memoryRepo) : Balance :=
  foldl (balance_step now bucket) (mkBalance subject bucket 0 None 0) (grants_of r subject).

Definition repo_AllBalances (now_for : string -> Z) (subject : string) (r : memoryRepo)
  : gmap string Balance :=
  foldr (fun g out => <[g_Bucket g := balanceLocked (now_for (g_Bucket g)) subject (g_Bucket g) r]> out)
    ∅ (grants_of r subject).

(** ** TryDeduct *)
Record idx := mkIdx { i_i : nat; i_expires : Z; i_neverExp : bool }.

Fixpoint build_pool (now : Z) (bucket : string) (i : nat) (gs : list Grant) : list idx :=
  match gs with
  | [] => []
  | g :: gs' =>
      let rest := build_pool now bucket (S i) gs' in
      if g_AmountRemaining g <=? 0 then rest
      else if expired now g then rest
      else if negb (String.eqb (g_Bucket g) bucket) then rest
      else match g_ExpiresAt g with
           | None => mkIdx i time_zero true :: rest
           | Some e => mkIdx i e false :: rest
           end
  end.

Definition pool_less (grants : list Grant) (a b : idx) : bool :=
  if negb (Bool.eqb (i_neverExp a) (i_neverExp b)) then negb (i_neverExp a)
  else if i_expires a =? i_expires b
       then g_GrantedAt (grants !!! i_i a) <? g_GrantedAt (grants !!! i_i b)
       else i_expires a <? i_expires b.

(** The planning loop: the steps it appends and what remains. *)
Fixpoint plan_deductions (grants : list Grant) (pool : list idx) (remaining : Z)
  : list (nat * Z) * Z :=
  match pool with
  | [] => ([], remaining)
  | p :: pool' =>
      if remaining =? 0 then ([], remaining)
      else
        let avail := g_AmountRemaining (grants !!! i_i p) in
        let take := if remaining <? avail then remaining else avail in
        let '(steps, unmet) := plan_deductions grants pool' (sub64 remaining take) in
        ((i_i p, take) :: steps, unmet)
  end.

(** The applying loop, on the subject's grants and deductions. *)
Fixpoint apply_steps (now : Z) (ids : nat -> string) (k : nat) (din : DeductInput)
    (steps : list (nat * Z)) (gs : list Grant) (ds : list Deduction)
  : list Grant * list Deduction :=
  match steps with
  | [] => (gs, ds)
  | (i, take) :: steps' =>
      let g := gs !!! i in
      let gs' := <[i := set_remaining (sub64 (g_AmountRemaining g) take) g]> gs in
      let d := mkDeduction (ids k) (di_SubjectID din) (di_Bucket din) (g_ID g) take
                 (di_Reason din) (di_RequestID din) now (di_Metadata din) in
      apply_steps now ids (S k) din steps' gs' (ds ++ [d])
  end.

Definition deductKey (din : DeductInput) : string :=
  di_SubjectID din ^^ "|" ^^ di_RequestID din.

Definition repo_TryDeduct (now now_bal : Z) (ids : nat -> string) (din : DeductInput)
    (r : memoryRepo) : bool * Balance * memoryRepo :=
  let subject := di_SubjectID din in
  let hasReq := negb (String.eqb (di_RequestID din) "") in
  if hasReq && bool_decide (is_Some (seenDeduction r !! deductKey din)) then
    (true, balanceLocked now_bal subject (di_Bucket din) r, r)
  else
    let grants := grants_of r subject in
    let pool := sort_slice (pool_less grants) (build_pool now (di_Bucket din) 0 grants) in
    let '(steps, remaining) := plan_deductions grants pool (di_Amount din) in
    if 0 <? remaining then
      (false, balanceLocked now_bal subject (di_Bucket din) r, r)
    else
      let '(gs', ds') := apply_steps now ids 0 din steps grants (deductions_of r subject) in
      let r' := mkRepo (<[subject := gs']> (bySubject r))
                  (match steps with
                   | [] => deductionBySubject r
                   | _ => <[subject := ds']> (deductionBySubject r)
                   end)
                  (seenGrant r)
                  (if hasReq then <[deductKey din := "ok"]> (seenDeduction r) else seenDeduction r)
                  (repoHeap r) in
      (true, balanceLocked now_bal subject (di_Bucket din) r', r').

(** ** RunExpiry *)
Fixpoint expire_grants (now : Z) (gs : list Grant) (acc : Z * Z) : list Grant * (Z * Z) :=
  match gs with
  | [] => ([], acc)
  | g :: gs' =>
      if expired now g && (0 <? g_AmountRemaining g) then
        let '(rest, acc') := expire_grants now gs'
            (add64 (fst acc) 1, add64 (snd acc) (g_AmountRemaining g)) in
        (set_remaining 0 g :: rest, acc')
      else
        let '(rest, acc') := expire_grants now gs' acc in
        (g :: rest, acc')
  end.

Fixpoint expire_subjects (now : Z) (l : list (string * list Grant))
    (m : gmap string (list Grant)) (acc : Z * Z) : gmap string (list Grant) * (Z * Z) :=
  match l with
  | [] => (m, acc)
  | (subj, gs) :: l' =>
      let '(gs', acc') := expire_grants now gs acc in
      expire_subjects now l' (<[subj := gs']> m) acc'
  end.

Definition repo_RunExpiry (now : Z) (r : memoryRepo) : Z * Z * memoryRepo :=
  let '(m, acc) := expire_subjects now (map_range (bySubject r)) (bySubject r) (0, 0) in
  (acc, mkRepo m (deductionBySubject r) (seenGrant r) (seenDeduction r) (repoHeap r)).

(** ** History *)
Definition grant_entry (g : Grant) : LedgerEntry :=
  mkEntry EntryTypeGrant (g_GrantedAt g) (g_Bucket g) (g_AmountInitial g) ""
    (g_Source g) (g_SourceRef g) (g_ID g).
Definition deduction_entry (d : Deduction) : LedgerEntry :=
  mkEntry EntryTypeDeduction (d_CreatedAt d) (d_Bucket d) (d_Amount d) (d_Reason d)
    "" "" (d_GrantID d).
Definition entry_less (a b : LedgerEntry) : bool := le_Timestamp a <? le_Timestamp b.

Definition repo_History (subject : string) (since : Z) (r : memoryRepo) : list LedgerEntry :=
  sort_slice entry_less
    (map grant_entry (List.filter (fun g => negb (g_GrantedAt g <? since)) (grants_of r subject)) ++
     map deduction_entry
       (List.filter (fun d => negb (d_CreatedAt d <? since)) (deductions_of r subject))).

(** ** RevokeGrant *)
Fixpoint index_of (id : string) (i : nat) (gs : list Grant) : option nat :=
  match gs with
  | [] => None
  | g :: gs' => if String.eqb (g_ID g) id then Some i else index_of id (S i) gs'
  end.

(** The body of the inner loop for the grant it found: a nil metadata map is
    replaced by a fresh one, then the map, shared with whoever holds it, is written. *)
Definition revoke_at (now : Z) (reason : string) (subj : string) (i : nat) (gs : list Grant)
    (r : memoryRepo) : memoryRepo :=
  let g := set_remaining 0 (gs !!! i) in
  let '(l, h) :=
    match g_Metadata g with
    | Some l => (l, repoHeap r)
    | None => halloc ∅ (repoHeap r)
    end in
  let h' := hwrite l "revoked_at" (format_rfc3339 now) (hwrite l "revoked_reason" reason h) in
  mkRepo (<[subj := <[i := set_metadata (Some l) g]> gs]> (bySubject r))
    (deductionBySubject r) (seenGrant r) (seenDeduction r) h'.

Fixpoint revoke_scan (now : Z) (grantID reason : string) (l : list (string * list Grant))
    (r : memoryRepo) : memoryRepo :=
  match l with
  | [] => r
  | (subj, gs) :: l' =>
      match index_of grantID 0 gs with
      | Some i => revoke_at now reason subj i gs r
      | None => revoke_scan now grantID reason l' r
      end
  end.

Definition repo_RevokeGrant (now : Z) (grantID reason : string) (r : memoryRepo) : memoryRepo :=
  revoke_scan now grantID reason (map_range (bySubject r)) r.

(** ** FindGrantsBySourceRef and ListBySubject *)
Definition repo_FindGrantsBySourceRef (sourceRef : string) (r : memoryRepo) : list Grant :=
  if String.eqb sourceRef "" then []
  else List.concat (map (fun '(_, gs) =>
         List.filter (fun g => String.eqb (g_SourceRef g) sourceRef) gs) (map_range (bySubject r))).

Definition repo_ListBySubject (subject : string) (r : memoryRepo) : list Grant :=
  grants_of r subject.

(** ** The interface *)
#[export] Instance memory_CreditRepo : CreditRepo memoryRepo := {|
  cr_Grant st gin r := let '(g, r') := repo_Grant (st_now st) (st_id st) gin r in (Ok g, r');
  cr_ListBySubject s r := Ok (repo_ListBySubject s r);
  cr_TryDeduct st din r :=
    let '(ok, bal, r') :=
      repo_TryDeduct (st_now st) (st_later st (di_Bucket din)) (st_ids st) din r in
    (Ok (ok, bal), r');
  cr_Balance st s b r := Ok (balanceLocked (st_now st) s b r);
  cr_AllBalances st s r := Ok (repo_AllBalances (st_later st) s r);
  cr_RunExpiry st r := let '(acc, r') := repo_RunExpiry (st_now st) r in (Ok acc, r');
  cr_History s since r := Ok (repo_History s since r);
  cr_RevokeGrant st id reason r := (Ok tt, repo_RevokeGrant (st_now st) id reason r);
  cr_FindGrantsBySourceRef ref r := Ok (repo_FindGrantsBySourceRef ref r);
  cr_metadata r m := hread (repoHeap r) m;
  cr_new_map m r :=
    let '(l, h) := halloc m (repoHeap r) in
    (l, mkRepo (bySubject r) (deductionBySubject r) (seenGrant r) (seenDeduction r) h);
|}.
End repo.
End Memory.
