(* ===== verification/CreditsMemoryFacts.v ===== *)
(** * CreditsMemoryFacts: the in-memory ledger keeps its books.

    [acct_ok] is the invariant of one subject's account, [ledger_inv] of the whole
    repository, [reachable] the states the facade can produce. *)
From S2P Require Import Prelude Ledger Credits CreditsMemory.
Import Memory.

(** ** Accounts *)

(** What the deductions [ds] took from the grant [id]. *)
Definition spent (ds : list Deduction) (id : string) : Z :=
  sumZ (map (fun d => if String.eqb (d_GrantID d) id then d_Amount d else 0) ds).

(** The grants a deduction from [bucket] may draw on at [now], and their total. *)
Definition eligible (now : Z) (bucket : string) (g : Grant) : bool :=
  (0 <? g_AmountRemaining g) && negb (expired now g) && String.eqb (g_Bucket g) bucket.
Definition spendable (now : Z) (bucket : string) (g : Grant) : Z :=
  if eligible now bucket g then g_AmountRemaining g else 0.
Definition avail (now : Z) (bucket : string) (gs : list Grant) : Z :=
  sumZ (map (spendable now bucket) gs).

(** The books of one grant: nothing negative, nothing spent twice, and every credit
    accounted for as long as the grant has not been closed. *)
Definition grant_ok (ds : list Deduction) (g : Grant) : Prop :=
  0 <= g_AmountRemaining g /\
  g_AmountRemaining g + spent ds (g_ID g) <= g_AmountInitial g <= int64_max /\
  (g_AmountRemaining g = 0 \/ g_AmountRemaining g + spent ds (g_ID g) = g_AmountInitial g).

Record acct_ok (gs : list Grant) (ds : list Deduction) : Prop := {
  acct_ids : NoDup (map g_ID gs);
  acct_books : Forall (grant_ok ds) gs;
  acct_deductions : Forall (fun d => 0 < d_Amount d /\ d_GrantID d ∈ map g_ID gs) ds;
}.

(** *** Sums over an updated list *)
Lemma spent_app ds ds' id : spent (ds ++ ds') id = spent ds id + spent ds' id.
Proof. unfold spent. by rewrite map_app, sumZ_app. Qed.

Lemma spent_nonneg ds id : Forall (fun d => 0 < d_Amount d) ds -> 0 <= spent ds id.
Proof.
  intros H. apply sumZ_nonneg, Forall_map. eapply Forall_impl; [exact H|].
  intros d Hd. cbn in *. destruct (String.eqb _ _); lia.
Qed.

Lemma spent_fresh ds id : id ∉ map d_GrantID ds -> spent ds id = 0.
Proof.
  unfold spent. induction ds as [|d ds IH]; [done|]. cbn [map]. rewrite sumZ_cons.
  intros [Hne Hd]%not_elem_of_cons. rewrite (IH Hd).
  destruct (String.eqb_spec (d_GrantID d) id); [congruence | lia].
Qed.

Lemma avail_insert now b gs i g g' :
  gs !! i = Some g ->
  avail now b (<[i:=g']> gs) = avail now b gs - spendable now b g + spendable now b g'.
Proof.
  intros Hi. unfold avail. rewrite map_insert. apply sumZ_insert. by rewrite map_lookup, Hi.
Qed.

Lemma avail_snoc now b gs g : avail now b (gs ++ [g]) = avail now b gs + spendable now b g.
Proof. unfold avail. rewrite map_app, sumZ_app. cbn. lia. Qed.

(** *** One deduction step keeps an account in order *)
Definition deduct_from (take : Z) (g : Grant) : Grant :=
  set_remaining (g_AmountRemaining g - take) g.

Lemma grant_ok_int64 ds g take :
  0 <= spent ds (g_ID g) -> grant_ok ds g -> 0 <= take <= g_AmountRemaining g ->
  in_int64 (g_AmountRemaining g - take).
Proof. unfold grant_ok, in_int64, int64_min, int64_max. lia. Qed.

Lemma acct_spent_nonneg gs ds id : acct_ok gs ds -> 0 <= spent ds id.
Proof. intros [_ _ H]. apply spent_nonneg. eapply Forall_impl; [exact H|]. by intros d [? _]. Qed.

Lemma acct_ok_step gs ds i g take d :
  acct_ok gs ds -> gs !! i = Some g -> 0 < take <= g_AmountRemaining g ->
  d_GrantID d = g_ID g -> d_Amount d = take ->
  acct_ok (<[i := deduct_from take g]> gs) (ds ++ [d]).
Proof.
  intros [Hids Hbooks Hds] Hi Htake Hid Hamt.
  assert (Hmap : map g_ID (<[i := deduct_from take g]> gs) = map g_ID gs)
    by (by apply (map_insert_same _ _ _ g)).
  assert (Hd1 : forall id, spent [d] id = if String.eqb (g_ID g) id then take else 0).
  { intros id. unfold spent. cbn. rewrite Hid, Hamt. lia. }
  rewrite Forall_lookup in Hbooks. split.
  - by rewrite Hmap.
  - apply Forall_lookup. intros j g' Hj. unfold grant_ok. rewrite spent_app, Hd1.
    destruct (decide (i = j)) as [<-|Hne].
    + rewrite list_lookup_insert_eq in Hj by (by eapply lookup_lt_Some).
      injection Hj as <-. cbn. rewrite String.eqb_refl.
      specialize (Hbooks i g Hi). unfold grant_ok in Hbooks. lia.
    + rewrite list_lookup_insert_ne in Hj by done.
      destruct (String.eqb_spec (g_ID g) (g_ID g')) as [E|_].
      * by destruct Hne; eapply (NoDup_map_inj g_ID gs).
      * specialize (Hbooks j g' Hj). unfold grant_ok in Hbooks. lia.
  - rewrite Hmap, Forall_app. split; [done|]. constructor; [|done].
    rewrite Hid, Hamt. split; [lia|]. apply elem_of_map. exists g. split; [done|].
    by eapply list_elem_of_lookup_2.
Qed.

(** Lowering what remains (expiry, revocation) keeps it in order too. *)
Definition lowered (g g' : Grant) : Prop :=
  g_ID g' = g_ID g /\ g_AmountInitial g' = g_AmountInitial g /\
  (g_AmountRemaining g' = g_AmountRemaining g \/ g_AmountRemaining g' = 0).

Lemma acct_ok_lower gs gs' ds :
  acct_ok gs ds -> Forall2 lowered gs gs' -> acct_ok gs' ds.
Proof.
  intros Hok Hl. assert (Hsp : forall id, 0 <= spent ds id) by (intros id; by eapply acct_spent_nonneg).
  destruct Hok as [Hids Hbooks Hds].
  assert (Hmap : map g_ID gs' = map g_ID gs).
  { clear Hids Hbooks Hds Hsp. induction Hl as [|g g' gs gs' Hg _ IH]; [done|].
    cbn. rewrite IH. f_equal. apply Hg. }
  split; rewrite ?Hmap; [done| |done].
  clear Hids Hds Hmap. induction Hl as [|g g' gs gs' (Hid & Hin & Hr) _ IH]; [done|].
  inv Hbooks. constructor; [|auto]. unfold grant_ok in *. rewrite Hid, Hin. specialize (Hsp (g_ID g)). lia.
Qed.

Lemma acct_ok_grant gs ds g :
  acct_ok gs ds -> g_ID g ∉ map g_ID gs ->
  g_AmountRemaining g = g_AmountInitial g -> 0 <= g_AmountInitial g <= int64_max ->
  acct_ok (gs ++ [g]) ds.
Proof.
  intros [Hids Hbooks Hds] Hnew Hr Hmax.
  split; rewrite ?map_app, ?Forall_app.
  - apply NoDup_app. split; [done|]. split; [|by apply NoDup_singleton].
    intros x Hx ->%list_elem_of_singleton. done.
  - split; [done|]. constructor; [|done]. unfold grant_ok. rewrite spent_fresh; [lia|].
    intros (d & E & Hd)%elem_of_map. rewrite Forall_forall in Hds.
    destruct (Hds d Hd) as [_ Hin]. apply Hnew. by rewrite E.
  - eapply Forall_impl; [exact Hds|]. intros d [? Hin]. cbn in *. split; [done|].
    apply elem_of_app. by left.
Qed.

(** *** The pool of a deduction *)
Lemma expired_None now g : g_ExpiresAt g = None -> expired now g = false.
Proof. unfold expired. by intros ->. Qed.

Definition entry (i : nat) (g : Grant) : idx :=
  match g_ExpiresAt g with
  | None => mkIdx i time_zero true
  | Some e => mkIdx i e false
  end.

Lemma entry_i i g : i_i (entry i g) = i.
Proof. unfold entry. by destruct (g_ExpiresAt g). Qed.

Lemma build_pool_cons now b k g gs :
  build_pool now b k (g :: gs) =
    if eligible now b g then entry k g :: build_pool now b (S k) gs
    else build_pool now b (S k) gs.
Proof.
  cbn. unfold eligible, entry.
  rewrite Z.ltb_antisym. destruct (g_AmountRemaining g <=? 0), (expired now g),
    (String.eqb (g_Bucket g) b), (g_ExpiresAt g); done.
Qed.

Lemma build_pool_elem now b k gs p :
  p ∈ build_pool now b k gs <->
  exists i g, gs !! i = Some g /\ eligible now b g = true /\ p = entry (k + i) g.
Proof.
  revert k. induction gs as [|g gs IH]; intros k.
  { cbn. split; [by intros ?%not_elem_of_nil | by intros (?&?&?&_)]. }
  rewrite build_pool_cons.
  assert (Hs : p ∈ build_pool now b (S k) gs <->
    exists i g', (g :: gs) !! S i = Some g' /\ eligible now b g' = true /\ p = entry (k + S i) g').
  { rewrite IH. cbn. by setoid_rewrite Nat.add_succ_r. }
  destruct (eligible now b g) eqn:E; rewrite ?elem_of_cons, Hs; split.
  - intros [->|(i & g' & ?)]; [exists O, g; by rewrite Nat.add_0_r | by exists (S i), g'].
  - intros ([|i] & g' & Hi & He & ->); [left|right; by exists i, g'].
    cbn in Hi. simplify_eq. by rewrite Nat.add_0_r.
  - intros (i & g' & ?). by exists (S i), g'.
  - intros ([|i] & g' & Hi & He & ->); [|by exists i, g']. cbn in Hi. congruence.
Qed.

Lemma build_pool_NoDup now b k gs : NoDup (map i_i (build_pool now b k gs)).
Proof.
  revert k. induction gs as [|g gs IH]; intros k; [constructor|].
  rewrite build_pool_cons. destruct (eligible now b g); [|done].
  cbn [map]. rewrite entry_i. constructor; [|done].
  intros (p & E & (i & g' & _ & _ & ->)%build_pool_elem)%elem_of_map.
  rewrite entry_i in E. lia.
Qed.

(** What each entry of the pool has to offer. *)
Definition offers (gs : list Grant) (pool : list idx) : list (nat * Z) :=
  map (fun p => (i_i p, g_AmountRemaining (gs !!! i_i p))) pool.

Lemma offers_sum now b gs :
  pool_sum (offers gs (build_pool now b 0 gs)) = avail now b gs.
Proof.
  assert (G : forall pre post, pool_sum (offers (pre ++ post)
              (build_pool now b (List.length pre) post)) = avail now b post).
  { intros pre post. revert pre. induction post as [|g post IH]; intros pre; [done|].
    specialize (IH (pre ++ [g])). rewrite length_app, Nat.add_1_r, <- app_assoc in IH.
    rewrite build_pool_cons. unfold avail, spendable in *. cbn [map app] in *.
    rewrite sumZ_cons, <- IH. destruct (eligible now b g); [|done].
    unfold offers. cbn [map]. rewrite pool_sum_cons, entry_i. f_equal.
    by rewrite list_lookup_total_middle. }
  apply (G []).
Qed.

Lemma offers_keys gs pool : map fst (offers gs pool) = map i_i pool.
Proof. unfold offers. by rewrite map_map. Qed.

#[export] Instance offers_perm gs : Proper ((≡ₚ) ==> (≡ₚ)) (offers gs).
Proof. intros p q E. by apply Permutation_map. Qed.

Lemma pool_sum_perm {K} (p q : list (K * Z)) : p ≡ₚ q -> pool_sum p = pool_sum q.
Proof. unfold pool_sum. by intros ->. Qed.

(** *** The order of the pool *)
#[export] Instance pool_less_order grants : StrictWeak (pool_less grants).
Proof.
  split; unfold pool_less.
  - intros [i e n] [i' e' n']. cbn. destruct n, n'; cbn; repeat break_match; reflect_bools;
      rewrite ?Z.ltb_lt, ?Z.ltb_ge; intros; try done; lia.
  - intros [i e n] [i' e' n'] [i'' e'' n'']. cbn.
    destruct n, n', n''; cbn; repeat break_match; reflect_bools;
      rewrite ?Z.ltb_ge; intros; try done; lia.
Qed.

(** *** The planning loop is the greedy draw *)
Lemma plan_is_draw gs pool a :
  positive_pool (offers gs pool) -> 0 <= a <= int64_max ->
  plan_deductions gs pool a = draw (offers gs pool) a.
Proof.
  revert a. induction pool as [|p pool IH]; intros a Hp Ha; [done|].
  unfold positive_pool, offers in Hp. cbn [map] in Hp. inv Hp. cbn in *.
  destruct (a =? 0) eqn:E; [done|]. reflect_bools.
  set (v := g_AmountRemaining (gs !!! i_i p)) in *.
  set (t := if a <? v then a else v).
  assert (0 <= t <= a) by (unfold t; break_match; reflect_bools; lia).
  rewrite sub64_exact by (unfold in_int64, int64_min, int64_max in *; lia).
  rewrite IH by (done || lia). done.
Qed.

(** *** The applying loop *)

(** What the steps take from position [j]. *)
Definition taken (steps : list (nat * Z)) (j : nat) : Z :=
  sumZ (map (fun '(i, t) => if decide (i = j) then t else 0) steps).

(** Steps that draw, at most once per grant, no more than it has left. *)
Record steps_ok (gs : list Grant) (steps : list (nat * Z)) : Prop := {
  steps_keys : NoDup (map fst steps);
  steps_within : Forall (fun '(i, t) =>
    exists g, gs !! i = Some g /\ 0 < t <= g_AmountRemaining g) steps;
}.

Lemma deduct_from_0 g : deduct_from 0 g = g.
Proof. destruct g. unfold deduct_from, set_remaining. cbn. by rewrite Z.sub_0_r. Qed.

Lemma taken_notin steps j : j ∉ map fst steps -> taken steps j = 0.
Proof.
  unfold taken. induction steps as [|[i t] steps IH]; [done|]. cbn [map fst].
  intros [Hne Hj]%not_elem_of_cons. rewrite sumZ_cons, (IH Hj).
  by destruct (decide (i = j)); [congruence|].
Qed.

Lemma taken_lookup steps k i t :
  NoDup (map fst steps) -> steps !! k = Some (i, t) -> taken steps i = t.
Proof.
  revert k. induction steps as [|[i' t'] steps IH]; intros k Hn Hk; [done|].
  cbn in Hn. inv Hn. change (taken ((i', t') :: steps) i)
    with ((if decide (i' = i) then t' else 0) + taken steps i).
  destruct k as [|k]; cbn in Hk.
  - simplify_eq. rewrite decide_True, taken_notin by done. lia.
  - rewrite (IH k) by done. rewrite decide_False; [lia|]. intros ->.
    apply H1, elem_of_map. exists (i, t). split; [done|]. by eapply list_elem_of_lookup_2.
Qed.

Lemma steps_ok_cons gs i t steps :
  steps_ok gs ((i, t) :: steps) ->
  exists g, gs !! i = Some g /\ gs !!! i = g /\ 0 < t <= g_AmountRemaining g /\
    (i ∉ map fst steps) /\ steps_ok (<[i := deduct_from t g]> gs) steps.
Proof.
  intros [Hk Hw]. inv Hk. inv Hw. destruct H3 as (g & Hi & Ht).
  exists g. split; [done|]. split; [by apply list_lookup_total_correct|]. do 2 (split; [done|]).
  split; [done|]. rewrite Forall_forall in H4 |- *. intros [j u] Hin.
  destruct (H4 _ Hin) as (g' & Hj & Hu). exists g'. split; [|done].
  rewrite list_lookup_insert_ne; [done|]. intros ->. apply H1. apply elem_of_map.
  by exists (j, u).
Qed.

(** The deductions the loop appends, in order. *)
Fixpoint new_deductions (now : Z) (ids : nat -> string) (k : nat) (din : DeductInput)
    (gs : list Grant) (steps : list (nat * Z)) : list Deduction :=
  match steps with
  | [] => []
  | (i, t) :: steps' =>
      mkDeduction (ids k) (di_SubjectID din) (di_Bucket din) (g_ID (gs !!! i)) t
        (di_Reason din) (di_RequestID din) now (di_Metadata din)
      :: new_deductions now ids (S k) din gs steps'
  end.

Lemma new_deductions_ids now ids k din gs gs' steps :
  map g_ID gs' = map g_ID gs ->
  Forall (fun '(i, _) => is_Some (gs !! i)) steps ->
  new_deductions now ids k din gs' steps = new_deductions now ids k din gs steps.
Proof.
  intros E. revert k. induction steps as [|[i t] steps IH]; intros k Hs; [done|].
  inv Hs. cbn. rewrite IH by done. destruct H1 as [g Hg].
  assert (map g_ID gs' !! i = Some (g_ID g)) as Hg' by (by rewrite E, map_lookup, Hg).
  rewrite map_lookup in Hg'. destruct (gs' !! i) as [g'|] eqn:Hi; [|done].
  cbn in Hg'. simplify_eq.
  rewrite (list_lookup_total_correct _ _ _ Hg), (list_lookup_total_correct _ _ _ Hi).
  by rewrite Hg'.
Qed.

(** The grants once the steps are settled. *)
Definition settle (steps : list (nat * Z)) (gs : list Grant) : list Grant :=
  imap (fun j g => deduct_from (taken steps j) g) gs.

Lemma settle_lookup steps gs j : settle steps gs !! j = deduct_from (taken steps j) <$> gs !! j.
Proof. unfold settle. by rewrite list_lookup_imap. Qed.

Lemma settle_nil gs : settle [] gs = gs.
Proof.
  apply list_eq. intros j. rewrite settle_lookup.
  by destruct (gs !! j); cbn; rewrite ?deduct_from_0.
Qed.

Lemma taken_cons i t steps j :
  taken ((i, t) :: steps) j = (if decide (i = j) then t else 0) + taken steps j.
Proof. done. Qed.

Lemma settle_cons gs i g t steps :
  gs !! i = Some g -> i ∉ map fst steps ->
  settle steps (<[i := deduct_from t g]> gs) = settle ((i, t) :: steps) gs.
Proof.
  intros Hi Hnot. apply list_eq. intros j. rewrite !settle_lookup, taken_cons.
  destruct (decide (i = j)) as [<-|Hne].
  - rewrite list_lookup_insert_eq by (by eapply lookup_lt_Some). rewrite Hi. cbn.
    by rewrite (taken_notin _ _ Hnot), deduct_from_0, Z.add_0_r.
  - by rewrite list_lookup_insert_ne.
Qed.

Lemma apply_steps_spec now ids k din steps gs ds :
  acct_ok gs ds -> steps_ok gs steps ->
  apply_steps now ids k din steps gs ds =
    (settle steps gs, ds ++ new_deductions now ids k din gs steps) /\
  acct_ok (settle steps gs)
    (ds ++ new_deductions now ids k din gs steps).
Proof.
  revert k gs ds. induction steps as [|[i t] steps IH]; intros k gs ds Hok Hs.
  - rewrite settle_nil. cbn. by rewrite app_nil_r.
  - destruct (steps_ok_cons _ _ _ _ Hs) as (g & Hi & Hi' & Ht & Hnot & Hs'). cbn. rewrite Hi'.
    assert (Hrem : sub64 (g_AmountRemaining g) t = g_AmountRemaining g - t).
    { apply sub64_exact, (grant_ok_int64 ds); [by eapply acct_spent_nonneg| |lia].
      by eapply (Forall_lookup_1 _ _ _ _ (acct_books _ _ Hok)). }
    rewrite Hrem. fold (deduct_from t g).
    set (d := mkDeduction _ _ _ _ _ _ _ _ _).
    assert (Hok' : acct_ok (<[i := deduct_from t g]> gs) (ds ++ [d]))
      by (by apply (acct_ok_step gs ds i g t)).
    destruct (IH (S k) _ _ Hok' Hs') as [-> Hfin].
    assert (Ed : new_deductions now ids (S k) din (<[i := deduct_from t g]> gs) steps
               = new_deductions now ids (S k) din gs steps).
    { apply new_deductions_ids; [by apply (map_insert_same _ _ _ g)|].
      destruct Hs as [_ Hw]. inv Hw. eapply Forall_impl; [exact H2|].
      intros [j u] (g' & Hg' & _). by exists g'. }
    rewrite (settle_cons gs i g t steps Hi Hnot), Ed in *. rewrite <- app_assoc in *. done.
Qed.

Lemma spendable_deduct now b g t :
  eligible now b g = true -> 0 <= t <= g_AmountRemaining g ->
  spendable now b (deduct_from t g) = spendable now b g - t.
Proof.
  unfold spendable, eligible, deduct_from. intros He Ht. rewrite He. cbn.
  change (expired now (set_remaining _ g)) with (expired now g).
  reflect_bools. subst b. rewrite H1, String.eqb_refl. cbn.
  destruct (0 <? g_AmountRemaining g - t) eqn:E; reflect_bools; cbn; lia.
Qed.

Lemma settle_avail now b gs steps :
  steps_ok gs steps ->
  Forall (fun '(i, _) => forall g, gs !! i = Some g -> eligible now b g = true) steps ->
  avail now b (settle steps gs) = avail now b gs - pool_sum steps.
Proof.
  revert gs. induction steps as [|[i t] steps IH]; intros gs Hs He.
  - rewrite settle_nil. cbn. lia.
  - destruct (steps_ok_cons _ _ _ _ Hs) as (g & Hi & _ & Ht & Hnot & Hs'). inv He.
    rewrite <- (settle_cons gs i g t steps Hi Hnot), IH; [|done|].
    + rewrite (avail_insert _ _ _ _ _ _ Hi), spendable_deduct, pool_sum_cons; [lia|auto|lia].
    + eapply Forall_impl; [apply Forall_and; split; [exact H2|]|].
      * apply Forall_forall. intros p Hp. exact (list_elem_of_fmap_2' fst _ _ _ Hp eq_refl).
      * intros [j u] [Hj Hin] g' Hg'. cbn in Hin. rewrite list_lookup_insert_ne in Hg'; [auto|].
        intros ->. done.
Qed.

(** Grants outside the bucket are not touched. *)
Lemma settle_avail_other now now' b b' gs steps :
  b' <> b ->
  Forall (fun '(i, _) => forall g, gs !! i = Some g -> eligible now b g = true) steps ->
  avail now' b' (settle steps gs) = avail now' b' gs.
Proof.
  intros Hne He. unfold avail. f_equal. apply list_eq. intros j.
  rewrite !map_lookup, settle_lookup. destruct (gs !! j) as [g|] eqn:Hj; [|done]. cbn. f_equal.
  destruct (decide (j ∈ map fst steps)) as [Hin|Hnot].
  - apply elem_of_map in Hin as ([i t] & -> & Hin). rewrite Forall_forall in He.
    specialize (He _ Hin g Hj). unfold eligible in He. reflect_bools.
    unfold spendable, eligible. cbn. subst b.
    destruct (String.eqb_spec (g_Bucket g) b') as [<-|_]; [done|].
    by rewrite !andb_false_r.
  - by rewrite (taken_notin _ _ Hnot), deduct_from_0.
Qed.

Lemma new_deductions_sum now ids k din gs steps :
  sumZ (map d_Amount (new_deductions now ids k din gs steps)) = pool_sum steps.
Proof.
  revert k. induction steps as [|[i t] steps IH]; intros k; [done|].
  cbn [new_deductions map]. by rewrite sumZ_cons, IH, pool_sum_cons.
Qed.

Lemma new_deductions_data now ids k din gs steps :
  Forall (fun d => d_RequestID d = di_RequestID din /\ d_Bucket d = di_Bucket din /\
                   d_SubjectID d = di_SubjectID din /\ d_CreatedAt d = now)
    (new_deductions now ids k din gs steps).
Proof. revert k. induction steps as [|[i t] steps IH]; intros k; by constructor. Qed.

(** ** The plan of a deduction *)
Section plan.
Context `{GoRuntime}.

Definition pool_of (now : Z) (b : string) (gs : list Grant) : list idx :=
  sort_slice (pool_less gs) (build_pool now b 0 gs).

(** Whether [g] is spent before [g']: the earlier expiry first, never-expiring
    grants last, and the older grant on a tie. *)
Definition drains_before (g g' : Grant) : bool :=
  match g_ExpiresAt g, g_ExpiresAt g' with
  | Some e, Some e' => (e <? e') || ((e =? e') && (g_GrantedAt g <? g_GrantedAt g'))
  | Some _, None => true
  | None, None => g_GrantedAt g <? g_GrantedAt g'
  | None, Some _ => false
  end.

Lemma pool_less_drains gs i j g g' :
  gs !! i = Some g -> gs !! j = Some g' ->
  pool_less gs (entry i g) (entry j g') = drains_before g g'.
Proof.
  intros Hi Hj. unfold pool_less, drains_before.
  rewrite !entry_i, (list_lookup_total_correct _ _ _ Hi), (list_lookup_total_correct _ _ _ Hj).
  unfold entry. destruct (g_ExpiresAt g), (g_ExpiresAt g'); cbn; try done.
  destruct (z =? z0) eqn:E; reflect_bools; [subst; by rewrite Z.ltb_irrefl|].
  by rewrite orb_false_r.
Qed.

Lemma pool_of_elem now b gs p :
  p ∈ pool_of now b gs <->
  exists i g, gs !! i = Some g /\ eligible now b g = true /\ p = entry i g.
Proof. unfold pool_of. rewrite sort_slice_perm, build_pool_elem. done. Qed.

Lemma pool_of_NoDup now b gs : NoDup (map i_i (pool_of now b gs)).
Proof.
  unfold pool_of. rewrite sort_slice_perm. apply build_pool_NoDup.
Qed.

Lemma offers_lookup now b gs k i a :
  offers gs (pool_of now b gs) !! k = Some (i, a) ->
  exists g, gs !! i = Some g /\ eligible now b g = true /\ a = g_AmountRemaining g /\
    pool_of now b gs !! k = Some (entry i g).
Proof.
  unfold offers. rewrite map_lookup. destruct (pool_of now b gs !! k) as [p|] eqn:Hk; [|done].
  cbn. intros [= <- <-].
  pose proof (list_elem_of_lookup_2 _ _ _ Hk) as (i & g & Hi & He & ->)%pool_of_elem.
  exists g. rewrite entry_i. by rewrite (list_lookup_total_correct _ _ _ Hi).
Qed.

Lemma offers_positive now b gs : positive_pool (offers gs (pool_of now b gs)).
Proof.
  apply Forall_lookup. intros k [i a] (g & _ & He & -> & _)%offers_lookup. cbn.
  unfold eligible in He. by reflect_bools.
Qed.

Lemma pool_of_sum now b gs : pool_sum (offers gs (pool_of now b gs)) = avail now b gs.
Proof.
  rewrite <- offers_sum. apply pool_sum_perm. unfold pool_of. by rewrite sort_slice_perm.
Qed.

Lemma plan_steps_ok now b gs a :
  0 <= a -> let steps := fst (draw (offers gs (pool_of now b gs)) a) in
  steps_ok gs steps /\
  Forall (fun '(i, _) => forall g, gs !! i = Some g -> eligible now b g = true) steps.
Proof.
  intros Ha steps. pose proof (offers_positive now b gs) as Hp.
  assert (Hl : forall k i t, steps !! k = Some (i, t) -> exists g, gs !! i = Some g /\
            eligible now b g = true /\ 0 < t <= g_AmountRemaining g).
  { intros k i t Hk. destruct (draw_lookup _ _ _ _ _ Hp Ha Hk) as (v & Hv & Ht).
    destruct (offers_lookup _ _ _ _ _ _ Hv) as (g & Hg & He & -> & _). by exists g. }
  split; [split|].
  - apply draw_keys_NoDup; [done..|]. rewrite offers_keys. apply pool_of_NoDup.
  - apply Forall_lookup. intros k [i t] (g & ? & _ & ?)%Hl. by exists g.
  - apply Forall_lookup. intros k [i t] (g & Hg & He & _)%Hl g' Hg'. congruence.
Qed.

(** A deduction reaches a grant only once every grant that drains before it is
    used up. *)
Lemma plan_fifo now b gs a i j g g' :
  0 <= a -> let steps := fst (draw (offers gs (pool_of now b gs)) a) in
  gs !! i = Some g -> gs !! j = Some g' -> eligible now b g = true ->
  drains_before g g' = true -> taken steps j <> 0 ->
  taken steps i = g_AmountRemaining g.
Proof.
  intros Ha steps Hi Hj He Hd Ht. pose proof (offers_positive now b gs) as Hp.
  destruct (plan_steps_ok now b gs a Ha) as [[Hn _] _]. fold steps in Hn.
  assert (Hin : j ∈ map fst steps).
  { destruct (decide (j ∈ map fst steps)); [done|]. by destruct Ht; apply taken_notin. }
  apply elem_of_map in Hin as ([j' t] & -> & [kj Hkj]%list_elem_of_lookup_1).
  destruct (draw_lookup _ _ _ _ _ Hp Ha Hkj) as (v & Hv & _).
  destruct (offers_lookup _ _ _ _ _ _ Hv) as (g2 & Hg2 & _ & _ & Hpj). cbn in Hj.
  assert (g2 = g') as -> by congruence.
  assert (entry i g ∈ pool_of now b gs) as [ki Hki]%list_elem_of_lookup_1
    by (apply pool_of_elem; eauto).
  assert (Hlt : (ki < kj)%nat).
  { destruct (decide (ki < kj)%nat) as [|Hge]; [done|]. exfalso.
    pose proof (pool_less_drains gs i j' g g' Hi Hj) as E. rewrite Hd in E.
    destruct (decide (ki = kj)) as [->|].
    - rewrite Hki in Hpj. simplify_eq. rewrite Hpj in E.
      by rewrite (less_asym _ _ E) in E.
    - rewrite (sorted_by_lookup _ _ _ _ _ _ (sort_slice_sorted _ (pool_less gs) _ _) Hpj Hki) in E;
        [done|lia]. }
  pose proof (draw_fifo _ _ _ _ _ Hp Ha Hlt Hkj) as Hf.
  apply (taken_lookup _ ki); [done|]. fold steps in Hf. rewrite Hf.
  unfold offers. rewrite map_lookup, Hki. cbn.
  by rewrite entry_i, (list_lookup_total_correct _ _ _ Hi).
Qed.
End plan.
