(* ===== verification/CreditsLedger.v ===== *)
(** * CreditsLedger: what the in-memory repository guarantees.

    [ledger_inv] holds of every state the facade can produce ([reachable]); on it
    rest the theorems about deductions, balances, expiry, revocation and the
    idempotency of grants. *)
From S2P Require Import Prelude Ledger Credits CreditsMemory CreditsMemoryFacts.
Import Memory.

(** ** The frame of a grant: what no operation changes once it is granted. *)
Definition frame (g : Grant) : string * string * string * Z * Z * option Z * string * string :=
  (g_ID g, g_SubjectID g, g_Bucket g, g_AmountInitial g, g_GrantedAt g, g_ExpiresAt g,
   g_Source g, g_SourceRef g).

Definition same_frames (gs gs' : list Grant) : Prop := map frame gs' = map frame gs.

#[export] Instance same_frames_preorder : PreOrder same_frames.
Proof. split; [done|]. intros a b c. unfold same_frames. congruence. Qed.

Lemma same_frames_elem gs gs' g' :
  same_frames gs gs' -> g' ∈ gs' -> exists g, g ∈ gs /\ frame g = frame g'.
Proof.
  intros E Hg. assert (frame g' ∈ map frame gs) as (g & Hf & Hin)%elem_of_map.
  { rewrite <- E. apply elem_of_map. by exists g'. }
  by exists g.
Qed.

Lemma same_frames_insert gs i g g' :
  gs !! i = Some g -> frame g' = frame g -> same_frames gs (<[i := g']> gs).
Proof. intros. by apply (map_insert_same _ _ _ g). Qed.

Lemma same_frames_map (f : Grant -> Grant) gs :
  (forall g, frame (f g) = frame g) -> same_frames gs (map f gs).
Proof. intros Hf. unfold same_frames. rewrite map_map. apply map_ext, Hf. Qed.

Lemma settle_frames steps gs : same_frames gs (settle steps gs).
Proof.
  apply list_eq. intros j. rewrite !map_lookup, settle_lookup. by destruct (gs !! j).
Qed.

(** ** The invariant *)
Record ledger_inv (r : memoryRepo) : Prop := {
  inv_acct s : acct_ok (grants_of r s) (deductions_of r s);
  inv_subject s g : g ∈ grants_of r s -> g_SubjectID g = s;
  inv_ids s s' g g' : g ∈ grants_of r s -> g' ∈ grants_of r s' -> g_ID g = g_ID g' -> s = s';
}.

Lemma ledger_inv_frames r r' :
  ledger_inv r -> (forall s, same_frames (grants_of r s) (grants_of r' s)) ->
  (forall s, acct_ok (grants_of r' s) (deductions_of r' s)) -> ledger_inv r'.
Proof.
  intros [_ Hsub Hids] Hf Hacct. split; [done|..].
  - intros s g' Hg'. destruct (same_frames_elem _ _ _ (Hf s) Hg') as (g & Hg & [=]).
    rewrite <- (Hsub s g Hg). done.
  - intros s s' g' g2' Hg' Hg2' E.
    destruct (same_frames_elem _ _ _ (Hf s) Hg') as (g & Hg & [=]).
    destruct (same_frames_elem _ _ _ (Hf s') Hg2') as (g2 & Hg2 & [=]).
    apply (Hids s s' g g2); congruence.
Qed.

Lemma grants_of_insert m ds sg sd h s gs s' :
  grants_of (mkRepo (<[s := gs]> m) ds sg sd h) s' =
    if decide (s = s') then gs else default [] (m !! s').
Proof.
  unfold grants_of. cbn. destruct (decide (s = s')) as [<-|Hne];
    [by rewrite lookup_insert_eq | by rewrite lookup_insert_ne].
Qed.

Lemma deductions_of_insert m ds sg sd h s d s' :
  deductions_of (mkRepo m (<[s := d]> ds) sg sd h) s' =
    if decide (s = s') then d else default [] (ds !! s').
Proof.
  unfold deductions_of. cbn. destruct (decide (s = s')) as [<-|Hne];
    [by rewrite lookup_insert_eq | by rewrite lookup_insert_ne].
Qed.

Lemma grants_new s : grants_of NewMemoryRepo s = [].
Proof. unfold grants_of. cbn. by rewrite lookup_empty. Qed.

Lemma ledger_inv_new : ledger_inv NewMemoryRepo.
Proof.
  split.
  - intros s. rewrite grants_new. unfold deductions_of. cbn. rewrite lookup_empty.
    split; constructor.
  - intros s g Hg. rewrite grants_new in Hg. by apply not_elem_of_nil in Hg.
  - intros s s' g g' Hg. rewrite grants_new in Hg. by apply not_elem_of_nil in Hg.
Qed.

Section ledger.
Context `{GoRuntime}.

(** ** Deductions *)
Definition fresh_request (r : memoryRepo) (din : DeductInput) : Prop :=
  di_RequestID din = "" \/ seenDeduction r !! deductKey din = None.

(** The steps a deduction takes and the repository they leave. *)
Definition deduct_steps (now : Z) (din : DeductInput) (r : memoryRepo) : list (nat * Z) :=
  let gs := grants_of r (di_SubjectID din) in
  fst (draw (offers gs (pool_of now (di_Bucket din) gs)) (di_Amount din)).

Definition deducted (now : Z) (ids : nat -> string) (din : DeductInput) (r : memoryRepo)
  : memoryRepo :=
  let s := di_SubjectID din in
  let steps := deduct_steps now din r in
  mkRepo (<[s := settle steps (grants_of r s)]> (bySubject r))
    (match steps with
     | [] => deductionBySubject r
     | _ => <[s := deductions_of r s ++ new_deductions now ids 0 din (grants_of r s) steps]>
              (deductionBySubject r)
     end)
    (seenGrant r)
    (if negb (String.eqb (di_RequestID din) "") then <[deductKey din := "ok"]> (seenDeduction r)
     else seenDeduction r)
    (repoHeap r).

Lemma TryDeduct_fresh now later ids din r :
  ledger_inv r -> 0 <= di_Amount din <= int64_max -> fresh_request r din ->
  repo_TryDeduct now later ids din r =
    if di_Amount din <=? avail now (di_Bucket din) (grants_of r (di_SubjectID din))
    then (true, balanceLocked later (di_SubjectID din) (di_Bucket din) (deducted now ids din r),
          deducted now ids din r)
    else (false, balanceLocked later (di_SubjectID din) (di_Bucket din) r, r).
Proof.
  intros Hinv Ha Hfresh. unfold repo_TryDeduct.
  assert (E : negb (String.eqb (di_RequestID din) "")
              && bool_decide (is_Some (seenDeduction r !! deductKey din)) = false).
  { destruct Hfresh as [->| ->]; [done|]. by rewrite andb_false_r. }
  rewrite E. set (gs := grants_of r (di_SubjectID din)). fold (pool_of now (di_Bucket din) gs).
  pose proof (offers_positive now (di_Bucket din) gs) as Hp.
  rewrite plan_is_draw by done.
  pose proof (draw_unmet _ (di_Amount din) Hp ltac:(lia)) as Hu. rewrite pool_of_sum in Hu.
  destruct (plan_steps_ok now (di_Bucket din) gs (di_Amount din) ltac:(lia)) as [Hs _].
  unfold deducted, deduct_steps. fold gs.
  destruct (draw _ _) as [steps unmet]. cbn [fst snd] in *.
  destruct (apply_steps_spec now ids 0 din steps gs _ (inv_acct r Hinv (di_SubjectID din)) Hs)
    as [-> _].
  destruct (0 <? unmet) eqn:E1, (di_Amount din <=? _) eqn:E2; reflect_bools; try lia; done.
Qed.

Lemma deduct_steps_ok now din r :
  0 <= di_Amount din ->
  let gs := grants_of r (di_SubjectID din) in
  steps_ok gs (deduct_steps now din r) /\
  Forall (fun '(i, _) => forall g, gs !! i = Some g -> eligible now (di_Bucket din) g = true)
    (deduct_steps now din r).
Proof. intros Ha. by apply plan_steps_ok. Qed.

Lemma deduct_steps_sum now din r :
  0 <= di_Amount din <= avail now (di_Bucket din) (grants_of r (di_SubjectID din)) ->
  pool_sum (deduct_steps now din r) = di_Amount din.
Proof.
  intros Ha. unfold deduct_steps. cbv zeta.
  set (gs := grants_of r (di_SubjectID din)) in *.
  pose proof (offers_positive now (di_Bucket din) gs) as Hp.
  pose proof (draw_total _ (di_Amount din) Hp ltac:(lia)) as Ht.
  rewrite (draw_unmet _ (di_Amount din) Hp ltac:(lia)), pool_of_sum in Ht. lia.
Qed.

Lemma deducted_grants now ids din r s :
  grants_of (deducted now ids din r) s =
    if decide (di_SubjectID din = s) then settle (deduct_steps now din r) (grants_of r s)
    else grants_of r s.
Proof.
  unfold deducted. rewrite grants_of_insert.
  by destruct (decide (di_SubjectID din = s)) as [<-|].
Qed.

Lemma deducted_deductions now ids din r s :
  deductions_of (deducted now ids din r) s =
    if decide (di_SubjectID din = s)
    then deductions_of r s ++ new_deductions now ids 0 din (grants_of r s) (deduct_steps now din r)
    else deductions_of r s.
Proof.
  unfold deducted. destruct (deduct_steps now din r) as [|st steps].
  - cbn. rewrite app_nil_r. by destruct (decide _).
  - rewrite deductions_of_insert. by destruct (decide (di_SubjectID din = s)) as [<-|].
Qed.

Lemma deducted_inv now ids din r :
  ledger_inv r -> 0 <= di_Amount din -> ledger_inv (deducted now ids din r).
Proof.
  intros Hinv Ha. apply (ledger_inv_frames r); [done|..]; intros s;
    rewrite deducted_grants; [|rewrite deducted_deductions];
    destruct (decide (di_SubjectID din = s)) as [<-|]; try done.
  - apply settle_frames.
  - apply (apply_steps_spec now ids 0 din); [by apply inv_acct|]. by apply plan_steps_ok.
  - by apply inv_acct.
Qed.

#[export] Instance fresh_request_dec r din : Decision (fresh_request r din).
Proof. unfold fresh_request. apply _. Defined.

(** A request that was already honoured changes nothing. *)
Lemma TryDeduct_replay now later ids din r :
  ~ fresh_request r din ->
  repo_TryDeduct now later ids din r =
    (true, balanceLocked later (di_SubjectID din) (di_Bucket din) r, r).
Proof.
  intros Hf. unfold repo_TryDeduct, fresh_request in *.
  destruct (String.eqb_spec (di_RequestID din) ""); [destruct Hf; by left|].
  destruct (seenDeduction r !! deductKey din) eqn:E; [done|]. destruct Hf. by right.
Qed.

Lemma TryDeduct_inv now later ids din r :
  ledger_inv r -> 0 <= di_Amount din <= int64_max ->
  ledger_inv (snd (repo_TryDeduct now later ids din r)).
Proof.
  intros Hinv Ha. destruct (decide (fresh_request r din)) as [Hf|Hf].
  - rewrite TryDeduct_fresh by done. destruct (_ <=? _); [|done]. apply deducted_inv; [done|lia].
  - by rewrite TryDeduct_replay.
Qed.

(** ** Balances *)
Lemma balance_step_total now b bal g :
  b_Total (balance_step now b bal g) =
    if eligible now b g then add64 (b_Total bal) (g_AmountRemaining g) else b_Total bal.
Proof.
  unfold balance_step, eligible. rewrite Z.ltb_antisym.
  destruct (String.eqb (g_Bucket g) b), (g_AmountRemaining g <=? 0), (expired now g); done.
Qed.

Lemma balance_total now s b r :
  b_Total (balanceLocked now s b r) = wrap64 (avail now b (grants_of r s)).
Proof.
  assert (G : forall gs bal z, b_Total bal = wrap64 z ->
    b_Total (foldl (balance_step now b) bal gs) = wrap64 (z + avail now b gs)).
  { induction gs as [|g gs IH]; intros bal z Hz; cbn [foldl].
    - rewrite Hz. unfold avail. cbn. by rewrite Z.add_0_r.
    - unfold avail. cbn [map]. rewrite sumZ_cons. fold (avail now b gs).
      rewrite (IH _ (z + spendable now b g)); [f_equal; lia|].
      rewrite balance_step_total. unfold spendable. destruct (eligible now b g).
      + rewrite Hz. apply wrap64_add_l.
      + by rewrite Z.add_0_r. }
  unfold balanceLocked. by rewrite (G _ _ 0).
Qed.

Lemma avail_nonneg now b gs : 0 <= avail now b gs.
Proof.
  apply sumZ_nonneg, Forall_map, Forall_forall. intros g _. cbn. unfold spendable, eligible.
  destruct (0 <? g_AmountRemaining g) eqn:E; [|done]. cbn. reflect_bools. destruct (_ && _); lia.
Qed.

Lemma balance_step_skip now b bal g : eligible now b g = false -> balance_step now b bal g = bal.
Proof.
  unfold balance_step, eligible. rewrite Z.ltb_antisym.
  by destruct (String.eqb (g_Bucket g) b), (g_AmountRemaining g <=? 0), (expired now g).
Qed.

Lemma balance_step_live now b bal g :
  eligible now b g = true ->
  balance_step now b bal g =
    mkBalance (b_SubjectID bal) (b_Bucket bal) (add64 (b_Total bal) (g_AmountRemaining g))
      (match g_ExpiresAt g, b_NextExpiry bal with
       | Some e, None => Some e
       | Some e, Some ne => Some (Z.min e ne)
       | None, ne => ne
       end) (b_GrantCount bal + 1).
Proof.
  unfold balance_step, eligible. rewrite Z.ltb_antisym.
  destruct (String.eqb (g_Bucket g) b), (g_AmountRemaining g <=? 0), (expired now g); try done.
  intros _. cbn. f_equal.
  destruct (g_ExpiresAt g) as [e|], (b_NextExpiry bal) as [ne|]; try done.
  destruct (e <? ne) eqn:E; reflect_bools; f_equal; lia.
Qed.

(** What a list of grants is the earliest expiry of. *)
Definition earliest (l : list Grant) (o : option Z) : Prop :=
  match o with
  | None => forall g, g ∈ l -> g_ExpiresAt g = None
  | Some e => (exists g, g ∈ l /\ g_ExpiresAt g = Some e) /\
              forall g e', g ∈ l -> g_ExpiresAt g = Some e' -> e <= e'
  end.

Lemma earliest_snoc l o g :
  earliest l o ->
  earliest (l ++ [g]) (match g_ExpiresAt g, o with
                       | Some e, None => Some e
                       | Some e, Some ne => Some (Z.min e ne)
                       | None, ne => ne
                       end).
Proof.
  intros Ho. destruct (g_ExpiresAt g) as [e|] eqn:Eg, o as [ne|]; cbn in *.
  - destruct Ho as [(g0 & Hg0 & E0) Hmin]. split.
    + destruct (Z.min_spec e ne) as [[_ ->]|[_ ->]].
      * exists g. split; [apply elem_of_app; right; by apply list_elem_of_singleton|done].
      * exists g0. split; [apply elem_of_app; by left|done].
    + intros g1 e1 [Hg1| ->%list_elem_of_singleton]%elem_of_app E1.
      * specialize (Hmin g1 e1 Hg1 E1). lia.
      * assert (e1 = e) as -> by congruence. lia.
  - split; [exists g; split; [apply elem_of_app; right; by apply list_elem_of_singleton|done]|].
    intros g1 e1 [Hg1| ->%list_elem_of_singleton]%elem_of_app E1.
    + by rewrite (Ho g1 Hg1) in E1.
    + assert (e1 = e) as -> by congruence. lia.
  - destruct Ho as [(g0 & Hg0 & E0) Hmin]. split.
    + exists g0. split; [apply elem_of_app; by left|done].
    + intros g1 e1 [Hg1| ->%list_elem_of_singleton]%elem_of_app E1; [eauto|congruence].
  - intros g1 [Hg1| ->%list_elem_of_singleton]%elem_of_app; auto.
Qed.

Lemma balance_fold_spec now b gs bal :
  let bal' := foldl (balance_step now b) bal gs in
  let live := List.filter (eligible now b) gs in
  b_SubjectID bal' = b_SubjectID bal /\ b_Bucket bal' = b_Bucket bal /\
  b_GrantCount bal' = b_GrantCount bal + Z.of_nat (List.length live) /\
  (b_NextExpiry bal = None -> earliest live (b_NextExpiry bal')).
Proof.
  induction gs as [|g gs IH] using rev_ind.
  - cbn. repeat split; try lia. intros -> g ?%not_elem_of_nil. done.
  - cbn. rewrite foldl_snoc, List.filter_app. cbn. destruct IH as (E1 & E2 & E3 & E4).
    destruct (eligible now b g) eqn:E.
    + rewrite balance_step_live by done. cbn. rewrite length_app. cbn.
      split; [done|]. split; [done|]. split; [lia|]. intros Hn. by apply earliest_snoc, E4.
    + rewrite balance_step_skip, app_nil_r by done. done.
Qed.

(** ** Grants *)
Definition fresh_id (r : memoryRepo) (id : string) : Prop :=
  forall s, id ∉ map g_ID (grants_of r s).

Definition granted (now : Z) (id : string) (gin : GrantInput) (r : memoryRepo) : memoryRepo :=
  mkRepo
    (<[gi_SubjectID gin := grants_of r (gi_SubjectID gin) ++ [new_grant now id gin]]> (bySubject r))
    (deductionBySubject r)
    (if String.eqb (grantDedupKey gin) "" then seenGrant r
     else <[grantDedupKey gin := id]> (seenGrant r))
    (seenDeduction r) (repoHeap r).

(** The grant an earlier call with this key created. *)
Definition prior_grant (gin : GrantInput) (r : memoryRepo) : option Grant :=
  if String.eqb (grantDedupKey gin) "" then None
  else match seenGrant r !! grantDedupKey gin with
       | Some id => find_id id (grants_of r (gi_SubjectID gin))
       | None => None
       end.

Lemma repo_Grant_cases now id gin r :
  repo_Grant now id gin r =
    match prior_grant gin r with
    | Some g => (g, r)
    | None => (new_grant now id gin, granted now id gin r)
    end.
Proof. done. Qed.

Lemma new_grant_live now id gin :
  gi_ValidDays gin <= 1000000 -> expired now (new_grant now id gin) = false.
Proof.
  intros Hd. unfold expired. cbn. destruct (0 <? gi_ValidDays gin) eqn:E; [|done].
  reflect_bools. pose proof (add_days_later now (gi_ValidDays gin) ltac:(lia)).
  apply Z.ltb_ge. lia.
Qed.

Lemma granted_grants now id gin r s :
  grants_of (granted now id gin r) s =
    if decide (gi_SubjectID gin = s) then grants_of r s ++ [new_grant now id gin] else grants_of r s.
Proof.
  unfold granted. rewrite grants_of_insert.
  by destruct (decide (gi_SubjectID gin = s)) as [<-|].
Qed.

Lemma granted_elem now id gin r s g :
  g ∈ grants_of (granted now id gin r) s <->
  g ∈ grants_of r s \/ (g = new_grant now id gin /\ s = gi_SubjectID gin).
Proof.
  rewrite granted_grants. destruct (decide (gi_SubjectID gin = s)) as [<-|Hne].
  - rewrite elem_of_app, list_elem_of_singleton. intuition.
  - split; [by left|]. by intros [?|[-> ?]].
Qed.

Lemma granted_inv now id gin r :
  ledger_inv r -> fresh_id r id -> 0 < gi_Amount gin <= int64_max ->
  ledger_inv (granted now id gin r).
Proof.
  intros Hinv Hid Ha. split.
  - intros s. change (deductions_of (granted now id gin r) s) with (deductions_of r s).
    rewrite granted_grants. destruct (decide (gi_SubjectID gin = s)) as [<-|]; [|by apply inv_acct].
    apply acct_ok_grant; [by apply inv_acct|apply Hid|cbn; lia..].
  - intros s g [Hg|[-> ->]]%granted_elem; [by apply (inv_subject r)|done].
  - assert (Hnew : forall s g, g ∈ grants_of r s -> g_ID g <> id).
    { intros s g Hg <-. apply (Hid s). apply elem_of_map. by exists g. }
    intros s s' g g' [Hg|[-> ->]]%granted_elem [Hg'|[-> ->]]%granted_elem E; cbn in E.
    + by apply (inv_ids r Hinv s s' g g').
    + by destruct (Hnew s g Hg).
    + by destruct (Hnew s' g' Hg').
    + done.
Qed.

Lemma repo_Grant_inv now id gin r :
  ledger_inv r -> fresh_id r id -> 0 < gi_Amount gin <= int64_max ->
  ledger_inv (snd (repo_Grant now id gin r)).
Proof.
  intros. rewrite repo_Grant_cases. destruct (prior_grant gin r); [done|]. by apply granted_inv.
Qed.

(** ** Expiry *)
Definition expire1 (now : Z) (g : Grant) : Grant :=
  if expired now g && (0 <? g_AmountRemaining g) then set_remaining 0 g else g.
(** What a sweep takes off a grant. *)
Definition lapsed (now : Z) (g : Grant) : Z :=
  if expired now g && (0 <? g_AmountRemaining g) then g_AmountRemaining g else 0.

Lemma spendable_expire1 now b g : spendable now b (expire1 now g) = spendable now b g.
Proof.
  unfold expire1. destruct (expired now g && (0 <? g_AmountRemaining g)) eqn:E; [|done].
  reflect_bools. unfold spendable, eligible. cbn. by rewrite H0, andb_false_r.
Qed.

Lemma expire_grants_spec now gs acc :
  fst (expire_grants now gs acc) = map (expire1 now) gs /\
  (forall z, snd acc = wrap64 z ->
    snd (snd (expire_grants now gs acc)) = wrap64 (z + sumZ (map (lapsed now) gs))).
Proof.
  revert acc. induction gs as [|g gs IH]; intros acc.
  - split; [done|]. intros z Hz. cbn. by rewrite Z.add_0_r.
  - cbn [expire_grants map]. rewrite sumZ_cons. unfold expire1 at 1, lapsed at 1.
    destruct (expired now g && (0 <? g_AmountRemaining g)).
    + specialize (IH (add64 (fst acc) 1, add64 (snd acc) (g_AmountRemaining g))).
      destruct (expire_grants _ _ _) as [rest acc']. cbn in *. destruct IH as [-> IH].
      split; [done|]. intros z Hz. rewrite (IH (z + g_AmountRemaining g)); [f_equal; lia|].
      rewrite Hz. apply wrap64_add_l.
    + specialize (IH acc). destruct (expire_grants _ _ _) as [rest acc']. cbn in *.
      destruct IH as [-> IH]. split; [done|]. intros z Hz. by rewrite (IH z Hz).
Qed.

Lemma expire_subjects_spec now l m acc :
  NoDup (map fst l) ->
  (forall s, fst (expire_subjects now l m acc) !! s =
     match (list_to_map l : gmap string (list Grant)) !! s with Some gs => Some (map (expire1 now) gs) | None => m !! s end) /\
  (forall z, snd acc = wrap64 z -> snd (snd (expire_subjects now l m acc)) =
     wrap64 (z + sumZ (map (fun p => sumZ (map (lapsed now) (snd p))) l))).
Proof.
  revert m acc. induction l as [|[s0 gs] l IH]; intros m acc Hn.
  - split; [done|]. intros z Hz. cbn. by rewrite Z.add_0_r.
  - inv Hn. cbn [expire_subjects]. destruct (expire_grants_spec now gs acc) as [Eg Es].
    destruct (expire_grants now gs acc) as [gs' acc']. cbn [fst snd] in *. subst gs'.
    destruct (IH (<[s0 := map (expire1 now) gs]> m) acc' H3) as [IHm IHs].
    split.
    + intros s. rewrite IHm. cbn [list_to_map foldr uncurry fst snd].
      destruct (decide (s0 = s)) as [<-|Hne].
      * rewrite !lookup_insert_eq. by rewrite not_elem_of_list_to_map_1.
      * by rewrite !lookup_insert_ne.
    + intros z Hz. cbn [map]. rewrite sumZ_cons. cbn [snd].
      rewrite (IHs (z + sumZ (map (lapsed now) gs))); [f_equal; lia|auto].
Qed.

(** The credits a sweep at [now] takes off the whole ledger. *)
Definition lapsed_total (now : Z) (r : memoryRepo) : Z :=
  sumZ (map (fun p => sumZ (map (lapsed now) (snd p))) (map_to_list (bySubject r))).

Lemma RunExpiry_grants now r s :
  grants_of (snd (repo_RunExpiry now r)) s = map (expire1 now) (grants_of r s).
Proof.
  unfold repo_RunExpiry.
  destruct (expire_subjects_spec now (map_range (bySubject r)) (bySubject r) (0, 0)
    (map_range_keys _)) as [Em _].
  destruct (expire_subjects _ _ _ _) as [m acc]. unfold grants_of. cbn in *.
  rewrite Em, map_range_map. by destruct (bySubject r !! s).
Qed.

Lemma RunExpiry_credits now r :
  snd (fst (repo_RunExpiry now r)) = wrap64 (lapsed_total now r).
Proof.
  unfold repo_RunExpiry.
  destruct (expire_subjects_spec now (map_range (bySubject r)) (bySubject r) (0, 0)
    (map_range_keys _)) as [_ Es].
  specialize (Es 0 eq_refl). unfold lapsed_total. rewrite <- map_range_perm.
  destruct (expire_subjects _ _ _ _) as [m acc]. exact Es.
Qed.

Lemma RunExpiry_deductions now r s :
  deductions_of (snd (repo_RunExpiry now r)) s = deductions_of r s.
Proof. unfold repo_RunExpiry. by destruct (expire_subjects _ _ _ _). Qed.

Lemma RunExpiry_seen now r : seenGrant (snd (repo_RunExpiry now r)) = seenGrant r.
Proof. unfold repo_RunExpiry. by destruct (expire_subjects _ _ _ _). Qed.

Lemma expire1_frame now g : frame (expire1 now g) = frame g.
Proof. unfold expire1. by destruct (_ && _). Qed.

Lemma acct_remaining gs ds g : acct_ok gs ds -> g ∈ gs -> 0 <= g_AmountRemaining g.
Proof.
  intros [_ Hb _] Hg. rewrite Forall_forall in Hb. by destruct (Hb g Hg).
Qed.

Lemma RunExpiry_inv now r : ledger_inv r -> ledger_inv (snd (repo_RunExpiry now r)).
Proof.
  intros Hinv. apply (ledger_inv_frames r); [done|..]; intros s; rewrite RunExpiry_grants.
  - apply same_frames_map, expire1_frame.
  - rewrite RunExpiry_deductions. pose proof (inv_acct r Hinv s) as Hok.
    apply (acct_ok_lower (grants_of r s)); [done|].
    apply Forall2_fmap_r, Forall_Forall2_diag, Forall_forall. intros g Hg.
    pose proof (acct_remaining _ _ _ Hok Hg). unfold compose, lowered, expire1.
    destruct (expired now g && (0 <? g_AmountRemaining g)); cbn; (split; [done|]); (split; [done|]); lia.
Qed.

(** ** Revocation *)
Lemma index_of_spec id k gs :
  match index_of id k gs with
  | Some i => exists j g, i = (k + j)%nat /\ gs !! j = Some g /\ g_ID g = id
  | None => id ∉ map g_ID gs
  end.
Proof.
  revert k. induction gs as [|g gs IH]; intros k; cbn; [by apply not_elem_of_nil|].
  destruct (String.eqb_spec (g_ID g) id) as [<-|Hne].
  - exists O, g. by rewrite Nat.add_0_r.
  - specialize (IH (S k)). destruct (index_of id (S k) gs) as [i|].
    + destruct IH as (j & g' & -> & Hj & Hid). exists (S j), g'. split; [lia|done].
    + apply not_elem_of_cons. done.
Qed.

(** Where a revocation finds its grant, and what it does there. *)
Lemma revoke_scan_spec now id reason l r :
  (forall s gs, (s, gs) ∈ l -> id ∉ map g_ID gs) /\ revoke_scan now id reason l r = r \/
  exists s gs i g, (s, gs) ∈ l /\ gs !! i = Some g /\ g_ID g = id /\
    revoke_scan now id reason l r = revoke_at now reason s i gs r.
Proof.
  induction l as [|[s gs] l IH]; cbn.
  - left. split; [|done]. by intros s gs ?%not_elem_of_nil.
  - pose proof (index_of_spec id 0 gs) as Hi. destruct (index_of id 0 gs) as [i|].
    + right. destruct Hi as (j & g & -> & Hj & Hid). exists s, gs, j, g.
      split; [by left|]. done.
    + destruct IH as [[Hno ->]|(s' & gs' & i & g & Hin & Hrest)].
      * left. split; [|done]. intros s' gs' [[= -> ->]|Hin]%elem_of_cons; [done|eauto].
      * right. exists s', gs', i, g. split; [by right|done].
Qed.

Lemma RevokeGrant_cases now id reason r :
  (fresh_id r id /\ repo_RevokeGrant now id reason r = r) \/
  exists s i g, grants_of r s !! i = Some g /\ g_ID g = id /\
    repo_RevokeGrant now id reason r = revoke_at now reason s i (grants_of r s) r.
Proof.
  unfold repo_RevokeGrant.
  destruct (revoke_scan_spec now id reason (map_range (bySubject r)) r)
    as [[Hno Hr]|(s & gs & i & g & Hin & Hi & Hid & Hr)].
  - left. split; [|done]. intros s. unfold grants_of.
    destruct (bySubject r !! s) as [gs|] eqn:E; [|by apply not_elem_of_nil].
    apply (Hno s), map_range_elem, E.
  - right. apply map_range_elem in Hin. exists s, i, g. unfold grants_of. rewrite Hin. done.
Qed.

(** The map a revocation writes. *)
Definition revoked_ref (g : Grant) (h : heap) : nat :=
  match g_Metadata g with Some l => l | None => next_loc h end.

Lemma revoke_at_grants now reason s i gs r s' g :
  grants_of r s = gs -> gs !! i = Some g ->
  grants_of (revoke_at now reason s i gs r) s' =
    if decide (s = s')
    then <[i := set_metadata (Some (revoked_ref g (repoHeap r))) (set_remaining 0 g)]> gs
    else grants_of r s'.
Proof.
  intros Hgs Hi. unfold revoke_at, revoked_ref.
  rewrite (list_lookup_total_correct _ _ _ Hi). cbn.
  destruct (g_Metadata g); cbn; rewrite grants_of_insert; by destruct (decide (s = s')).
Qed.

Lemma revoke_at_reason now reason s i gs r g :
  gs !! i = Some g ->
  mget (hread (repoHeap (revoke_at now reason s i gs r)) (Some (revoked_ref g (repoHeap r))))
    "revoked_reason" = reason.
Proof.
  intros Hi. unfold revoke_at, revoked_ref. rewrite (list_lookup_total_correct _ _ _ Hi).
  change (g_Metadata (set_remaining 0 g)) with (g_Metadata g). unfold halloc.
  destruct (g_Metadata g); cbn [repoHeap];
    by rewrite !hread_hwrite, mget_insert_ne, mget_insert.
Qed.

Lemma revoke_at_rest now reason s i gs r :
  deductionBySubject (revoke_at now reason s i gs r) = deductionBySubject r /\
  seenGrant (revoke_at now reason s i gs r) = seenGrant r /\
  seenDeduction (revoke_at now reason s i gs r) = seenDeduction r.
Proof. unfold revoke_at. by destruct (g_Metadata _). Qed.

(** The grant a revocation closes is the one with the id. *)
Lemma RevokeGrant_at now id reason r s i g :
  ledger_inv r -> grants_of r s !! i = Some g -> g_ID g = id ->
  repo_RevokeGrant now id reason r = revoke_at now reason s i (grants_of r s) r.
Proof.
  intros Hinv Hi Hid.
  destruct (RevokeGrant_cases now id reason r) as [[Hf _]|(s' & i' & g' & Hi' & Hid' & ->)].
  - destruct (Hf s). apply elem_of_map. exists g. split; [done|]. by eapply list_elem_of_lookup_2.
  - assert (s' = s) as ->.
    { apply (inv_ids r Hinv s' s g' g); [by eapply list_elem_of_lookup_2..|congruence]. }
    by rewrite (NoDup_map_inj g_ID _ i' i g' g (acct_ids _ _ (inv_acct r Hinv s)) Hi' Hi)
      by congruence.
Qed.

Lemma RevokeGrant_deductions now id reason r s :
  deductions_of (repo_RevokeGrant now id reason r) s = deductions_of r s.
Proof.
  destruct (RevokeGrant_cases now id reason r) as [[_ ->]|(s' & i & g & _ & _ & ->)]; [done|].
  unfold deductions_of. by rewrite (proj1 (revoke_at_rest now reason s' i _ r)).
Qed.

Lemma RevokeGrant_frames now id reason r s :
  same_frames (grants_of r s) (grants_of (repo_RevokeGrant now id reason r) s).
Proof.
  destruct (RevokeGrant_cases now id reason r) as [[_ ->]|(s' & i & g & Hi & _ & ->)]; [done|].
  rewrite (revoke_at_grants _ _ _ _ _ _ _ g) by done.
  destruct (decide (s' = s)) as [<-|]; [|done]. by apply (same_frames_insert _ _ g).
Qed.

Lemma RevokeGrant_inv now id reason r :
  ledger_inv r -> ledger_inv (repo_RevokeGrant now id reason r).
Proof.
  intros Hinv. apply (ledger_inv_frames r); [done|apply RevokeGrant_frames|]. intros s.
  destruct (RevokeGrant_cases now id reason r) as [[_ ->]|(s' & i & g & Hi & _ & ->)];
    [by apply inv_acct|].
  rewrite (revoke_at_grants _ _ _ _ _ _ _ g) by done. unfold deductions_of.
  rewrite (proj1 (revoke_at_rest now reason s' i _ r)). fold (deductions_of r s).
  pose proof (inv_acct r Hinv s) as Hok.
  destruct (decide (s' = s)) as [<-|]; [|done].
  apply (acct_ok_lower (grants_of r s')); [done|].
  apply Forall2_same_length_lookup_2; [by rewrite length_insert|].
  intros j x y Hx Hy. destruct (decide (i = j)) as [<-|Hne].
  - rewrite list_lookup_insert_eq in Hy by (by eapply lookup_lt_Some).
    assert (x = g) as -> by congruence. injection Hy as <-.
    pose proof (acct_remaining _ _ _ Hok (list_elem_of_lookup_2 _ _ _ Hx)).
    split; [done|]. split; [done|]. cbn. lia.
  - rewrite list_lookup_insert_ne in Hy by done. assert (y = x) as -> by congruence.
    pose proof (acct_remaining _ _ _ Hok (list_elem_of_lookup_2 _ _ _ Hx)).
    split; [done|]. split; [done|]. cbn. lia.
Qed.
End ledger.
