(* ===== verification/CreditsSpec.v ===== *)
(** * CreditsSpec: the theorems of the in-memory credit ledger.

    A [call] is one call of the facade with what it draws from outside, [exec] its
    effect, [reachable] the states that sequences of admissible calls produce. *)
From S2P Require Import Prelude Ledger Credits CreditsMemory CreditsMemoryFacts CreditsLedger.
Import Memory Operations.

(** ** Deduplication of grants *)
Definition bar_free (s : string) : Prop := string_has "|" s = false.
Definition key_ok (gin : GrantInput) : Prop :=
  bar_free (gi_SubjectID gin) /\ bar_free (gi_Bucket gin).
Definition gkey (g : Grant) : string :=
  g_SubjectID g ^^ "|" ^^ g_Bucket g ^^ "|" ^^ g_SourceRef g.

Lemma key_inj s b f s' b' f' :
  bar_free s -> bar_free b -> bar_free s' -> bar_free b' ->
  s ^^ "|" ^^ b ^^ "|" ^^ f = s' ^^ "|" ^^ b' ^^ "|" ^^ f' -> s = s' /\ b = b' /\ f = f'.
Proof.
  intros Hs Hb Hs' Hb' E. rewrite !append_assoc in E.
  apply sep_inj in E as [-> E]; [|done..]. by apply sep_inj in E as [-> ->].
Qed.

Lemma gkey_frame g g' : frame g = frame g' -> gkey g = gkey g'.
Proof. unfold gkey. by intros [= _ -> -> _ _ _ _ ->]. Qed.

Record dedup_inv (r : memoryRepo) : Prop := {
  dd_seen s g : g ∈ grants_of r s -> g_SourceRef g <> "" -> seenGrant r !! gkey g = Some (g_ID g);
  dd_origin k id : seenGrant r !! k = Some id ->
    exists s g, g ∈ grants_of r s /\ g_ID g = id /\ k = gkey g;
  dd_free s g : g ∈ grants_of r s -> bar_free (g_SubjectID g) /\ bar_free (g_Bucket g);
}.

Lemma same_frames_sym gs gs' : same_frames gs gs' -> same_frames gs' gs.
Proof. done. Qed.

Lemma dedup_inv_frames r r' :
  dedup_inv r -> (forall s, same_frames (grants_of r s) (grants_of r' s)) ->
  seenGrant r' = seenGrant r -> dedup_inv r'.
Proof.
  intros [Hseen Horig Hfree] Hf E. split.
  - intros s g' Hg' Href. destruct (same_frames_elem _ _ _ (Hf s) Hg') as (g & Hg & Efr).
    rewrite E, <- (gkey_frame _ _ Efr). injection Efr as <- _ _ _ _ _ _ Er. rewrite <- Er in Href. eauto.
  - intros k id Hk. rewrite E in Hk. destruct (Horig k id Hk) as (s & g & Hg & <- & ->).
    destruct (same_frames_elem _ _ _ (same_frames_sym _ _ (Hf s)) Hg) as (g' & Hg' & Efr).
    exists s, g'. split; [done|]. split; [by injection Efr|]. symmetry. by apply gkey_frame.
  - intros s g' Hg'. destruct (same_frames_elem _ _ _ (Hf s) Hg') as (g & Hg & [=]).
    destruct (Hfree s g Hg). split; congruence.
Qed.

Lemma find_id_spec id gs :
  match find_id id gs with
  | Some g => g ∈ gs /\ g_ID g = id
  | None => id ∉ map g_ID gs
  end.
Proof.
  induction gs as [|g gs IH]; cbn; [by apply not_elem_of_nil|].
  destruct (String.eqb_spec (g_ID g) id) as [<-|Hne]; [split; [by left|done]|].
  destruct (find_id id gs); [destruct IH; split; [by right|done]|].
  by apply not_elem_of_cons.
Qed.

Lemma find_id_elem gs g : NoDup (map g_ID gs) -> g ∈ gs -> find_id (g_ID g) gs = Some g.
Proof.
  intros Hn Hg. pose proof (find_id_spec (g_ID g) gs) as Hf.
  destruct (find_id (g_ID g) gs) as [g'|].
  - destruct Hf as [Hg' E]. apply list_elem_of_lookup in Hg as [i Hi].
    apply list_elem_of_lookup in Hg' as [j Hj].
    rewrite (NoDup_map_inj g_ID gs j i g' g Hn Hj Hi E) in Hj. congruence.
  - destruct Hf. apply elem_of_map. by exists g.
Qed.

Section spec.
Context `{GoRuntime}.

Lemma grantDedupKey_ref gin :
  gi_SourceRef gin <> "" -> String.eqb (grantDedupKey gin) "" = false.
Proof.
  unfold grantDedupKey. intros Href. rewrite (proj2 (String.eqb_neq _ _) Href).
  rewrite !append_assoc. by destruct (gi_SubjectID gin).
Qed.

Lemma grantDedupKey_eq gin now id :
  gi_SourceRef gin <> "" -> grantDedupKey gin = gkey (new_grant now id gin).
Proof. unfold grantDedupKey. by intros ->%String.eqb_neq. Qed.

(** A grant with the same subject, bucket and reference is the one a redelivery
    finds. *)
Lemma prior_grant_found gin g r :
  ledger_inv r -> dedup_inv r -> key_ok gin -> gi_SourceRef gin <> "" ->
  g ∈ grants_of r (gi_SubjectID gin) -> g_Bucket g = gi_Bucket gin ->
  g_SourceRef g = gi_SourceRef gin -> prior_grant gin r = Some g.
Proof.
  intros Hinv Hdd Hk Href Hg Hb Hr. unfold prior_grant. rewrite grantDedupKey_ref by done.
  rewrite (grantDedupKey_eq gin 0 "") by done.
  assert (gkey (new_grant 0 "" gin) = gkey g) as ->.
  { unfold gkey. cbn. by rewrite (inv_subject r Hinv _ _ Hg), Hb, Hr. }
  rewrite (dd_seen r Hdd _ _ Hg) by congruence.
  apply find_id_elem; [apply (inv_acct r Hinv)|done].
Qed.

(** The converse: what is found has the key. *)
Lemma prior_grant_elem gin g r :
  prior_grant gin r = Some g -> g ∈ grants_of r (gi_SubjectID gin).
Proof.
  unfold prior_grant. destruct (String.eqb _ _); [done|].
  destruct (seenGrant r !! _) as [id|]; [|done]. intros E.
  pose proof (find_id_spec id (grants_of r (gi_SubjectID gin))) as Hf. rewrite E in Hf. apply Hf.
Qed.

Lemma prior_grant_data gin g r :
  ledger_inv r -> dedup_inv r -> key_ok gin -> gi_SourceRef gin <> "" ->
  prior_grant gin r = Some g ->
  g ∈ grants_of r (gi_SubjectID gin) /\ g_Bucket g = gi_Bucket gin /\
  g_SourceRef g = gi_SourceRef gin.
Proof.
  intros Hinv Hdd [Hs Hb] Href Hp. pose proof (prior_grant_elem _ _ _ Hp) as Hg. split; [done|].
  revert Hp. unfold prior_grant. rewrite grantDedupKey_ref by done.
  destruct (seenGrant r !! _) as [id|] eqn:E; [|done]. intros Hf.
  pose proof (find_id_spec id (grants_of r (gi_SubjectID gin))) as Hid. rewrite Hf in Hid.
  destruct (dd_origin r Hdd _ _ E) as (s & g' & Hg' & Hid' & Hk).
  assert (s = gi_SubjectID gin) as -> by (apply (inv_ids r Hinv s _ g' g); [done..|]; destruct Hid; congruence).
  pose proof (find_id_elem _ g' (acct_ids _ _ (inv_acct r Hinv _)) Hg') as F.
  rewrite Hid', Hf in F. injection F as ->.
  rewrite (grantDedupKey_eq gin 0 "") in Hk by done.
  destruct (dd_free r Hdd _ _ Hg') as [Hs' Hb'].
  apply key_inj in Hk as (_ & E2 & E3); done.
Qed.

(** When nothing is found, no grant has the key. *)
Lemma prior_grant_None gin r :
  ledger_inv r -> dedup_inv r -> key_ok gin -> gi_SourceRef gin <> "" ->
  prior_grant gin r = None -> seenGrant r !! grantDedupKey gin = None.
Proof.
  intros Hinv Hdd [Hs Hb] Href Hp.
  destruct (seenGrant r !! grantDedupKey gin) as [id|] eqn:E; [exfalso|done].
  destruct (dd_origin r Hdd _ _ E) as (s & g & Hg & Hid & Hk).
  rewrite (grantDedupKey_eq gin 0 "") in Hk by done.
  destruct (dd_free r Hdd _ _ Hg) as [Hs' Hb'].
  apply key_inj in Hk as (E1 & E2 & E3); [|done..]. cbn in E1, E2, E3.
  rewrite (inv_subject r Hinv _ _ Hg) in E1. subst s.
  by rewrite (prior_grant_found gin g r) in Hp.
Qed.

Lemma granted_dedup now id gin r :
  ledger_inv r -> dedup_inv r -> key_ok gin -> prior_grant gin r = None ->
  dedup_inv (granted now id gin r).
Proof.
  intros Hinv Hdd Hk Hp.
  destruct (decide (gi_SourceRef gin = "")) as [Href|Href].
  - assert (E : seenGrant (granted now id gin r) = seenGrant r).
    { unfold granted, grantDedupKey. cbn. by rewrite Href. }
    split; rewrite ?E.
    + intros s g [Hg|[-> ->]]%granted_elem Hr; [by apply (dd_seen r Hdd s)|done].
    + intros k i Hki. destruct (dd_origin r Hdd k i Hki) as (s & g & Hg & ?).
      exists s, g. split; [|done]. apply granted_elem. by left.
    + intros s g [Hg|[-> ->]]%granted_elem; [by apply (dd_free r Hdd s)|exact Hk].
  - pose proof (prior_grant_None gin r Hinv Hdd Hk Href Hp) as Hnone.
    assert (E : seenGrant (granted now id gin r) = <[grantDedupKey gin := id]> (seenGrant r)).
    { unfold granted. cbn. by rewrite grantDedupKey_ref. }
    split; rewrite ?E.
    + intros s g [Hg|[-> ->]]%granted_elem Hr.
      * pose proof (dd_seen r Hdd s g Hg Hr) as Hs. rewrite lookup_insert_ne; [done|].
        intros Ek. congruence.
      * rewrite <- grantDedupKey_eq by done. by rewrite lookup_insert_eq.
    + intros k i [[<- <-]|[_ Hki]]%lookup_insert_Some.
      * exists (gi_SubjectID gin), (new_grant now id gin). split; [apply granted_elem; by right|].
        split; [done|]. by apply grantDedupKey_eq.
      * destruct (dd_origin r Hdd k i Hki) as (s & g & Hg & ?).
        exists s, g. split; [|done]. apply granted_elem. by left.
    + intros s g [Hg|[-> ->]]%granted_elem; [by apply (dd_free r Hdd s)|exact Hk].
Qed.

(** ** Sequences of calls *)
Inductive call :=
| CGrant (st : stamp) (gin : GrantInput)
| CTryDeduct (st : stamp) (din : DeductInput)
| CDeduct (st : stamp) (din : DeductInput)
| CRunExpiry (st : stamp)
| CRevokeGrant (st : stamp) (grantID reason : string)
| CNewMap (m : smap).

Definition exec (c : call) (r : memoryRepo) : memoryRepo :=
  match c with
  | CGrant st gin => snd (op_Grant st gin r)
  | CTryDeduct st din => snd (op_TryDeduct st din r)
  | CDeduct st din => snd (op_Deduct st din r)
  | CRunExpiry st => snd (cr_RunExpiry st r)
  | CRevokeGrant st id reason => snd (op_RevokeGrant st id reason r)
  | CNewMap m => snd (cr_new_map m r)
  end.

(** The amounts are int64 values, and a newly drawn grant id is new. *)
Definition admissible (c : call) (r : memoryRepo) : Prop :=
  match c with
  | CGrant st gin => fresh_id r (st_id st) /\ gi_Amount gin <= int64_max
  | CTryDeduct _ din | CDeduct _ din => di_Amount din <= int64_max
  | _ => True
  end.

(** Grant inputs whose subject and bucket do not contain the key separator. *)
Definition clean (c : call) : Prop :=
  match c with CGrant _ gin => key_ok gin | _ => True end.

Inductive reachable (P : call -> Prop) : memoryRepo -> Prop :=
| reach_new : reachable P NewMemoryRepo
| reach_call c r : reachable P r -> P c -> admissible c r -> reachable P (exec c r).

Fixpoint run (cs : list call) (r : memoryRepo) : memoryRepo :=
  match cs with
  | [] => r
  | c :: cs' => run cs' (exec c r)
  end.
Fixpoint admissible_run (P : call -> Prop) (cs : list call) (r : memoryRepo) : Prop :=
  match cs with
  | [] => True
  | c :: cs' => P c /\ admissible c r /\ admissible_run P cs' (exec c r)
  end.

Lemma op_TryDeduct_state st din r :
  snd (op_TryDeduct st din r) = r \/
  0 < di_Amount din /\ di_RequestID din <> "" /\ snd (op_TryDeduct st din r) =
    snd (repo_TryDeduct (st_now st) (st_later st (di_Bucket din)) (st_ids st) din r).
Proof.
  unfold op_TryDeduct. destruct (di_Amount din <=? 0) eqn:Ea; [by left|].
  destruct (String.eqb (di_RequestID din) "") eqn:Er; [by left|]. right. reflect_bools.
  split; [lia|]. split; [done|]. cbn. by destruct (repo_TryDeduct _ _ _ _ _) as [[??]?].
Qed.

Lemma op_Deduct_state st din r : snd (op_Deduct st din r) = snd (op_TryDeduct st din r).
Proof. unfold op_Deduct. by destruct (op_TryDeduct st din r) as [[[[] ?]|?] ?]. Qed.

Lemma exec_inv c r : ledger_inv r -> admissible c r -> ledger_inv (exec c r).
Proof.
  intros Hinv Hadm.
  assert (Hd : forall st din, di_Amount din <= int64_max -> ledger_inv (snd (op_TryDeduct st din r))).
  { intros st din Ha. destruct (op_TryDeduct_state st din r) as [->|(H1 & H2 & ->)]; [done|].
    apply TryDeduct_inv; [done|lia]. }
  destruct c as [st gin|st din|st din|st|st id reason|m]; cbn [exec admissible] in *.
  - unfold op_Grant. destruct (gi_Amount gin <=? 0) eqn:Ea; [done|]. reflect_bools.
    destruct Hadm as [Hid Hmax].
    assert (Hgi := repo_Grant_inv (st_now st) _ gin r Hinv Hid ltac:(lia)). cbn.
    by destruct (repo_Grant _ _ _ _).
  - by apply Hd.
  - rewrite op_Deduct_state. by apply Hd.
  - pose proof (RunExpiry_inv (st_now st) r Hinv) as Hr. cbn.
    by destruct (repo_RunExpiry _ _) as [??].
  - unfold op_RevokeGrant. destruct (String.eqb id ""); [done|]. by apply RevokeGrant_inv.
  - cbn. destruct Hinv. split; done.
Qed.

Lemma reachable_inv P r : reachable P r -> ledger_inv r.
Proof. induction 1; [apply ledger_inv_new|]. by apply exec_inv. Qed.

Lemma reachable_run P cs r :
  reachable P r -> admissible_run P cs r -> reachable P (run cs r).
Proof.
  revert r. induction cs as [|c cs IH]; intros r Hr Hcs; [done|].
  destruct Hcs as (Hc & Ha & Hcs). apply IH; [by constructor|done].
Qed.

(** Whether an id is fresh, and so whether a run is admissible, is decidable. *)
#[export] Instance fresh_id_dec r id : Decision (fresh_id r id).
Proof.
  refine (cast_if (decide (map_Forall (fun _ gs => id ∉ map g_ID gs) (bySubject r)))).
  - intros s. unfold fresh_id, grants_of.
    destruct (bySubject r !! s) as [gs|] eqn:E; [|by apply not_elem_of_nil].
    by apply (m s).
  - intros Hf. apply n. intros s gs E. specialize (Hf s). unfold grants_of in Hf.
    by rewrite E in Hf.
Defined.
#[export] Instance key_ok_dec gin : Decision (key_ok gin).
Proof. unfold key_ok, bar_free. apply _. Defined.
#[export] Instance clean_dec c : Decision (clean c).
Proof. destruct c; cbn; apply _. Defined.
#[export] Instance admissible_dec c r : Decision (admissible c r).
Proof. destruct c; cbn; apply _. Defined.
#[export] Instance admissible_run_dec P `{!forall c, Decision (P c)} cs r :
  Decision (admissible_run P cs r).
Proof. revert r. induction cs; intros r; cbn; apply _. Defined.

(** *** What every call preserves *)
Lemma op_TryDeduct_frames st din r :
  ledger_inv r -> di_Amount din <= int64_max ->
  let r' := snd (op_TryDeduct st din r) in
  (forall s, same_frames (grants_of r s) (grants_of r' s)) /\ seenGrant r' = seenGrant r.
Proof.
  intros Hinv Ha. destruct (op_TryDeduct_state st din r) as [->|(H1 & H2 & ->)]; [done|].
  destruct (decide (fresh_request r din)) as [Hf|Hf].
  - rewrite TryDeduct_fresh by (done || lia). destruct (_ <=? _); [|done]. split; [|done].
    intros s. cbn [snd]. rewrite deducted_grants. destruct (decide _) as [<-|]; [|done].
    apply settle_frames.
  - by rewrite TryDeduct_replay.
Qed.

Lemma exec_dedup c r :
  ledger_inv r -> dedup_inv r -> clean c -> admissible c r -> dedup_inv (exec c r).
Proof.
  intros Hinv Hdd Hc Ha.
  assert (Hd : forall st din, di_Amount din <= int64_max -> dedup_inv (snd (op_TryDeduct st din r))).
  { intros st din Hm. destruct (op_TryDeduct_frames st din r Hinv Hm) as [??].
    by apply (dedup_inv_frames r). }
  destruct c as [st gin|st din|st din|st|st id reason|m]; cbn [exec admissible clean] in *.
  - unfold op_Grant. destruct (gi_Amount gin <=? 0); [done|]. cbn.
    rewrite repo_Grant_cases. destruct (prior_grant gin r) eqn:E; [done|]. by apply granted_dedup.
  - by apply Hd.
  - rewrite op_Deduct_state. by apply Hd.
  - apply (dedup_inv_frames r); [done|..]; cbn.
    + intros s. pose proof (RunExpiry_grants (st_now st) r s) as E.
      destruct (repo_RunExpiry _ _) as [??]. cbn in *. rewrite E.
      apply same_frames_map, expire1_frame.
    + pose proof (RunExpiry_seen (st_now st) r) as E. by destruct (repo_RunExpiry _ _) as [??].
  - unfold op_RevokeGrant. destruct (String.eqb id ""); [done|].
    apply (dedup_inv_frames r); [done|intros s; apply RevokeGrant_frames|]. cbn.
    destruct (RevokeGrant_cases (st_now st) id reason r) as [[_ ->]|(s & i & g & _ & _ & ->)]; [done|].
    apply revoke_at_rest.
  - destruct Hdd. by split.
Qed.

Lemma reachable_clean r : reachable clean r -> ledger_inv r /\ dedup_inv r.
Proof.
  induction 1 as [|c r Hr [IH1 IH2] Hc Ha].
  - split; [apply ledger_inv_new|]. split.
    + intros s g Hg. rewrite grants_new in Hg. by apply not_elem_of_nil in Hg.
    + intros k id Hk. cbn in Hk. by rewrite lookup_empty in Hk.
    + intros s g Hg. rewrite grants_new in Hg. by apply not_elem_of_nil in Hg.
  - split; [by apply exec_inv|by apply exec_dedup].
Qed.

(** Grants are never removed and keep their frame. *)
Lemma exec_keeps c r s g :
  ledger_inv r -> admissible c r -> g ∈ grants_of r s ->
  exists g', g' ∈ grants_of (exec c r) s /\ frame g' = frame g.
Proof.
  intros Hinv Ha Hg.
  assert (K : forall r', same_frames (grants_of r s) (grants_of r' s) ->
            exists g', g' ∈ grants_of r' s /\ frame g' = frame g).
  { intros r' Hf. by apply (same_frames_elem _ _ _ (same_frames_sym _ _ Hf)). }
  destruct c as [st gin|st din|st din|st|st id reason|m]; cbn [exec admissible] in *.
  - unfold op_Grant. destruct (gi_Amount gin <=? 0); [by exists g|]. cbn.
    rewrite repo_Grant_cases. destruct (prior_grant gin r); [by exists g|]. cbn.
    exists g. split; [|done]. apply granted_elem. by left.
  - apply K. by apply op_TryDeduct_frames.
  - apply K. rewrite op_Deduct_state. by apply op_TryDeduct_frames.
  - apply K. pose proof (RunExpiry_grants (st_now st) r s) as E. cbn.
    destruct (repo_RunExpiry _ _) as [??]. cbn in *. rewrite E. apply same_frames_map, expire1_frame.
  - apply K. unfold op_RevokeGrant. destruct (String.eqb id ""); [done|]. apply RevokeGrant_frames.
  - by exists g.
Qed.

Lemma run_keeps P cs r s g :
  ledger_inv r -> admissible_run P cs r -> g ∈ grants_of r s ->
  exists g', g' ∈ grants_of (run cs r) s /\ frame g' = frame g.
Proof.
  revert r g. induction cs as [|c cs IH]; intros r g Hinv Hcs Hg; [by exists g|].
  destruct Hcs as (_ & Ha & Hcs). destruct (exec_keeps c r s g Hinv Ha Hg) as (g1 & Hg1 & E1).
  destruct (IH (exec c r) g1) as (g2 & Hg2 & E2); [by apply exec_inv|done..|].
  exists g2. split; [done|]. congruence.
Qed.

(** An honoured request stays honoured. *)
Lemma exec_seen c r k :
  is_Some (seenDeduction r !! k) -> is_Some (seenDeduction (exec c r) !! k).
Proof.
  intros Hk.
  assert (Hd : forall st din, is_Some (seenDeduction (snd (op_TryDeduct st din r)) !! k)).
  { intros st din. destruct (op_TryDeduct_state st din r) as [->|(_ & _ & ->)]; [done|].
    unfold repo_TryDeduct. repeat break_match; cbn; try done.
    all: by apply lookup_insert_is_Some'; right. }
  destruct c as [st gin|st din|st din|st|st id reason|m]; cbn [exec].
  - unfold op_Grant. destruct (gi_Amount gin <=? 0); [done|]. cbn.
    rewrite repo_Grant_cases. by destruct (prior_grant gin r).
  - by apply Hd.
  - rewrite op_Deduct_state. by apply Hd.
  - cbn. unfold repo_RunExpiry. by destruct (expire_subjects _ _ _ _).
  - unfold op_RevokeGrant. destruct (String.eqb id ""); [done|]. cbn.
    destruct (RevokeGrant_cases (st_now st) id reason r) as [[_ ->]|(s & i & g & _ & _ & ->)]; [done|].
    destruct (revoke_at_rest (st_now st) reason s i (grants_of r s) r) as (_ & _ & ->). done.
  - done.
Qed.

Lemma run_seen cs r k :
  is_Some (seenDeduction r !! k) -> is_Some (seenDeduction (run cs r) !! k).
Proof. revert r. induction cs; intros r Hk; [done|]. cbn. by apply IHcs, exec_seen. Qed.
End spec.
