(* ===== verification/CreditsTheorems.v ===== *)
(** * CreditsTheorems: what the in-memory credit ledger promises its callers.

    Each theorem is stated on the facade or on the interface methods of the
    repository, for every state [reachable] by admissible calls, and comes with a
    run of the executable model as its witness. *)
From S2P Require Import Prelude Ledger Credits CreditsMemory CreditsMemoryFacts CreditsLedger CreditsSpec.
Import Memory Operations.

Section theorems.
Context `{GoRuntime}.

(** C1: the books balance. In every state a sequence of calls of the facade can
    produce, no grant is overdrawn, what was deducted from it and what is left of it
    never exceed what was granted, and unless the grant is closed (nothing left)
    they add up to it exactly. *)
Theorem books_balance r s g :
  reachable (fun _ => True) r -> g ∈ grants_of r s ->
  0 <= g_AmountRemaining g /\
  g_AmountRemaining g + spent (deductions_of r s) (g_ID g) <= g_AmountInitial g /\
  (g_AmountRemaining g = 0 \/
   g_AmountRemaining g + spent (deductions_of r s) (g_ID g) = g_AmountInitial g).
Proof.
  intros Hr Hg. pose proof (acct_books _ _ (inv_acct r (reachable_inv _ r Hr) s)) as Hb.
  rewrite Forall_forall in Hb. destruct (Hb g Hg) as (H1 & H2 & H3). lia.
Qed.


(** C24: credits are spent first-to-expire first. When a fresh deduction takes
    anything from a grant, every spendable grant of the bucket that drains before it
    (earlier expiry, never-expiring ones last, the older grant on a tie) is left
    empty. *)
Theorem TryDeduct_fifo st din r i j g g' gj :
  reachable (fun _ => True) r -> 0 < di_Amount din <= int64_max -> fresh_request r din ->
  let s := di_SubjectID din in
  let r' := snd (op_TryDeduct st din r) in
  grants_of r s !! i = Some g -> eligible (st_now st) (di_Bucket din) g = true ->
  grants_of r s !! j = Some g' -> drains_before g g' = true ->
  grants_of r' s !! j = Some gj -> g_AmountRemaining gj <> g_AmountRemaining g' ->
  exists gi, grants_of r' s !! i = Some gi /\ g_ID gi = g_ID g /\ g_AmountRemaining gi = 0.
Proof.
  intros Hr Ha Hf s r' Hi He Hj Hd Hj' Hne. apply reachable_inv in Hr.
  assert (r' = deducted (st_now st) (st_ids st) din r \/ r' = r) as [E| E].
  { unfold r'. destruct (op_TryDeduct_state st din r) as [->|(_ & _ & ->)]; [by right|].
    rewrite TryDeduct_fresh by (done || lia). destruct (_ <=? _); [by left|by right]. }
  2: { rewrite E in Hj'. congruence. }
  rewrite E in Hj' |- *. rewrite deducted_grants, decide_True, settle_lookup in Hj' by done.
  rewrite deducted_grants, decide_True, settle_lookup by done.
  rewrite Hj in Hj'. cbn in Hj'. injection Hj' as <-. cbn in Hne.
  exists (deduct_from (taken (deduct_steps (st_now st) din r) i) g). rewrite Hi.
  split; [done|]. split; [done|]. cbn.
  assert (taken (deduct_steps (st_now st) din r) i = g_AmountRemaining g) as ->; [|lia].
  apply (plan_fifo _ _ _ _ i j g g'); try done; [lia|].
  intros E0. change (taken (deduct_steps (st_now st) din r) j = 0) in E0. lia.
Qed.

(** A request is honoured at most once. After a deduction succeeded, and
    whatever calls came in between, repeating its subject and request id succeeds
    again and changes nothing, whatever amount and bucket the repetition carries. *)
Theorem TryDeduct_once st st' din din' bal r r1 cs :
  op_TryDeduct st din r = (Ok (true, bal), r1) ->
  di_SubjectID din' = di_SubjectID din -> di_RequestID din' = di_RequestID din ->
  0 < di_Amount din' ->
  let r2 := run cs r1 in
  op_TryDeduct st' din' r2 =
    (Ok (true, balanceLocked (st_later st' (di_Bucket din')) (di_SubjectID din') (di_Bucket din') r2),
     r2).
Proof.
  intros Hop Hs Hq Ha r2.
  assert (Hseen : di_RequestID din <> "" /\ is_Some (seenDeduction r1 !! deductKey din)).
  { unfold op_TryDeduct in Hop. repeat break_match; try done. reflect_bools. split; [done|].
    cbn in Hop. revert Hop. unfold repo_TryDeduct.
    rewrite (proj2 (String.eqb_neq _ _)) by done. cbn [negb andb].
    destruct (bool_decide _) eqn:Eb.
    - apply bool_decide_eq_true in Eb. intros [= _ <-]. done.
    - destruct (plan_deductions _ _ _) as [steps rem]. destruct (0 <? rem); [done|].
      destruct (apply_steps _ _ _ _ _ _ _) as [gs' ds']. intros [= _ <-]. cbn.
      by rewrite lookup_insert_eq. }
  destruct Hseen as [Hreq Hseen]. apply (run_seen cs) in Hseen. fold r2 in Hseen.
  unfold op_TryDeduct. rewrite (proj2 (Z.leb_gt _ _)), (proj2 (String.eqb_neq _ _)) by (lia || congruence).
  cbn. rewrite TryDeduct_replay; [done|].
  unfold fresh_request, deductKey in *. rewrite Hs, Hq. intros [?|Hn]; [done|].
  rewrite Hn in Hseen. by destruct Hseen.
Qed.

(** A redelivered grant is not applied again. Once a grant with a source
    reference was issued, and whatever calls came in between, issuing it again for
    the same subject, bucket and reference returns the first grant and leaves the
    ledger unchanged, provided subjects and buckets do not contain the separator of
    the deduplication key. *)
Theorem grant_idempotent st st' gin gin' g r r1 cs :
  reachable clean r -> clean (CGrant st gin) -> admissible (CGrant st gin) r ->
  gi_SourceRef gin <> "" -> op_Grant st gin r = (Ok g, r1) ->
  admissible_run clean cs r1 ->
  gi_SubjectID gin' = gi_SubjectID gin -> gi_Bucket gin' = gi_Bucket gin ->
  gi_SourceRef gin' = gi_SourceRef gin -> 0 < gi_Amount gin' ->
  let r2 := run cs r1 in
  exists g', op_Grant st' gin' r2 = (Ok g', r2) /\ frame g' = frame g.
Proof.
  intros Hr Hc Ha Href Hop Hcs Es Eb Er Ham r2.
  assert (E1 : r1 = exec (CGrant st gin) r) by (cbn [exec]; by rewrite Hop).
  pose proof (reach_call _ _ _ Hr Hc Ha) as Hr1. rewrite <- E1 in Hr1.
  destruct (reachable_clean r Hr) as [Hinv Hdd].
  assert (Hg : g ∈ grants_of r1 (gi_SubjectID gin) /\ g_Bucket g = gi_Bucket gin /\
               g_SourceRef g = gi_SourceRef gin).
  { unfold op_Grant in Hop. destruct (gi_Amount gin <=? 0); [done|]. cbn in Hop.
    rewrite repo_Grant_cases in Hop. destruct (prior_grant gin r) as [g0|] eqn:E.
    - injection Hop as -> <-. by apply prior_grant_data.
    - injection Hop as <- <-. split; [apply granted_elem; by right|done]. }
  destruct Hg as (Hg & Hb & Hrf).
  destruct (run_keeps clean cs r1 _ g (reachable_inv _ _ Hr1) Hcs Hg) as (g' & Hg' & Ef).
  exists g'. split; [|done].
  destruct (reachable_clean r2 (reachable_run clean cs r1 Hr1 Hcs)) as [Hinv2 Hdd2].
  unfold op_Grant. rewrite (proj2 (Z.leb_gt _ _)) by lia. cbn.
  rewrite repo_Grant_cases, (prior_grant_found gin' g'); try done.
  - destruct Hc. by split; rewrite ?Es, ?Eb.
  - congruence.
  - by rewrite Es.
  - injection Ef. congruence.
  - injection Ef. congruence.
Qed.

(** A subject never holds two grants for the same bucket and source reference. *)
Theorem grant_at_most_once r s g g' :
  reachable clean r -> g ∈ grants_of r s -> g' ∈ grants_of r s ->
  g_Bucket g = g_Bucket g' -> g_SourceRef g = g_SourceRef g' -> g_SourceRef g <> "" -> g = g'.
Proof.
  intros Hr Hg Hg' Hb Hrf Hne. destruct (reachable_clean r Hr) as [Hinv Hdd].
  assert (E : gkey g = gkey g').
  { unfold gkey. by rewrite Hb, Hrf, (inv_subject r Hinv _ _ Hg), (inv_subject r Hinv _ _ Hg'). }
  pose proof (dd_seen r Hdd _ _ Hg Hne) as H1.
  rewrite E, (dd_seen r Hdd _ _ Hg') in H1 by congruence.
  pose proof (find_id_elem _ g (acct_ids _ _ (inv_acct r Hinv s)) Hg) as F.
  pose proof (find_id_elem _ g' (acct_ids _ _ (inv_acct r Hinv s)) Hg') as F'. congruence.
Qed.

(** A new grant is spendable at once. Issuing a grant that is not a redelivery
    raises what the subject can spend from the bucket by exactly its amount, and
    changes no other bucket and no other subject. *)
Theorem grant_adds st gin r :
  0 < gi_Amount gin -> gi_ValidDays gin <= 1000000 -> prior_grant gin r = None ->
  let s := gi_SubjectID gin in
  exists g r', op_Grant st gin r = (Ok g, r') /\
    grants_of r' s = grants_of r s ++ [g] /\
    avail (st_now st) (gi_Bucket gin) (grants_of r' s) =
      avail (st_now st) (gi_Bucket gin) (grants_of r s) + gi_Amount gin /\
    (forall t b, b <> gi_Bucket gin -> avail t b (grants_of r' s) = avail t b (grants_of r s)) /\
    (forall s', s' <> s -> grants_of r' s' = grants_of r s').
Proof.
  intros Ha Hd Hp s. exists (new_grant (st_now st) (st_id st) gin), (granted (st_now st) (st_id st) gin r).
  assert (Hgs : grants_of (granted (st_now st) (st_id st) gin r) s
                = grants_of r s ++ [new_grant (st_now st) (st_id st) gin])
    by (by rewrite granted_grants, decide_True).
  split; [|split; [done|split; [|split]]].
  - unfold op_Grant. rewrite (proj2 (Z.leb_gt _ _)) by lia. cbn. by rewrite repo_Grant_cases, Hp.
  - rewrite Hgs, avail_snoc. f_equal. unfold spendable, eligible. cbn.
    rewrite String.eqb_refl, (proj2 (Z.ltb_lt _ _)) by lia.
    rewrite new_grant_live by done. done.
  - intros t b Hne. rewrite Hgs, avail_snoc. unfold spendable, eligible. cbn.
    rewrite (proj2 (String.eqb_neq _ _)), andb_false_r by congruence. lia.
  - intros s' Hne. by rewrite granted_grants, decide_False.
Qed.

(** The sweep closes exactly the grants that have expired. It reports the
    credits it removed (modulo the width of the counter), leaves no expired grant
    with anything left and every other grant as it was, and so takes nothing
    anybody could spend. *)
Theorem RunExpiry_correct st r :
  exists n r', cr_RunExpiry st r = (Ok (n, wrap64 (lapsed_total (st_now st) r)), r') /\
    forall s,
      grants_of r' s = map (expire1 (st_now st)) (grants_of r s) /\
      deductions_of r' s = deductions_of r s /\
      (forall g, g ∈ grants_of r' s -> expired (st_now st) g = true -> g_AmountRemaining g <= 0) /\
      (forall g, g ∈ grants_of r s -> expired (st_now st) g = false -> g ∈ grants_of r' s) /\
      (forall b, avail (st_now st) b (grants_of r' s) = avail (st_now st) b (grants_of r s)).
Proof.
  pose proof (RunExpiry_credits (st_now st) r) as Ec.
  pose proof (RunExpiry_grants (st_now st) r) as Eg.
  pose proof (RunExpiry_deductions (st_now st) r) as Ed. cbn [cr_RunExpiry memory_CreditRepo].
  destruct (repo_RunExpiry (st_now st) r) as [[n c] r']. cbn [fst snd] in *.
  exists n, r'. rewrite Ec. split; [done|]. intros s. rewrite Eg, Ed.
  do 2 (split; [done|]). split; [|split].
  - intros g (g0 & -> & _)%elem_of_map. unfold expire1.
    destruct (expired (st_now st) g0 && _) eqn:E; [done|].
    intros He. rewrite He in E. cbn in E. reflect_bools. done.
  - intros g Hg He. apply elem_of_map. exists g. split; [|done]. unfold expire1. by rewrite He.
  - intros b. unfold avail. rewrite map_map. f_equal. apply map_ext. intros g.
    apply spendable_expire1.
Qed.

(** Revoking closes one grant and touches nothing else. The grant with the id
    keeps its identity, is left with nothing and its metadata records the reason;
    every other grant, every deduction and the deduplication state stay as they
    were; an unknown id changes nothing. *)
Theorem RevokeGrant_correct st id reason r :
  reachable (fun _ => True) r -> id <> "" ->
  let r' := snd (op_RevokeGrant st id reason r) in
  fst (op_RevokeGrant st id reason r) = Ok tt /\
  (fresh_id r id -> r' = r) /\
  (forall s i g, grants_of r s !! i = Some g -> g_ID g = id ->
     exists l, grants_of r' s =
       <[i := set_metadata (Some l) (set_remaining 0 g)]> (grants_of r s) /\
       mget (hread (repoHeap r') (Some l)) "revoked_reason" = reason /\
       (forall m, g_Metadata g = Some m -> l = m)) /\
  (forall s, id ∉ map g_ID (grants_of r s) -> grants_of r' s = grants_of r s) /\
  (forall s, deductions_of r' s = deductions_of r s).
Proof.
  intros Hr Hid r'. apply reachable_inv in Hr. unfold r', op_RevokeGrant. clear r'.
  rewrite (proj2 (String.eqb_neq _ _) Hid). cbn [fst snd cr_RevokeGrant memory_CreditRepo].
  split; [done|]. split; [|split; [|split]].
  - intros Hf. destruct (RevokeGrant_cases (st_now st) id reason r)
      as [[_ ->]|(s & i & g & Hi & Hg & _)]; [done|].
    destruct (Hf s). apply elem_of_map. exists g. split; [done|]. by eapply list_elem_of_lookup_2.
  - intros s i g Hi Hg. rewrite (RevokeGrant_at _ _ _ _ s i g) by done.
    exists (revoked_ref g (repoHeap r)). split; [|split].
    + by rewrite (revoke_at_grants _ _ _ _ _ _ _ g), decide_True.
    + by apply revoke_at_reason.
    + unfold revoked_ref. by intros m ->.
  - intros s Hs. destruct (RevokeGrant_cases (st_now st) id reason r)
      as [[_ ->]|(s' & i & g & Hi & Hg & ->)]; [done|].
    rewrite (revoke_at_grants _ _ _ _ _ _ _ g), decide_False; [done| |done..].
    intros ->. destruct Hs. apply elem_of_map. exists g. split; [done|]. by eapply list_elem_of_lookup_2.
  - intros s. apply RevokeGrant_deductions.
Qed.

(** The balance is the spendable total, exactly when it fits the counter; the
    grant count is the number of spendable grants, and the next expiry is the
    earliest one among them. *)
Theorem Balance_correct st s b r :
  exists bal, cr_Balance st s b r = Ok bal /\
    let live := List.filter (eligible (st_now st) b) (grants_of r s) in
    b_SubjectID bal = s /\ b_Bucket bal = b /\
    b_Total bal = wrap64 (avail (st_now st) b (grants_of r s)) /\
    (avail (st_now st) b (grants_of r s) <= int64_max ->
       b_Total bal = avail (st_now st) b (grants_of r s)) /\
    b_GrantCount bal = Z.of_nat (List.length live) /\
    match b_NextExpiry bal with
    | None => forall g, g ∈ live -> g_ExpiresAt g = None
    | Some e => (exists g, g ∈ live /\ g_ExpiresAt g = Some e) /\
                forall g e', g ∈ live -> g_ExpiresAt g = Some e' -> e <= e'
    end.
Proof.
  eexists. split; [done|]. intros live.
  destruct (balance_fold_spec (st_now st) b (grants_of r s) (mkBalance s b 0 None 0))
    as (Es & Eb & Ec & En).
  split; [exact Es|]. split; [exact Eb|]. split; [apply balance_total|]. split.
  - intros Hmax. rewrite balance_total. apply wrap64_id. split; [|done].
    pose proof (avail_nonneg (st_now st) b (grants_of r s)). unfold int64_min. lia.
  - split; [exact Ec|]. exact (En eq_refl).
Qed.

(** The history is complete and in order. It lists every grant and every
    deduction of the subject since the given time, each once, by timestamp. *)
Theorem History_correct s since r :
  exists es, cr_History s since r = Ok es /\
    sorted_by entry_less es /\
    es ≡ₚ map grant_entry (List.filter (fun g => since <=? g_GrantedAt g) (grants_of r s)) ++
          map deduction_entry (List.filter (fun d => since <=? d_CreatedAt d) (deductions_of r s)).
Proof.
  eexists. split; [done|]. unfold repo_History. split.
  - apply sort_slice_sorted. split; intros x y; unfold entry_less; [|intros z];
      rewrite ?Z.ltb_lt, ?Z.ltb_ge; lia.
  - rewrite sort_slice_perm. apply reflexive_eq. do 2 f_equal; apply List.filter_ext;
      intros x; by rewrite Z.leb_antisym.
Qed.
End theorems.

(** ** Runs of the model: the witnesses *)
Module Demo.
Definition at_ (t : Z) (id : string) : stamp :=
  mkStamp (t * second) (fun _ => t * second) id (fun n => id ^^ "." ^^ pretty n).
Definition buy (amount days : Z) (ref : string) : GrantInput :=
  mkGrantInput "user_1" "api" amount days SourceStripePayment ref None.
Definition spend (amount : Z) (req : string) : DeductInput :=
  mkDeductInput "user_1" "api" amount "usage" req None.
(** Three purchases, the second the first to expire, then a deduction that empties
    it and takes ten credits of the first. *)
Definition calls : list call :=
  [ CGrant (at_ 100 "gr_1") (buy 100 30 "pi_1"); CGrant (at_ 200 "gr_2") (buy 50 10 "pi_2");
    CGrant (at_ 300 "gr_3") (buy 20 0 "pi_3"); CTryDeduct (at_ 400 "de_1") (spend 60 "req_1") ].
Definition repo : memoryRepo := run calls NewMemoryRepo.

#[local] Instance any_dec (c : call) : Decision ((fun _ => True) c) := left I.

Lemma repo_reachable : reachable (fun _ => True) repo.
Proof.
  apply reachable_run; [constructor|]. apply (bool_decide_unpack _). vm_compute. exact I.
Defined.
Lemma repo_clean : reachable clean repo.
Proof.
  apply reachable_run; [constructor|]. apply (bool_decide_unpack _). vm_compute. exact I.
Defined.

Definition g1 : Grant := mkGrant "gr_1" "user_1" "api" 100 90 (100 * second)
  (Some (100 * second + 30 * day)) SourceStripePayment "pi_1" None.

Lemma g1_elem : g1 ∈ grants_of repo "user_1".
Proof. apply (bool_decide_unpack _). vm_compute. exact I. Defined.
End Demo.

Lemma books_balance_witness :
  g_AmountRemaining Demo.g1 + spent (deductions_of Demo.repo "user_1") "gr_1" = 100.
Proof.
  destruct (books_balance Demo.repo "user_1" Demo.g1 Demo.repo_reachable Demo.g1_elem)
    as (_ & _ & [E|E]); [vm_compute in E; discriminate E|exact E].
Defined.


Lemma TryDeduct_fifo_witness :
  exists gi, grants_of (snd (op_TryDeduct (Demo.at_ 500 "de_2") (Demo.spend 95 "req_2") Demo.repo))
      "user_1" !! 0%nat = Some gi /\ g_AmountRemaining gi = 0.
Proof.
  destruct (TryDeduct_fifo (Demo.at_ 500 "de_2") (Demo.spend 95 "req_2") Demo.repo 0 2
    Demo.g1
    (mkGrant "gr_3" "user_1" "api" 20 20 (300 * second) None SourceStripePayment "pi_3" None)
    (mkGrant "gr_3" "user_1" "api" 20 15 (300 * second) None SourceStripePayment "pi_3" None)
    Demo.repo_reachable ltac:(unfold int64_max; cbn; lia) ltac:(right; vm_compute; reflexivity)
    ltac:(vm_compute; reflexivity) ltac:(vm_compute; reflexivity) ltac:(vm_compute; reflexivity)
    ltac:(vm_compute; reflexivity) ltac:(vm_compute; reflexivity) ltac:(discriminate))
    as (gi & Hi & _ & H0).
  exists gi. by split.
Defined.

Lemma TryDeduct_once_witness :
  exists bal, fst (op_TryDeduct (Demo.at_ 900 "de_9") (Demo.spend 7000 "req_1")
    (run [CRunExpiry (Demo.at_ 800 "")] Demo.repo)) = Ok (true, bal) /\ b_Total bal = 110.
Proof.
  eexists. split.
  - rewrite (TryDeduct_once (Demo.at_ 400 "de_1") (Demo.at_ 900 "de_9") (Demo.spend 60 "req_1")
      (Demo.spend 7000 "req_1")
      (balanceLocked (400 * second) "user_1" "api" Demo.repo)
      (run (take 3 Demo.calls) NewMemoryRepo) Demo.repo [CRunExpiry (Demo.at_ 800 "")]);
      [reflexivity | vm_compute; reflexivity | reflexivity | reflexivity | cbn; lia].
  - vm_compute. reflexivity.
Defined.

Lemma grant_idempotent_witness :
  exists g', op_Grant (Demo.at_ 950 "gr_9") (Demo.buy 100 30 "pi_4")
      (run Demo.calls (snd (op_Grant (Demo.at_ 50 "gr_0") (Demo.buy 100 30 "pi_4") NewMemoryRepo)))
    = (Ok g', run Demo.calls
        (snd (op_Grant (Demo.at_ 50 "gr_0") (Demo.buy 100 30 "pi_4") NewMemoryRepo))) /\
    g_ID g' = "gr_0".
Proof.
  destruct (grant_idempotent (Demo.at_ 50 "gr_0") (Demo.at_ 950 "gr_9") (Demo.buy 100 30 "pi_4")
    (Demo.buy 100 30 "pi_4") (new_grant (50 * second) "gr_0" (Demo.buy 100 30 "pi_4"))
    NewMemoryRepo (snd (op_Grant (Demo.at_ 50 "gr_0") (Demo.buy 100 30 "pi_4") NewMemoryRepo))
    Demo.calls (reach_new _) ltac:(vm_compute; split; reflexivity)
    ltac:(apply (bool_decide_unpack _); vm_compute; exact I) ltac:(discriminate)
    ltac:(vm_compute; reflexivity) ltac:(apply (bool_decide_unpack _); vm_compute; exact I)
    eq_refl eq_refl eq_refl ltac:(cbn; lia)) as (g' & E & Hf).
  exists g'. split; [exact E|]. by injection Hf.
Defined.

Lemma grant_at_most_once_witness : Demo.g1 = Demo.g1.
Proof.
  exact (grant_at_most_once Demo.repo "user_1" Demo.g1 Demo.g1 Demo.repo_clean Demo.g1_elem
    Demo.g1_elem eq_refl eq_refl ltac:(discriminate)).
Defined.

Lemma grant_adds_witness :
  exists g r', op_Grant (Demo.at_ 600 "gr_4") (Demo.buy 40 7 "pi_4") Demo.repo = (Ok g, r') /\
    avail (600 * second) "api" (grants_of r' "user_1") = 150.
Proof.
  destruct (grant_adds (Demo.at_ 600 "gr_4") (Demo.buy 40 7 "pi_4") Demo.repo
    ltac:(cbn; lia) ltac:(cbn; lia) ltac:(vm_compute; reflexivity)) as (g & r' & E & _ & Hav & _).
  exists g, r'. split; [exact E|].
  cbn [gi_Bucket gi_SubjectID gi_Amount Demo.buy st_now Demo.at_] in Hav. rewrite Hav.
  vm_compute. reflexivity.
Defined.

Lemma RevokeGrant_correct_witness :
  exists l, grants_of (snd (op_RevokeGrant (Demo.at_ 700 "") "gr_1" "refund" Demo.repo)) "user_1" =
    <[0%nat := set_metadata (Some l) (set_remaining 0 Demo.g1)]> (grants_of Demo.repo "user_1").
Proof.
  destruct (RevokeGrant_correct (Demo.at_ 700 "") "gr_1" "refund" Demo.repo Demo.repo_reachable
    ltac:(discriminate)) as (_ & _ & Hg & _).
  destruct (Hg "user_1" 0%nat Demo.g1 ltac:(vm_compute; reflexivity) eq_refl) as (l & E & _).
  exists l. exact E.
Defined.
