(* ===== verification/CreditsPostgres.v ===== *)
(** * CreditsPostgres: the credit ledger in Postgres (src/repos/postgres/credit_repo.go).

    The database is the two tables, grants by id and the deductions. Every method is a
    program of statements; [TryDeduct] is one transaction, in which [now()] does not
    move and the advisory lock keeps other deductions of the subject out. Metadata read
    from a row is a fresh map, so a grant is returned with its metadata by value.
    Identifiers come from [gen_random_uuid], and are arguments. Times read are printed in
    UTC. *)
From S2P Require Import Prelude Postgres Json Ledger Credits.

Module Pg.
Record GrantRow := mkGrantRow {
  gw_subject : string; gw_bucket : string; gw_initial : Z; gw_remaining : Z;
  gw_granted_at : Z; gw_expires_at : option Z; gw_source : string; gw_source_ref : option string;
  gw_metadata : string; gw_revoked_at : option Z; gw_revoked_reason : option string }.
Record DeductionRow := mkDeductionRow {
  dw_subject : string; dw_bucket : string; dw_grant_id : string; dw_amount : Z;
  dw_reason : string; dw_request_id : string; dw_metadata : string; dw_created_at : Z }.
Record tables := mkTables { grants : gmap string GrantRow; deductions : list DeductionRow }.

(** [credits.Grant] with its metadata by value. *)
Record GrantView := mkView {
  v_ID : string; v_SubjectID : string; v_Bucket : string; v_AmountInitial : Z; v_AmountRemaining : Z;
  v_GrantedAt : Z; v_ExpiresAt : option Z; v_Source : string; v_SourceRef : string; v_Metadata : smap }.

Definition set_gw_remaining (z : Z) (g : GrantRow) : GrantRow :=
  mkGrantRow (gw_subject g) (gw_bucket g) (gw_initial g) z (gw_granted_at g) (gw_expires_at g) (gw_source g)
    (gw_source_ref g) (gw_metadata g) (gw_revoked_at g) (gw_revoked_reason g).
Definition view (id : string) (g : GrantRow) (meta : smap) : GrantView :=
  mkView id (gw_subject g) (gw_bucket g) (gw_initial g) (gw_remaining g) (gw_granted_at g) (gw_expires_at g)
    (gw_source g) (default "" (gw_source_ref g)) meta.
(** [json.Unmarshal(metadataJSON, &g.Metadata)]; malformed metadata is logged. *)
Definition row_metadata (g : GrantRow) : smap := default ∅ (Unmarshal ∅ dec_smap (gw_metadata g)).

Definition min_expiry (l : list (option Z)) : option Z :=
  foldr (fun o acc => match o, acc with
                      | Some e, Some m => Some (Z.min e m)
                      | Some e, None => Some e
                      | None, _ => acc
                      end) None l.

Section repo.
Context `{GoRuntime} `{PgTime}.

(** ** Grant *)
Definition sourceRef (gin : GrantInput) : option string :=
  if String.eqb (gi_SourceRef gin) "" then None else Some (gi_SourceRef gin).
Definition ref_taken (subject bucket : string) (ref : option string) (t : gmap string GrantRow) : bool :=
  match ref with
  | None => false
  | Some _ => existsb (fun '(_, g) => String.eqb (gw_subject g) subject && String.eqb (gw_bucket g) bucket &&
                         bool_decide (gw_source_ref g = ref)) (map_to_list t)
  end.
(** [now] is the clock of the server, [expires] what the client computed. *)
Definition insert_grant (now : Z) (newID : string) (gin : GrantInput) (expires : option Z) (meta : smap) (d : tables)
  : res string bool * tables :=
  if ref_taken (gi_SubjectID gin) (gi_Bucket gin) (sourceRef gin) (grants d) then (Ok false, d)
  else match grants d !! newID with
       | Some _ => (Err "duplicate key value violates unique constraint", d)
       | None =>
           (Ok true, mkTables (<[newID := mkGrantRow (gi_SubjectID gin) (gi_Bucket gin) (gi_Amount gin) (gi_Amount gin) now
                                  (pg_ts <$> expires) (gi_Source gin) (sourceRef gin)
                                  (render (enc_smap (map_range meta))) None None]> (grants d)) (deductions d))
       end.
(** The row with the source reference; the unique index leaves at most one. *)
Definition find_row (subject bucket ref : string) (d : tables) : option (string * GrantRow) :=
  head (List.filter (fun '(_, g) => String.eqb (gw_subject g) subject && String.eqb (gw_bucket g) bucket &&
    bool_decide (gw_source_ref g = Some ref)) (map_to_list (grants d))).
Definition findExisting (subject bucket ref : string) : sql tables GrantView :=
  query (fun d => match find_row subject bucket ref d with
                  | None => Err "sql: no rows in result set"
                  | Some (id, g) => Ok (view id g (row_metadata g))
                  end).
Definition pc_Grant (clock now : Z) (newID : string) (gin : GrantInput) (meta : smap) : sql tables GrantView :=
  if gi_Amount gin <=? 0 then sfail "postgres.CreditRepo.Grant: Amount must be positive"
  else
    let expires := if 0 <? gi_ValidDays gin then Some (add_days clock (gi_ValidDays gin)) else None in
    (inserted <- named "postgres.CreditRepo.Grant: insert" (stmt (insert_grant now newID gin expires meta)) ;;
     if (inserted : bool)
     then sret (mkView newID (gi_SubjectID gin) (gi_Bucket gin) (gi_Amount gin) (gi_Amount gin) now expires
                  (gi_Source gin) (gi_SourceRef gin) meta)
     else named "postgres.CreditRepo.Grant: lookup existing after dedup"
            (findExisting (gi_SubjectID gin) (gi_Bucket gin) (gi_SourceRef gin)))%sql.

(** ** Reading *)
Definition by_granted_id (a b : string * GrantRow) : bool :=
  if gw_granted_at (snd a) =? gw_granted_at (snd b) then String.ltb (fst a) (fst b)
  else gw_granted_at (snd a) <? gw_granted_at (snd b).
Definition pc_ListBySubject (subject : string) : sql tables (list GrantView) :=
  named "postgres.CreditRepo.ListBySubject" (query (fun d => Ok (
    map (fun '(id, g) => view id g (row_metadata g))
      (sort_slice by_granted_id (List.filter (fun '(_, g) => String.eqb (gw_subject g) subject) (map_to_list (grants d))))))).

(** [amount_remaining > 0 AND revoked_at IS NULL AND (expires_at IS NULL OR expires_at > now())]. *)
Definition live (now : Z) (g : GrantRow) : bool :=
  (0 <? gw_remaining g) && bool_decide (gw_revoked_at g = None) &&
  match gw_expires_at g with None => true | Some e => now <? e end.
Definition usable (now : Z) (subject bucket : string) (kg : string * GrantRow) : bool :=
  String.eqb (gw_subject (snd kg)) subject && String.eqb (gw_bucket (snd kg)) bucket && live now (snd kg).
Definition usable_rows (now : Z) (subject bucket : string) (d : tables) : list (string * GrantRow) :=
  List.filter (usable now subject bucket) (map_to_list (grants d)).
Definition balance_of (now : Z) (subject bucket : string) (d : tables) : res string Balance :=
  let rows := map snd (usable_rows now subject bucket d) in
  match scan_sum (map gw_remaining rows) with
  | Err e => Err e
  | Ok total => Ok (mkBalance subject bucket total (min_expiry (map gw_expires_at rows)) (Z.of_nat (List.length rows)))
  end.
Definition balanceFromQuerier (now : Z) (subject bucket : string) : sql tables Balance :=
  named "postgres.CreditRepo balance" (query (balance_of now subject bucket)).
Definition pc_Balance (now : Z) (subject bucket : string) : sql tables Balance := balanceFromQuerier now subject bucket.

Fixpoint scan_balances (now : Z) (subject : string) (d : tables) (buckets : list string) (out : gmap string Balance)
  : res string (gmap string Balance) :=
  match buckets with
  | [] => Ok out
  | b :: rest =>
      match balance_of now subject b d with
      | Err e => Err e
      | Ok bal => scan_balances now subject d rest (<[b := bal]> out)
      end
  end.
(** [GROUP BY bucket]. *)
Definition pc_AllBalances (now : Z) (subject : string) : sql tables (gmap string Balance) :=
  (out <- named "postgres.CreditRepo.AllBalances" (query (fun d => Ok (
     scan_balances now subject d
       (remove_dups (map (fun kg => gw_bucket (snd kg))
         (List.filter (fun kg => String.eqb (gw_subject (snd kg)) subject && live now (snd kg)) (map_to_list (grants d))))) ∅))) ;;
   match out with
   | Err e => sfail e
   | Ok m => sret m
   end)%sql.

(** ** TryDeduct *)
(** [ORDER BY expires_at NULLS LAST, granted_at ASC]. *)
Definition expires_first (a b : string * GrantRow) : bool :=
  match gw_expires_at (snd a), gw_expires_at (snd b) with
  | Some x, Some y => if x =? y then gw_granted_at (snd a) <? gw_granted_at (snd b) else x <? y
  | Some _, None => true
  | None, Some _ => false
  | None, None => gw_granted_at (snd a) <? gw_granted_at (snd b)
  end.
Definition deduct_pool (now : Z) (subject bucket : string) (d : tables) : list (string * GrantRow) :=
  sort_slice expires_first (usable_rows now subject bucket d).
(** The planning loop. *)
Fixpoint plan_steps (pool : list (string * GrantRow)) (remaining : Z) : list (string * Z) * Z :=
  match pool with
  | [] => ([], remaining)
  | (id, g) :: pool' =>
      if remaining =? 0 then ([], remaining)
      else
        let take := if remaining <? gw_remaining g then remaining else gw_remaining g in
        let '(steps, unmet) := plan_steps pool' (sub64 remaining take) in
        ((id, take) :: steps, unmet)
  end.
(** [UPDATE ... SET amount_remaining = amount_remaining - $1], under its [CHECK]. *)
Definition decrement (take : Z) (id : string) (d : tables) : res string unit * tables :=
  match grants d !! id with
  | None => (Ok tt, d)
  | Some g =>
      if gw_remaining g - take <? 0 then (Err "violates check constraint", d)
      else (Ok tt, mkTables (<[id := set_gw_remaining (gw_remaining g - take) g]> (grants d)) (deductions d))
  end.
(** Under [CHECK (amount > 0)] and [UNIQUE (subject_id, request_id, grant_id)]. *)
Definition insert_deduction (now : Z) (din : DeductInput) (meta : smap) (id : string) (take : Z) (d : tables)
  : res string unit * tables :=
  if take <=? 0 then (Err "violates check constraint", d)
  else if existsb (fun x => String.eqb (dw_subject x) (di_SubjectID din) && String.eqb (dw_request_id x) (di_RequestID din) &&
                            String.eqb (dw_grant_id x) id) (deductions d)
       then (Err "duplicate key value violates unique constraint", d)
       else (Ok tt, mkTables (grants d) (deductions d ++
              [mkDeductionRow (di_SubjectID din) (di_Bucket din) id take (di_Reason din) (di_RequestID din)
                 (render (enc_smap (map_range meta))) now])).
Fixpoint apply_plan (now : Z) (din : DeductInput) (meta : smap) (steps : list (string * Z)) : sql tables unit :=
  match steps with
  | [] => sret tt
  | (id, take) :: rest =>
      (named "postgres.CreditRepo.TryDeduct: decrement grant" (stmt (decrement take id)) ;;
       named "postgres.CreditRepo.TryDeduct: insert deduction" (stmt (insert_deduction now din meta id take)) ;;
       apply_plan now din meta rest)%sql
  end.
Definition requested (din : DeductInput) (d : tables) : bool :=
  existsb (fun x => String.eqb (dw_subject x) (di_SubjectID din) && String.eqb (dw_request_id x) (di_RequestID din)) (deductions d).

(** How the transaction came to its commit; only one of the ways names its error. *)
Inductive deduct_way := Replayed | Insufficient | Deducted.
Definition deduct_body (now : Z) (din : DeductInput) (meta : smap) : sql tables (tx_end (deduct_way * Balance)) :=
  (named "postgres.CreditRepo.TryDeduct: acquire lock" (query (fun _ => Ok tt)) ;;
   dup <- named "postgres.CreditRepo.TryDeduct: idempotency check" (query (fun d => Ok (requested din d))) ;;
   if (dup : bool) then
     bal <- balanceFromQuerier now (di_SubjectID din) (di_Bucket din) ;; sret (Commit (Replayed, bal))
   else
     pool <- named "postgres.CreditRepo.TryDeduct: select grants"
               (query (fun d => Ok (deduct_pool now (di_SubjectID din) (di_Bucket din) d))) ;;
     let '(steps, remaining) := plan_steps pool (di_Amount din) in
     if 0 <? remaining then
       bal <- balanceFromQuerier now (di_SubjectID din) (di_Bucket din) ;; sret (Commit (Insufficient, bal))
     else
       apply_plan now din meta steps ;;
       bal <- balanceFromQuerier now (di_SubjectID din) (di_Bucket din) ;; sret (Commit (Deducted, bal)))%sql.
Definition pc_TryDeduct (now : Z) (din : DeductInput) (meta : smap) : sql tables (bool * Balance) :=
  (wb <- transaction (fun e => "postgres.CreditRepo.TryDeduct: begin tx: " ^^ e)
           (fun wb e => match fst wb with
                        | Deducted => "postgres.CreditRepo.TryDeduct: commit: " ^^ e
                        | _ => e
                        end) (deduct_body now din meta) ;;
   sret (match fst wb with Insufficient => false | _ => true end, snd wb))%sql.

(** ** RunExpiry: two statements *)
Definition expired_row (now : Z) (g : GrantRow) : bool :=
  match gw_expires_at g with Some e => e <? now | None => false end &&
  (0 <? gw_remaining g) && bool_decide (gw_revoked_at g = None).
Definition pc_RunExpiry (now1 now2 : Z) : sql tables (Z * Z) :=
  (found <- named "postgres.CreditRepo.RunExpiry: aggregate" (query (fun d =>
      let rows := List.filter (expired_row now1) (map snd (map_to_list (grants d))) in
      match scan_sum (map gw_remaining rows) with
      | Err e => Err e
      | Ok total => Ok (Z.of_nat (List.length rows), total)
      end)) ;;
   if fst found =? 0 then sret (0, 0)
   else
     named "postgres.CreditRepo.RunExpiry: zero" (stmt (fun d =>
       (Ok tt, mkTables ((fun g => if expired_row now2 g then set_gw_remaining 0 g else g) <$> grants d) (deductions d)))) ;;
     sret found)%sql.

(** ** History: the two tables, by time *)
Definition entry_of_grant (kg : string * GrantRow) : LedgerEntry :=
  mkEntry EntryTypeGrant (gw_granted_at (snd kg)) (gw_bucket (snd kg)) (gw_initial (snd kg)) "" (gw_source (snd kg))
    (default "" (gw_source_ref (snd kg))) (fst kg).
Definition entry_of_deduction (x : DeductionRow) : LedgerEntry :=
  mkEntry EntryTypeDeduction (dw_created_at x) (dw_bucket x) (dw_amount x) (dw_reason x) "" "" (dw_grant_id x).
Definition by_timestamp (a b : LedgerEntry) : bool := le_Timestamp a <? le_Timestamp b.
Definition pc_History (subject : string) (since : Z) : sql tables (list LedgerEntry) :=
  named "postgres.CreditRepo.History" (query (fun d => Ok (sort_slice by_timestamp (
    map entry_of_grant (List.filter (fun kg => String.eqb (gw_subject (snd kg)) subject && negb (gw_granted_at (snd kg) <? pg_ts since))
                          (map_to_list (grants d))) ++
    map entry_of_deduction (List.filter (fun x => String.eqb (dw_subject x) subject && negb (dw_created_at x <? pg_ts since))
                              (deductions d)))))).

(** ** RevokeGrant and FindGrantsBySourceRef *)
(** The cast [$1::uuid]: the canonical text of the identifier, or an error. *)
Context (parse_uuid : string -> option string).
Definition revoke_row (now : Z) (reason : string) (g : GrantRow) : GrantRow :=
  mkGrantRow (gw_subject g) (gw_bucket g) (gw_initial g) 0 (gw_granted_at g) (gw_expires_at g) (gw_source g)
    (gw_source_ref g) (gw_metadata g) (Some now) (Some reason).
Definition pc_RevokeGrant (now : Z) (grantID reason : string) : sql tables unit :=
  named "postgres.CreditRepo.RevokeGrant" (stmt (fun d =>
    match parse_uuid grantID with
    | None => (Err "invalid input syntax for type uuid", d)
    | Some id =>
        match grants d !! id with
        | Some g => if bool_decide (gw_revoked_at g = None)
                    then (Ok tt, mkTables (<[id := revoke_row now reason g]> (grants d)) (deductions d)) else (Ok tt, d)
        | None => (Ok tt, d)
        end
    end)).
Definition by_granted (a b : string * GrantRow) : bool := gw_granted_at (snd a) <? gw_granted_at (snd b).
Definition revoked_metadata (g : GrantRow) : smap :=
  let m := match gw_revoked_reason g with Some r => {["revoked_reason" := r]} | None => ∅ end in
  match gw_revoked_at g with Some t => <["revoked_at" := format_rfc3339 t]> m | None => m end.
Definition pc_FindGrantsBySourceRef (ref : string) : sql tables (list GrantView) :=
  if String.eqb ref "" then sret []
  else named "postgres.CreditRepo.FindGrantsBySourceRef" (query (fun d => Ok (
    map (fun '(id, g) => view id g (revoked_metadata g))
      (sort_slice by_granted (List.filter (fun '(_, g) => bool_decide (gw_source_ref g = Some ref)) (map_to_list (grants d))))))).
End repo.
End Pg.
