(* ===== verification/CreditsPostgresFacts.v ===== *)
(** * CreditsPostgresFacts: a deduction spends its amount exactly once, and the books
      of the Postgres ledger balance, whatever statements fail. *)
From S2P Require Import Prelude Postgres Json Ledger Credits CreditsPostgres.
Import Pg.

#[export] Instance expires_first_order : StrictWeak expires_first.
Proof.
  split.
  - intros [? x] [? y]. unfold expires_first. cbn. destruct (gw_expires_at x) as [a|], (gw_expires_at y) as [b|]; try done.
    + rewrite (Z.eqb_sym b a). destruct (Z.eqb_spec a b); rewrite ?Z.ltb_lt, ?Z.ltb_ge; lia.
    + rewrite Z.ltb_lt, Z.ltb_ge. lia.
  - intros [? x] [? y] [? z]. unfold expires_first. cbn.
    destruct (gw_expires_at x) as [a|], (gw_expires_at y) as [b|], (gw_expires_at z) as [c|]; try done.
    + destruct (Z.eqb_spec b a), (Z.eqb_spec c b), (Z.eqb_spec c a); rewrite ?Z.ltb_ge; lia.
    + rewrite !Z.ltb_ge. lia.
Qed.

(** ** The specification of a deduction *)
Definition deduction_row (now : Z) (din : DeductInput) (meta : string) (step : string * Z) : DeductionRow :=
  mkDeductionRow (di_SubjectID din) (di_Bucket din) (fst step) (snd step) (di_Reason din) (di_RequestID din) meta now.
Definition drawn (steps : list (string * Z)) (id : string) : Z := default 0 ((list_to_map steps : gmap string Z) !! id).
Definition take_from (steps : list (string * Z)) (id : string) (g : GrantRow) : GrantRow :=
  set_gw_remaining (gw_remaining g - drawn steps id) g.

(** [d'] is [d] after the amount has been taken, in parts: each from a usable grant of the
    subject and bucket and within what it has, each with its deduction row; what
    expires first is used up first; nothing else changes. *)
Record spends_by (steps : list (string * Z)) (now : Z) (din : DeductInput) (meta : string) (d d' : tables) : Prop := {
  sp_ids : NoDup (map fst steps);
  sp_amount : sumZ (map snd steps) = di_Amount din;
  sp_from id t : (id, t) ∈ steps -> exists g, grants d !! id = Some g /\
    usable now (di_SubjectID din) (di_Bucket din) (id, g) = true /\ 0 < t <= gw_remaining g;
  sp_order id t g id' g' : (id, t) ∈ steps -> grants d !! id = Some g -> grants d !! id' = Some g' ->
    usable now (di_SubjectID din) (di_Bucket din) (id', g') = true -> expires_first (id', g') (id, g) = true ->
    (id', gw_remaining g') ∈ steps;
  sp_grants id : grants d' !! id = take_from steps id <$> grants d !! id;
  sp_deductions : deductions d' = deductions d ++ map (deduction_row now din meta) steps;
}.
Definition spends (now : Z) (din : DeductInput) (meta : string) (d d' : tables) : Prop :=
  exists steps, spends_by steps now din meta d d'.

(** What the tables always satisfy. *)
Definition spent_from (id : string) (l : list DeductionRow) : Z :=
  sumZ (map dw_amount (List.filter (fun x => String.eqb (dw_grant_id x) id) l)).
Record books_ok (d : tables) : Prop := {
  bk_grant id g : grants d !! id = Some g -> 0 < gw_initial g <= int64_max /\ 0 <= gw_remaining g /\
    gw_remaining g + spent_from id (deductions d) <= gw_initial g;
  bk_deduction x : x ∈ deductions d -> 0 < dw_amount x /\ is_Some (grants d !! dw_grant_id x);
  bk_source id g id' g' : grants d !! id = Some g -> grants d !! id' = Some g' -> is_Some (gw_source_ref g) ->
    (gw_subject g, gw_bucket g, gw_source_ref g) = (gw_subject g', gw_bucket g', gw_source_ref g') -> id = id';
}.
Lemma spent_from_nonneg id l : (forall x, x ∈ l -> 0 < dw_amount x) -> 0 <= spent_from id l.
Proof.
  intros Hl. apply sumZ_nonneg, Forall_forall. intros z (x & -> & Hx)%list_elem_of_fmap.
  rewrite list_elem_of_In in Hx. apply filter_In in Hx as [Hx _]. rewrite <- list_elem_of_In in Hx. specialize (Hl x Hx). lia.
Qed.
Lemma books_remaining d id g : books_ok d -> grants d !! id = Some g -> 0 <= gw_remaining g <= int64_max.
Proof.
  intros Hb Hg. destruct (bk_grant d Hb id g Hg) as (? & ? & ?).
  assert (0 <= spent_from id (deductions d)); [|lia]. apply spent_from_nonneg. intros x Hx. by apply (bk_deduction d Hb).
Qed.

Section facts.
Context `{GoRuntime} `{PgTime}.

(** *** The plan is the greedy draw *)
Definition amounts (pool : list (string * GrantRow)) : list (string * Z) := map (fun kg => (fst kg, gw_remaining (snd kg))) pool.
Lemma plan_draw pool remaining :
  Forall (fun kg => 0 < gw_remaining (snd kg) <= int64_max) pool -> 0 <= remaining <= int64_max ->
  plan_steps pool remaining = draw (amounts pool) remaining.
Proof.
  intros Hp. revert remaining. induction Hp as [|[id g] pool Hg Hp IH]; intros r Hr; [done|]. cbn in *.
  destruct (r =? 0); [done|]. set (take := if r <? gw_remaining g then r else gw_remaining g).
  assert (0 <= take <= r) by (unfold take; destruct (Z.ltb_spec r (gw_remaining g)); lia).
  rewrite sub64_exact by (unfold in_int64, int64_min in *; lia). by rewrite IH by lia.
Qed.
Lemma pool_elem now subject bucket d id g :
  (id, g) ∈ deduct_pool now subject bucket d <-> grants d !! id = Some g /\ usable now subject bucket (id, g) = true.
Proof.
  unfold deduct_pool, usable_rows. rewrite sort_slice_perm, list_elem_of_In, filter_In, <- list_elem_of_In, elem_of_map_to_list. done.
Qed.
Lemma usable_live now subject bucket id g : usable now subject bucket (id, g) = true -> 0 < gw_remaining g.
Proof. unfold usable, live. cbn. rewrite !andb_true_iff, Z.ltb_lt. tauto. Qed.
Lemma pool_ids now subject bucket d : NoDup (map fst (deduct_pool now subject bucket d)).
Proof.
  unfold deduct_pool, usable_rows. rewrite sort_slice_perm. pose proof (NoDup_fst_map_to_list (grants d)) as Hnd.
  revert Hnd. generalize (map_to_list (grants d)). intros l Hnd. induction l as [|[id g] l IH]; [constructor|]. cbn in *.
  apply NoDup_cons in Hnd as [Hn Hnd]. destruct (usable _ _ _ _); [|auto]. cbn. apply NoDup_cons. split; [|auto].
  intros ([id' g'] & -> & Hin)%list_elem_of_fmap. apply Hn. rewrite list_elem_of_In in Hin. apply filter_In in Hin as [Hin _].
  rewrite <- list_elem_of_In in Hin. apply list_elem_of_fmap. by exists (id', g').
Qed.
Lemma pool_positive now subject bucket d : books_ok d ->
  Forall (fun kg => 0 < gw_remaining (snd kg) <= int64_max) (deduct_pool now subject bucket d).
Proof.
  intros Hb. apply Forall_forall. intros [id g] [Hg Hu]%pool_elem. cbn.
  pose proof (usable_live _ _ _ _ _ Hu). pose proof (books_remaining d id g Hb Hg). lia.
Qed.
Lemma amounts_positive pool : Forall (fun kg => 0 < gw_remaining (snd kg) <= int64_max) pool -> positive_pool (amounts pool).
Proof. unfold positive_pool, amounts. intros Hp. apply Forall_map. eapply Forall_impl; [exact Hp|]. intros [? ?]. cbn. lia. Qed.
Definition available (now : Z) (subject bucket : string) (d : tables) : Z :=
  sumZ (map (fun kg => gw_remaining (snd kg)) (usable_rows now subject bucket d)).
Lemma amounts_available now subject bucket d : pool_sum (amounts (deduct_pool now subject bucket d)) = available now subject bucket d.
Proof. unfold pool_sum, amounts, available, deduct_pool. rewrite map_map. cbn. by rewrite sort_slice_perm. Qed.

(** *** The applying loop *)
Lemma drawn_cons id t steps i : drawn ((id, t) :: steps) i = if decide (id = i) then t else drawn steps i.
Proof. unfold drawn. cbn. destruct (decide (id = i)) as [->|]; [by rewrite lookup_insert_eq|by rewrite lookup_insert_ne]. Qed.
Lemma drawn_notin steps i : i ∉ map fst steps -> drawn steps i = 0.
Proof. intros Hi. unfold drawn. by rewrite not_elem_of_list_to_map_1. Qed.
Lemma take_from_0 steps id g : drawn steps id = 0 -> take_from steps id g = g.
Proof. intros E. unfold take_from. rewrite E, Z.sub_0_r. by destruct g. Qed.
Lemma apply_plan_ok now din meta steps fs n d n' d' :
  NoDup (map fst steps) -> apply_plan now din meta steps fs n d = (Ok tt, (n', d')) ->
  (forall id, grants d' !! id = take_from steps id <$> grants d !! id) /\
  deductions d' = deductions d ++ map (deduction_row now din (render (enc_smap (map_range meta)))) steps.
Proof.
  revert n d. induction steps as [|[id t] steps IH]; intros n d Hnd; cbn [apply_plan].
  - intros [= _ <-]. split; [|by rewrite app_nil_r]. intros i. destruct (grants d !! i) as [g|]; [|done].
    cbn. by rewrite take_from_0.
  - cbn in Hnd. apply NoDup_cons in Hnd as [Hid Hnd].
    intros (u & n1 & d1 & E1%named_ok & (u2 & n2 & d2 & E2%named_ok & E3)%sbind_ok)%sbind_ok.
    apply stmt_ok in E1 as [E1 _], E2 as [E2 _]. destruct (IH n2 d2 Hnd E3) as [Hg Hd].
    unfold insert_deduction in E2. destruct (t <=? 0); [done|]. destruct (existsb _ _); [done|]. injection E2 as <- <-. cbn in *.
    assert (Hg1 : deductions d1 = deductions d /\ forall i, grants d1 !! i = (fun g => set_gw_remaining (gw_remaining g - (if decide (id = i) then t else 0)) g) <$> grants d !! i).
    { unfold decrement in E1. destruct (grants d !! id) as [g|] eqn:Eg.
      - destruct (_ <? 0); [done|]. injection E1 as <- <-. cbn. split; [done|]. intros i. destruct (decide (id = i)) as [<-|Hne].
        + by rewrite lookup_insert_eq, Eg.
        + rewrite lookup_insert_ne by done. destruct (grants d !! i) as [g'|]; [|done]. cbn. rewrite Z.sub_0_r. by destruct g'.
      - injection E1 as <- <-. split; [done|]. intros i. destruct (decide (id = i)) as [<-|Hne]; [by rewrite Eg|].
        destruct (grants d !! i) as [g'|]; [|done]. cbn. rewrite Z.sub_0_r. by destruct g'. }
    destruct Hg1 as [Ed1 Hg1]. split.
    + intros i. rewrite Hg, Hg1. destruct (grants d !! i) as [g|]; [|done]. cbn. f_equal. unfold take_from. rewrite drawn_cons. cbn.
      destruct (decide (id = i)) as [<-|Hne]; [rewrite drawn_notin by done|]; unfold set_gw_remaining; cbn; f_equal; lia.
    + rewrite Hd, Ed1, <- app_assoc. done.
Qed.

(** *** The plan meets the specification *)
Lemma draw_elem pool amount id t :
  positive_pool pool -> 0 <= amount -> (id, t) ∈ fst (draw (K := string) pool amount) -> exists a, (id, a) ∈ pool /\ 0 < t <= a.
Proof.
  intros Hp Ha [j Hj]%list_elem_of_lookup. destruct (draw_lookup pool amount j id t Hp Ha Hj) as (a & Hl & Ht).
  exists a. split; [by eapply list_elem_of_lookup_2|done].
Qed.
Lemma amounts_elem id a pool : (id, a) ∈ amounts pool <-> exists g, (id, g) ∈ pool /\ a = gw_remaining g.
Proof.
  unfold amounts. rewrite list_elem_of_fmap. split.
  - intros ([i g] & [= -> ->] & Hin). eauto.
  - intros (g & Hin & ->). by exists (id, g).
Qed.
Lemma sorted_first now subject bucket d i j x y :
  deduct_pool now subject bucket d !! i = Some x -> deduct_pool now subject bucket d !! j = Some y ->
  expires_first x y = true -> (i < j)%nat.
Proof.
  intros Hi Hj Hxy. destruct (decide (i < j)%nat) as [|Hge]; [done|]. exfalso.
  destruct (decide (i = j)) as [->|Hne]; [rewrite Hi in Hj; injection Hj as ->; by rewrite (less_asym _ _ Hxy) in Hxy|].
  assert (expires_first x y = false) as E; [|congruence].
  apply (sorted_by_lookup expires_first (deduct_pool now subject bucket d) j i y x); [apply sort_slice_sorted, _|done..|lia].
Qed.
Lemma plan_spends now din meta d fs n n' d' :
  books_ok d -> 0 < di_Amount din <= int64_max ->
  let p := plan_steps (deduct_pool now (di_SubjectID din) (di_Bucket din) d) (di_Amount din) in
  snd p <= 0 -> apply_plan now din meta (fst p) fs n d = (Ok tt, (n', d')) ->
  spends_by (fst p) now din (render (enc_smap (map_range meta))) d d'.
Proof.
  intros Hb Ha. set (pool := deduct_pool now (di_SubjectID din) (di_Bucket din) d). cbn zeta.
  pose proof (pool_positive now (di_SubjectID din) (di_Bucket din) d Hb) as Hpos. fold pool in Hpos.
  pose proof (amounts_positive pool Hpos) as Hpp. rewrite (plan_draw pool (di_Amount din) Hpos ltac:(lia)). intros Hmet Happ.
  assert (Hids : map fst (amounts pool) = map fst pool) by (unfold amounts; by rewrite map_map).
  assert (Hnd : NoDup (map fst (fst (draw (amounts pool) (di_Amount din))))).
  { apply draw_keys_NoDup; [done|lia|]. rewrite Hids. apply pool_ids. }
  destruct (apply_plan_ok now din meta _ fs n d n' d' Hnd Happ) as [Hg Hd].
  pose proof (draw_total (amounts pool) (di_Amount din) Hpp) as Htot. pose proof (draw_unmet (amounts pool) (di_Amount din) Hpp) as Hun.
  split; [done|unfold pool_sum in *; lia| | |done|done].
  - intros id t Hin. destruct (draw_elem (amounts pool) (di_Amount din) id t Hpp ltac:(lia) Hin) as (a & (g & Hg' & ->)%amounts_elem & Ht).
    apply pool_elem in Hg' as [? ?]. eauto.
  - intros id t g id' g' Hin Hgd Hgd' Hu' Hord. apply list_elem_of_lookup in Hin as [j Hj].
    destruct (draw_lookup (amounts pool) (di_Amount din) j id t Hpp ltac:(lia) Hj) as (a & Hl & _). unfold amounts in Hl. rewrite map_lookup in Hl.
    destruct (pool !! j) as [[id0 g0]|] eqn:Ej; [|done]. injection Hl as <- <-.
    assert ((id0, g0) ∈ pool) as [Hg0 _]%pool_elem by (by eapply list_elem_of_lookup_2). rewrite Hgd in Hg0. injection Hg0 as ->.
    assert ((id', g') ∈ pool) as [i Hi]%list_elem_of_lookup by (by apply pool_elem).
    pose proof (sorted_first _ _ _ _ i j _ _ Hi Ej Hord) as Hij.
    pose proof (draw_fifo (amounts pool) (di_Amount din) i j _ Hpp ltac:(lia) Hij Hj) as Hf. unfold amounts in Hf at 2. rewrite map_lookup, Hi in Hf.
    by eapply list_elem_of_lookup_2.
Qed.

(** *** The transaction *)
Lemma balance_ok now subject bucket fs n d bal n' d' :
  balanceFromQuerier now subject bucket fs n d = (Ok bal, (n', d')) -> balance_of now subject bucket d = Ok bal /\ d' = d.
Proof. intros E%named_ok. by apply query_ok in E. Qed.
Definition way_ok (now : Z) (din : DeductInput) (meta : smap) (d : tables) (w : deduct_way) (d' : tables) : Prop :=
  match w with
  | Replayed => requested din d = true /\ d' = d
  | Insufficient => requested din d = false /\ available now (di_SubjectID din) (di_Bucket din) d < di_Amount din /\ d' = d
  | Deducted => requested din d = false /\ spends now din (render (enc_smap (map_range meta))) d d'
  end.
Lemma deduct_body_ok now din meta fs n d a n' d' :
  books_ok d -> 0 < di_Amount din <= int64_max -> deduct_body now din meta fs n d = (Ok a, (n', d')) ->
  exists w bal, a = Commit (w, bal) /\ balance_of now (di_SubjectID din) (di_Bucket din) d' = Ok bal /\ way_ok now din meta d w d'.
Proof.
  intros Hb Ha. unfold deduct_body. intros (u & n1 & d1 & E1%named_ok & (dup & n2 & d2 & E2%named_ok & E)%sbind_ok)%sbind_ok.
  apply query_ok in E1 as [_ ->], E2 as [E2 ->]. injection E2 as E2. destruct dup.
  - apply sbind_ok in E as (bal & n3 & d3 & [Eb ->]%balance_ok & E). injection E as <- _ <-. by exists Replayed, bal.
  - apply sbind_ok in E as (pool & n3 & d3 & E3%named_ok & E). apply query_ok in E3 as [E3 ->]. injection E3 as <-.
    pose proof (plan_spends now din meta d) as Hsp. cbn zeta in Hsp.
    pose proof (pool_positive now (di_SubjectID din) (di_Bucket din) d Hb) as Hpos.
    assert (Hun : snd (plan_steps (deduct_pool now (di_SubjectID din) (di_Bucket din) d) (di_Amount din)) =
                  Z.max 0 (di_Amount din - available now (di_SubjectID din) (di_Bucket din) d)).
    { rewrite (plan_draw _ (di_Amount din) Hpos ltac:(lia)). rewrite draw_unmet by (by apply amounts_positive || lia). by rewrite amounts_available. }
    destruct (plan_steps _ (di_Amount din)) as [steps remaining]. cbn in Hsp, Hun. destruct (Z.ltb_spec 0 remaining).
    + apply sbind_ok in E as (bal & n4 & d4 & [Eb ->]%balance_ok & E). injection E as <- _ <-. exists Insufficient, bal.
      split_and!; [done|done|]. cbn. split_and!; [done|lia|done].
    + apply sbind_ok in E as ([] & n4 & d4 & Eap & E). apply sbind_ok in E as (bal & n5 & d5 & [Eb ->]%balance_ok & E).
      injection E as <- _ <-. exists Deducted, bal. split_and!; [done|done|]. split; [done|]. exists steps. by eapply Hsp.
Qed.

Lemma TryDeduct_cases now din meta fs n d r n' d' :
  books_ok d -> 0 < di_Amount din <= int64_max ->
  pc_TryDeduct now din meta fs n d = (r, (n', d')) ->
  let spent := requested din d = false /\ spends now din (render (enc_smap (map_range meta))) d d' in
  match r with
  | Ok (true, bal) => balance_of now (di_SubjectID din) (di_Bucket din) d' = Ok bal /\ (requested din d = true /\ d' = d \/ spent)
  | Ok (false, bal) => balance_of now (di_SubjectID din) (di_Bucket din) d' = Ok bal /\ d' = d /\ requested din d = false /\
      available now (di_SubjectID din) (di_Bucket din) d < di_Amount din
  | Err _ => d' = d \/ spent
  end.
Proof.
  intros Hb Ha E. cbn zeta. unfold pc_TryDeduct in E. unfold sbind at 1 in E.
  destruct (transaction _ _ (deduct_body now din meta) fs n d) as [[[w bal]|e] [n1 d1]] eqn:Et.
  - injection E as <- _ <-. apply transaction_ok in Et as [n2 [Et|[-> [d2 Et]]]]; apply deduct_body_ok in Et as (w' & bal' & E & Eb & Hw); try done.
    injection E as -> ->. destruct w'; cbn in *; naive_solver.
  - injection E as <- _ <-. apply transaction_atomic in Et as [->|([w bal] & n2 & Et)]; [by left|].
    apply deduct_body_ok in Et as (w' & bal' & E & _ & Hw); [|done..]. injection E as -> ->. destruct w'; cbn in *; naive_solver.
Qed.

(** C12: A deduction in Postgres is all or nothing and implements its specification on every
    path, whatever statements fail. It reports success with the balance it leaves either
    because the request was applied before, changing nothing, or having spent the
    amount; it reports insufficient credit only when the usable grants fall
    short, changing nothing; on an error the ledger is as it was, or (when the answer
    of the commit was lost) the amount has been spent whole. *)
Theorem TryDeduct_refines now din meta fs n d r n' d' :
  books_ok d -> 0 < di_Amount din <= int64_max ->
  pc_TryDeduct now din meta fs n d = (r, (n', d')) ->
  let spent := requested din d = false /\ spends now din (render (enc_smap (map_range meta))) d d' in
  match r with
  | Ok (true, bal) => balance_of now (di_SubjectID din) (di_Bucket din) d' = Ok bal /\ (requested din d = true /\ d' = d \/ spent)
  | Ok (false, bal) => balance_of now (di_SubjectID din) (di_Bucket din) d' = Ok bal /\ d' = d /\ requested din d = false /\
      available now (di_SubjectID din) (di_Bucket din) d < di_Amount din
  | Err _ => d' = d \/ spent
  end.
Proof. apply TryDeduct_cases. Qed.
End facts.
