(* ===== verification/CreditsPostgresTheorems.v ===== *)
(** * CreditsPostgresTheorems: deductions without faults, deductions under retries, and
      the books over every sequence of calls. *)
From S2P Require Import Prelude Postgres Json Ledger Credits CreditsPostgres CreditsPostgresFacts.
Import Pg.

(** A table changed row by row. *)
Lemma map_to_list_pointwise {A B} (f : string -> A -> B) (m : gmap string A) (m' : gmap string B) :
  (forall i, m' !! i = f i <$> m !! i) -> map_to_list m' ≡ₚ map (fun kv => (fst kv, f (fst kv) (snd kv))) (map_to_list m).
Proof.
  intros Hm. apply NoDup_Permutation.
  - apply NoDup_map_to_list.
  - apply (NoDup_fmap_1 fst). rewrite <- list_fmap_compose. apply NoDup_fst_map_to_list.
  - intros [i b]. rewrite elem_of_map_to_list, Hm, list_elem_of_fmap, fmap_Some. split.
    + intros (a & Ha & ->). exists (i, a). by rewrite elem_of_map_to_list.
    + intros ([j a] & [= -> ->] & Ha%elem_of_map_to_list). eauto.
Qed.
Lemma sumZ_filter {A} (p : A -> bool) (f : A -> Z) l :
  sumZ (map f (List.filter p l)) = sumZ (map (fun x => if p x then f x else 0) l).
Proof. induction l as [|x l IH]; [done|]. cbn [List.filter map]. rewrite sumZ_cons, <- IH. by destruct (p x). Qed.
Lemma sumZ_sub {A} (f g : A -> Z) l : sumZ (map (fun x => f x - g x) l) = sumZ (map f l) - sumZ (map g l).
Proof. induction l as [|x l IH]; [done|]. cbn [map]. rewrite !sumZ_cons, IH. lia. Qed.
Lemma sumZ_one (id : string) t ids : NoDup ids -> id ∈ ids -> sumZ (map (fun i => if decide (id = i) then t else 0) ids) = t.
Proof.
  induction 1 as [|i ids Hi Hnd IH]; intros Hin; [by apply not_elem_of_nil in Hin|]. cbn [map]. rewrite sumZ_cons.
  apply elem_of_cons in Hin as [->|Hin].
  - rewrite decide_True by done. assert (sumZ (map (fun j => if decide (i = j) then t else 0) ids) = 0) as ->; [|lia].
    clear IH Hnd. induction ids as [|j ids IH]; [done|]. cbn [map]. rewrite sumZ_cons, decide_False, IH; [done|set_solver..].
  - rewrite IH by done. rewrite decide_False; [lia|]. by intros ->.
Qed.
Lemma sum_drawn steps ids :
  NoDup ids -> NoDup (map fst steps) -> (forall i, i ∈ map fst steps -> i ∈ ids) ->
  sumZ (map (drawn steps) ids) = sumZ (map snd steps).
Proof.
  intros Hids. induction steps as [|[id t] steps IH]; intros Hnd Hin.
  - cbn. clear. induction ids as [|i ids IH]; [done|]. cbn [map]. by rewrite sumZ_cons, IH.
  - cbn in Hnd. apply NoDup_cons in Hnd as [Hn Hnd]. cbn [map snd]. rewrite sumZ_cons, <- IH by set_solver.
    pose proof (sumZ_one id t ids Hids ltac:(set_solver)) as E1.
    assert (E : forall i, drawn ((id, t) :: steps) i = (if decide (id = i) then t else 0) - (0 - drawn steps i)).
    { intros i. rewrite drawn_cons. destruct (decide (id = i)) as [<-|]; [rewrite drawn_notin by done|]; lia. }
    rewrite (map_ext _ _ E), sumZ_sub, sumZ_sub, E1. assert (sumZ (map (fun _ : string => 0) ids) = 0) as ->; [|lia].
    clear. induction ids as [|i ids IH]; [done|]. cbn [map]. by rewrite sumZ_cons, IH.
Qed.

Section theorems.
Context `{GoRuntime} `{PgTime}.

(** *** A deduction takes its amount off the balance *)
Lemma drawn_elem steps id t : NoDup (map fst steps) -> (id, t) ∈ steps -> drawn steps id = t.
Proof. intros Hnd Hin. unfold drawn. by rewrite (elem_of_list_to_map_1 steps id t). Qed.
Lemma spends_available steps now din meta d d' :
  books_ok d -> spends_by steps now din meta d d' ->
  available now (di_SubjectID din) (di_Bucket din) d' = available now (di_SubjectID din) (di_Bucket din) d - di_Amount din.
Proof.
  intros Hb Hsp. unfold available, usable_rows. rewrite !sumZ_filter.
  rewrite (map_to_list_pointwise (take_from steps) (grants d) (grants d') (sp_grants _ _ _ _ _ _ Hsp)), map_map.
  rewrite <- (sp_amount _ _ _ _ _ _ Hsp), <- (sum_drawn steps (map fst (map_to_list (grants d))));
    [|apply NoDup_fst_map_to_list|apply (sp_ids _ _ _ _ _ _ Hsp)|].
  2:{ intros i ([j t] & -> & Hin)%list_elem_of_fmap. destruct (sp_from _ _ _ _ _ _ Hsp j t Hin) as (g & Hg & _).
      apply list_elem_of_fmap. exists (j, g). by rewrite elem_of_map_to_list. }
  rewrite map_map, <- sumZ_sub. f_equal. apply map_ext_in. intros [i g] Hin. rewrite <- list_elem_of_In, elem_of_map_to_list in Hin. cbn.
  destruct (decide (i ∈ map fst steps)) as [([j t] & -> & Hs)%list_elem_of_fmap|Hn].
  - destruct (sp_from _ _ _ _ _ _ Hsp j t Hs) as (g' & Hg' & Hu & Ht). cbn in Hin, Hu. rewrite Hin in Hg'. injection Hg' as <-.
    cbn. rewrite Hu, (drawn_elem steps j t (sp_ids _ _ _ _ _ _ Hsp) Hs).
    unfold usable, live, take_from in *. cbn in *. rewrite (drawn_elem steps j t (sp_ids _ _ _ _ _ _ Hsp) Hs).
    rewrite !andb_true_iff in Hu. destruct Hu as [[-> ->] [[_ ->] ->]]. cbn. rewrite !andb_true_r.
    destruct (Z.ltb_spec 0 (gw_remaining g - t)); lia.
  - rewrite take_from_0, (drawn_notin steps i Hn) by by apply drawn_notin. by destruct (usable _ _ _ _); rewrite Z.sub_0_r.
Qed.

(** *** Without faults the loop runs through *)
Lemma apply_plan_runs now din meta steps n d :
  NoDup (map fst steps) ->
  (forall id t, (id, t) ∈ steps -> exists g, grants d !! id = Some g /\ 0 < t <= gw_remaining g) ->
  (forall x, x ∈ deductions d -> dw_subject x = di_SubjectID din -> dw_request_id x = di_RequestID din -> dw_grant_id x ∉ map fst steps) ->
  exists n' d', apply_plan now din meta steps no_faults n d = (Ok tt, (n', d')).
Proof.
  revert n d. induction steps as [|[id t] steps IH]; intros n d Hnd Hs Hx; [eauto|]. cbn in Hnd. apply NoDup_cons in Hnd as [Hn Hnd].
  destruct (Hs id t) as (g & Hg & Ht); [left|]. cbn [apply_plan]. unfold sbind, named, stmt, no_faults, decrement at 1.
  rewrite Hg, (proj2 (Z.ltb_ge (gw_remaining g - t) 0)) by lia. unfold insert_deduction at 1. rewrite (proj2 (Z.leb_gt t 0)) by lia. cbn [deductions].
  destruct (existsb _ (deductions d)) eqn:Ex.
  { apply existsb_exists in Ex as (x & Hin & [[E1%String.eqb_eq E2%String.eqb_eq]%andb_true_iff E3%String.eqb_eq]%andb_true_iff).
    rewrite <- list_elem_of_In in Hin. destruct (Hx x Hin E1 E2). rewrite E3. left. }
  apply IH; [done|..]; cbn.
  - intros i u Hi. assert (i <> id) by (intros ->; apply Hn, list_elem_of_fmap; by exists (id, u)). rewrite lookup_insert_ne by done.
    apply Hs. by right.
  - intros x [Hin|Hin]%elem_of_app E1 E2; [intros Hc; apply (Hx x Hin E1 E2); by right|]. apply list_elem_of_singleton in Hin as ->. exact Hn.
Qed.
Lemma available_nonneg now subject bucket d : 0 <= available now subject bucket d.
Proof.
  apply sumZ_nonneg, Forall_map, Forall_forall. intros [id g] Hin. unfold usable_rows in Hin. rewrite list_elem_of_In in Hin.
  apply filter_In in Hin as [_ Hu%usable_live]. cbn. lia.
Qed.
Lemma balance_runs now subject bucket n d :
  available now subject bucket d <= int64_max ->
  exists bal, balanceFromQuerier now subject bucket no_faults n d = (Ok bal, (S n, d)) /\ b_Total bal = available now subject bucket d.
Proof.
  intros Hle. pose proof (available_nonneg now subject bucket d) as Hge. unfold balanceFromQuerier, named, query, stmt, no_faults, balance_of.
  unfold scan_sum. rewrite map_map. fold (available now subject bucket d).
  rewrite (proj2 (Z.leb_le int64_min _)) by (unfold int64_min; lia). rewrite (proj2 (Z.leb_le _ int64_max)) by done. cbn. eauto.
Qed.
Lemma requested_spec din d : requested din d = false -> forall x, x ∈ deductions d ->
  dw_subject x = di_SubjectID din -> dw_request_id x = di_RequestID din -> False.
Proof.
  intros Hr x Hx E1 E2. assert (requested din d = true) as E; [|congruence]. apply existsb_exists. exists x.
  by rewrite <- list_elem_of_In, E1, E2, !String.eqb_refl.
Qed.
Lemma deduct_body_runs now din meta n d :
  books_ok d -> 0 < di_Amount din <= int64_max -> available now (di_SubjectID din) (di_Bucket din) d <= int64_max ->
  exists bal n' d', deduct_body now din meta no_faults n d =
    (Ok (Commit (if requested din d then Replayed
                 else if available now (di_SubjectID din) (di_Bucket din) d <? di_Amount din then Insufficient else Deducted, bal)), (n', d')) /\
    b_Total bal = available now (di_SubjectID din) (di_Bucket din) d'.
Proof.
  intros Hb Ha Hav. unfold deduct_body. unfold sbind at 1, named at 1, query at 1, stmt at 1, no_faults at 1.
  unfold sbind at 1, named at 1, query at 1, stmt at 1, no_faults at 1. destruct (requested din d) eqn:Er.
  - destruct (balance_runs now (di_SubjectID din) (di_Bucket din) (S (S n)) d Hav) as (bal & E & Et). unfold sbind. rewrite E. cbn. eauto 6.
  - unfold sbind at 1, named at 1, query at 1, stmt at 1, no_faults at 1.
    pose proof (pool_positive now (di_SubjectID din) (di_Bucket din) d Hb) as Hpos. set (pool := deduct_pool _ _ _ d) in *.
    pose proof (amounts_positive pool Hpos) as Hpp.
    assert (Hun : snd (plan_steps pool (di_Amount din)) = Z.max 0 (di_Amount din - available now (di_SubjectID din) (di_Bucket din) d)).
    { rewrite (plan_draw pool (di_Amount din) Hpos ltac:(lia)), draw_unmet by (done || lia). unfold pool. by rewrite amounts_available. }
    pose proof (plan_spends now din meta d) as Hsp. cbn zeta in Hsp. fold pool in Hsp.
    assert (Hnd : NoDup (map fst (fst (plan_steps pool (di_Amount din))))).
    { rewrite (plan_draw pool (di_Amount din) Hpos ltac:(lia)). apply draw_keys_NoDup; [done|lia|].
      assert (map fst (amounts pool) = map fst pool) as -> by (unfold amounts; by rewrite map_map). apply pool_ids. }
    assert (Hfrom : forall id t, (id, t) ∈ fst (plan_steps pool (di_Amount din)) -> exists g, grants d !! id = Some g /\ 0 < t <= gw_remaining g).
    { intros id t Hin. rewrite (plan_draw pool (di_Amount din) Hpos ltac:(lia)) in Hin.
      destruct (draw_elem (amounts pool) (di_Amount din) id t Hpp ltac:(lia) Hin) as (a & (g & [Hg _]%pool_elem & ->)%amounts_elem & Ht). eauto. }
    destruct (plan_steps pool (di_Amount din)) as [steps rem]. cbn [fst snd] in *. subst rem.
    destruct (Z.ltb_spec (available now (di_SubjectID din) (di_Bucket din) d) (di_Amount din)).
    + rewrite (proj2 (Z.ltb_lt 0 _)) by lia.
      destruct (balance_runs now (di_SubjectID din) (di_Bucket din) (S (S (S n))) d Hav) as (bal & E & Et). unfold sbind. rewrite E. cbn. eauto 6.
    + rewrite (proj2 (Z.ltb_ge 0 _)) by lia.
      destruct (apply_plan_runs now din meta steps (S (S (S n))) d Hnd Hfrom) as (n1 & d1 & Eap).
      { intros x Hx E1 E2. by destruct (requested_spec din d Er x Hx). }
      pose proof (Hsp _ _ _ _ Hb Ha ltac:(lia) Eap) as Hspends. pose proof (spends_available _ _ _ _ _ _ Hb Hspends) as Hav'.
      destruct (balance_runs now (di_SubjectID din) (di_Bucket din) n1 d1) as (bal & E & Et); [lia|].
      unfold sbind. rewrite Eap, E. cbn. eauto 6.
Qed.


(** *** Retries *)
Lemma spends_requested now din meta d d' : 0 < di_Amount din -> spends now din meta d d' -> requested din d' = true.
Proof.
  intros Ha [steps Hsp]. destruct steps as [|[id t] steps]; [pose proof (sp_amount _ _ _ _ _ _ Hsp) as E; cbn in E; lia|].
  unfold requested. rewrite (sp_deductions _ _ _ _ _ _ Hsp), existsb_app. cbn. rewrite !String.eqb_refl. cbn. by rewrite orb_true_r.
Qed.
Lemma spends_books now din meta d d' : books_ok d -> spends now din meta d d' -> books_ok d'.
Proof.
  intros Hb [steps Hsp]. pose proof (sp_grants _ _ _ _ _ _ Hsp) as Hg. split.
  - intros id g'. rewrite Hg. intros (g & Hgd & ->)%fmap_Some. destruct (bk_grant d Hb id g Hgd) as (Hi & Hr & Hs). cbn.
    assert (Hsum : spent_from id (deductions d') = spent_from id (deductions d) + drawn steps id).
    { unfold spent_from. rewrite (sp_deductions _ _ _ _ _ _ Hsp), List.filter_app, map_app, sumZ_app. f_equal.
      pose proof (sp_ids _ _ _ _ _ _ Hsp) as Hnd. clear -Hnd. induction steps as [|[i t] steps IH]; [done|].
      cbn in Hnd. apply NoDup_cons in Hnd as [Hn Hnd]. specialize (IH Hnd). cbn. rewrite drawn_cons.
      destruct (String.eqb_spec i id) as [->|Hne]; [|by rewrite decide_False].
      cbn [map]. rewrite sumZ_cons, IH, decide_True, drawn_notin by done. cbn. lia. }
    rewrite Hsum. split; [done|]. split; [|lia].
    destruct (decide (id ∈ map fst steps)) as [([j t] & -> & Hin)%list_elem_of_fmap|Hn]; [|rewrite drawn_notin by done; lia].
    destruct (sp_from _ _ _ _ _ _ Hsp j t Hin) as (g0 & Hg0 & _ & Ht). cbn in Hgd |- *. rewrite Hgd in Hg0. injection Hg0 as <-.
    rewrite (drawn_elem steps j t); [lia|apply (sp_ids _ _ _ _ _ _ Hsp)|done].
  - intros x. rewrite (sp_deductions _ _ _ _ _ _ Hsp). intros [Hx|Hx]%elem_of_app.
    + destruct (bk_deduction d Hb x Hx) as [? [g Hgx]]. split; [done|]. rewrite Hg, Hgx. eauto.
    + apply list_elem_of_fmap in Hx as ([j t] & -> & Hin). destruct (sp_from _ _ _ _ _ _ Hsp j t Hin) as (g0 & Hg0 & _ & Ht).
      cbn. split; [lia|]. rewrite Hg, Hg0. eauto.
  - intros i g i' g'. rewrite !Hg. intros (g1 & Hg1 & ->)%fmap_Some (g2 & Hg2 & ->)%fmap_Some. cbn. by apply (bk_source d Hb).
Qed.

(** The same request, tried at several times on a connection with faults. *)
Fixpoint attempts (din : DeductInput) (meta : smap) (times : list Z) (fs : faults) (n : nat) (d : tables)
  : list (res string (bool * Balance)) * tables :=
  match times with
  | [] => ([], d)
  | now :: rest =>
      let '(r, (n', d')) := pc_TryDeduct now din meta fs n d in
      let '(rs, d2) := attempts din meta rest fs n' d' in (r :: rs, d2)
  end.
Lemma attempts_after din meta times fs n d :
  books_ok d -> 0 < di_Amount din <= int64_max -> requested din d = true -> snd (attempts din meta times fs n d) = d.
Proof.
  intros Hb Ha Hr. revert n. induction times as [|now times IH]; intros n; [done|]. cbn.
  destruct (pc_TryDeduct now din meta fs n d) as [r [n1 d1]] eqn:E.
  assert (d1 = d) as ->.
  { pose proof (TryDeduct_cases now din meta fs n d r n1 d1 Hb Ha E) as Hc.
    cbn zeta in Hc. rewrite Hr in Hc. destruct r as [[[] bal]|e]; cbn in Hc; [destruct Hc as [_ [[_ ?]|[? _]]]|destruct Hc as (_ & ? & _)|destruct Hc as [?|[? _]]]; done. }
  specialize (IH n1). by destruct (attempts din meta times fs n1 d).
Qed.

(** C4: A deduction happens at most once however often it is retried, on a connection that
    loses statements and answers: after any attempts of one request that had not
    been applied before, the ledger is unchanged or the amount has been spent once;
    and as soon as one attempt reports success it has been spent. *)
Theorem deduct_exactly_once din meta times fs n d :
  books_ok d -> 0 < di_Amount din <= int64_max -> requested din d = false ->
  let rs := fst (attempts din meta times fs n d) in let d' := snd (attempts din meta times fs n d) in
  let spent := exists now, now ∈ times /\ spends now din (render (enc_smap (map_range meta))) d d' in
  (d' = d \/ spent) /\ (forall bal, Ok (true, bal) ∈ rs -> spent).
Proof.
  intros Hb Ha. cbn zeta. revert n. induction times as [|now times IH]; intros n Hr; cbn.
  { split; [by left|]. by intros bal ?%not_elem_of_nil. }
  destruct (pc_TryDeduct now din meta fs n d) as [r [n1 d1]] eqn:E.
  pose proof (TryDeduct_cases now din meta fs n d r n1 d1 Hb Ha E) as Hc.
  assert (Hcase : d1 = d /\ (forall bal, r <> Ok (true, bal)) \/ spends now din (render (enc_smap (map_range meta))) d d1).
  { cbn zeta in Hc. rewrite Hr in Hc. destruct r as [[[] bal]|e]; cbn in Hc.
    - destruct Hc as [_ [[? _]|[_ ?]]]; [done|by right].
    - destruct Hc as (_ & ? & _). by left.
    - destruct Hc as [?|[_ ?]]; [by left|by right]. }
  destruct Hcase as [[-> Hnot]|Hsp].
  - specialize (IH n1 Hr). destruct (attempts din meta times fs n1 d) as [rs d2]. cbn in *. destruct IH as [IH1 IH2]. split.
    + destruct IH1 as [->|(t & Ht & Hs)]; [by left|]. right. exists t. split; [by right|done].
    + intros bal [E'|Hin]%elem_of_cons; [by destruct (Hnot bal)|]. destruct (IH2 bal Hin) as (t & Ht & Hs). exists t. split; [by right|done].
  - assert (Hd2 : snd (attempts din meta times fs n1 d1) = d1).
    { apply attempts_after; [by eapply spends_books|done|]. eapply spends_requested; [lia|done]. }
    destruct (attempts din meta times fs n1 d1) as [rs d2]. cbn in *. subst d2.
    assert (Hs : exists t, t ∈ now :: times /\ spends t din (render (enc_smap (map_range meta))) d d1) by (exists now; split; [left|done]).
    split; [by right|done].
Qed.

(** ** The books *)
Context (parse_uuid : string -> option string).
Inductive credit_call :=
| CGrant (clock now : Z) (newID : string) (gin : GrantInput) (meta : smap)
| CDeduct (now : Z) (din : DeductInput) (meta : smap)
| CExpire (now1 now2 : Z)
| CRevoke (now : Z) (id reason : string).
Definition call_ok (c : credit_call) : Prop :=
  match c with
  | CGrant _ _ _ gin _ => gi_Amount gin <= int64_max
  | CDeduct _ din _ => 0 < di_Amount din <= int64_max
  | _ => True
  end.
Definition run_call (c : credit_call) (fs : faults) (d : tables) : tables :=
  match c with
  | CGrant clock now newID gin meta => snd (snd (pc_Grant clock now newID gin meta fs 0%nat d))
  | CDeduct now din meta => snd (snd (pc_TryDeduct now din meta fs 0%nat d))
  | CExpire now1 now2 => snd (snd (pc_RunExpiry now1 now2 fs 0%nat d))
  | CRevoke now id reason => snd (snd (pc_RevokeGrant parse_uuid now id reason fs 0%nat d))
  end.

Lemma spent_absent d id : books_ok d -> grants d !! id = None -> spent_from id (deductions d) = 0.
Proof.
  intros Hb Hn. unfold spent_from. assert (List.filter (fun x => String.eqb (dw_grant_id x) id) (deductions d) = []) as ->; [|done].
  destruct (List.filter _ _) as [|x l] eqn:E; [done|]. exfalso.
  assert (In x (x :: l)) as Hin by by left. rewrite <- E in Hin. apply filter_In in Hin as [Hin Ex%String.eqb_eq].
  rewrite <- list_elem_of_In in Hin. destruct (bk_deduction d Hb x Hin) as [_ [g Hg]]. congruence.
Qed.
Lemma insert_grant_books now newID gin expires meta d :
  books_ok d -> 0 < gi_Amount gin <= int64_max -> books_ok (snd (insert_grant now newID gin expires meta d)).
Proof.
  intros Hb Ha. unfold insert_grant. destruct (ref_taken _ _ _ _) eqn:Er; [done|]. destruct (grants d !! newID) eqn:En; [done|].
  cbn [snd]. split; cbn [grants deductions].
  - intros id g [[<- <-]|[Hne Hg]]%lookup_insert_Some; [rewrite (spent_absent d newID Hb En); cbn; lia|by apply (bk_grant d Hb)].
  - intros x Hx. destruct (bk_deduction d Hb x Hx) as [? [g Hg]]. split; [done|]. rewrite lookup_insert_is_Some.
    destruct (decide (newID = dw_grant_id x)); [by left|right; eauto].
  - assert (Hnew : forall id g, grants d !! id = Some g -> is_Some (sourceRef gin) ->
      (gi_SubjectID gin, gi_Bucket gin, sourceRef gin) <> (gw_subject g, gw_bucket g, gw_source_ref g)).
    { intros id g Hg [ref Eref] [= E1 E2 E3]. rewrite Eref in Er. assert (existsb (fun '(_, g) => String.eqb (gw_subject g) (gi_SubjectID gin) &&
        String.eqb (gw_bucket g) (gi_Bucket gin) && bool_decide (gw_source_ref g = Some ref)) (map_to_list (grants d)) = true) as Ex;
        [|cbn in Er; congruence].
      apply existsb_exists. exists (id, g). rewrite <- list_elem_of_In, elem_of_map_to_list. split; [done|].
      rewrite E1, E2, !String.eqb_refl. cbn. apply bool_decide_eq_true. congruence. }
    intros id g id' g' [[<- <-]|[_ Hg]]%lookup_insert_Some [[<- <-]|[_ Hg']]%lookup_insert_Some Hs E; cbn in *; [done|..].
    + by destruct (Hnew id' g' Hg' Hs).
    + destruct (Hnew id g Hg); [|done]. injection E as _ _ E. by rewrite <- E.
    + by eapply (bk_source d Hb id g id' g').
Qed.
(** A change of rows that only takes credit away. *)
Lemma reduce_books (f : string -> GrantRow -> GrantRow) gs d :
  books_ok d -> (forall id, gs !! id = f id <$> grants d !! id) ->
  (forall id g, grants d !! id = Some g -> 0 <= gw_remaining (f id g) <= gw_remaining g \/ f id g = g) ->
  (forall id g, gw_initial (f id g) = gw_initial g /\ (gw_subject (f id g), gw_bucket (f id g), gw_source_ref (f id g)) = (gw_subject g, gw_bucket g, gw_source_ref g)) ->
  books_ok (mkTables gs (deductions d)).
Proof.
  intros Hb Hgs Hle Hsame. split; cbn [grants deductions].
  - intros id g'. rewrite Hgs. intros (g & Hg & ->)%fmap_Some. destruct (bk_grant d Hb id g Hg) as (? & ? & ?).
    destruct (Hsame id g) as [-> _]. destruct (Hle id g Hg) as [?| ->]; lia.
  - intros x Hx. destruct (bk_deduction d Hb x Hx) as [? [g Hg]]. split; [done|]. rewrite Hgs, Hg. eauto.
  - intros i g i' g'. rewrite !Hgs. intros (g1 & Hg1 & ->)%fmap_Some (g2 & Hg2 & ->)%fmap_Some.
    destruct (Hsame i g1) as [_ E1], (Hsame i' g2) as [_ E2]. rewrite E1, E2. injection E1 as _ _ ->. by apply (bk_source d Hb).
Qed.
Lemma stmt_cases {A} (f : tables -> res string A * tables) fs n d :
  snd (snd (stmt f fs n d)) = d \/ snd (snd (stmt f fs n d)) = snd (f d).
Proof. unfold stmt. destruct (fs n) as [[e ap]|]; [destruct ap; cbn; auto|]. destruct (f d). by right. Qed.
Lemma named_state {A} prefix (p : sql tables A) fs n d : snd (named prefix p fs n d) = snd (p fs n d).
Proof. unfold named. by destruct (p fs n d) as [[?|?] ?]. Qed.
Lemma Grant_books clock now newID gin meta fs d :
  books_ok d -> gi_Amount gin <= int64_max -> books_ok (snd (snd (pc_Grant clock now newID gin meta fs 0%nat d))).
Proof.
  intros Hb Ha. unfold pc_Grant. destruct (Z.leb_spec (gi_Amount gin) 0); [done|]. set (expires := if 0 <? _ then _ else _).
  assert (Hi : books_ok (snd (snd (named "postgres.CreditRepo.Grant: insert" (stmt (insert_grant now newID gin expires meta)) fs 0%nat d)))).
  { rewrite named_state. destruct (stmt_cases (insert_grant now newID gin expires meta) fs 0%nat d) as [->| ->]; [done|].
    apply insert_grant_books; [done|lia]. }
  unfold sbind. destruct (named _ _ fs 0%nat d) as [[[]|e] [n1 d1]]; cbn in *; [done| |done].
  rewrite named_state. unfold findExisting. by rewrite (reads_query _ fs n1 d1).
Qed.
Lemma RunExpiry_books now1 now2 fs d : books_ok d -> books_ok (snd (snd (pc_RunExpiry now1 now2 fs 0%nat d))).
Proof.
  intros Hb. unfold pc_RunExpiry, sbind at 1. destruct (named _ _ fs 0%nat d) as [[found|e] [n1 d1]] eqn:E.
  - apply named_ok, query_ok in E as [_ ->]. destruct (fst found =? 0); [done|]. unfold sbind.
    set (f := fun d => (Ok tt, mkTables _ (deductions d))).
    assert (Hs : books_ok (snd (snd (named "postgres.CreditRepo.RunExpiry: zero" (stmt f) fs n1 d)))).
    { rewrite named_state. destruct (stmt_cases f fs n1 d) as [->| ->]; [done|]. unfold f. cbn.
      apply (reduce_books (fun _ g => if expired_row now2 g then set_gw_remaining 0 g else g)); [done|..].
      - intros id. apply lookup_fmap.
      - intros id g Hg. destruct (expired_row now2 g); [|by right]. left. cbn. destruct (bk_grant d Hb id g Hg) as (_ & ? & _). lia.
      - intros id g. by destruct (expired_row now2 g). }
    by destruct (named _ (stmt f) fs n1 d) as [[[]|e] [n2 d2]].
  - cbn. apply (f_equal (fun x => snd (snd x))) in E. rewrite named_state in E. cbn in E. by rewrite (reads_query _ fs 0%nat d) in E; subst.
Qed.
Lemma RevokeGrant_books now id reason fs d : books_ok d -> books_ok (snd (snd (pc_RevokeGrant parse_uuid now id reason fs 0%nat d))).
Proof.
  intros Hb. unfold pc_RevokeGrant. rewrite named_state. match goal with |- context [stmt ?f] => destruct (stmt_cases f fs 0%nat d) as [->| ->] end; [done|].
  destruct (parse_uuid id) as [i|]; [|done]. destruct (grants d !! i) as [g|] eqn:Eg; [|done]. destruct (bool_decide _); [|done]. cbn.
  apply (reduce_books (fun k row => if decide (k = i) then revoke_row now reason row else row)); [done|..].
  - intros k. destruct (decide (k = i)) as [->|Hne]; [by rewrite lookup_insert_eq, Eg|rewrite lookup_insert_ne by done; by destruct (grants d !! k)].
  - intros k row Hrow. destruct (decide (k = i)); [|by right]. left. cbn. destruct (bk_grant d Hb k row Hrow) as (_ & ? & _). lia.
  - intros k row. by destruct (decide (k = i)).
Qed.

Lemma run_calls_books (calls : list (credit_call * faults)) :
  Forall (fun cf => call_ok (fst cf)) calls ->
  books_ok (foldl (fun d cf => run_call (fst cf) (snd cf) d) (mkTables ∅ []) calls).
Proof.
  intros Hc. assert (Hb : books_ok (mkTables ∅ [])) by (by split; [intros ? ?|intros ? ?%not_elem_of_nil|intros ? ? ? ?]).
  revert Hb. generalize (mkTables ∅ []). induction Hc as [|[c fs] calls Hc Hcs IH]; intros d Hb; [done|]. cbn. apply IH. cbn in Hc.
  destruct c as [clock now newID gin meta|now din meta|now1 now2|now id reason]; cbn in *;
    [by apply Grant_books| |by apply RunExpiry_books|by apply RevokeGrant_books].
  destruct (pc_TryDeduct now din meta fs 0%nat d) as [r [n1 d1]] eqn:E.
  pose proof (TryDeduct_cases now din meta fs 0%nat d r n1 d1 Hb Hc E) as Hd. cbn zeta in Hd.
  assert (d1 = d \/ spends now din (render (enc_smap (map_range meta))) d d1) as [->|?]; [|done|by eapply spends_books].
  destruct r as [[[] bal]|e]; cbn in Hd; [destruct Hd as [_ [[_ ?]|[_ ?]]]|destruct Hd as (_ & ? & _)|destruct Hd as [?|[_ ?]]]; auto.
Qed.

(** C10: The books of the Postgres ledger always balance: after any sequence of grants, deductions,
    expiry runs and revocations from empty tables, each meeting any faults, what is left of a
    grant is not negative and, with all deductions from it, does not exceed what was granted;
    every deduction is of a grant there is; and no payment was credited twice to a
    subject and bucket. *)
Theorem books_always_balance (calls : list (credit_call * faults)) :
  Forall (fun cf => call_ok (fst cf)) calls ->
  books_ok (foldl (fun d cf => run_call (fst cf) (snd cf) d) (mkTables ∅ []) calls).
Proof. apply run_calls_books. Qed.
End theorems.

Module CreditsPgDemo.
#[export, refine] Instance demo_time : PgTime := {| pg_ts t := t |}.
Proof. done. Defined.
Definition t0 : Z := time_Unix 1700000000.
Definition payment (amount days : Z) (ref : string) : GrantInput := mkGrantInput "org_1" "tokens" amount days SourceStripePayment ref None.
Definition demo_calls : list (credit_call * faults) :=
  [(CGrant t0 t0 "11111111" (payment 100 0 "pi_1") ∅, no_faults);
   (CGrant t0 (t0 + second) "22222222" (payment 50 30 "pi_2") ∅, no_faults);
   (CGrant t0 (t0 + second) "33333333" (payment 50 30 "pi_2") ∅, no_faults)].
Definition demo_ledger : tables := foldl (fun d cf => run_call Some (fst cf) (snd cf) d) (mkTables ∅ []) demo_calls.
Lemma demo_calls_ok : Forall (fun cf => call_ok (fst cf)) demo_calls.
Proof. repeat constructor; discriminate. Qed.
Lemma books_always_balance_witness : size (grants demo_ledger) = 2%nat /\ books_ok demo_ledger.
Proof. split; [vm_compute; reflexivity|]. apply (books_always_balance Some demo_calls). apply demo_calls_ok. Defined.
Lemma demo_books : books_ok demo_ledger.
Proof. apply run_calls_books, demo_calls_ok. Qed.

Definition spend_70 : DeductInput := mkDeductInput "org_1" "tokens" 70 "render" "req_1" None.
(** The commit's answer is lost; the retry finds the request applied. *)
Definition lost_commit : faults := fun n => if (n =? 9)%nat then Some (mkFault "broken pipe" true) else None.
Lemma spend_70_range : 0 < di_Amount spend_70 <= int64_max.
Proof. split; [reflexivity|discriminate]. Qed.
Definition lossy_run : res string (bool * Balance) * (nat * tables) :=
  pc_TryDeduct (t0 + 5 * second) spend_70 ∅ lost_commit 0%nat demo_ledger.
Lemma TryDeduct_refines_witness :
  fst lossy_run = Err "postgres.CreditRepo.TryDeduct: commit: broken pipe" /\
  map dw_amount (deductions (snd (snd lossy_run))) = [50; 20] /\
  (snd (snd lossy_run) = demo_ledger \/ requested spend_70 demo_ledger = false /\
     spends (t0 + 5 * second) spend_70 (render (enc_smap (map_range ∅))) demo_ledger (snd (snd lossy_run))).
Proof.
  assert (E : fst lossy_run = Err "postgres.CreditRepo.TryDeduct: commit: broken pipe") by (vm_compute; reflexivity).
  split; [exact E|]. split; [vm_compute; reflexivity|].
  pose proof (TryDeduct_refines (t0 + 5 * second) spend_70 ∅ lost_commit 0%nat demo_ledger (fst lossy_run) (fst (snd lossy_run)) (snd (snd lossy_run))
    demo_books spend_70_range) as Hr.
  rewrite E in Hr. apply Hr. rewrite <- E. unfold lossy_run.
  destruct (pc_TryDeduct (t0 + 5 * second) spend_70 ∅ lost_commit 0%nat demo_ledger) as [r [n d]]. reflexivity.
Defined.
Definition retry_times : list Z := [t0 + 5 * second; t0 + 6 * second; t0 + 7 * second].
Definition retry_run : list (res string (bool * Balance)) * tables := attempts spend_70 ∅ retry_times lost_commit 0%nat demo_ledger.
Lemma deduct_exactly_once_witness :
  map (fun r => match r with Ok (b, _) => b | Err _ => false end) (fst retry_run) = [false; true; true] /\
  exists now, now ∈ retry_times /\ spends now spend_70 (render (enc_smap (map_range ∅))) demo_ledger (snd retry_run).
Proof.
  assert (E : map (fun r => match r with Ok (b, _) => b | Err _ => false end) (fst retry_run) = [false; true; true]) by (vm_compute; reflexivity).
  split; [exact E|]. assert (Hq : requested spend_70 demo_ledger = false) by (vm_compute; reflexivity).
  assert (Hd : forall bal, Ok (true, bal) ∈ fst retry_run ->
    exists now, now ∈ retry_times /\ spends now spend_70 (render (enc_smap (map_range ∅))) demo_ledger (snd retry_run))
    by exact (proj2 (deduct_exactly_once spend_70 ∅ retry_times lost_commit 0%nat demo_ledger demo_books spend_70_range Hq)).
  revert E Hd. generalize (snd retry_run) (fst retry_run). intros d l E Hd.
  destruct l as [|r1 [|[[b bal]|e] rs]]; [discriminate..| |discriminate].
  injection E as _ -> _. apply (Hd bal). right. left.
Defined.
End CreditsPgDemo.
