(* ===== verification/CreditHandlers.v ===== *)
(** * CreditHandlers: the webhook handlers that drive the ledger
      (src/credits/session_metadata.go, grant_handler.go, recurring_handler.go,
      refund_handler.go).

    The handlers are written against the interface [CreditRepo]; [GrantLaws] is
    what they rely on, the documented idempotency of [Grant] on (subject, bucket,
    source reference). A call of the repository reads the clock and draws its id
    when it is made, so the readings come from an environment indexed by the call
    and given the state. *)
From S2P Require Import Prelude Json Events Credits CatalogSpec.

(** ** Session metadata (session_metadata.go) *)
Definition SessionMetadataKey : string := "credit_grants".

Record PendingGrant := mkPendingGrant {
  pg_Bucket : string;
  pg_Amount : Z;
  pg_ValidDays : Z;
  pg_ProductKey : string;
  pg_Quantity : Z;
}.
#[export] Instance PendingGrant_eq_dec : EqDecision PendingGrant.
Proof. solve_decision. Defined.
Definition PendingGrant_zero : PendingGrant := mkPendingGrant "" 0 0 "" 0.

(** [omitempty] on numbers and strings. *)
Definition omit_int (name : string) (z : Z) : list (string * json) :=
  if z =? 0 then [] else [(name, JNum (fmt_d z))].
Definition omit_string (name s : string) : list (string * json) :=
  if String.eqb s "" then [] else [(name, JStr s)].

Definition enc_PendingGrant (g : PendingGrant) : json :=
  JObj ([("bucket", JStr (pg_Bucket g)); ("amount", JNum (fmt_d (pg_Amount g)))] ++
        omit_int "valid_days" (pg_ValidDays g) ++ omit_string "product_key" (pg_ProductKey g) ++
        omit_int "quantity" (pg_Quantity g)).

Definition dec_PendingGrant : decoder PendingGrant :=
  dec_struct (fun g l =>
    match dec_field "bucket" dec_string (pg_Bucket g) l,
          dec_field "amount" dec_int64 (pg_Amount g) l,
          dec_field "valid_days" dec_int64 (pg_ValidDays g) l,
          dec_field "product_key" dec_string (pg_ProductKey g) l,
          dec_field "quantity" dec_int64 (pg_Quantity g) l with
    | Some b, Some a, Some v, Some p, Some q => Some (mkPendingGrant b a v p q)
    | _, _, _, _, _ => None
    end).

Inductive metadata_error := ErrMetadataTooLong | ErrMetadataDecode.

Definition EncodeSessionMetadata (grants : list PendingGrant) : res metadata_error string :=
  match grants with
  | [] => Ok ""
  | _ =>
      let b := render (JArr (map enc_PendingGrant grants)) in
      if Nat.ltb 500 (String.length b) then Err ErrMetadataTooLong else Ok b
  end.

Definition DecodeSessionMetadata (value : string) : res metadata_error (list PendingGrant) :=
  if String.eqb value "" then Ok []
  else match Unmarshal [] (dec_slice PendingGrant_zero dec_PendingGrant) value with
       | Some grants => Ok grants
       | None => Err ErrMetadataDecode
       end.

(** ** Errors of the handlers *)
Inductive handler_error :=
| HParse                               (* the payload does not decode *)
| HMetadata (e : metadata_error)
| HMissingSubject
| HGrant (e : credits_error)
| HLookup (e : credits_error)
| HRevoke (e : credits_error).

Section handlers.
Context {S : Type} `{CreditRepo S}.

(** One [repo.Grant] with a metadata map literal. *)
Definition grant_with (st : S -> stamp) (meta : smap) (gin : mapref -> GrantInput) (s : S)
  : res credits_error Grant * S :=
  let '(l, s1) := cr_new_map meta s in
  cr_Grant (st s1) (gin (Some l)) s1.

(** ** ApplyGrantsFromSession (grant_handler.go) *)
Record sessionShape := mkSession {
  ss_ID : string;
  ss_Metadata : smap;
  ss_PaymentIntent : string;
}.
Definition dec_session : decoder sessionShape :=
  dec_struct (fun x l =>
    match dec_field "id" dec_string (ss_ID x) l,
          dec_field "metadata" dec_smap (ss_Metadata x) l,
          dec_field "payment_intent" dec_string (ss_PaymentIntent x) l with
    | Some i, Some m, Some p => Some (mkSession i m p)
    | _, _, _ => None
    end).
Definition decodeSession (evt : Event) : option sessionShape :=
  match event_data evt with
  | None => None
  | Some raw => Unmarshal (mkSession "" ∅ "") dec_session raw
  end.

Definition session_ref (session : sessionShape) (i unit : nat) : string :=
  ss_PaymentIntent session ^^ ":" ^^ fmt_d (Z.of_nat i) ^^ ":" ^^ fmt_d (Z.of_nat unit).

Definition session_input (session : sessionShape) (subjectID : string) (i unit : nat)
    (g : PendingGrant) (meta : mapref) : GrantInput :=
  mkGrantInput subjectID (pg_Bucket g) (pg_Amount g) (pg_ValidDays g) SourceStripePayment
    (session_ref session i unit) meta.
Definition session_meta (session : sessionShape) (g : PendingGrant) : smap :=
  <["product_key" := pg_ProductKey g]> (<["checkout_session" := ss_ID session]> ∅).

Definition units (g : PendingGrant) : nat :=
  Z.to_nat (if pg_Quantity g <=? 0 then 1 else pg_Quantity g).

(** [for unit := 0; unit < quantity; unit++]: [n] units to go. *)
Fixpoint grant_units (st : nat -> S -> stamp) (session : sessionShape) (subjectID : string)
    (i : nat) (g : PendingGrant) (unit n : nat) (s : S) : option handler_error * S :=
  match n with
  | O => (None, s)
  | Datatypes.S n =>
      match grant_with (st unit) (session_meta session g) (session_input session subjectID i unit g) s with
      | (Err e, s') => (Some (HGrant e), s')
      | (Ok _, s') => grant_units st session subjectID i g (Datatypes.S unit) n s'
      end
  end.

(** [for i, g := range grants]. *)
Fixpoint grant_all (st : nat -> nat -> S -> stamp) (session : sessionShape) (subjectID : string)
    (i : nat) (grants : list PendingGrant) (s : S) : option handler_error * S :=
  match grants with
  | [] => (None, s)
  | g :: grants' =>
      match grant_units (st i) session subjectID i g 0 (units g) s with
      | (Some e, s') => (Some e, s')
      | (None, s') => grant_all st session subjectID (Datatypes.S i) grants' s'
      end
  end.

Definition ApplyGrantsFromSession (st : nat -> nat -> S -> stamp) (evt : Event) (s : S)
  : option handler_error * S :=
  if negb (String.eqb (ev_Type evt) "checkout.session.completed") &&
     negb (String.eqb (ev_Type evt) "checkout.session.async_payment_succeeded") then (None, s)
  else match decodeSession evt with
  | None => (Some HParse, s)
  | Some session =>
      let metadataValue := mget (ss_Metadata session) SessionMetadataKey in
      if String.eqb metadataValue "" then (None, s)
      else match DecodeSessionMetadata metadataValue with
      | Err e => (Some (HMetadata e), s)
      | Ok [] => (None, s)
      | Ok grants =>
          let subjectID := mget (ss_Metadata session) "subject_id" in
          if String.eqb subjectID "" then (Some HMissingSubject, s)
          else grant_all st session subjectID 0 grants s
      end
  end.

(** ** ApplyRecurringGrantsFromInvoice (recurring_handler.go) *)
Record invoiceLinePrice := mkLinePrice { lp_ID : string; lp_LookupKey : string }.
Record invoiceShape := mkInvoice {
  iv_ID : string;
  iv_Subscription : string;
  iv_Metadata : smap;
  (** [SubscriptionDetails.Metadata] *)
  iv_SubscriptionDetails : option smap;
  (** [Lines.Data], each line its [Price] *)
  iv_Lines : option (list (option invoiceLinePrice));
}.
Definition dec_linePrice : decoder invoiceLinePrice :=
  dec_struct (fun x l =>
    match dec_field "id" dec_string (lp_ID x) l,
          dec_field "lookup_key" dec_string (lp_LookupKey x) l with
    | Some i, Some k => Some (mkLinePrice i k)
    | _, _ => None
    end).
Definition dec_line : decoder (option invoiceLinePrice) :=
  dec_struct (fun x l => dec_field "price" (dec_ptr (mkLinePrice "" "") dec_linePrice) x l).
Definition dec_lines : decoder (list (option invoiceLinePrice)) :=
  dec_struct (fun x l => dec_field "data" (dec_slice None dec_line) x l).
Definition dec_invoice : decoder invoiceShape :=
  dec_struct (fun x l =>
    match dec_field "id" dec_string (iv_ID x) l,
          dec_field "subscription" dec_string (iv_Subscription x) l,
          dec_field "metadata" dec_smap (iv_Metadata x) l,
          dec_field "subscription_details" (dec_ptr ∅ dec_metadata) (iv_SubscriptionDetails x) l,
          dec_field "lines" (dec_ptr [] dec_lines) (iv_Lines x) l with
    | Some i, Some sub, Some m, Some d, Some ls => Some (mkInvoice i sub m d ls)
    | _, _, _, _, _ => None
    end).
Definition decodeInvoice (evt : Event) : option invoiceShape :=
  match event_data evt with
  | None => None
  | Some raw => Unmarshal (mkInvoice "" "" ∅ None None) dec_invoice raw
  end.

Definition splitNamespacedKey (spec : Spec) (lookupKey : string) : option (string * string) :=
  let prefix := Namespace spec ^^ "." in
  if Nat.leb (String.length lookupKey) (String.length prefix) || negb (has_prefix prefix lookupKey)
  then None
  else split_at "." (string_drop (String.length prefix) lookupKey).

(** The product a line grants credits for. *)
Definition line_grant (spec : Spec) (line : option invoiceLinePrice) : option (string * RecurringGrant) :=
  match line with
  | None => None
  | Some price =>
      if String.eqb (lp_LookupKey price) "" then None
      else match splitNamespacedKey spec (lp_LookupKey price) with
      | None => None
      | Some (productKey, _) =>
          match Products spec !! productKey with
          | None => None
          | Some product =>
              match p_RecurringGrant product with
              | None => None
              | Some rg => Some (productKey, rg)
              end
          end
      end
  end.

Definition invoice_input (inv : invoiceShape) (subjectID productKey : string) (rg : RecurringGrant)
    (meta : mapref) : GrantInput :=
  mkGrantInput subjectID (rg_Bucket rg) (rg_Amount rg) (rg_ValidDaysFromGrant rg) SourceStripePayment
    ("invoice:" ^^ iv_ID inv ^^ ":" ^^ productKey) meta.
Definition invoice_meta (inv : invoiceShape) (productKey : string) : smap :=
  <["product_key" := productKey]> (<["subscription" := iv_Subscription inv]>
    (<["invoice" := iv_ID inv]> ∅)).

Fixpoint grant_lines (st : nat -> S -> stamp) (spec : Spec) (inv : invoiceShape) (subjectID : string)
    (k : nat) (lines : list (option invoiceLinePrice)) (s : S) : option handler_error * S :=
  match lines with
  | [] => (None, s)
  | line :: lines' =>
      match line_grant spec line with
      | None => grant_lines st spec inv subjectID (Datatypes.S k) lines' s
      | Some (productKey, rg) =>
          match grant_with (st k) (invoice_meta inv productKey)
                  (invoice_input inv subjectID productKey rg) s with
          | (Err e, s') => (Some (HGrant e), s')
          | (Ok _, s') => grant_lines st spec inv subjectID (Datatypes.S k) lines' s'
          end
      end
  end.

Definition invoice_subject (inv : invoiceShape) : string :=
  let subjectID := mget (iv_Metadata inv) "subject_id" in
  if String.eqb subjectID "" then
    match iv_SubscriptionDetails inv with
    | Some m => mget m "subject_id"
    | None => subjectID
    end
  else subjectID.

Definition ApplyRecurringGrantsFromInvoice (st : nat -> S -> stamp) (spec : Spec) (evt : Event) (s : S)
  : option handler_error * S :=
  if negb (String.eqb (ev_Type evt) "invoice.paid") &&
     negb (String.eqb (ev_Type evt) "invoice.payment_succeeded") then (None, s)
  else match decodeInvoice evt with
  | None => (Some HParse, s)
  | Some inv =>
      if String.eqb (iv_Subscription inv) "" then (None, s)
      else
        let subjectID := invoice_subject inv in
        if String.eqb subjectID "" then (None, s)
        else match iv_Lines inv with
        | None => (None, s)
        | Some lines => grant_lines st spec inv subjectID 0 lines s
        end
  end.

(** ** ApplyRefundReversal (refund_handler.go) *)
Definition idFromAny (v : option json) : string :=
  match v with
  | Some (JStr x) => x
  | Some (JObj l) =>
      (* the entries of a [map[string]any]: the last one of a key counts *)
      match (list_to_map (rev l) : gmap string json) !! "id" with
      | Some (JStr id) => id
      | _ => ""
      end
  | _ => ""
  end.

Record refundShape := mkRefund {
  rf_ID : string;
  rf_Object : string;
  rf_PaymentIntent : option json;
  rf_Charge : option json;
  rf_LatestRefund : option json;
  (** the ids of [Refunds.Data] *)
  rf_Refunds : list string;
}.
(** One element of [Refunds.Data], of which only the id is read. *)
Definition dec_refund_id : decoder string :=
  dec_struct (fun x l => dec_field "id" dec_string x l).
Definition dec_refunds : decoder (list string) :=
  dec_struct (fun x l => dec_field "data" (dec_slice "" dec_refund_id) x l).
Definition dec_refund : decoder refundShape :=
  dec_struct (fun x l =>
    match dec_field "id" dec_string (rf_ID x) l,
          dec_field "object" dec_string (rf_Object x) l,
          dec_field "payment_intent" dec_any (rf_PaymentIntent x) l,
          dec_field "charge" dec_any (rf_Charge x) l,
          dec_field "latest_refund" dec_any (rf_LatestRefund x) l,
          dec_field "refunds" dec_refunds (rf_Refunds x) l with
    | Some i, Some o, Some pi, Some ch, Some lr, Some rs => Some (mkRefund i o pi ch lr rs)
    | _, _, _, _, _, _ => None
    end).

(** (refund id, payment intent, charge). *)
Definition parseRefundEvent (evt : Event) : option (string * string * string) :=
  match event_data evt with
  | None => None
  | Some raw =>
      match Unmarshal (mkRefund "" "" None None None []) dec_refund raw with
      | None => None
      | Some shape =>
          if String.eqb (rf_Object shape) "charge" then
            let refundID := idFromAny (rf_LatestRefund shape) in
            let refundID :=
              if String.eqb refundID "" then
                match last (rf_Refunds shape) with Some id => id | None => refundID end
              else refundID in
            Some (refundID, idFromAny (rf_PaymentIntent shape), rf_ID shape)
          else
            Some (rf_ID shape, idFromAny (rf_PaymentIntent shape), idFromAny (rf_Charge shape))
      end
  end.

Definition nonempty (s : string) : list string := if String.eqb s "" then [] else [s].

(** [for _, g := range grants], which reads the metadata map when it comes to it. *)
Fixpoint revoke_each (st : nat -> S -> stamp) (refundID : string) (k : nat) (grants : list Grant) (s : S)
  : option handler_error * S :=
  match grants with
  | [] => (None, s)
  | g :: grants' =>
      let already :=
        match g_Metadata g with
        | Some _ => negb (String.eqb (mget (cr_metadata s (g_Metadata g)) "revoked_reason") "")
        | None => false
        end in
      if already then revoke_each st refundID (Datatypes.S k) grants' s
      else match cr_RevokeGrant (st k s) (g_ID g) ("refund:" ^^ refundID) s with
      | (Err e, s') => (Some (HRevoke e), s')
      | (Ok _, s') => revoke_each st refundID (Datatypes.S k) grants' s'
      end
  end.

Fixpoint revoke_refs (st : nat -> nat -> S -> stamp) (refundID : string) (j : nat)
    (candidates : list string) (s : S) : option handler_error * S :=
  match candidates with
  | [] => (None, s)
  | ref :: rest =>
      match cr_FindGrantsBySourceRef ref s with
      | Err e => (Some (HLookup e), s)
      | Ok grants =>
          match revoke_each (st j) refundID 0 grants s with
          | (Some e, s') => (Some e, s')
          | (None, s') => revoke_refs st refundID (Datatypes.S j) rest s'
          end
      end
  end.

Definition ApplyRefundReversal (st : nat -> nat -> S -> stamp) (evt : Event) (s : S)
  : option handler_error * S :=
  match parseRefundEvent evt with
  | None => (None, s)
  | Some (refundID, pi, charge) =>
      revoke_refs st refundID 0 (nonempty pi ++ nonempty charge ++ nonempty refundID) s
  end.
End handlers.
