(* ===== verification/CreditHandlerFacts.v ===== *)
(** * CreditHandlerFacts: redelivery, completeness and round trips of the credit
      handlers.

    [GrantLaws] states what a repository promises the handlers; the theorems about
    the handlers hold of every repository with these laws, and [memory_GrantLaws]
    shows that the in-memory repository keeps them. *)
From Stdlib Require Import DecimalString DecimalN.
From S2P Require Import Prelude Json Events Credits CatalogSpec CreditHandlers.
From S2P Require Import Ledger CreditsMemory CreditsMemoryFacts CreditsLedger CreditsSpec.

(** ** Session metadata round-trips *)
Definition pending_ok (g : PendingGrant) : Prop :=
  utf8_ok (pg_Bucket g) /\ utf8_ok (pg_ProductKey g) /\
  in_int64 (pg_Amount g) /\ in_int64 (pg_ValidDays g) /\ in_int64 (pg_Quantity g).

Lemma dec_enc_pending g :
  pending_ok g -> dec_PendingGrant PendingGrant_zero (enc_PendingGrant g) = Some g.
Proof.
  intros (_ & _ & Ha & Hv & Hq). destruct g as [b a v p q]. cbn in Ha, Hv, Hq.
  unfold enc_PendingGrant, omit_int, omit_string. cbn [pg_Bucket pg_Amount pg_ValidDays pg_ProductKey pg_Quantity].
  destruct (v =? 0) eqn:Ev, (String.eqb p "") eqn:Ep, (q =? 0) eqn:Eq; reflect_bools; subst;
    cbn [dec_PendingGrant dec_struct app dec_field]; match_names; cbn [dec_string dec_int64];
    rewrite ?parse_fmt_d by done; reflexivity.
Qed.

Lemma json_ok_pending g : pending_ok g -> json_ok (enc_PendingGrant g).
Proof.
  intros (Hb & Hp & _). unfold enc_PendingGrant, omit_int, omit_string.
  assert (U : utf8_ok "bucket" /\ utf8_ok "amount" /\ utf8_ok "valid_days" /\
    utf8_ok "product_key" /\ utf8_ok "quantity") by (by repeat split).
  destruct U as (? & ? & ? & ? & ?).
  destruct (pg_ValidDays g =? 0), (String.eqb (pg_ProductKey g) ""), (pg_Quantity g =? 0); cbn; eauto 20.
Qed.

Lemma decode_encode_metadata grants v :
  Forall pending_ok grants -> EncodeSessionMetadata grants = Ok v ->
  DecodeSessionMetadata v = Ok grants.
Proof.
  intros Hg. unfold EncodeSessionMetadata. destruct grants as [|g0 gs]; [by intros [= <-]|].
  set (j := JArr (map enc_PendingGrant (g0 :: gs))).
  assert (Hj : json_ok j).
  { apply json_ok_arr, Forall_map. eapply Forall_impl; [exact Hg|]. apply json_ok_pending. }
  cbv zeta. destruct (Nat.ltb _ _); [done|]. intros E. assert (v = render j) as -> by congruence. clear E.
  unfold DecodeSessionMetadata, Unmarshal. rewrite (parse_render j Hj).
  destruct (String.eqb_spec (render j) "") as [E|_]; [discriminate E|].
  unfold j. cbn [dec_slice]. rewrite dec_elems_map; [done|].
  eapply Forall_impl; [exact Hg|]. apply dec_enc_pending.
Qed.



(** ** The interface *)
Definition grant_key (gin : GrantInput) : string * string * string := (gi_SubjectID gin, gi_Bucket gin, gi_SourceRef gin).
Class GrantLaws (S : Type) `{CreditRepo S} := {
  (** the states in which the promise holds *)
  gl_ok : S -> Prop;
  (** a stamp whose drawn id is new *)
  gl_fresh : stamp -> S -> Prop;
  (** the inputs the repository can tell apart and book *)
  gl_admits : GrantInput -> Prop;
  (** the ledger, without the metadata maps nobody refers to *)
  gl_same : S -> S -> Prop;
  (** a grant for (subject, bucket, source reference) is on the books *)
  gl_has : S -> string -> string -> string -> Prop;
  (** and was issued with this amount *)
  gl_worth : S -> string -> string -> string -> Z -> Prop;
  gl_same_equiv :: Equivalence gl_same;
  gl_same_has s s' a b c : gl_same s s' -> gl_has s a b c -> gl_has s' a b c;
  gl_same_worth s s' a b c z : gl_same s s' -> gl_worth s a b c z -> gl_worth s' a b c z;
  gl_new_map m s : gl_ok s -> gl_ok (snd (cr_new_map m s)) /\ gl_same s (snd (cr_new_map m s));
  gl_grant st gin s :
    gl_ok s -> gl_fresh st s -> gl_admits gin -> gi_SourceRef gin <> "" ->
    exists g s', cr_Grant st gin s = (Ok g, s') /\ gl_ok s' /\
      gl_has s' (gi_SubjectID gin) (gi_Bucket gin) (gi_SourceRef gin) /\
      (forall a b c, gl_has s a b c -> gl_has s' a b c) /\
      (gl_has s (gi_SubjectID gin) (gi_Bucket gin) (gi_SourceRef gin) -> gl_same s s') /\
      (forall a b c z, gl_worth s a b c z -> gl_worth s' a b c z) /\
      (forall a b c, gl_has s' a b c -> gl_has s a b c \/ grant_key gin = (a, b, c)) /\
      (~ gl_has s (gi_SubjectID gin) (gi_Bucket gin) (gi_SourceRef gin) ->
       gl_worth s' (gi_SubjectID gin) (gi_Bucket gin) (gi_SourceRef gin) (gi_Amount gin));
}.

Section redelivery.
Context {S : Type} `{GrantLaws S}.

Definition fresh_env (st : S -> stamp) : Prop := forall s, gl_ok s -> gl_fresh (st s) s.
Definition has_input (s : S) (gin : GrantInput) : Prop :=
  gl_has s (gi_SubjectID gin) (gi_Bucket gin) (gi_SourceRef gin).

Definition worth_input (s : S) (gin : GrantInput) : Prop :=
  gl_worth s (gi_SubjectID gin) (gi_Bucket gin) (gi_SourceRef gin) (gi_Amount gin).

(** The books after granting [inputs]: each is there, what was there stays with its amount,
    nothing else is new, nothing changes when all were there, and an input that was not is
    there with the amount asked for. *)
Record booked (s s' : S) (inputs : list GrantInput) : Prop := mkBooked {
  bk_has : Forall (has_input s') inputs;
  bk_mono a b c : gl_has s a b c -> gl_has s' a b c;
  bk_same : Forall (has_input s) inputs -> gl_same s s';
  bk_worth_mono a b c z : gl_worth s a b c z -> gl_worth s' a b c z;
  bk_only a b c : gl_has s' a b c -> gl_has s a b c \/ (a, b, c) ∈ map grant_key inputs;
  bk_worth gin : NoDup (map grant_key inputs) -> gin ∈ inputs -> ~ has_input s gin -> worth_input s' gin;
}.

(** What [grant_with] does, whatever map it passes. *)
Definition same_input (gin : mapref -> GrantInput) : Prop :=
  forall m, gl_admits (gin m) /\ gi_SourceRef (gin m) <> "" /\ grant_key (gin m) = grant_key (gin None) /\
    gi_Amount (gin m) = gi_Amount (gin None).
Lemma grant_with_spec st meta (gin : mapref -> GrantInput) s :
  gl_ok s -> fresh_env st -> same_input gin ->
  exists g s', grant_with st meta gin s = (Ok g, s') /\ gl_ok s' /\ booked s s' [gin None].
Proof.
  intros Hok Hst Hg. unfold grant_with.
  destruct (gl_new_map meta s Hok) as [Hok1 Hsame]. destruct (cr_new_map meta s) as [l s1]. cbn in *.
  assert (Hsame' : gl_same s1 s) by done.
  destruct (Hg (Some l)) as (Ha & Hr & [= E1 E2 E3] & E4).
  destruct (gl_grant (st s1) (gin (Some l)) s1 Hok1 (Hst s1 Hok1) Ha Hr)
    as (g & s' & -> & Hok' & Hhas & Hmono & Hidem & Hwm & Honly & Hw).
  unfold grant_key in Honly. rewrite E1, E2, E3, ?E4 in *. exists g, s'. split; [done|]. split; [done|]. split.
  - by constructor.
  - intros a b c Hs. apply Hmono. by apply (gl_same_has s).
  - intros [Hs _]%Forall_cons. transitivity s1; [done|]. apply Hidem. by apply (gl_same_has s).
  - intros a b c z Hs. apply Hwm. by apply (gl_same_worth s).
  - intros a b c [Hs|E]%Honly; [left; by apply (gl_same_has s1)|right]. cbn. unfold grant_key. rewrite E. by left.
  - intros gin' _ ->%list_elem_of_singleton Hn. apply Hw. intros Hs. apply Hn. by apply (gl_same_has s1).
Qed.

(** A loop body that grants: it succeeds and books its inputs. *)
Definition grants_inputs (f : S -> option handler_error * S) (inputs : list GrantInput) : Prop :=
  forall s, gl_ok s -> exists s', f s = (None, s') /\ gl_ok s' /\ booked s s' inputs.

Lemma grants_inputs_nil : grants_inputs (fun s => (None, s)) [].
Proof. intros s Hok. exists s. split; [done|]. split; [done|]. split; try done; [by left|by intros gin _ ?%not_elem_of_nil]. Qed.

Lemma booked_app s s1 s2 l l' : booked s s1 l -> booked s1 s2 l' -> booked s s2 (l ++ l').
Proof.
  intros [Hin1 Hm1 Hs1 Hw1 Ho1 Hn1] [Hin2 Hm2 Hs2 Hw2 Ho2 Hn2]. split.
  - apply Forall_app. split; [|done]. eapply Forall_impl; [exact Hin1|]. intros gin. apply Hm2.
  - auto.
  - intros [Ha Hb]%Forall_app. transitivity s1; [auto|]. apply Hs2. eapply Forall_impl; [exact Hb|]. intros gin. apply Hm1.
  - auto.
  - intros a b c [Hh|Hh]%Ho2; rewrite map_app, elem_of_app; [destruct (Ho1 _ _ _ Hh); auto|auto].
  - intros gin Hnd Hgin Hno. rewrite map_app in Hnd. apply NoDup_app in Hnd as (Hnd1 & Hdis & Hnd2).
    apply elem_of_app in Hgin as [Hgin|Hgin]; [by apply Hw2, Hn1|]. apply Hn2; [done..|].
    intros [Hh|Hh]%Ho1; [done|]. apply (Hdis _ Hh). apply elem_of_map. by exists gin.
Qed.
Lemma grants_inputs_seq f g l l' :
  grants_inputs f l -> grants_inputs g l' ->
  grants_inputs (fun s => match f s with (Some e, s') => (Some e, s') | (None, s') => g s' end) (l ++ l').
Proof.
  intros Hf Hg s Hok. destruct (Hf s Hok) as (s1 & E1 & Hok1 & Hb1). destruct (Hg s1 Hok1) as (s2 & E2 & Hok2 & Hb2).
  exists s2. rewrite E1, E2. split; [done|]. split; [done|]. by eapply booked_app.
Qed.

Lemma grants_inputs_one st meta gin :
  fresh_env st -> same_input gin ->
  grants_inputs (fun s => match grant_with st meta gin s with
                          | (Err e, s') => (Some (HGrant e), s')
                          | (Ok _, s') => (None, s')
                          end) [gin None].
Proof.
  intros Hst Hg s Hok. destruct (grant_with_spec st meta gin s Hok Hst Hg) as (g & s' & -> & Hok' & Hb). by exists s'.
Qed.

Lemma grants_inputs_ext f g l :
  (forall s, f s = g s) -> grants_inputs f l -> grants_inputs g l.
Proof. intros E Hf s Hok. destruct (Hf s Hok) as (s' & E' & Hr). exists s'. by rewrite <- E. Qed.

(** *** Sessions *)
Definition session_ok (subjectID : string) (g : PendingGrant) : Prop :=
  forall ref m, ref <> "" ->
    gl_admits (mkGrantInput subjectID (pg_Bucket g) (pg_Amount g) (pg_ValidDays g)
                 SourceStripePayment ref m).

Definition unit_inputs (session : sessionShape) (subjectID : string) (i : nat) (g : PendingGrant)
    (unit n : nat) : list GrantInput :=
  map (fun u => session_input session subjectID i u g None) (seq unit n).
Fixpoint session_inputs (session : sessionShape) (subjectID : string) (i : nat)
    (grants : list PendingGrant) : list GrantInput :=
  match grants with
  | [] => []
  | g :: grants' =>
      unit_inputs session subjectID i g 0 (units g) ++
      session_inputs session subjectID (Datatypes.S i) grants'
  end.

Lemma session_inputs_elem session subjectID k grants i g u :
  grants !! i = Some g -> (u < units g)%nat ->
  session_input session subjectID (k + i) u g None ∈ session_inputs session subjectID k grants.
Proof.
  revert k i. induction grants as [|g0 grants IH]; intros k i Hi Hu; [done|].
  cbn [session_inputs]. apply elem_of_app. destruct i as [|i]; cbn in Hi.
  - simplify_eq. left. rewrite Nat.add_0_r. apply elem_of_map. exists u. split; [done|].
    apply elem_of_seq. lia.
  - right. specialize (IH (Datatypes.S k) i Hi Hu). by rewrite Nat.add_succ_r.
Qed.

(** The units of a session have references of their own. *)
Lemma fmt_nat n : fmt_d (Z.of_nat n) = NilEmpty.string_of_uint (N.to_uint (N.of_nat n)).
Proof.
  unfold fmt_d. rewrite (proj2 (Z.ltb_ge _ _)) by lia. replace (Z.to_N (Z.of_nat n)) with (N.of_nat n) by lia.
  by destruct (dec_digits_nonnil (N.of_nat n)).
Qed.
Lemma fmt_nat_plain n : string_has ":" (fmt_d (Z.of_nat n)) = false.
Proof. rewrite fmt_nat. by induction (N.to_uint (N.of_nat n)). Qed.
Lemma fmt_nat_inj n m : fmt_d (Z.of_nat n) = fmt_d (Z.of_nat m) -> n = m.
Proof.
  rewrite !fmt_nat. intros E. apply Nat2N.inj. rewrite <- (DecimalN.Unsigned.of_to (N.of_nat n)), <- (DecimalN.Unsigned.of_to (N.of_nat m)).
  f_equal. pose proof (f_equal NilEmpty.uint_of_string E) as E'. rewrite !NilEmpty.usu in E'. congruence.
Qed.
Lemma session_ref_inj session i u j v : session_ref session i u = session_ref session j v -> i = j /\ u = v.
Proof.
  unfold session_ref. rewrite !append_assoc. intros E%append_inj_l. cbn in E. injection E as E.
  pose proof (f_equal (split_at ":") E) as E'. cbn in E'. rewrite !split_at_append in E' by apply fmt_nat_plain.
  injection E' as Ei Eu. split; by apply fmt_nat_inj.
Qed.
Lemma session_inputs_ref session subjectID k grants gin :
  gin ∈ session_inputs session subjectID k grants -> exists i u, (k <= i)%nat /\ gi_SourceRef gin = session_ref session i u.
Proof.
  revert k. induction grants as [|g grants IH]; intros k; cbn; [by intros ?%not_elem_of_nil|].
  intros [(u & -> & _)%elem_of_map|(i & u & Hi & E)%IH]%elem_of_app; [by exists k, u|]. exists i, u. split; [lia|done].
Qed.
Lemma session_inputs_nodup session subjectID k grants : NoDup (map grant_key (session_inputs session subjectID k grants)).
Proof.
  revert k. induction grants as [|g grants IH]; intros k; cbn; [constructor|]. rewrite map_app. apply NoDup_app. split_and!; [|
    |apply IH].
  - unfold unit_inputs. rewrite map_map. apply (NoDup_fmap_2_strong (fun u => grant_key (session_input session subjectID k u g None))); [|apply NoDup_seq].
    intros u v _ _ [= E]. by apply session_ref_inj in E as [_ ?].
  - intros key (gin & -> & Hgin)%elem_of_map (gin' & E & Hgin')%elem_of_map.
    apply elem_of_map in Hgin as (u & -> & _). apply session_inputs_ref in Hgin' as (i & v & Hi & Er).
    injection E as _ _ E. rewrite Er in E. apply session_ref_inj in E as [-> _]. lia.
Qed.

Lemma session_ref_nonempty session i u : session_ref session i u <> "".
Proof. unfold session_ref. by destruct (ss_PaymentIntent session). Qed.

Lemma grant_units_inputs st session subjectID i g unit n :
  (forall u, fresh_env (st u)) -> session_ok subjectID g ->
  grants_inputs (grant_units st session subjectID i g unit n)
    (unit_inputs session subjectID i g unit n).
Proof.
  intros Hst Hg. revert unit. induction n as [|n IH]; intros unit; [apply grants_inputs_nil|].
  change (unit_inputs session subjectID i g unit (Datatypes.S n)) with
    ([session_input session subjectID i unit g None] ++
     unit_inputs session subjectID i g (Datatypes.S unit) n).
  eapply grants_inputs_ext; [|apply grants_inputs_seq;
    [apply (grants_inputs_one (st unit) (session_meta session g)
       (session_input session subjectID i unit g)); [done|]|apply IH]].
  - intros s. cbn. by destruct (grant_with _ _ _ s) as [[?|?] ?].
  - intros m. split; [apply Hg, session_ref_nonempty|]. split; [apply session_ref_nonempty|done].
Qed.

Lemma grant_all_inputs st session subjectID i grants :
  (forall i u, fresh_env (st i u)) -> Forall (session_ok subjectID) grants ->
  grants_inputs (grant_all st session subjectID i grants) (session_inputs session subjectID i grants).
Proof.
  intros Hst Hg. revert i. induction Hg as [|g grants Hg _ IH]; intros i; [apply grants_inputs_nil|].
  cbn [session_inputs].
  eapply grants_inputs_ext; [|apply grants_inputs_seq;
    [apply (grant_units_inputs (st i) session subjectID i g 0 (units g)); done|apply IH]].
  intros s. reflexivity.
Qed.

(** *** Invoices *)
Definition invoice_ok (subjectID : string) (rg : RecurringGrant) : Prop :=
  forall ref m, ref <> "" ->
    gl_admits (mkGrantInput subjectID (rg_Bucket rg) (rg_Amount rg) (rg_ValidDaysFromGrant rg)
                 SourceStripePayment ref m).

Fixpoint invoice_inputs (spec : Spec) (inv : invoiceShape) (subjectID : string)
    (lines : list (option invoiceLinePrice)) : list GrantInput :=
  match lines with
  | [] => []
  | line :: lines' =>
      match line_grant spec line with
      | None => []
      | Some (productKey, rg) => [invoice_input inv subjectID productKey rg None]
      end ++ invoice_inputs spec inv subjectID lines'
  end.

Lemma grant_lines_inputs st spec inv subjectID k lines :
  (forall k, fresh_env (st k)) ->
  (forall pk p rg, Products spec !! pk = Some p -> p_RecurringGrant p = Some rg ->
     invoice_ok subjectID rg) ->
  grants_inputs (grant_lines st spec inv subjectID k lines) (invoice_inputs spec inv subjectID lines).
Proof.
  intros Hst Hspec. revert k. induction lines as [|line lines IH]; intros k; [apply grants_inputs_nil|].
  cbn [grant_lines invoice_inputs]. destruct (line_grant spec line) as [[pk rg]|] eqn:E; [|apply IH].
  eapply grants_inputs_ext; [|apply grants_inputs_seq;
    [apply (grants_inputs_one (st k) (invoice_meta inv pk) (invoice_input inv subjectID pk rg)); [done|]
    |apply (IH (Datatypes.S k))]].
  - intros s. cbn. by destruct (grant_with _ _ _ s) as [[?|?] ?].
  - intros m. cbn. split; [|done]. unfold line_grant in E. repeat break_match; try done.
    simplify_eq. by eapply Hspec.
Qed.

(** The grants an event asks for are ones the repository can book. *)
Definition session_event_ok (evt : Event) : Prop :=
  forall session grants, decodeSession evt = Some session ->
    DecodeSessionMetadata (mget (ss_Metadata session) SessionMetadataKey) = Ok grants ->
    Forall (session_ok (mget (ss_Metadata session) "subject_id")) grants.

Lemma ApplyGrants_cases evt :
  session_event_ok evt ->
  (exists r, forall st (s : S), ApplyGrantsFromSession st evt s = (r, s)) \/
  (exists session grants subjectID, decodeSession evt = Some session /\
     DecodeSessionMetadata (mget (ss_Metadata session) SessionMetadataKey) = Ok grants /\
     mget (ss_Metadata session) "subject_id" = subjectID /\
     Forall (session_ok subjectID) grants /\
     forall st s, ApplyGrantsFromSession st evt s = grant_all st session subjectID 0 grants s).
Proof.
  intros Hev. unfold ApplyGrantsFromSession, session_event_ok in *.
  destruct (_ && _); [left; by exists None|].
  destruct (decodeSession evt) as [session|]; [|left; by eexists].
  destruct (String.eqb _ ""); [left; by exists None|].
  destruct (DecodeSessionMetadata _) as [[|g gs]|e] eqn:E; [left; by exists None| |left; by eexists].
  destruct (String.eqb _ ""); [left; by eexists|]. right.
  exists session, (g :: gs), (mget (ss_Metadata session) "subject_id").
  repeat (split; [done|]). split; [by apply Hev|done].
Qed.

(** A redelivered checkout event grants nothing twice. Whatever a delivery did,
    delivering the same event again gives the same answer and leaves the ledger as
    the first delivery left it, on every repository that keeps the promise of
    [Grant]. *)
Theorem session_redelivery st st' evt s :
  gl_ok s -> (forall i u, fresh_env (st i u)) -> (forall i u, fresh_env (st' i u)) ->
  session_event_ok evt ->
  let r1 := ApplyGrantsFromSession st evt s in
  let r2 := ApplyGrantsFromSession st' evt (snd r1) in
  fst r2 = fst r1 /\ gl_same (snd r1) (snd r2).
Proof.
  intros Hok Hst Hst' Hev. cbv zeta.
  destruct (ApplyGrants_cases evt Hev) as [[r Hr]|(session & grants & subj & _ & _ & _ & Hg & Hr)].
  - rewrite !Hr. by cbn.
  - rewrite !Hr.
    destruct (grant_all_inputs st session subj 0 grants Hst Hg s Hok) as (s1 & -> & Hok1 & [Hin _ _ _ _ _]).
    destruct (grant_all_inputs st' session subj 0 grants Hst' Hg s1 Hok1) as (s2 & E2 & _ & [_ _ Hs _ _ _]).
    cbn [snd]. rewrite E2. split; [done|]. by apply Hs.
Qed.

Lemma session_grants_each st evt s session grants i g u :
  gl_ok s -> (forall i u, fresh_env (st i u)) -> session_event_ok evt ->
  ev_Type evt = "checkout.session.completed" -> decodeSession evt = Some session ->
  DecodeSessionMetadata (mget (ss_Metadata session) SessionMetadataKey) = Ok grants ->
  mget (ss_Metadata session) "subject_id" <> "" ->
  grants !! i = Some g -> (u < units g)%nat ->
  let r := ApplyGrantsFromSession st evt s in
  fst r = None /\
  gl_has (snd r) (mget (ss_Metadata session) "subject_id") (pg_Bucket g) (session_ref session i u) /\
  (~ gl_has s (mget (ss_Metadata session) "subject_id") (pg_Bucket g) (session_ref session i u) ->
   gl_worth (snd r) (mget (ss_Metadata session) "subject_id") (pg_Bucket g) (session_ref session i u) (pg_Amount g)).
Proof.
  intros Hok Hst Hev Ht Hd Hm Hsub Hi Hu. cbv zeta.
  assert (E : forall s, ApplyGrantsFromSession st evt s =
    grant_all st session (mget (ss_Metadata session) "subject_id") 0 grants s).
  { intros s0. unfold ApplyGrantsFromSession. rewrite Ht, Hd. cbn [negb andb String.eqb].
    destruct (String.eqb_spec (mget (ss_Metadata session) SessionMetadataKey) "") as [E|_].
    - rewrite E in Hm. injection Hm as <-. done.
    - rewrite Hm. destruct grants; [done|]. by rewrite (proj2 (String.eqb_neq _ _) Hsub). }
  rewrite E. clear E.
  destruct (grant_all_inputs st session _ 0 grants Hst (Hev _ _ Hd Hm) s Hok) as (s' & -> & _ & [Hin _ _ _ _ Hw]).
  pose proof (session_inputs_elem session (mget (ss_Metadata session) "subject_id") 0 grants i g u Hi Hu) as Helem.
  split; [done|]. cbn [snd]. rewrite Forall_forall in Hin. split; [exact (Hin _ Helem)|].
  intros Hn. exact (Hw _ (session_inputs_nodup _ _ _ _) Helem Hn).
Qed.

(** A checkout event is honoured in full. When the event names a subject and
    carries grants, the handler succeeds and every unit of every grant is on the
    books under its own source reference, with its amount unless the reference was there
    before. *)
Theorem session_grants_all st evt s session grants i g u :
  gl_ok s -> (forall i u, fresh_env (st i u)) -> session_event_ok evt ->
  ev_Type evt = "checkout.session.completed" -> decodeSession evt = Some session ->
  DecodeSessionMetadata (mget (ss_Metadata session) SessionMetadataKey) = Ok grants ->
  mget (ss_Metadata session) "subject_id" <> "" ->
  grants !! i = Some g -> (u < units g)%nat ->
  let r := ApplyGrantsFromSession st evt s in
  fst r = None /\
  gl_has (snd r) (mget (ss_Metadata session) "subject_id") (pg_Bucket g) (session_ref session i u) /\
  (~ gl_has s (mget (ss_Metadata session) "subject_id") (pg_Bucket g) (session_ref session i u) ->
   gl_worth (snd r) (mget (ss_Metadata session) "subject_id") (pg_Bucket g) (session_ref session i u) (pg_Amount g)).
Proof. apply session_grants_each. Qed.

Definition invoice_spec_ok (spec : Spec) (subjectID : string) : Prop :=
  forall pk p rg, Products spec !! pk = Some p -> p_RecurringGrant p = Some rg ->
    invoice_ok subjectID rg.

(** A redelivered invoice event grants nothing twice. *)
Theorem invoice_redelivery st st' spec evt s :
  gl_ok s -> (forall k, fresh_env (st k)) -> (forall k, fresh_env (st' k)) ->
  (forall inv, decodeInvoice evt = Some inv -> invoice_spec_ok spec (invoice_subject inv)) ->
  let r1 := ApplyRecurringGrantsFromInvoice st spec evt s in
  let r2 := ApplyRecurringGrantsFromInvoice st' spec evt (snd r1) in
  fst r2 = fst r1 /\ gl_same (snd r1) (snd r2).
Proof.
  intros Hok Hst Hst' Hev. cbv zeta. unfold ApplyRecurringGrantsFromInvoice.
  destruct (_ && _); [done|]. destruct (decodeInvoice evt) as [inv|]; [|done].
  destruct (String.eqb (iv_Subscription inv) ""); [done|].
  destruct (String.eqb (invoice_subject inv) ""); [done|].
  destruct (iv_Lines inv) as [lines|]; [|done].
  specialize (Hev inv eq_refl).
  destruct (grant_lines_inputs st spec inv (invoice_subject inv) 0 lines Hst Hev s Hok)
    as (s1 & -> & Hok1 & [Hin _ _ _ _ _]).
  destruct (grant_lines_inputs st' spec inv (invoice_subject inv) 0 lines Hst' Hev s1 Hok1)
    as (s2 & E2 & _ & [_ _ Hs _ _ _]).
  cbn [snd]. rewrite E2. split; [done|]. by apply Hs.
Qed.
End redelivery.

(** ** The in-memory repository keeps the promise *)
Import Memory.
Definition same_ledger (r r' : memoryRepo) : Prop :=
  bySubject r' = bySubject r /\ deductionBySubject r' = deductionBySubject r /\
  seenGrant r' = seenGrant r /\ seenDeduction r' = seenDeduction r.
#[export] Instance same_ledger_equiv : Equivalence same_ledger.
Proof.
  split.
  - intros r. done.
  - intros r r' (? & ? & ? & ?). repeat split; congruence.
  - intros r1 r2 r3 (? & ? & ? & ?) (? & ? & ? & ?). repeat split; congruence.
Qed.

#[export, refine] Instance memory_GrantLaws `{GoRuntime} : GrantLaws memoryRepo := {|
  gl_ok r := ledger_inv r /\ dedup_inv r;
  gl_fresh st r := fresh_id r (st_id st);
  gl_admits gin := key_ok gin /\ 0 < gi_Amount gin <= int64_max;
  gl_same := same_ledger;
  gl_has r a b c := exists g, g ∈ grants_of r a /\ g_Bucket g = b /\ g_SourceRef g = c;
  gl_worth r a b c z := exists g, g ∈ grants_of r a /\ g_Bucket g = b /\ g_SourceRef g = c /\ g_AmountInitial g = z;
|}.
Proof.
  - intros r r' a b c (E & _) (g & Hg & Hr). exists g. unfold grants_of in *. by rewrite E.
  - intros r r' a b c z (E & _) (g & Hg & Hr). exists g. unfold grants_of in *. by rewrite E.
  - intros m r [Hinv Hdd]. cbn. split; [|done]. destruct Hinv, Hdd. done.
  - intros st gin r [Hinv Hdd] Hf [Hk Ha] Href. cbn [cr_Grant memory_CreditRepo].
    rewrite repo_Grant_cases. destruct (prior_grant gin r) as [g|] eqn:Ep.
    + assert (Hhas : exists g, g ∈ grants_of r (gi_SubjectID gin) /\ g_Bucket g = gi_Bucket gin /\ g_SourceRef g = gi_SourceRef gin)
        by (exists g; by apply prior_grant_data).
      exists g, r. split_and!; try done. by left.
    + eexists _, _. split; [done|]. split; [split; [by apply granted_inv|by apply granted_dedup]|].
      split_and!.
      * exists (new_grant (st_now st) (st_id st) gin). split; [apply granted_elem; by right|done].
      * intros a b c (g & Hg & Hr). exists g. split; [apply granted_elem; by left|done].
      * intros (g & Hg & Hb & Hr). by rewrite (prior_grant_found gin g r) in Ep.
      * intros a b c z (g & Hg & Hr). exists g. split; [apply granted_elem; by left|done].
      * intros a b c (g & [Hg|[-> ->]]%granted_elem & <- & <-); [left; by exists g|by right].
      * intros _. exists (new_grant (st_now st) (st_id st) gin). split; [apply granted_elem; by right|done].
Defined.

(** ** Runs of the model: the witnesses *)
Module HandlerDemo.
Definition all_ids (r : memoryRepo) : list string :=
  List.concat (map (fun p => map g_ID (snd p)) (map_to_list (bySubject r))).
(** A clock at [t] and an id that is not on the books. *)
Definition env (t : Z) (r : memoryRepo) : stamp :=
  mkStamp (t * second) (fun _ => t * second) (infinite_fresh (all_ids r)) (fun n => pretty n).

Lemma env_fresh t : fresh_env (env t).
Proof.
  intros r _ s Hin. apply (infinite_is_fresh (all_ids r)). unfold grants_of in Hin.
  destruct (bySubject r !! s) as [gs|] eqn:E; [|by apply not_elem_of_nil in Hin]. cbn in Hin.
  unfold all_ids. apply list_elem_of_In, in_concat. exists (map g_ID gs).
  split; [|by apply list_elem_of_In]. apply in_map_iff. exists (s, gs). split; [done|].
  apply list_elem_of_In. by apply elem_of_map_to_list.
Qed.

Definition pack : PendingGrant := mkPendingGrant "api" 500 30 "starter" 2.
Definition session : sessionShape :=
  mkSession "cs_1" (<["subject_id" := "user_1"]>
    (<[SessionMetadataKey := render (JArr [enc_PendingGrant pack])]> ∅)) "pi_1".
Definition payload : string :=
  render (JObj [("id", JStr "cs_1"); ("payment_intent", JStr "pi_1");
    ("metadata", JObj [("subject_id", JStr "user_1");
       (SessionMetadataKey, JStr (render (JArr [enc_PendingGrant pack])))])]).
Definition evt : Event :=
  fromStripeEvent (mkStripeEvent "evt_1" "checkout.session.completed" true 1779885296 (Some payload)).

Lemma evt_session : decodeSession evt = Some session.
Proof. vm_compute. reflexivity. Qed.
Lemma session_pack :
  DecodeSessionMetadata (mget (ss_Metadata session) SessionMetadataKey) = Ok [pack].
Proof. vm_compute. reflexivity. Qed.

Lemma evt_ok : session_event_ok (S := memoryRepo) evt.
Proof.
  intros s gs Hs Hg. rewrite evt_session in Hs. injection Hs as <-.
  rewrite session_pack in Hg. injection Hg as <-. constructor; [|constructor].
  intros ref m _. split; [split; reflexivity|]. cbn. unfold int64_max. lia.
Qed.

Lemma empty_ok : gl_ok NewMemoryRepo.
Proof. apply reachable_clean. constructor. Qed.
End HandlerDemo.

Lemma session_redelivery_witness :
  let r1 := ApplyGrantsFromSession (fun _ _ => HandlerDemo.env 100) HandlerDemo.evt NewMemoryRepo in
  let r2 := ApplyGrantsFromSession (fun _ _ => HandlerDemo.env 200) HandlerDemo.evt (snd r1) in
  fst r2 = fst r1 /\ same_ledger (snd r1) (snd r2).
Proof.
  exact (session_redelivery (fun _ _ => HandlerDemo.env 100) (fun _ _ => HandlerDemo.env 200)
    HandlerDemo.evt NewMemoryRepo HandlerDemo.empty_ok (fun _ _ => HandlerDemo.env_fresh 100)
    (fun _ _ => HandlerDemo.env_fresh 200) HandlerDemo.evt_ok).
Defined.

Lemma session_grants_all_witness :
  let r := ApplyGrantsFromSession (fun _ _ => HandlerDemo.env 100) HandlerDemo.evt NewMemoryRepo in
  fst r = None /\ exists g, g ∈ grants_of (snd r) "user_1" /\ g_Bucket g = "api" /\
    g_SourceRef g = "pi_1:0:1" /\ g_AmountInitial g = 500.
Proof.
  destruct (session_grants_all (fun _ _ => HandlerDemo.env 100) HandlerDemo.evt NewMemoryRepo
    HandlerDemo.session [HandlerDemo.pack] 0 HandlerDemo.pack 1 HandlerDemo.empty_ok
    (fun _ _ => HandlerDemo.env_fresh 100) HandlerDemo.evt_ok eq_refl HandlerDemo.evt_session
    HandlerDemo.session_pack ltac:(discriminate) eq_refl ltac:(vm_compute; lia)) as (Hr & _ & Hw).
  split; [exact Hr|]. apply Hw. by intros (g & Hg%not_elem_of_nil & _).
Defined.

(** ** Lookup keys *)

(** The handler recovers the product from the lookup key the catalog assigned:
    splitting the key of a price of a validated catalog gives back its product and
    price keys, and no key of another namespace is accepted as one of its own. *)
Theorem split_lookup_key spec pk prk :
  keyRegex pk = true -> prk <> "" ->
  splitNamespacedKey spec (NamespacedPriceKey spec pk prk) = Some (pk, prk) /\
  forall spec' pk' prk', namespaceRegex (Namespace spec) = true ->
    namespaceRegex (Namespace spec') = true -> Namespace spec' <> Namespace spec ->
    splitNamespacedKey spec (NamespacedPriceKey spec' pk' prk') = None.
Proof.
  intros Hk Hp. split.
  - unfold splitNamespacedKey, NamespacedPriceKey, has_prefix.
    rewrite !append_assoc, <- (append_assoc (Namespace spec)).
    rewrite prefix_append, drop_append.
    rewrite (proj2 (Nat.leb_gt _ _)) by (rewrite !length_append; cbn; lia).
    cbn [orb negb String.append]. by apply split_at_append, keyRegex_dot.
  - intros spec' pk' prk' Hn Hn' Hne. unfold splitNamespacedKey, has_prefix.
    destruct (String.prefix _ _) eqn:E; [|by rewrite orb_true_r].
    destruct Hne. apply prefix_spec in E. unfold NamespacedPriceKey in E.
    rewrite !append_assoc in E.
    apply sep_inj in E as [? _]; [done|by apply namespaceRegex_dot..].
Qed.

Definition demo_catalog : Spec :=
  mkSpec "demo"
    (<["pro" := mkProduct "Pro" "" "txcd_10103000"
        (<["monthly" := mkPrice 1900 "eur" "recurring" "month" 1 "" "" []]> ∅)
        None (Some (mkRecurringGrant "ai" 1000 31)) ∅]> ∅) ∅ ∅.

Lemma split_lookup_key_witness :
  splitNamespacedKey demo_catalog "demo.pro.monthly" = Some ("pro", "monthly").
Proof. apply (split_lookup_key demo_catalog "pro" "monthly"); [reflexivity|discriminate]. Defined.

Module InvoiceDemo.
Definition payload : string :=
  render (JObj [("id", JStr "in_1"); ("subscription", JStr "sub_1");
    ("subscription_details", JObj [("metadata", JObj [("subject_id", JStr "user_1")])]);
    ("lines", JObj [("data", JArr [JObj [("price", JObj [("id", JStr "price_1");
       ("lookup_key", JStr "demo.pro.monthly")])]])])]).
Definition evt : Event :=
  fromStripeEvent (mkStripeEvent "evt_2" "invoice.paid" true 1779885296 (Some payload)).
Lemma spec_ok : invoice_spec_ok (S := memoryRepo) demo_catalog "user_1".
Proof.
  intros pk p rg Hp Hr ref m _. unfold demo_catalog in Hp. cbn [Products] in Hp.
  apply lookup_insert_Some in Hp as [[<- <-]|[_ Hp]]; [|by rewrite lookup_empty in Hp].
  injection Hr as <-. split; [split; reflexivity|]. cbn. unfold int64_max. lia.
Qed.
End InvoiceDemo.

Lemma invoice_redelivery_witness :
  let r1 := ApplyRecurringGrantsFromInvoice (fun _ => HandlerDemo.env 100) demo_catalog
              InvoiceDemo.evt NewMemoryRepo in
  let r2 := ApplyRecurringGrantsFromInvoice (fun _ => HandlerDemo.env 200) demo_catalog
              InvoiceDemo.evt (snd r1) in
  fst r2 = fst r1 /\ same_ledger (snd r1) (snd r2).
Proof.
  refine (invoice_redelivery (fun _ => HandlerDemo.env 100) (fun _ => HandlerDemo.env 200)
    demo_catalog InvoiceDemo.evt NewMemoryRepo HandlerDemo.empty_ok (fun _ => HandlerDemo.env_fresh 100)
    (fun _ => HandlerDemo.env_fresh 200) _).
  intros inv Hinv. assert (invoice_subject inv = "user_1") as ->; [|exact InvoiceDemo.spec_ok].
  vm_compute in Hinv. injection Hinv as <-. reflexivity.
Defined.

(** ** Refunds *)
Module RefundDemo.
Definition payload : string :=
  render (JObj [("id", JStr "re_1"); ("object", JStr "refund"); ("payment_intent", JStr "pi_1");
                ("charge", JStr "ch_1")]).
Definition evt : Event :=
  fromStripeEvent (mkStripeEvent "evt_3" "refund.created" true 1779885300 (Some payload)).
End RefundDemo.

(** The source references a refund looks up are bare Stripe ids; those of checkout
    grants carry the grant and unit numbers after a colon. *)
Lemma session_ref_has_colon session i u : string_has ":" (session_ref session i u) = true.
Proof. unfold session_ref. rewrite !string_has_append. cbn. by rewrite !orb_true_r. Qed.

Section refunds.
Context `{GoRuntime}.

(** A revocation changes no other grant. *)
Lemma RevokeGrant_other now id reason r s g :
  g ∈ grants_of r s -> g_ID g <> id -> g ∈ grants_of (repo_RevokeGrant now id reason r) s.
Proof.
  intros Hg Hne.
  destruct (RevokeGrant_cases now id reason r) as [[_ ->]|(s' & i & g0 & Hi & Hid & ->)]; [done|].
  rewrite (revoke_at_grants _ _ _ _ _ _ _ g0) by done.
  destruct (decide (s' = s)) as [<-|]; [|done].
  apply list_elem_of_lookup in Hg as [j Hj]. apply list_elem_of_lookup. exists j.
  rewrite list_lookup_insert_ne; [done|]. intros ->. congruence.
Qed.

Lemma FindGrants_spec ref r g :
  g ∈ repo_FindGrantsBySourceRef ref r <->
  ref <> "" /\ g_SourceRef g = ref /\ exists s, g ∈ grants_of r s.
Proof.
  unfold repo_FindGrantsBySourceRef. destruct (String.eqb_spec ref "") as [->|Hne].
  { split; [by intros ?%not_elem_of_nil|]. by intros [? _]. }
  rewrite list_elem_of_In, in_concat. setoid_rewrite in_map_iff. split.
  - intros (l & ([s gs] & <- & Hs%list_elem_of_In%map_range_elem) & Hg).
    apply filter_In in Hg as [Hg Hr%String.eqb_eq]. split; [done|]. split; [done|].
    exists s. unfold grants_of. rewrite Hs. by apply list_elem_of_In.
  - intros (_ & Hr & s & Hg). unfold grants_of in Hg.
    destruct (bySubject r !! s) as [gs|] eqn:E; [|by apply not_elem_of_nil in Hg]. cbn in Hg.
    eexists. split; [exists (s, gs); split; [done|by apply list_elem_of_In, map_range_elem]|].
    apply filter_In. split; [by apply list_elem_of_In|by apply String.eqb_eq].
Qed.

(** What a refund may leave of the ledger: the same books, and every grant whose
    reference is not one of [refs] untouched. *)
Definition spares (refs : list string) (r r' : memoryRepo) : Prop :=
  ledger_inv r' /\ (forall s, same_frames (grants_of r s) (grants_of r' s)) /\
  forall s g, g ∈ grants_of r s -> g_SourceRef g ∉ refs -> g ∈ grants_of r' s.

Lemma spares_refl refs r : ledger_inv r -> spares refs r r.
Proof. intros. split; [done|]. split; done. Qed.

Lemma spares_trans refs r1 r2 r3 : spares refs r1 r2 -> spares refs r2 r3 -> spares refs r1 r3.
Proof.
  intros (_ & Hf & Hk) (Hi' & Hf' & Hk'). split; [done|]. split; [|eauto].
  intros s. by transitivity (grants_of r2 s).
Qed.

Lemma spares_revoke refs now id reason r g s :
  ledger_inv r -> g ∈ grants_of r s -> g_ID g = id -> g_SourceRef g ∈ refs ->
  spares refs r (repo_RevokeGrant now id reason r).
Proof.
  intros Hinv Hg Hid Hr. split; [by apply RevokeGrant_inv|].
  split; [intros s'; apply RevokeGrant_frames|].
  intros s' g' Hg' Hr'. apply RevokeGrant_other; [done|]. intros E.
  assert (s' = s) as -> by (apply (inv_ids r Hinv s' s g' g); congruence).
  pose proof (find_id_elem _ g (acct_ids _ _ (inv_acct r Hinv s)) Hg) as F.
  pose proof (find_id_elem _ g' (acct_ids _ _ (inv_acct r Hinv s)) Hg') as F'. congruence.
Qed.

Lemma revoke_each_spares st refundID k refs grants r :
  ledger_inv r ->
  Forall (fun g => g_SourceRef g ∈ refs /\ exists s g', g' ∈ grants_of r s /\ frame g' = frame g) grants ->
  exists r', revoke_each st refundID k grants r = (None, r') /\ spares refs r r'.
Proof.
  revert k r. induction grants as [|g grants IH]; intros k r Hinv Hall.
  { exists r. split; [done|by apply spares_refl]. }
  inv Hall. cbn [revoke_each]. destruct (match g_Metadata g with Some _ => _ | None => _ end).
  { by apply IH. }
  cbn [cr_RevokeGrant memory_CreditRepo]. destruct H2 as (Hr & s & g' & Hg' & Ef).
  pose proof (spares_revoke refs (st_now (st k r)) (g_ID g) ("refund:" ^^ refundID) r g' s Hinv Hg'
    ltac:(injection Ef; congruence) ltac:(injection Ef; congruence)) as Hsp.
  destruct (IH (Datatypes.S k) _ (proj1 Hsp)) as (r' & E & Hsp').
  { eapply Forall_impl; [exact H3|]. intros g2 (Hr2 & s2 & g2' & Hg2' & Ef2). split; [done|].
    destruct Hsp as (_ & Hf & _).
    destruct (same_frames_elem _ _ _ (same_frames_sym _ _ (Hf s2)) Hg2') as (g3 & Hg3 & Ef3).
    exists s2, g3. split; [done|]. congruence. }
  exists r'. split; [done|]. by apply (spares_trans _ _ _ _ Hsp).
Qed.

Lemma revoke_refs_spares st refundID j refs candidates r :
  ledger_inv r -> (forall c, c ∈ candidates -> c ∈ refs) ->
  exists r', revoke_refs st refundID j candidates r = (None, r') /\ spares refs r r'.
Proof.
  revert j r. induction candidates as [|c candidates IH]; intros j r Hinv Hsub.
  { exists r. split; [done|by apply spares_refl]. }
  cbn [revoke_refs cr_FindGrantsBySourceRef memory_CreditRepo].
  destruct (revoke_each_spares (st j) refundID 0 refs (repo_FindGrantsBySourceRef c r) r Hinv)
    as (r1 & -> & Hsp).
  { apply Forall_forall. intros g (_ & Hr & s & Hg)%FindGrants_spec. split.
    - rewrite Hr. apply Hsub. by left.
    - by exists s, g. }
  destruct (IH (Datatypes.S j) r1 (proj1 Hsp)) as (r2 & E & Hsp2).
  { intros c' Hc'. apply Hsub. by right. }
  exists r2. split; [done|]. by apply (spares_trans _ _ _ _ Hsp).
Qed.

(** A refund does not reach the grants of a checkout. The handler succeeds and
    revokes only grants whose source reference is one of the refund's own ids (payment
    intent, charge, refund), and so never one issued by a checkout session, whose
    reference has the payment intent only as a prefix: for ids without a colon, every
    checkout grant, those of the refunded payment included, stays as it was. *)
Theorem refund_misses_checkout_grants st evt r refundID pi charge s g session i u :
  reachable (fun _ => True) r -> parseRefundEvent evt = Some (refundID, pi, charge) ->
  string_has ":" pi = false -> string_has ":" charge = false -> string_has ":" refundID = false ->
  g ∈ grants_of r s -> g_SourceRef g = session_ref session i u ->
  fst (ApplyRefundReversal st evt r) = None /\
  g ∈ grants_of (snd (ApplyRefundReversal st evt r)) s.
Proof.
  intros Hr Hp H1 H2 H3 Hg Href. apply reachable_inv in Hr. unfold ApplyRefundReversal. rewrite Hp.
  destruct (revoke_refs_spares st refundID 0 (nonempty pi ++ nonempty charge ++ nonempty refundID)
    (nonempty pi ++ nonempty charge ++ nonempty refundID) r Hr) as (r' & -> & _ & _ & Hk); [done|].
  split; [done|]. apply Hk; [done|].
  assert (Hno : forall x, string_has ":" x = false -> session_ref session i u ∉ nonempty x).
  { intros x Hx Hin. unfold nonempty in Hin. destruct (String.eqb x ""); [by apply not_elem_of_nil in Hin|].
    apply list_elem_of_singleton in Hin. pose proof (session_ref_has_colon session i u). congruence. }
  rewrite Href, !elem_of_app. intros [Hin|[Hin|Hin]]; [by apply (Hno pi)|by apply (Hno charge)|].
  by apply (Hno refundID).
Qed.
End refunds.

Lemma refund_misses_checkout_grants_witness :
  let g := new_grant (50 * second) "gr_0"
             (mkGrantInput "user_1" "api" 500 30 SourceStripePayment "pi_1:0:0" None) in
  let r := exec (CGrant (mkStamp (50 * second) (fun _ => 0) "gr_0" (fun _ => ""))
             (mkGrantInput "user_1" "api" 500 30 SourceStripePayment "pi_1:0:0" None)) NewMemoryRepo in
  g ∈ grants_of (snd (ApplyRefundReversal (fun _ _ => HandlerDemo.env 100) RefundDemo.evt r)) "user_1".
Proof.
  cbv zeta.
  refine (proj2 (refund_misses_checkout_grants (fun _ _ => HandlerDemo.env 100) RefundDemo.evt _
    "re_1" "pi_1" "ch_1" "user_1" _ HandlerDemo.session 0 0 _ _ _ _ _ _ _)).
  - apply reach_call; [constructor|exact I|]. split; [|cbn; unfold int64_max; lia].
    intros s. rewrite grants_new. apply not_elem_of_nil.
  - vm_compute. reflexivity.
  - reflexivity.
  - reflexivity.
  - reflexivity.
  - apply (bool_decide_unpack _). vm_compute. exact I.
  - vm_compute. reflexivity.
Defined.
