(* ===== verification/Checkout.v ===== *)
(** * Checkout: checkout and portal sessions, and the customers they are for
      (src/checkout/types.go, backend.go, checkout.go, portal.go, customer_balance.go,
      src/subject/stripe_customer.go, src/repos/postgres/customer_repo.go).

    [CustomerRepo] and [CheckoutBackend] are the two interfaces a checkout talks to, over
    their states; the backend is Stripe, and stays a parameter. The price resolver is a
    function, the catalog cache in the running program. *)
From S2P Require Import Prelude Postgres Json Events Credits CatalogSpec CreditHandlers.

(** ** Data (types.go, backend.go, portal.go) *)
Record CustomAmount := mkCustomAmount {
  ca_Currency : string; ca_Min : Z; ca_Max : Z; ca_Preset : Z; ca_Name : string; ca_TaxCategory : string }.
Record LineItem := mkLineItem { li_PriceKey : string; li_Quantity : Z; li_CustomAmount : option CustomAmount }.
Record SessionDefaults := mkSessionDefaults {
  sd_AutomaticTax : option bool; sd_TaxIDCollection : option bool; sd_BillingAddressCollection : string;
  sd_CustomerUpdateAddress : string; sd_CustomerUpdateName : string; sd_AllowPromotionCodes : option bool;
  sd_RequirePaymentMethodForTrial : option bool }.
Record CheckoutInput := mkCheckoutInput {
  in_SubjectID : string; in_Actor : string; in_CustomerEmail : string; in_LineItems : list LineItem;
  in_SuccessURL : string; in_CancelURL : string; in_PromoCode : string; in_PromoCodeID : string;
  in_Metadata : smap; in_PaymentMethods : list string; in_UIMode : string; in_ReturnURL : string;
  in_Defaults : SessionDefaults; in_TrialDays : Z; in_Locale : string }.
Definition UIModeEmbedded : string := "embedded".
Inductive Mode := ModeSubscription | ModePayment.
#[export] Instance Mode_eq_dec : EqDecision Mode.
Proof. solve_decision. Defined.
Record CheckoutSession := mkCheckoutSession { cs_ID : string; cs_URL : string; cs_ClientSecret : string }.
Record CustomerCreate := mkCustomerCreate { cc_SubjectID : string; cc_Email : string; cc_Metadata : smap }.
Record SessionLineItem := mkSessionLine { sl_StripePriceID : string; sl_Quantity : Z; sl_CustomAmount : option CustomAmount }.
Record SessionCreate := mkSessionCreate {
  sc_StripeCustomerID : string; sc_Mode : Mode; sc_LineItems : list SessionLineItem;
  sc_SuccessURL : string; sc_CancelURL : string; sc_ClientReference : string; sc_PromoCode : string;
  sc_PromoCodeID : string; sc_Metadata : smap; sc_PaymentMethods : list string; sc_UIMode : string;
  sc_ReturnURL : string; sc_Defaults : SessionDefaults; sc_TrialDays : Z; sc_Locale : string }.
Inductive PortalFlowType := PortalFlowSubscriptionCancel | PortalFlowSubscriptionUpdate | PortalFlowOther (type : string).
Record PortalFlow := mkPortalFlow { pf_Type : PortalFlowType; pf_SubscriptionID : string }.
Record PortalInput := mkPortalInput { pi_SubjectID : string; pi_ReturnURL : string; pi_Flow : option PortalFlow }.
Record PortalSession := mkPortalSession { ps_ID : string; ps_URL : string }.
Record PortalSessionCreate := mkPortalCreate { pc_StripeCustomerID : string; pc_ReturnURL : string; pc_Flow : option PortalFlow }.

(** [resolveBool], [resolveString] and [SessionDefaults.Resolve]. *)
Definition resolveBool (v : option bool) (fallback : bool) : bool := match v with None => fallback | Some b => b end.
Definition resolveString (v fallback : string) : string := if String.eqb v "" then fallback else v.
Record ResolvedSessionDefaults := mkResolvedDefaults {
  rd_AutomaticTax : bool; rd_TaxIDCollection : bool; rd_BillingAddressCollection : string;
  rd_CustomerUpdateAddress : string; rd_CustomerUpdateName : string; rd_AllowPromotionCodes : bool;
  rd_RequirePaymentMethodForTrial : bool }.
Definition Resolve (d : SessionDefaults) : ResolvedSessionDefaults :=
  mkResolvedDefaults (resolveBool (sd_AutomaticTax d) true) (resolveBool (sd_TaxIDCollection d) true)
    (resolveString (sd_BillingAddressCollection d) "required") (resolveString (sd_CustomerUpdateAddress d) "auto")
    (resolveString (sd_CustomerUpdateName d) "auto") (resolveBool (sd_AllowPromotionCodes d) true)
    (resolveBool (sd_RequirePaymentMethodForTrial d) true).

(** ** Customers (subject/stripe_customer.go, postgres/customer_repo.go) *)
Class CustomerRepo (C : Type) := {
  cu_Get : string -> C -> res string (option string) * C;
  cu_Upsert : string -> string -> C -> option string * C;
}.
Record memoryCustomerRepo := mkMemoryCustomers { mc_m : gmap string string }.
Definition NewMemoryCustomerRepo : memoryCustomerRepo := mkMemoryCustomers ∅.
Definition mc_Get (s : string) (r : memoryCustomerRepo) : option string := mc_m r !! s.
Definition mc_Upsert (s id : string) (r : memoryCustomerRepo) : memoryCustomerRepo := mkMemoryCustomers (<[s := id]> (mc_m r)).
#[export] Instance memory_CustomerRepo : CustomerRepo memoryCustomerRepo := {
  cu_Get s r := (Ok (mc_Get s r), r);
  cu_Upsert s id r := (None, mc_Upsert s id r);
}.

Abbreviation customers_table := (gmap string string).
Record CustomerConn := mkCustomerConn { cn_faults : faults; cn_sent : nat; cn_table : customers_table }.
Definition pcu_Get (subject : string) : sql customers_table (option string) :=
  named "postgres.CustomerRepo.Get" (query (fun t => Ok (t !! subject))).
(** [INSERT ... ON CONFLICT (subject_id) DO UPDATE], under [UNIQUE (stripe_customer_id)]. *)
Definition upsert_customer (subject id : string) (t : customers_table) : res string unit * customers_table :=
  if existsb (fun '(s, c) => negb (String.eqb s subject) && String.eqb c id) (map_to_list t)
  then (Err "duplicate key value violates unique constraint", t)
  else (Ok tt, <[subject := id]> t).
Definition pcu_Upsert (subject id : string) : sql customers_table unit :=
  named "postgres.CustomerRepo.Upsert" (stmt (upsert_customer subject id)).
Definition on_customers {A} (p : sql customers_table A) (c : CustomerConn) : res string A * CustomerConn :=
  let '(r, (n, t)) := p (cn_faults c) (cn_sent c) (cn_table c) in (r, mkCustomerConn (cn_faults c) n t).
#[export] Instance postgres_CustomerRepo : CustomerRepo CustomerConn := {
  cu_Get s c := on_customers (pcu_Get s) c;
  cu_Upsert s id c := let '(r, c') := on_customers (pcu_Upsert s id) c in
    (match r with Ok _ => None | Err e => Some e end, c');
}.

(** ** Errors *)
Inductive checkout_error :=
| ErrSubjectMissing
| ErrNoLineItems
| ErrPriceKeyNotFound (key : string)
| ErrMixedItemTypes
| ErrMissingSuccessURL
| ErrMissingCancelURL
| ErrUnknownPriceInSpec (key : string)
| ErrMissingReturnURL
| ErrTrialDaysOutOfRange
| ErrTrialOnPayment
| ErrCustomAmountAndPrice
| ErrCustomAmountInvalid
| ErrMetadata (e : metadata_error)
| ErrCustomersGet (msg : string)
| ErrCreateCustomer (msg : string)
| ErrCustomersUpsert (msg : string)
| ErrBackend (msg : string)
| ErrPortalSubjectMissing
| ErrPortalReturnURLMissing
| ErrPortalCustomerUnknown
| ErrPortalFlowSubscriptionMissing.

Class CheckoutBackend (B : Type) := {
  bk_CreateCustomer : CustomerCreate -> B -> res string string * B;
  bk_CreateCheckoutSession : SessionCreate -> B -> res string CheckoutSession * B;
  bk_CreatePortalSession : PortalSessionCreate -> B -> res string PortalSession * B;
}.

(** ** Checking the input (checkout.go) *)
Definition validateInput (input : CheckoutInput) : option checkout_error :=
  if String.eqb (in_SubjectID input) "" then Some ErrSubjectMissing
  else if bool_decide (in_LineItems input = []) then Some ErrNoLineItems
  else if String.eqb (in_UIMode input) UIModeEmbedded then
    (if String.eqb (in_ReturnURL input) "" then Some ErrMissingReturnURL else None)
  else if String.eqb (in_SuccessURL input) "" then Some ErrMissingSuccessURL
  else if String.eqb (in_CancelURL input) "" then Some ErrMissingCancelURL
  else None.
Definition validateCustomAmount (ca : CustomAmount) : option checkout_error :=
  if String.eqb (ca_Currency ca) "" || String.eqb (ca_Name ca) "" || (ca_Min ca <? 1) || (ca_Max ca <? ca_Min ca)
  then Some ErrCustomAmountInvalid
  else if negb (ca_Preset ca =? 0) && ((ca_Preset ca <? ca_Min ca) || (ca_Max ca <? ca_Preset ca))
  then Some ErrCustomAmountInvalid
  else None.
(** The two sides of the only dot, neither of them empty. *)
Definition splitPriceKey (key : string) : option (string * string) :=
  match split_at "." key with
  | None => None
  | Some (a, b) => if string_has "." b || String.eqb a "" || String.eqb b "" then None else Some (a, b)
  end.
Definition line_quantity (item : LineItem) : Z := if li_Quantity item =? 0 then 1 else li_Quantity item.

Section checkout.
Context (ns : string) (spec : Spec) (resolver : string -> option string).

(** What one line item becomes, and whether it was recurring, one-time or neither. *)
Inductive line_kind := Recurring | OneTime | OtherKind.
Definition price_kind (p : Price) : line_kind :=
  if String.eqb (pr_Type p) PriceTypeRecurring || String.eqb (pr_Type p) "" then Recurring
  else if String.eqb (pr_Type p) PriceTypeOneTime then OneTime else OtherKind.
Definition resolve_line (item : LineItem) : res checkout_error (SessionLineItem * line_kind) :=
  match li_CustomAmount item with
  | Some ca =>
      if negb (String.eqb (li_PriceKey item) "") then Err ErrCustomAmountAndPrice
      else match validateCustomAmount ca with
           | Some e => Err e
           | None => Ok (mkSessionLine "" (line_quantity item) (Some ca), OneTime)
           end
  | None =>
      match splitPriceKey (li_PriceKey item) with
      | None => Err (ErrPriceKeyNotFound (li_PriceKey item))
      | Some (productKey, priceKey) =>
          match Products spec !! productKey with
          | None => Err (ErrUnknownPriceInSpec productKey)
          | Some product =>
              match p_Prices product !! priceKey with
              | None => Err (ErrUnknownPriceInSpec priceKey)
              | Some specPrice =>
                  let namespaced := NamespacedPriceKey spec productKey priceKey in
                  match resolver namespaced with
                  | None => Err (ErrPriceKeyNotFound namespaced)
                  | Some stripeID => Ok (mkSessionLine stripeID (line_quantity item) None, price_kind specPrice)
                  end
              end
          end
      end
  end.
(** The loop over the items: the lines so far, and the two flags. *)
Fixpoint resolve_lines (items : list LineItem) (out : list SessionLineItem) (sawRecurring sawOneTime : bool)
  : res checkout_error (list SessionLineItem * bool * bool) :=
  match items with
  | [] => Ok (out, sawRecurring, sawOneTime)
  | item :: rest =>
      match resolve_line item with
      | Err e => Err e
      | Ok (line, k) =>
          resolve_lines rest (out ++ [line])
            (match k with Recurring => true | _ => sawRecurring end)
            (match k with OneTime => true | _ => sawOneTime end)
      end
  end.
Definition resolveLineItems (items : list LineItem) : res checkout_error (list SessionLineItem * Mode) :=
  match resolve_lines items [] false false with
  | Err e => Err e
  | Ok (out, sawRecurring, sawOneTime) =>
      if sawRecurring && sawOneTime then Err ErrMixedItemTypes
      else Ok (out, if (sawOneTime : bool) then ModePayment else ModeSubscription)
  end.

(** *** Metadata *)
Definition pending_grant (item : LineItem) : option PendingGrant :=
  match splitPriceKey (li_PriceKey item) with
  | None => None
  | Some (productKey, _) =>
      match Products spec !! productKey with
      | None => None
      | Some product =>
          match p_CreditGrant product with
          | None => None
          | Some cg => Some (mkPendingGrant (cg_Bucket cg) (cg_Amount cg) (cg_ValidDays cg) productKey (line_quantity item))
          end
      end
  end.
Definition collectPendingGrants (items : list LineItem) : list PendingGrant := omap pending_grant items.
Definition sessionMetadata (input : CheckoutInput) : res checkout_error smap :=
  let out := <["subject_id" := in_SubjectID input]> (<[MetadataKeyNamespace := ns]> (in_Metadata input)) in
  let out := if String.eqb (in_Actor input) "" then out else <["actor_id" := in_Actor input]> out in
  match collectPendingGrants (in_LineItems input) with
  | [] => Ok out
  | pending =>
      match EncodeSessionMetadata pending with
      | Err e => Err (ErrMetadata e)
      | Ok encoded => Ok (<[SessionMetadataKey := encoded]> out)
      end
  end.

(** *** Sessions *)
Context {C B : Type} `{CustomerRepo C} `{CheckoutBackend B}.
Abbreviation world := (C * B)%type.
Definition resolveCustomer (subject email : string) (w : world) : res checkout_error string * world :=
  let '(c, b) := w in
  match cu_Get subject c with
  | (Err e, c') => (Err (ErrCustomersGet e), (c', b))
  | (Ok (Some id), c') => (Ok id, (c', b))
  | (Ok None, c') =>
      match bk_CreateCustomer (mkCustomerCreate subject email
              (<["subject_id" := subject]> {[MetadataKeyNamespace := ns]})) b with
      | (Err e, b') => (Err (ErrCreateCustomer e), (c', b'))
      | (Ok created, b') =>
          match cu_Upsert subject created c' with
          | (Some e, c'') => (Err (ErrCustomersUpsert e), (c'', b'))
          | (None, c'') => (Ok created, (c'', b'))
          end
      end
  end.
Definition check_trial (trialDays : Z) (mode : Mode) : option checkout_error :=
  if trialDays =? 0 then None
  else if (trialDays <? 1) || (730 <? trialDays) then Some ErrTrialDaysOutOfRange
  else if bool_decide (mode = ModeSubscription) then None else Some ErrTrialOnPayment.
Definition session_params (input : CheckoutInput) (customerID : string) (mode : Mode) (lines : list SessionLineItem)
    (metadata : smap) : SessionCreate :=
  mkSessionCreate customerID mode lines (in_SuccessURL input) (in_CancelURL input) (in_Actor input) (in_PromoCode input)
    (in_PromoCodeID input) metadata (in_PaymentMethods input) (in_UIMode input) (in_ReturnURL input) (in_Defaults input)
    (in_TrialDays input) (in_Locale input).
Definition CreateSession (input : CheckoutInput) (w : world) : res checkout_error CheckoutSession * world :=
  match validateInput input with
  | Some e => (Err e, w)
  | None =>
      match resolveLineItems (in_LineItems input) with
      | Err e => (Err e, w)
      | Ok (lines, mode) =>
          match check_trial (in_TrialDays input) mode with
          | Some e => (Err e, w)
          | None =>
              match resolveCustomer (in_SubjectID input) (in_CustomerEmail input) w with
              | (Err e, w') => (Err e, w')
              | (Ok customerID, (c, b)) =>
                  match sessionMetadata input with
                  | Err e => (Err e, (c, b))
                  | Ok metadata =>
                      match bk_CreateCheckoutSession (session_params input customerID mode lines metadata) b with
                      | (Err e, b') => (Err (ErrBackend e), (c, b'))
                      | (Ok s, b') => (Ok s, (c, b'))
                      end
                  end
              end
          end
      end
  end.

(** ** The portal (portal.go) *)
Definition check_portal (input : PortalInput) : option checkout_error :=
  if String.eqb (pi_SubjectID input) "" then Some ErrPortalSubjectMissing
  else if String.eqb (pi_ReturnURL input) "" then Some ErrPortalReturnURLMissing
  else match pi_Flow input with
       | None => None
       | Some f =>
           match pf_Type f with
           | PortalFlowOther _ => None
           | _ => if String.eqb (pf_SubscriptionID f) "" then Some ErrPortalFlowSubscriptionMissing else None
           end
       end.
Definition CreatePortalSession (input : PortalInput) (w : world) : res checkout_error PortalSession * world :=
  match check_portal input with
  | Some e => (Err e, w)
  | None =>
      let '(c, b) := w in
      match cu_Get (pi_SubjectID input) c with
      | (Err e, c') => (Err (ErrCustomersGet e), (c', b))
      | (Ok None, c') => (Err ErrPortalCustomerUnknown, (c', b))
      | (Ok (Some id), c') =>
          match bk_CreatePortalSession (mkPortalCreate id (pi_ReturnURL input) (pi_Flow input)) b with
          | (Err e, b') => (Err (ErrBackend e), (c', b'))
          | (Ok s, b') => (Ok s, (c', b'))
          end
      end
  end.
End checkout.

(** ** Customer balances (customer_balance.go): argument checks around one call *)
Record CustomerBalance := mkCustomerBalance { cb_StripeCustomerID : string; cb_Currency : string; cb_Balance : Z }.
Record CustomerBalanceTransaction := mkBalanceTx {
  bt_StripeID : string; bt_Type : string; bt_Amount : Z; bt_Currency : string; bt_Description : string;
  bt_InvoiceID : string; bt_CreatedAt : Z }.
Record CustomerBalanceBackend (B : Type) := mkBalanceBackend {
  bb_Adjust : string -> Z -> string -> string -> B -> res string CustomerBalanceTransaction * B;
  bb_Get : string -> B -> res string CustomerBalance;
  bb_List : string -> Z -> B -> res string (list CustomerBalanceTransaction) }.
Arguments bb_Adjust {B}. Arguments bb_Get {B}. Arguments bb_List {B}.
(** The backend may or may not implement the extension. *)
Definition AdjustCustomerBalance {B} (ext : option (CustomerBalanceBackend B)) (customerID : string) (amount : Z)
    (currency description : string) (b : B) : res string CustomerBalanceTransaction * B :=
  if String.eqb customerID "" then (Err "checkout.AdjustCustomerBalance: customerID is required", b)
  else if amount =? 0 then (Err "checkout.AdjustCustomerBalance: amount must be non-zero", b)
  else if String.eqb currency "" then (Err "checkout.AdjustCustomerBalance: currency is required", b)
  else match ext with
       | None => (Err "checkout: backend does not implement CustomerBalanceBackend", b)
       | Some be => bb_Adjust be customerID amount currency description b
       end.
Definition GetCustomerBalance {B} (ext : option (CustomerBalanceBackend B)) (customerID : string) (b : B)
  : res string CustomerBalance :=
  if String.eqb customerID "" then Err "checkout.GetCustomerBalance: customerID is required"
  else match ext with
       | None => Err "checkout: backend does not implement CustomerBalanceBackend"
       | Some be => bb_Get be customerID b
       end.
Definition ListCustomerBalanceTransactions {B} (ext : option (CustomerBalanceBackend B)) (customerID : string) (limit : Z) (b : B)
  : res string (list CustomerBalanceTransaction) :=
  if String.eqb customerID "" then Err "checkout.ListCustomerBalanceTransactions: customerID is required"
  else match ext with
       | None => Err "checkout: backend does not implement CustomerBalanceBackend"
       | Some be => bb_List be customerID limit b
       end.
