(* ===== verification/CheckoutFacts.v ===== *)
(** * CheckoutFacts: what a session is made of, the customer it is for, and the credits
      it leads to. *)
From S2P Require Import Prelude Postgres Json Events Credits CatalogSpec CreditHandlers CreditHandlerFacts Checkout.
From S2P Require Import CreditsMemory.
Import Memory.

Section lines.
Context (spec : Spec) (resolver : string -> option string).

(** Every line stands for an item: a catalog price under its Stripe id, or an amount the
    customer chooses; with the quantity of the item, one where it was left out. *)
Definition line_stands_for (item : LineItem) (line : SessionLineItem) : Prop :=
  sl_Quantity line = line_quantity item /\
  match li_CustomAmount item with
  | Some ca => li_PriceKey item = "" /\ validateCustomAmount ca = None /\ sl_CustomAmount line = Some ca /\ sl_StripePriceID line = ""
  | None => exists productKey priceKey product price,
      splitPriceKey (li_PriceKey item) = Some (productKey, priceKey) /\
      Products spec !! productKey = Some product /\ p_Prices product !! priceKey = Some price /\
      resolver (NamespacedPriceKey spec productKey priceKey) = Some (sl_StripePriceID line) /\ sl_CustomAmount line = None
  end.
(** The kind of an item, by the catalog. *)
Definition item_kind (item : LineItem) : line_kind :=
  match li_CustomAmount item with
  | Some _ => OneTime
  | None =>
      match splitPriceKey (li_PriceKey item) with
      | None => OtherKind
      | Some (productKey, priceKey) =>
          match Products spec !! productKey with
          | None => OtherKind
          | Some product => match p_Prices product !! priceKey with None => OtherKind | Some price => price_kind price end
          end
      end
  end.

Lemma resolve_line_ok item line k :
  resolve_line spec resolver item = Ok (line, k) -> line_stands_for item line /\ k = item_kind item.
Proof.
  unfold resolve_line, line_stands_for, item_kind. destruct (li_CustomAmount item) as [ca|].
  - destruct (String.eqb_spec (li_PriceKey item) ""); [|done]. cbn. destruct (validateCustomAmount ca) eqn:E; [done|]. by intros [= <- <-].
  - destruct (splitPriceKey (li_PriceKey item)) as [[pk prk]|]; [|done]. destruct (Products spec !! pk) as [product|] eqn:Ep; [|done].
    destruct (p_Prices product !! prk) as [price|] eqn:Epr; [|done]. cbn. destruct (resolver _) as [id|] eqn:Er; [|done].
    intros [= <- <-]. split; [|done]. split; [done|]. by exists pk, prk, product, price.
Qed.
Definition saw (k : line_kind) (items : list LineItem) : bool :=
  existsb (fun item => match item_kind item, k with Recurring, Recurring | OneTime, OneTime => true | _, _ => false end) items.
Lemma resolve_lines_ok items out r o lines r' o' :
  resolve_lines spec resolver items out r o = Ok (lines, r', o') ->
  exists new, lines = out ++ new /\ Forall2 line_stands_for items new /\
    r' = r || saw Recurring items /\ o' = o || saw OneTime items.
Proof.
  revert out r o. induction items as [|item items IH]; intros out r o; cbn [resolve_lines].
  - intros [= <- <- <-]. exists []. rewrite app_nil_r, !orb_false_r. done.
  - destruct (resolve_line spec resolver item) as [[line k]|e] eqn:E; [|done]. intros (new & -> & Hf & -> & ->)%IH.
    destruct (resolve_line_ok item line k E) as [Hl ->]. exists (line :: new). rewrite <- app_assoc. split_and!; [done|by constructor|..];
      cbn; destruct (item_kind item); cbn; rewrite ?orb_true_l, ?orb_true_r; try done; by destruct r || by destruct o.
Qed.
Lemma resolveLineItems_ok items lines mode :
  resolveLineItems spec resolver items = Ok (lines, mode) ->
  Forall2 line_stands_for items lines /\ saw Recurring items && saw OneTime items = false /\
  mode = if saw OneTime items then ModePayment else ModeSubscription.
Proof.
  unfold resolveLineItems. destruct (resolve_lines spec resolver items [] false false) as [[[out r] o]|e] eqn:E; [|done].
  apply resolve_lines_ok in E as (new & -> & Hf & -> & ->). cbn [app orb]. destruct (_ && _) eqn:Em; [done|]. by intros [= <- <-].
Qed.
End lines.

Lemma sessionMetadata_ok ns spec input meta :
  sessionMetadata ns spec input = Ok meta ->
  mget meta MetadataKeyNamespace = ns /\ mget meta "subject_id" = in_SubjectID input /\
  match collectPendingGrants spec (in_LineItems input) with
  | [] => mget meta SessionMetadataKey = mget (in_Metadata input) SessionMetadataKey
  | pending => EncodeSessionMetadata pending = Ok (mget meta SessionMetadataKey)
  end.
Proof.
  unfold sessionMetadata, mget. destruct (collectPendingGrants spec _) as [|g gs].
  - intros [= <-]. destruct (String.eqb (in_Actor input) ""); by simplify_map_eq.
  - destruct (EncodeSessionMetadata (g :: gs)) as [v|e]; [|done]. intros [= <-].
    destruct (String.eqb (in_Actor input) ""); by simplify_map_eq.
Qed.

Section sessions.
Context (ns : string) (spec : Spec) (resolver : string -> option string).
Context {C B : Type} `{CustomerRepo C} `{CheckoutBackend B}.

Lemma CreateSession_inv input w s c' b' :
  CreateSession ns spec resolver input w = (Ok s, (c', b')) ->
  exists lines mode id meta b1, validateInput input = None /\
    resolveLineItems spec resolver (in_LineItems input) = Ok (lines, mode) /\ check_trial (in_TrialDays input) mode = None /\
    resolveCustomer ns (in_SubjectID input) (in_CustomerEmail input) w = (Ok id, (c', b1)) /\
    sessionMetadata ns spec input = Ok meta /\
    bk_CreateCheckoutSession (session_params input id mode lines meta) b1 = (Ok s, b').
Proof.
  unfold CreateSession. destruct (validateInput input); [done|].
  destruct (resolveLineItems spec resolver (in_LineItems input)) as [[lines mode]|e] eqn:El; [|done].
  destruct (check_trial (in_TrialDays input) mode) eqn:Et; [done|].
  destruct (resolveCustomer ns _ _ w) as [[id|e] [c1 b1]] eqn:Ec; [|done].
  destruct (sessionMetadata ns spec input) as [meta|e] eqn:Em; [|done].
  destruct (bk_CreateCheckoutSession _ b1) as [[s'|e] b2] eqn:Eb; [|done]. intros [= -> -> ->].
  by exists lines, mode, id, meta, b1.
Qed.
Lemma check_trial_ok days mode : check_trial days mode = None -> days <> 0 -> 1 <= days <= 730 /\ mode = ModeSubscription.
Proof.
  unfold check_trial. intros Et Hne. rewrite (proj2 (Z.eqb_neq _ _) Hne) in Et.
  destruct (_ || _) eqn:Eo; [done|]. apply orb_false_iff in Eo as [?%Z.ltb_ge ?%Z.ltb_ge]. destruct (bool_decide _) eqn:Eb'; [|done].
  apply bool_decide_eq_true in Eb'. split; [lia|done].
Qed.

(** C19: A session says what was asked for. When a session is created, Stripe was called for it
    once, last, with a line for every item in order, in the mode of its prices (never
    recurring and one-time items together), a trial only for a subscription and
    within its bounds, the customer of the subject, and metadata that names the application
    and the subject whatever the caller passed. *)
Theorem CreateSession_correct input w s c' b' :
  CreateSession ns spec resolver input w = (Ok s, (c', b')) ->
  exists p b1, bk_CreateCheckoutSession p b1 = (Ok s, b') /\
    resolveCustomer ns (in_SubjectID input) (in_CustomerEmail input) w = (Ok (sc_StripeCustomerID p), (c', b1)) /\
    Forall2 (line_stands_for spec resolver) (in_LineItems input) (sc_LineItems p) /\
    saw spec Recurring (in_LineItems input) && saw spec OneTime (in_LineItems input) = false /\
    sc_Mode p = (if saw spec OneTime (in_LineItems input) then ModePayment else ModeSubscription) /\
    (sc_TrialDays p <> 0 -> 1 <= sc_TrialDays p <= 730 /\ sc_Mode p = ModeSubscription) /\
    mget (sc_Metadata p) MetadataKeyNamespace = ns /\ mget (sc_Metadata p) "subject_id" = in_SubjectID input.
Proof.
  intros (lines & mode & id & meta & b1 & _ & El & Et & Ec & Em & Eb)%CreateSession_inv.
  apply resolveLineItems_ok in El as (Hl & Hmix & Hmode). apply sessionMetadata_ok in Em as (Hns & Hsub & _).
  eexists _, b1. split_and!; [exact Eb|done|done|done|done|by apply check_trial_ok|done|done].
Qed.

(** Input that is refused costs nothing: when the checks of the input, of its items or of
    its trial fail, the error is theirs and neither the customers nor Stripe are
    touched. *)
Theorem refused_untouched input w e :
  validateInput input = Some e \/
  validateInput input = None /\ resolveLineItems spec resolver (in_LineItems input) = Err e \/
  (exists lines mode, validateInput input = None /\ resolveLineItems spec resolver (in_LineItems input) = Ok (lines, mode) /\
     check_trial (in_TrialDays input) mode = Some e) ->
  CreateSession ns spec resolver input w = (Err e, w).
Proof.
  unfold CreateSession. intros [->|[[-> ->]|(lines & mode & -> & -> & ->)]]; done.
Qed.
End sessions.

(** ** One customer per subject *)
Section customers.
Context (ns : string) (spec : Spec) (resolver : string -> option string) {B : Type} `{CheckoutBackend B}.

(** A backend that notes the customers it has created. *)
Record noting := mkNoting { nt_backend : B; nt_created : list (string * string) }.
#[local] Instance noting_backend : CheckoutBackend noting := {
  bk_CreateCustomer cc b :=
    let '(r, b') := bk_CreateCustomer cc (nt_backend b) in
    (r, mkNoting b' (match r with Ok id => nt_created b ++ [(cc_SubjectID cc, id)] | Err _ => nt_created b end));
  bk_CreateCheckoutSession p b := let '(r, b') := bk_CreateCheckoutSession p (nt_backend b) in (r, mkNoting b' (nt_created b));
  bk_CreatePortalSession p b := let '(r, b') := bk_CreatePortalSession p (nt_backend b) in (r, mkNoting b' (nt_created b));
}.
Definition customers_ok (w : memoryCustomerRepo * noting) : Prop :=
  NoDup (map fst (nt_created (snd w))) /\ forall s id, mc_m (fst w) !! s = Some id <-> (s, id) ∈ nt_created (snd w).
Lemma resolveCustomer_ok subject email w :
  customers_ok w -> customers_ok (snd (resolveCustomer ns subject email w)).
Proof.
  destruct w as [[m] [b l]]. intros [Hnd Hm]. unfold resolveCustomer. cbn in *. destruct (mc_Get subject (mkMemoryCustomers m)) as [id|] eqn:Eg; [by split|].
  destruct (bk_CreateCustomer _ b) as [[id|e] b']; cbn; [|by split]. unfold mc_Get in Eg. cbn in Eg.
  assert (Hn : subject ∉ map fst l).
  { intros ([s id'] & -> & Hin)%list_elem_of_fmap. apply Hm in Hin. cbn in Eg. congruence. }
  split; cbn.
  - rewrite map_app. apply NoDup_app. split_and!; [done| |apply NoDup_singleton]. by intros s Hs ->%list_elem_of_singleton.
  - intros s id'. rewrite lookup_insert_Some, elem_of_app, list_elem_of_singleton, Hm. split.
    + intros [[-> ->]|[_ ?]]; [by right|by left].
    + intros [Hin|[= -> ->]]; [|by left]. right. split; [|done]. intros ->. apply Hn, list_elem_of_fmap. by exists (s, id').
Qed.
Lemma CreateSession_customers input w : customers_ok w -> customers_ok (snd (CreateSession ns spec resolver input w)).
Proof.
  intros Hok. unfold CreateSession. destruct (validateInput input); [done|]. destruct (resolveLineItems _ _ _) as [[lines mode]|e]; [|done].
  destruct (check_trial _ _); [done|]. pose proof (resolveCustomer_ok (in_SubjectID input) (in_CustomerEmail input) w Hok) as Hok'.
  destruct (resolveCustomer ns _ _ w) as [[id|e] [c [b l]]]; [|done]. cbn in *. destruct (sessionMetadata ns spec input); [|done].
  by destruct (bk_CreateCheckoutSession _ b) as [[s|e] b'].
Qed.

(** C20: A subject has one customer. With the in-memory repository, whose writes do not fail,
    and from an empty one, any checkouts one after the other, failed ones included, make
    Stripe create at most one customer for each subject, and the stored mapping is exactly
    that of the customers it created. *)
Theorem one_customer_per_subject inputs b :
  let w := foldl (fun w input => snd (CreateSession ns spec resolver input w)) (NewMemoryCustomerRepo, mkNoting b []) inputs in
  NoDup (map fst (nt_created (snd w))) /\
  forall s id, mc_m (fst w) !! s = Some id <-> (s, id) ∈ nt_created (snd w).
Proof.
  cbn zeta. assert (Hok : customers_ok (NewMemoryCustomerRepo, mkNoting b [])).
  { split; [constructor|]. intros s id. cbn. rewrite lookup_empty. split; [done|]. by intros ?%not_elem_of_nil. }
  revert Hok. generalize (NewMemoryCustomerRepo, mkNoting b []). induction inputs as [|input inputs IH]; intros w Hok; [done|].
  cbn. apply IH, CreateSession_customers, Hok.
Qed.
End customers.

(** ** From the checkout to the ledger *)
Section credited.
Context (ns : string) (spec : Spec) (resolver : string -> option string).
Context {C B : Type} `{CustomerRepo C} `{CheckoutBackend B} {S : Type} `{GrantLaws S}.

(** What the session of an order carries to the webhook handler. *)
Lemma CreateSession_carries input w s w' :
  CreateSession ns spec resolver input w = (Ok s, w') ->
  Forall pending_ok (collectPendingGrants spec (in_LineItems input)) ->
  exists p b1, bk_CreateCheckoutSession p b1 = (Ok s, snd w') /\ sessionMetadata ns spec input = Ok (sc_Metadata p) /\
    (collectPendingGrants spec (in_LineItems input) <> [] ->
     DecodeSessionMetadata (mget (sc_Metadata p) SessionMetadataKey) = Ok (collectPendingGrants spec (in_LineItems input))) /\
    mget (sc_Metadata p) "subject_id" = in_SubjectID input /\ in_SubjectID input <> "".
Proof.
  destruct w' as [c' b']. intros (lines & mode & id & meta & b1 & Hv & El & Et & Ec & Em & Eb)%CreateSession_inv Hpo.
  pose proof Em as (_ & Hsub & Hpend)%sessionMetadata_ok. eexists _, b1. split; [exact Eb|]. split; [done|]. cbn.
  split; [|split; [done|]].
  - destruct (collectPendingGrants spec (in_LineItems input)) as [|g0 gs]; [done|]. intros _. by apply decode_encode_metadata.
  - unfold validateInput in Hv. by destruct (String.eqb_spec (in_SubjectID input) "").
Qed.

(** What was bought is credited: if a checkout session was created for items that
    carry credits, and Stripe reports the session as completed with the metadata it was
    created with, then the webhook handler succeeds and every unit of every such item is
    on the books of the subject, each under a reference of its own, and with its amount
    unless the reference was there before. *)
Theorem purchase_is_credited input w s w' st evt session ledger :
  CreateSession ns spec resolver input w = (Ok s, w') ->
  Forall pending_ok (collectPendingGrants spec (in_LineItems input)) ->
  Forall (session_ok (in_SubjectID input)) (collectPendingGrants spec (in_LineItems input)) ->
  exists p b1, bk_CreateCheckoutSession p b1 = (Ok s, snd w') /\ sessionMetadata ns spec input = Ok (sc_Metadata p) /\
    (ev_Type evt = "checkout.session.completed" -> decodeSession evt = Some session -> ss_Metadata session = sc_Metadata p ->
     gl_ok ledger -> (forall i u, fresh_env (st i u)) ->
     let r := ApplyGrantsFromSession st evt ledger in
     forall i g u, collectPendingGrants spec (in_LineItems input) !! i = Some g -> (u < units g)%nat ->
       fst r = None /\ gl_has (snd r) (in_SubjectID input) (pg_Bucket g) (session_ref session i u) /\
       (~ gl_has ledger (in_SubjectID input) (pg_Bucket g) (session_ref session i u) ->
        gl_worth (snd r) (in_SubjectID input) (pg_Bucket g) (session_ref session i u) (pg_Amount g))).
Proof.
  intros E Hpo Hso. destruct (CreateSession_carries input w s w' E Hpo) as (p & b1 & Eb & Em & Hdec & Hsub & Hne).
  exists p, b1. split; [exact Eb|]. split; [done|].
  intros Ht Hd Hmeta Hok Hst. cbn zeta. intros i g u Hi Hu. rewrite <- Hmeta in Hdec, Hsub.
  specialize (Hdec ltac:(by intros E0; rewrite E0 in Hi)).
  rewrite <- Hsub. eapply session_grants_each; try done; [|congruence].
  intros session' grants' Hd' Hg'. rewrite Hd in Hd'. injection Hd' as <-. rewrite Hdec in Hg'. injection Hg' as <-. by rewrite Hsub.
Qed.
End credited.

Module CheckoutDemo.
Import HandlerDemo.
(** Stripe, for evaluation: the sessions it was asked for. *)
#[export] Instance demo_backend : CheckoutBackend (list SessionCreate) := {
  bk_CreateCustomer cc b := (Ok ("cus_" ^^ cc_SubjectID cc), b);
  bk_CreateCheckoutSession p b := (Ok (mkCheckoutSession "cs_1" "https://pay" ""), p :: b);
  bk_CreatePortalSession p b := (Ok (mkPortalSession "bps_1" "https://portal"), b);
}.
Definition demo_spec : Spec :=
  mkSpec "demo" {["starter" := mkProduct "Starter" "" "" {["once" := mkPrice 900 "eur" "one_time" "" 0 "" "" []]}
                   (Some (mkCreditGrant "api" 500 30)) None ∅]} ∅ ∅.
Definition demo_resolver (k : string) : option string := if String.eqb k "demo.starter.once" then Some "price_1" else None.
Definition no_defaults : SessionDefaults := mkSessionDefaults None None "" "" "" None None.
Definition order : CheckoutInput :=
  mkCheckoutInput "user_1" "" "a@b.c" [mkLineItem "starter.once" 2 None] "https://ok" "https://no" "" "" ∅ [] "" "" no_defaults 0 "".
Definition made : res checkout_error CheckoutSession * (memoryCustomerRepo * list SessionCreate) :=
  CreateSession "demo" demo_spec demo_resolver order (NewMemoryCustomerRepo, []).
Definition demo_session : CheckoutSession := mkCheckoutSession "cs_1" "https://pay" "".
Definition demo_params : SessionCreate :=
  session_params order "cus_user_1" ModePayment [mkSessionLine "price_1" 2 None]
    (<[SessionMetadataKey := render (JArr [enc_PendingGrant pack])]> (<["subject_id" := "user_1"]> {[MetadataKeyNamespace := "demo"]})).
Lemma made_eq : made = (Ok demo_session, (mkMemoryCustomers {["user_1" := "cus_user_1"]}, [demo_params])).
Proof. vm_compute. reflexivity. Qed.
Definition paid_payload : string :=
  render (JObj [("id", JStr "cs_1"); ("payment_intent", JStr "pi_1");
    ("metadata", JObj [(MetadataKeyNamespace, JStr "demo"); ("subject_id", JStr "user_1");
       (SessionMetadataKey, JStr (render (JArr [enc_PendingGrant pack])))])]).
Definition paid : Event :=
  fromStripeEvent (mkStripeEvent "evt_9" "checkout.session.completed" true 1779885296 (Some paid_payload)).
Definition paid_session : sessionShape := mkSession "cs_1" (sc_Metadata demo_params) "pi_1".
Lemma paid_decodes : decodeSession paid = Some paid_session.
Proof. vm_compute. reflexivity. Qed.
Lemma order_pending : collectPendingGrants demo_spec (in_LineItems order) = [pack].
Proof. vm_compute. reflexivity. Qed.
Lemma purchase_is_credited_witness :
  let r := ApplyGrantsFromSession (fun _ _ => env 100) paid NewMemoryRepo in
  fst r = None /\ exists g, g ∈ grants_of (snd r) "user_1" /\ g_Bucket g = "api" /\ g_SourceRef g = "pi_1:0:1".
Proof.
  destruct (purchase_is_credited "demo" demo_spec demo_resolver order (NewMemoryCustomerRepo, []) demo_session
    (mkMemoryCustomers {["user_1" := "cus_user_1"]}, [demo_params]) (fun _ _ => env 100) paid paid_session NewMemoryRepo)
    as (p & b1 & Ep & _ & Hr).
  - exact made_eq.
  - rewrite order_pending. repeat constructor; cbn; unfold int64_min, int64_max; lia.
  - rewrite order_pending. constructor; [|constructor]. intros ref m _. split; [split; reflexivity|]. cbn. unfold int64_max. lia.
  - injection Ep as -> _.
    destruct (Hr eq_refl paid_decodes eq_refl empty_ok (fun _ _ => env_fresh 100) 0%nat pack 1%nat) as (H1 & H2 & _);
      [by rewrite order_pending|vm_compute; lia|by split].
Defined.
Lemma CreateSession_correct_witness :
  fst made = Ok demo_session /\ exists p b1, bk_CreateCheckoutSession p b1 = (Ok demo_session, [demo_params]) /\
    sc_Mode p = (if saw demo_spec OneTime (in_LineItems order) then ModePayment else ModeSubscription).
Proof.
  split; [by rewrite made_eq|].
  destruct (CreateSession_correct "demo" demo_spec demo_resolver order (NewMemoryCustomerRepo, []) demo_session _ _ made_eq)
    as (p & b1 & Ep & _ & _ & _ & Hm & _). by exists p, b1.
Defined.
End CheckoutDemo.
