(* ===== verification/Webhooks.v ===== *)
(** * Webhooks: receiving, deduplicating and dispatching events
      (src/webhooks/handler.go, handlers.go, async.go, eventlog.go).

    [Handle] and [ProcessQueued] are programs: trees whose nodes are the calls they
    make to the idempotency store, the application's handlers, the event log and the
    queue, in the order of the code, each with a continuation for every answer. The
    same program is run to the end by [exec], and interleaved with other deliveries
    by the step relation of WebhookFacts.v. The signature check and the decoding of
    a Stripe event belong to stripe-go and are parameters, as are the application's
    handlers; the verdict of the source-address filter is part of the request.
    Logging through slog is left out. *)
From S2P Require Import Prelude Json Events.

(** ** What the programs talk to *)

(** Errors of the idempotency store; [ErrLockLost] is told apart. *)
Inductive store_error := ErrLockLost | ErrStore (msg : string).
#[export] Instance store_error_eq_dec : EqDecision store_error.
Proof. solve_decision. Defined.

(** [idempotency.CachedResponse], of which the status code is used. *)
Record CachedResponse := mkCached { cr_StatusCode : Z }.
Definition okResponse : CachedResponse := mkCached 200.

(** One row of the event log (eventlog.go). *)
Record LoggedEvent := mkLogged {
  lg_EventID : string;
  lg_EventType : string;
  lg_Status : string;
  lg_LastError : string;
  lg_AttemptCount : Z;
  lg_ReceivedAt : Z;
  lg_ProcessedAt : option Z;
  lg_Payload : string;
  lg_Namespace : string;
}.
Definition LoggedEvent_zero : LoggedEvent := mkLogged "" "" "" "" 0 time_zero None "" "".

(** One queued event (async.go). *)
Record QueueItem := mkItem {
  qi_EventID : string;
  qi_EventType : string;
  qi_Namespace : string;
  qi_Body : string;
  qi_Token : string;
}.

(** Programs over handlers of type [H] that return an [A]. *)
Inductive prog (H A : Type) : Type :=
| Ret (a : A)
| Get (id : string) (k : res store_error (option CachedResponse) -> prog H A)
| TryLock (id : string) (k : res store_error (string * bool * bool) -> prog H A)
| SetDone (id token : string) (k : option store_error -> prog H A)
| Unlock (id token : string) (k : option store_error -> prog H A)
| Run (h : H) (evt : Event) (k : option string -> prog H A)
| Exhausted (h : H) (e : LoggedEvent) (k : option string -> prog H A)
| LogGet (id : string) (k : res string (option LoggedEvent) -> prog H A)
| LogRecord (e : LoggedEvent) (k : option string -> prog H A)
| Enqueue (item : QueueItem) (k : option string -> prog H A)
| Now (k : Z -> prog H A).
Arguments Ret {H A}. Arguments Get {H A}. Arguments TryLock {H A}. Arguments SetDone {H A}.
Arguments Unlock {H A}. Arguments Run {H A}. Arguments Exhausted {H A}. Arguments LogGet {H A}.
Arguments LogRecord {H A}. Arguments Enqueue {H A}. Arguments Now {H A}.

Fixpoint bind {H A B} (p : prog H A) (f : A -> prog H B) : prog H B :=
  match p with
  | Ret a => f a
  | Get id k => Get id (fun r => bind (k r) f)
  | TryLock id k => TryLock id (fun r => bind (k r) f)
  | SetDone id t k => SetDone id t (fun r => bind (k r) f)
  | Unlock id t k => Unlock id t (fun r => bind (k r) f)
  | Run h e k => Run h e (fun r => bind (k r) f)
  | Exhausted h e k => Exhausted h e (fun r => bind (k r) f)
  | LogGet id k => LogGet id (fun r => bind (k r) f)
  | LogRecord e k => LogRecord e (fun r => bind (k r) f)
  | Enqueue i k => Enqueue i (fun r => bind (k r) f)
  | Now k => Now (fun r => bind (k r) f)
  end.
Declare Scope prog_scope.
Delimit Scope prog_scope with prog.
Notation "x <- p ;; q" := (bind p (fun x => q)) (at level 100, p at next level, right associativity) : prog_scope.
Notation "p ;; q" := (bind p (fun _ => q)) (at level 100, right associativity) : prog_scope.
Open Scope prog_scope.

(** ** Configuration (handler.go, handlers.go) *)
Section webhooks.
Context {H : Type}.

Record Handlers := mkHandlers {
  OnCheckoutCompleted : option H;
  OnPaymentSucceeded : option H;
  OnPaymentFailed : option H;
  OnInvoicePaid : option H;
  OnInvoicePaymentFailed : option H;
  OnSubscriptionCreated : option H;
  OnSubscriptionUpdated : option H;
  OnSubscriptionCanceled : option H;
  OnSubscriptionTrialWillEnd : option H;
  OnRefundCreated : option H;
  OnRefundFailed : option H;
  OnCustomerBalanceFunded : option H;
  OnDisputeCreated : option H;
  OnDisputeUpdated : option H;
  OnDisputeClosed : option H;
  OnDisputeFundsWithdrawn : option H;
  OnDisputeFundsReinstated : option H;
  OnOtherEvent : option H;
}.

Record EventPolicy := mkPolicy { pol_MaxAttempts : Z; pol_OnExhausted : option H }.

Record Webhooks := mkWebhooks {
  w_signingSecret : string;
  w_additionalSecrets : list string;
  w_namespace : string;
  w_handlers : Handlers;
  w_customHandlers : gmap string H;
  (** whether an event log and a queue are configured *)
  w_eventLog : bool;
  w_queue : bool;
  w_perEventPolicy : gmap string EventPolicy;
  w_maxBodyBytes : Z;
}.

(** The request as far as [Handle] looks at it. *)
Record Request := mkRequest {
  (** the verdict of the source-address filter, when one is configured *)
  rq_source_allowed : bool;
  rq_body : string;
  rq_read_error : bool;
  rq_signature : string;
}.

(** ** Registration *)
Definition set_custom (w : Webhooks) (m : gmap string H) : Webhooks :=
  mkWebhooks (w_signingSecret w) (w_additionalSecrets w) (w_namespace w) (w_handlers w) m
    (w_eventLog w) (w_queue w) (w_perEventPolicy w) (w_maxBodyBytes w).
Definition Register (eventType : string) (fn : option H) (w : Webhooks) : Webhooks :=
  if String.eqb eventType "" then w
  else match fn with
       | None => set_custom w (delete eventType (w_customHandlers w))
       | Some h => set_custom w (<[eventType := h]> (w_customHandlers w))
       end.
Definition SetQueue (configured : bool) (w : Webhooks) : Webhooks :=
  mkWebhooks (w_signingSecret w) (w_additionalSecrets w) (w_namespace w) (w_handlers w)
    (w_customHandlers w) (w_eventLog w) configured (w_perEventPolicy w) (w_maxBodyBytes w).

(** ** Dispatch (handlers.go) *)
Definition runIfSet (evt : Event) (fn : option H) : prog H (option string) :=
  match fn with None => Ret None | Some h => Run h evt Ret end.

Definition typed_handler (h : Handlers) (type : string) : option H :=
  let eq := String.eqb type in
  if eq "checkout.session.completed" then OnCheckoutCompleted h
  else if eq "payment_intent.succeeded" then OnPaymentSucceeded h
  else if eq "payment_intent.payment_failed" then OnPaymentFailed h
  else if eq "invoice.paid" || eq "invoice.payment_succeeded" then OnInvoicePaid h
  else if eq "invoice.payment_failed" then OnInvoicePaymentFailed h
  else if eq "customer.subscription.created" then OnSubscriptionCreated h
  else if eq "customer.subscription.updated" then OnSubscriptionUpdated h
  else if eq "customer.subscription.deleted" then OnSubscriptionCanceled h
  else if eq "customer.subscription.trial_will_end" then OnSubscriptionTrialWillEnd h
  else if eq "charge.refunded" || eq "refund.created" then OnRefundCreated h
  else if eq "refund.failed" || eq "charge.refund.updated" then OnRefundFailed h
  else if eq "customer_balance_funds_reinstated" || eq "customer_balance_transaction.created"
       then OnCustomerBalanceFunded h
  else if eq "charge.dispute.created" then OnDisputeCreated h
  else if eq "charge.dispute.updated" then OnDisputeUpdated h
  else if eq "charge.dispute.closed" then OnDisputeClosed h
  else if eq "charge.dispute.funds_withdrawn" then OnDisputeFundsWithdrawn h
  else if eq "charge.dispute.funds_reinstated" then OnDisputeFundsReinstated h
  else OnOtherEvent h.

Definition dispatchEvent (w : Webhooks) (evt : Event) : prog H (option string) :=
  match w_customHandlers w !! ev_Type evt with
  | Some fn => Run fn evt Ret
  | None => runIfSet evt (typed_handler (w_handlers w) (ev_Type evt))
  end.

(** ** Event log and store helpers *)
Definition recordToLog (w : Webhooks) (e : LoggedEvent) : prog H unit :=
  if w_eventLog w then LogRecord e (fun _ => Ret tt) else Ret tt.
Definition eventLogGet (w : Webhooks) (id : string) : prog H (res string (option LoggedEvent)) :=
  if w_eventLog w then LogGet id Ret else Ret (Ok None).
(** The attempt count of the row, which is zero without one, also on an error. *)
Definition prev_attempts (r : res string (option LoggedEvent)) : Z :=
  match r with Ok (Some e) => lg_AttemptCount e | _ => 0 end.
Definition markProcessed (id token : string) : prog H unit :=
  SetDone id token (fun _ => Ret tt).

(** The rows [Handle] and [ProcessQueued] write. *)
Definition log_row (id type status err : string) (attempt : Z) (processed : option Z) (body ns : string)
  : LoggedEvent := mkLogged id type status err attempt time_zero processed body ns.

Section stripe.
(** stripe-go: [webhook.ConstructEventWithOptions] and the decoding of an event. *)
Context (ConstructEvent : string -> string -> string -> option stripe_event)
        (UnmarshalEvent : string -> res string stripe_event).

(** ** Signature verification *)
Fixpoint first_secret (body signature : string) (secrets : list string) : option stripe_event :=
  match secrets with
  | [] => None
  | alt :: rest =>
      if String.eqb alt "" then first_secret body signature rest
      else match ConstructEvent body signature alt with
           | Some evt => Some evt
           | None => first_secret body signature rest
           end
  end.
Definition verifySignature (w : Webhooks) (body signature : string) : option stripe_event :=
  match ConstructEvent body signature (w_signingSecret w) with
  | Some evt => Some evt
  | None => first_secret body signature (w_additionalSecrets w)
  end.

Definition writeReplay (cached : CachedResponse) : Z :=
  if cr_StatusCode cached =? 0 then 200 else cr_StatusCode cached.

(** ** Handle *)

(** The failure branch of a synchronous dispatch. *)
Definition dispatch_failed (w : Webhooks) (evt : Event) (token body ns err : string) : prog H Z :=
  prev <- eventLogGet w (ev_ID evt) ;;
  let attempt := prev_attempts prev + 1 in
  let row := log_row (ev_ID evt) (ev_Type evt) "failed" err attempt None body ns in
  let release :=
    Unlock (ev_ID evt) token (fun _ =>
      recordToLog w row ;;
      Ret 500) in
  match w_perEventPolicy w !! ev_Type evt with
  | Some policy =>
      if (0 <? pol_MaxAttempts policy) && (pol_MaxAttempts policy <=? attempt) then
        recordToLog w row ;;
        giveUpErr <- match pol_OnExhausted policy with
                     | None => Ret None
                     | Some f => Exhausted f row Ret
                     end ;;
        match giveUpErr with
        | None => markProcessed (ev_ID evt) token ;; Ret 200
        | Some _ => release
        end
      else release
  | None => release
  end.

Definition sync_dispatch (w : Webhooks) (evt : Event) (token body ns : string) : prog H Z :=
  dispatchErr <- dispatchEvent w evt ;;
  match dispatchErr with
  | Some err => dispatch_failed w evt token body ns err
  | None =>
      SetDone (ev_ID evt) token (fun _ =>
        Now (fun now =>
          recordToLog w (log_row (ev_ID evt) (ev_Type evt) "processed" "" 0 (Some now) body ns) ;;
          Ret 200))
  end.

(** What follows once the event is claimed. *)
Definition handle_claimed (w : Webhooks) (stripeEvent : stripe_event) (token body : string) : prog H Z :=
  let evt := fromStripeEvent stripeEvent in
  let id := ev_ID evt in
  let type := ev_Type evt in
  let ns := default "" (extractAppNamespace stripeEvent) in
  match classifyNamespace (w_namespace w) stripeEvent with
  | filterSkip =>
      markProcessed id token ;;
      recordToLog w (log_row id type "skipped" "" 0 None body ns) ;;
      Ret 200
  | filterUnrouted =>
      err <- runIfSet evt (OnOtherEvent (w_handlers w)) ;;
      match err with
      | Some err =>
          Unlock id token (fun _ =>
            recordToLog w (log_row id type "failed" err 1 None body ns) ;;
            Ret 500)
      | None =>
          markProcessed id token ;;
          Now (fun now =>
            recordToLog w (log_row id type "processed" "" 0 (Some now) body ns) ;;
            Ret 200)
      end
  | filterDispatch =>
      if w_queue w then
        recordToLog w (log_row id type "claimed" "" 0 None body ns) ;;
        Enqueue (mkItem id type ns body token) (fun r =>
          match r with
          | None => Ret 200
          | Some _ => sync_dispatch w evt token body ns
          end)
      else sync_dispatch w evt token body ns
  end.

Definition Handle (w : Webhooks) (r : Request) : prog H Z :=
  if negb (rq_source_allowed r) then Ret 403
  else if (0 <? w_maxBodyBytes w) && (w_maxBodyBytes w <? Z.of_nat (String.length (rq_body r)))
       then Ret 413
  else if rq_read_error r then Ret 400
  else match verifySignature w (rq_body r) (rq_signature r) with
  | None => Ret 400
  | Some stripeEvent =>
      let id := se_ID stripeEvent in
      Get id (fun got =>
        match got with
        | Err _ => Ret 500
        | Ok (Some cached) => Ret (writeReplay cached)
        | Ok None =>
            TryLock id (fun claim =>
              match claim with
              | Err _ => Ret 500
              | Ok (token, mismatch, ok) =>
                  if (mismatch : bool) then Ret 400
                  else if negb ok then Ret 200
                  else handle_claimed w stripeEvent token (rq_body r)
              end)
        end)
  end.

(** ** Queue workers *)
Inductive process_error := PermanentFailure | DispatchError (msg : string).

Definition markQueuedProcessed (w : Webhooks) (item : QueueItem) (status lastErr : string) (attempt : Z)
  : prog H unit :=
  SetDone (qi_EventID item) (qi_Token item) (fun _ =>
    Now (fun now =>
      recordToLog w (log_row (qi_EventID item) (qi_EventType item) status lastErr attempt
        (if String.eqb status "processed" then Some now else None) (qi_Body item) (qi_Namespace item)))).

Definition handleQueuedFailure (w : Webhooks) (item : QueueItem) (dispatchErr : string)
  : prog H (option process_error) :=
  prev <- eventLogGet w (qi_EventID item) ;;
  let attempt := prev_attempts prev + 1 in
  let lg := log_row (qi_EventID item) (qi_EventType item) "failed" dispatchErr attempt None
              (qi_Body item) (qi_Namespace item) in
  let release :=
    Unlock (qi_EventID item) (qi_Token item) (fun _ =>
      recordToLog w lg ;;
      Ret (Some (DispatchError dispatchErr))) in
  match w_perEventPolicy w !! qi_EventType item with
  | Some policy =>
      if (0 <? pol_MaxAttempts policy) && (pol_MaxAttempts policy <=? attempt) then
        giveUpErr <- match pol_OnExhausted policy with
                     | None => Ret None
                     | Some f => Exhausted f lg Ret
                     end ;;
        match giveUpErr with
        | None => markQueuedProcessed w item "failed" dispatchErr attempt ;; Ret None
        | Some _ => release
        end
      else release
  | None => release
  end.

Definition ProcessQueued (w : Webhooks) (item : QueueItem) : prog H (option process_error) :=
  match UnmarshalEvent (qi_Body item) with
  | Err err =>
      markQueuedProcessed w item "failed" err 1 ;;
      Ret (Some PermanentFailure)
  | Ok stripeEvent =>
      err <- dispatchEvent w (fromStripeEvent stripeEvent) ;;
      match err with
      | Some err => handleQueuedFailure w item err
      | None => markQueuedProcessed w item "processed" "" 1 ;; Ret None
      end
  end.

(** ** Replay *)
Inductive replay_error :=
| ErrEventLogNotConfigured | ErrLogGet (msg : string) | ErrEventNotInLog | ErrNoPayload
| ErrReplayUnmarshal | ErrReplayHandler (msg : string).

Definition ReplayEvent (w : Webhooks) (id : string) : prog H (option replay_error) :=
  if negb (w_eventLog w) then Ret (Some ErrEventLogNotConfigured)
  else LogGet id (fun r =>
    match r with
    | Err e => Ret (Some (ErrLogGet e))
    | Ok None => Ret (Some ErrEventNotInLog)
    | Ok (Some logged) =>
        if String.eqb (lg_Payload logged) "" then Ret (Some ErrNoPayload)
        else match UnmarshalEvent (lg_Payload logged) with
        | Err _ => Ret (Some ErrReplayUnmarshal)
        | Ok stripeEvent =>
            err <- dispatchEvent w (fromStripeEvent stripeEvent) ;;
            match err with Some e => Ret (Some (ErrReplayHandler e)) | None => Ret None end
        end
    end).
End stripe.
End webhooks.
Arguments Handlers : clear implicits.
Arguments EventPolicy : clear implicits.
Arguments Webhooks : clear implicits.
