(* ===== verification/WebhookWorld.v ===== *)
(** * WebhookWorld: the in-memory event log, the log throttle and the in-memory
      queue (src/webhooks/eventlog.go, handler.go, async.go), and a world in which
      the programs of Webhooks.v run to the end.

    [exec] runs a program against a reference store, the in-memory log, a queue and
    an application given by a function on its state. *)
From S2P Require Import Prelude Json Events Webhooks.

(** ** memoryLog (eventlog.go) *)
Module MemoryLog.
Abbreviation memoryLog := (gmap string LoggedEvent).

Definition log_Record (now : Z) (e : LoggedEvent) (m : memoryLog) : memoryLog :=
  let '(received, attempts) :=
    match m !! lg_EventID e with
    | Some existing =>
        (if IsZero (lg_ReceivedAt e) then lg_ReceivedAt existing else lg_ReceivedAt e,
         if lg_AttemptCount e =? 0 then lg_AttemptCount existing else lg_AttemptCount e)
    | None => (lg_ReceivedAt e, lg_AttemptCount e)
    end in
  let received := if IsZero received then now else received in
  <[lg_EventID e := mkLogged (lg_EventID e) (lg_EventType e) (lg_Status e) (lg_LastError e) attempts
      received (lg_ProcessedAt e) (lg_Payload e) (lg_Namespace e)]> m.

Definition log_Get (id : string) (m : memoryLog) : option LoggedEvent := m !! id.

Section range.
Context `{GoRuntime}.

Definition log_StuckEvents (minAttempts : Z) (m : memoryLog) : list LoggedEvent :=
  List.filter (fun e => negb (String.eqb (lg_Status e) "processed") && (minAttempts <=? lg_AttemptCount e))
    (map snd (map_range m)).

Fixpoint prune_loop (before : Z) (l : list (string * LoggedEvent)) (m : memoryLog) (n : Z)
  : Z * memoryLog :=
  match l with
  | [] => (n, m)
  | (id, e) :: l' =>
      if lg_ReceivedAt e <? before then prune_loop before l' (delete id m) (n + 1)
      else prune_loop before l' m n
  end.
Definition log_PruneOlderThan (before : Z) (m : memoryLog) : Z * memoryLog :=
  prune_loop before (map_range m) m 0.
End range.
End MemoryLog.
Import MemoryLog.

(** ** logRateLimiter (handler.go) *)
Record logRateLimiter := mkLimiter {
  lastSec : Z;
  emittedThisSec : Z;
  suppressed : Z;
  burstPerSec : Z;
}.
Definition logRateLimiter_zero : logRateLimiter := mkLimiter 0 0 0 0.
Definition defaultBurst : Z := 10.
Definition burst_of (l : logRateLimiter) : Z :=
  if burstPerSec l <=? 0 then defaultBurst else burstPerSec l.

Definition recordAndShouldLog (now : Z) (l : logRateLimiter) : Z * logRateLimiter :=
  let burst := burst_of l in
  let l := if now =? lastSec l then l
           else mkLimiter now 0 (suppressed l) (burstPerSec l) in
  if burst <=? emittedThisSec l then
    (-1, mkLimiter (lastSec l) (emittedThisSec l) (suppressed l + 1) (burstPerSec l))
  else
    (suppressed l, mkLimiter (lastSec l) (emittedThisSec l + 1) 0 (burstPerSec l)).

(** The answers to a sequence of calls. *)
Fixpoint limiter_run (times : list Z) (l : logRateLimiter) : list Z * logRateLimiter :=
  match times with
  | [] => ([], l)
  | t :: times' =>
      let '(a, l1) := recordAndShouldLog t l in
      let '(rest, l2) := limiter_run times' l1 in (a :: rest, l2)
  end.

(** ** The reference store and the world *)
Inductive slot := Free | Claimed (token : string) | Done.
#[export] Instance slot_eq_dec : EqDecision slot.
Proof. solve_decision. Defined.

Record World (App : Type) := mkWorld {
  wd_slots : gmap string slot;
  wd_tokens : nat;
  wd_log : memoryLog;
  wd_queue : list QueueItem;
  wd_accepting : bool;
  wd_now : Z;
  wd_app : App;
}.
Arguments mkWorld {App}. Arguments wd_slots {App}. Arguments wd_tokens {App}. Arguments wd_log {App}.
Arguments wd_queue {App}. Arguments wd_accepting {App}. Arguments wd_now {App}. Arguments wd_app {App}.

Section world.
Context {H App : Type} (handler : H -> Event -> App -> option string * App)
  (exhausted : H -> LoggedEvent -> App -> option string * App).

Definition slot_at (w : World App) (id : string) : slot := default Free (wd_slots w !! id).
Definition set_slot (id : string) (s : slot) (w : World App) : World App :=
  mkWorld (<[id := s]> (wd_slots w)) (wd_tokens w) (wd_log w) (wd_queue w) (wd_accepting w)
    (wd_now w) (wd_app w).
Definition set_log (m : memoryLog) (w : World App) : World App :=
  mkWorld (wd_slots w) (wd_tokens w) m (wd_queue w) (wd_accepting w) (wd_now w) (wd_app w).
Definition set_app (a : App) (w : World App) : World App :=
  mkWorld (wd_slots w) (wd_tokens w) (wd_log w) (wd_queue w) (wd_accepting w) (wd_now w) a.

Fixpoint exec {A} (p : prog H A) (w : World App) : A * World App :=
  match p with
  | Ret a => (a, w)
  | Get id k =>
      exec (k (Ok (match slot_at w id with Done => Some okResponse | _ => None end))) w
  | TryLock id k =>
      match slot_at w id with
      | Free =>
          let tok := "tok_" ^^ pretty (wd_tokens w) in
          exec (k (Ok (tok, false, true)))
            (mkWorld (<[id := Claimed tok]> (wd_slots w)) (S (wd_tokens w)) (wd_log w) (wd_queue w)
               (wd_accepting w) (wd_now w) (wd_app w))
      | _ => exec (k (Ok ("", false, false))) w
      end
  | SetDone id t k =>
      if decide (slot_at w id = Claimed t) then exec (k None) (set_slot id Done w)
      else exec (k (Some ErrLockLost)) w
  | Unlock id t k =>
      if decide (slot_at w id = Claimed t) then exec (k None) (set_slot id Free w)
      else exec (k (Some ErrLockLost)) w
  | Run h e k => let '(r, a) := handler h e (wd_app w) in exec (k r) (set_app a w)
  | Exhausted h e k => let '(r, a) := exhausted h e (wd_app w) in exec (k r) (set_app a w)
  | LogGet id k => exec (k (Ok (log_Get id (wd_log w)))) w
  | LogRecord e k => exec (k None) (set_log (log_Record (wd_now w) e (wd_log w)) w)
  | Enqueue i k =>
      if wd_accepting w then
        exec (k None) (mkWorld (wd_slots w) (wd_tokens w) (wd_log w) (wd_queue w ++ [i])
                         (wd_accepting w) (wd_now w) (wd_app w))
      else exec (k (Some "closed")) w
  | Now k => exec (k (wd_now w)) w
  end.

Lemma exec_bind {A B} (p : prog H A) (f : A -> prog H B) w :
  exec (bind p f) w = exec (f (fst (exec p w))) (snd (exec p w)).
Proof.
  revert w. induction p; intros w; cbn; auto.
  - destruct (slot_at w id); auto.
  - destruct (decide _); auto.
  - destruct (decide _); auto.
  - destruct (handler _ _ _); auto.
  - destruct (exhausted _ _ _); auto.
  - destruct (wd_accepting w); auto.
Qed.
End world.

(** ** MemoryQueue (async.go)

    The channel, the items each worker is busy with, and what has been dispatched.
    [Enqueue] sends while there is room; a full channel blocks the caller, which is
    a step that is not enabled, until there is room or its context ends
    ([step_cancel]); [Shutdown] closes the channel, which the workers
    then drain. *)
Module MQ.
Record MemoryQueue := mkMQ {
  mq_ch : list QueueItem;
  mq_cap : nat;
  mq_busy : list (option QueueItem);  (* one entry per worker *)
  mq_closed : bool;
  mq_done : list QueueItem;           (* dispatched, in completion order *)
  mq_errors : Z;
}.

Definition NewMemoryQueue (capacity workers : Z) : MemoryQueue :=
  mkMQ [] (Z.to_nat (if capacity <=? 0 then 256 else capacity))
    (replicate (Z.to_nat (if workers <=? 0 then 4 else workers)) None) false [] 0.

Definition Depth (q : MemoryQueue) : Z := Z.of_nat (List.length (mq_ch q)).
Definition Capacity (q : MemoryQueue) : Z := Z.of_nat (mq_cap q).
Definition DispatchErrors (q : MemoryQueue) : Z := mq_errors q.

(** What [Enqueue] can do now: refuse, accept, or wait ([None]). *)
Definition enqueue (item : QueueItem) (q : MemoryQueue) : option (option string * MemoryQueue) :=
  if mq_closed q then Some (Some "webhooks.MemoryQueue: closed", q)
  else if Nat.ltb (List.length (mq_ch q)) (mq_cap q) then
    Some (None, mkMQ (mq_ch q ++ [item]) (mq_cap q) (mq_busy q) (mq_closed q) (mq_done q) (mq_errors q))
  else None.

Inductive step : MemoryQueue -> list QueueItem -> MemoryQueue -> Prop :=
| step_accept item q q' :
    enqueue item q = Some (None, q') -> step q [item] q'
| step_refuse item e q q' :
    enqueue item q = Some (Some e, q') -> step q [] q'
| step_cancel q :
    mq_closed q = false -> step q [] q
| step_take i item ch q :
    mq_busy q !! i = Some None -> mq_ch q = item :: ch ->
    step q [] (mkMQ ch (mq_cap q) (<[i := Some item]> (mq_busy q)) (mq_closed q) (mq_done q) (mq_errors q))
| step_finish i item failed q :
    mq_busy q !! i = Some (Some item) ->
    step q [] (mkMQ (mq_ch q) (mq_cap q) (<[i := None]> (mq_busy q)) (mq_closed q)
                (mq_done q ++ [item]) ((mq_errors q + if (failed : bool) then 1 else 0) mod 2 ^ 64))
| step_shutdown q :
    step q [] (mkMQ (mq_ch q) (mq_cap q) (mq_busy q) true (mq_done q) (mq_errors q)).

(** States with the items accepted so far, in order. *)
Inductive reach (capacity workers : Z) : MemoryQueue -> list QueueItem -> Prop :=
| reach_start : reach capacity workers (NewMemoryQueue capacity workers) []
| reach_step q acc q' new :
    reach capacity workers q acc -> step q new q' -> reach capacity workers q' (acc ++ new).

Definition busy_items (q : MemoryQueue) : list QueueItem :=
  List.concat (map (fun o => match o with Some i => [i] | None => [] end) (mq_busy q)).
End MQ.
