(* ===== verification/WebhookFacts.v ===== *)
(** * WebhookFacts: every event is handled at most once, whatever the interleaving.

    [claims_ok] is a typestate of programs: a program that follows it asks for the
    claim of one event, runs the application's handler only while it holds the
    claim, and never returns with the claim in hand. [Handle] and [ProcessQueued]
    follow it. [sys_step] interleaves any number of deliveries and queue workers, one
    call at a time, over any store with the laws of [IdemStore]. *)
From S2P Require Import Prelude Json Events Webhooks WebhookWorld.

(** ** Typestate

    [Q] is what the program guarantees of the items it queues. *)
Inductive phase := Idle | Held (tok : string) | Failed (tok : string) | Won (tok : string) | Finished.

Section typestate.
Context {H A : Type} (Q : QueueItem -> Prop).

Fixpoint claims_ok (id : string) (ph : phase) (p : prog H A) : Prop :=
  match p with
  | Ret _ => ph = Idle \/ ph = Finished
  | Get i k => ph = Idle /\ i = id /\ forall r, claims_ok id Idle (k r)
  | TryLock i k => ph = Idle /\ i = id /\
      forall r, match r with
                | Ok (tok, false, true) => claims_ok id (Held tok) (k r)
                | _ => claims_ok id Finished (k r)
                end
  | Run h evt k => exists tok, ph = Held tok /\ ev_ID evt = id /\
      claims_ok id (Won tok) (k None) /\ forall e, claims_ok id (Failed tok) (k (Some e))
  | SetDone i t k => i = id /\ (ph = Held t \/ ph = Failed t \/ ph = Won t) /\
      forall r, claims_ok id Finished (k r)
  | Unlock i t k => i = id /\ ph = Failed t /\ forall r, claims_ok id Finished (k r)
  | Enqueue item k => ph = Held (qi_Token item) /\ qi_EventID item = id /\ Q item /\
      claims_ok id Finished (k None) /\ forall e, claims_ok id ph (k (Some e))
  | Exhausted _ _ k => forall r, claims_ok id ph (k r)
  | LogGet _ k => forall r, claims_ok id ph (k r)
  | LogRecord _ k => forall r, claims_ok id ph (k r)
  | Now k => forall r, claims_ok id ph (k r)
  end.
End typestate.

(** Discarding the result does not matter to the typestate. *)
Definition forget {H A} (p : prog H A) : prog H unit := bind p (fun _ => Ret tt).

Lemma claims_ok_forget {H A} Q id ph (p : prog H A) : claims_ok Q id ph p -> claims_ok Q id ph (forget p).
Proof.
  unfold forget. revert ph.
  induction p as [a|i k IH|i k IH|i t k IH|i t k IH|h e k IH|h e k IH|i k IH|e k IH|i k IH|k IH];
    intros ph; cbn; auto.
  - intros (? & ? & Hk). auto.
  - intros (? & ? & Hk). split; [done|]. split; [done|]. intros r. specialize (Hk r).
    destruct r as [[[tok []] []]|]; auto.
  - intros (? & ? & Hk). auto.
  - intros (? & ? & Hk). auto.
  - intros (tok & ? & ? & ? & Hk). exists tok. auto.
  - intros (? & ? & ? & ? & Hk). auto 10.
Qed.

Section handlers_ok.
Context {H : Type} (ConstructEvent : string -> string -> string -> option stripe_event)
  (UnmarshalEvent : string -> res string stripe_event) (Q : QueueItem -> Prop).
Implicit Types w : Webhooks H.

(** Log writes do not change the phase. *)
Lemma recordToLog_ok {A} w e id ph (k : prog H A) :
  claims_ok Q id ph k -> claims_ok Q id ph (recordToLog w e ;; k).
Proof. unfold recordToLog. destruct (w_eventLog w); cbn; auto. Qed.

Lemma eventLogGet_ok {A} w i id ph (k : res string (option LoggedEvent) -> prog H A) :
  (forall r, claims_ok Q id ph (k r)) -> claims_ok Q id ph (r <- eventLogGet w i ;; k r).
Proof. unfold eventLogGet. destruct (w_eventLog w); cbn; auto. Qed.

Lemma exhausted_ok {A} (o : option H) row id ph (k : option string -> prog H A) :
  (forall r, claims_ok Q id ph (k r)) ->
  claims_ok Q id ph (r <- match o with None => Ret None | Some f => Exhausted f row Ret end ;; k r).
Proof. destruct o; cbn; auto. Qed.

(** A dispatch runs at most one handler and tells the phases apart by its outcome. *)
Lemma dispatch_ok {A} w evt tok (k : option string -> prog H A) :
  (forall e, claims_ok Q (ev_ID evt) (Failed tok) (k (Some e))) ->
  claims_ok Q (ev_ID evt) (Won tok) (k None) -> claims_ok Q (ev_ID evt) (Held tok) (k None) ->
  claims_ok Q (ev_ID evt) (Held tok) (r <- dispatchEvent w evt ;; k r).
Proof.
  intros Hf Hw Hh. unfold dispatchEvent, runIfSet.
  destruct (w_customHandlers w !! ev_Type evt); [cbn; eauto|].
  destruct (typed_handler _ _); cbn; eauto.
Qed.

Lemma runIfSet_ok {A} evt o tok (k : option string -> prog H A) :
  (forall e, claims_ok Q (ev_ID evt) (Failed tok) (k (Some e))) ->
  claims_ok Q (ev_ID evt) (Won tok) (k None) -> claims_ok Q (ev_ID evt) (Held tok) (k None) ->
  claims_ok Q (ev_ID evt) (Held tok) (r <- runIfSet evt o ;; k r).
Proof. intros. destruct o; cbn; eauto. Qed.

Lemma release_ok {A} w id tok row (a : A) :
  claims_ok Q id (Failed tok) (Unlock id tok (fun _ => recordToLog w row ;; Ret a)).
Proof. cbn. do 2 (split; [done|]). intros _. apply recordToLog_ok. cbn. auto. Qed.

Lemma dispatch_failed_ok w evt tok body ns err :
  claims_ok Q (ev_ID evt) (Failed tok) (dispatch_failed w evt tok body ns err).
Proof.
  unfold dispatch_failed. apply eventLogGet_ok. intros prev. cbv zeta.
  destruct (w_perEventPolicy w !! ev_Type evt) as [policy|]; [|apply release_ok].
  destruct (_ && _); [|apply release_ok].
  apply recordToLog_ok, exhausted_ok. intros [e|]; [apply release_ok|]. cbn. auto.
Qed.

Lemma sync_dispatch_ok w evt tok body ns :
  claims_ok Q (ev_ID evt) (Held tok) (sync_dispatch w evt tok body ns).
Proof.
  unfold sync_dispatch. apply dispatch_ok.
  - intros e. apply dispatch_failed_ok.
  - cbn. split; [done|]. split; [auto|]. intros _ now. apply recordToLog_ok. cbn. auto.
  - cbn. split; [done|]. split; [auto|]. intros _ now. apply recordToLog_ok. cbn. auto.
Qed.

Lemma handle_claimed_ok w e tok body :
  (forall type ns, Q (mkItem (se_ID e) type ns body tok)) ->
  claims_ok Q (se_ID e) (Held tok) (handle_claimed w e tok body).
Proof.
  intros HQ. unfold handle_claimed. cbv zeta. destruct (classifyNamespace _ _).
  - destruct (w_queue w); [|apply (sync_dispatch_ok w (fromStripeEvent e))].
    apply recordToLog_ok. cbn. do 2 (split; [done|]). split; [apply HQ|]. split; [auto|].
    intros _. apply (sync_dispatch_ok w (fromStripeEvent e)).
  - cbn. split; [done|]. split; [auto|]. intros _. apply recordToLog_ok. cbn. auto.
  - apply (runIfSet_ok (fromStripeEvent e)).
    + intros err. apply (release_ok w (se_ID e)).
    + cbn. split; [done|]. split; [auto|]. intros _ now. apply recordToLog_ok. cbn. auto.
    + cbn. split; [done|]. split; [auto|]. intros _ now. apply recordToLog_ok. cbn. auto.
Qed.

(** [Handle] follows the typestate of the event it verified. *)
Lemma Handle_ok w r :
  (forall e tok type ns, verifySignature ConstructEvent w (rq_body r) (rq_signature r) = Some e ->
     Q (mkItem (se_ID e) type ns (rq_body r) tok)) ->
  exists id, claims_ok Q id Idle (Handle ConstructEvent w r).
Proof.
  intros HQ. unfold Handle. destruct (negb _); [exists ""; cbn; auto|].
  destruct (_ && _); [exists ""; cbn; auto|]. destruct (rq_read_error r); [exists ""; cbn; auto|].
  destruct (verifySignature _ _ _ _) as [e|] eqn:Ev; [|exists ""; cbn; auto]. exists (se_ID e).
  cbn. do 2 (split; [done|]). intros [[cached|]|err]; cbn; auto. do 2 (split; [done|]).
  intros [[[tok []] []]|err]; cbn; auto. apply handle_claimed_ok. auto.
Qed.

Lemma markQueued_ok {A} w item status err n ph (a : A) :
  ph = Held (qi_Token item) \/ ph = Failed (qi_Token item) \/ ph = Won (qi_Token item) ->
  claims_ok Q (qi_EventID item) ph (markQueuedProcessed w item status err n ;; Ret a).
Proof.
  intros Hph. cbn. split; [done|]. split; [done|]. intros _ now. unfold recordToLog.
  destruct (w_eventLog w); cbn; auto.
Qed.

(** An item whose body is the event it names. *)
Definition item_ok (item : QueueItem) : Prop :=
  forall e, UnmarshalEvent (qi_Body item) = Ok e -> se_ID e = qi_EventID item.

Lemma ProcessQueued_ok w item :
  item_ok item -> claims_ok Q (qi_EventID item) (Held (qi_Token item)) (ProcessQueued UnmarshalEvent w item).
Proof.
  intros Hitem. unfold ProcessQueued. destruct (UnmarshalEvent (qi_Body item)) as [e|err] eqn:E.
  - specialize (Hitem e E). rewrite <- Hitem. apply (dispatch_ok w (fromStripeEvent e)); cbn [ev_ID fromStripeEvent].
    + intros err. unfold handleQueuedFailure. apply eventLogGet_ok. intros prev. cbv zeta.
      rewrite Hitem.
      destruct (w_perEventPolicy w !! _) as [policy|]; [|apply release_ok].
      destruct (_ && _); [|apply release_ok]. apply exhausted_ok.
      intros [e'|]; [apply release_ok|]. apply markQueued_ok. auto.
    + rewrite Hitem. apply markQueued_ok. auto.
    + rewrite Hitem. apply markQueued_ok. auto.
  - apply markQueued_ok. auto.
Qed.
End handlers_ok.

(** ** Stores *)

(** What the library relies on of the idempotency store: an event is free, claimed under
    a token, or done; [TryLock] grants a claim on a free event only; the holder of a claim
    can finish or release it, and whoever has lost it frees nothing by finishing it; a
    call that reports an error has either happened or not; and no call touches
    another event. *)
Class IdemStore (T : Type) := {
  slot_of : T -> string -> slot;
  get_rel : T -> string -> res store_error (option CachedResponse) -> T -> Prop;
  lock_rel : T -> string -> res store_error (string * bool * bool) -> T -> Prop;
  set_rel : T -> string -> string -> option store_error -> T -> Prop;
  unlock_rel : T -> string -> string -> option store_error -> T -> Prop;
  get_law s id r s' : get_rel s id r s' -> forall i, slot_of s' i = slot_of s i;
  get_done s id s' : get_rel s id (Ok None) s' -> slot_of s id <> Done;
  lock_law s id r s' : lock_rel s id r s' ->
    match r with
    | Ok (tok, false, true) =>
        slot_of s id = Free /\ slot_of s' id = Claimed tok /\
        forall i, i <> id -> slot_of s' i = slot_of s i
    | _ => forall i, slot_of s' i = slot_of s i
    end;
  set_law s id tok r s' : set_rel s id tok r s' -> slot_of s id = Claimed tok ->
    slot_of s' id = Done \/ slot_of s' id = Claimed tok;
  set_frees s id tok r s' : set_rel s id tok r s' -> slot_of s' id = Free -> slot_of s id = Free;
  set_others s id tok r s' : set_rel s id tok r s' -> forall i, i <> id -> slot_of s' i = slot_of s i;
  unlock_law s id tok r s' : unlock_rel s id tok r s' -> slot_of s id = Claimed tok ->
    slot_of s' id = Free \/ slot_of s' id = Claimed tok;
  unlock_others s id tok r s' : unlock_rel s id tok r s' -> forall i, i <> id -> slot_of s' i = slot_of s i;
}.

(** ** Interleaving *)
Section system.
Context {T H : Type} `{IdemStore T} (w : Webhooks H)
  (ConstructEvent : string -> string -> string -> option stripe_event)
  (UnmarshalEvent : string -> res string stripe_event).

(** The runs of handlers so far: the event and whether it succeeded. *)
Abbreviation trace := (list (string * bool)).

(** One call of one program: the store before and after, what it queued, what it ran. *)
Inductive tstep : T -> prog H unit -> T -> prog H unit -> list QueueItem -> trace -> Prop :=
| ts_get st id k r st' : get_rel st id r st' -> tstep st (Get id k) st' (k r) [] []
| ts_lock st id k r st' : lock_rel st id r st' -> tstep st (TryLock id k) st' (k r) [] []
| ts_set st id t k r st' : set_rel st id t r st' -> tstep st (SetDone id t k) st' (k r) [] []
| ts_unlock st id t k r st' : unlock_rel st id t r st' -> tstep st (Unlock id t k) st' (k r) [] []
| ts_run st h e k r : tstep st (Run h e k) st (k r) [] [(ev_ID e, bool_decide (r = None))]
| ts_exhausted st h e k r : tstep st (Exhausted h e k) st (k r) [] []
| ts_logget st id k r : tstep st (LogGet id k) st (k r) [] []
| ts_logrecord st e k r : tstep st (LogRecord e k) st (k r) [] []
| ts_accept st i k : tstep st (Enqueue i k) st (k None) [i] []
| ts_refuse st i k e : tstep st (Enqueue i k) st (k (Some e)) [] []
| ts_now st k t : tstep st (Now k) st (k t) [] [].

Record sys := mkSys {
  sy_store : T;
  sy_threads : list (prog H unit);
  sy_queue : list QueueItem;
  sy_trace : trace;
}.

Inductive sys_step : sys -> sys -> Prop :=
| sys_deliver st ts q tr r :
    sys_step (mkSys st ts q tr) (mkSys st (ts ++ [forget (Handle ConstructEvent w r)]) q tr)
| sys_worker st ts q1 item q2 tr :
    sys_step (mkSys st ts (q1 ++ item :: q2) tr)
      (mkSys st (ts ++ [forget (ProcessQueued UnmarshalEvent w item)]) (q1 ++ q2) tr)
| sys_thread st ts1 p ts2 q tr st' p' q' tr' :
    tstep st p st' p' q' tr' ->
    sys_step (mkSys st (ts1 ++ p :: ts2) q tr)
      (mkSys st' (ts1 ++ p' :: ts2) (q ++ q') (tr ++ tr')).

(** From a store in which nothing is claimed, with no delivery under way. *)
Inductive sys_reachable : sys -> Prop :=
| sys_start st : (forall id tok, slot_of st id <> Claimed tok) -> sys_reachable (mkSys st [] [] [])
| sys_next s s' : sys_reachable s -> sys_step s s' -> sys_reachable s'.

(** Successful runs for an event. *)
Definition wins (id : string) (tr : trace) : nat :=
  List.length (List.filter (fun '(i, b) => String.eqb i id && b) tr).

(** ** The books: claims in hand, as (event, token, has the handler succeeded). *)
Abbreviation claim := (string * string * bool)%type.
Definition claim_id (c : claim) : string := fst (fst c).

Record books (st : T) (cs : list claim) (tr : trace) : Prop := {
  bk_slot id tok won : (id, tok, won) ∈ cs -> slot_of st id = Claimed tok;
  bk_nodup : NoDup (map claim_id cs);
  bk_once id : (wins id tr <= 1)%nat;
  bk_won id : wins id tr <> O -> slot_of st id <> Free /\
    forall tok won, (id, tok, won) ∈ cs -> won = true;
}.

Lemma books_perm st cs cs' tr : cs ≡ₚ cs' -> books st cs tr -> books st cs' tr.
Proof.
  intros E [H1 H2 H3 H4]. split.
  - intros id tok won. rewrite <- E. apply H1.
  - by rewrite <- E.
  - done.
  - intros id Hw. destruct (H4 id Hw) as [Hs Hc]. split; [done|]. intros tok won. rewrite <- E. apply Hc.
Qed.

Lemma books_slots st st' cs tr :
  (forall i, slot_of st' i = slot_of st i) -> books st cs tr -> books st' cs tr.
Proof. intros E [H1 H2 H3 H4]. split; [|done|done|]; intros *; rewrite E; eauto. Qed.

Lemma books_claim st st' id tok cs tr :
  slot_of st id = Free -> slot_of st' id = Claimed tok ->
  (forall i, i <> id -> slot_of st' i = slot_of st i) ->
  books st cs tr -> books st' ((id, tok, false) :: cs) tr.
Proof.
  intros Hf Hc Ho [H1 H2 H3 H4].
  assert (Hno : forall t b, (id, t, b) ∉ cs) by (intros t b Hin; by rewrite (H1 _ _ _ Hin) in Hf).
  split.
  - intros i t b [[= -> -> ->]|Hin]%elem_of_cons; [done|].
    rewrite Ho; [eauto|]. intros ->. by apply (Hno t b).
  - cbn. constructor; [|done]. intros ([[i t] b] & E & Hin)%elem_of_map. cbn in E. subst i.
    by apply (Hno t b).
  - done.
  - intros i Hw. destruct (H4 i Hw) as [Hs Hall].
    assert (i <> id) by (intros ->; done). split; [by rewrite Ho|].
    intros t b [[= -> -> ->]|Hin]%elem_of_cons; [done|eauto].
Qed.

(** Giving a claim up, to whatever slot the facts about the other claims allow. *)
Lemma books_drop st st' id tok won cs tr :
  (slot_of st' id <> Free \/ won = false) ->
  (forall i, i <> id -> slot_of st' i = slot_of st i) ->
  books st ((id, tok, won) :: cs) tr -> books st' cs tr.
Proof.
  intros Hs Ho [H1 H2 H3 H4]. cbn in H2. apply NoDup_cons in H2 as [Hid H2].
  assert (Hne : forall i t b, (i, t, b) ∈ cs -> i <> id).
  { intros i t b Hin ->. apply Hid. apply elem_of_map. by exists (id, t, b). }
  split; [| done | done |].
  - intros i t b Hin. rewrite Ho by eauto. apply (H1 i t b). by right.
  - intros i Hw. destruct (H4 i Hw) as [Hf Hall]. split.
    + destruct (decide (i = id)) as [->|Hi]; [|by rewrite Ho].
      destruct Hs as [Hs| ->]; [done|]. by specialize (Hall tok false ltac:(by left)).
    + intros t b Hin. apply (Hall t b). by right.
Qed.

Lemma wins_app id tr tr' : wins id (tr ++ tr') = (wins id tr + wins id tr')%nat.
Proof. unfold wins. by rewrite List.filter_app, length_app. Qed.

Lemma wins_one id i b : wins id [(i, b)] = if String.eqb i id && b then 1%nat else O.
Proof. unfold wins. cbn. by destruct (_ && _). Qed.

(** A run of the handler under a claim. *)
Lemma books_run st id tok (b : bool) cs tr :
  books st ((id, tok, false) :: cs) tr -> books st ((id, tok, b) :: cs) (tr ++ [(id, b)]).
Proof.
  intros [H1 H2 H3 H4].
  assert (W : forall i, wins i (tr ++ [(id, b)]) =
    (wins i tr + if String.eqb id i && b then 1 else 0)%nat).
  { intros i. by rewrite wins_app, wins_one. }
  assert (Hz : wins id tr = O).
  { destruct (decide (wins id tr = O)) as [|Hw]; [done|]. destruct (H4 id Hw) as [_ Hall].
    by specialize (Hall tok false ltac:(by left)). }
  assert (Hne : forall i t c, (i, t, c) ∈ cs -> i <> id).
  { intros i t c Hin ->. cbn in H2. apply NoDup_cons in H2 as [Hid _]. apply Hid, elem_of_map.
    by exists (id, t, c). }
  split.
  - intros i t c [[= -> -> ->]|Hin]%elem_of_cons; [by apply (H1 id tok false); left|].
    apply (H1 i t c). by right.
  - done.
  - intros i. rewrite W. destruct (String.eqb_spec id i) as [<-|]; cbn; [|specialize (H3 i); lia].
    rewrite Hz. destruct b; lia.
  - intros i. rewrite W. destruct (String.eqb_spec id i) as [E|Hi]; cbn; intros Hw.
    + subst i. destruct b; [|lia]. split.
      * by rewrite (H1 id tok false ltac:(by left)).
      * intros t c [[= -> ->]|Hin]%elem_of_cons; [done|]. by destruct (Hne _ _ _ Hin).
    + destruct (H4 i ltac:(lia)) as [Hs Hall]. split; [done|].
      intros t c [[= -> _ _]|Hin]%elem_of_cons; [done|]. apply (Hall t c). by right.
Qed.

(** ** The invariant *)
Definition claim_of (id : string) (ph : phase) : list claim :=
  match ph with
  | Held tok | Failed tok => [(id, tok, false)]
  | Won tok => [(id, tok, true)]
  | Idle | Finished => []
  end.
Definition thread_claims (gs : list (string * phase)) : list claim :=
  List.concat (map (fun g => claim_of (fst g) (snd g)) gs).
Definition queue_claims (q : list QueueItem) : list claim :=
  map (fun i => (qi_EventID i, qi_Token i, false)) q.

Definition sys_inv (s : sys) : Prop :=
  exists gs, Forall2 (fun p g => claims_ok (item_ok UnmarshalEvent) (fst g) (snd g) p) (sy_threads s) gs /\
    Forall (item_ok UnmarshalEvent) (sy_queue s) /\
    books (sy_store s) (thread_claims gs ++ queue_claims (sy_queue s)) (sy_trace s).

Lemma thread_claims_app gs gs' : thread_claims (gs ++ gs') = thread_claims gs ++ thread_claims gs'.
Proof. unfold thread_claims. by rewrite map_app, concat_app. Qed.

Lemma thread_claims_cons id ph gs : thread_claims ((id, ph) :: gs) = claim_of id ph ++ thread_claims gs.
Proof. done. Qed.

Lemma queue_claims_app q q' : queue_claims (q ++ q') = queue_claims q ++ queue_claims q'.
Proof. apply map_app. Qed.

(** One call moves the claim of its program and nothing else. *)
Lemma tstep_books st p st' p' q' tr' id ph cs tr :
  tstep st p st' p' q' tr' -> claims_ok (item_ok UnmarshalEvent) id ph p ->
  books st (claim_of id ph ++ cs) tr ->
  exists ph', claims_ok (item_ok UnmarshalEvent) id ph' p' /\ Forall (item_ok UnmarshalEvent) q' /\
    books st' (claim_of id ph' ++ queue_claims q' ++ cs) (tr ++ tr').
Proof.
  intros Hst Hok Hb. destruct Hst; cbn in Hok.
  - destruct Hok as (-> & -> & Hk). exists Idle. split; [auto|]. split; [done|]. rewrite app_nil_r.
    cbn in *. eapply books_slots; [|done]. by eapply get_law.
  - destruct Hok as (-> & -> & Hk). specialize (Hk r).
    match goal with Hl : lock_rel _ _ _ _ |- _ => pose proof (lock_law _ _ _ _ Hl) as L end.
    rewrite app_nil_r.
    assert (Hstay : (forall i, slot_of st' i = slot_of st i) -> claims_ok (item_ok UnmarshalEvent) id Finished (k r) ->
      exists ph', claims_ok (item_ok UnmarshalEvent) id ph' (k r) /\ Forall (item_ok UnmarshalEvent) [] /\
        books st' (claim_of id ph' ++ queue_claims [] ++ cs) tr).
    { intros Hs Hf. exists Finished. split; [done|]. split; [done|]. cbn in *. by eapply books_slots. }
    destruct r as [[[tok []] []]|e]; auto. destruct L as (Hf & Hc & Ho).
    exists (Held tok). split; [done|]. split; [done|]. cbn in *. by eapply books_claim.
  - destruct Hok as (-> & Hph & Hk). exists Finished. split; [auto|]. split; [done|]. rewrite app_nil_r.
    assert (E : exists won, claim_of id ph = [(id, t, won)])
      by (destruct Hph as [->|[->| ->]]; cbn; eauto).
    destruct E as [won E]. rewrite E in Hb. cbn in *.
    match goal with Hl : set_rel _ _ _ _ _ |- _ => pose proof (set_others _ _ _ _ _ Hl) as Ho; apply set_law in Hl as Hs end;
      [|by apply (bk_slot _ _ _ Hb id t won); left].
    eapply books_drop; [|done|done]. left. by destruct Hs as [->| ->].
  - destruct Hok as (-> & -> & Hk). exists Finished. split; [auto|]. split; [done|]. rewrite app_nil_r.
    cbn in *.
    match goal with Hl : unlock_rel _ _ _ _ _ |- _ => pose proof (unlock_others _ _ _ _ _ Hl) as Ho end.
    eapply books_drop; [|done|done]. by right.
  - destruct Hok as (tok & -> & <- & Hw & Hf). destruct r as [err|].
    + exists (Failed tok). split; [auto|]. split; [done|]. by apply books_run.
    + exists (Won tok). split; [auto|]. split; [done|]. by apply books_run.
  - exists ph. rewrite app_nil_r. auto.
  - exists ph. rewrite app_nil_r. auto.
  - exists ph. rewrite app_nil_r. auto.
  - destruct Hok as (-> & <- & Hq & Hk & _). exists Finished. split; [done|]. rewrite app_nil_r.
    split; [by constructor|]. done.
  - destruct Hok as (-> & <- & _ & _ & Hk). exists (Held (qi_Token i)). rewrite app_nil_r. auto.
  - exists ph. rewrite app_nil_r. auto.
Qed.

(** stripe-go parses the body it verified, so a queue worker that decodes the same
    body finds the same event. *)
Definition construct_parses : Prop :=
  forall body sg secret e, ConstructEvent body sg secret = Some e -> UnmarshalEvent body = Ok e.

Lemma verify_parses body sg e :
  construct_parses -> verifySignature ConstructEvent w body sg = Some e -> UnmarshalEvent body = Ok e.
Proof.
  intros Hc. unfold verifySignature.
  destruct (ConstructEvent body sg (w_signingSecret w)) eqn:E; [intros [= <-]; eauto|].
  induction (w_additionalSecrets w) as [|alt rest IH]; [done|]. cbn.
  destruct (String.eqb alt ""); [done|].
  destruct (ConstructEvent body sg alt) eqn:E'; [intros [= <-]; eauto|done].
Qed.

Lemma sys_inv_step s s' : construct_parses -> sys_inv s -> sys_step s s' -> sys_inv s'.
Proof.
  intros Hc (gs & Hts & Hq & Hb) Hst. destruct Hst as [st ts q tr r|st ts q1 item q2 tr|
    st ts1 p ts2 q tr st' p' q' tr' Ht]; cbn [sy_store sy_threads sy_queue sy_trace] in *.
  - destruct (Handle_ok ConstructEvent (item_ok UnmarshalEvent) w r) as [id Hid].
    { intros e tok type ns Hv e' He'. cbn in *. rewrite (verify_parses _ _ _ Hc Hv) in He'. congruence. }
    exists (gs ++ [(id, Idle)]). split; [|split; [done|]].
    + apply Forall2_app; [done|]. constructor; [|done]. by apply claims_ok_forget.
    + rewrite thread_claims_app. cbn. by rewrite app_nil_r.
  - apply Forall_app in Hq as [Hq1 Hq2]. inv Hq2.
    exists (gs ++ [(qi_EventID item, Held (qi_Token item))]). split; [|split].
    + apply Forall2_app; [done|]. constructor; [|done]. cbn. apply claims_ok_forget.
      by apply ProcessQueued_ok.
    + apply Forall_app. done.
    + eapply books_perm; [|exact Hb]. rewrite thread_claims_app, !queue_claims_app, <- app_assoc.
      apply Permutation_app_head. cbn [sy_queue]. rewrite queue_claims_app. symmetry.
      exact (Permutation_middle (queue_claims q1) (queue_claims q2) _).
  - apply Forall2_app_inv_l in Hts as (gs1 & gs2' & Hg1 & Hg2 & ->).
    apply Forall2_cons_inv_l in Hg2 as ([id ph] & gs2 & Hp & Hg2 & ->). cbn in Hp.
    destruct (tstep_books st p st' p' q' tr' id ph
      (thread_claims gs1 ++ thread_claims gs2 ++ queue_claims q) tr Ht Hp) as (ph' & Hp' & Hq' & Hb').
    { eapply books_perm; [|exact Hb]. rewrite thread_claims_app, thread_claims_cons.
      solve_Permutation. }
    exists (gs1 ++ (id, ph') :: gs2). split; [|split].
    + apply Forall2_app; [done|]. by constructor.
    + by apply Forall_app.
    + eapply books_perm; [|exact Hb']. cbn [sy_queue].
      rewrite thread_claims_app, thread_claims_cons, queue_claims_app. solve_Permutation.
Qed.

Lemma sys_reachable_inv s : construct_parses -> sys_reachable s -> sys_inv s.
Proof.
  intros Hc. induction 1 as [st Hst|s s' _ IH Hs]; [|by eapply sys_inv_step].
  exists []. split; [constructor|]. split; [constructor|]. split.
  - intros id tok won Hin. by apply not_elem_of_nil in Hin.
  - constructor.
  - intros id. cbn. lia.
  - intros id Hw. cbn in Hw. lia.
Qed.

(** ** Claims that lapse

    A claim and the mark of a handled event have a lifetime, the TTL they are stored with, and
    a queue may hand an item out again. [lapse_step] adds both to the interleavings: the slot of
    an event becomes free at any time, and a worker is given an item that stays in the queue.
    Each is noted under the event. *)
Inductive lapse_step : sys * list string -> sys * list string -> Prop :=
| ls_step s s' l : sys_step s s' -> lapse_step (s, l) (s', l)
| ls_expires st ts q tr l id st' :
    slot_of st' id = Free -> (forall i, i <> id -> slot_of st' i = slot_of st i) ->
    lapse_step (mkSys st ts q tr, l) (mkSys st' ts q tr, l ++ [id])
| ls_again st ts q item tr l :
    item ∈ q ->
    lapse_step (mkSys st ts q tr, l)
      (mkSys st (ts ++ [forget (ProcessQueued UnmarshalEvent w item)]) q tr, l ++ [qi_EventID item]).
Inductive lapse_reachable : sys * list string -> Prop :=
| lr_start st : (forall id tok, slot_of st id <> Claimed tok) -> lapse_reachable (mkSys st [] [] [], [])
| lr_next x x' : lapse_reachable x -> lapse_step x x' -> lapse_reachable x'.
Definition lapses (id : string) (l : list string) : nat := List.length (List.filter (String.eqb id) l).

(** The right to a successful run: a free slot is one, and so is each claim in hand whose
    handler has not succeeded. *)
Definition open_claims (id : string) (cs : list claim) : nat :=
  List.length (List.filter (fun '(i, _, won) => String.eqb i id && negb won) cs).
Definition free_slot (st : T) (id : string) : nat := if decide (slot_of st id = Free) then 1%nat else O.
Definition rights (st : T) (cs : list claim) (id : string) : nat := (open_claims id cs + free_slot st id)%nat.

Lemma open_claims_app id cs cs' : open_claims id (cs ++ cs') = (open_claims id cs + open_claims id cs')%nat.
Proof. unfold open_claims. by rewrite List.filter_app, length_app. Qed.
Lemma open_claims_one id i tok won : open_claims id [(i, tok, won)] = if String.eqb i id && negb won then 1%nat else O.
Proof. unfold open_claims. cbn. by destruct (_ && _). Qed.
Lemma lapses_app id l l' : lapses id (l ++ l') = (lapses id l + lapses id l')%nat.
Proof. unfold lapses. by rewrite List.filter_app, length_app. Qed.
Lemma lapses_one id : lapses id [id] = 1%nat.
Proof. unfold lapses. cbn. by rewrite String.eqb_refl. Qed.
Lemma free_slot_le st id : (free_slot st id <= 1)%nat.
Proof. unfold free_slot. destruct (decide _); lia. Qed.
Lemma free_slot_eq st st' id : slot_of st' id = slot_of st id -> free_slot st' id = free_slot st id.
Proof. unfold free_slot. by intros ->. Qed.

(** No call of a program makes a right: a success uses one up, a failure passes it on. *)
Lemma tstep_rights st p st' p' q' tr' id ph :
  tstep st p st' p' q' tr' -> claims_ok (item_ok UnmarshalEvent) id ph p ->
  exists ph', claims_ok (item_ok UnmarshalEvent) id ph' p' /\ Forall (item_ok UnmarshalEvent) q' /\
    forall j, (wins j tr' + rights st' (claim_of id ph' ++ queue_claims q') j <= rights st (claim_of id ph) j)%nat.
Proof.
  unfold rights. intros Hst Hok. destruct Hst; cbn in Hok.
  - destruct Hok as (-> & -> & Hk). exists Idle. split; [auto|]. split; [done|]. intros j. cbn.
    by rewrite (free_slot_eq st st') by by eapply get_law.
  - destruct Hok as (-> & -> & Hk). specialize (Hk r).
    match goal with Hl : lock_rel _ _ _ _ |- _ => pose proof (lock_law _ _ _ _ Hl) as L end.
    assert (Hstay : (forall i, slot_of st' i = slot_of st i) -> claims_ok (item_ok UnmarshalEvent) id Finished (k r) ->
      exists ph', claims_ok (item_ok UnmarshalEvent) id ph' (k r) /\ Forall (item_ok UnmarshalEvent) [] /\
        forall j, (wins j [] + (open_claims j (claim_of id ph' ++ queue_claims []) + free_slot st' j) <=
                   open_claims j (claim_of id Idle) + free_slot st j)%nat).
    { intros Hs Hf. exists Finished. split; [done|]. split; [done|]. intros j. cbn. by rewrite (free_slot_eq st st'). }
    destruct r as [[[tok []] []]|e]; auto. destruct L as (Hf & Hc & Ho).
    exists (Held tok). split; [done|]. split; [done|]. intros j. rewrite app_nil_r. cbn [claim_of wins]. rewrite open_claims_one. cbn.
    destruct (String.eqb_spec id j) as [<-|Hne]; cbn; [|by rewrite (free_slot_eq st st') by auto].
    unfold free_slot. rewrite (decide_True _ _ Hf), (decide_False (P := slot_of st' id = Free)) by congruence. lia.
  - destruct Hok as (-> & _ & Hk). exists Finished. split; [auto|]. split; [done|]. intros j. cbn.
    match goal with Hl : set_rel _ _ _ _ _ |- _ => pose proof (set_others _ _ _ _ _ Hl) as Ho; pose proof (set_frees _ _ _ _ _ Hl) as Hf end.
    destruct (decide (j = id)) as [->|Hne]; [|rewrite (free_slot_eq st st') by auto; lia].
    unfold free_slot. destruct (decide (slot_of st' id = Free)) as [E|]; [|lia]. rewrite (decide_True _ _ (Hf E)). lia.
  - destruct Hok as (-> & -> & Hk). exists Finished. split; [auto|]. split; [done|]. intros j. cbn [claim_of app queue_claims map wins].
    match goal with Hl : unlock_rel _ _ _ _ _ |- _ => pose proof (unlock_others _ _ _ _ _ Hl) as Ho end.
    rewrite open_claims_one. destruct (String.eqb_spec id j) as [<-|Hne]; cbn; [pose proof (free_slot_le st' id); lia|].
    by rewrite (free_slot_eq st st') by auto.
  - destruct Hok as (tok & -> & <- & Hw & Hf). destruct r as [err|].
    + exists (Failed tok). split; [auto|]. split; [done|]. intros j. rewrite app_nil_r, wins_one, andb_false_r. cbn. lia.
    + exists (Won tok). split; [auto|]. split; [done|]. intros j. rewrite app_nil_r, wins_one. cbn [claim_of].
      rewrite !open_claims_one, andb_false_r, bool_decide_eq_true_2 by done. cbn. lia.
  - exists ph. split; [auto|]. split; [done|]. intros j. by rewrite app_nil_r.
  - exists ph. split; [auto|]. split; [done|]. intros j. by rewrite app_nil_r.
  - exists ph. split; [auto|]. split; [done|]. intros j. by rewrite app_nil_r.
  - destruct Hok as (-> & <- & Hq & Hk & _). exists Finished. split; [done|]. split; [by constructor|]. done.
  - destruct Hok as (-> & <- & _ & _ & Hk). exists (Held (qi_Token i)). split; [auto|]. split; [done|]. intros j. by rewrite app_nil_r.
  - exists ph. split; [auto|]. split; [done|]. intros j. by rewrite app_nil_r.
Qed.

(** Successes and rights together never exceed one and the lapses. *)
Definition lapse_inv (x : sys * list string) : Prop :=
  let '(s, l) := x in
  exists gs, Forall2 (fun p g => claims_ok (item_ok UnmarshalEvent) (fst g) (snd g) p) (sy_threads s) gs /\
    Forall (item_ok UnmarshalEvent) (sy_queue s) /\
    forall id, (wins id (sy_trace s) + rights (sy_store s) (thread_claims gs ++ queue_claims (sy_queue s)) id <= 1 + lapses id l)%nat.

(** A worker that starts on an item has its claim in hand. *)
Lemma worker_claims ts gs item :
  Forall2 (fun p g => claims_ok (item_ok UnmarshalEvent) (fst g) (snd g) p) ts gs -> item_ok UnmarshalEvent item ->
  Forall2 (fun p g => claims_ok (item_ok UnmarshalEvent) (fst g) (snd g) p)
    (ts ++ [forget (ProcessQueued UnmarshalEvent w item)]) (gs ++ [(qi_EventID item, Held (qi_Token item))]).
Proof. intros Hts Hi. apply Forall2_app; [done|]. constructor; [|done]. cbn. by apply claims_ok_forget, ProcessQueued_ok. Qed.

Lemma lapse_inv_sys s s' l : construct_parses -> lapse_inv (s, l) -> sys_step s s' -> lapse_inv (s', l).
Proof.
  intros Hc (gs & Hts & Hq & Hb) Hst. destruct Hst as [st ts q tr r|st ts q1 item q2 tr|
    st ts1 p ts2 q tr st' p' q' tr' Ht]; cbn [sy_store sy_threads sy_queue sy_trace] in *.
  - destruct (Handle_ok ConstructEvent (item_ok UnmarshalEvent) w r) as [id Hid].
    { intros e tok type ns Hv e' He'. cbn in *. rewrite (verify_parses _ _ _ Hc Hv) in He'. congruence. }
    exists (gs ++ [(id, Idle)]). split; [|split; [done|]].
    + apply Forall2_app; [done|]. constructor; [|done]. by apply claims_ok_forget.
    + rewrite thread_claims_app. cbn. by rewrite app_nil_r.
  - apply Forall_app in Hq as [Hq1 Hq2]. inv Hq2. exists (gs ++ [(qi_EventID item, Held (qi_Token item))]).
    split; [by apply worker_claims|]. split; [by apply Forall_app|]. intros id. specialize (Hb id). revert Hb. unfold rights.
    cbn [sy_queue sy_store sy_trace]. rewrite thread_claims_app, !queue_claims_app.
    change (queue_claims (item :: q2)) with ([(qi_EventID item, qi_Token item, false)] ++ queue_claims q2).
    change (thread_claims [(qi_EventID item, Held (qi_Token item))]) with [(qi_EventID item, qi_Token item, false)].
    rewrite !open_claims_app. lia.
  - apply Forall2_app_inv_l in Hts as (gs1 & gs2' & Hg1 & Hg2 & ->).
    apply Forall2_cons_inv_l in Hg2 as ([id ph] & gs2 & Hp & Hg2 & ->). cbn in Hp.
    destruct (tstep_rights _ _ _ _ _ _ _ _ Ht Hp) as (ph' & Hp' & Hq' & Hr).
    exists (gs1 ++ (id, ph') :: gs2). split; [apply Forall2_app; [done|by constructor]|]. split; [by apply Forall_app|].
    intros j. specialize (Hb j). specialize (Hr j). revert Hb Hr. unfold rights. cbn [sy_queue sy_store sy_trace].
    rewrite !thread_claims_app, !thread_claims_cons, queue_claims_app, wins_app, !open_claims_app. lia.
Qed.

Lemma lapse_reachable_inv x : construct_parses -> lapse_reachable x -> lapse_inv x.
Proof.
  intros Hc. induction 1 as [st Hst|x x' _ IH Hs].
  { exists []. split; [constructor|]. split; [constructor|]. intros id. unfold rights. cbn. pose proof (free_slot_le st id). lia. }
  destruct Hs as [s s' l Hs|st ts q tr l id st' Hf Ho|st ts q item tr l Hi]; [by eapply lapse_inv_sys| |];
    destruct IH as (gs & Hts & Hq & Hb); cbn [sy_store sy_threads sy_queue sy_trace] in *.
  - exists gs. split; [done|]. split; [done|]. intros j. specialize (Hb j). revert Hb. cbn [sy_store sy_queue sy_trace]. unfold rights. rewrite lapses_app.
    destruct (decide (j = id)) as [->|Hne]; [rewrite lapses_one; pose proof (free_slot_le st' id); lia|].
    rewrite (free_slot_eq st st') by auto. lia.
  - rewrite Forall_forall in Hq. exists (gs ++ [(qi_EventID item, Held (qi_Token item))]). split; [by apply worker_claims, Hq|].
    split; [by apply Forall_forall|]. intros j. specialize (Hb j). revert Hb. cbn [sy_store sy_queue sy_trace]. unfold rights.
    rewrite thread_claims_app, lapses_app, !open_claims_app. cbn [thread_claims List.concat map claim_of fst snd app]. rewrite open_claims_one.
    destruct (String.eqb_spec (qi_EventID item) j) as [<-|Hne]; cbn [andb negb]; [rewrite lapses_one; lia|]. lia.
Qed.

(** C2: an event is handled successfully at most once, and once more for each time its claim or
    its mark expires in the store or the queue hands its item out again. Whatever
    requests arrive, however their deliveries and the queue's workers interleave, whatever
    the handlers, the log and the queue answer and whichever calls of the store fail. *)
Theorem handled_at_most_once s l id :
  construct_parses -> lapse_reachable (s, l) -> (wins id (sy_trace s) <= 1 + lapses id l)%nat.
Proof. intros Hc Hs. destruct (lapse_reachable_inv _ Hc Hs) as (gs & _ & _ & Hb). specialize (Hb id). lia. Qed.

(** A program that is about to run a handler. *)
Definition about_to_run (id : string) (p : prog H unit) : Prop :=
  exists h evt k, p = Run h evt k /\ ev_ID evt = id.

(** Handlers exclude each other. At no time are two deliveries or workers both
    about to run a handler for the same event, and none is once the event was handled
    successfully. *)
Theorem handlers_exclusive s ts1 p ts2 id :
  construct_parses -> sys_reachable s ->
  sy_threads s = ts1 ++ p :: ts2 -> about_to_run id p ->
  wins id (sy_trace s) = O /\ forall p', p' ∈ ts1 ++ ts2 -> ~ about_to_run id p'.
Proof.
  intros Hc Hs Ets (h & evt & k & -> & <-).
  destruct (sys_reachable_inv s Hc Hs) as (gs & Hts & _ & Hb). rewrite Ets in Hts.
  apply Forall2_app_inv_l in Hts as (gs1 & gs2' & Hg1 & Hg2 & ->).
  apply Forall2_cons_inv_l in Hg2 as ([i ph] & gs2 & Hp & Hg2 & ->).
  destruct Hp as (tok & Eph & Eid & _). cbn in Eph, Eid. subst ph i.
  rewrite thread_claims_app in Hb. cbn in Hb.
  assert (Hin : (ev_ID evt, tok, false) ∈
    (thread_claims gs1 ++ (ev_ID evt, tok, false) :: thread_claims gs2) ++ queue_claims (sy_queue s)).
  { apply elem_of_app. left. apply elem_of_app. right. by left. }
  split.
  - destruct (decide (wins (ev_ID evt) (sy_trace s) = O)) as [|Hw]; [done|].
    destruct (bk_won _ _ _ Hb _ Hw) as [_ Hall]. by specialize (Hall tok false Hin).
  - intros p' Hp' (h' & evt' & k' & -> & Eid).
    assert (exists tok', (ev_ID evt, tok', false) ∈ thread_claims gs1 ++ thread_claims gs2) as [tok' Hin'].
    { rewrite <- thread_claims_app. pose proof (Forall2_app Hg1 Hg2) as Hall.
      apply list_elem_of_lookup in Hp' as [n Hn].
      destruct (Forall2_lookup_l _ _ _ _ _ Hall Hn) as ([i ph] & Hgn & (tok' & E1 & E2 & _)).
      cbn in E1, E2. subst ph. exists tok'. unfold thread_claims.
      apply list_elem_of_In, in_concat. exists [(i, tok', false)]. split.
      - apply in_map_iff. exists (i, Held tok'). split; [done|]. apply list_elem_of_In.
        by eapply list_elem_of_lookup_2.
      - left. congruence. }
    pose proof (bk_nodup _ _ _ Hb) as Hn. rewrite !map_app in Hn. cbn in Hn.
    rewrite <- app_assoc in Hn. cbn in Hn. rewrite <- Permutation_middle in Hn.
    apply NoDup_cons in Hn as [Hn _]. apply Hn. rewrite app_assoc. apply elem_of_app. left.
    rewrite <- map_app. apply elem_of_map. by exists (ev_ID evt, tok', false).
Qed.
End system.
