(* ===== verification/WebhookTheorems.v ===== *)
(** * WebhookTheorems: what a delivery does to the store, the log and the
      application, and the in-memory queue, log and log throttle. *)
From S2P Require Import Prelude Json Events Webhooks WebhookWorld WebhookFacts.
Import MemoryLog.

(** ** Deliveries run to the end *)
Section outcome.
Context {H App : Type} (handler : H -> Event -> App -> option string * App)
  (exhausted : H -> LoggedEvent -> App -> option string * App)
  (ConstructEvent : string -> string -> string -> option stripe_event)
  (UnmarshalEvent : string -> res string stripe_event).
Implicit Types (w : Webhooks H) (W : World App).
Abbreviation exec := (exec handler exhausted).

(** What dispatching an event does to the application. *)
Definition run_dispatch w (evt : Event) (a : App) : option string * App :=
  match match w_customHandlers w !! ev_Type evt with
        | Some fn => Some fn
        | None => typed_handler (w_handlers w) (ev_Type evt)
        end with
  | Some h => handler h evt a
  | None => (None, a)
  end.

Lemma set_app_id W : set_app (wd_app W) W = W.
Proof. by destruct W. Qed.

Lemma exec_dispatch w evt W :
  exec (dispatchEvent w evt) W =
    (fst (run_dispatch w evt (wd_app W)), set_app (snd (run_dispatch w evt (wd_app W))) W).
Proof.
  unfold dispatchEvent, run_dispatch, runIfSet.
  destruct (w_customHandlers w !! ev_Type evt) as [fn|]; cbn; [by destruct (handler _ _ _)|].
  destruct (typed_handler _ _); cbn; [by destruct (handler _ _ _)|]. by rewrite set_app_id.
Qed.

(** Two worlds alike but for the log. *)
Definition same_but_log W W' : Prop := exists m, W' = set_log m W.

Lemma exec_record {A} w e (k : prog H A) W :
  exists W', exec (recordToLog w e ;; k) W = exec k W' /\ same_but_log W W'.
Proof.
  unfold recordToLog. destruct (w_eventLog w); cbn.
  - eexists. split; [done|]. by eexists.
  - exists W. split; [done|]. exists (wd_log W). by destruct W.
Qed.

Definition prior_attempts w (id : string) W : Z :=
  if w_eventLog w then match wd_log W !! id with Some e => lg_AttemptCount e | None => 0 end else 0.

Lemma exec_logget {A} w id (k : _ -> prog H A) W :
  exists r, exec (r <- eventLogGet w id ;; k r) W = exec (k r) W /\ prev_attempts r = prior_attempts w id W.
Proof.
  unfold eventLogGet, prior_attempts. destruct (w_eventLog w); cbn; eexists; (split; [reflexivity|]);
    cbn; [|done]. unfold log_Get. by destruct (wd_log W !! id).
Qed.

(** How often the policy lets the event fail. *)
Definition policy_of w (type : string) (attempt : Z) : option (EventPolicy H) :=
  match w_perEventPolicy w !! type with
  | Some p => if (0 <? pol_MaxAttempts p) && (pol_MaxAttempts p <=? attempt) then Some p else None
  | None => None
  end.

Definition give_up_call (p : EventPolicy H) (row : LoggedEvent) (a : App) : option string * App :=
  match pol_OnExhausted p with None => (None, a) | Some f => exhausted f row a end.

(** How a delivery of [id] ends: the answer, the slot, the application, and every
    other slot as it was in [W]. *)
Definition ends (status : Z) (id : string) (sl : slot) (a : App) W (res : Z * World App) : Prop :=
  fst res = status /\ slot_at (snd res) id = sl /\ wd_app (snd res) = a /\
  forall i, i <> id -> slot_at (snd res) i = slot_at W i.

Lemma slot_at_set id s W i : slot_at (set_slot id s W) i = if decide (id = i) then s else slot_at W i.
Proof.
  unfold slot_at, set_slot. cbn. destruct (decide (id = i)) as [<-|];
    [by rewrite lookup_insert_eq|by rewrite lookup_insert_ne].
Qed.

(** Writing the log and answering. *)
Lemma exec_answer w e (status : Z) W :
  exists m, exec (recordToLog w e ;; Ret status) W = (status, set_log m W).
Proof. destruct (exec_record w e (Ret status) W) as (W' & -> & m & ->). by exists m. Qed.

(** The claim [tok] on [id] is in hand and nothing else differs from [W]. *)
Definition in_hand (id tok : string) (a : App) W W1 : Prop :=
  slot_at W1 id = Claimed tok /\ wd_app W1 = a /\ forall i, i <> id -> slot_at W1 i = slot_at W i.

Lemma in_hand_log id tok a W W1 m : in_hand id tok a W W1 -> in_hand id tok a W (set_log m W1).
Proof. done. Qed.
Lemma in_hand_app id tok a a' W W1 : in_hand id tok a W W1 -> in_hand id tok a' W (set_app a' W1).
Proof. intros (? & _ & ?). done. Qed.

Lemma ends_done status id tok a W W1 (k : option store_error -> prog H Z) :
  in_hand id tok a W W1 -> (forall W', exists m, exec (k None) W' = (status, set_log m W')) ->
  ends status id Done a W (exec (SetDone id tok k) W1).
Proof.
  intros (Hs & Ha & Ho) Hk. cbn. rewrite decide_True by done.
  destruct (Hk (set_slot id Done W1)) as [m ->]. split; [done|]. cbn [snd].
  change (slot_at (set_log m (set_slot id Done W1))) with (slot_at (set_slot id Done W1)).
  split; [by rewrite slot_at_set, decide_True|]. split; [done|].
  intros i Hi. rewrite slot_at_set, decide_False by done. by apply Ho.
Qed.

Lemma ends_free w row id tok a W W1 :
  in_hand id tok a W W1 ->
  ends 500 id Free a W (exec (Unlock id tok (fun _ => recordToLog w row ;; Ret 500)) W1).
Proof.
  intros (Hs & Ha & Ho). cbn. rewrite decide_True by done.
  destruct (exec_answer w row 500 (set_slot id Free W1)) as [m ->]. split; [done|]. cbn [snd].
  change (slot_at (set_log m (set_slot id Free W1))) with (slot_at (set_slot id Free W1)).
  split; [by rewrite slot_at_set, decide_True|]. split; [done|].
  intros i Hi. rewrite slot_at_set, decide_False by done. by apply Ho.
Qed.

Definition failed_row w (evt : Event) (err body ns : string) (attempt : Z) : LoggedEvent :=
  log_row (ev_ID evt) (ev_Type evt) "failed" err attempt None body ns.

Lemma dispatch_failed_ends w evt tok body ns err a W W1 :
  in_hand (ev_ID evt) tok a W W1 ->
  let attempt := prior_attempts w (ev_ID evt) W1 + 1 in
  let res := exec (dispatch_failed w evt tok body ns err) W1 in
  match policy_of w (ev_Type evt) attempt with
  | None => ends 500 (ev_ID evt) Free a W res
  | Some p =>
      let '(r, a') := give_up_call p (failed_row w evt err body ns attempt) a in
      match r with
      | None => ends 200 (ev_ID evt) Done a' W res
      | Some _ => ends 500 (ev_ID evt) Free a' W res
      end
  end.
Proof.
  intros Hh. cbv zeta. unfold dispatch_failed.
  match goal with |- context [exec (bind (eventLogGet w ?i) ?k) W1] =>
    destruct (exec_logget w i k W1) as (r & -> & <-) end. cbv zeta.
  unfold policy_of. destruct (w_perEventPolicy w !! ev_Type evt) as [p|]; [|by apply ends_free].
  destruct (_ && _); [|by apply ends_free].
  match goal with |- context [exec (bind (recordToLog w ?row) (fun _ => ?k)) W1] =>
    destruct (exec_record w row k W1) as (W2 & -> & m & ->) end.
  apply (in_hand_log _ _ _ _ _ m) in Hh. unfold give_up_call, failed_row.
  destruct (pol_OnExhausted p) as [f|]; cbn [bind WebhookWorld.exec].
  - destruct Hh as (H1 & H2 & H3). rewrite H2.
    destruct (exhausted f _ a) as [[e|] a'].
    + apply ends_free. split; [done|]. done.
    + apply (ends_done 200 _ tok); [done|]. intros W'. exists (wd_log W'). by destruct W'.
  - apply (ends_done 200 _ tok); [done|]. intros W'. exists (wd_log W'). by destruct W'.
Qed.

Lemma policy_of_configured w type attempt p : policy_of w type attempt = Some p -> w_perEventPolicy w !! type = Some p.
Proof. unfold policy_of. destruct (w_perEventPolicy w !! type); [|done]. by destruct (_ && _). Qed.
Lemma Handle_ends w r e W :
  rq_source_allowed r = true -> rq_read_error r = false ->
  (0 < w_maxBodyBytes w -> Z.of_nat (String.length (rq_body r)) <= w_maxBodyBytes w) ->
  verifySignature ConstructEvent w (rq_body r) (rq_signature r) = Some e ->
  classifyNamespace (w_namespace w) e = filterDispatch -> w_queue w = false ->
  slot_at W (se_ID e) = Free ->
  let evt := fromStripeEvent e in
  let res := exec (Handle ConstructEvent w r) W in
  let '(err, a) := run_dispatch w evt (wd_app W) in
  match err with
  | None => ends 200 (se_ID e) Done a W res
  | Some msg =>
      let attempt := prior_attempts w (se_ID e) W + 1 in
      match policy_of w (se_Type e) attempt with
      | None => ends 500 (se_ID e) Free a W res
      | Some p =>
          let '(g, a') := give_up_call p (failed_row w evt msg (rq_body r)
                            (default "" (extractAppNamespace e)) attempt) a in
          match g with
          | None => ends 200 (se_ID e) Done a' W res
          | Some _ => ends 500 (se_ID e) Free a' W res
          end
      end
  end.
Proof.
  intros Hsrc Hre Hsz Hv Hc Hq Hfree. cbv zeta. unfold Handle. rewrite Hsrc, Hre, Hv. cbn [negb].
  assert ((0 <? w_maxBodyBytes w) && (w_maxBodyBytes w <? Z.of_nat (String.length (rq_body r))) = false)
    as ->. { destruct (0 <? w_maxBodyBytes w) eqn:E; [|done]. reflect_bools. apply Z.ltb_ge. auto. }
  cbn [WebhookWorld.exec]. rewrite Hfree. cbn [WebhookWorld.exec]. rewrite Hfree. cbn [negb].
  set (tok := "tok_" ^^ pretty (wd_tokens W)). set (W1 := mkWorld _ _ _ _ _ _ _).
  assert (Hh : in_hand (se_ID e) tok (wd_app W) W W1).
  { unfold in_hand, slot_at, W1. cbn. split; [by rewrite lookup_insert_eq|]. split; [done|].
    intros i Hi. by rewrite lookup_insert_ne. }
  unfold handle_claimed. rewrite Hc, Hq. unfold sync_dispatch. rewrite exec_bind, exec_dispatch.
  change (wd_app W1) with (wd_app W).
  destruct (run_dispatch w (fromStripeEvent e) (wd_app W)) as [[msg|] a]; cbn [fst snd].
  - exact (dispatch_failed_ends w (fromStripeEvent e) tok _ _ msg a W _ (in_hand_app _ _ _ a _ _ Hh)).
  - apply (ends_done 200 _ tok); [by apply (in_hand_app _ _ (wd_app W))|].
    intros W'. cbn. apply exec_answer.
Qed.

(** C33: how a synchronous delivery ends. For a verified event of this application that is
    not yet claimed, whose type has no policy or one with a callback: if the handler
    succeeds, the answer is 200 and the event is done; if it fails, the answer is 500 and
    the event is free again for Stripe's retry, until the attempts allowed by the policy
    are used up; then the callback is asked, and the answer is 200 and the event done
    when it returns no error, 500 and the event free when it returns one. The application
    changes exactly by the dispatch and the callback, and no other event's slot is touched. *)
Theorem Handle_outcome w r e W :
  rq_source_allowed r = true -> rq_read_error r = false ->
  (0 < w_maxBodyBytes w -> Z.of_nat (String.length (rq_body r)) <= w_maxBodyBytes w) ->
  verifySignature ConstructEvent w (rq_body r) (rq_signature r) = Some e ->
  classifyNamespace (w_namespace w) e = filterDispatch -> w_queue w = false ->
  slot_at W (se_ID e) = Free ->
  (forall p, w_perEventPolicy w !! se_Type e = Some p -> is_Some (pol_OnExhausted p)) ->
  let evt := fromStripeEvent e in
  let res := exec (Handle ConstructEvent w r) W in
  let '(err, a) := run_dispatch w evt (wd_app W) in
  match err with
  | None => ends 200 (se_ID e) Done a W res
  | Some msg =>
      let attempt := prior_attempts w (se_ID e) W + 1 in
      match policy_of w (se_Type e) attempt with
      | None => ends 500 (se_ID e) Free a W res
      | Some p =>
          exists callback, pol_OnExhausted p = Some callback /\
          let '(g, a') := exhausted callback (failed_row w evt msg (rq_body r)
                            (default "" (extractAppNamespace e)) attempt) a in
          match g with
          | None => ends 200 (se_ID e) Done a' W res
          | Some _ => ends 500 (se_ID e) Free a' W res
          end
      end
  end.
Proof.
  intros H1 H2 H3 H4 H5 H6 H7 Hcb. pose proof (Handle_ends w r e W H1 H2 H3 H4 H5 H6 H7) as Hends. cbv zeta in Hends |- *.
  destruct (run_dispatch _ _ _) as [[msg|] a]; [|done]. destruct (policy_of _ _ _) as [p|] eqn:Ep; [|done].
  destruct (Hcb p) as [f Hf]; [by eapply policy_of_configured|]. exists f. split; [done|].
  unfold give_up_call in Hends. by rewrite Hf in Hends.
Qed.

(** A policy without a callback gives up for good: at the last attempt it allows, a failed
    event is answered with 200 and done. *)
Theorem nil_callback_gives_up w r e p msg a W :
  rq_source_allowed r = true -> rq_read_error r = false ->
  (0 < w_maxBodyBytes w -> Z.of_nat (String.length (rq_body r)) <= w_maxBodyBytes w) ->
  verifySignature ConstructEvent w (rq_body r) (rq_signature r) = Some e ->
  classifyNamespace (w_namespace w) e = filterDispatch -> w_queue w = false ->
  slot_at W (se_ID e) = Free ->
  run_dispatch w (fromStripeEvent e) (wd_app W) = (Some msg, a) ->
  policy_of w (se_Type e) (prior_attempts w (se_ID e) W + 1) = Some p -> pol_OnExhausted p = None ->
  ends 200 (se_ID e) Done a W (exec (Handle ConstructEvent w r) W).
Proof.
  intros H1 H2 H3 H4 H5 H6 H7 Hd Hp Hn. pose proof (Handle_ends w r e W H1 H2 H3 H4 H5 H6 H7) as Hends. cbv zeta in Hends.
  rewrite Hd, Hp in Hends. unfold give_up_call in Hends. by rewrite Hn in Hends.
Qed.

(** A request that does not check out does nothing. When the source is refused,
    the body is too large or unreadable, or no configured secret verifies the
    signature, [Handle] answers 403, 413 or 400 without a single call to the store,
    the log, the queue or the application. *)
Theorem Handle_rejects w r :
  rq_source_allowed r = false \/ rq_read_error r = true \/
  verifySignature ConstructEvent w (rq_body r) (rq_signature r) = None ->
  exists status, Handle ConstructEvent w r = Ret status /\
    (status = 403 \/ status = 413 \/ status = 400).
Proof.
  intros Hr. unfold Handle. destruct (rq_source_allowed r); cbn [negb]; [|eauto].
  destruct (_ && _); [eauto|]. destruct (rq_read_error r); [eauto|].
  destruct Hr as [?|[?| ->]]; [done..|eauto].
Qed.

(** Duplicates and foreign events never reach the application. A delivery of an
    event that is done answers 200 and changes nothing at all; one that is claimed by
    another delivery likewise; and an event stamped with another application's
    namespace is marked done without running any handler. *)
Theorem Handle_suppresses w r e W :
  verifySignature ConstructEvent w (rq_body r) (rq_signature r) = Some e ->
  rq_source_allowed r = true -> rq_read_error r = false ->
  (0 < w_maxBodyBytes w -> Z.of_nat (String.length (rq_body r)) <= w_maxBodyBytes w) ->
  (slot_at W (se_ID e) <> Free -> exec (Handle ConstructEvent w r) W = (200, W)) /\
  (slot_at W (se_ID e) = Free -> classifyNamespace (w_namespace w) e = filterSkip ->
     ends 200 (se_ID e) Done (wd_app W) W (exec (Handle ConstructEvent w r) W)).
Proof.
  intros Hv Hsrc Hre Hsz. unfold Handle. rewrite Hsrc, Hre, Hv. cbn [negb].
  assert ((0 <? w_maxBodyBytes w) && (w_maxBodyBytes w <? Z.of_nat (String.length (rq_body r))) = false)
    as ->. { destruct (0 <? w_maxBodyBytes w) eqn:E; [|done]. reflect_bools. apply Z.ltb_ge. auto. }
  split.
  - intros Hs. cbn [WebhookWorld.exec]. destruct (slot_at W (se_ID e)) as [|tok|] eqn:E; [done| |done].
    cbn [WebhookWorld.exec]. by rewrite E.
  - intros Hs Hc. cbn [WebhookWorld.exec]. rewrite Hs. cbn [WebhookWorld.exec]. rewrite Hs. cbn [negb].
    unfold handle_claimed. rewrite Hc.
    apply (ends_done 200 _ ("tok_" ^^ pretty (wd_tokens W))); [|intros W'; cbn; apply exec_answer].
    unfold in_hand, slot_at. cbn. split; [by rewrite lookup_insert_eq|]. split; [done|].
    intros i Hi. by rewrite lookup_insert_ne.
Qed.

Lemma exec_markQueued {A} w item status err n (a : A) W :
  wd_app (snd (exec (markQueuedProcessed w item status err n ;; Ret a) W)) = wd_app W.
Proof.
  unfold markQueuedProcessed, recordToLog. cbn. destruct (decide _), (w_eventLog w); done.
Qed.

(** A queue worker runs the handler whatever the store says. Processing an item
    dispatches its event even when the store has it as done, so that processing an
    item twice runs the handler twice. *)
Theorem ProcessQueued_always_runs w item e W :
  UnmarshalEvent (qi_Body item) = Ok e ->
  fst (run_dispatch w (fromStripeEvent e) (wd_app W)) = None ->
  wd_app (snd (exec (ProcessQueued UnmarshalEvent w item) W)) =
    snd (run_dispatch w (fromStripeEvent e) (wd_app W)).
Proof.
  intros Hu Hr. unfold ProcessQueued. rewrite Hu, exec_bind, exec_dispatch, Hr. cbn [fst snd].
  by rewrite exec_markQueued.
Qed.
End outcome.

(** ** The in-memory queue *)
Import MQ.
Lemma busy_insert (l : list (option QueueItem)) i o o' :
  l !! i = Some o ->
  exists r, List.concat (map (fun o => match o with Some i => [i] | None => [] end) l)
      ≡ₚ match o with Some x => x :: r | None => r end /\
    List.concat (map (fun o => match o with Some i => [i] | None => [] end) (<[i := o']> l))
      ≡ₚ match o' with Some x => x :: r | None => r end.
Proof.
  intros Hi. set (f := fun o : option QueueItem => match o with Some i => [i] | None => [] end).
  exists (List.concat (map f (take i l)) ++ List.concat (map f (drop (S i) l))).
  set (r := List.concat (map f (take i l)) ++ _).
  assert (E : forall x, List.concat (map f (take i l ++ x :: drop (S i) l)) ≡ₚ
    match x with Some y => y :: r | None => r end).
  { intros x. rewrite map_app, concat_app. cbn. destruct x; cbn; [|done].
    symmetry. apply Permutation_middle. }
  split.
  - rewrite <- (E o). by rewrite (take_drop_middle l i o Hi).
  - rewrite <- (E o'). by rewrite insert_take_drop by (by eapply lookup_lt_Some).
Qed.

(** The in-memory queue loses and duplicates nothing. The items it accepted are,
    in order, those the workers took and those still in the channel; the items taken
    are exactly those dispatched and those being dispatched; the channel never exceeds
    its capacity; and when it is shut down and the workers have drained it, every
    accepted item has been dispatched exactly once. *)
Theorem MemoryQueue_fifo capacity workers q acc :
  reach capacity workers q acc ->
  (exists taken, acc = taken ++ mq_ch q /\ taken ≡ₚ mq_done q ++ busy_items q) /\
  Depth q <= Capacity q /\
  (mq_ch q = [] -> busy_items q = [] -> acc ≡ₚ mq_done q).
Proof.
  intros Hr.
  assert (I : (exists taken, acc = taken ++ mq_ch q /\ taken ≡ₚ mq_done q ++ busy_items q) /\
              Depth q <= Capacity q).
  { unfold Depth, Capacity. induction Hr as [|q acc q' new _ [(taken & -> & Hp) Hd] Hs].
    - split; [|cbn; lia]. exists []. split; [done|]. unfold busy_items. cbn.
      by induction (Z.to_nat _).
    - destruct Hs as [item q q' He|item e q q' He|q Hq|i item ch q Hb Hc|i item failed q Hb|q];
        unfold busy_items in *; cbn in *.
      + unfold enqueue in He. destruct (mq_closed q); [done|].
        destruct (Nat.ltb_spec (List.length (mq_ch q)) (mq_cap q)); [|done].
        injection He as <-. cbn. rewrite length_app. cbn. split; [|lia].
        exists taken. by rewrite app_assoc.
      + unfold enqueue in He. destruct (mq_closed q); [injection He as _ <-|];
          [|destruct (Nat.ltb _ _); done].
        rewrite app_nil_r. eauto.
      + rewrite app_nil_r. eauto.
      + rewrite app_nil_r. rewrite Hc in *. cbn in Hd. split; [|lia].
        exists (taken ++ [item]). split; [by rewrite <- app_assoc|].
        destruct (busy_insert (mq_busy q) i None (Some item) Hb) as (r & E1 & E2).
        rewrite E2, Hp, E1. solve_Permutation.
      + rewrite app_nil_r. split; [|done]. exists taken. split; [done|].
        destruct (busy_insert (mq_busy q) i (Some item) None Hb) as (r & E1 & E2).
        rewrite Hp, E1, E2, <- app_assoc. done.
      + rewrite app_nil_r. eauto. }
  destruct I as [(taken & -> & Hp) Hd]. split; [by exists taken|]. split; [done|].
  intros -> Hb. by rewrite app_nil_r, Hp, Hb, app_nil_r.
Qed.

(** ** The log throttle *)

(** How many calls an answer accounts for: the line itself and those it reports. *)
Definition accounted (a : Z) : Z := if a <? 0 then 0 else a + 1.

Definition limiter_ok (l : logRateLimiter) : Prop :=
  0 <= suppressed l /\ 0 <= emittedThisSec l <= burst_of l.

Lemma burst_of_pos l : 0 < burst_of l.
Proof. unfold burst_of, defaultBurst. destruct (Z.leb_spec (burstPerSec l) 0); lia. Qed.

Lemma limiter_step t l a l1 :
  limiter_ok l -> recordAndShouldLog t l = (a, l1) ->
  limiter_ok l1 /\ burst_of l1 = burst_of l /\ lastSec l1 = t /\
  accounted a + suppressed l1 = suppressed l + 1 /\
  (if 0 <=? a then 1 else 0) + (if t =? lastSec l then emittedThisSec l else 0) = emittedThisSec l1.
Proof.
  pose proof (burst_of_pos l) as Hb. intros [Hs He]. unfold recordAndShouldLog.
  destruct (Z.eqb_spec t (lastSec l)) as [->|]; cbn;
    case_match eqn:Hc; rewrite ?Z.leb_le, ?Z.leb_gt in Hc; intros [= <- <-];
    unfold limiter_ok, accounted, burst_of in *; cbn in *; rewrite ?Z.eqb_refl;
    repeat case_match; repeat split; lia.
Qed.

Lemma limiter_run_ok times l answers l' :
  limiter_ok l -> limiter_run times l = (answers, l') ->
  limiter_ok l' /\ burst_of l' = burst_of l /\
  sumZ (map accounted answers) + suppressed l' = suppressed l + Z.of_nat (List.length times).
Proof.
  revert l answers. induction times as [|t times IH]; intros l answers Hl; cbn.
  - intros [= <- <-]. cbn. split_and!; [done|done|lia].
  - destruct (recordAndShouldLog t l) as [a l1] eqn:E1.
    destruct (limiter_run times l1) as [rest l2] eqn:E2. intros [= <- <-].
    destruct (limiter_step _ _ _ _ Hl E1) as (H1 & Hb & _ & Ha & _).
    destruct (IH _ _ H1 E2) as (H2 & Hb2 & Hs2).
    split_and!; [done|congruence|]. cbn [map]. rewrite sumZ_cons. lia.
Qed.

Lemma limiter_second n t l :
  limiter_ok l ->
  Z.of_nat (List.length (List.filter (fun a => 0 <=? a) (fst (limiter_run (replicate n t) l)))) +
  (if t =? lastSec l then emittedThisSec l else 0) <= burst_of l.
Proof.
  revert l. induction n as [|n IH]; intros l Hl; cbn [replicate limiter_run].
  - pose proof (burst_of_pos l). destruct Hl. cbn. case_match; lia.
  - destruct (recordAndShouldLog t l) as [a l1] eqn:E1.
    destruct (limiter_step _ _ _ _ Hl E1) as (H1 & Hb & Ht & _ & Ha).
    specialize (IH l1 H1). rewrite Ht, Z.eqb_refl, Hb in IH.
    destruct (limiter_run (replicate n t) l1) as [rest l2]. cbn in *.
    destruct (0 <=? a); cbn [List.length]; lia.
Qed.

(** The throttle loses no count. From a fresh limiter and whatever the clock
    says, the lines emitted, the suppressed calls they report and the calls not yet
    reported add up to the calls made; and within one second at most the burst is
    emitted. *)
Theorem limiter_accounts times t n burst :
  let '(answers, l) := limiter_run times (mkLimiter 0 0 0 burst) in
  sumZ (map accounted answers) + suppressed l = Z.of_nat (List.length times) /\
  Z.of_nat (List.length (List.filter (fun a => 0 <=? a)
    (fst (limiter_run (replicate n t) l)))) <= burst_of (mkLimiter 0 0 0 burst).
Proof.
  destruct (limiter_run times _) as [answers l] eqn:E.
  assert (H0 : limiter_ok (mkLimiter 0 0 0 burst))
    by (pose proof (burst_of_pos (mkLimiter 0 0 0 burst)); split; cbn [suppressed emittedThisSec]; lia).
  destruct (limiter_run_ok _ _ _ _ H0 E) as (Hl & Hb & Hs). cbn in Hs. split; [done|].
  pose proof (limiter_second n t l Hl) as B. rewrite Hb in B. destruct Hl as [_ He].
  case_match; lia.
Qed.

(** ** A concrete system: two deliveries of one event *)
Module WebhookDemo.
(** The reference store: it never fails and honours every call of the holder. *)
#[export, refine] Instance ref_store : IdemStore (gmap string slot) := {|
  slot_of st id := default Free (st !! id);
  get_rel st id r st' := st' = st /\
    r = Ok (match default Free (st !! id) with Done => Some okResponse | _ => None end);
  lock_rel st id r st' :=
    match default Free (st !! id) with
    | Free => exists tok, r = Ok (tok, false, true) /\ st' = <[id := Claimed tok]> st
    | _ => r = Ok ("", false, false) /\ st' = st
    end;
  set_rel st id tok r st' := r = None /\ st' = <[id := Done]> st;
  unlock_rel st id tok r st' := r = None /\ st' = <[id := Free]> st;
  get_law := _; get_done := _; lock_law := _; set_law := _; set_frees := _; set_others := _; unlock_law := _; unlock_others := _;
|}.
Proof.
  - by intros s id r s' [-> _].
  - cbn. intros s id s' [_ [= Hr]] E. by rewrite E in Hr.
  - cbn. intros s id r s'. destruct (default Free (s !! id)) eqn:E; intros Hr.
    + destruct Hr as (tok & -> & ->). rewrite lookup_insert_eq. split_and!; [done..|].
      intros i Hi. by rewrite lookup_insert_ne.
    + by destruct Hr as [-> ->].
    + by destruct Hr as [-> ->].
  - cbn. intros s id tok r s' [-> ->] _. rewrite lookup_insert_eq. by left.
  - cbn. intros s id tok r s' [-> ->]. by rewrite lookup_insert_eq.
  - cbn. intros s id tok r s' [-> ->] i Hi. by rewrite lookup_insert_ne.
  - cbn. intros s id tok r s' [-> ->] _. rewrite lookup_insert_eq. by left.
  - cbn. intros s id tok r s' [-> ->] i Hi. by rewrite lookup_insert_ne.
Defined.

Definition paid : stripe_event := mkStripeEvent "evt_1" "invoice.paid" true 1700000000 (Some "{}").
(** One signature is good, and the body ["paid"] is the event above. *)
Definition construct (body sg secret : string) : option stripe_event :=
  if String.eqb body "paid" && String.eqb sg "good" then Some paid else None.
Definition unmarshal (body : string) : res string stripe_event :=
  if String.eqb body "paid" then Ok paid else Err "not an event".
Definition hooks : Webhooks unit :=
  mkWebhooks "whsec" [] "" (mkHandlers None None None (Some tt) None None None None None None None
    None None None None None None None) ∅ true false ∅ 1000.
Definition good_request : Request := mkRequest true "paid" false "good".

Lemma parses : construct_parses construct unmarshal.
Proof.
  intros body sg secret e. unfold construct, unmarshal. destruct (String.eqb body "paid"); [|done].
  cbn. destruct (String.eqb sg "good"); [congruence|done].
Qed.

Abbreviation demo_reachable := (sys_reachable (T := gmap string slot) hooks construct unmarshal).

(** The first delivery has claimed the event and is about to run its handler. *)
Lemma racing : exists st k p2, demo_reachable
  (mkSys st [Run tt (fromStripeEvent paid) k; p2] [] []) /\
  k None = forget (SetDone "evt_1" "tok" (fun _ => Now (fun now =>
    recordToLog hooks (log_row "evt_1" "invoice.paid" "processed" "" 0 (Some now) "paid" "") ;; Ret 200))).
Proof.
  assert (R0 : demo_reachable (mkSys ∅ [] [] [])) by (apply sys_start; intros id tok; done).
  assert (G : get_rel (∅ : gmap string slot) "evt_1" (Ok None) ∅) by done.
  assert (L : lock_rel (∅ : gmap string slot) "evt_1" (Ok ("tok", false, true)) {["evt_1" := Claimed "tok"]})
    by (by exists "tok").
  pose proof (sys_next _ _ _ _ _ R0 (sys_deliver _ _ _ _ _ _ _ good_request)) as R1.
  pose proof (sys_next _ _ _ _ _ R1 (sys_deliver _ _ _ _ _ _ _ good_request)) as R2. cbn in R2.
  epose proof (sys_next _ _ _ _ _ R2 (sys_thread _ _ _ ∅ [] _ _ _ _ ∅ _ _ _
    (ts_get ∅ "evt_1" _ (Ok None) ∅ G))) as R3. cbn in R3.
  epose proof (sys_next _ _ _ _ _ R3 (sys_thread _ _ _ ∅ [] _ _ _ _ _ _ _ _
    (ts_lock ∅ "evt_1" _ (Ok ("tok", false, true)) _ L))) as R4. cbn in R4.
  do 3 eexists. split; [exact R4|]. reflexivity.
Defined.

Abbreviation demo_lapsing := (lapse_reachable (T := gmap string slot) hooks construct unmarshal).
Lemma no_lapse s : demo_reachable s -> demo_lapsing (s, []).
Proof. induction 1 as [st Hst|s s' _ IH Hs]; [by apply lr_start|]. eapply lr_next; [exact IH|by apply ls_step]. Qed.
(** The handler of the first delivery is running when its claim expires, and it succeeds. *)
Lemma handled_at_most_once_witness : exists s : sys,
  demo_lapsing (s, ["evt_1"]) /\ (wins "evt_1" (sy_trace s) <= 1 + 1)%nat /\ wins "evt_1" (sy_trace s) = 1%nat /\
  slot_of (sy_store s) "evt_1" = Free.
Proof.
  destruct racing as (st & k & p2 & R & _). apply no_lapse in R.
  epose proof (lr_next _ _ _ _ _ R (ls_expires _ _ _ st _ _ _ _ "evt_1" (<["evt_1" := Free]> st) _ _)) as R1.
  Unshelve.
  2: { cbn. by rewrite lookup_insert_eq. }
  2: { cbn. intros i Hi. by rewrite lookup_insert_ne. }
  pose proof (lr_next _ _ _ _ _ R1 (ls_step _ _ _ _ _ _ (sys_thread _ _ _ _ [] _ _ _ _ _ _ _ _
    (ts_run (<["evt_1" := Free]> st) tt (fromStripeEvent paid) k None)))) as R'.
  eexists. split; [exact R'|]. split_and!; [|reflexivity|cbn; by rewrite lookup_insert_eq].
  apply (handled_at_most_once hooks construct unmarshal _ ["evt_1"] "evt_1" parses R').
Defined.

Lemma handlers_exclusive_witness : exists (s : sys) p p2,
  demo_reachable s /\ sy_threads s = [p; p2] /\ about_to_run "evt_1" p /\ ~ about_to_run "evt_1" p2.
Proof.
  destruct racing as (st & k & p2 & R & _).
  exists (mkSys st [Run tt (fromStripeEvent paid) k; p2] [] []), (Run tt (fromStripeEvent paid) k), p2.
  assert (A : about_to_run "evt_1" (Run tt (fromStripeEvent paid) k)) by (do 3 eexists; done).
  split; [done|]. split; [done|]. split; [done|].
  apply (proj2 (handlers_exclusive hooks construct unmarshal _ [] _ [p2] "evt_1" parses R eq_refl A)).
  by left.
Defined.

(** The application counts its runs and fails the first one. *)
Definition flaky (_ : unit) (_ : Event) (n : nat) : option string * nat :=
  (match n with O => Some "down" | _ => None end, S n).
Definition never (_ : unit) (_ : LoggedEvent) (n : nat) : option string * nat := (None, n).
Definition world (n : nat) : World nat := mkWorld ∅ 0 ∅ [] false 1700000000 n.
Definition world_done : World nat := mkWorld {["evt_1" := Done]} 1 ∅ [] false 1700000000 1%nat.

(** The same with a policy that allows one attempt. *)
Definition hooks_once : Webhooks unit :=
  mkWebhooks "whsec" [] "" (w_handlers hooks) ∅ true false {["invoice.paid" := mkPolicy 1 (Some tt)]} 1000.

Lemma Handle_outcome_witness :
  ends 500 "evt_1" Free 1%nat (world 0) (exec flaky never (Handle construct hooks good_request) (world 0)) /\
  ends 200 "evt_1" Done 2%nat (world 1) (exec flaky never (Handle construct hooks good_request) (world 1)) /\
  ends 200 "evt_1" Done 1%nat (world 0) (exec flaky never (Handle construct hooks_once good_request) (world 0)).
Proof.
  split_and!.
  - apply (Handle_outcome flaky never construct hooks good_request paid (world 0));
      first [reflexivity|vm_compute; intros; discriminate].
  - apply (Handle_outcome flaky never construct hooks good_request paid (world 1));
      first [reflexivity|vm_compute; intros; discriminate].
  - destruct (Handle_outcome flaky never construct hooks_once good_request paid (world 0)) as (f & [= <-] & Hends);
      [reflexivity|reflexivity|vm_compute; intros; discriminate|reflexivity..| |exact Hends].
    intros p [= <-]. by eexists.
Defined.

Lemma Handle_rejects_witness : exists status,
  Handle construct hooks (mkRequest true "paid" false "forged") = Ret status /\
  (status = 403 \/ status = 413 \/ status = 400).
Proof. apply (Handle_rejects construct hooks). right. right. reflexivity. Defined.

Lemma Handle_suppresses_witness :
  exec flaky never (Handle construct hooks good_request) world_done = (200, world_done).
Proof.
  apply (proj1 (Handle_suppresses flaky never construct hooks good_request paid world_done eq_refl
    eq_refl eq_refl ltac:(vm_compute; intros; discriminate))).
  vm_compute. discriminate.
Defined.

Lemma ProcessQueued_always_runs_witness :
  wd_app (snd (exec flaky never
    (ProcessQueued unmarshal hooks (mkItem "evt_1" "invoice.paid" "" "paid" "tok")) world_done)) = 2%nat.
Proof.
  apply (ProcessQueued_always_runs flaky never unmarshal hooks _ paid world_done); reflexivity.
Defined.

Definition item (id : string) : QueueItem := mkItem id "invoice.paid" "" "paid" "tok".
#[local] Ltac advance R c :=
  let R' := fresh in
  eassert (R' : reach 2 1 _ _) by (eapply reach_step; [exact R|]; eapply c; reflexivity);
  clear R; rename R' into R; cbn in R.
Lemma MemoryQueue_fifo_witness : exists q : MemoryQueue,
  reach 2 1 q [item "evt_1"; item "evt_2"] /\ mq_closed q = true /\
  [item "evt_1"; item "evt_2"] ≡ₚ mq_done q.
Proof.
  epose proof (reach_start 2 1) as R.
  advance R (step_accept (item "evt_1")). advance R (step_accept (item "evt_2")).
  advance R (step_take 0 (item "evt_1")). advance R step_shutdown.
  advance R (step_finish 0 (item "evt_1") true).
  advance R (step_take 0 (item "evt_2")). advance R (step_finish 0 (item "evt_2") false).
  eexists. split; [exact R|]. split; [reflexivity|].
  apply (proj2 (proj2 (MemoryQueue_fifo _ _ _ _ R))); reflexivity.
Defined.
End WebhookDemo.
