(* ===== verification/WebhookSource.v ===== *)
(** * WebhookSource: where a delivery comes from, the configuration of the receiver, and the signer
      (src/webhooks/handler.go: New, extractClientIP, ipInAllowlist, SetAllowedCIDRs;
      src/webhooks/source_ips.go, signer.go).

    The addresses of package net are byte strings of four or sixteen bytes, here lists of
    numbers below 256; the readers are those of net and net/netip. *)
From S2P Require Import Prelude Json Events StripeApi Webhooks WebhookWorld.
Import MemoryLog.

(** ** Package net: addresses and networks *)
Fixpoint split_all (c : ascii) (s : string) : list string :=
  match s with
  | EmptyString => [""]
  | String x s' =>
      if Ascii.eqb x c then "" :: split_all c s'
      else match split_all c s' with
           | [] => [String x ""]
           | f :: rest => String x f :: rest
           end
  end.
(** A decimal field of at most 255 without a leading zero. *)
Definition parse_octet (s : string) : option N :=
  match s with
  | String "0" (String _ _) => None
  | _ => match parse_digits s with
         | Some n => if (n <=? 255)%N then Some n else None
         | None => None
         end
  end.
Definition parseIPv4 (s : string) : option (list N) :=
  match split_all "." s with
  | [a; b; c; d] =>
      match parse_octet a, parse_octet b, parse_octet c, parse_octet d with
      | Some a, Some b, Some c, Some d => Some [a; b; c; d]
      | _, _, _, _ => None
      end
  | _ => None
  end.
(** At most four hexadecimal digits: how many, their value, and what follows. *)
Fixpoint read_hex (s : string) (off : nat) (acc : N) : option (nat * N * string) :=
  match s with
  | EmptyString => Some (off, acc, s)
  | String c s' =>
      match hex_val c with
      | None => Some (off, acc, s)
      | Some d => if (3 <? off)%nat then None else read_hex s' (S off) (acc * 16 + d)%N
      end
  end.
(** The fields of an IPv6 address, two bytes a turn: the bytes so far and where the double
    colon stood. *)
Fixpoint read_fields (turns : nat) (ip : list N) (ellipsis : option nat) (s : string)
  : option (list N * option nat * string) :=
  match turns with
  | O => Some (ip, ellipsis, s)
  | S turns =>
      match read_hex s 0 0 with
      | None => None
      | Some (off, acc, rest) =>
          if (off =? 0)%nat then None
          else
          let ip' := ip ++ [(acc / 256)%N; (acc mod 256)%N] in
          match rest with
          | EmptyString => Some (ip', ellipsis, "")
          | String c more =>
              if Ascii.eqb c "." then
                if bool_decide (ellipsis = None) && negb (List.length ip =? 12)%nat then None
                else if (16 <? List.length ip + 4)%nat then None
                else match parseIPv4 s with None => None | Some b => Some (ip ++ b, ellipsis, "") end
              else if negb (Ascii.eqb c ":") then None
              else match more with
              | EmptyString => None
              | String c' more' =>
                  if Ascii.eqb c' ":" then
                    match ellipsis with
                    | Some _ => None
                    | None => if String.eqb more' "" then Some (ip', Some (List.length ip'), "")
                              else read_fields turns ip' (Some (List.length ip')) more'
                    end
                  else read_fields turns ip' ellipsis more
              end
          end
      end
  end.
Definition expand (r : list N * option nat * string) : option (list N) :=
  let '(ip, ellipsis, s) := r in
  if negb (String.eqb s "") then None
  else if (List.length ip <? 16)%nat then
    match ellipsis with
    | None => None
    | Some e => Some (take e ip ++ replicate (16 - List.length ip) 0%N ++ drop e ip)
    end
  else match ellipsis with Some _ => None | None => Some ip end.
Definition parseIPv6 (s : string) : option (list N) :=
  if has_prefix "::" s then
    let rest := string_drop 2 s in
    if String.eqb rest "" then Some (replicate 16 0%N)
    else match read_fields 8 [] (Some 0%nat) rest with Some r => expand r | None => None end
  else match read_fields 8 [] None s with Some r => expand r | None => None end.
(** [netip.ParseAddr], where a zone is refused: four bytes or sixteen. *)
Fixpoint first_mark (s : string) : option ascii :=
  match s with
  | EmptyString => None
  | String c s' => if Ascii.eqb c "." || Ascii.eqb c ":" then Some c else first_mark s'
  end.
Definition ParseAddr (s : string) : option (list N) :=
  match first_mark s with
  | None => None
  | Some c => if Ascii.eqb c "." then parseIPv4 s else parseIPv6 s
  end.
Definition v4InV6Prefix : list N := replicate 10 0%N ++ [255; 255]%N.
Definition As16 (a : list N) : list N := if (List.length a =? 4)%nat then v4InV6Prefix ++ a else a.
Definition ParseIP (s : string) : option (list N) := As16 <$> ParseAddr s.
Definition To4 (ip : list N) : option (list N) :=
  if (List.length ip =? 4)%nat then Some ip
  else if (List.length ip =? 16)%nat && bool_decide (take 12 ip = v4InV6Prefix) then Some (drop 12 ip)
  else None.

Definition mask_byte (ones : N) : N := if (8 <=? ones)%N then 255%N else (255 - N.shiftr 255 ones)%N.
Definition CIDRMask (ones : N) (bytes : nat) : list N := map (fun k => mask_byte (ones - 8 * N.of_nat k)) (seq 0 bytes).
Record IPNet := mkIPNet { ipn_IP : list N; ipn_Mask : list N }.
Definition ParseCIDR (s : string) : option IPNet :=
  match split_at "/" s with
  | None => None
  | Some (addr, mask) =>
      match ParseAddr addr with
      | None => None
      | Some a =>
          match parse_digits mask with
          | None => None
          | Some n =>
              if (8 * N.of_nat (List.length a) <? n)%N then None
              else let m := CIDRMask n (List.length a) in Some (mkIPNet (zip_with N.land a m) m)
          end
      end
  end.
(** [IPNet.Contains]. *)
Definition Contains (n : IPNet) (ip : list N) : bool :=
  let '(nn, m) :=
    match To4 (ipn_IP n) with
    | Some ip4 => (ip4, if (List.length (ipn_Mask n) =? 16)%nat then drop 12 (ipn_Mask n) else ipn_Mask n)
    | None => (ipn_IP n, ipn_Mask n)
    end in
  let ip := default ip (To4 ip) in
  bool_decide (List.length ip = List.length nn) && bool_decide (zip_with N.land nn m = zip_with N.land ip m).

(** [net.SplitHostPort], of which the host is used. *)
Fixpoint split_last (c : ascii) (s : string) : option (string * string) :=
  match s with
  | EmptyString => None
  | String x s' =>
      match split_last c s' with
      | Some (a, b) => Some (String x a, b)
      | None => if Ascii.eqb x c then Some ("", s') else None
      end
  end.
Definition SplitHost (hostport : string) : option string :=
  match split_last ":" hostport with
  | None => None
  | Some (before, port) =>
      match hostport with
      | String "[" inner =>
          match split_at "]" inner with
          | None => None
          | Some (host, after) =>
              if String.eqb after (":" ^^ port) && negb (string_has "[" inner) && negb (string_has "]" after)
              then Some host else None
          end
      | _ => if string_has ":" before || string_has "[" hostport || string_has "]" hostport then None else Some before
      end
  end.

(** [strings.TrimSpace]: the encodings of the white space of Unicode. *)
Definition bytes (l : list N) : string := foldr (fun n s => String (chr n) s) "" l.
Definition spaces : list string :=
  map (fun n => bytes [n]) [9; 10; 11; 12; 13; 32]%N ++
  map bytes ([[194; 133]; [194; 160]; [225; 154; 128]; [226; 128; 168]; [226; 128; 169]; [226; 128; 175]; [226; 129; 159]; [227; 128; 128]]%N ++
             map (fun k => [226; 128; 128 + N.of_nat k]%N) (seq 0 11)).
Fixpoint trim_front (sp : list string) (fuel : nat) (s : string) : string :=
  match fuel with
  | O => s
  | S fuel =>
      match List.find (fun p => has_prefix p s) sp with
      | Some p => trim_front sp fuel (string_drop (String.length p) s)
      | None => s
      end
  end.
Fixpoint string_rev (s acc : string) : string := match s with EmptyString => acc | String c s' => string_rev s' (String c acc) end.
Definition TrimSpace (s : string) : string :=
  let s := trim_front spaces (String.length s) s in
  string_rev (trim_front (map (fun p => string_rev p "") spaces) (String.length s) (string_rev s "")) "".

(** ** The address filter (handler.go) *)
(** A request, as far as it tells where it comes from. *)
Record HttpSource := mkSource { hs_Header : string -> string; hs_RemoteAddr : string }.
Definition extractClientIP (realIPHeader : string) (r : HttpSource) : string :=
  let peer := match SplitHost (hs_RemoteAddr r) with None => hs_RemoteAddr r | Some host => host end in
  if negb (String.eqb realIPHeader "") then
    let h := hs_Header r realIPHeader in
    if negb (String.eqb h "") then
      TrimSpace (match split_at "," h with Some (a, _) => a | None => h end)
    else peer
  else peer.
Definition ipInAllowlist (cidrs : list IPNet) (ipStr : string) : bool :=
  match cidrs with
  | [] => true
  | _ => match ParseIP ipStr with
         | None => false
         | Some ip => existsb (fun n => Contains n ip) cidrs
         end
  end.
Definition allowlistConfigured (cidrs : list IPNet) : bool := (0 <? List.length cidrs)%nat.
Fixpoint parse_cidrs (cidrs : list string) : res string (list IPNet) :=
  match cidrs with
  | [] => Ok []
  | c :: rest =>
      match ParseCIDR c with
      | None => Err c
      | Some n => match parse_cidrs rest with Err e => Err e | Ok l => Ok (n :: l) end
      end
  end.
Definition SetAllowedCIDRs (cidrs : list string) (allowed : list IPNet) : option string * list IPNet :=
  match parse_cidrs cidrs with
  | Err c => (Some ("webhooks.SetAllowedCIDRs: " ^^ c), allowed)
  | Ok parsed => (None, parsed)
  end.
(** The beginning of [Handle]. *)
Definition source_allowed (allowed : list IPNet) (realIPHeader : string) (r : HttpSource) : bool :=
  if allowlistConfigured allowed then ipInAllowlist allowed (extractClientIP realIPHeader r) else true.

(** ** The configuration (handler.go, New) *)
Definition DefaultDedupTTL : Z := 7 * 24 * 3600 * second.
Definition DefaultSignatureTolerance : Z := 5 * 60 * second.
Definition DefaultSyncDispatchTimeout : Z := 20 * second.
Definition DefaultMaxBodyBytes : Z := 2 ^ 20.
Section config.
Context {H : Type}.
Record WebhooksConfig := mkWebhooksConfig {
  wc_SigningSecret : string; wc_AdditionalSigningSecrets : list string; wc_Store : bool; wc_Namespace : string;
  wc_Handlers : Handlers H; wc_DedupTTL : Z; wc_SignatureTolerance : Z; wc_EventLog : bool; wc_Queue : bool;
  wc_PerEventPolicy : gmap string (EventPolicy H); wc_SyncDispatchTimeout : Z; wc_MaxBodyBytes : Z;
  wc_AllowedSourceCIDRs : list string; wc_RealIPHeader : string }.
(** The receiver: what Webhooks.v knows of it, and the rest. *)
Record Receiver := mkReceiver {
  rc_webhooks : Webhooks H; rc_dedupTTL : Z; rc_sigTolerance : Z; rc_allowedCIDRs : list IPNet; rc_realIPHeader : string;
  rc_syncDispatchTimeout : Z }.
Definition or_default (v d : Z) : Z := if v =? 0 then d else v.
(** Zero is the default, negative turns the limit off. *)
Definition limit_or_default (v d : Z) : Z := if v =? 0 then d else if v <? 0 then 0 else v.
(** An error is a panic. *)
Definition NewWebhooks (cfg : WebhooksConfig) : res string Receiver :=
  if String.eqb (wc_SigningSecret cfg) "" then Err "webhooks.New: SigningSecret is required"
  else if negb (wc_Store cfg) then Err "webhooks.New: Store is required"
  else match parse_cidrs (wc_AllowedSourceCIDRs cfg) with
  | Err c => Err ("webhooks.New: invalid CIDR " ^^ c)
  | Ok nets =>
      Ok (mkReceiver
        (mkWebhooks (wc_SigningSecret cfg) (wc_AdditionalSigningSecrets cfg) (wc_Namespace cfg) (wc_Handlers cfg) ∅ (wc_EventLog cfg)
           (wc_Queue cfg) (wc_PerEventPolicy cfg) (limit_or_default (wc_MaxBodyBytes cfg) DefaultMaxBodyBytes))
        (or_default (wc_DedupTTL cfg) DefaultDedupTTL) (or_default (wc_SignatureTolerance cfg) DefaultSignatureTolerance)
        nets (wc_RealIPHeader cfg) (limit_or_default (wc_SyncDispatchTimeout cfg) DefaultSyncDispatchTimeout))
  end.
(** The request that [Handle] of Webhooks.v sees. *)
Definition http_request (rc : Receiver) (src : HttpSource) (body : string) (read_error : bool) : Request :=
  mkRequest (source_allowed (rc_allowedCIDRs rc) (rc_realIPHeader rc) src) body read_error (hs_Header src "Stripe-Signature").
End config.
Definition StripeWebhookCIDRs : list string :=
  ["3.18.12.63/32"; "3.69.109.8/32"; "3.120.168.93/32"; "3.130.192.231/32"; "13.235.14.237/32"; "13.235.122.149/32";
   "18.211.135.69/32"; "35.154.171.200/32"; "35.157.207.129/32"; "52.15.183.38/32"; "54.88.130.119/32"; "54.88.130.237/32";
   "54.187.174.169/32"; "54.187.205.235/32"; "54.187.216.72/32"].

(** ** Fetching the addresses (source_ips.go) *)
Record FetchedIPs := mkFetched { fi_IPs : list string; fi_FetchedAt : Z; fi_Source : string }.
Definition CIDRs (f : FetchedIPs) : list string := map (fun ip => ip ^^ "/32") (fi_IPs f).
Definition StripeWebhookIPsURL : string := "https://stripe.com/files/ips/ips_webhooks.json".
(** The answer to the request: a failure of the transport, or a status and a body. *)
Inductive fetched := TransportError (msg : string) | Response (status : Z) (body : string).
(** [json.Decoder.Decode] reads one value and leaves what follows. *)
Definition Decode {A} (zero : A) (dec : decoder A) (data : string) : option A :=
  match read_value (S (2 * String.length data)) data with Some (j, _) => dec zero j | None => None end.
Definition dec_webhook_ips : decoder (list string) := dec_struct (fun x l => dec_field "WEBHOOKS" (dec_slice "" dec_string) x l).
Definition FetchStripeWebhookIPs (answer : fetched) (now : Z) : res string FetchedIPs :=
  match answer with
  | TransportError msg => Err ("webhooks.FetchStripeWebhookIPs: GET " ^^ StripeWebhookIPsURL ^^ ": " ^^ msg)
  | Response status body =>
      if negb (status =? 200) then Err ("webhooks.FetchStripeWebhookIPs: status=" ^^ fmt_d status)
      else match Decode [] dec_webhook_ips body with
      | None => Err "webhooks.FetchStripeWebhookIPs: parse JSON"
      | Some [] => Err "webhooks.FetchStripeWebhookIPs: upstream returned empty WEBHOOKS list"
      | Some ips => Ok (mkFetched ips now StripeWebhookIPsURL)
      end
  end.
(** The refresher and the list it keeps: whether the loop runs, the last fetch, the errors
    that were reported. *)
Record IPRefresher := mkRefresher {
  rf_running : bool; rf_interval : Z; rf_last : option FetchedIPs; rf_reported : list string; rf_allowed : list IPNet }.
Definition NewIPRefresher (interval : Z) (allowed : list IPNet) : IPRefresher :=
  mkRefresher false (if interval <=? 0 then 24 * 3600 * second else interval) None [] allowed.
Definition StartRefresher (answer : fetched) (now : Z) (r : IPRefresher) : option string * IPRefresher :=
  match FetchStripeWebhookIPs answer now with
  | Err e => (Some e, r)
  | Ok ips =>
      let '(_, allowed) := SetAllowedCIDRs (CIDRs ips) (rf_allowed r) in
      if rf_running r
      then (Some "webhooks.IPRefresher.Start: already started", mkRefresher true (rf_interval r) (Some ips) (rf_reported r) allowed)
      else (None, mkRefresher true (rf_interval r) (Some ips) (rf_reported r) allowed)
  end.
(** One turn of the loop. *)
Definition tick (answer : fetched) (now : Z) (r : IPRefresher) : IPRefresher :=
  match FetchStripeWebhookIPs answer now with
  | Err e => mkRefresher (rf_running r) (rf_interval r) (rf_last r) (rf_reported r ++ [e]) (rf_allowed r)
  | Ok ips =>
      let '(e, allowed) := SetAllowedCIDRs (CIDRs ips) (rf_allowed r) in
      mkRefresher (rf_running r) (rf_interval r) (Some ips)
        (match e with None => rf_reported r | Some e => rf_reported r ++ ["apply Stripe webhook CIDR allowlist: " ^^ e] end) allowed
  end.
Definition StopRefresher (r : IPRefresher) : IPRefresher := mkRefresher false (rf_interval r) (rf_last r) (rf_reported r) (rf_allowed r).
Definition Last (r : IPRefresher) : option FetchedIPs := rf_last r.

(** ** The signer (signer.go) *)
Fixpoint xor_pad (n : nat) (pad : N) (key : string) : string :=
  match n with
  | O => ""
  | S n => match key with
           | EmptyString => String (chr pad) (xor_pad n pad "")
           | String c key' => String (chr (N.lxor (byte c) pad)) (xor_pad n pad key')
           end
  end.
Section signer.
Context `{Sha256}.
(** crypto/hmac over SHA-256, blocks of 64 bytes. *)
Definition hmac_sha256 (key msg : string) : string :=
  let key := if (64 <? String.length key)%nat then sha256 key else key in
  sha256 (xor_pad 64 92 key ^^ sha256 (xor_pad 64 54 key ^^ msg)).
Definition signPayload (secret body : string) (t : Z) : string :=
  let ts := Unix t in
  "t=" ^^ fmt_d ts ^^ ",v1=" ^^ hex_encode (hmac_sha256 secret (fmt_d ts ^^ "." ^^ body)).
Definition NewSigner (secret : string) : res string string :=
  if String.eqb secret "" then Err "webhooks.NewSigner: secret is required" else Ok secret.
Definition Sign (signer body : string) (t : Z) : string := signPayload signer body t.
End signer.

(** The self test at start-up: [verify] is [webhook.ConstructEventWithOptions] at the tolerance
    of the receiver, [apiVersion] the version of the SDK, quoted. *)
Section operational.
Context {H : Type} `{Sha256} `{GoRuntime}.
Definition TestSignatureVerification (verify : string -> string -> string -> option stripe_event) (apiVersion : string) (now : Z)
    (w : Webhooks H) : bool :=
  let field k v := render_string k ^^ ":" ^^ v in
  let body := "{" ^^ field "id" (render_string "evt_startup_test") ^^ "," ^^ field "object" (render_string "event") ^^ "," ^^
              field "api_version" apiVersion ^^ "," ^^ field "type" (render_string "ping") ^^ "}" in
  bool_decide (is_Some (verify body (signPayload (w_signingSecret w) body now) (w_signingSecret w))).

(** ** Operational helpers, over the in-memory log (handler.go) *)
Definition StuckEvents (w : Webhooks H) (minAttempts : Z) (m : memoryLog) : list LoggedEvent :=
  if w_eventLog w then log_StuckEvents minAttempts m else [].
Definition RetrieveEvent (w : Webhooks H) (id : string) (m : memoryLog) : option LoggedEvent :=
  if w_eventLog w then log_Get id m else None.
Definition PruneOldEvents (w : Webhooks H) (before : Z) (m : memoryLog) : Z * memoryLog :=
  if w_eventLog w then log_PruneOlderThan before m else (0, m).
Definition lookupCustomHandler (w : Webhooks H) (eventType : string) : option H := w_customHandlers w !! eventType.
(** The loop, for the readings of the clock at its start and at its ticks until it is stopped. *)
Definition StartAutoPrune (w : Webhooks H) (maxAge interval : Z) (clock : list Z) (m : memoryLog) : memoryLog :=
  if negb (w_eventLog w) || (maxAge <=? 0) || (interval <=? 0) then m
  else foldl (fun m now => snd (PruneOldEvents w (now - maxAge) m)) m clock.
End operational.
