(* ===== verification/WebhookSourceFacts.v ===== *)
(** * WebhookSourceFacts: which addresses the filter admits, and how its list is kept. *)
From Stdlib Require Import DecimalString.
From S2P Require Import Prelude Json Events StripeApi Webhooks WebhookWorld WebhookSource.
Import MemoryLog.

(** ** Digits *)
Lemma uint_head c o d : NilEmpty.uint_of_string (String c o) = Some d -> is_digit c = true /\ exists d', NilEmpty.uint_of_string o = Some d'.
Proof.
  cbn. destruct (NilEmpty.uint_of_string o) as [d'|]; [|by destruct c as [[] [] [] [] [] [] [] []]].
  intros Hc. split; [|by exists d']. revert Hc. by destruct c as [[] [] [] [] [] [] [] []].
Qed.
Lemma uint_no_mark c s d : NilEmpty.uint_of_string s = Some d -> is_digit c = false -> string_has c s = false.
Proof.
  intros Hs Hc. revert d Hs. induction s as [|x s IH]; intros d Hs; [done|]. destruct (uint_head _ _ _ Hs) as [Hx [d' Hs']].
  cbn. rewrite (IH d' Hs'), orb_false_r. apply Ascii.eqb_neq. congruence.
Qed.
Lemma parse_octet_ok s n : parse_octet s = Some n -> (n <= 255)%N /\ forall c, is_digit c = false -> string_has c s = false.
Proof.
  intros H. assert (exists d, NilEmpty.uint_of_string s = Some d /\ (n <= 255)%N) as (d & Hd & Hn).
  { assert (E : match parse_digits s with Some n => if (n <=? 255)%N then Some n else None | None => None end = Some n).
    { revert H. unfold parse_octet. destruct s as [|c s]; [done|]. by destruct c as [[] [] [] [] [] [] [] []], s. }
    unfold parse_digits in E. destruct s as [|c s]; [done|]. destruct (NilEmpty.uint_of_string (String c s)) as [d|]; [|done].
    exists d. split; [done|]. destruct (N.leb_spec (N.of_uint d) 255); [|done]. by injection E as <-. }
  split; [done|]. intros c. by apply uint_no_mark with d.
Qed.
Lemma split_all_has c d s : c <> d -> string_has c s = existsb (string_has c) (split_all d s).
Proof.
  intros Hne. induction s as [|x s IH]; [done|]. cbn. destruct (Ascii.eqb_spec x d) as [->|].
  - cbn. rewrite IH. destruct (Ascii.eqb_spec d c); [congruence|done].
  - rewrite IH. destruct (split_all d s) as [|f fs] eqn:E; cbn; [by rewrite !orb_false_r|]. by rewrite orb_assoc.
Qed.
Lemma split_all_mark s a b rest : split_all "." s = a :: b :: rest -> string_has ":" a = false -> first_mark s = Some "."%char.
Proof.
  revert a. induction s as [|x s IH]; intros a; [done|]. cbn. destruct (Ascii.eqb_spec x ".") as [->|Hx]; [done|].
  destruct (split_all "." s) as [|f fs]; [done|]. intros [= <- ->]. cbn. intros [Hc Hf]%orb_false_iff.
  rewrite Hc. by apply (IH f).
Qed.
Lemma parseIPv4_ok s b :
  parseIPv4 s = Some b -> List.length b = 4%nat /\ Forall (fun n => (n < 256)%N) b /\ first_mark s = Some "."%char /\ string_has "/" s = false.
Proof.
  unfold parseIPv4. destruct (split_all "." s) as [|f1 [|f2 [|f3 [|f4 [|]]]]] eqn:Es; try done.
  destruct (parse_octet f1) as [n1|] eqn:E1, (parse_octet f2) as [n2|] eqn:E2, (parse_octet f3) as [n3|] eqn:E3, (parse_octet f4) as [n4|] eqn:E4; try done.
  intros [= <-]. apply parse_octet_ok in E1 as [? Ho1], E2 as [? Ho2], E3 as [? Ho3], E4 as [? Ho4]. split_and!; [done|repeat constructor; lia|..].
  - eapply split_all_mark; [exact Es|]. by apply Ho1.
  - rewrite (split_all_has "/" "."), Es by done. cbn. by rewrite Ho1, Ho2, Ho3, Ho4.
Qed.

(** ** The bytes of a parsed address *)
Lemma read_hex_bound s off acc off' acc' rest :
  (acc < 16 ^ N.of_nat off)%N -> (off <= 4)%nat -> read_hex s off acc = Some (off', acc', rest) -> (acc' < 65536)%N.
Proof.
  revert off acc. induction s as [|c s IH]; intros off acc Ha Ho; cbn [read_hex].
  - intros [= <- <- _]. eapply N.lt_le_trans; [exact Ha|]. apply (N.pow_le_mono_r 16 (N.of_nat off) 4); lia.
  - destruct (hex_val c) as [d|] eqn:Ed.
    + destruct (Nat.ltb_spec 3 off); [done|]. apply IH; [|lia]. rewrite Nat2N.inj_succ, N.pow_succ_r'.
      assert (d < 16)%N; [|lia]. revert Ed. unfold hex_val, is_digit, between. repeat case_match; intros [= <-]; rewrite ?andb_true_iff, ?N.leb_le in *; lia.
    + intros [= <- <- _]. eapply N.lt_le_trans; [exact Ha|]. apply (N.pow_le_mono_r 16 (N.of_nat off) 4); lia.
Qed.
Definition octets (l : list N) : Prop := Forall (fun n => (n < 256)%N) l.
Lemma read_fields_octets turns ip ell s ip' ell' s' :
  octets ip -> read_fields turns ip ell s = Some (ip', ell', s') -> octets ip'.
Proof.
  revert ip ell s. induction turns as [|turns IH]; intros ip ell s Hip; cbn [read_fields]; [by intros [= <- _ _]|].
  destruct (read_hex s 0 0) as [[[off acc] rest]|] eqn:Er; [|done]. apply read_hex_bound in Er; [|done|lia].
  destruct (off =? 0)%nat; [done|]. set (i2 := ip ++ _).
  assert (Hi2 : octets i2).
  { apply Forall_app. split; [done|]. repeat constructor; [apply N.Div0.div_lt_upper_bound; lia|by apply N.mod_lt]. }
  assert (H4 : match parseIPv4 s with Some b => octets (ip ++ b) | None => True end).
  { destruct (parseIPv4 s) as [b|] eqn:E4; [|done]. apply Forall_app. split; [done|]. by apply parseIPv4_ok in E4 as (_ & ? & _). }
  destruct rest as [|c more]; [by intros [= <- _ _]|]. destruct (Ascii.eqb c ".").
  { destruct (_ && _); [done|]. destruct (_ <? _)%nat; [done|]. destruct (parseIPv4 s) as [b|]; [|done]. by intros [= <- _ _]. }
  destruct (Ascii.eqb c ":"); [|done]. cbn. destruct more as [|c' more']; [done|]. destruct (Ascii.eqb c' ":"); [|by apply IH].
  destruct ell; [done|]. destruct (String.eqb more' ""); [by intros [= <- _ _]|by apply IH].
Qed.
Lemma expand_octets ip ell s b : octets ip -> expand (ip, ell, s) = Some b -> octets b.
Proof.
  intros Hip. unfold expand. destruct (String.eqb s ""); [|done]. cbn [negb]. destruct (List.length ip <? 16)%nat.
  - destruct ell as [e|]; [|done]. intros [= <-]. apply Forall_app. split; [by apply Forall_take|]. apply Forall_app. split; [|by apply Forall_drop].
    apply Forall_replicate. lia.
  - destruct ell; [done|]. by intros [= <-].
Qed.
Lemma ParseIP_octets s ip : ParseIP s = Some ip -> octets ip.
Proof.
  unfold ParseIP. intros (a & Ha & ->)%fmap_Some. assert (Ho : octets a).
  { revert Ha. unfold ParseAddr. destruct (first_mark s) as [c|]; [|done]. destruct (Ascii.eqb c ".").
    { intros (_ & ? & _)%parseIPv4_ok. done. }
    assert (Hf : forall ell t, match read_fields 8 [] ell t with Some r => expand r | None => None end = Some a -> octets a).
    { intros ell t. destruct (read_fields 8 [] ell t) as [[[ip' ell'] t']|] eqn:Er; [|done]. apply expand_octets.
      eapply read_fields_octets; [|exact Er]. constructor. }
    unfold parseIPv6. destruct (has_prefix "::" s); [|apply Hf]. destruct (String.eqb _ ""); [|apply Hf].
    intros [= <-]. repeat constructor; lia. }
  unfold As16. destruct (_ =? 4)%nat; [|done]. apply Forall_app. split; [|done]. repeat constructor; lia.
Qed.

(** ** Networks are prefixes *)
(** The number an address stands for. *)
Definition num (l : list N) : N := foldl (fun a b => a * 256 + b)%N 0%N l.
Fixpoint masks (ones : N) (bytes : nat) : list N :=
  match bytes with O => [] | S k => mask_byte ones :: masks (ones - 8) k end.
Lemma CIDRMask_masks ones bytes : CIDRMask ones bytes = masks ones bytes.
Proof.
  unfold CIDRMask. assert (E : forall k, map (fun j => mask_byte (ones - 8 * N.of_nat j)) (seq k bytes) = masks (ones - 8 * N.of_nat k) bytes).
  { induction bytes as [|b IH]; intros k; cbn [seq map masks]; [done|]. rewrite IH. do 2 f_equal. lia. }
  rewrite E. f_equal. lia.
Qed.
Lemma num_cons a l : num (a :: l) = (a * 256 ^ N.of_nat (List.length l) + num l)%N.
Proof.
  unfold num. cbn [foldl]. assert (E : forall l x, foldl (fun a b => a * 256 + b)%N x l = (x * 256 ^ N.of_nat (List.length l) + foldl (fun a b => a * 256 + b)%N 0%N l)%N).
  { clear. induction l as [|b l IH]; intros x; cbn [foldl List.length]; [cbn; lia|].
    rewrite (IH (x * 256 + b)%N), (IH (0 * 256 + b)%N), Nat2N.inj_succ, N.pow_succ_r'. lia. }
  rewrite E. by rewrite N.mul_0_l, N.add_0_l.
Qed.
Lemma num_bound l : octets l -> (num l < 256 ^ N.of_nat (List.length l))%N.
Proof.
  induction 1 as [|a l Ha _ IH]; [done|]. rewrite num_cons. cbn [List.length]. rewrite Nat2N.inj_succ, N.pow_succ_r'. nia.
Qed.
(** A masked byte, by cases. *)
Lemma land_mask a r : (a < 256)%N -> (r <= 8)%N -> N.land a (mask_byte r) = (a / 2 ^ (8 - r) * 2 ^ (8 - r))%N.
Proof.
  intros Ha Hr.
  assert (E : forallb (fun r => forallb (fun a => N.eqb (N.land a (mask_byte r)) (a / 2 ^ (8 - r) * 2 ^ (8 - r))) (map N.of_nat (seq 0 256)))
    (map N.of_nat (seq 0 9)) = true) by (vm_compute; reflexivity).
  rewrite forallb_forall in E. specialize (E r). rewrite forallb_forall in E. apply N.eqb_eq, E.
  - apply in_map_iff. exists (N.to_nat r). split; [lia|]. apply in_seq. lia.
  - apply in_map_iff. exists (N.to_nat a). split; [lia|]. apply in_seq. lia.
Qed.
Lemma zip_masks_0 l l' k : List.length l = k -> List.length l' = k -> zip_with N.land l (masks 0 k) = zip_with N.land l' (masks 0 k).
Proof.
  revert l l'. induction k as [|k IH]; intros [|a l] [|a' l']; try done. cbn [masks zip_with List.length]. intros [= Hl] [= Hl'].
  change (0 - 8)%N with 0%N. by rewrite (IH l l'), !N.land_0_r by done.
Qed.
Lemma pow256 k : (256 ^ k = 2 ^ (8 * k))%N.
Proof. by rewrite N.pow_mul_r. Qed.
(** Dropping the bits below [s] of an address with first byte [a]. *)
Lemma num_shift_low a l s :
  octets l -> (s <= 8 * N.of_nat (List.length l))%N ->
  (num (a :: l) / 2 ^ s = a * 2 ^ (8 * N.of_nat (List.length l) - s) + num l / 2 ^ s)%N /\
  (num l / 2 ^ s < 2 ^ (8 * N.of_nat (List.length l) - s))%N.
Proof.
  intros Hl Hs. set (k := (8 * N.of_nat (List.length l))%N) in *.
  assert (E : (256 ^ N.of_nat (List.length l) = 2 ^ (k - s) * 2 ^ s)%N) by (rewrite pow256, <- N.pow_add_r; f_equal; lia).
  rewrite num_cons, E. split.
  - by rewrite N.mul_assoc, N.div_add_l by (by apply N.pow_nonzero).
  - apply N.Div0.div_lt_upper_bound. rewrite N.mul_comm, <- E. by apply num_bound.
Qed.
Lemma num_shift_high a l r :
  octets l -> (num (a :: l) / 2 ^ (8 * N.of_nat (List.length l) + r) = a / 2 ^ r)%N.
Proof.
  intros Hl. rewrite N.pow_add_r, <- N.Div0.div_div, <- pow256, num_cons, N.div_add_l by (by apply N.pow_nonzero).
  rewrite (N.div_small (num l)) by (by apply num_bound). by rewrite N.add_0_r.
Qed.
Lemma masks_prefix l l' ones :
  octets l -> octets l' -> List.length l = List.length l' -> (ones <= 8 * N.of_nat (List.length l))%N ->
  zip_with N.land l (masks ones (List.length l)) = zip_with N.land l' (masks ones (List.length l)) <->
  (num l / 2 ^ (8 * N.of_nat (List.length l) - ones) = num l' / 2 ^ (8 * N.of_nat (List.length l) - ones))%N.
Proof.
  intros Hl. revert l' ones. induction Hl as [|a l Ha Hl IH]; intros [|a' l'] ones Hl'; try done. cbn [List.length masks zip_with].
  apply Forall_cons in Hl' as [Ha' Hl']. intros [= El] Ho. destruct (N.leb_spec 8 ones) as [H8|H8].
  - replace (mask_byte ones) with (mask_byte 8) by (unfold mask_byte; by rewrite (proj2 (N.leb_le 8 ones) H8)).
    rewrite !(land_mask _ 8) by (done || lia). change (2 ^ (8 - 8))%N with 1%N. rewrite !N.div_1_r, !N.mul_1_r.
    specialize (IH l' (ones - 8)%N Hl' El ltac:(lia)).
    replace (8 * N.of_nat (S (List.length l)) - ones)%N with (8 * N.of_nat (List.length l) - (ones - 8))%N by lia.
    set (s := (8 * N.of_nat (List.length l) - (ones - 8))%N) in *.
    destruct (num_shift_low a l s) as [-> Hq]; [done|lia|]. destruct (num_shift_low a' l' s) as [-> Hq']; [done|lia|]. rewrite <- El in *.
    split.
    + intros [= -> Hz]. apply IH in Hz. by rewrite Hz.
    + rewrite !(N.mul_comm _ (2 ^ (8 * _ - s))). intros E. apply N.div_mod_unique in E as [-> Hz]; [|done..]. apply IH in Hz. by rewrite Hz.
  - replace (ones - 8)%N with 0%N by lia. rewrite (zip_masks_0 l l') by done. rewrite !land_mask by lia.
    replace (8 * N.of_nat (S (List.length l)) - ones)%N with (8 * N.of_nat (List.length l) + (8 - ones))%N by lia.
    pose proof (num_shift_high a' l' (8 - ones) Hl') as E'. rewrite <- El in E'.
    rewrite num_shift_high, E' by done. split.
    + intros [= E]. apply N.mul_cancel_r in E; [done|]. by apply N.pow_nonzero.
    + by intros ->.
Qed.
Lemma masks_length ones k : List.length (masks ones k) = k.
Proof. revert ones. induction k as [|k IH]; intros ones; cbn; [done|]. by rewrite IH. Qed.
Lemma zip_land_twice l m : zip_with N.land (zip_with N.land l m) m = zip_with N.land l m.
Proof.
  revert m. induction l as [|a l IH]; intros [|b m]; cbn; try done. by rewrite IH, <- N.land_assoc, N.land_diag.
Qed.
Lemma To4_length ip x : To4 ip = Some x -> List.length x = 4%nat.
Proof.
  unfold To4. destruct (Nat.eqb_spec (List.length ip) 4); [by intros [= <-]|]. destruct (Nat.eqb_spec (List.length ip) 16) as [E|]; [|done]. cbn [andb].
  destruct (bool_decide _); [|done]. intros [= <-]. rewrite length_drop. lia.
Qed.
Lemma To4_octets ip x : octets ip -> To4 ip = Some x -> octets x.
Proof. intros Ho. unfold To4. destruct (_ =? 4)%nat; [by intros [= <-]|]. destruct (_ && _); [|done]. intros [= <-]. by apply Forall_drop. Qed.

(** What the filter is told, and what it stands for: the first [n] bits of an address. *)
Definition network_text (net : string * N) : string := net.1 ^^ "/" ^^ dec_digits net.2.
Definition network_ok (net : string * N) : Prop := is_Some (parseIPv4 net.1) /\ (net.2 <= 32)%N.
Definition within (net : string * N) (ip : list N) : Prop := exists a x,
  parseIPv4 net.1 = Some a /\ To4 ip = Some x /\ (num a / 2 ^ (32 - net.2) = num x / 2 ^ (32 - net.2))%N.
Lemma network_parses net :
  network_ok net -> exists a, parseIPv4 net.1 = Some a /\
    ParseCIDR (network_text net) = Some (mkIPNet (zip_with N.land a (masks net.2 4)) (masks net.2 4)).
Proof.
  destruct net as [addr n]. intros [[a Ha] Hn]. cbn [fst snd] in *. exists a. split; [done|]. pose proof (parseIPv4_ok _ _ Ha) as (Hl & _ & Hmark & Hno).
  unfold ParseCIDR, network_text. cbn [fst snd]. rewrite append_assoc. cbn [String.append]. rewrite split_at_append by done.
  unfold ParseAddr. rewrite Hmark. change (Ascii.eqb "." ".") with true. cbv iota. rewrite Ha, parse_dec_digits. cbv beta iota zeta. rewrite Hl, CIDRMask_masks.
  rewrite (proj2 (N.ltb_ge _ _)) by (cbn; lia). done.
Qed.
Lemma Contains_within a n ip :
  octets a -> List.length a = 4%nat -> octets ip -> (n <= 32)%N ->
  Contains (mkIPNet (zip_with N.land a (masks n 4)) (masks n 4)) ip = true <->
  exists x, To4 ip = Some x /\ (num a / 2 ^ (32 - n) = num x / 2 ^ (32 - n))%N.
Proof.
  intros Hoa Hla Hoi Hn. assert (Hl : List.length (zip_with N.land a (masks n 4)) = 4%nat) by (rewrite length_zip_with, masks_length; lia).
  assert (E4 : To4 (zip_with N.land a (masks n 4)) = Some (zip_with N.land a (masks n 4))) by (unfold To4; by rewrite Hl).
  unfold Contains. cbn [ipn_IP ipn_Mask]. rewrite E4, masks_length. change (4 =? 16)%nat with false. cbv iota. rewrite Hl, zip_land_twice.
  rewrite andb_true_iff, !bool_decide_eq_true. destruct (To4 ip) as [x|] eqn:Ex; cbn [default].
  - pose proof (To4_length _ _ Ex) as Hlx. pose proof (To4_octets _ _ Hoi Ex) as Hox.
    pose proof (masks_prefix a x n Hoa Hox ltac:(congruence) ltac:(rewrite Hla; cbn; lia)) as Hm. rewrite Hla in Hm. change (8 * N.of_nat 4)%N with 32%N in Hm.
    rewrite Hm. split; [intros [_ E]; by exists x|]. intros (x' & [= <-] & E). done.
  - split; [|by intros (x & ? & _)]. intros [E _]. unfold To4 in Ex. by rewrite E in Ex.
Qed.

Lemma allowlist_admits nets old :
  Forall network_ok nets -> nets <> [] ->
  exists parsed, SetAllowedCIDRs (map network_text nets) old = (None, parsed) /\
    forall s, ipInAllowlist parsed s = true <-> exists net ip, net ∈ nets /\ ParseIP s = Some ip /\ within net ip.
Proof.
  intros Hok Hne.
  assert (Hp : exists parsed, parse_cidrs (map network_text nets) = Ok parsed /\ List.length parsed = List.length nets /\
    forall ip, octets ip -> existsb (fun n => Contains n ip) parsed = true <-> exists net, net ∈ nets /\ within net ip).
  { clear Hne. induction Hok as [|net nets Hnet Hok (parsed & Hpar & Hlen & Hc)]; cbn [map parse_cidrs].
    { exists []. split_and!; [done..|]. intros ip _. cbn. split; [done|]. by intros (net & ?%not_elem_of_nil & _). }
    destruct (network_parses net Hnet) as (a & Ha & ->). rewrite Hpar. eexists. split; [done|]. split; [cbn; by rewrite Hlen|]. intros ip Hip.
    cbn [existsb]. pose proof (parseIPv4_ok _ _ Ha) as (Hl & Hoa & _). rewrite orb_true_iff, Hc, Contains_within by (done || apply Hnet). split.
    - intros [(x & Hx & E)|(net' & Hin & Hw)]; [exists net; split; [by left|]; by exists a, x|exists net'; split; [by right|done]].
    - intros (net' & [->|Hin]%elem_of_cons & Hw); [left|right; by exists net']. destruct Hw as (a' & x & Ha' & Hx & E). exists x. split; [done|].
      rewrite Ha in Ha'. by injection Ha' as <-. }
  destruct Hp as (parsed & Hpar & Hlen & Hc). exists parsed. unfold SetAllowedCIDRs. rewrite Hpar. split; [done|]. intros s.
  unfold ipInAllowlist. destruct parsed as [|p parsed]; [by destruct nets|]. destruct (ParseIP s) as [ip|] eqn:Ei.
  - rewrite Hc by (by eapply ParseIP_octets). split; [intros (net & Hin & Hw); by exists net, ip|]. intros (net & ip' & Hin & [= <-] & Hw). by exists net.
  - split; [done|]. by intros (net & ip' & _ & ? & _).
Qed.

(** ** The filter of a receiver *)
Section receiver.
Context {H : Type} (ConstructEvent : string -> string -> string -> option stripe_event) (UnmarshalEvent : string -> res string stripe_event).

(** C21: The filter admits what it is told to. In a receiver that is configured with IPv4
    networks a delivery passes exactly when the address it comes from reads as an IPv4
    address, written as such or as an IPv6 address that stands for one, whose first bits are
    those of a network of the list; without a list every delivery passes. One that does not
    pass is answered with 403, whatever it holds, and nothing else happens. *)
Theorem source_filter_exact (cfg : WebhooksConfig (H := H)) rc nets src body err :
  NewWebhooks cfg = Ok rc -> wc_AllowedSourceCIDRs cfg = map network_text nets -> Forall network_ok nets ->
  let req := http_request rc src body err in
  (rq_source_allowed req = true <->
     nets = [] \/
     exists net ip, net ∈ nets /\ ParseIP (extractClientIP (wc_RealIPHeader cfg) src) = Some ip /\ within net ip) /\
  (rq_source_allowed req = false -> Handle ConstructEvent (rc_webhooks rc) req = Ret 403).
Proof.
  intros Hnew Hcfg Hok. cbn zeta. split; [|by intros Hf; unfold Handle; rewrite Hf].
  revert Hnew. unfold NewWebhooks. destruct (String.eqb _ ""); [done|]. destruct (wc_Store cfg); [|done]. cbn [negb]. rewrite Hcfg.
  destruct (decide (nets = [])) as [->|Hne]; [intros [= <-]; split; [by left|done]|].
  destruct (allowlist_admits nets [] Hok Hne) as (parsed & Hset & Hadm).
  unfold SetAllowedCIDRs in Hset. destruct (parse_cidrs _) as [l|] eqn:El; [|done]. injection Hset as <-. intros [= <-].
  cbn [http_request rq_source_allowed rc_allowedCIDRs rc_realIPHeader]. unfold source_allowed, allowlistConfigured.
  destruct l as [|n l]; [exfalso; destruct nets as [|net nets]; [done|]; revert El; cbn; repeat case_match; done|].
  pose proof (Hadm (extractClientIP (wc_RealIPHeader cfg) src)) as Ha.
  split; [intros Ht; right; by apply Ha|by intros [?|?]; [|apply Ha]].
Qed.
End receiver.

(** Behind a real-IP header the sender chooses: the address that is checked is the first entry of
    the header, so that a request that comes with a listed address at its head is admitted
    wherever it comes from, whatever the proxies have appended. *)
Theorem header_decides allowed header src a rest :
  header <> "" -> string_has "," a = false -> TrimSpace a = a -> hs_Header src header = a ^^ "," ^^ rest ->
  ipInAllowlist allowed a = true -> source_allowed allowed header src = true.
Proof.
  intros Hh Hc Ht Hs Ha. unfold source_allowed, extractClientIP. rewrite (proj2 (String.eqb_neq _ _) Hh), Hs. cbn [negb].
  rewrite append_assoc. cbn [String.append]. rewrite split_at_append, Ht by done.
  destruct (String.eqb_spec (a ^^ String "," rest) "") as [E|]; [by destruct a|]. cbn [negb]. rewrite Ha. by destruct (allowlistConfigured allowed).
Qed.

(** ** The refresher *)
(** The networks of an answer that can be used. *)
Definition usable_answer (answer : fetched * Z) : option (list IPNet) :=
  match FetchStripeWebhookIPs answer.1 answer.2 with
  | Err _ => None
  | Ok ips => match parse_cidrs (CIDRs ips) with Ok nets => Some nets | Err _ => None end
  end.
Lemma parse_cidrs_length l nets : parse_cidrs l = Ok nets -> List.length nets = List.length l.
Proof.
  revert nets. induction l as [|c l IH]; intros nets; cbn; [by intros [= <-]|]. destruct (ParseCIDR c); [|done].
  destruct (parse_cidrs l); [|done]. intros [= <-]. cbn. by rewrite (IH _ eq_refl).
Qed.
Lemma usable_nonempty answer nets : usable_answer answer = Some nets -> nets <> [].
Proof.
  unfold usable_answer, FetchStripeWebhookIPs. destruct answer.1 as [msg|status body]; [done|]. destruct (negb (status =? 200)); [done|].
  destruct (Decode [] dec_webhook_ips body) as [[|ip ips]|]; [done| |done].
  destruct (parse_cidrs _) as [l|] eqn:El; [|done]. intros [= <-]. apply parse_cidrs_length in El. by destruct l.
Qed.
Lemma tick_allowed answer r : rf_allowed (tick answer.1 answer.2 r) = default (rf_allowed r) (usable_answer answer).
Proof.
  unfold tick, usable_answer. destruct (FetchStripeWebhookIPs _ _) as [ips|e]; [|done]. unfold SetAllowedCIDRs. by destruct (parse_cidrs (CIDRs ips)).
Qed.

(** The refresher keeps the last good list. Whatever answers come, failures, refusals, garbage,
    empty or malformed lists among them, the list in force is that of the last answer that
    could be used as a whole, or the first one, and a filter that was on is never
    switched off. *)
Theorem refresher_keeps_last_good answers r :
  let r' := foldl (fun r a => tick a.1 a.2 r) r answers in
  rf_allowed r' = default (rf_allowed r) (last (omap usable_answer answers)) /\
  (allowlistConfigured (rf_allowed r) = true -> allowlistConfigured (rf_allowed r') = true).
Proof.
  cbn zeta. assert (E : rf_allowed (foldl (fun r a => tick a.1 a.2 r) r answers) = default (rf_allowed r) (last (omap usable_answer answers))).
  { induction answers as [|a answers IH] using rev_ind; [done|]. rewrite foldl_app, omap_app. cbn [foldl]. rewrite tick_allowed, IH.
    cbn. destruct (usable_answer a); [|by rewrite app_nil_r]. by rewrite last_snoc. }
  split; [done|]. rewrite E. destruct (last (omap usable_answer answers)) as [nets|] eqn:El; [|done]. intros _. cbn.
  apply last_Some in El as [l Hl]. assert (Hin : nets ∈ omap usable_answer answers) by (rewrite Hl; apply elem_of_app; right; by left).
  apply list_elem_of_omap in Hin as (a & _ & Hu). apply usable_nonempty in Hu. by destruct nets.
Qed.

(** ** The signer *)
Section signing.
Context `{Sha256}.
Definition sha_collision : Prop := exists x y, x <> y /\ sha256 x = sha256 y.
Lemma sha_inj x y : sha256 x = sha256 y -> x = y \/ sha_collision.
Proof. destruct (decide (x = y)); [by left|]. intros E. right. by exists x, y. Qed.
Lemma hmac_inj key m m' : hmac_sha256 key m = hmac_sha256 key m' -> m = m' \/ sha_collision.
Proof.
  unfold hmac_sha256. intros [E%append_inj_l|]%sha_inj; [|by right]. apply sha_inj in E as [E%append_inj_l|]; [by left|by right].
Qed.

(** A signature stands for one body at one time: two signatures under a secret are equal only for
    the same second and the same body, unless two inputs of SHA-256 with the same
    digest are at hand. *)
Theorem Sign_identifies secret body body' t t' :
  in_int64 (Unix t) -> in_int64 (Unix t') -> Sign secret body t = Sign secret body' t' ->
  (Unix t = Unix t' /\ body = body') \/ sha_collision.
Proof.
  intros Ht Ht'. unfold Sign, signPayload. intros [E1 E2%hex_encode_inj]%append_inj_len_r; [|by rewrite !hex_length; unfold hmac_sha256; rewrite !sha256_length].
  apply append_inj_len_r in E1 as [E1 _]; [|done]. apply append_inj_l in E1. apply fmt_d_inj in E1; [|done..]. rewrite E1 in E2 |- *.
  apply hmac_inj in E2 as [E2|]; [|by right]. left. split; [done|]. by apply append_inj_l in E2.
Qed.
End signing.

(** ** Retention *)
Section retention.
Context {H : Type} `{GoRuntime}.
Lemma prune_loop_lookup before l m n id :
  NoDup (map fst l) -> (forall k e, (k, e) ∈ l -> m !! k = Some e) ->
  snd (prune_loop before l m n) !! id =
    match m !! id with Some e => if bool_decide (id ∈ map fst l) && (lg_ReceivedAt e <? before) then None else Some e | None => None end.
Proof.
  revert m n. induction l as [|[k e] l IH]; intros m n Hnd Hm; cbn [prune_loop].
  { cbn. by destruct (m !! id). }
  cbn [map fst] in *. apply NoDup_cons in Hnd as [Hk Hnd]. pose proof (Hm k e ltac:(left)) as Hke.
  destruct (lg_ReceivedAt e <? before) eqn:El.
  - rewrite IH; [|done|].
    + destruct (decide (k = id)) as [->|Hne]; [|rewrite lookup_delete_ne by done].
      * rewrite lookup_delete_eq, Hke, bool_decide_true, El by (by left). done.
      * destruct (m !! id) as [e'|]; [|done]. by rewrite (bool_decide_ext (id ∈ map fst l) (id ∈ k :: map fst l)) by set_solver.
    + intros k' e' Hin. rewrite lookup_delete_ne; [apply Hm; by right|]. intros ->. apply Hk, elem_of_map. by exists (k', e').
  - rewrite IH; [|done|intros k' e' Hin; apply Hm; by right]. destruct (m !! id) as [e'|] eqn:Ei; [|done].
    destruct (decide (k = id)) as [->|Hne]; [|by rewrite (bool_decide_ext (id ∈ map fst l) (id ∈ k :: map fst l)) by set_solver].
    rewrite Hke in Ei. injection Ei as <-. by rewrite El, !andb_false_r.
Qed.
Lemma prune_lookup before m id e :
  snd (log_PruneOlderThan before m) !! id = Some e <-> m !! id = Some e /\ before <= lg_ReceivedAt e.
Proof.
  unfold log_PruneOlderThan. rewrite prune_loop_lookup; [|apply map_range_keys|by intros k e'; rewrite map_range_elem].
  destruct (m !! id) as [e'|] eqn:Ei; [|naive_solver]. rewrite bool_decide_true by (apply elem_of_map; exists (id, e'); split; [done|by apply map_range_elem]).
  cbn [andb]. destruct (Z.ltb_spec (lg_ReceivedAt e') before); split; (naive_solver lia).
Qed.

(** Retention is exact: with automatic pruning a row of the event log survives exactly as long
    as it is not older than the given age at any of the times the loop has run. *)
Theorem auto_prune_retention (w : Webhooks H) maxAge interval clock m id e :
  w_eventLog w = true -> 0 < maxAge -> 0 < interval ->
  RetrieveEvent w id (StartAutoPrune w maxAge interval clock m) = Some e <->
  RetrieveEvent w id m = Some e /\ Forall (fun now => now - maxAge <= lg_ReceivedAt e) clock.
Proof.
  intros Hw Ha Hi. unfold RetrieveEvent, StartAutoPrune, log_Get. rewrite Hw, (proj2 (Z.leb_gt maxAge 0)), (proj2 (Z.leb_gt interval 0)) by lia. cbn [negb orb].
  unfold PruneOldEvents. rewrite Hw. revert m. induction clock as [|now clock IH]; intros m; cbn [foldl]; [by split; [intros ?; split|intros [? _]]|].
  rewrite IH, prune_lookup, Forall_cons. tauto.
Qed.
End retention.

Module SourceDemo.
Import KeysDemo.
Definition no_handlers : Handlers unit :=
  mkHandlers None None None None None None None None None None None None None None None None None None.
Definition cfg (header : string) : WebhooksConfig (H := unit) :=
  mkWebhooksConfig "whsec" [] true "demo" no_handlers 0 0 false false ∅ 0 0 StripeWebhookCIDRs header.
Definition stripe_nets : list (string * N) :=
  map (fun a => (a, 32%N)) ["3.18.12.63"; "3.69.109.8"; "3.120.168.93"; "3.130.192.231"; "13.235.14.237"; "13.235.122.149"; "18.211.135.69";
    "35.154.171.200"; "35.157.207.129"; "52.15.183.38"; "54.88.130.119"; "54.88.130.237"; "54.187.174.169"; "54.187.205.235"; "54.187.216.72"].
Definition receiver (header : string) : Receiver (H := unit) :=
  match NewWebhooks (cfg header) with Ok rc => rc | Err _ => mkReceiver (mkWebhooks "" [] "" no_handlers ∅ false false ∅ 0) 0 0 [] "" 0 end.
Lemma receiver_eq header : NewWebhooks (cfg header) = Ok (receiver header).
Proof. reflexivity. Qed.
Definition from (peer forwarded : string) : HttpSource := mkSource (fun h => if String.eqb h "X-Forwarded-For" then forwarded else "") peer.
Definition listed : list IPNet := rc_allowedCIDRs (receiver "").
Lemma nets_ok : Forall network_ok stripe_nets.
Proof. repeat constructor; cbn; (by eexists) || lia. Qed.

(** An address of the list, the same mapped into IPv6, and another one. *)
Lemma source_filter_exact_witness :
  rq_source_allowed (http_request (receiver "") (from "[::ffff:3.18.12.63]:443" "") "" false) = true /\
  (stripe_nets = [] \/ exists net ip, net ∈ stripe_nets /\ ParseIP "::ffff:3.18.12.63" = Some ip /\ within net ip).
Proof.
  assert (E : rq_source_allowed (http_request (receiver "") (from "[::ffff:3.18.12.63]:443" "") "" false) = true) by (vm_compute; reflexivity).
  split; [exact E|].
  exact (proj1 (proj1 (source_filter_exact (fun _ _ _ => None) (cfg "") (receiver "") stripe_nets (from "[::ffff:3.18.12.63]:443" "") "" false
    (receiver_eq "") eq_refl nets_ok)) E).
Defined.
Lemma header_decides_witness :
  source_allowed listed "" (from "6.6.6.6:1234" "3.18.12.63, 6.6.6.6") = false /\
  source_allowed listed "X-Forwarded-For" (from "6.6.6.6:1234" "3.18.12.63, 6.6.6.6") = true.
Proof.
  split; [vm_compute; reflexivity|].
  by apply (header_decides listed "X-Forwarded-For" (from "6.6.6.6:1234" "3.18.12.63, 6.6.6.6") "3.18.12.63" " 6.6.6.6");
    vm_compute.
Defined.
Lemma refresher_keeps_last_good_witness :
  allowlistConfigured (rf_allowed (tick (TransportError "timeout") 0 (NewIPRefresher 0 listed))) = true.
Proof. apply (proj2 (refresher_keeps_last_good [(TransportError "timeout", 0)] (NewIPRefresher 0 listed))). vm_compute. reflexivity. Defined.
Lemma Sign_identifies_witness :
  (Unix 0 = Unix (second - 1) /\ "{}" = "{}") \/ sha_collision.
Proof. apply (Sign_identifies "whsec" "{}" "{}"); vm_compute; done. Defined.
Definition logging : Webhooks unit := mkWebhooks "" [] "" no_handlers ∅ true false ∅ 0.
Definition row (id : string) (received : Z) : LoggedEvent := mkLogged id "ping" "processed" "" 1 received None "" "".
Lemma auto_prune_retention_witness :
  RetrieveEvent logging "evt_2" (StartAutoPrune logging 100 10 [50; 150; 160] (<["evt_1" := row "evt_1" 10]> {["evt_2" := row "evt_2" 60]})) =
    Some (row "evt_2" 60).
Proof.
  apply (auto_prune_retention logging 100 10 [50; 150; 160]); [done|lia|lia|]. split; [vm_compute; reflexivity|repeat constructor; cbn; lia].
Defined.
End SourceDemo.
