(* ===== verification/WebhookQueuePg.v ===== *)
(** * WebhookQueuePg: the durable webhook queue (src/repos/postgres/webhook_queue.go).

    The table is a map by the unique [event_id]. [dequeue], [complete], [releaseFailed]
    and the sweep are programs over it, with faults. A process is its workers, each idle
    or dispatching an item; [pq_step] lets them run in any order with enqueueing, crashes
    and the sweeper. [worker_loop] is a worker that runs alone. The dispatch function
    and the rows other transactions have locked are parameters. *)
From S2P Require Import Prelude Postgres Events Webhooks.

Inductive row_state := Queued | Processing.
#[export] Instance row_state_eq_dec : EqDecision row_state.
Proof. solve_decision. Defined.
Record QueueRow := mkQueueRow {
  qr_item : QueueItem; qr_state : row_state; qr_attempt_count : Z;
  qr_enqueued_at : Z; qr_locked_at : option Z; qr_locked_by : option string }.
Abbreviation queue_table := (gmap string QueueRow).

(** [WebhookQueueOptions] with the defaults of [NewWebhookQueue]. *)
Record WebhookQueueOptions := mkQueueOptions {
  qo_Workers : Z; qo_PollInterval : Z; qo_StuckAfter : Z; qo_MaxAttempts : Z }.
Definition NewWebhookQueue (o : WebhookQueueOptions) : WebhookQueueOptions :=
  mkQueueOptions
    (if qo_Workers o <=? 0 then 4 else qo_Workers o)
    (if qo_PollInterval o <=? 0 then second else qo_PollInterval o)
    (if qo_StuckAfter o <=? 0 then 5 * (60 * second) else qo_StuckAfter o)
    (qo_MaxAttempts o).
Definition sweep_interval (o : WebhookQueueOptions) : Z :=
  if qo_StuckAfter o <? 60 * second then 60 * second else qo_StuckAfter o.

Definition set_lock (now : Z) (host : string) (row : QueueRow) : QueueRow :=
  mkQueueRow (qr_item row) Processing (qr_attempt_count row + 1) (qr_enqueued_at row) (Some now) (Some host).
Definition set_queued (row : QueueRow) : QueueRow :=
  mkQueueRow (qr_item row) Queued (qr_attempt_count row) (qr_enqueued_at row) None None.

Section statements.
Context `{GoRuntime}.

(** [INSERT ... ON CONFLICT (event_id) DO NOTHING]. *)
Definition pq_Enqueue (now : Z) (item : QueueItem) : sql queue_table unit :=
  named "postgres.WebhookQueue.Enqueue" (stmt (fun t =>
    match t !! qi_EventID item with
    | Some _ => (Ok tt, t)
    | None => (Ok tt, <[qi_EventID item := mkQueueRow item Queued 0 now None None]> t)
    end)).

Definition older (a b : QueueRow) : bool := qr_enqueued_at a <? qr_enqueued_at b.
(** [WHERE state = 'queued' ORDER BY enqueued_at LIMIT 1 FOR UPDATE SKIP LOCKED]. *)
Definition next_queued (locked : list string) (t : queue_table) : option QueueRow :=
  head (sort_slice older (List.filter (fun row =>
    bool_decide (qr_state row = Queued) && negb (bool_decide (qi_EventID (qr_item row) ∈ locked)))
    (map snd (map_range t)))).
Definition int32_max : Z := 2147483647.
Definition lock_row (now : Z) (host id : string) (t : queue_table) : res string unit * queue_table :=
  match t !! id with
  | None => (Ok tt, t)
  | Some row =>
      if int32_max <? qr_attempt_count row + 1 then (Err "integer out of range", t)
      else (Ok tt, <[id := set_lock now host row]> t)
  end.
Definition dequeue (locked : list string) (now : Z) (host : string) : sql queue_table (option QueueItem) :=
  transaction (fun e => "begin: " ^^ e) (fun _ e => "commit: " ^^ e)
    (found <- named "select" (query (fun t => Ok (next_queued locked t))) ;;
     match found with
     | None => sret (Rollback None)
     | Some row =>
         named "update lock" (stmt (lock_row now host (qi_EventID (qr_item row)))) ;;
         sret (Commit (Some (qr_item row)))
     end)%sql.
Definition complete (id : string) : sql queue_table unit :=
  named "complete" (stmt (fun t => (Ok tt, delete id t))).
Definition releaseFailed (id : string) : sql queue_table unit :=
  named "release" (stmt (fun t => (Ok tt, alter set_queued id t))).
(** One sweep: rows locked before the cutoff go back; how many did. *)
Definition stuck (cutoff : Z) (row : QueueRow) : bool :=
  bool_decide (qr_state row = Processing) && match qr_locked_at row with Some t => t <? cutoff | None => false end.
Definition sweep (cutoff : Z) : sql queue_table Z :=
  stmt (fun t => (Ok (Z.of_nat (List.length (List.filter (stuck cutoff) (map snd (map_to_list t))))),
                  (fun row => if stuck cutoff row then set_queued row else row) <$> t)).

(** What a worker does with the answer of its dispatch. *)
Definition finish (item : QueueItem) (err : option process_error) : sql queue_table unit :=
  match err with
  | None => complete (qi_EventID item)
  | Some PermanentFailure => complete (qi_EventID item)
  | Some (DispatchError _) => releaseFailed (qi_EventID item)
  end.

(** A worker that runs alone, without faults: at most [fuel] passes of its loop, until
    it finds nothing queued. Returns the items it dispatched with their outcome. *)
Fixpoint worker_loop (dispatch : QueueItem -> option process_error) (now : Z) (host : string) (fuel : nat) (t : queue_table)
  : list (QueueItem * option process_error) * queue_table :=
  match fuel with
  | O => ([], t)
  | S fuel =>
      match runs (dequeue [] now host) t with
      | (Ok (Some item), t1) =>
          let err := dispatch item in
          let '(_, t2) := runs (finish item err) t1 in
          let '(l, t3) := worker_loop dispatch now host fuel t2 in ((item, err) :: l, t3)
      | (_, t1) => ([], t1)
      end
  end.
End statements.

(** ** Many workers *)
Inductive worker := Idle | Busy (item : QueueItem) (since : Z).
Record queue_system := mkQueueSystem {
  sys_table : queue_table;
  sys_workers : list worker;
  sys_accepted : list QueueItem;                       (* [Enqueue] returned nil *)
  sys_done : list (QueueItem * option process_error);  (* dispatches that ended, with the answer *)
}.

Section system.
Context `{GoRuntime}.
(** Each database call is atomic and may meet any faults. [timely] restricts the sweeper:
    whether it may take a row from a worker that is still dispatching. *)
Inductive pq_step (timely : bool) : queue_system -> queue_system -> Prop :=
| pq_enqueue t ws acc ds now item fs n r n' t' :
    pq_Enqueue now item fs n t = (r, (n', t')) ->
    pq_step timely (mkQueueSystem t ws acc ds)
      (mkQueueSystem t' ws (match r with Ok _ => acc ++ [item] | Err _ => acc end) ds)
| pq_claim t ws acc ds i locked now host fs n r n' t' :
    ws !! i = Some Idle ->
    dequeue locked now host fs n t = (r, (n', t')) ->
    pq_step timely (mkQueueSystem t ws acc ds)
      (mkQueueSystem t' (match r with Ok (Some item) => <[i := Busy item now]> ws | _ => ws end) acc ds)
| pq_finish t ws acc ds i item since err fs n r n' t' :
    ws !! i = Some (Busy item since) ->
    finish item err fs n t = (r, (n', t')) ->
    pq_step timely (mkQueueSystem t ws acc ds) (mkQueueSystem t' (<[i := Idle]> ws) acc (ds ++ [(item, err)]))
| pq_crash t ws acc ds i item since :
    ws !! i = Some (Busy item since) ->
    pq_step timely (mkQueueSystem t ws acc ds) (mkQueueSystem t (<[i := Idle]> ws) acc ds)
| pq_sweep t ws acc ds cutoff fs n r n' t' :
    sweep cutoff fs n t = (r, (n', t')) ->
    (timely = true -> forall i item since, ws !! i = Some (Busy item since) -> cutoff <= since) ->
    pq_step timely (mkQueueSystem t ws acc ds) (mkQueueSystem t' ws acc ds).
Definition pq_init (workers : nat) : queue_system := mkQueueSystem ∅ (replicate workers Idle) [] [].
Definition pq_reachable (timely : bool) (workers : nat) : queue_system -> Prop := rtc (pq_step timely) (pq_init workers).
End system.
