(* ===== verification/WebhookQueueFacts.v ===== *)
(** * WebhookQueueFacts: what the durable queue promises, and what it does not. *)
From S2P Require Import Prelude Postgres Events Webhooks WebhookQueuePg.

(** Rows stand under their event id. *)
Definition keyed (t : queue_table) : Prop := map_Forall (fun id row => qi_EventID (qr_item row) = id) t.
(** Dispatch outcomes after which the row is removed. *)
Definition settled (err : option process_error) : Prop := match err with Some (DispatchError _) => False | _ => True end.

#[export] Instance older_order : StrictWeak older.
Proof. split; intros *; unfold older; rewrite ?Z.ltb_lt, ?Z.ltb_ge; lia. Qed.

Create HintDb queue.

Section facts.
Context `{GoRuntime}.

Definition is_queued (row : QueueRow) : bool := bool_decide (qr_state row = Queued).
Lemma next_queued_some locked t row :
  keyed t -> next_queued locked t = Some row -> t !! qi_EventID (qr_item row) = Some row /\ qr_state row = Queued.
Proof.
  intros Hk Hn. unfold next_queued in Hn. apply head_Some_elem_of in Hn. rewrite sort_slice_perm, list_elem_of_In in Hn.
  apply filter_In in Hn as [Hin [Hq%bool_decide_eq_true _]%andb_true_iff]. rewrite <- list_elem_of_In in Hin.
  apply list_elem_of_fmap in Hin as ([id r] & -> & Hin%map_range_elem). split; [|done]. cbn. by rewrite (Hk id r Hin).
Qed.

(** *** What a call leaves behind, whatever faults it meets *)
Lemma Enqueue_cases now item fs n t r n' t' :
  pq_Enqueue now item fs n t = (r, (n', t')) ->
  (t' = t \/ t !! qi_EventID item = None /\ t' = <[qi_EventID item := mkQueueRow item Queued 0 now None None]> t) /\
  (forall u, r = Ok u -> is_Some (t' !! qi_EventID item)).
Proof.
  unfold pq_Enqueue, named, stmt. destruct (t !! qi_EventID item) as [row|] eqn:Et;
    (destruct (fs n) as [[e ap]|]; [destruct ap|]); intros [= <- _ <-]; (split; [eauto|]); try done; intros; rewrite ?Et, ?lookup_insert_eq; eauto.
Qed.
Lemma dequeue_cases locked now host fs n t r n' t' :
  keyed t -> dequeue locked now host fs n t = (r, (n', t')) ->
  (t' = t /\ (forall item, r <> Ok (Some item))) \/
  exists row, t !! qi_EventID (qr_item row) = Some row /\ qr_state row = Queued /\
    t' = <[qi_EventID (qr_item row) := set_lock now host row]> t /\
    forall item, r = Ok (Some item) -> item = qr_item row.
Proof.
  intros Hk. unfold dequeue, transaction, begin_tx, stmt. destruct (fs n) as [f0|]; [intros [= <- _ <-]; by left|].
  unfold sbind at 1, named at 1, query, stmt. destruct (fs (S n)) as [f1|]; [intros [= <- _ <-]; by left|].
  destruct (next_queued locked t) as [row|] eqn:En; [|intros [= <- _ <-]; by left].
  destruct (next_queued_some locked t row Hk En) as [Hrow Hq].
  unfold sbind, named, lock_row, sret. rewrite Hrow. destruct (fs (S (S n))) as [f2|]; [intros [= <- _ <-]; by left|].
  destruct (int32_max <? _); [intros [= <- _ <-]; by left|].
  destruct (fs (S (S (S n)))) as [[e ap]|]; [destruct ap|]; intros [= <- _ <-]; [right|by left|right];
    exists row; split_and!; try done. by intros item [= ->].
Qed.
Lemma finish_cases item err fs n t r n' t' :
  finish item err fs n t = (r, (n', t')) ->
  t' = t \/ settled err /\ t' = delete (qi_EventID item) t \/ t' = alter set_queued (qi_EventID item) t.
Proof.
  destruct err as [[|msg]|]; unfold finish, complete, releaseFailed, named, stmt;
    (destruct (fs n) as [[e ap]|]; [destruct ap|]); intros [= _ _ <-]; cbn; auto.
Qed.
Lemma sweep_cases cutoff fs n t r n' t' :
  sweep cutoff fs n t = (r, (n', t')) ->
  t' = t \/ t' = (fun row => if stuck cutoff row then set_queued row else row) <$> t.
Proof. unfold sweep, stmt. destruct (fs n) as [[e ap]|]; [destruct ap|]; intros [= _ _ <-]; cbn; auto. Qed.

Lemma keyed_insert t row : keyed t -> keyed (<[qi_EventID (qr_item row) := row]> t).
Proof. intros Hk. by apply map_Forall_insert_2. Qed.
Lemma keyed_alter t id : keyed t -> keyed (alter set_queued id t).
Proof.
  intros Hk i row. destruct (decide (i = id)) as [->|Hne]; [rewrite lookup_alter_eq|rewrite lookup_alter_ne by done; apply Hk].
  destruct (t !! id) as [r|] eqn:E; [|done]. intros [= <-]. exact (Hk id r E).
Qed.
Lemma keyed_sweep t cutoff : keyed t -> keyed ((fun row => if stuck cutoff row then set_queued row else row) <$> t).
Proof.
  intros Hk i row. rewrite lookup_fmap. destruct (t !! i) as [r|] eqn:E; [|done]. intros [= <-].
  pose proof (Hk i r E). by destruct (stuck cutoff r).
Qed.
Lemma keyed_delete t id : keyed t -> keyed (delete id t).
Proof. apply map_Forall_delete. Qed.
#[local] Hint Resolve keyed_insert keyed_alter keyed_sweep keyed_delete : queue.
Lemma keyed_claim t id now host row :
  keyed t -> id = qi_EventID (qr_item row) -> keyed (<[id := set_lock now host row]> t).
Proof. intros Hk ->. exact (keyed_insert t (set_lock now host row) Hk). Qed.
Lemma keyed_new t item now : keyed t -> keyed (<[qi_EventID item := mkQueueRow item Queued 0 now None None]> t).
Proof. exact (keyed_insert t (mkQueueRow item Queued 0 now None None)). Qed.
#[local] Hint Resolve keyed_claim keyed_new : queue.

Lemma keyed_step timely s s' : pq_step timely s s' -> keyed (sys_table s) -> keyed (sys_table s').
Proof.
  intros [t ws acc ds now item fs n r n' t' E|t ws acc ds i locked now host fs n r n' t' Hi E|t ws acc ds i item since err fs n r n' t' Hi E
         |t ws acc ds i item since Hi|t ws acc ds cutoff fs n r n' t' E Ht] Hk; cbn in *.
  - apply Enqueue_cases in E as [[->|[_ ->]] _]; eauto with queue.
  - apply (dequeue_cases _ _ _ _ _ _ _ _ _ Hk) in E as [[-> _]|(row & _ & _ & -> & _)]; [done|by apply keyed_claim].
  - apply finish_cases in E as [->|[[_ ->]| ->]]; auto with queue.
  - done.
  - apply sweep_cases in E as [->| ->]; auto with queue.
Qed.
Lemma keyed_reachable timely n s : pq_reachable timely n s -> keyed (sys_table s).
Proof.
  unfold pq_reachable. intros Hr. cut (keyed (sys_table (pq_init n))); [|by intros ? ?].
  induction Hr; eauto using keyed_step.
Qed.

(** *** Nothing accepted is lost *)
Definition kept (s : queue_system) (item : QueueItem) : Prop :=
  is_Some (sys_table s !! qi_EventID item) \/
  exists it err, (it, err) ∈ sys_done s /\ qi_EventID it = qi_EventID item /\ settled err.
Lemma kept_step timely s s' item : pq_step timely s s' -> keyed (sys_table s) -> kept s item -> kept s' item.
Proof.
  unfold kept.
  intros [t ws acc ds now it fs n r n' t' E|t ws acc ds i locked now host fs n r n' t' Hi E|t ws acc ds i it since err fs n r n' t' Hi E
         |t ws acc ds i it since Hi|t ws acc ds cutoff fs n r n' t' E Ht] Hk [Ht0|Hd]; cbn in *; try (by right).
  - left. apply Enqueue_cases in E as [[->|[_ ->]] _]; [done|]. rewrite lookup_insert_is_Some. destruct (decide (qi_EventID it = qi_EventID item)); auto.
  - left. apply (dequeue_cases _ _ _ _ _ _ _ _ _ Hk) in E as [[-> _]|(row & _ & _ & -> & _)]; [done|]. rewrite lookup_insert_is_Some.
    destruct (decide (qi_EventID (qr_item row) = qi_EventID item)); auto.
  - apply finish_cases in E as [->|[[Hs ->]| ->]]; [by left| |left].
    + destruct (decide (qi_EventID it = qi_EventID item)) as [Eid|Hne].
      * right. exists it, err. split_and!; [set_solver|done|done].
      * left. by rewrite lookup_delete_ne.
    + by apply lookup_alter_is_Some.
  - right. destruct Hd as (x & e & ? & ?). exists x, e. set_solver.
  - by left.
  - left. apply sweep_cases in E as [->| ->]; [done|]. rewrite lookup_fmap. by apply fmap_is_Some.
Qed.

(** C6: The queue is durable: an event whose [Enqueue] returned nil is in the table, or a
    dispatch of it has ended in success or in a permanent failure. This holds of any
    number of workers in any interleaving, with failed statements, lost answers,
    crashes of workers and sweeps at any time. *)
Theorem accepted_not_lost timely workers s item :
  pq_reachable timely workers s -> item ∈ sys_accepted s -> kept s item.
Proof.
  intros Hr. revert item. refine (rtc_ind_r (fun s => forall item, item ∈ sys_accepted s -> kept s item) _ _ _ s Hr).
  - by intros item ?%not_elem_of_nil.
  - intros s1 s2 Hr1 Hstep IH item Hin. assert (Hk1 := keyed_reachable timely workers s1 Hr1).
    assert (item ∈ sys_accepted s1 \/ is_Some (sys_table s2 !! qi_EventID item)) as [Hin1|Hnew]; [|by eauto using kept_step|by left].
    destruct Hstep as [t ws acc ds now it fs n r n' t' E| | | |]; cbn in *; [|by left..].
    destruct r as [u|e]; [|by left]. apply elem_of_app in Hin as [Hin|Hin%list_elem_of_singleton]; [by left|]. subst it.
    right. by eapply Enqueue_cases.
Qed.

(** *** One worker per event *)
Record claims_ok (s : queue_system) : Prop := {
  co_row i item since : sys_workers s !! i = Some (Busy item since) ->
    exists row, sys_table s !! qi_EventID item = Some row /\ qr_state row = Processing /\ qr_locked_at row = Some since;
  co_inj i j item since item' since' :
    sys_workers s !! i = Some (Busy item since) -> sys_workers s !! j = Some (Busy item' since') ->
    qi_EventID item = qi_EventID item' -> i = j;
}.
(** Tables that agree on the rows of the busy workers. *)
Lemma claims_ok_table t t' ws acc acc' ds ds' :
  claims_ok (mkQueueSystem t ws acc ds) ->
  (forall i item since row, ws !! i = Some (Busy item since) -> t !! qi_EventID item = Some row ->
     qr_state row = Processing -> qr_locked_at row = Some since -> t' !! qi_EventID item = Some row) ->
  claims_ok (mkQueueSystem t' ws acc' ds').
Proof.
  intros [Hr Hi] Hsame. split; [|exact Hi]. intros i item since Hw. destruct (Hr i item since Hw) as (row & ? & ? & ?).
  exists row. split; [|done]. by eapply Hsame.
Qed.
Lemma claims_ok_idle t ws acc ds ds' i item since t' :
  claims_ok (mkQueueSystem t ws acc ds) -> ws !! i = Some (Busy item since) ->
  (forall id, id <> qi_EventID item -> t' !! id = t !! id) ->
  claims_ok (mkQueueSystem t' (<[i := Idle]> ws) acc ds').
Proof.
  intros [Hr Hi] Hw Hsame. split; cbn in *.
  - intros j it sn [[_ ?]|[Hne Hj]]%list_lookup_insert_Some; [naive_solver|]. rewrite Hsame; [eauto|].
    intros E. apply Hne. by eapply Hi.
  - intros j k it sn it' sn' [[_ ?]|[_ Hj]]%list_lookup_insert_Some; [naive_solver|].
    intros [[_ ?]|[_ Hk]]%list_lookup_insert_Some; [naive_solver|]. eauto.
Qed.
Lemma claims_ok_step s s' : pq_step true s s' -> keyed (sys_table s) -> claims_ok s -> claims_ok s'.
Proof.
  intros [t ws acc ds now it fs n r n' t' E|t ws acc ds i locked now host fs n r n' t' Hw E|t ws acc ds i it since err fs n r n' t' Hw E
         |t ws acc ds i it since Hw|t ws acc ds cutoff fs n r n' t' E Ht] Hk Hok; cbn in *.
  - apply Enqueue_cases in E as [[->|[Hn ->]] _]; (eapply claims_ok_table; [exact Hok|]); [done|].
    intros j item sn row _ Hrow _ _. rewrite lookup_insert_ne; congruence.
  - apply (dequeue_cases _ _ _ _ _ _ _ _ _ Hk) in E as [[-> Hno]|(row & Hrow & Hq & -> & Hit)].
    + destruct r as [[item|]|]; [by destruct (Hno item)|exact Hok..].
    + assert (Hfree : forall j item sn, ws !! j = Some (Busy item sn) -> qi_EventID item <> qi_EventID (qr_item row)).
      { intros j item sn Hj E. destruct (co_row _ Hok j item sn Hj) as (row' & Hrow' & Hp & _). cbn in Hrow'. congruence. }
      assert (claims_ok (mkQueueSystem (<[qi_EventID (qr_item row) := set_lock now host row]> t) ws acc ds)) as [Hr Hi].
      { eapply claims_ok_table; [exact Hok|]. intros j item sn row' Hj Hrow' _ _. rewrite lookup_insert_ne; [done|]. intros E.
        by eapply Hfree. }
      destruct r as [[item|]|]; [|by split..]. rewrite (Hit item eq_refl). split; cbn in *.
      * intros j item' sn [[<- [[= <- <-] _]]|[Hne Hj]]%list_lookup_insert_Some; [|eauto].
        eexists. split; [apply lookup_insert_eq|done].
      * intros j k it sn it' sn' [[<- [[= <- <-] _]]|[Hne Hj]]%list_lookup_insert_Some [[<- [[= <- <-] _]]|[Hne' Hk']]%list_lookup_insert_Some E;
          [done|by destruct (Hfree k it' sn' Hk')|by destruct (Hfree j it sn Hj)|eauto].
  - eapply claims_ok_idle; [exact Hok|exact Hw|]. intros id Hid.
    apply finish_cases in E as [->|[[_ ->]| ->]]; [done|by rewrite lookup_delete_ne|by rewrite lookup_alter_ne].
  - by eapply claims_ok_idle.
  - apply sweep_cases in E as [->| ->]; [done|]. eapply claims_ok_table; [exact Hok|]. intros i item since row Hi Hrow Hp Hl.
    rewrite lookup_fmap, Hrow. cbn. unfold stuck. rewrite Hl. rewrite (proj2 (Z.ltb_ge since cutoff)), andb_false_r; [done|].
    by eapply (Ht eq_refl).
Qed.

(** C17: Workers do not share an event: as long as the sweeper only takes rows from
    workers that are no longer dispatching, two workers never hold the same event, and
    the row of an event a worker holds is marked as processing since its claim. *)
Theorem claims_exclusive workers s :
  pq_reachable true workers s ->
  (forall i j item since item' since', sys_workers s !! i = Some (Busy item since) ->
     sys_workers s !! j = Some (Busy item' since') -> qi_EventID item = qi_EventID item' -> i = j) /\
  (forall i item since, sys_workers s !! i = Some (Busy item since) ->
     exists row, sys_table s !! qi_EventID item = Some row /\ qr_state row = Processing /\ qr_locked_at row = Some since).
Proof.
  intros Hr. cut (claims_ok s); [by intros [? ?]|]. refine (rtc_ind_r claims_ok _ _ _ s Hr).
  - assert (Hidle : forall i item since, replicate workers Idle !! i = Some (Busy item since) -> False).
    { by intros i item since [? ?]%lookup_replicate. }
    split; cbn; intros; exfalso; by eapply Hidle.
  - intros s1 s2 Hr1 Hstep IH. by eauto using claims_ok_step, keyed_reachable.
Qed.
End facts.

(** ** A worker that runs alone *)
Section worker.
Context `{GoRuntime} (dispatch : QueueItem -> option process_error) (now : Z) (host : string).

Definition queued_rows (t : queue_table) : list QueueRow := List.filter is_queued (map snd (map_range t)).
Definition attempts_left (n : nat) (row : QueueRow) : Prop := qr_attempt_count row + Z.of_nat n <= int32_max.

Lemma queued_rows_elem t row : keyed t ->
  row ∈ queued_rows t <-> t !! qi_EventID (qr_item row) = Some row /\ qr_state row = Queued.
Proof.
  intros Hk. unfold queued_rows. rewrite list_elem_of_In, filter_In, <- list_elem_of_In, list_elem_of_fmap.
  unfold is_queued. rewrite bool_decide_eq_true. split.
  - intros [([id r] & -> & Hin%map_range_elem) Hq]. cbn in *. by rewrite (Hk id r Hin).
  - intros [Ht Hq]. split; [|done]. exists (qi_EventID (qr_item row), row). by rewrite map_range_elem.
Qed.
Lemma next_queued_all t : next_queued [] t = head (sort_slice older (queued_rows t)).
Proof.
  unfold next_queued, queued_rows. do 2 f_equal. apply filter_ext. intros row. unfold is_queued.
  by rewrite andb_true_r.
Qed.
(** The oldest queued row, when there is one. *)
Lemma next_queued_oldest t row : next_queued [] t = Some row ->
  row ∈ queued_rows t /\ forall r, r ∈ queued_rows t -> older r row = false.
Proof.
  rewrite next_queued_all. pose proof (sort_slice_perm _ older (queued_rows t)) as Hp.
  pose proof (sort_slice_sorted _ older (queued_rows t) _) as Hs.
  destruct (sort_slice older (queued_rows t)) as [|x l]; cbn; [done|]. intros [= ->]. apply StronglySorted_inv in Hs as [_ Hall].
  split; [rewrite <- Hp; set_solver|]. intros r. rewrite <- Hp. intros [->|Hr]%elem_of_cons; [unfold older; apply Z.ltb_irrefl|].
  by apply (proj1 (Forall_forall _ _) Hall).
Qed.
Lemma dequeue_none t : next_queued [] t = None -> runs (dequeue [] now host) t = (Ok None, t).
Proof. intros E. unfold runs, dequeue, transaction, begin_tx, sbind, named, query, stmt. cbn. by rewrite E. Qed.
Lemma dequeue_some t row : keyed t -> next_queued [] t = Some row -> attempts_left 1 row ->
  runs (dequeue [] now host) t = (Ok (Some (qr_item row)), <[qi_EventID (qr_item row) := set_lock now host row]> t).
Proof.
  intros Hk E Ha. destruct (next_queued_some [] t row Hk E) as [Hrow _].
  unfold runs, dequeue, transaction, begin_tx, sbind, named, query, stmt. cbn. rewrite E. cbn. unfold lock_row. rewrite Hrow.
  unfold attempts_left in Ha. rewrite (proj2 (Z.ltb_ge _ _)) by lia. done.
Qed.
Lemma queued_rows_delete t row : t !! qi_EventID (qr_item row) = Some row -> qr_state row = Queued ->
  queued_rows t ≡ₚ row :: queued_rows (delete (qi_EventID (qr_item row)) t).
Proof.
  intros Hrow Hq. unfold queued_rows. rewrite !map_range_perm, <- (map_to_list_delete t _ row Hrow). cbn.
  unfold is_queued at 1. by rewrite bool_decide_eq_true_2.
Qed.
Definition unqueued (t : queue_table) : queue_table := filter (fun kr => qr_state (snd kr) <> Queued) t.
Lemma unqueued_id t : keyed t -> queued_rows t = [] -> unqueued t = t.
Proof.
  intros Hk Hn. apply map_filter_id. intros id row Hrow Hq. cbn in Hq.
  apply (not_elem_of_nil row). rewrite <- Hn, queued_rows_elem by done. by rewrite (Hk id row Hrow).
Qed.
Lemma unqueued_delete t id row : t !! id = Some row -> qr_state row = Queued -> unqueued (delete id t) = unqueued t.
Proof. intros Hrow Hq. apply map_filter_delete_not. intros r Hr Hne. cbn in Hne. congruence. Qed.
Lemma next_queued_empty t : next_queued [] t = None -> queued_rows t = [].
Proof.
  rewrite next_queued_all. intros E. apply Permutation_nil_r. rewrite <- (sort_slice_perm _ older (queued_rows t)).
  by destruct (sort_slice older (queued_rows t)).
Qed.

(** C28: A worker empties the queue when its dispatches do not fail transiently: given as
    many passes as rows are queued, it ends with none queued, having dispatched each queued
    event exactly once and in the order in which they were enqueued; rows that
    were being processed elsewhere are left alone. *)
Theorem worker_drains fuel t :
  keyed t -> (forall item, settled (dispatch item)) -> Forall (attempts_left 1) (queued_rows t) ->
  (List.length (queued_rows t) <= fuel)%nat ->
  exists rows, rows ≡ₚ queued_rows t /\ sorted_by older rows /\
    worker_loop dispatch now host fuel t = (map (fun row => (qr_item row, dispatch (qr_item row))) rows, unqueued t).
Proof.
  intros Hk Hset. revert t Hk. induction fuel as [|fuel IH]; intros t Hk Hatt Hlen; cbn [worker_loop].
  { exists []. apply Nat.le_0_r, length_zero_iff_nil in Hlen. rewrite unqueued_id, Hlen by done. split_and!; [done|constructor|done]. }
  destruct (next_queued [] t) as [row|] eqn:En.
  2:{ exists []. rewrite dequeue_none, (next_queued_empty t En), unqueued_id by (done || by apply next_queued_empty).
      split_and!; [done|constructor|done]. }
  destruct (next_queued_oldest t row En) as [Hin Hmin]. destruct (proj1 (queued_rows_elem t row Hk) Hin) as [Hrow Hq].
  rewrite (dequeue_some t row Hk En) by exact (proj1 (Forall_forall _ _) Hatt row Hin).
  assert (Ef : runs (finish (qr_item row) (dispatch (qr_item row))) (<[qi_EventID (qr_item row) := set_lock now host row]> t)
               = (Ok tt, delete (qi_EventID (qr_item row)) t)).
  { unfold runs, finish. specialize (Hset (qr_item row)). destruct (dispatch (qr_item row)) as [[|msg]|]; [|done|];
      unfold complete, named, stmt; cbn; by rewrite delete_insert_eq. }
  rewrite Ef. pose proof (queued_rows_delete t row Hrow Hq) as Hp. rewrite Hp in Hlen, Hatt. cbn in Hlen. apply Forall_cons in Hatt as [_ Hatt].
  destruct (IH (delete (qi_EventID (qr_item row)) t)) as (rows & Hperm & Hs & Ew); [by apply keyed_delete|done|lia|].
  exists (row :: rows). rewrite Ew, (unqueued_delete t _ row Hrow Hq). split_and!; [by rewrite Hp, Hperm| |done].
  constructor; [done|]. apply Forall_forall. intros r Hr. rewrite Hperm in Hr. apply Hmin. rewrite Hp. by right.
Qed.

Definition retried_row (row : QueueRow) : QueueRow := set_queued (set_lock now host row).
(** An event that keeps failing starves the queue: [releaseFailed] leaves its place at
    the head of the queue and no attempt limit is applied, so a worker dispatches the
    oldest queued event again and again for as long as it fails transiently, and
    never gets to another row. *)
Theorem failing_head_starves fuel t row msg :
  keyed t -> t !! qi_EventID (qr_item row) = Some row -> qr_state row = Queued ->
  (forall r, r ∈ queued_rows t -> qi_EventID (qr_item r) <> qi_EventID (qr_item row) -> older row r = true) ->
  dispatch (qr_item row) = Some (DispatchError msg) -> attempts_left fuel row ->
  fst (worker_loop dispatch now host fuel t) = replicate fuel (qr_item row, Some (DispatchError msg)) /\
  forall id, id <> qi_EventID (qr_item row) -> snd (worker_loop dispatch now host fuel t) !! id = t !! id.
Proof.
  revert t row. induction fuel as [|fuel IH]; intros t row Hk Hrow Hq Hold Hd Hatt; [done|]. cbn [worker_loop replicate].
  assert (Hin : row ∈ queued_rows t) by by apply queued_rows_elem.
  assert (En : next_queued [] t = Some row).
  { destruct (next_queued [] t) as [r|] eqn:En; [|rewrite (next_queued_empty t En) in Hin; by apply not_elem_of_nil in Hin].
    destruct (next_queued_oldest t r En) as [Hr Hmin]. specialize (Hmin row Hin).
    destruct (decide (qi_EventID (qr_item r) = qi_EventID (qr_item row))) as [E|Hne]; [|rewrite (Hold r Hr Hne) in Hmin; done].
    apply queued_rows_elem in Hr as [Hr _]; [|done]. rewrite E in Hr. congruence. }
  set (id := qi_EventID (qr_item row)) in *.
  rewrite (dequeue_some t row Hk En) by (unfold attempts_left in *; lia). rewrite Hd. cbn [finish].
  assert (Er : runs (releaseFailed id) (<[id := set_lock now host row]> t) = (Ok tt, <[id := retried_row row]> t)).
  { unfold runs, releaseFailed, named, stmt. cbn. by rewrite alter_insert_eq. }
  fold id. rewrite Er. set (t2 := <[id := retried_row row]> t).
  assert (Hk2 : keyed t2) by (by apply (keyed_insert t (retried_row row))).
  destruct (IH t2 (retried_row row)) as [IH1 IH2].
  - done.
  - apply lookup_insert_eq.
  - done.
  - intros r Hr Hne. apply Hold; [|done]. apply queued_rows_elem in Hr as [Hr Hrq]; [|done]. apply queued_rows_elem; [done|].
    unfold t2 in Hr. by rewrite lookup_insert_ne in Hr.
  - done.
  - unfold attempts_left in *. cbn. lia.
  - destruct (worker_loop dispatch now host fuel t2) as [l t3]. cbn in *. split; [by rewrite IH1|].
    intros i Hi. rewrite (IH2 i Hi). by apply lookup_insert_ne.
Qed.
End worker.

Module QueueDemo.
Definition item_a : QueueItem := mkItem "evt_a" "invoice.paid" "app" "{}" "tok_a".
Definition item_b : QueueItem := mkItem "evt_b" "invoice.paid" "app" "{}" "tok_b".
Definition both : queue_table := snd (runs (pq_Enqueue 2 item_b) (snd (runs (pq_Enqueue 1 item_a) ∅))).
Definition row_a : QueueRow := mkQueueRow item_a Queued 0 1 None None.
Definition row_b : QueueRow := mkQueueRow item_b Queued 0 2 None None.
Lemma both_rows : both = <["evt_b" := row_b]> {["evt_a" := row_a]}.
Proof. vm_compute. reflexivity. Qed.
Lemma both_keyed : keyed both.
Proof. intros id row. rewrite both_rows. intros [[<- <-]|[_ [<- <-]%lookup_singleton_Some]]%lookup_insert_Some; done. Qed.

Abbreviation one_row st a since := ({["evt_a" := mkQueueRow item_a st a 1 since (match since with Some _ => Some "h" | None => None end)]} : queue_table).
Definition held : queue_system := mkQueueSystem (one_row Processing 1 (Some 10)) [Busy item_a 10; Idle] [item_a] [].
Lemma held_reachable timely : pq_reachable timely 2 held.
Proof.
  eapply rtc_l; [eapply (pq_enqueue _ _ _ _ _ 1 item_a no_faults 0); vm_compute; reflexivity|]. cbn.
  eapply rtc_l; [eapply (pq_claim _ _ _ _ _ 0 [] 10 "h" no_faults 0); [reflexivity|vm_compute; reflexivity]|]. cbn.
  apply rtc_refl.
Qed.
Definition shared : queue_system := mkQueueSystem (one_row Processing 2 (Some 1000)) [Busy item_a 10; Busy item_a 1000] [item_a] [].
Lemma shared_reachable : pq_reachable false 2 shared.
Proof.
  unfold pq_reachable. etrans; [apply held_reachable|].
  eapply rtc_l; [eapply (pq_sweep _ _ _ _ _ 500 no_faults 0); [vm_compute; reflexivity|discriminate]|].
  eapply rtc_l; [eapply (pq_claim _ _ _ _ _ 1 [] 1000 "h" no_faults 0); [reflexivity|vm_compute; reflexivity]|]. cbn.
  apply rtc_refl.
Qed.

(** A claim is not fenced: once the sweeper has taken a row from a slow worker and another
    worker has claimed it, the slow worker's failed dispatch puts the row back in the
    queue under the other worker's claim, and a third dispatch of the event starts
    while the second is running, although no further sweep takes place. *)
Theorem claim_not_fenced :
  exists s1 s2, pq_reachable false 2 s1 /\ sys_workers s1 = [Busy item_a 10; Busy item_a 1000] /\
    rtc (pq_step true) s1 s2 /\ sys_workers s2 = [Busy item_a 1001; Busy item_a 1000].
Proof.
  exists shared. eexists. split; [apply shared_reachable|]. split; [done|]. split.
  - eapply rtc_l; [eapply (pq_finish _ _ _ _ _ 0 item_a 10 (Some (DispatchError "slow")) no_faults 0); [reflexivity|vm_compute; reflexivity]|].
    eapply rtc_l; [eapply (pq_claim _ _ _ _ _ 0 [] 1001 "h" no_faults 0); [reflexivity|vm_compute; reflexivity]|].
    apply rtc_refl.
  - reflexivity.
Qed.

Lemma accepted_not_lost_witness : kept held item_a.
Proof. apply (accepted_not_lost true 2 held item_a); [apply held_reachable|]. cbn. left. Defined.
Lemma claims_exclusive_witness :
  exists row, sys_table held !! "evt_a" = Some row /\ qr_state row = Processing /\ qr_locked_at row = Some 10.
Proof. apply (proj2 (claims_exclusive 2 held (held_reachable true)) 0%nat item_a 10). reflexivity. Defined.
Lemma worker_drains_witness :
  exists rows, rows ≡ₚ queued_rows both /\ sorted_by older rows /\
    worker_loop (fun _ => None) 10 "h" 2 both = (map (fun row => (qr_item row, None)) rows, unqueued both).
Proof.
  apply (worker_drains (fun _ => None) 10 "h" 2 both); [apply both_keyed|done| |vm_compute; lia].
  assert (queued_rows both = [row_a; row_b] \/ queued_rows both = [row_b; row_a]) as [->| ->] by (vm_compute; auto);
    repeat constructor; discriminate.
Defined.
Lemma failing_head_starves_witness :
  fst (worker_loop (fun _ => Some (DispatchError "down")) 10 "h" 5 both) = replicate 5 (item_a, Some (DispatchError "down")) /\
  snd (worker_loop (fun _ => Some (DispatchError "down")) 10 "h" 5 both) !! "evt_b" = Some row_b.
Proof.
  destruct (failing_head_starves (fun _ => Some (DispatchError "down")) 10 "h" 5 both row_a "down") as [E1 E2].
  - apply both_keyed.
  - vm_compute. reflexivity.
  - reflexivity.
  - intros r Hr Hne. apply queued_rows_elem in Hr as [Hr _]; [|apply both_keyed]. rewrite both_rows in Hr.
    apply lookup_insert_Some in Hr as [[_ <-]|[_ [_ <-]%lookup_singleton_Some]]; [reflexivity|]. by destruct Hne.
  - reflexivity.
  - vm_compute. discriminate.
  - split; [exact E1|]. rewrite E2; [vm_compute; reflexivity|discriminate].
Defined.
End QueueDemo.
