(* ===== verification/Subscriptions.v ===== *)
(** * Subscriptions: the mirror of Stripe subscriptions
      (src/subscriptions/types.go, repo.go, mirror.go, reconcile.go, hot_path.go).

    A [time.Time] is its nanoseconds since 1970; a nil metadata map and an empty one
    read alike. The repository is an interface over its state; the in-memory one is
    here, the Postgres one in SubscriptionsPostgres.v. Clock readings are inputs. *)
From S2P Require Import Prelude Json Events CatalogSpec.

(** ** Data (types.go) *)
Definition StatusIncomplete : string := "incomplete".
Definition StatusIncompleteExpired : string := "incomplete_expired".
Definition StatusTrialing : string := "trialing".
Definition StatusActive : string := "active".
Definition StatusPastDue : string := "past_due".
Definition StatusUnpaid : string := "unpaid".
Definition StatusCanceled : string := "canceled".
Definition StatusPaused : string := "paused".

Definition IsAccessGranting (s : string) : bool :=
  String.eqb s StatusActive || String.eqb s StatusTrialing || String.eqb s StatusPastDue.

Record SubscriptionItem := mkSubItem { si_StripeID : string; si_PriceKey : string; si_Quantity : Z }.
Record LatestInvoiceState := mkLatest {
  li_Status : string; li_AttemptCount : Z; li_NextPaymentAttempt : option Z }.
Record Subscription := mkSub {
  sub_StripeID : string;
  sub_SubjectID : string;
  sub_StripeCustomerID : string;
  sub_Status : string;
  sub_Items : list SubscriptionItem;
  sub_CurrentPeriodStart : Z;
  sub_CurrentPeriodEnd : Z;
  sub_CancelAtPeriodEnd : bool;
  sub_CanceledAt : option Z;
  sub_EndedAt : option Z;
  sub_TrialStart : option Z;
  sub_TrialEnd : option Z;
  sub_Metadata : smap;
  sub_UpdatedAt : Z;
  sub_StripeUpdatedAt : Z;
  sub_LatestInvoice : option LatestInvoiceState;
}.

Definition InGracePeriod (s : Subscription) : bool := String.eqb (sub_Status s) StatusPastDue.
Definition NextPaymentRetryAt (s : Subscription) : option Z :=
  match sub_LatestInvoice s with None => None | Some i => li_NextPaymentAttempt i end.
Definition SmartRetryAttemptCount (s : Subscription) : Z :=
  match sub_LatestInvoice s with None => 0 | Some i => li_AttemptCount i end.

(** ** The repository interface (repo.go) *)
Class SubscriptionRepo (S : Type) := {
  sr_Upsert : Subscription -> S -> option string * S;
  sr_GetByStripeID : string -> S -> res string (option Subscription);
  sr_ListBySubject : string -> S -> res string (list Subscription);
}.

(** The in-memory repository: a row is copied on the way in and out. *)
Module MemSubs.
Abbreviation memoryRepo := (gmap string Subscription).
Definition mem_NewMemoryRepo : memoryRepo := ∅.

Definition mem_Upsert (s : Subscription) (r : memoryRepo) : option string * memoryRepo :=
  match r !! sub_StripeID s with
  | Some existing =>
      if sub_StripeUpdatedAt s <? sub_StripeUpdatedAt existing then (None, r)
      else (None, <[sub_StripeID s := s]> r)
  | None => (None, <[sub_StripeID s := s]> r)
  end.

Definition mem_GetByStripeID (id : string) (r : memoryRepo) : res string (option Subscription) :=
  Ok (r !! id).

Section range.
Context `{GoRuntime}.
Definition mem_ListBySubject (subject : string) (r : memoryRepo) : res string (list Subscription) :=
  Ok (List.filter (fun s => String.eqb (sub_SubjectID s) subject) (map snd (map_range r))).

#[export] Instance memory_SubscriptionRepo : SubscriptionRepo memoryRepo := {
  sr_Upsert := mem_Upsert;
  sr_GetByStripeID := mem_GetByStripeID;
  sr_ListBySubject := mem_ListBySubject;
}.
End range.
End MemSubs.
#[export] Existing Instance MemSubs.memory_SubscriptionRepo.

(** ** Reading an event (mirror.go) *)
Record subscriptionPriceShape := mkPriceShape { ps_ID : string; ps_LookupKey : string }.
Record subscriptionItemShape := mkItemShape {
  is_ID : string;
  is_Quantity : Z;
  is_CurrentPeriodStart : Z;
  is_CurrentPeriodEnd : Z;
  is_Price : option subscriptionPriceShape;
}.
Record latestInvoiceShape := mkInvShape {
  ls_Status : string; ls_AttemptCount : Z; ls_NextPaymentAttempt : Z }.
Record subscriptionShape := mkSubShape {
  sh_ID : string;
  sh_Status : string;
  sh_Customer : string;
  sh_CancelAtPeriodEnd : bool;
  sh_CanceledAt : Z;
  sh_EndedAt : Z;
  sh_TrialStart : Z;
  sh_TrialEnd : Z;
  sh_Metadata : smap;
  (** [Items.Data] *)
  sh_Items : option (list subscriptionItemShape);
  (** the raw message: the tree of the value, when there is one *)
  sh_LatestInvoice : option json;
}.
Definition subscriptionShape_zero : subscriptionShape :=
  mkSubShape "" "" "" false 0 0 0 0 ∅ None None.

Definition dec_raw : decoder (option json) := fun _ j => Some (Some j).
Definition dec_priceShape : decoder subscriptionPriceShape :=
  dec_struct (fun x l =>
    match dec_field "id" dec_string (ps_ID x) l,
          dec_field "lookup_key" dec_string (ps_LookupKey x) l with
    | Some i, Some k => Some (mkPriceShape i k)
    | _, _ => None
    end).
Definition dec_itemShape : decoder subscriptionItemShape :=
  dec_struct (fun x l =>
    match dec_field "id" dec_string (is_ID x) l,
          dec_field "quantity" dec_int64 (is_Quantity x) l,
          dec_field "current_period_start" dec_int64 (is_CurrentPeriodStart x) l,
          dec_field "current_period_end" dec_int64 (is_CurrentPeriodEnd x) l,
          dec_field "price" (dec_ptr (mkPriceShape "" "") dec_priceShape) (is_Price x) l with
    | Some i, Some q, Some ps, Some pe, Some p => Some (mkItemShape i q ps pe p)
    | _, _, _, _, _ => None
    end).
Definition dec_items : decoder (list subscriptionItemShape) :=
  dec_struct (fun x l => dec_field "data" (dec_slice (mkItemShape "" 0 0 0 None) dec_itemShape) x l).
Definition dec_latest : decoder latestInvoiceShape :=
  dec_struct (fun x l =>
    match dec_field "status" dec_string (ls_Status x) l,
          dec_field "attempt_count" dec_int64 (ls_AttemptCount x) l,
          dec_field "next_payment_attempt" dec_int64 (ls_NextPaymentAttempt x) l with
    | Some s, Some a, Some n => Some (mkInvShape s a n)
    | _, _, _ => None
    end).
Definition dec_subscription : decoder subscriptionShape :=
  dec_struct (fun x l =>
    match dec_field "id" dec_string (sh_ID x) l,
          dec_field "status" dec_string (sh_Status x) l,
          dec_field "customer" dec_string (sh_Customer x) l,
          dec_field "cancel_at_period_end" dec_bool (sh_CancelAtPeriodEnd x) l,
          dec_field "canceled_at" dec_int64 (sh_CanceledAt x) l,
          dec_field "ended_at" dec_int64 (sh_EndedAt x) l,
          dec_field "trial_start" dec_int64 (sh_TrialStart x) l,
          dec_field "trial_end" dec_int64 (sh_TrialEnd x) l,
          dec_field "metadata" dec_smap (sh_Metadata x) l,
          dec_field "items" (dec_ptr [] dec_items) (sh_Items x) l,
          dec_field "latest_invoice" dec_raw (sh_LatestInvoice x) l with
    | Some i, Some s, Some c, Some b, Some ca, Some ea, Some ts, Some te, Some m, Some its, Some li =>
        Some (mkSubShape i s c b ca ea ts te m its li)
    | _, _, _, _, _, _, _, _, _, _, _ => None
    end).

Definition unixToTimePtr (unix : Z) : option Z := if unix =? 0 then None else Some (time_Unix unix).

(** [PriceKeyResolver]: the catalog cache, or nil. *)
Abbreviation resolver := (option (string -> option string)).

Definition resolvePriceKey (r : resolver) (price : subscriptionPriceShape) : string :=
  match r with
  | Some f =>
      match f (ps_ID price) with
      | Some key => key
      | None => if String.eqb (ps_LookupKey price) "" then "stripe:" ^^ ps_ID price
                else ps_LookupKey price
      end
  | None => if String.eqb (ps_LookupKey price) "" then "stripe:" ^^ ps_ID price
            else ps_LookupKey price
  end.

(** Only an expanded invoice, an object, carries the dunning state. *)
Definition parse_latest (raw : option json) : option LatestInvoiceState :=
  match raw with
  | Some (JObj l) =>
      match dec_latest (mkInvShape "" 0 0) (JObj l) with
      | Some inv =>
          if String.eqb (ls_Status inv) "" then None
          else Some (mkLatest (ls_Status inv) (ls_AttemptCount inv)
                      (unixToTimePtr (ls_NextPaymentAttempt inv)))
      | None => None
      end
  | _ => None
  end.

Definition parse_item (r : resolver) (raw : subscriptionItemShape) : SubscriptionItem :=
  mkSubItem (is_ID raw)
    (match is_Price raw with Some price => resolvePriceKey r price | None => "" end)
    (is_Quantity raw).

(** The period of the first item that has one. *)
Fixpoint items_period (start end_ : Z) (items : list subscriptionItemShape) : Z * Z :=
  match items with
  | [] => (start, end_)
  | raw :: rest =>
      if IsZero start && (0 <? is_CurrentPeriodStart raw) then
        items_period (time_Unix (is_CurrentPeriodStart raw)) (time_Unix (is_CurrentPeriodEnd raw)) rest
      else items_period start end_ rest
  end.

Inductive mirror_error := MParseNoData | MParseUnmarshal | MUpsert (msg : string).

Definition parseSubscription (r : resolver) (evt : Event) : res mirror_error Subscription :=
  match event_data evt with
  | None => Err MParseNoData
  | Some raw =>
      match Unmarshal subscriptionShape_zero dec_subscription raw with
      | None => Err MParseUnmarshal
      | Some shape =>
          let items := default [] (sh_Items shape) in
          let '(start, end_) := items_period time_zero time_zero items in
          Ok (mkSub (sh_ID shape) (mget (sh_Metadata shape) "subject_id") (sh_Customer shape)
                (sh_Status shape) (map (parse_item r) items) start end_ (sh_CancelAtPeriodEnd shape)
                (unixToTimePtr (sh_CanceledAt shape)) (unixToTimePtr (sh_EndedAt shape))
                (unixToTimePtr (sh_TrialStart shape)) (unixToTimePtr (sh_TrialEnd shape))
                (sh_Metadata shape) time_zero time_zero (parse_latest (sh_LatestInvoice shape)))
      end
  end.

Definition is_subscription_event (type : string) : bool :=
  String.eqb type "customer.subscription.created" || String.eqb type "customer.subscription.updated" ||
  String.eqb type "customer.subscription.deleted" || String.eqb type "customer.subscription.paused" ||
  String.eqb type "customer.subscription.resumed".

(** The row an event asks for, with the two readings of the clock. *)
Definition set_status (s : Subscription) (status : string) (ended : option Z) : Subscription :=
  mkSub (sub_StripeID s) (sub_SubjectID s) (sub_StripeCustomerID s) status (sub_Items s)
    (sub_CurrentPeriodStart s) (sub_CurrentPeriodEnd s) (sub_CancelAtPeriodEnd s) (sub_CanceledAt s)
    ended (sub_TrialStart s) (sub_TrialEnd s) (sub_Metadata s) (sub_UpdatedAt s)
    (sub_StripeUpdatedAt s) (sub_LatestInvoice s).
Definition set_times (s : Subscription) (updated stripe : Z) : Subscription :=
  mkSub (sub_StripeID s) (sub_SubjectID s) (sub_StripeCustomerID s) (sub_Status s) (sub_Items s)
    (sub_CurrentPeriodStart s) (sub_CurrentPeriodEnd s) (sub_CancelAtPeriodEnd s) (sub_CanceledAt s)
    (sub_EndedAt s) (sub_TrialStart s) (sub_TrialEnd s) (sub_Metadata s) updated stripe
    (sub_LatestInvoice s).
Definition event_row (now1 now2 : Z) (evt : Event) (sub : Subscription) : Subscription :=
  let sub :=
    if String.eqb (ev_Type evt) "customer.subscription.deleted" then
      set_status sub StatusCanceled
        (match sub_EndedAt sub with None => Some now1 | Some t => Some t end)
    else sub in
  set_times sub now2 (time_Unix (ev_CreatedUnix evt)).

Section mirror.
Context {S : Type} `{SubscriptionRepo S}.

Definition ApplyEventToMirror (now1 now2 : Z) (r : resolver) (evt : Event) (s : S)
  : option mirror_error * S :=
  if negb (is_subscription_event (ev_Type evt)) then (None, s)
  else match parseSubscription r evt with
  | Err e => (Some e, s)
  | Ok sub =>
      match sr_Upsert (event_row now1 now2 evt sub) s with
      | (Some e, s') => (Some (MUpsert e), s')
      | (None, s') => (None, s')
      end
  end.

(** ** Reconciliation (reconcile.go) *)
Record ReconciledSubscription := mkReconciled {
  rs_StripeID : string;
  rs_StripeCustomerID : string;
  rs_Status : string;
  rs_CancelAtPeriodEnd : bool;
  rs_CanceledAt : option Z;
  rs_EndedAt : option Z;
  rs_TrialStart : option Z;
  rs_TrialEnd : option Z;
  rs_Metadata : smap;
  rs_Items : list SubscriptionItem;
  rs_CurrentPeriodStart : Z;
  rs_CurrentPeriodEnd : Z;
  rs_UpdatedUnix : Z;
}.
Record ReconcileStats := mkStats { st_Listed : Z; st_Upserted : Z }.

Definition reconciled_row (now : Z) (rs : ReconciledSubscription) : Subscription :=
  mkSub (rs_StripeID rs) (mget (rs_Metadata rs) "subject_id") (rs_StripeCustomerID rs) (rs_Status rs)
    (rs_Items rs) (rs_CurrentPeriodStart rs) (rs_CurrentPeriodEnd rs) (rs_CancelAtPeriodEnd rs)
    (rs_CanceledAt rs) (rs_EndedAt rs) (rs_TrialStart rs) (rs_TrialEnd rs) (rs_Metadata rs) now
    (time_Unix (rs_UpdatedUnix rs)) None.

Fixpoint upsert_loop (now : nat -> Z) (k : nat) (subs : list ReconciledSubscription) (n : Z) (s : S)
  : Z * S :=
  match subs with
  | [] => (n, s)
  | rs :: rest =>
      match sr_Upsert (reconciled_row (now k) rs) s with
      | (Some _, s') => upsert_loop now (Datatypes.S k) rest n s'
      | (None, s') => upsert_loop now (Datatypes.S k) rest (n + 1) s'
      end
  end.
Definition upsertReconciled (now : nat -> Z) (subs : list ReconciledSubscription) (s : S)
  : ReconcileStats * S :=
  let '(n, s') := upsert_loop now 0 subs 0 s in
  (mkStats (Z.of_nat (List.length subs)) n, s').

Inductive reconcile_error := ErrSubjectReconcileUnsupported | ReconcileList (msg : string).

(** [backend.ListSince(since)] is stripe-go behind an interface. *)
Definition ReconcileFromStripe (ListSince : Z -> res string (list ReconciledSubscription))
    (now : nat -> Z) (since : Z) (s : S) : res reconcile_error ReconcileStats * S :=
  match ListSince since with
  | Err e => (Err (ReconcileList e), s)
  | Ok subs => let '(stats, s') := upsertReconciled now subs s in (Ok stats, s')
  end.
(** [lister] is the optional capability [CustomerSubscriptionLister]. *)
Definition ReconcileSubject (lister : option (string -> res string (list ReconciledSubscription)))
    (now : nat -> Z) (stripeCustomerID : string) (s : S) : res reconcile_error ReconcileStats * S :=
  if String.eqb stripeCustomerID "" then (Ok (mkStats 0 0), s)
  else match lister with
  | None => (Err ErrSubjectReconcileUnsupported, s)
  | Some list_by =>
      match list_by stripeCustomerID with
      | Err e => (Err (ReconcileList e), s)
      | Ok subs => let '(stats, s') := upsertReconciled now subs s in (Ok stats, s')
      end
  end.

(** ** Hot-path queries (hot_path.go) *)
Definition ListActive (subject : string) (s : S) : res string (list Subscription) :=
  match sr_ListBySubject subject s with
  | Err e => Err e
  | Ok subs => Ok (List.filter (fun s => IsAccessGranting (sub_Status s)) subs)
  end.

(** [strings.HasSuffix(pat, "*")], with what precedes the star. *)
Fixpoint strip_star (pat : string) : option string :=
  match pat with
  | EmptyString => None
  | String c EmptyString => if Ascii.eqb c "*" then Some "" else None
  | String c rest => match strip_star rest with Some p => Some (String c p) | None => None end
  end.
Definition newPriceKeyMatcher (pat : string) : string -> bool :=
  match strip_star pat with
  | Some prefix => fun k => has_prefix prefix k
  | None => fun k => String.eqb k pat
  end.

Definition has_match (pat : string) (s : Subscription) : bool :=
  existsb (fun item => newPriceKeyMatcher pat (si_PriceKey item)) (sub_Items s).
Definition HasActivePrice (subject pat : string) (s : S) : res string bool :=
  match ListActive subject s with
  | Err e => Err e
  | Ok subs => Ok (existsb (has_match pat) subs)
  end.
Definition ListByPriceKey (subject pat : string) (s : S) : res string (list Subscription) :=
  match ListActive subject s with
  | Err e => Err e
  | Ok subs => Ok (List.filter (has_match pat) subs)
  end.
End mirror.
