(* ===== verification/SubscriptionFacts.v ===== *)
(** * SubscriptionFacts: what the mirror promises, proved against the interface.

    [MirrorLaws] is what the mirror relies on of a repository: it keeps one row per
    subscription and replaces it only by one that is not older. The in-memory
    repository satisfies it here and the Postgres one in SubscriptionsPostgres.v;
    the theorems hold for both. *)
From S2P Require Import Prelude Json Events CatalogSpec Subscriptions.

(** Watermarks are whole seconds. *)
Definition whole (t : Z) : Prop := exists u, t = time_Unix u.

(** A row but for the time it was written. *)
Definition strip (x : Subscription) : Subscription := set_times x 0 (sub_StripeUpdatedAt x).

Class MirrorLaws (S : Type) `{SubscriptionRepo S} := {
  (** the rows readers see, but for the times they were written *)
  rows : S -> gmap string Subscription;
  (** what readers will see of a row that is written *)
  content : Subscription -> Subscription;
  (** whether a row may replace a stored one, by their watermarks *)
  newer : Z -> Z -> bool;
  newer_lt a b : a < b -> newer a b = true;
  newer_le a b : newer a b = true -> a <= b;
  content_mark x : whole (sub_StripeUpdatedAt x) ->
    sub_StripeUpdatedAt (content x) = sub_StripeUpdatedAt x;
  content_status x : sub_Status (content x) = sub_Status x;
  rows_upsert x s s' : sr_Upsert x s = (None, s') -> whole (sub_StripeUpdatedAt x) -> forall id,
    rows s' !! id =
      if decide (id = sub_StripeID x) then
        match rows s !! id with
        | Some old =>
            if newer (sub_StripeUpdatedAt old) (sub_StripeUpdatedAt x) then Some (content x) else Some old
        | None => Some (content x)
        end
      else rows s !! id;
  rows_list subject s l : sr_ListBySubject subject s = Ok l ->
    map strip l ≡ₚ List.filter (fun x => String.eqb (sub_SubjectID x) subject) (map snd (map_to_list (rows s)));
}.

Section memory.
Context `{GoRuntime}.
Import MemSubs.
#[export, refine] Instance memory_MirrorLaws : MirrorLaws memoryRepo := {|
  rows r := strip <$> r;
  content x := strip x;
  newer a b := a <=? b;
|}.
Proof.
  - intros a b. rewrite Z.leb_le. lia.
  - intros a b. by rewrite Z.leb_le.
  - done.
  - done.
  - intros x s s' Hu _ id. cbn in *. rewrite !lookup_fmap. unfold mem_Upsert in Hu.
    destruct (decide (id = sub_StripeID x)) as [->|Hid].
    + destruct (s !! sub_StripeID x) as [old|] eqn:E; cbn.
      * destruct (Z.ltb_spec (sub_StripeUpdatedAt x) (sub_StripeUpdatedAt old)); injection Hu as <-.
        -- rewrite E. cbn. by rewrite (proj2 (Z.leb_gt _ _)).
        -- rewrite lookup_insert_eq. cbn. by rewrite (proj2 (Z.leb_le _ _)).
      * injection Hu as <-. by rewrite lookup_insert_eq.
    + assert (E : s' !! id = s !! id); [|by rewrite E].
      destruct (s !! sub_StripeID x); [destruct (_ <? _)|]; injection Hu as <-;
        rewrite ?lookup_insert_ne by done; done.
  - intros subject s l [= <-]. cbn. rewrite map_range_perm, map_to_list_fmap. generalize (map_to_list s).
    intros m. induction m as [|[k v] m IH]; cbn; [done|]. destruct (String.eqb _ _); cbn; by rewrite IH.
Defined.
End memory.

Section mirror.
Context {S : Type} `{MirrorLaws S}.
Implicit Types (s : S).

(** ** Deliveries *)
Record delivery := mkDelivery { dl_now1 : Z; dl_now2 : Z; dl_resolver : resolver; dl_event : Event }.

(** The row a delivery asks for, if any. *)
Definition wants (d : delivery) : option Subscription :=
  if is_subscription_event (ev_Type (dl_event d)) then
    match parseSubscription (dl_resolver d) (dl_event d) with
    | Ok sub => Some (event_row (dl_now1 d) (dl_now2 d) (dl_event d) sub)
    | Err _ => None
    end
  else None.

Definition deliver (d : delivery) s : S :=
  snd (ApplyEventToMirror (dl_now1 d) (dl_now2 d) (dl_resolver d) (dl_event d) s).
Definition deliver_all (ds : list delivery) s : S := foldl (fun s d => deliver d s) s ds.

Definition never_fails : Prop := forall x s, fst (sr_Upsert x s) = None.

Lemma wants_mark d row : wants d = Some row -> sub_StripeUpdatedAt row = time_Unix (ev_CreatedUnix (dl_event d)).
Proof. unfold wants. repeat case_match; try done. by intros [= <-]. Qed.

Lemma wants_whole d row : wants d = Some row -> whole (sub_StripeUpdatedAt row).
Proof. intros Hw. eexists. by eapply wants_mark. Qed.

Lemma deliver_wants d s :
  match wants d with
  | None => deliver d s = s
  | Some row => never_fails -> sr_Upsert row s = (None, deliver d s)
  end.
Proof.
  unfold wants, deliver, ApplyEventToMirror. destruct (is_subscription_event _); cbn; [|done].
  destruct (parseSubscription _ _) as [sub|e]; [|done]. intros Hn. specialize (Hn (event_row (dl_now1 d) (dl_now2 d) (dl_event d) sub) s).
  destruct (sr_Upsert _ s) as [[e|] s']; [done|]. done.
Qed.

Abbreviation kept s id := (rows s !! id).

(** What the row of [id] is after [ds], starting without one. *)
Definition latest (ds : list delivery) (id : string) (r : option Subscription) : Prop :=
  match r with
  | None => forall d row, d ∈ ds -> wants d = Some row -> sub_StripeID row <> id
  | Some c => exists d row, d ∈ ds /\ wants d = Some row /\ sub_StripeID row = id /\ c = content row /\
      forall d' row', d' ∈ ds -> wants d' = Some row' -> sub_StripeID row' = id ->
        sub_StripeUpdatedAt row' <= sub_StripeUpdatedAt row
  end.

Lemma latest_snoc ds d id r :
  latest ds id r ->
  match wants d with
  | None => latest (ds ++ [d]) id r
  | Some row =>
      if decide (id = sub_StripeID row) then
        match r with
        | Some old =>
            latest (ds ++ [d]) id
              (if newer (sub_StripeUpdatedAt old) (sub_StripeUpdatedAt row) then Some (content row) else Some old)
        | None => latest (ds ++ [d]) id (Some (content row))
        end
      else latest (ds ++ [d]) id r
  end.
Proof.
  intros HL.
  assert (Hsnoc : forall d' row', d' ∈ ds ++ [d] -> wants d' = Some row' -> sub_StripeID row' = id ->
    (d' ∈ ds /\ wants d' = Some row' /\ sub_StripeID row' = id) \/
    (wants d = Some row' /\ sub_StripeID row' = id)).
  { intros d' row' Hin Hw Hid. apply elem_of_app in Hin as [?|Hin]; [by left|].
    apply list_elem_of_singleton in Hin as ->. by right. }
  assert (Hskip : (forall row', wants d = Some row' -> sub_StripeID row' <> id) -> latest (ds ++ [d]) id r).
  { intros Hd. destruct r as [c|]; cbn in HL |- *.
    - destruct HL as (d0 & row0 & Hin & Hw & Hid & -> & Hmax). exists d0, row0.
      split; [apply elem_of_app; by left|]. do 3 (split; [done|]). intros d' row' Hin' Hw' Hid'.
      destruct (Hsnoc d' row' Hin' Hw' Hid') as [(? & ? & ?)|[Hdw ?]]; [eauto|]. by destruct (Hd row').
    - intros d' row' Hin' Hw' Hid'.
      destruct (Hsnoc d' row' Hin' Hw' Hid') as [(? & ? & ?)|[Hdw ?]]; [by eapply HL|]. by destruct (Hd row'). }
  destruct (wants d) as [row|] eqn:Ew; [|by apply Hskip].
  destruct (decide (id = sub_StripeID row)) as [->|Hid].
  2: { apply Hskip. intros row' [= <-] E. by apply Hid. }
  assert (Hwin : (forall d' row', d' ∈ ds -> wants d' = Some row' -> sub_StripeID row' = sub_StripeID row ->
      sub_StripeUpdatedAt row' <= sub_StripeUpdatedAt row) ->
    latest (ds ++ [d]) (sub_StripeID row) (Some (content row))).
  { intros Hmax. exists d, row. split; [apply elem_of_app; right; by left|]. do 3 (split; [done|]).
    intros d' row' Hin' Hw' Hid'. destruct (Hsnoc d' row' Hin' Hw' Hid') as [(? & ? & ?)|[[= <-] _]]; [eauto|lia]. }
  destruct r as [old|].
  2: { apply Hwin. intros d' row' Hin' Hw' Hid'. by destruct (HL d' row'). }
  destruct HL as (d0 & row0 & Hin & Hw & Hid & -> & Hmax).
  rewrite content_mark by (by eapply wants_whole).
  destruct (newer _ _) eqn:En.
  - apply Hwin. intros d' row' Hin' Hw' Hid'. apply newer_le in En. specialize (Hmax d' row' Hin' Hw' Hid'). lia.
  - exists d0, row0. split; [apply elem_of_app; by left|]. do 3 (split; [done|]). intros d' row' Hin' Hw' Hid'.
    destruct (Hsnoc d' row' Hin' Hw' Hid') as [(? & ? & ?)|[[= <-] _]]; [eauto|].
    destruct (Z.lt_ge_cases (sub_StripeUpdatedAt row0) (sub_StripeUpdatedAt row)) as [Hlt|]; [|done].
    by rewrite (newer_lt _ _ Hlt) in En.
Qed.

Lemma deliver_all_latest ds s id :
  never_fails -> rows s = ∅ -> latest ds id (kept (deliver_all ds s) id).
Proof.
  intros Hn Hs. induction ds as [|d ds IH] using rev_ind.
  - cbn. rewrite Hs, lookup_empty. intros d row Hin. by apply not_elem_of_nil in Hin.
  - unfold deliver_all in *. rewrite foldl_app. cbn. set (s1 := foldl _ s ds) in *.
    pose proof (latest_snoc ds d id _ IH) as L. pose proof (deliver_wants d s1) as D.
    destruct (wants d) as [row|] eqn:Ew; [|by rewrite D].
    rewrite (rows_upsert _ _ _ (D Hn) (wants_whole _ _ Ew) id).
    destruct (decide (id = sub_StripeID row)); [|done]. by destruct (kept s1 id).
Qed.

(** C5: the mirror holds the newest state it was told. After any deliveries, in any
    order and with any repetitions, the row of a subscription is the one asked for by
    one of its events, and no delivered event of the subscription is newer; a
    subscription without a row had no event. *)
Theorem mirror_latest ds s id :
  never_fails -> rows s = ∅ -> latest ds id (kept (deliver_all ds s) id).
Proof. apply deliver_all_latest. Qed.

(** The mirror does not depend on the order of delivery. Two orders of the same
    deliveries leave the same rows, as long as events of one subscription that carry
    the same second ask for the same row. *)
Theorem mirror_converges ds ds' s s' id :
  never_fails -> rows s = ∅ -> rows s' = ∅ -> ds ≡ₚ ds' ->
  (forall d1 d2 r1 r2, d1 ∈ ds -> d2 ∈ ds -> wants d1 = Some r1 -> wants d2 = Some r2 ->
     sub_StripeID r1 = sub_StripeID r2 -> sub_StripeUpdatedAt r1 = sub_StripeUpdatedAt r2 ->
     content r1 = content r2) ->
  kept (deliver_all ds s) id = kept (deliver_all ds' s') id.
Proof.
  intros Hn Hs Hs' Hp Huniq.
  pose proof (deliver_all_latest ds s id Hn Hs) as L. pose proof (deliver_all_latest ds' s' id Hn Hs') as L'.
  destruct (kept (deliver_all ds s) id) as [c|], (kept (deliver_all ds' s') id) as [c'|]; [|..|done].
  - destruct L as (d & r & Hin & Hw & Hid & -> & Hmax). destruct L' as (d' & r' & Hin' & Hw' & Hid' & -> & Hmax').
    rewrite <- Hp in Hin'. f_equal. apply (Huniq d d'); try done; [congruence|].
    apply Z.le_antisymm; [|by eauto]. apply (Hmax' d); [by rewrite <- Hp|done|done].
  - destruct L as (d & r & Hin & Hw & Hid & -> & _). exfalso. apply (L' d r); [by rewrite <- Hp|done|done].
  - destruct L' as (d & r & Hin & Hw & Hid & -> & _). exfalso. apply (L d r); [by rewrite Hp|done|done].
Qed.

(** ** Cancellation *)

(** A deletion takes access away. After the event that deletes a subscription, if
    it is newer than what the mirror has, the row is canceled with an end time, grants
    no access, and every other row is as before. *)
Theorem deleted_revokes_access d sub s :
  never_fails -> ev_Type (dl_event d) = "customer.subscription.deleted" ->
  parseSubscription (dl_resolver d) (dl_event d) = Ok sub ->
  (forall old, kept s (sub_StripeID sub) = Some old ->
     sub_StripeUpdatedAt old < time_Unix (ev_CreatedUnix (dl_event d))) ->
  exists row ended, kept (deliver d s) (sub_StripeID sub) = Some (content row) /\
    sub_Status (content row) = StatusCanceled /\
    IsAccessGranting (sub_Status (content row)) = false /\
    sub_EndedAt row = Some ended /\ (sub_EndedAt sub = None \/ sub_EndedAt sub = Some ended) /\
    forall id, id <> sub_StripeID sub -> kept (deliver d s) id = kept s id.
Proof.
  intros Hn Ht Hp Hold. pose proof (deliver_wants d s) as D.
  assert (Ew : wants d = Some (event_row (dl_now1 d) (dl_now2 d) (dl_event d) sub)).
  { unfold wants. by rewrite Ht, Hp. }
  rewrite Ew in D. pose proof (rows_upsert _ _ _ (D Hn) (wants_whole _ _ Ew)) as R.
  set (row := event_row _ _ _ sub) in *.
  assert (Erow : row = set_times (set_status sub StatusCanceled
    (match sub_EndedAt sub with None => Some (dl_now1 d) | Some t => Some t end)) (dl_now2 d)
    (time_Unix (ev_CreatedUnix (dl_event d)))) by (unfold row, event_row; by rewrite Ht).
  exists row, (default (dl_now1 d) (sub_EndedAt sub)). split_and!.
  - rewrite R, decide_True by (by rewrite Erow).
    destruct (kept s (sub_StripeID sub)) as [old|] eqn:Eo; [|done].
    rewrite newer_lt; [done|]. rewrite Erow. by apply Hold.
  - by rewrite content_status, Erow.
  - rewrite content_status, Erow. done.
  - rewrite Erow. cbn. by destruct (sub_EndedAt sub).
  - destruct (sub_EndedAt sub); auto.
  - intros id Hid. rewrite R, decide_False by (by rewrite Erow). done.
Qed.

(** ** Queries *)

(** [pat] matches [key]: a trailing star stands for any rest. *)
Definition matches (pat key : string) : Prop :=
  (exists p rest, pat = p ^^ "*" /\ key = p ^^ rest) \/ (key = pat /\ forall p, pat <> p ^^ "*").

Lemma strip_star_spec pat :
  match strip_star pat with
  | Some p => pat = p ^^ "*"
  | None => forall p, pat <> p ^^ "*"
  end.
Proof.
  induction pat as [|c pat IH]; cbn; [intros []; done|].
  destruct pat as [|c' pat].
  - destruct (Ascii.eqb_spec c "*") as [->|Hc]; [done|]. intros [|c' []]; cbn; congruence.
  - destruct (strip_star (String c' pat)) as [p|]; [cbn; congruence|].
    intros [|c2 p]; cbn; [congruence|]. intros [= -> E]. by apply (IH p).
Qed.

Lemma matcher_spec pat key : newPriceKeyMatcher pat key = true <-> matches pat key.
Proof.
  unfold newPriceKeyMatcher, matches. pose proof (strip_star_spec pat) as Sp.
  destruct (strip_star pat) as [p|].
  - unfold has_prefix. split.
    + intros Hp. left. exists p, (string_drop (String.length p) key). split; [done|]. by apply prefix_spec.
    + intros [(p' & rest & E & ->)|[_ Hno]]; [|by destruct (Hno p)]. rewrite Sp in E.
      assert (p = p') as ->; [|apply prefix_append].
      clear -E. revert p' E. induction p as [|c p IH]; intros [|c' p']; cbn; [done|..].
      * intros [= <- E]. by destruct p'.
      * intros [= -> E]. by destruct p.
      * intros [= -> E]. f_equal. by apply IH.
  - rewrite String.eqb_eq. split; [intros ->; by right|]. intros [(p & rest & -> & _)|[-> _]]; [|done].
    by destruct (Sp p).
Qed.

Lemma has_match_spec pat x :
  has_match pat x = true <-> exists item, item ∈ sub_Items x /\ matches pat (si_PriceKey item).
Proof.
  unfold has_match. rewrite existsb_exists. setoid_rewrite list_elem_of_In.
  f_equiv. intros item. by rewrite matcher_spec.
Qed.

Lemma listed_active subject s l x :
  ListActive subject s = Ok l ->
  x ∈ map strip l <-> (exists id, rows s !! id = Some x) /\ sub_SubjectID x = subject /\
                      IsAccessGranting (sub_Status x) = true.
Proof.
  unfold ListActive. destruct (sr_ListBySubject subject s) as [subs|e] eqn:E; [|done]. intros [= <-].
  replace (map strip _) with (List.filter (fun y => IsAccessGranting (sub_Status y)) (map strip subs)).
  2: { clear. induction subs as [|y subs IH]; cbn; [done|]. destruct (IsAccessGranting _); cbn; by rewrite IH. }
  rewrite list_elem_of_In, filter_In, <- list_elem_of_In, (rows_list _ _ _ E).
  rewrite list_elem_of_In, filter_In, <- list_elem_of_In, String.eqb_eq, elem_of_map.
  split.
  - intros [[([id y] & -> & Hy) Hs] Ha]. split; [|done]. exists id. by apply elem_of_map_to_list in Hy.
  - intros ((id & Hid) & Hs & Ha). split; [|done]. split; [|done]. exists (id, x). split; [done|].
    by apply elem_of_map_to_list.
Qed.

(** The hot-path query answers from the mirror. When the repository can be read,
    a subject holds a price pattern exactly when one of its rows has a status that
    grants access and an item whose key matches the pattern, exactly or up to a
    trailing star. *)
Theorem HasActivePrice_correct subject pat s subs :
  sr_ListBySubject subject s = Ok subs ->
  exists b, HasActivePrice subject pat s = Ok b /\
    (b = true <-> exists id row item, rows s !! id = Some row /\ sub_SubjectID row = subject /\
       IsAccessGranting (sub_Status row) = true /\ item ∈ sub_Items row /\
       matches pat (si_PriceKey item)).
Proof.
  intros E. assert (exists l, ListActive subject s = Ok l) as [l El]
    by (unfold ListActive; rewrite E; eauto).
  unfold HasActivePrice. rewrite El. eexists. split; [done|].
  replace (existsb (has_match pat) l) with (existsb (has_match pat) (map strip l))
    by (clear; induction l as [|y l IH]; cbn; [done|by rewrite IH]).
  rewrite existsb_exists.
  setoid_rewrite <- list_elem_of_In. setoid_rewrite (fun x => listed_active subject s l x El).
  setoid_rewrite has_match_spec. split.
  - intros (x & ((id & Hid) & Hs & Ha) & item & Hi & Hm). by exists id, x, item.
  - intros (id & x & item & Hid & Hs & Ha & Hi & Hm). exists x. split; [eauto|]. by exists item.
Qed.

(** ** Reconciliation *)
Lemma upsert_loop_count now subs k n s :
  never_fails -> fst (upsert_loop now k subs n s) = n + Z.of_nat (List.length subs).
Proof.
  intros Hn. revert k n s. induction subs as [|rs subs IH]; intros k n s; cbn; [lia|].
  pose proof (Hn (reconciled_row (now k) rs) s) as Hu.
  destruct (sr_Upsert _ s) as [e s']. cbn in Hu. subst e. rewrite IH. lia.
Qed.

(** One step of the loop on the row of [id]. *)
Lemma upsert_loop_row now subs k n s id :
  never_fails ->
  (forall rs, rs ∈ subs -> rs_StripeID rs = id -> forall old, kept s id = Some old ->
     newer (sub_StripeUpdatedAt old) (time_Unix (rs_UpdatedUnix rs)) = false) ->
  is_Some (kept s id) \/ (forall rs, rs ∈ subs -> rs_StripeID rs <> id) ->
  kept (snd (upsert_loop now k subs n s)) id = kept s id.
Proof.
  intros Hn. revert k n s. induction subs as [|rs subs IH]; intros k n s Hold Hsome; [done|]. cbn.
  pose proof (Hn (reconciled_row (now k) rs) s) as Hu.
  destruct (sr_Upsert _ s) as [e s'] eqn:E. cbn in Hu. subst e.
  assert (K : kept s' id = kept s id).
  { rewrite (rows_upsert _ _ _ E ltac:(by eexists)). cbn.
    destruct (decide (id = rs_StripeID rs)) as [->|]; [|done].
    destruct Hsome as [[old Eo]|Hno]; [|by destruct (Hno rs); [left|]].
    rewrite Eo, (Hold rs); [done|by left|done|done]. }
  rewrite IH; [done| |].
  - intros rs' Hin Hid old. rewrite K. apply Hold; [by right|done].
  - rewrite K. destruct Hsome as [?|Hno]; [by left|]. right. intros rs' Hin. apply Hno. by right.
Qed.

Lemma upsert_loop_covers now subs k n s id :
  never_fails -> is_Some (kept s id) \/ (exists rs, rs ∈ subs /\ rs_StripeID rs = id) ->
  is_Some (kept (snd (upsert_loop now k subs n s)) id).
Proof.
  intros Hn. revert k n s. induction subs as [|rs subs IH]; intros k n s Hc; cbn.
  - destruct Hc as [?|(rs & Hin & _)]; [done|]. by apply not_elem_of_nil in Hin.
  - pose proof (Hn (reconciled_row (now k) rs) s) as Hu.
    destruct (sr_Upsert _ s) as [e s'] eqn:E. cbn in Hu. subst e. apply IH.
    rewrite (rows_upsert _ _ _ E ltac:(by eexists)). cbn.
    destruct (decide (id = rs_StripeID rs)) as [->|Hid].
    + left. destruct (kept s (rs_StripeID rs)); [destruct (newer _ _)|]; by eexists.
    + destruct Hc as [?|(rs' & Hin & Hid')]; [by left|]. right. exists rs'.
      apply elem_of_cons in Hin as [->|?]; [by destruct Hid|done].
Qed.

(** Reconciliation adds and never sets back. After a reconcile every listed
    subscription has a row; a row is untouched when the listing has nothing newer for
    it, so that a row with a later watermark survives; and the statistics count every
    listed subscription as upserted, the skipped ones included. *)
Theorem reconcile_correct now subs s stats s' :
  never_fails -> upsertReconciled now subs s = (stats, s') ->
  st_Listed stats = Z.of_nat (List.length subs) /\ st_Upserted stats = st_Listed stats /\
  (forall rs, rs ∈ subs -> is_Some (kept s' (rs_StripeID rs))) /\
  (forall id old, kept s id = Some old ->
     (forall rs, rs ∈ subs -> rs_StripeID rs = id ->
        newer (sub_StripeUpdatedAt old) (time_Unix (rs_UpdatedUnix rs)) = false) ->
     kept s' id = Some old) /\
  (forall id, (forall rs, rs ∈ subs -> rs_StripeID rs <> id) -> kept s' id = kept s id).
Proof.
  intros Hn. unfold upsertReconciled.
  pose proof (upsert_loop_count now subs 0 0 s Hn) as Hc.
  pose proof (fun id => upsert_loop_row now subs 0 0 s id Hn) as Hr.
  pose proof (fun id => upsert_loop_covers now subs 0 0 s id Hn) as Hv.
  destruct (upsert_loop now 0 subs 0 s) as [n s1]. intros [= <- <-]. cbn in *. split_and!; [done|lia|..].
  - intros rs Hin. apply Hv. eauto.
  - intros id old Eo Hold. rewrite Hr; [done| |left; by eexists].
    intros rs Hin Hid o' Eo'. rewrite Eo in Eo'. injection Eo' as <-. eauto.
  - intros id Hno. apply Hr; [|by right]. intros rs Hin Hid. by destruct (Hno rs).
Qed.
End mirror.
