(* ===== verification/SubscriptionsPostgres.v ===== *)
(** * SubscriptionsPostgres: the Postgres subscription repository
      (src/repos/postgres/subscription_repo.go).

    The table is a map from primary key to row; one statement is one atomic step. A
    row holds its columns: nullable timestamps as options, and the two JSON columns as
    the documents [json.Marshal] wrote. The server's clock and whether it answers are
    part of its state. A [timestamptz] has microseconds. *)
From S2P Require Import Prelude Postgres Json Events CatalogSpec Subscriptions SubscriptionFacts.

Record SubRow := mkSubRow {
  c_stripe_id : string;
  c_subject_id : string;
  c_stripe_customer_id : string;
  c_status : string;
  c_current_period_start : option Z;
  c_current_period_end : option Z;
  c_cancel_at_period_end : bool;
  c_canceled_at : option Z;
  c_ended_at : option Z;
  c_trial_start : option Z;
  c_trial_end : option Z;
  c_metadata : string;
  c_items : string;
  c_updated_at : Z;
  c_stripe_updated_at : Z;
}.

Record SubDB := mkSubDB { subscriptions_table : gmap string SubRow; db_now : Z; db_error : option string }.

Section postgres.
Context `{GoRuntime} `{PgTime}.

Definition nullTime (t : Z) : option Z := if IsZero t then None else Some (pg_ts t).
Definition nullTimePtr (t : option Z) : option Z :=
  match t with None => None | Some t => nullTime t end.

Definition enc_item (it : SubscriptionItem) : json :=
  JObj [("StripeID", JStr (si_StripeID it)); ("PriceKey", JStr (si_PriceKey it));
        ("Quantity", JNum (fmt_d (si_Quantity it)))].
Definition dec_item : decoder SubscriptionItem :=
  dec_struct (fun x l =>
    match dec_field "StripeID" dec_string (si_StripeID x) l,
          dec_field "PriceKey" dec_string (si_PriceKey x) l,
          dec_field "Quantity" dec_int64 (si_Quantity x) l with
    | Some i, Some k, Some q => Some (mkSubItem i k q)
    | _, _, _ => None
    end).

(** The values of the [INSERT]. *)
Definition insert_row (now : Z) (s : Subscription) : SubRow :=
  mkSubRow (sub_StripeID s) (sub_SubjectID s) (sub_StripeCustomerID s) (sub_Status s)
    (nullTime (sub_CurrentPeriodStart s)) (nullTime (sub_CurrentPeriodEnd s)) (sub_CancelAtPeriodEnd s)
    (nullTimePtr (sub_CanceledAt s)) (nullTimePtr (sub_EndedAt s)) (nullTimePtr (sub_TrialStart s))
    (nullTimePtr (sub_TrialEnd s))
    (render (enc_smap (map_range (sub_Metadata s)))) (render (JArr (map enc_item (sub_Items s))))
    now (pg_ts (sub_StripeUpdatedAt s)).

Definition pg_Upsert (s : Subscription) (db : SubDB) : option string * SubDB :=
  match db_error db with
  | Some e => (Some e, db)
  | None =>
      let row := insert_row (db_now db) s in
      let write := mkSubDB (<[sub_StripeID s := row]> (subscriptions_table db)) (db_now db) (db_error db) in
      match subscriptions_table db !! sub_StripeID s with
      | None => (None, write)
      | Some stored =>
          if c_stripe_updated_at stored <? c_stripe_updated_at row then (None, write) else (None, db)
      end
  end.

(** A malformed JSON column is logged and read as nothing. *)
Definition scanSubscription (r : SubRow) : Subscription :=
  mkSub (c_stripe_id r) (c_subject_id r) (c_stripe_customer_id r) (c_status r)
    (default [] (Unmarshal [] (dec_slice (mkSubItem "" "" 0) dec_item) (c_items r)))
    (default time_zero (c_current_period_start r)) (default time_zero (c_current_period_end r))
    (c_cancel_at_period_end r) (c_canceled_at r) (c_ended_at r) (c_trial_start r) (c_trial_end r)
    (default ∅ (Unmarshal ∅ dec_smap (c_metadata r))) (c_updated_at r) (c_stripe_updated_at r) None.

Definition pg_GetByStripeID (stripeSubID : string) (db : SubDB) : res string (option Subscription) :=
  match db_error db with
  | Some e => Err e
  | None => Ok (scanSubscription <$> subscriptions_table db !! stripeSubID)
  end.

(** [ORDER BY updated_at DESC]. *)
Definition updated_desc (a b : SubRow) : bool := c_updated_at b <? c_updated_at a.
Definition pg_ListBySubject (subject : string) (db : SubDB) : res string (list Subscription) :=
  match db_error db with
  | Some e => Err e
  | None =>
      Ok (map scanSubscription (sort_slice updated_desc
            (List.filter (fun r => String.eqb (c_subject_id r) subject)
               (map snd (map_range (subscriptions_table db))))))
  end.

#[export] Instance postgres_SubscriptionRepo : SubscriptionRepo SubDB := {
  sr_Upsert := pg_Upsert;
  sr_GetByStripeID := pg_GetByStripeID;
  sr_ListBySubject := pg_ListBySubject;
}.

(** ** The mirror's laws *)
Lemma whole_micro t : whole t -> pg_ts t = t.
Proof.
  intros [u ->]. apply pg_ts_micro. unfold time_Unix, second.
  replace (u * 1000000000) with (u * 1000000 * 1000) by lia. apply Z_mod_mult.
Qed.

#[export, refine] Instance postgres_MirrorLaws : MirrorLaws SubDB := {|
  rows db := (fun r => strip (scanSubscription r)) <$> subscriptions_table db;
  content x := strip (scanSubscription (insert_row 0 x));
  newer a b := a <? b;
|}.
Proof.
  - intros a b. by rewrite Z.ltb_lt.
  - intros a b. rewrite Z.ltb_lt. lia.
  - intros x Hx. cbn. by apply whole_micro.
  - done.
  - intros x s s' Hu Hw id. cbn in *. rewrite !lookup_fmap. unfold pg_Upsert in Hu.
    destruct (db_error s); [done|]. destruct (decide (id = sub_StripeID x)) as [->|Hid].
    + destruct (subscriptions_table s !! sub_StripeID x) as [old|] eqn:E; cbn in *.
      * rewrite (whole_micro (sub_StripeUpdatedAt x)) in Hu by done.
        destruct (c_stripe_updated_at old <? sub_StripeUpdatedAt x); injection Hu as <-; cbn.
        -- by rewrite lookup_insert_eq.
        -- by rewrite E.
      * injection Hu as <-. cbn. by rewrite lookup_insert_eq.
    + assert (E : subscriptions_table s' !! id = subscriptions_table s !! id); [|by rewrite E].
      destruct (subscriptions_table s !! sub_StripeID x); [destruct (_ <? _)|]; injection Hu as <-; cbn;
        rewrite ?lookup_insert_ne by done; done.
  - intros subject s l Hl. cbn in *. unfold pg_ListBySubject in Hl. destruct (db_error s); [done|].
    injection Hl as <-. rewrite sort_slice_perm, map_range_perm, map_to_list_fmap.
    generalize (map_to_list (subscriptions_table s)).
    intros m. induction m as [|[k v] m IH]; cbn; [done|]. destruct (String.eqb _ _); cbn; by rewrite IH.
Defined.

(** ** Round trip *)

(** A time the columns hold exactly. *)
Definition ts_exact (t : Z) : Prop := t mod 1000 = 0.
Definition ptr_exact (t : option Z) : Prop :=
  match t with Some t => ts_exact t /\ t <> time_zero | None => True end.
Record storable (s : Subscription) : Prop := {
  so_items : Forall (fun it => utf8_ok (si_StripeID it) /\ utf8_ok (si_PriceKey it) /\
                               in_int64 (si_Quantity it)) (sub_Items s);
  so_metadata : map_Forall (fun k v => utf8_ok k /\ utf8_ok v) (sub_Metadata s);
  so_start : ts_exact (sub_CurrentPeriodStart s);
  so_end : ts_exact (sub_CurrentPeriodEnd s);
  so_mark : ts_exact (sub_StripeUpdatedAt s);
  so_canceled : ptr_exact (sub_CanceledAt s);
  so_ended : ptr_exact (sub_EndedAt s);
  so_trial_start : ptr_exact (sub_TrialStart s);
  so_trial_end : ptr_exact (sub_TrialEnd s);
}.

Lemma nullTime_back t : ts_exact t -> default time_zero (nullTime t) = t.
Proof.
  intros Ht. unfold nullTime. destruct (Z.eqb_spec t time_zero) as [->|Hz].
  - done.
  - unfold IsZero. rewrite (proj2 (Z.eqb_neq _ _) Hz). by apply pg_ts_micro.
Qed.
Lemma nullTimePtr_back t : ptr_exact t -> nullTimePtr t = t.
Proof.
  destruct t as [t|]; [|done]. intros [Ht Hz]. cbn. unfold nullTime, IsZero.
  rewrite (proj2 (Z.eqb_neq _ _) Hz). by rewrite pg_ts_micro.
Qed.

Lemma items_back items :
  Forall (fun it => utf8_ok (si_StripeID it) /\ utf8_ok (si_PriceKey it) /\ in_int64 (si_Quantity it)) items ->
  Unmarshal [] (dec_slice (mkSubItem "" "" 0) dec_item) (render (JArr (map enc_item items))) = Some items.
Proof.
  intros Hall. unfold Unmarshal. rewrite parse_render.
  - cbn [dec_slice]. apply dec_elems_map. eapply Forall_impl; [exact Hall|].
    intros [i k q] (_ & _ & Hq). unfold dec_item, enc_item. cbn [dec_struct dec_field si_StripeID si_PriceKey si_Quantity].
    match_names. cbn [dec_string dec_int64]. cbn in Hq. by rewrite parse_fmt_d.
  - apply json_ok_arr, Forall_map. eapply Forall_impl; [exact Hall|]. intros [i k q] (Hi & Hk & _). cbn.
    repeat split; eauto.
Qed.

Lemma metadata_back m :
  map_Forall (fun k v => utf8_ok k /\ utf8_ok v) m ->
  Unmarshal ∅ dec_smap (render (enc_smap (map_range m))) = Some m.
Proof.
  intros Hm. unfold Unmarshal. rewrite parse_render.
  - cbn [enc_smap dec_smap]. rewrite dec_enc_smap by apply map_range_keys.
    by rewrite map_range_map, (right_id_L ∅ (∪)).
  - apply json_ok_smap, Forall_forall. intros [k v] Hin. apply map_range_elem in Hin. by apply Hm.
Qed.

Lemma scan_insert now s :
  storable s ->
  scanSubscription (insert_row now s) =
    mkSub (sub_StripeID s) (sub_SubjectID s) (sub_StripeCustomerID s) (sub_Status s) (sub_Items s)
      (sub_CurrentPeriodStart s) (sub_CurrentPeriodEnd s) (sub_CancelAtPeriodEnd s) (sub_CanceledAt s)
      (sub_EndedAt s) (sub_TrialStart s) (sub_TrialEnd s) (sub_Metadata s) now (sub_StripeUpdatedAt s) None.
Proof.
  intros [Hi Hm H1 H2 H3 H4 H5 H6 H7]. unfold scanSubscription, insert_row.
  cbn -[Unmarshal render nullTime nullTimePtr default].
  rewrite items_back, metadata_back, !nullTime_back, !nullTimePtr_back, pg_ts_micro by done. done.
Qed.

(** Postgres gives back what was written, but for the dunning state. A row whose
    strings are valid UTF-8 and whose times are whole microseconds is read back as it
    was upserted, with the server's time of writing; the latest-invoice state has no
    column and is always lost. *)
Theorem pg_roundtrip s db db' :
  storable s -> subscriptions_table db !! sub_StripeID s = None -> pg_Upsert s db = (None, db') ->
  pg_GetByStripeID (sub_StripeID s) db' = Ok (Some
    (mkSub (sub_StripeID s) (sub_SubjectID s) (sub_StripeCustomerID s) (sub_Status s) (sub_Items s)
      (sub_CurrentPeriodStart s) (sub_CurrentPeriodEnd s) (sub_CancelAtPeriodEnd s) (sub_CanceledAt s)
      (sub_EndedAt s) (sub_TrialStart s) (sub_TrialEnd s) (sub_Metadata s) (db_now db)
      (sub_StripeUpdatedAt s) None)).
Proof.
  intros Hs Hno Hu. unfold pg_Upsert in Hu. destruct (db_error db) eqn:Ed; [done|].
  rewrite Hno in Hu. injection Hu as <-. unfold pg_GetByStripeID. cbn [db_error subscriptions_table].
  rewrite lookup_insert_eq. cbn [fmap option_fmap option_map]. by rewrite scan_insert.
Qed.

(** The two repositories part ways within a second. A row with the watermark of
    the stored one replaces it in memory, as the interface asks, and is dropped by
    Postgres. *)
Theorem same_second_dropped x y db mem :
  sub_StripeID x = sub_StripeID y -> sub_StripeUpdatedAt x = sub_StripeUpdatedAt y ->
  whole (sub_StripeUpdatedAt x) -> db_error db = None ->
  subscriptions_table db !! sub_StripeID x = Some (insert_row (db_now db) x) ->
  mem !! sub_StripeID x = Some x ->
  pg_Upsert y db = (None, db) /\ snd (MemSubs.mem_Upsert y mem) !! sub_StripeID y = Some y.
Proof.
  intros Hid Hw Hx Hdb Hrow Hmem. split.
  - unfold pg_Upsert. rewrite Hdb, <- Hid, Hrow. cbn. by rewrite Hw, Z.ltb_irrefl.
  - unfold MemSubs.mem_Upsert. rewrite <- Hid, Hmem, Hw, Z.ltb_irrefl. cbn. by rewrite lookup_insert_eq.
Qed.
End postgres.
