(* ===== verification/SubscriptionOps.v ===== *)
(** * SubscriptionOps: app-initiated subscription operations
      (src/subscriptions/operations.go, seats.go, schedules.go,
      refund_failed_handler.go).

    An operation checks its input, reads the mirror, the catalog or Stripe, and ends
    in at most one call that changes Stripe, whose result it returns. [outcome] is
    that decision: the error, nothing to do, or the call. The calls themselves are
    stripe-go behind the [Backend] interface. *)
From S2P Require Import Prelude Json Events CatalogSpec CatalogCache Subscriptions.

(** ** Backend data (backend.go, schedules.go) *)
Record CancelNowOptions := mkCancelNow { cn_Prorate : bool; cn_Reason : string }.
Record ItemChange := mkItemChange {
  ic_StripeItemID : string; ic_PriceID : string; ic_Quantity : Z; ic_Deleted : bool }.
Record UpdateOptions := mkUpdateOptions { uo_ProrationBehavior : string }.
Record PauseOptions := mkPause { pa_Behavior : string; pa_ResumesAt : Z }.
Record AddInvoiceItem := mkAddItem {
  ai_StripePriceID : string; ai_InlineAmount : Z; ai_Currency : string; ai_Name : string;
  ai_Quantity : Z }.
Record InvoicedSubscriptionInput := mkInvoicedSub {
  ib_StripeCustomerID : string; ib_StripePriceID : string; ib_Quantity : Z; ib_DueIn : Z;
  ib_AutoFinalize : bool; ib_Metadata : smap; ib_TrialDays : Z; ib_AddInvoiceItems : list AddInvoiceItem }.
Record BackendPhase := mkBackendPhase {
  bp_StripePriceID : string; bp_StripeCouponID : string; bp_Quantity : Z; bp_Iterations : Z }.
Record ScheduleBackendInput := mkScheduleBackend {
  sb_StripeCustomerID : string; sb_Phases : list BackendPhase; sb_EndBehavior : string;
  sb_StartAt : Z; sb_Metadata : smap }.

Inductive backend_call :=
| CallCancelAtPeriodEnd (id : string) (cancel : bool)
| CallCancelNow (id : string) (opts : CancelNowOptions)
| CallUpdateItems (id : string) (items : list ItemChange) (opts : UpdateOptions)
| CallApplyCoupon (id coupon : string)
| CallRemoveCoupon (id : string)
| CallPause (id : string) (opts : PauseOptions)
| CallResume (id : string)
| CallPreview (id : string) (items : list ItemChange)
| CallCreateInvoiced (input : InvoicedSubscriptionInput)
| CallCreateSchedule (input : ScheduleBackendInput).

Inductive sub_error :=
| ErrRequired (field : string)
| ErrInvalid (what : string)
| ErrMigrateNeedsCacheAndSpec
| ErrSubscriptionNotInMirror
| ErrFromPriceNotOnSub (key : string)
| ErrPriceKeyUnresolved (key : string)
| ErrSubscriptionNotForSubject
| ErrSeatPriceNotInSubscription
| ErrPhaseResolve (index : nat) (key : string)
| ErrRepo (msg : string)
| ErrBackend (msg : string)
| ErrEmptyEvent | ErrEventParse | ErrResolver (msg : string).
#[export] Instance sub_error_eq_dec : EqDecision sub_error.
Proof. solve_decision. Defined.

Inductive outcome := Fails (e : sub_error) | Nothing | Calls (c : backend_call).

Record Operations := mkOperations {
  o_spec : option Spec;
  o_cache : option Cache;
  o_namespace : string;
}.
(** [New], once backend and repository are given. *)
Definition New (spec : option Spec) (cache : option Cache) : Operations :=
  mkOperations spec cache (match spec with Some s => Namespace s | None => "" end).

(** ** Helpers *)
Definition namespacedKeyOrSelf (spec : option Spec) (key : string) : string :=
  match spec with
  | None => key
  | Some spec =>
      if String.eqb key "" then key
      else
        let prefix := Namespace spec ^^ "." in
        if has_prefix prefix key then key else prefix ^^ key
  end.
Definition prorationBehavior (prorate : bool) : string := if prorate then "create_prorations" else "none".
Definition itemPriceKeys (items : list SubscriptionItem) : list string := map si_PriceKey items.

(** The loop fills a buffer of ten bytes from its end; running out of it is an index
    out of range. *)
Fixpoint itoa_loop (room : nat) (n : Z) (acc : string) : option string :=
  match room with
  | O => if 0 <? n then None else Some acc
  | Datatypes.S room =>
      if 0 <? n then itoa_loop room (n / 10) (String (ascii_of_N (Z.to_N (48 + n mod 10))) acc)
      else Some acc
  end.
Definition itoa (n : Z) : option string := if n =? 0 then Some "0" else itoa_loop 10 n "".

Definition splitTwoDot (s : string) : string * string * bool :=
  match split_at "." s with
  | Some (a, b) => (a, b, negb (String.eqb a "") && negb (String.eqb b ""))
  | None => ("", "", false)
  end.
Definition Price_zero : Price := mkPrice 0 "" "" "" 0 "" "" [].
Definition lookupSpecPrice (spec : Spec) (key : string) : Price :=
  let '(pk, prk, ok) := splitTwoDot key in
  if negb ok then Price_zero
  else match Products spec !! pk with
       | None => Price_zero
       | Some p => default Price_zero (p_Prices p !! prk)
       end.

(** The first item with the key. *)
Fixpoint find_item (key : string) (items : list SubscriptionItem) : option SubscriptionItem :=
  match items with
  | [] => None
  | it :: rest => if String.eqb (si_PriceKey it) key then Some it else find_item key rest
  end.

Section operations.
Context {S : Type} `{SubscriptionRepo S}.
Implicit Types (o : Operations) (s : S).

(** ** Plain requests *)
Definition with_id (stripeSubID : string) (c : backend_call) : outcome :=
  if String.eqb stripeSubID "" then Fails (ErrRequired "stripeSubID") else Calls c.

Definition CancelAtPeriodEnd (id : string) : outcome := with_id id (CallCancelAtPeriodEnd id true).
Definition UndoCancelAtPeriodEnd (id : string) : outcome := with_id id (CallCancelAtPeriodEnd id false).
Definition CancelNow (id : string) (opts : CancelNowOptions) : outcome := with_id id (CallCancelNow id opts).
Definition CancelNowByStripeID (id : string) : outcome := CancelNow id (mkCancelNow false "gdpr_forget").
Definition Pause (id : string) (opts : PauseOptions) : outcome := with_id id (CallPause id opts).
Definition Resume (id : string) : outcome := with_id id (CallResume id).
Definition RemoveCoupon (id : string) : outcome := with_id id (CallRemoveCoupon id).
Definition ApplyCoupon o (id couponKey : string) : outcome :=
  if String.eqb id "" then Fails (ErrRequired "stripeSubID")
  else if String.eqb couponKey "" then Fails (ErrRequired "couponKey")
  else Calls (CallApplyCoupon id
         (match o_spec o with Some spec => NamespacedCouponID spec couponKey | None => couponKey end)).

(** ** Migration *)
Record MigrateInput := mkMigrate {
  mi_StripeSubID : string; mi_FromPriceKey : string; mi_ToPriceKey : string; mi_Prorate : bool }.

(** What [Migrate] and [PreviewMigrate] share. *)
Definition migrate_items o (input : MigrateInput) s : res sub_error (list ItemChange) :=
  match o_spec o, o_cache o with
  | Some spec, Some cache =>
      if String.eqb (mi_StripeSubID input) "" then Err (ErrRequired "StripeSubID")
      else match sr_GetByStripeID (mi_StripeSubID input) s with
      | Err e => Err (ErrRepo e)
      | Ok None => Err ErrSubscriptionNotInMirror
      | Ok (Some sub) =>
          let from := namespacedKeyOrSelf (o_spec o) (mi_FromPriceKey input) in
          let to := namespacedKeyOrSelf (o_spec o) (mi_ToPriceKey input) in
          let fromItemID := match find_item from (sub_Items sub) with
                            | Some it => si_StripeID it | None => "" end in
          if String.eqb fromItemID "" then Err (ErrFromPriceNotOnSub from)
          else match Lookup cache to with
          | None => Err (ErrPriceKeyUnresolved to)
          | Some toPriceID =>
              Ok [mkItemChange fromItemID "" 0 true; mkItemChange "" toPriceID 1 false]
          end
      end
  | _, _ => Err ErrMigrateNeedsCacheAndSpec
  end.
Definition Migrate o (input : MigrateInput) s : outcome :=
  match migrate_items o input s with
  | Err e => Fails e
  | Ok items => Calls (CallUpdateItems (mi_StripeSubID input) items
                  (mkUpdateOptions (prorationBehavior (mi_Prorate input))))
  end.
Definition PreviewMigrate o (input : MigrateInput) s : outcome :=
  match migrate_items o input s with
  | Err e => Fails e
  | Ok items => Calls (CallPreview (mi_StripeSubID input) items)
  end.

(** ** Invoiced subscriptions *)
Record InvoicedInput := mkInvoicedInput {
  ii_StripeCustomerID : string; ii_PriceKey : string; ii_Quantity : Z; ii_DueIn : Z;
  ii_AutoFinalize : bool; ii_Metadata : smap; ii_TrialDays : Z; ii_SetupFee : Z;
  ii_SetupFeeDescription : string; ii_AddInvoiceItems : list AddInvoiceItem }.

Definition setup_fee_items (spec : Spec) (input : InvoicedInput) : res sub_error (list AddInvoiceItem) :=
  if 0 <? ii_SetupFee input then
    let desc := if String.eqb (ii_SetupFeeDescription input) "" then "Setup fee"
                else ii_SetupFeeDescription input in
    let specPrice := lookupSpecPrice spec (ii_PriceKey input) in
    if String.eqb (pr_Currency specPrice) "" then Err (ErrInvalid "SetupFee needs a Currency")
    else Ok (ii_AddInvoiceItems input ++
               [mkAddItem "" (ii_SetupFee input) (pr_Currency specPrice) desc 1])
  else Ok (ii_AddInvoiceItems input).

Definition CreateInvoiced o (input : InvoicedInput) : outcome :=
  match o_spec o, o_cache o with
  | Some spec, Some cache =>
      if String.eqb (ii_StripeCustomerID input) "" then Fails (ErrRequired "StripeCustomerID")
      else if String.eqb (ii_PriceKey input) "" then Fails (ErrRequired "PriceKey")
      else
        let nskey := namespacedKeyOrSelf (o_spec o) (ii_PriceKey input) in
        match Lookup cache nskey with
        | None => Fails (ErrPriceKeyUnresolved nskey)
        | Some priceID =>
            let qty := if ii_Quantity input <=? 0 then 1 else ii_Quantity input in
            if negb (ii_TrialDays input =? 0) &&
               ((ii_TrialDays input <? 1) || (730 <? ii_TrialDays input))
            then Fails (ErrInvalid "TrialDays")
            else match setup_fee_items spec input with
            | Err e => Fails e
            | Ok addItems =>
                Calls (CallCreateInvoiced (mkInvoicedSub (ii_StripeCustomerID input) priceID qty
                  (ii_DueIn input) (ii_AutoFinalize input)
                  (StampNamespace (ii_Metadata input) (o_namespace o)) (ii_TrialDays input) addItems))
            end
        end
  | _, _ => Fails ErrMigrateNeedsCacheAndSpec
  end.

(** ** Schedules *)
Record SchedulePhase := mkPhase {
  ph_PriceKey : string; ph_Quantity : Z; ph_Iterations : Z; ph_CouponKey : string }.
Record ScheduleInput := mkScheduleInput {
  sc_StripeCustomerID : string; sc_Phases : list SchedulePhase; sc_EndBehavior : string;
  sc_Metadata : smap; sc_StartAt : Z }.

Fixpoint resolve_phases (spec : Spec) (cache : Cache) (i : nat) (phases : list SchedulePhase)
  : res sub_error (list BackendPhase) :=
  match phases with
  | [] => Ok []
  | p :: rest =>
      let nskey := namespacedKeyOrSelf (Some spec) (ph_PriceKey p) in
      match Lookup cache nskey with
      | None => Err (ErrPhaseResolve i nskey)
      | Some priceID =>
          let bp := mkBackendPhase priceID
            (if String.eqb (ph_CouponKey p) "" then "" else NamespacedCouponID spec (ph_CouponKey p))
            (if ph_Quantity p <=? 0 then 1 else ph_Quantity p) (ph_Iterations p) in
          match resolve_phases spec cache (Datatypes.S i) rest with
          | Err e => Err e
          | Ok bps => Ok (bp :: bps)
          end
      end
  end.

Definition CreateSchedule o (input : ScheduleInput) : outcome :=
  match o_spec o, o_cache o with
  | Some spec, Some cache =>
      if String.eqb (sc_StripeCustomerID input) "" then Fails (ErrRequired "StripeCustomerID")
      else match sc_Phases input with
      | [] => Fails (ErrInvalid "at least one phase is required")
      | _ =>
          match resolve_phases spec cache 0 (sc_Phases input) with
          | Err e => Fails e
          | Ok phases =>
              Calls (CallCreateSchedule (mkScheduleBackend (sc_StripeCustomerID input) phases
                (if String.eqb (sc_EndBehavior input) "" then "release" else sc_EndBehavior input)
                (sc_StartAt input) (StampNamespace (sc_Metadata input) (o_namespace o))))
          end
      end
  | _, _ => Fails ErrMigrateNeedsCacheAndSpec
  end.

Definition AdjustSeats (stripeSubID itemID : string) (newQuantity : Z) (prorate : bool) : outcome :=
  if String.eqb stripeSubID "" then Fails (ErrRequired "stripeSubID")
  else if String.eqb itemID "" then Fails (ErrRequired "itemID")
  else if newQuantity <=? 0 then Fails (ErrInvalid "newQuantity must be positive")
  else Calls (CallUpdateItems stripeSubID [mkItemChange itemID "" newQuantity false]
                (mkUpdateOptions (prorationBehavior prorate))).

(** ** Seats (seats.go) *)
Section seats.
(** [backend.GetSubscriptionItems], a read. *)
Context (GetSubscriptionItems : string -> res string (list SubscriptionItem)).

Definition resolveSeatItem (subjectID stripeSubID nskey : string) s : res sub_error (string * Z) :=
  match sr_GetByStripeID stripeSubID s with
  | Err e => Err (ErrRepo e)
  | Ok (Some sub) =>
      if negb (String.eqb (sub_SubjectID sub) subjectID) then Err ErrSubscriptionNotForSubject
      else match find_item nskey (sub_Items sub) with
           | Some it => Ok (si_StripeID it, si_Quantity it)
           | None => Err ErrSeatPriceNotInSubscription
           end
  | Ok None =>
      match GetSubscriptionItems stripeSubID with
      | Err e => Err (ErrBackend e)
      | Ok items =>
          match find_item nskey items with
          | Some it => Ok (si_StripeID it, si_Quantity it)
          | None => Err ErrSeatPriceNotInSubscription
          end
      end
  end.

Definition SetSeats o (subjectID stripeSubID priceKey : string) (newCount : Z) (prorate : bool) s : outcome :=
  if newCount <=? 0 then Fails (ErrInvalid "newCount must be positive")
  else if String.eqb stripeSubID "" then Fails (ErrRequired "stripeSubID")
  else if String.eqb priceKey "" then Fails (ErrRequired "priceKey")
  else match resolveSeatItem subjectID stripeSubID (namespacedKeyOrSelf (o_spec o) priceKey) s with
  | Err e => Fails e
  | Ok (itemID, current) =>
      if current =? newCount then Nothing
      else Calls (CallUpdateItems stripeSubID [mkItemChange itemID "" newCount false]
                    (mkUpdateOptions (prorationBehavior prorate)))
  end.

Definition SeatCount o (subjectID stripeSubID priceKey : string) s : res sub_error Z :=
  match resolveSeatItem subjectID stripeSubID (namespacedKeyOrSelf (o_spec o) priceKey) s with
  | Err ErrSeatPriceNotInSubscription => Ok 0
  | Err e => Err e
  | Ok (_, current) => Ok current
  end.

Definition AddSeats o (subjectID stripeSubID priceKey : string) (delta : Z) (prorate : bool) s : outcome :=
  if delta =? 0 then Nothing
  else match SeatCount o subjectID stripeSubID priceKey s with
  | Err e => Fails e
  | Ok cur =>
      let next := add64 cur delta in
      if next <=? 0 then Fails (ErrInvalid "result would be <= 0")
      else SetSeats o subjectID stripeSubID priceKey next prorate s
  end.
End seats.

(** ** Failed refunds (refund_failed_handler.go) *)
Record failedRefundShape := mkFailedRefund { fr_PaymentIntent : string; fr_Status : string }.
Definition dec_failed_refund : decoder failedRefundShape :=
  dec_struct (fun x l =>
    match dec_field "payment_intent" dec_string (fr_PaymentIntent x) l,
          dec_field "status" dec_string (fr_Status x) l with
    | Some p, Some st => Some (mkFailedRefund p st)
    | _, _ => None
    end).

(** [resolver] is the app's index of payment intents, or nil. *)
Definition CancelSubscriptionFromFailedRefund (resolver : option (string -> res string string)) (evt : Event)
  : outcome :=
  match event_data evt with
  | None => Fails ErrEmptyEvent
  | Some raw =>
      match Unmarshal (mkFailedRefund "" "") dec_failed_refund raw with
      | None => Fails ErrEventParse
      | Some shape =>
          if negb (String.eqb (fr_Status shape) "failed") then Nothing
          else if String.eqb (fr_PaymentIntent shape) "" then Nothing
          else match resolver with
          | None => Nothing
          | Some f =>
              match f (fr_PaymentIntent shape) with
              | Err e => Fails (ErrResolver e)
              | Ok subID =>
                  if String.eqb subID "" then Nothing
                  else CancelNow subID (mkCancelNow false ("refund_failed:" ^^ ev_ID evt))
              end
          end
      end
  end.

(** Wrappers of the hot-path queries. *)
Definition op_HasActivePrice o (subject pat : string) s : res string bool :=
  HasActivePrice subject (namespacedKeyOrSelf (o_spec o) pat) s.
Definition op_ListByPriceKey o (subject pat : string) s : res string (list Subscription) :=
  ListByPriceKey subject (namespacedKeyOrSelf (o_spec o) pat) s.

(** ** Facts *)
Lemma find_item_spec key items it :
  find_item key items = Some it -> it ∈ items /\ si_PriceKey it = key.
Proof.
  induction items as [|x items IH]; cbn; [done|].
  destruct (String.eqb_spec (si_PriceKey x) key) as [E|_].
  - intros [= ->]. split; [by left|done].
  - intros Hf. destruct (IH Hf). split; [by right|done].
Qed.

(** Where seats may be changed: the mirrored row of the subject, or, for a
    subscription the mirror does not know, the items Stripe reports. *)
Definition seat_item (GetSubscriptionItems : string -> res string (list SubscriptionItem))
    (subjectID stripeSubID nskey : string) s (it : SubscriptionItem) : Prop :=
  si_PriceKey it = nskey /\
  match sr_GetByStripeID stripeSubID s with
  | Ok (Some sub) => sub_SubjectID sub = subjectID /\ it ∈ sub_Items sub
  | Ok None => exists items, GetSubscriptionItems stripeSubID = Ok items /\ it ∈ items
  | Err _ => False
  end.

Lemma resolveSeatItem_spec GetSubscriptionItems subjectID id nskey s itemID qty :
  resolveSeatItem GetSubscriptionItems subjectID id nskey s = Ok (itemID, qty) ->
  exists it, seat_item GetSubscriptionItems subjectID id nskey s it /\ itemID = si_StripeID it /\ qty = si_Quantity it.
Proof.
  unfold resolveSeatItem, seat_item. destruct (sr_GetByStripeID id s) as [[sub|]|e]; [| |done].
  - destruct (String.eqb_spec (sub_SubjectID sub) subjectID) as [<-|]; [|done]. cbn [negb].
    destruct (find_item nskey (sub_Items sub)) as [it|] eqn:E; [|done]. intros [= <- <-].
    apply find_item_spec in E as [Hin Hk]. by exists it.
  - destruct (GetSubscriptionItems id) as [items|e]; [|done].
    destruct (find_item nskey items) as [it|] eqn:E; [|done]. intros [= <- <-].
    apply find_item_spec in E as [Hin Hk]. exists it. split; [|done]. split; [done|by exists items].
Qed.

(** Seats change only on the right item and to the count asked for. When
    [SetSeats] calls Stripe, the count is positive and the call sets one item of the
    subscription, of the price asked for, from another quantity to exactly that count;
    the subscription is mirrored for this very subject, or unknown to the mirror; a
    subscription mirrored for somebody else is refused. *)
Theorem SetSeats_correct get o subjectID id priceKey n prorate s :
  match SetSeats get o subjectID id priceKey n prorate s with
  | Calls c =>
      0 < n /\ exists it,
        seat_item get subjectID id (namespacedKeyOrSelf (o_spec o) priceKey) s it /\
        si_Quantity it <> n /\
        c = CallUpdateItems id [mkItemChange (si_StripeID it) "" n false]
              (mkUpdateOptions (prorationBehavior prorate))
  | Nothing => exists it,
      seat_item get subjectID id (namespacedKeyOrSelf (o_spec o) priceKey) s it /\ si_Quantity it = n
  | Fails e =>
      e <> ErrSubscriptionNotForSubject ->
      forall sub, sr_GetByStripeID id s = Ok (Some sub) -> 0 < n -> id <> "" -> priceKey <> "" ->
        sub_SubjectID sub = subjectID /\ e = ErrSeatPriceNotInSubscription
  end.
Proof.
  unfold SetSeats. destruct (Z.leb_spec n 0) as [Hn|Hn]; [intros; lia|].
  destruct (String.eqb_spec id "") as [|Hid]; [done|]. destruct (String.eqb_spec priceKey "") as [|Hk]; [done|].
  destruct (resolveSeatItem get _ _ _ s) as [[itemID qty]|e] eqn:E.
  - destruct (resolveSeatItem_spec _ _ _ _ _ _ _ E) as (it & Hit & -> & ->).
    destruct (Z.eqb_spec (si_Quantity it) n) as [Hq|Hq]; [by exists it|]. split; [done|]. by exists it.
  - intros He sub Hs _ _ _. unfold resolveSeatItem in E. rewrite Hs in E.
    destruct (String.eqb_spec (sub_SubjectID sub) subjectID) as [|]; cbn in E; [|congruence].
    destruct (find_item _ _); [done|]. split; [done|congruence].
Qed.

(** Adding seats is setting the sum. On an item that holds a count from 0 to the
    largest integer, a call made by [AddSeats] sets the count plus the delta, which is
    positive and did not overflow. *)
Theorem AddSeats_correct get o subjectID id priceKey delta prorate s c cur :
  AddSeats get o subjectID id priceKey delta prorate s = Calls c -> in_int64 delta ->
  SeatCount get o subjectID id priceKey s = Ok cur -> 0 <= cur <= int64_max ->
  0 < cur + delta <= int64_max /\
  SetSeats get o subjectID id priceKey (cur + delta) prorate s = Calls c.
Proof.
  unfold AddSeats, in_int64. intros Ha Hd Hc Hr. destruct (delta =? 0); [done|]. rewrite Hc in Ha.
  destruct (Z.leb_spec (add64 cur delta) 0) as [|Hp]; [done|].
  assert (cur + delta <= int64_max) as Hle.
  { destruct (Z.le_gt_cases (cur + delta) int64_max) as [|Hgt]; [done|].
    assert (add64 cur delta = cur + delta - 2 ^ 64) as E.
    { unfold add64, wrap64, int64_max, int64_min in *.
      rewrite <- (Z.mod_add _ (-1)) by lia. rewrite Z.mod_small; lia. }
    unfold int64_max, int64_min in *. lia. }
  rewrite add64_exact in * by (unfold in_int64, int64_max, int64_min in *; lia). done.
Qed.

(** Migration swaps one item. [Migrate] calls Stripe only for a mirrored
    subscription that has an item of the old price and a new price in the catalog, and
    asks for exactly two changes: the old item goes and one unit of the new price
    comes, whatever quantity the old item had. *)
Theorem Migrate_correct o input s c :
  Migrate o input s = Calls c ->
  exists sub it cache to, sr_GetByStripeID (mi_StripeSubID input) s = Ok (Some sub) /\
    it ∈ sub_Items sub /\ si_PriceKey it = namespacedKeyOrSelf (o_spec o) (mi_FromPriceKey input) /\
    o_cache o = Some cache /\
    Lookup cache (namespacedKeyOrSelf (o_spec o) (mi_ToPriceKey input)) = Some to /\
    c = CallUpdateItems (mi_StripeSubID input)
          [mkItemChange (si_StripeID it) "" 0 true; mkItemChange "" to 1 false]
          (mkUpdateOptions (prorationBehavior (mi_Prorate input))).
Proof.
  unfold Migrate, migrate_items. destruct (o_spec o) as [spec|]; [|done]. destruct (o_cache o) as [cache|]; [|done].
  destruct (String.eqb _ ""); [done|]. destruct (sr_GetByStripeID _ s) as [[sub|]|e]; [|done..].
  destruct (find_item _ (sub_Items sub)) as [it|] eqn:E; [|done].
  destruct (String.eqb (si_StripeID it) ""); [done|].
  destruct (Lookup cache _) as [to|] eqn:El; [|done]. intros [= <-].
  apply find_item_spec in E as [Hin Hk]. by exists sub, it, cache, to.
Qed.

Lemma resolve_phases_spec spec cache i phases :
  match resolve_phases spec cache i phases with
  | Ok bps => Forall2 (fun p bp =>
      Lookup cache (namespacedKeyOrSelf (Some spec) (ph_PriceKey p)) = Some (bp_StripePriceID bp) /\
      bp_Quantity bp = Z.max 1 (ph_Quantity p) /\ bp_Iterations bp = ph_Iterations p /\
      bp_StripeCouponID bp = (if String.eqb (ph_CouponKey p) "" then "" else NamespacedCouponID spec (ph_CouponKey p)))
      phases bps
  | Err e => exists j p, phases !! j = Some p /\
      e = ErrPhaseResolve (i + j) (namespacedKeyOrSelf (Some spec) (ph_PriceKey p)) /\
      Lookup cache (namespacedKeyOrSelf (Some spec) (ph_PriceKey p)) = None /\
      forall j' p', (j' < j)%nat -> phases !! j' = Some p' ->
        is_Some (Lookup cache (namespacedKeyOrSelf (Some spec) (ph_PriceKey p')))
  end.
Proof.
  revert i. induction phases as [|p phases IH]; intros i; cbn; [constructor|].
  destruct (Lookup cache _) as [id|] eqn:El.
  - specialize (IH (Datatypes.S i)). destruct (resolve_phases _ _ _ phases) as [bps|e].
    + constructor; [|done]. cbn. split_and!; [done| |done|done].
      destruct (Z.leb_spec (ph_Quantity p) 0); lia.
    + destruct IH as (j & q & Hj & -> & Hn & Hlt). exists (Datatypes.S j), q. split; [done|].
      split; [f_equal; lia|]. split; [done|]. intros [|j'] p' Hj' Hp'; cbn in Hp'.
      * injection Hp' as <-. by eexists.
      * apply (Hlt j'); [lia|done].
  - exists O, p. split; [done|]. split; [f_equal; lia|]. split; [done|]. intros j' p' Hj'. lia.
Qed.

(** A schedule is resolved phase by phase. [CreateSchedule] either sends every
    phase, in order, with the price the catalog has for it, a quantity of at least one
    and its coupon under the namespace, or names the first phase whose price is not in
    the catalog; and what it creates carries the application's stamp. *)
Theorem CreateSchedule_correct spec cache input :
  let o := New (Some spec) (Some cache) in
  sc_StripeCustomerID input <> "" -> sc_Phases input <> [] -> Namespace spec <> "" ->
  match CreateSchedule o input with
  | Calls (CallCreateSchedule b) =>
      Forall2 (fun p bp =>
        Lookup cache (namespacedKeyOrSelf (Some spec) (ph_PriceKey p)) = Some (bp_StripePriceID bp) /\
        bp_Quantity bp = Z.max 1 (ph_Quantity p) /\ bp_Iterations bp = ph_Iterations p /\
        bp_StripeCouponID bp = (if String.eqb (ph_CouponKey p) "" then ""
                                else NamespacedCouponID spec (ph_CouponKey p)))
        (sc_Phases input) (sb_Phases b) /\
      sb_Metadata b !! MetadataKeyNamespace = Some (Namespace spec)
  | Fails (ErrPhaseResolve j key) => exists p, sc_Phases input !! j = Some p /\
      key = namespacedKeyOrSelf (Some spec) (ph_PriceKey p) /\ Lookup cache key = None /\
      forall j' p', (j' < j)%nat -> sc_Phases input !! j' = Some p' ->
        is_Some (Lookup cache (namespacedKeyOrSelf (Some spec) (ph_PriceKey p')))
  | _ => False
  end.
Proof.
  cbv zeta. intros Hc Hp Hns. unfold CreateSchedule, New. cbn [o_spec o_cache o_namespace].
  rewrite (proj2 (String.eqb_neq _ _) Hc).
  pose proof (resolve_phases_spec spec cache 0 (sc_Phases input)) as R.
  destruct (sc_Phases input) as [|p ps]; [done|].
  destruct (resolve_phases spec cache 0 (p :: ps)) as [bps|e].
  - cbn [sb_Phases sb_Metadata]. split; [done|]. by apply StampNamespace_lookup.
  - destruct R as (j & q & Hj & -> & Hn & Hlt). exists q. done.
Qed.

(** Short price keys are completed as the catalog names them, unless the product
    is called like the namespace: then the short key is taken for a complete one. *)
Theorem namespaced_key_agrees spec pk prk :
  keyRegex pk = true -> namespaceRegex (Namespace spec) = true ->
  let key := pk ^^ "." ^^ prk in
  namespacedKeyOrSelf (Some spec) key =
    (if String.eqb pk (Namespace spec) then key else NamespacedPriceKey spec pk prk) /\
  namespacedKeyOrSelf (Some spec) (NamespacedPriceKey spec pk prk) = NamespacedPriceKey spec pk prk.
Proof.
  intros Hk Hn. cbv zeta. unfold namespacedKeyOrSelf, NamespacedPriceKey, has_prefix.
  assert (Hdot : string_has "." (Namespace spec) = false) by (by apply namespaceRegex_dot).
  split.
  - destruct (String.eqb_spec pk (Namespace spec)) as [->|Hne].
    + rewrite <- append_assoc, prefix_append. by destruct (String.eqb _ "").
    + destruct (String.eqb_spec (pk ^^ "." ^^ prk) "") as [E|_]; [by destruct pk|].
      destruct (String.prefix (Namespace spec ^^ ".") _) eqn:Ep; [|by rewrite !append_assoc].
      apply prefix_spec in Ep. rewrite !append_assoc in Ep.
      cbn [String.append] in Ep. apply sep_inj in Ep as [-> _]; [done|by apply keyRegex_dot|done].
  - replace (Namespace spec ^^ "." ^^ pk ^^ "." ^^ prk)
      with ((Namespace spec ^^ ".") ^^ (pk ^^ "." ^^ prk)) by (by rewrite !append_assoc).
    rewrite prefix_append. by destruct (String.eqb _ "").
Qed.
End operations.
