(* ===== verification/SubscriptionWitnesses.v ===== *)
(** * SubscriptionWitnesses: the subscription theorems on concrete events.

    A subscription is created and then deleted two minutes later; the deletion is
    delivered first, and the creation twice. *)
From S2P Require Import Prelude Postgres Json Events CatalogSpec CatalogCache Subscriptions SubscriptionFacts SubscriptionsPostgres SubscriptionOps.

Definition q (s : string) : string := String Json.quote (s ^^ String Json.quote "").
Definition field (k v : string) : string := q k ^^ ":" ^^ v.
Definition payload (status : string) : string :=
  "{" ^^ field "id" (q "sub_1") ^^ "," ^^ field "status" (q status) ^^ "," ^^
  field "metadata" ("{" ^^ field "subject_id" (q "org_1") ^^ "}") ^^ "," ^^
  field "items" ("{" ^^ field "data" ("[{" ^^ field "id" (q "si_1") ^^ "," ^^ field "quantity" "5" ^^ "," ^^
    field "current_period_start" "1700000000" ^^ "," ^^ field "current_period_end" "1702592000" ^^ "," ^^
    field "price" ("{" ^^ field "id" (q "price_1") ^^ "," ^^ field "lookup_key" (q "app.pro.monthly") ^^ "}")
    ^^ "}]") ^^ "}") ^^ "}".
Definition event (id type status : string) (created : Z) : Event :=
  fromStripeEvent (mkStripeEvent id type true created (Some (payload status))).

Definition d_created : delivery :=
  mkDelivery 0 1 None (event "evt_1" "customer.subscription.created" "active" 1700000000).
Definition d_again : delivery :=
  mkDelivery 0 2 None (event "evt_1" "customer.subscription.created" "active" 1700000000).
Definition d_deleted : delivery :=
  mkDelivery 3 4 None (event "evt_2" "customer.subscription.deleted" "active" 1700000120).

Abbreviation mem := (gmap string Subscription).
Definition start : mem := ∅.

Lemma mem_never_fails : never_fails (S := mem).
Proof. intros x s. cbn. unfold MemSubs.mem_Upsert. by repeat case_match. Qed.

Lemma start_rows : rows start = ∅.
Proof. exact (fmap_empty (M := gmap string) strip). Qed.

Definition the_item : SubscriptionItem := mkSubItem "si_1" "app.pro.monthly" 5.
Definition the_row (status : string) (ended : option Z) (updated created : Z) : Subscription :=
  mkSub "sub_1" "org_1" "" status [the_item] (time_Unix 1700000000) (time_Unix 1702592000) false None ended
    None None {["subject_id" := "org_1"]} updated (time_Unix created) None.

Lemma wants_created : wants d_created = Some (the_row "active" None 1 1700000000).
Proof. vm_compute. reflexivity. Qed.
Lemma wants_again : wants d_again = Some (the_row "active" None 2 1700000000).
Proof. vm_compute. reflexivity. Qed.
Lemma wants_deleted : wants d_deleted = Some (the_row "canceled" (Some 3) 4 1700000120).
Proof. vm_compute. reflexivity. Qed.

Lemma mirror_latest_witness :
  latest (S := mem) [d_deleted; d_created; d_again] "sub_1"
    (Some (the_row "canceled" (Some 3) 0 1700000120)).
Proof.
  pose proof (mirror_latest [d_deleted; d_created; d_again] start "sub_1" mem_never_fails start_rows) as L.
  replace (rows (deliver_all [d_deleted; d_created; d_again] start) !! "sub_1")
    with (Some (the_row "canceled" (Some 3) 0 1700000120)) in L by (vm_compute; reflexivity).
  exact L.
Defined.

Lemma mirror_converges_witness :
  rows (deliver_all [d_deleted; d_created; d_again] start) !! "sub_1" =
  rows (deliver_all [d_created; d_again; d_deleted] start) !! "sub_1".
Proof.
  apply (mirror_converges [d_deleted; d_created; d_again] [d_created; d_again; d_deleted] start start "sub_1"
    mem_never_fails start_rows start_rows).
  - change [d_deleted; d_created; d_again] with ([d_deleted] ++ [d_created; d_again]).
    rewrite Permutation_app_comm. reflexivity.
  - intros d1 d2 r1 r2 H1 H2. rewrite !elem_of_cons, elem_of_nil in H1, H2.
    destruct H1 as [->|[->|[->|[]]]], H2 as [->|[->|[->|[]]]];
      rewrite ?wants_created, ?wants_again, ?wants_deleted; intros [= <-] [= <-]; vm_compute; done.
Defined.

Lemma deleted_revokes_access_witness :
  exists (row : Subscription) ended,
    rows (deliver d_deleted (deliver d_created start)) !! "sub_1" = Some (strip row) /\
    sub_Status (strip row) = StatusCanceled /\ sub_EndedAt row = Some ended.
Proof.
  destruct (deleted_revokes_access (S := mem) d_deleted
    (set_times (the_row "active" None 0 0) time_zero time_zero)
    (deliver d_created start) mem_never_fails eq_refl) as (row & ended & H1 & H2 & _ & H3 & _).
  - vm_compute. reflexivity.
  - replace (rows (deliver d_created start) !! sub_StripeID _)
      with (Some (the_row "active" None 0 1700000000)) by (vm_compute; reflexivity).
    intros old [= <-]. vm_compute. reflexivity.
  - exists row, ended. split; [exact H1|]. split; [exact H2|exact H3].
Defined.

Lemma HasActivePrice_correct_witness :
  exists b, HasActivePrice "org_1" "app.pro.*" (deliver d_created start) = Ok b /\ b = true /\
    exists item, item ∈ [the_item] /\ matches "app.pro.*" (si_PriceKey item).
Proof.
  assert (L : sr_ListBySubject "org_1" (deliver d_created start) = Ok [the_row "active" None 1 1700000000])
    by (vm_compute; reflexivity).
  destruct (HasActivePrice_correct "org_1" "app.pro.*" _ _ L) as (b & E & Hb).
  exists b. split; [exact E|].
  assert (T : HasActivePrice "org_1" "app.pro.*" (deliver d_created start) = Ok true)
    by (vm_compute; reflexivity).
  rewrite E in T. injection T as ->. split; [reflexivity|]. exists the_item. split; [by left|]. left. exists "app.pro.", "monthly". split; reflexivity.
Defined.

Definition listed_sub : ReconciledSubscription :=
  mkReconciled "sub_1" "cus_1" "unpaid" false None None None None {["subject_id" := "org_1"]} []
    time_zero time_zero 1699999999.
(** Stripe reports the subscription unpaid; the mirror, which missed that event, has
    it active with the watermark of a later event than its creation. *)
Lemma reconcile_correct_witness :
  let '(stats, s') := upsertReconciled (fun _ => 9) [listed_sub] (deliver d_created start) in
  st_Upserted stats = 1 /\ rows s' !! "sub_1" = Some (the_row "active" None 0 1700000000).
Proof.
  destruct (upsertReconciled (fun _ => 9) [listed_sub] (deliver d_created start)) as [stats s'] eqn:E.
  destruct (reconcile_correct _ _ _ _ _ mem_never_fails E) as (H1 & H2 & _ & H3 & _).
  split; [rewrite H2, H1; reflexivity|]. apply H3; [vm_compute; reflexivity|].
  intros rs Hrs _. apply list_elem_of_singleton in Hrs as ->. vm_compute. reflexivity.
Defined.

(** ** Postgres *)
Lemma whole_micros t : t mod 1000 = 0 -> t / 1000 * 1000 = t.
Proof. intros Ht. pose proof (Z.div_mod t 1000 ltac:(lia)). lia. Qed.
#[local] Instance micro : PgTime := {| pg_ts t := t / 1000 * 1000; pg_ts_micro := whole_micros |}.
Definition db0 : SubDB := mkSubDB ∅ 1700000001000000000 None.

Lemma pg_roundtrip_witness :
  exists db', pg_Upsert (the_row "active" None 1 1700000000) db0 = (None, db') /\
    pg_GetByStripeID "sub_1" db' = Ok (Some (the_row "active" None 1700000001000000000 1700000000)).
Proof.
  eexists. split; [reflexivity|].
  apply (pg_roundtrip (the_row "active" None 1 1700000000) db0); [|reflexivity|reflexivity].
  split; try done.
  - constructor; [|constructor]. split; [reflexivity|]. split; [reflexivity|]. split; vm_compute; discriminate.
  - intros k v Hkv. cbn in Hkv. apply lookup_singleton_Some in Hkv as [<- <-]. split; reflexivity.
Defined.

Lemma same_second_dropped_witness :
  let x := the_row "active" None 1 1700000000 in
  let y := the_row "canceled" (Some 3) 4 1700000000 in
  let db := mkSubDB {["sub_1" := insert_row 5 x]} 5 None in
  pg_Upsert y db = (None, db) /\ snd (MemSubs.mem_Upsert y {["sub_1" := x]}) !! "sub_1" = Some y.
Proof.
  cbv zeta.
  apply (same_second_dropped (the_row "active" None 1 1700000000) (the_row "canceled" (Some 3) 4 1700000000)
    (mkSubDB {["sub_1" := insert_row 5 (the_row "active" None 1 1700000000)]} 5 None)
    {["sub_1" := the_row "active" None 1 1700000000]}); try reflexivity.
  by eexists.
Defined.

(** ** Operations *)
Definition plan : Product := mkProduct "Pro" "" "" {["monthly" := mkPrice 900 "eur" "recurring" "month" 1 "" "" []]}
  None None ∅.
Definition spec : Spec := mkSpec "app" {["pro" := plan]} ∅ ∅.
Definition cache : Cache := mkCache {["app.pro.monthly" := "price_1"; "app.max.monthly" := "price_2"]} true.
Definition ops : Operations := New (Some spec) (Some cache).
Definition mirrored : mem := deliver d_created start.
Definition no_items (id : string) : res string (list SubscriptionItem) := Err "not asked".

Lemma AddSeats_correct_witness :
  SetSeats no_items ops "org_1" "sub_1" "pro.monthly" (5 + 2) true mirrored =
    Calls (CallUpdateItems "sub_1" [mkItemChange "si_1" "" 7 false] (mkUpdateOptions "create_prorations")).
Proof.
  apply (AddSeats_correct no_items ops "org_1" "sub_1" "pro.monthly" 2 true mirrored _ 5).
  - vm_compute. reflexivity.
  - split; vm_compute; discriminate.
  - vm_compute. reflexivity.
  - split; vm_compute; discriminate.
Defined.

Lemma Migrate_correct_witness :
  exists sub it, sr_GetByStripeID "sub_1" mirrored = Ok (Some sub) /\ it ∈ sub_Items sub /\
    si_Quantity it = 5 /\
    Migrate ops (mkMigrate "sub_1" "pro.monthly" "max.monthly" true) mirrored =
      Calls (CallUpdateItems "sub_1" [mkItemChange (si_StripeID it) "" 0 true; mkItemChange "" "price_2" 1 false]
        (mkUpdateOptions "create_prorations")).
Proof.
  assert (E : Migrate ops (mkMigrate "sub_1" "pro.monthly" "max.monthly" true) mirrored =
    Calls (CallUpdateItems "sub_1" [mkItemChange "si_1" "" 0 true; mkItemChange "" "price_2" 1 false]
        (mkUpdateOptions "create_prorations"))) by (vm_compute; reflexivity).
  destruct (Migrate_correct _ _ _ _ E) as (sub & it & c & to & Hs & Hin & Hk & Hc & Hl & Ec).
  exists sub, it. split; [exact Hs|]. split; [exact Hin|]. split.
  - assert (Hs' : sr_GetByStripeID "sub_1" mirrored = Ok (Some (the_row "active" None 1 1700000000)))
      by (vm_compute; reflexivity).
    pose proof (eq_trans (eq_sym Hs) Hs') as E'. injection E' as ->. apply list_elem_of_singleton in Hin as ->. reflexivity.
  - rewrite E. injection Ec as -> ->. reflexivity.
Defined.

Lemma CreateSchedule_correct_witness :
  match CreateSchedule ops (mkScheduleInput "cus_1" [mkPhase "pro.monthly" 0 3 "HALF"] "" ∅ time_zero) with
  | Calls (CallCreateSchedule b) => sb_Metadata b !! MetadataKeyNamespace = Some "app"
  | _ => False
  end.
Proof.
  pose proof (CreateSchedule_correct spec cache
    (mkScheduleInput "cus_1" [mkPhase "pro.monthly" 0 3 "HALF"] "" ∅ time_zero)
    ltac:(done) ltac:(done) ltac:(done)) as P.
  exact (proj2 P).
Defined.

Lemma namespaced_key_agrees_witness :
  namespacedKeyOrSelf (Some spec) "pro.monthly" = "app.pro.monthly" /\
  namespacedKeyOrSelf (Some spec) "app.monthly" = "app.monthly".
Proof.
  split.
  - apply (proj1 (namespaced_key_agrees spec "pro" "monthly" eq_refl eq_refl)).
  - apply (proj1 (namespaced_key_agrees spec "app" "monthly" eq_refl eq_refl)).
Defined.
