(* ===== verification/Plans.v ===== *)
(** * Plans: what a subject may do (src/plans/plans.go).

    [SnapshotFor] folds the metadata of every product a subject has an active
    subscription for into a snapshot of features and limits; the maps of the snapshot
    are its own. The theorems relate the snapshot to the declarations it came from,
    whatever order the maps are ranged over. *)
From S2P Require Import Prelude Json Events CatalogSpec Credits Subscriptions SubscriptionFacts.

Record Snapshot := mkSnapshot {
  sn_SubjectID : string;
  sn_PeriodEnd : Z;
  sn_TrialEndsAt : option Z;
  sn_anyActive : bool;
  sn_inGracePeriod : bool;
  sn_isTrialing : bool;
  sn_planKeys : list string;
  sn_features : gmap string bool;
  sn_limits : gmap string Z;
  sn_adds : gmap string Z;
  sn_hasLimit : gmap string bool;
}.
Definition Snapshot_new (subject : string) : Snapshot :=
  mkSnapshot subject time_zero None false false false [] ∅ ∅ ∅ ∅.

(** ** Field updates *)
Definition set_status_fields (active grace trialing : bool) (period : Z) (trial : option Z) (s : Snapshot) :=
  mkSnapshot (sn_SubjectID s) period trial active grace trialing (sn_planKeys s) (sn_features s)
    (sn_limits s) (sn_adds s) (sn_hasLimit s).
Definition add_plan (key : string) (s : Snapshot) :=
  mkSnapshot (sn_SubjectID s) (sn_PeriodEnd s) (sn_TrialEndsAt s) (sn_anyActive s) (sn_inGracePeriod s)
    (sn_isTrialing s) (sn_planKeys s ++ [key]) (sn_features s) (sn_limits s) (sn_adds s) (sn_hasLimit s).
Definition set_entitlements (features : gmap string bool) (limits adds : gmap string Z)
    (hasLimit : gmap string bool) (s : Snapshot) :=
  mkSnapshot (sn_SubjectID s) (sn_PeriodEnd s) (sn_TrialEndsAt s) (sn_anyActive s) (sn_inGracePeriod s)
    (sn_isTrialing s) (sn_planKeys s) features limits adds hasLimit.

(** ** Helpers *)
Definition featurePrefix : string := "feature.".
Definition limitPrefix : string := "limit.".
Definition addSuffix : string := ".add".

(** [len(k) > len(prefix) && k[:len(prefix)] == prefix], and the rest. *)
Definition strict_prefix (prefix k : string) : option string :=
  if Nat.ltb (String.length prefix) (String.length k) && has_prefix prefix k
  then Some (string_drop (String.length prefix) k) else None.
(** The name without a proper suffix [.add]. *)
Definition strip_add (name : string) : option string :=
  let n := (String.length name - String.length addSuffix)%nat in
  if Nat.ltb (String.length addSuffix) (String.length name) &&
     String.eqb (String.substring n (String.length addSuffix) name) addSuffix
  then Some (String.substring 0 n name) else None.

(** One entry of a product's metadata. *)
Definition merge_entry (snap : Snapshot) (kv : string * string) : Snapshot :=
  let '(k, v) := kv in
  match strict_prefix featurePrefix k with
  | Some name =>
      if negb (String.eqb v "") && negb (String.eqb v "false") && negb (String.eqb v "0") then
        set_entitlements (<[name := true]> (sn_features snap)) (sn_limits snap) (sn_adds snap)
          (sn_hasLimit snap) snap
      else snap
  | None =>
      match strict_prefix limitPrefix k with
      | None => snap
      | Some name0 =>
          let '(additive, name) := match strip_add name0 with
                                   | Some n => (true, n) | None => (false, name0) end in
          if String.eqb v "unlimited" then
            if (additive : bool) then snap
            else
              let limits :=
                match sn_limits snap !! name with
                | Some cur => if cur <? int64_max then <[name := int64_max]> (sn_limits snap)
                              else sn_limits snap
                | None => <[name := int64_max]> (sn_limits snap)
                end in
              set_entitlements (sn_features snap) limits (sn_adds snap)
                (<[name := true]> (sn_hasLimit snap)) snap
          else match parse_int64 v with
          | None => snap
          | Some parsed =>
              if (additive : bool) then
                set_entitlements (sn_features snap) (sn_limits snap)
                  (<[name := add64 (default 0 (sn_adds snap !! name)) parsed]> (sn_adds snap))
                  (<[name := true]> (sn_hasLimit snap)) snap
              else
                let limits :=
                  match sn_limits snap !! name with
                  | Some cur => if cur <? parsed then <[name := parsed]> (sn_limits snap)
                                else sn_limits snap
                  | None => <[name := parsed]> (sn_limits snap)
                  end in
                set_entitlements (sn_features snap) limits (sn_adds snap)
                  (<[name := true]> (sn_hasLimit snap)) snap
          end
      end
  end.

Definition stripNamespace (ns key : string) : string * bool :=
  match strict_prefix (ns ^^ ".") key with Some rest => (rest, true) | None => (key, false) end.
Definition splitPriceKey (key : string) : string * string := default ("", "") (split_at "." key).

Section plans.
Context `{GoRuntime}.

Definition mergeMetadata (snap : Snapshot) (meta : smap) : Snapshot :=
  foldl merge_entry snap (map_range meta).

(** ** SnapshotFor *)
Definition item_product (spec : Spec) (item : SubscriptionItem) : option (string * Product) :=
  let pk := fst (stripNamespace (Namespace spec) (si_PriceKey item)) in
  let productKey := fst (splitPriceKey pk) in
  if String.eqb productKey "" then None
  else match Products spec !! productKey with Some p => Some (productKey, p) | None => None end.

Definition snapshot_item (spec : Spec) (snap : Snapshot) (item : SubscriptionItem) : Snapshot :=
  match item_product spec item with
  | None => snap
  | Some (productKey, product) => mergeMetadata (add_plan productKey snap) (p_Metadata product)
  end.

Definition snapshot_sub (spec : Spec) (now : Z) (snap : Snapshot) (sub : Subscription) : Snapshot :=
  if negb (IsAccessGranting (sub_Status sub)) then snap
  else
    let period :=
      if negb (IsZero (sub_CurrentPeriodEnd sub)) &&
         (IsZero (sn_PeriodEnd snap) || (sn_PeriodEnd snap <? sub_CurrentPeriodEnd sub))
      then sub_CurrentPeriodEnd sub else sn_PeriodEnd snap in
    let trial :=
      match sub_TrialEnd sub with
      | Some t =>
          if (now <? t) && match sn_TrialEndsAt snap with Some cur => cur <? t | None => true end
          then Some t else sn_TrialEndsAt snap
      | None => sn_TrialEndsAt snap
      end in
    let snap := set_status_fields true
      (sn_inGracePeriod snap || String.eqb (sub_Status sub) StatusPastDue)
      (sn_isTrialing snap || String.eqb (sub_Status sub) StatusTrialing) period trial snap in
    foldl (snapshot_item spec) snap (sub_Items sub).

Definition SnapshotFor {S} `{SubscriptionRepo S} (spec : Spec) (now : Z) (subject : string) (s : S)
  : res string Snapshot :=
  match sr_ListBySubject subject s with
  | Err e => Err e
  | Ok subs => Ok (foldl (snapshot_sub spec now) (Snapshot_new subject) subs)
  end.

(** ** Reading a snapshot *)
Definition IsActive (s : Snapshot) : bool := sn_anyActive s.
Definition IsTrialing (s : Snapshot) : bool := sn_isTrialing s.
Definition snap_InGracePeriod (s : Snapshot) : bool := sn_inGracePeriod s.
Definition HasFeature (s : Snapshot) (key : string) : bool := default false (sn_features s !! key).

Definition IntLimit (s : Snapshot) (key : string) : Z * bool :=
  if negb (default false (sn_hasLimit s !! key)) then (0, false)
  else
    let base := default 0 (sn_limits s !! key) in
    let add := default 0 (sn_adds s !! key) in
    if base =? int64_max then (int64_max, true)
    else if sub64 int64_max base <? add then (int64_max, true)
    else (add64 base add, true).

(** Without a ledger, or when it cannot be read, nothing is left. *)
Definition CreditsRemaining {C} `{CreditRepo C} (st : stamp) (repo : option C) (s : Snapshot)
    (bucket : string) : Z :=
  match repo with
  | None => 0
  | Some c => match cr_Balance st (sn_SubjectID s) bucket c with
              | Err _ => 0
              | Ok bal => b_Total bal
              end
  end.

Fixpoint dedup_keys (seen : list string) (l : list string) : list string :=
  match l with
  | [] => []
  | k :: rest => if existsb (String.eqb k) seen then dedup_keys seen rest
                 else k :: dedup_keys (k :: seen) rest
  end.
Definition PlanKeys (s : Snapshot) : list string := dedup_keys [] (sn_planKeys s).

(** ** Declarations

    What one metadata entry declares, and what all entries of all plans declare. *)
Inductive declaration := DFeature (name : string) | DBase (name : string) (z : Z) | DAdd (name : string) (z : Z).

Definition declares (kv : string * string) : option declaration :=
  let '(k, v) := kv in
  match strict_prefix featurePrefix k with
  | Some name =>
      if negb (String.eqb v "") && negb (String.eqb v "false") && negb (String.eqb v "0")
      then Some (DFeature name) else None
  | None =>
      match strict_prefix limitPrefix k with
      | None => None
      | Some name0 =>
          match strip_add name0 with
          | Some name => if String.eqb v "unlimited" then None
                         else match parse_int64 v with Some z => Some (DAdd name z) | None => None end
          | None => if String.eqb v "unlimited" then Some (DBase name0 int64_max)
                    else match parse_int64 v with Some z => Some (DBase name0 z) | None => None end
          end
      end
  end.

Definition active_items (subs : list Subscription) : list SubscriptionItem :=
  List.concat (map sub_Items (List.filter (fun s => IsAccessGranting (sub_Status s)) subs)).
Definition products_of (spec : Spec) (items : list SubscriptionItem) : list (string * Product) :=
  List.concat (map (fun it => match item_product spec it with Some p => [p] | None => [] end) items).
Definition declared (ps : list (string * Product)) : list declaration :=
  List.concat (map (fun '(_, p) => List.concat (map (fun kv =>
    match declares kv with Some d => [d] | None => [] end) (map_range (p_Metadata p)))) ps).

Definition bases (name : string) (ds : list declaration) : list Z :=
  List.concat (map (fun d => match d with DBase n z => if String.eqb n name then [z] else [] | _ => [] end) ds).
Definition additions (name : string) (ds : list declaration) : list Z :=
  List.concat (map (fun d => match d with DAdd n z => if String.eqb n name then [z] else [] | _ => [] end) ds).
Definition maxZ (l : list Z) : option Z :=
  foldl (fun o z => Some (match o with Some m => Z.max m z | None => z end)) None l.

(** What the declarations [ds] make of a snapshot's entitlements. *)
Record holds (ds : list declaration) (s : Snapshot) : Prop := {
  h_features name : HasFeature s name = true <-> DFeature name ∈ ds;
  h_limits name : sn_limits s !! name = maxZ (bases name ds);
  h_adds name : default 0 (sn_adds s !! name) = sum64 (additions name ds);
  h_has name : default false (sn_hasLimit s !! name) = true <-> bases name ds <> [] \/ additions name ds <> [];
}.
End plans.
