(* ===== verification/PlansFacts.v ===== *)
(** * PlansFacts: snapshots are what the plans declare.

    Features are unions and limits maxima and sums, whatever the order of products and
    subscriptions, up to where the code's guard against overflow overflows. *)
From S2P Require Import Prelude Json Events CatalogSpec Credits Subscriptions SubscriptionFacts Plans.

Section facts.
Context `{GoRuntime}.

(** ** Aggregation *)
Lemma maxZ_snoc l z : maxZ (l ++ [z]) = Some (match maxZ l with Some m => Z.max m z | None => z end).
Proof. unfold maxZ. by rewrite foldl_app. Qed.
Lemma maxZ_In l m : maxZ l = Some m -> In m l.
Proof.
  revert m. induction l as [|z l IH] using rev_ind; intros m; [done|]. rewrite maxZ_snoc. intros [= <-].
  apply in_or_app. destruct (maxZ l) as [m|]; [|right; by left].
  destruct (Z.max_spec m z) as [[_ ->]|[_ ->]]; [right; by left|left; by apply IH].
Qed.
Lemma maxZ_None l : maxZ l = None <-> l = [].
Proof.
  destruct l as [|z l _] using rev_ind; [done|]. rewrite maxZ_snoc. split; [done|]. by destruct l.
Qed.
Lemma sum64_snoc l z : sum64 (l ++ [z]) = add64 (sum64 l) z.
Proof. unfold sum64. by rewrite foldl_app. Qed.

Definition to_list {A} (o : option A) : list A := match o with Some a => [a] | None => [] end.
Lemma bases_app name ds ds' : bases name (ds ++ ds') = bases name ds ++ bases name ds'.
Proof. unfold bases. by rewrite map_app, concat_app. Qed.
Lemma additions_app name ds ds' : additions name (ds ++ ds') = additions name ds ++ additions name ds'.
Proof. unfold additions. by rewrite map_app, concat_app. Qed.

(** ** One entry *)

(** Applying a declaration. *)
Definition declare (snap : Snapshot) (d : declaration) : Snapshot :=
  match d with
  | DFeature name => set_entitlements (<[name := true]> (sn_features snap)) (sn_limits snap) (sn_adds snap)
                       (sn_hasLimit snap) snap
  | DBase name z =>
      set_entitlements (sn_features snap)
        (match sn_limits snap !! name with
         | Some cur => if cur <? z then <[name := z]> (sn_limits snap) else sn_limits snap
         | None => <[name := z]> (sn_limits snap)
         end) (sn_adds snap) (<[name := true]> (sn_hasLimit snap)) snap
  | DAdd name z =>
      set_entitlements (sn_features snap) (sn_limits snap)
        (<[name := add64 (default 0 (sn_adds snap !! name)) z]> (sn_adds snap))
        (<[name := true]> (sn_hasLimit snap)) snap
  end.

Lemma merge_entry_declare snap kv :
  merge_entry snap kv = match declares kv with Some d => declare snap d | None => snap end.
Proof.
  destruct kv as [k v]. unfold merge_entry, declares.
  destruct (strict_prefix featurePrefix k); [by destruct (_ && _)|].
  destruct (strict_prefix limitPrefix k) as [name0|]; [|done].
  destruct (strip_add name0); destruct (String.eqb v "unlimited"); try done; by destruct (parse_int64 v).
Qed.

Lemma limits_declare (limits : gmap string Z) name z name' l :
  limits !! name' = maxZ l ->
  match limits !! name with
  | Some cur => if cur <? z then <[name := z]> limits else limits
  | None => <[name := z]> limits
  end !! name' = maxZ (l ++ if String.eqb name name' then [z] else []).
Proof.
  intros Hl. destruct (String.eqb_spec name name') as [<-|Hne].
  - rewrite maxZ_snoc, <- Hl. destruct (limits !! name) as [cur|] eqn:E.
    + destruct (Z.ltb_spec cur z); [rewrite lookup_insert_eq|rewrite E]; f_equal; lia.
    + by rewrite lookup_insert_eq.
  - rewrite app_nil_r, <- Hl. destruct (limits !! name) as [cur|]; [destruct (_ <? _)|];
      rewrite ?lookup_insert_ne by done; done.
Qed.

Lemma holds_declare ds s d : holds ds s -> holds (ds ++ [d]) (declare s d).
Proof.
  intros [Hf Hl Ha Hh].
  assert (Hhas : forall n name, default false (<[n := true]> (sn_hasLimit s) !! name) = true <->
    n = name \/ default false (sn_hasLimit s !! name) = true).
  { intros n name. destruct (decide (n = name)) as [<-|]; [rewrite lookup_insert_eq; cbn; tauto|].
    rewrite lookup_insert_ne by done. tauto. }
  assert (Hfeat : forall n d', d' = d -> (forall m, d' <> DFeature m) -> HasFeature s n = true <-> DFeature n ∈ ds ++ [d]).
  { intros n d' -> Hd. rewrite Hf, elem_of_app, list_elem_of_singleton. split; [by left|].
    intros [?|E]; [done|]. by destruct (Hd n). }
  assert (Happ : forall (l : list Z) b z, l ++ (if (b : bool) then [z] else []) <> [] <-> b = true \/ l <> []).
  { intros l b z. destruct b; [|rewrite app_nil_r; split; [by right|by intros [?|?]]].
    split; [by left|]. intros _. by destruct l. }
  split; intros name.
  - destruct d as [n|n z|n z]; cbn [declare].
    + unfold HasFeature. cbn. rewrite elem_of_app, list_elem_of_singleton, <- Hf. unfold HasFeature.
      destruct (decide (n = name)) as [<-|Hn]; [rewrite lookup_insert_eq; cbn; tauto|].
      rewrite lookup_insert_ne by done. split; [by left|]. intros [?|[= <-]]; [done|by destruct Hn].
    + by apply (Hfeat name (DBase n z)).
    + by apply (Hfeat name (DAdd n z)).
  - rewrite bases_app. destruct d as [n|n z|n z]; cbn; rewrite ?app_nil_r; [apply Hl| |apply Hl].
    by apply limits_declare.
  - rewrite additions_app. destruct d as [n|n z|n z]; cbn; rewrite ?app_nil_r; [apply Ha|apply Ha|].
    destruct (String.eqb_spec n name) as [<-|Hn].
    + by rewrite lookup_insert_eq, sum64_snoc, Ha.
    + by rewrite lookup_insert_ne, app_nil_r, Ha.
  - rewrite bases_app, additions_app. destruct d as [n|n z|n z]; cbn; rewrite ?app_nil_r; [apply Hh|..];
      rewrite Hhas, Happ, Hh, String.eqb_eq; tauto.
Qed.

(** ** The whole snapshot *)
Lemma holds_merge ds s l :
  holds ds s -> holds (ds ++ List.concat (map (fun kv => to_list (declares kv)) l)) (foldl merge_entry s l).
Proof.
  revert ds s. induction l as [|kv l IH]; intros ds s Hh; cbn; [by rewrite app_nil_r|].
  rewrite app_assoc. apply IH. rewrite merge_entry_declare. destruct (declares kv); cbn;
    [by apply holds_declare|by rewrite app_nil_r].
Qed.

Lemma holds_item spec ds s item :
  holds ds s -> holds (ds ++ declared (to_list (item_product spec item))) (snapshot_item spec s item).
Proof.
  intros Hh. unfold snapshot_item. destruct (item_product spec item) as [[key product]|]; cbn;
    [|by rewrite app_nil_r]. rewrite app_nil_r. apply holds_merge. destruct Hh. by split.
Qed.

Lemma declared_app ps ps' : declared (ps ++ ps') = declared ps ++ declared ps'.
Proof. unfold declared. by rewrite map_app, concat_app. Qed.

Lemma holds_items spec ds s items :
  holds ds s -> holds (ds ++ declared (products_of spec items)) (foldl (snapshot_item spec) s items).
Proof.
  revert ds s. induction items as [|it items IH]; intros ds s Hh; cbn [foldl]; [by rewrite app_nil_r|].
  change (products_of spec (it :: items)) with (to_list (item_product spec it) ++ products_of spec items).
  rewrite declared_app, app_assoc. apply IH. by apply holds_item.
Qed.

Lemma products_app spec l l' : products_of spec (l ++ l') = products_of spec l ++ products_of spec l'.
Proof. unfold products_of. by rewrite map_app, concat_app. Qed.

Lemma active_cons sub subs :
  active_items (sub :: subs) =
    (if IsAccessGranting (sub_Status sub) then sub_Items sub else []) ++ active_items subs.
Proof. unfold active_items. cbn [List.filter]. by destruct (IsAccessGranting _). Qed.

Lemma holds_subs spec now ds s subs :
  holds ds s ->
  holds (ds ++ declared (products_of spec (active_items subs))) (foldl (snapshot_sub spec now) s subs).
Proof.
  revert ds s. induction subs as [|sub subs IH]; intros ds s Hh; cbn [foldl]; [by rewrite app_nil_r|].
  rewrite active_cons. unfold snapshot_sub at 2. destruct (IsAccessGranting (sub_Status sub)); cbn [negb].
  - rewrite products_app, declared_app, app_assoc. apply IH. apply holds_items. destruct Hh. by split.
  - by apply IH.
Qed.

Lemma holds_new subject : holds [] (Snapshot_new subject).
Proof.
  split; intros name; unfold HasFeature; cbn; rewrite ?lookup_empty; cbn; try done.
  - split; [done|]. intros Hin. by apply not_elem_of_nil in Hin.
  - split; [done|]. intros [?|?]; done.
Qed.

(** What the plans of a subject declare. *)
Definition plan_declarations (spec : Spec) (subs : list Subscription) : list declaration :=
  declared (products_of spec (active_items subs)).

Section snapshot.
Context {S : Type} `{SubscriptionRepo S}.

Lemma SnapshotFor_holds spec now subject (s : S) subs snap :
  sr_ListBySubject subject s = Ok subs -> SnapshotFor spec now subject s = Ok snap ->
  holds (plan_declarations spec subs) snap.
Proof.
  unfold SnapshotFor. intros -> [= <-]. apply (holds_subs spec now []). apply holds_new.
Qed.

(** Every declared number fits. *)
Lemma parse_int64_range v z : parse_int64 v = Some z -> in_int64 z.
Proof.
  unfold parse_int64. case_match; [|done]. destruct ((int64_min <=? _) && _) eqn:E; [|done].
  intros [= <-]. reflect_bools. split; lia.
Qed.
Lemma declares_range kv name z : declares kv = Some (DBase name z) -> in_int64 z.
Proof.
  destruct kv as [k v]. unfold declares. destruct (strict_prefix featurePrefix k); [by destruct (_ && _)|].
  destruct (strict_prefix limitPrefix k); [|done].
  destruct (strip_add _), (String.eqb v "unlimited"), (parse_int64 v) eqn:E; try done; intros [= _ <-];
    first [by eapply parse_int64_range|by split].
Qed.
Lemma bases_range name ps z : In z (bases name (declared ps)) -> in_int64 z.
Proof.
  unfold bases, declared. rewrite in_concat. intros (l & Hl & Hz).
  apply in_map_iff in Hl as (d & <- & Hd). destruct d as [n|n x|n x]; [done| |done].
  destruct (String.eqb n name); [|done]. destruct Hz as [<-|[]].
  apply in_concat in Hd as (l & Hl & Hd). apply in_map_iff in Hl as ([key p] & <- & _).
  apply in_concat in Hd as (l & Hl & Hd). apply in_map_iff in Hl as (kv & <- & _).
  destruct (declares kv) as [d|] eqn:E; [|done]. destruct Hd as [->|[]]. by eapply declares_range.
Qed.

(** A limit is the highest tier plus the add-ons. When the numbers declared for a
    limit are not negative in total, [IntLimit] answers the largest of the base limits
    of the subject's active plans plus the sum of the additions, saturated at the
    largest integer, which an unlimited base always gives; a limit nobody declares is
    absent. *)
Theorem IntLimit_correct spec now subject (s : S) subs snap name :
  sr_ListBySubject subject s = Ok subs -> SnapshotFor spec now subject s = Ok snap ->
  let ds := plan_declarations spec subs in
  let base := default 0 (maxZ (bases name ds)) in
  let add := sumZ (additions name ds) in
  0 <= base -> in_int64 add ->
  IntLimit snap name =
    if decide (bases name ds = [] /\ additions name ds = []) then (0, false)
    else (if base =? int64_max then int64_max else Z.min int64_max (base + add), true).
Proof.
  intros Hl Hs. cbv zeta. intros Hb Ha. pose proof (SnapshotFor_holds _ _ _ _ _ _ Hl Hs) as [_ Hlim Hadd Hhas].
  unfold IntLimit. rewrite Hlim, Hadd, sum64_exact by done.
  set (ds := plan_declarations spec subs) in *.
  assert (Hbr : default 0 (maxZ (bases name ds)) <= int64_max).
  { destruct (maxZ (bases name ds)) as [m|] eqn:E; [|done]. apply maxZ_In in E.
    by apply (bases_range name) in E as [_ ?]. }
  destruct (decide _) as [[E1 E2]|Hne].
  - destruct (default false (sn_hasLimit snap !! name)) eqn:E; [|done].
    apply Hhas in E as [?|?]; done.
  - assert (default false (sn_hasLimit snap !! name) = true) as ->.
    { apply Hhas. destruct (bases name ds); [|by left]. right. intros E. by apply Hne. }
    cbn [negb]. set (b := default 0 (maxZ (bases name ds))) in *. unfold in_int64 in Ha.
    destruct (Z.eqb_spec b int64_max) as [|Hn]; [done|].
    rewrite sub64_exact by (unfold in_int64, int64_max, int64_min in *; lia).
    destruct (Z.ltb_spec (int64_max - b) (sumZ (additions name ds))).
    + f_equal. lia.
    + rewrite add64_exact by (unfold in_int64, int64_max, int64_min in *; lia). f_equal. lia.
Qed.

(** A negative limit means no limit. When the highest base declared for a limit is
    negative and the additions are not, the guard against overflow overflows itself
    and [IntLimit] answers the largest integer. *)
Theorem negative_limit_unlimited spec now subject (s : S) subs snap name base :
  sr_ListBySubject subject s = Ok subs -> SnapshotFor spec now subject s = Ok snap ->
  maxZ (bases name (plan_declarations spec subs)) = Some base -> base < 0 ->
  0 <= sum64 (additions name (plan_declarations spec subs)) ->
  IntLimit snap name = (int64_max, true).
Proof.
  intros Hl Hs Hb Hneg Ha. pose proof (SnapshotFor_holds _ _ _ _ _ _ Hl Hs) as [_ Hlim Hadd Hhas].
  unfold IntLimit. rewrite Hlim, Hadd, Hb.
  assert (default false (sn_hasLimit snap !! name) = true) as ->.
  { apply Hhas. left. intros E. by rewrite (proj2 (maxZ_None _) E) in Hb. }
  apply maxZ_In, bases_range in Hb. cbn [negb from_option id].
  destruct (Z.eqb_spec base int64_max); [unfold int64_max in *; lia|].
  assert (sub64 int64_max base = int64_max - base - 2 ^ 64) as ->.
  { unfold sub64, wrap64, in_int64, int64_max, int64_min in *.
    rewrite <- (Z.mod_add _ (-1)) by lia. rewrite Z.mod_small; lia. }
  destruct (Z.ltb_spec (int64_max - base - 2 ^ 64) (sum64 (additions name (plan_declarations spec subs)))); [done|].
  unfold in_int64, int64_max, int64_min in *. lia.
Qed.

(** ** Plans and status *)
Lemma merge_plan_keys l s : sn_planKeys (foldl merge_entry s l) = sn_planKeys s /\
  sn_anyActive (foldl merge_entry s l) = sn_anyActive s /\
  sn_inGracePeriod (foldl merge_entry s l) = sn_inGracePeriod s.
Proof.
  revert s. induction l as [|kv l IH]; intros s; [done|]. cbn.
  destruct (IH (merge_entry s kv)) as (-> & -> & ->). rewrite merge_entry_declare.
  by destruct (declares kv) as [[]|].
Qed.
Lemma items_plan_keys spec items s :
  sn_planKeys (foldl (snapshot_item spec) s items) = sn_planKeys s ++ map fst (products_of spec items) /\
  sn_anyActive (foldl (snapshot_item spec) s items) = sn_anyActive s /\
  sn_inGracePeriod (foldl (snapshot_item spec) s items) = sn_inGracePeriod s.
Proof.
  revert s. induction items as [|it items IH]; intros s; cbn; [by rewrite app_nil_r|].
  destruct (IH (snapshot_item spec s it)) as (-> & -> & ->).
  unfold products_of. cbn. unfold snapshot_item.
  destruct (item_product spec it) as [[key p]|]; [|done]. unfold mergeMetadata.
  destruct (merge_plan_keys (map_range (p_Metadata p)) (add_plan key s)) as (-> & -> & ->). cbn.
  by rewrite <- app_assoc.
Qed.
Lemma subs_status spec now subs s :
  sn_planKeys (foldl (snapshot_sub spec now) s subs) =
    sn_planKeys s ++ map fst (products_of spec (active_items subs)) /\
  sn_anyActive (foldl (snapshot_sub spec now) s subs) =
    sn_anyActive s || existsb (fun x => IsAccessGranting (sub_Status x)) subs /\
  sn_inGracePeriod (foldl (snapshot_sub spec now) s subs) =
    sn_inGracePeriod s || existsb (fun x => String.eqb (sub_Status x) StatusPastDue) subs.
Proof.
  revert s. induction subs as [|sub subs IH]; intros s; cbn [foldl existsb];
    [cbn; by rewrite app_nil_r, !orb_false_r|].
  destruct (IH (snapshot_sub spec now s sub)) as (-> & -> & ->). rewrite active_cons. unfold snapshot_sub.
  destruct (IsAccessGranting (sub_Status sub)) eqn:Ea; cbn [negb orb].
  - match goal with |- context [foldl (snapshot_item spec) ?s0 _] =>
      destruct (items_plan_keys spec (sub_Items sub) s0) as (-> & -> & ->) end. cbn.
    rewrite products_app, map_app, app_assoc, orb_true_r, orb_assoc. done.
  - destruct (String.eqb_spec (sub_Status sub) StatusPastDue) as [E|]; [by rewrite E in Ea|done].
Qed.

Lemma dedup_keys_spec seen l k :
  (k ∈ dedup_keys seen l <-> k ∈ l /\ k ∉ seen) /\ NoDup (dedup_keys seen l).
Proof.
  revert seen k. induction l as [|x l IH]; intros seen k; cbn.
  - split; [|constructor]. rewrite elem_of_nil. tauto.
  - destruct (existsb (String.eqb x) seen) eqn:E.
    + destruct (IH seen k) as [I1 I2]. split; [|done]. rewrite I1, elem_of_cons.
      apply existsb_exists in E as (y & Hy%list_elem_of_In & ->%String.eqb_eq).
      split; [intros [? ?]; split; [by right|done]|]. by intros [[->|?] ?].
    + assert (x ∉ seen) as Hx.
      { intros Hin. apply not_true_iff_false in E. apply E, existsb_exists. exists x.
        split; [by apply list_elem_of_In|apply String.eqb_refl]. }
      split.
      * rewrite elem_of_cons, (proj1 (IH (x :: seen) k)), !elem_of_cons.
        destruct (decide (k = x)) as [->|]; tauto.
      * constructor; [|apply (IH (x :: seen) k)]. rewrite (proj1 (IH (x :: seen) x)), elem_of_cons. tauto.
Qed.

(** C35: a snapshot shows the subject's plans. It is active exactly when a subscription
    of the subject grants access, in grace exactly when one is past due; a feature is
    on exactly when a product of an active subscription enables it; and the plan keys
    are those products, each once. *)
Theorem snapshot_correct spec now subject (s : S) subs snap :
  sr_ListBySubject subject s = Ok subs -> SnapshotFor spec now subject s = Ok snap ->
  (IsActive snap = true <-> exists x, x ∈ subs /\ IsAccessGranting (sub_Status x) = true) /\
  (snap_InGracePeriod snap = true <-> exists x, x ∈ subs /\ sub_Status x = StatusPastDue) /\
  (forall name, HasFeature snap name = true <-> DFeature name ∈ plan_declarations spec subs) /\
  (forall key, key ∈ PlanKeys snap <-> exists x it p, x ∈ subs /\ IsAccessGranting (sub_Status x) = true /\
     it ∈ sub_Items x /\ item_product spec it = Some (key, p)) /\
  NoDup (PlanKeys snap).
Proof.
  intros Hl Hs. pose proof (SnapshotFor_holds _ _ _ _ _ _ Hl Hs) as Hh.
  unfold SnapshotFor in Hs. rewrite Hl in Hs. injection Hs as Hs.
  destruct (subs_status spec now subs (Snapshot_new subject)) as (Ek & Ea & Eg). rewrite Hs in Ek, Ea, Eg. cbn in Ek, Ea, Eg.
  unfold IsActive, snap_InGracePeriod, PlanKeys. rewrite Ek, Ea, Eg. split_and!.
  - rewrite existsb_exists. by setoid_rewrite list_elem_of_In.
  - rewrite existsb_exists. setoid_rewrite list_elem_of_In. by setoid_rewrite String.eqb_eq.
  - apply (h_features _ _ Hh).
  - intros key. rewrite (proj1 (dedup_keys_spec [] _ key)). unfold products_of, active_items.
    rewrite list_elem_of_In, in_map_iff. split.
    + intros [([k p] & <- & Hp) _]. apply in_concat in Hp as (l & Hl' & Hp).
      apply in_map_iff in Hl' as (it & <- & Hit). apply in_concat in Hit as (l & Hl' & Hit).
      apply in_map_iff in Hl' as (x & <- & Hx). apply filter_In in Hx as [Hx Hg].
      exists x, it, p. rewrite !list_elem_of_In. destruct (item_product spec it) as [kp|]; [|done].
      destruct Hp as [->|[]]. done.
    + intros (x & it & p & Hx & Hg & Hit & Hp). apply list_elem_of_In in Hx. apply list_elem_of_In in Hit. split; [|apply not_elem_of_nil].
      exists (key, p). split; [done|]. apply in_concat. eexists. split; [apply in_map_iff; exists it; split; [done|]|].
      * apply in_concat. exists (sub_Items x). split; [|done]. apply in_map, filter_In. done.
      * rewrite Hp. by left.
  - apply (dedup_keys_spec [] _ "").
Qed.
End snapshot.
End facts.

(** ** A subject with a plan and two storage packs *)
Module PlansDemo.
Definition product (meta : smap) : Product := mkProduct "" "" "" ∅ None None meta.
Definition spec : Spec := mkSpec "app"
  {["pro" := product {["limit.gb" := "100"; "feature.sso" := "true"; "limit.seats" := "-1"]};
    "pack" := product {["limit.gb.add" := "50"]}]} ∅ ∅.
Definition sub (id status key : string) : Subscription :=
  mkSub id "org_1" "" status [mkSubItem ("si_" ^^ id) key 1] time_zero time_zero false None None None None
    ∅ 0 0 None.
Definition repo : gmap string Subscription :=
  {["1" := sub "1" "active" "app.pro.monthly"; "2" := sub "2" "past_due" "app.pack.a";
    "3" := sub "3" "active" "app.pack.b"; "4" := sub "4" "canceled" "app.pack.a"]}.
Definition subs : list Subscription := match sr_ListBySubject "org_1" repo with Ok l => l | Err _ => [] end.
Definition snap : Snapshot :=
  match SnapshotFor spec 0 "org_1" repo with Ok s => s | Err _ => Snapshot_new "" end.

Lemma subs_ok : sr_ListBySubject "org_1" repo = Ok subs.
Proof. vm_compute. reflexivity. Qed.
Lemma snap_ok : SnapshotFor spec 0 "org_1" repo = Ok snap.
Proof. vm_compute. reflexivity. Qed.

Lemma IntLimit_correct_witness : IntLimit snap "gb" = (200, true).
Proof.
  assert (E : bases "gb" (plan_declarations spec subs) = [100] /\
              sumZ (additions "gb" (plan_declarations spec subs)) = 100) by (split; vm_compute; reflexivity).
  destruct E as [E1 E2].
  pose proof (IntLimit_correct spec 0 "org_1" repo subs snap "gb" subs_ok snap_ok) as L. cbv zeta in L.
  rewrite E1, E2 in L. change (default 0 (maxZ [100])) with 100 in L. rewrite L.
  - rewrite decide_False by (intros [E _]; discriminate E). reflexivity.
  - lia.
  - split; vm_compute; discriminate.
Defined.

Lemma negative_limit_unlimited_witness : IntLimit snap "seats" = (int64_max, true).
Proof.
  apply (negative_limit_unlimited spec 0 "org_1" repo subs snap "seats" (-1) subs_ok snap_ok).
  - vm_compute. reflexivity.
  - lia.
  - vm_compute. discriminate.
Defined.

Lemma snapshot_correct_witness :
  IsActive snap = true /\ snap_InGracePeriod snap = true /\ HasFeature snap "sso" = true /\ "pack" ∈ PlanKeys snap.
Proof.
  destruct (snapshot_correct spec 0 "org_1" repo subs snap subs_ok snap_ok) as (H1 & H2 & H3 & H4 & _).
  split; [|split; [|split]].
  - apply H1. exists (sub "1" "active" "app.pro.monthly"). split; [|reflexivity].
    apply list_elem_of_In. vm_compute. tauto.
  - apply H2. exists (sub "2" "past_due" "app.pack.a"). split; [|reflexivity].
    apply list_elem_of_In. vm_compute. tauto.
  - apply H3. apply list_elem_of_In. vm_compute. tauto.
  - apply H4. exists (sub "3" "active" "app.pack.b"), (mkSubItem "si_3" "app.pack.b" 1),
      (product {["limit.gb.add" := "50"]}).
    split; [apply list_elem_of_In; vm_compute; tauto|]. split; [reflexivity|]. split; [by left|].
    vm_compute. reflexivity.
Defined.
End PlansDemo.
