(* ===== verification/Customers.v ===== *)
(** * Customers: export, erasure, import and tax ids of a customer
      (src/customers/customers.go, export.go, forget.go, backfill.go, tax_ids.go).

    The Stripe client is the class [StripeClient] over its state, which stands for everything
    outside, the application's own data included. A listing is what its iteration yields and
    the error that ends it, if any; it is read when the iteration starts. *)
From S2P Require Import Prelude Postgres Json Events StripeApi Credits Subscriptions Checkout.

(** ** The objects of stripe-go, as far as they are read *)
Record stripe_address := mkAddress {
  ad_Line1 : string; ad_Line2 : string; ad_City : string; ad_State : string; ad_PostalCode : string; ad_Country : string }.
Record stripe_customer := mkStripeCustomer {
  xc_ID : string; xc_Email : string; xc_Name : string; xc_Description : string; xc_Phone : string; xc_Currency : string;
  xc_Balance : Z; xc_Created : Z; xc_Metadata : smap; xc_Address : option stripe_address }.
Record stripe_price := mkStripePrice { xp_ID : string; xp_LookupKey : string }.
Record stripe_item := mkStripeItem {
  xi_ID : string; xi_Quantity : Z; xi_Price : option stripe_price; xi_CurrentPeriodStart : Z; xi_CurrentPeriodEnd : Z }.
Record stripe_subscription := mkStripeSub {
  xs_ID : string; xs_Status : string; xs_Customer : option string; xs_Items : option (list stripe_item);
  xs_CancelAtPeriodEnd : bool; xs_CanceledAt : Z; xs_EndedAt : Z; xs_TrialEnd : Z; xs_Created : Z; xs_Metadata : smap }.
Record stripe_invoice := mkStripeInvoice {
  xv_ID : string; xv_Number : string; xv_Status : string; xv_Total : Z; xv_Currency : string; xv_Created : Z;
  xv_HostedInvoiceURL : string; xv_InvoicePDF : string }.
Record stripe_charge := mkStripeCharge {
  xh_ID : string; xh_Amount : Z; xh_Currency : string; xh_Status : string; xh_Paid : bool; xh_Refunded : bool; xh_Created : Z }.
Record stripe_tax_id := mkStripeTaxID {
  xt_ID : string; xt_Type : string; xt_Value : string; xt_Country : string; xt_Created : Z;
  xt_Verification : option (string * string) }.
Record stripe_card := mkStripeCard { xd_Last4 : string; xd_Brand : string; xd_ExpMonth : Z; xd_ExpYear : Z }.
Record stripe_payment_method := mkStripePM { xm_ID : string; xm_Type : string; xm_Card : option stripe_card }.

Abbreviation listing A := (list A * option string)%type.
Class StripeClient (B : Type) := {
  cl_Customers_Retrieve : string -> B -> res string stripe_customer * B;
  (** Customers.Update and Subscriptions.Update with one entry of metadata, under an
      idempotency key *)
  cl_Customers_Stamp : string -> string -> string -> B -> option string * B;
  cl_Customers_Delete : string -> B -> option string * B;
  cl_Subscriptions_List : string -> B -> listing stripe_subscription * B;
  cl_Subscriptions_Stamp : string -> string -> string -> B -> res string stripe_subscription * B;
  cl_Subscriptions_Cancel : string -> B -> option string * B;
  cl_Invoices_List : string -> B -> listing stripe_invoice * B;
  cl_Charges_List : string -> B -> listing stripe_charge * B;
  cl_TaxIDs_List : string -> B -> listing stripe_tax_id * B;
  cl_PaymentMethods_List : string -> B -> listing stripe_payment_method * B;
  (** customer, type, value, idempotency key *)
  cl_TaxIDs_Create : string -> string -> string -> string -> B -> res string stripe_tax_id * B;
  cl_TaxIDs_Delete : string -> string -> B -> option string * B;
}.

(** ** Errors *)
Inductive customers_error :=
| CuResolve (subject msg : string)
| CuNoCustomer (subject : string)
| CuRequired (field : string)
| ErrNamespaceConflict
| CuStripe (call msg : string)
| CuRepo (call msg : string)
| CuCredits (call : string) (e : credits_error)
| CuApp (msg : string).

(** ** Snapshots (export.go) *)
Record AddressSnapshot := mkAddressSnapshot {
  as_Line1 : string; as_Line2 : string; as_City : string; as_State : string; as_PostalCode : string; as_Country : string }.
Record CustomerSnapshot := mkCustomerSnapshot {
  cq_ID : string; cq_Email : string; cq_Name : string; cq_Description : string; cq_Phone : string; cq_Currency : string;
  cq_Balance : Z; cq_Created : Z; cq_Metadata : smap; cq_Address : option AddressSnapshot }.
Record SubscriptionSnapshot := mkSubSnapshot {
  sq_ID : string; sq_Status : string; sq_CurrentPeriodEnd : Z; sq_CancelAtPeriodEnd : bool; sq_Created : Z }.
Record InvoiceSnapshot := mkInvoiceSnapshot {
  iq_ID : string; iq_Number : string; iq_Status : string; iq_Total : Z; iq_Currency : string; iq_Created : Z;
  iq_HostedURL : string; iq_PDFURL : string }.
Record ChargeSnapshot := mkChargeSnapshot {
  hq_ID : string; hq_Amount : Z; hq_Currency : string; hq_Status : string; hq_Paid : bool; hq_Refunded : bool; hq_Created : Z }.
Record TaxIDSnapshot := mkTaxSnapshot { tq_ID : string; tq_Type : string; tq_Value : string; tq_Country : string }.
Record PaymentMethodSnapshot := mkPMSnapshot {
  mq_ID : string; mq_Type : string; mq_Last4 : string; mq_Brand : string; mq_ExpMonth : Z; mq_ExpYear : Z }.
Record StripeCustomerExport := mkStripeExport {
  se_Customer : option CustomerSnapshot; se_Subscriptions : list SubscriptionSnapshot; se_Invoices : list InvoiceSnapshot;
  se_Charges : list ChargeSnapshot; se_TaxIDs : list TaxIDSnapshot; se_PaymentMethods : list PaymentMethodSnapshot }.
Record CreditsExport := mkCreditsExport {
  ce_Balances : gmap string Z; ce_Grants : list Grant; ce_History : list LedgerEntry }.

Definition projectCustomer (c : stripe_customer) : CustomerSnapshot :=
  mkCustomerSnapshot (xc_ID c) (xc_Email c) (xc_Name c) (xc_Description c) (xc_Phone c) (xc_Currency c) (xc_Balance c)
    (time_Unix (xc_Created c)) (xc_Metadata c)
    (match xc_Address c with
     | None => None
     | Some a => Some (mkAddressSnapshot (ad_Line1 a) (ad_Line2 a) (ad_City a) (ad_State a) (ad_PostalCode a) (ad_Country a))
     end).
(** The end of the period of the first item that has one. *)
Fixpoint first_period_end (items : list stripe_item) : Z :=
  match items with
  | [] => time_zero
  | item :: rest => if 0 <? xi_CurrentPeriodEnd item then time_Unix (xi_CurrentPeriodEnd item) else first_period_end rest
  end.
Definition projectSubscriptionSnapshot (s : stripe_subscription) : SubscriptionSnapshot :=
  mkSubSnapshot (xs_ID s) (xs_Status s) (first_period_end (default [] (xs_Items s))) (xs_CancelAtPeriodEnd s) (time_Unix (xs_Created s)).
Definition projectInvoiceSnapshot (i : stripe_invoice) : InvoiceSnapshot :=
  mkInvoiceSnapshot (xv_ID i) (xv_Number i) (xv_Status i) (xv_Total i) (xv_Currency i) (time_Unix (xv_Created i))
    (xv_HostedInvoiceURL i) (xv_InvoicePDF i).
Definition projectChargeSnapshot (c : stripe_charge) : ChargeSnapshot :=
  mkChargeSnapshot (xh_ID c) (xh_Amount c) (xh_Currency c) (xh_Status c) (xh_Paid c) (xh_Refunded c) (time_Unix (xh_Created c)).
Definition projectTaxIDSnapshot (t : stripe_tax_id) : TaxIDSnapshot :=
  mkTaxSnapshot (xt_ID t) (xt_Type t) (xt_Value t) (xt_Country t).
Definition projectPaymentMethodSnapshot (p : stripe_payment_method) : PaymentMethodSnapshot :=
  match xm_Card p with
  | None => mkPMSnapshot (xm_ID p) (xm_Type p) "" "" 0 0
  | Some c => mkPMSnapshot (xm_ID p) (xm_Type p) (xd_Last4 c) (xd_Brand c) (xd_ExpMonth c) (xd_ExpYear c)
  end.

(** ** Import: the projection of a subscription (backfill.go) *)
Definition import_item (it : stripe_item) : SubscriptionItem :=
  mkSubItem (xi_ID it)
    (match xi_Price it with
     | None => ""
     | Some p => if String.eqb (xp_LookupKey p) "" then "stripe:" ^^ xp_ID p else xp_LookupKey p
     end) (xi_Quantity it).
Fixpoint import_period (start end_ : Z) (items : list stripe_item) : Z * Z :=
  match items with
  | [] => (start, end_)
  | it :: rest =>
      if IsZero start && (0 <? xi_CurrentPeriodStart it)
      then import_period (time_Unix (xi_CurrentPeriodStart it)) (time_Unix (xi_CurrentPeriodEnd it)) rest
      else import_period start end_ rest
  end.
Definition time_if_set (u : Z) : option Z := if 0 <? u then Some (time_Unix u) else None.
Definition projectImportedSubscription (s : string) (ss : stripe_subscription) : Subscription :=
  let items := default [] (xs_Items ss) in
  let '(start, end_) := import_period time_zero time_zero items in
  mkSub (xs_ID ss) s (default "" (xs_Customer ss)) (xs_Status ss) (map import_item items) start end_
    (xs_CancelAtPeriodEnd ss) (time_if_set (xs_CanceledAt ss)) (time_if_set (xs_EndedAt ss)) None (time_if_set (xs_TrialEnd ss))
    (xs_Metadata ss) (time_Unix (xs_Created ss)) (time_Unix (xs_Created ss)) None.

(** ** Reports *)
Record ForgetReport := mkForgetReport {
  fo_SubjectID : string; fo_StripeCustomerID : string; fo_StripeCustomerDeleted : bool; fo_SubscriptionsRevoked : Z;
  fo_CreditsForgotten : Z; fo_AppHookCalled : bool; fo_AppHookError : option string }.
Record ImportCustomerInput := mkImportInput {
  im_SubjectID : string; im_StripeCustomerID : string; im_Namespace : string; im_AdoptNamespace : bool; im_BackfillSubscriptions : bool }.
Record ImportCustomerResult := mkImportResult {
  ir_SubjectID : string; ir_StripeCustomerID : string; ir_NamespaceStamped : bool; ir_PreviouslyHadDifferentNS : bool;
  ir_PreviousNamespace : string; ir_SubscriptionsBackfilled : Z }.
Record TaxID := mkTaxID {
  tx_StripeID : string; tx_StripeCustomerID : string; tx_Type : string; tx_Value : string; tx_Country : string;
  tx_Verification : string; tx_VerificationName : string; tx_Created : Z }.
Record AddTaxIDInput := mkAddTaxID { ai_SubjectID : string; ai_Type : string; ai_Value : string }.

Definition isTerminalStatus (s : string) : bool := String.eqb s "canceled" || String.eqb s "incomplete_expired".
Definition explicitOptOut (input : ImportCustomerInput) : bool := negb (im_BackfillSubscriptions input).
Definition projectTaxID (t : stripe_tax_id) (customerID : string) : TaxID :=
  mkTaxID (xt_ID t) customerID (xt_Type t) (xt_Value t) (xt_Country t)
    (match xt_Verification t with None => "" | Some (status, _) => status end)
    (match xt_Verification t with None => "" | Some (_, name) => name end) (time_Unix (xt_Created t)).

Section customers.
Context {C M L B A : Type} `{CustomerRepo C} `{SubscriptionRepo M} `{CreditRepo L} `{StripeClient B} `{Sha256}.

(** The parts a [Config] may leave out are options: the mirror and the ledger in the state,
    the hooks here. *)
Record Hooks := mkHooks {
  hk_AppDataExporter : option (string -> B -> res string A * B);
  hk_AppDataForgetter : option (string -> B -> option string * B);
  hk_SubscriptionCanceler : option (string -> B -> option string * B) }.
Record CustomersWorld := mkCustomersWorld { wo_customers : C; wo_mirror : option M; wo_credits : option L; wo_outside : B }.
Definition set_customers (c : C) (w : CustomersWorld) : CustomersWorld := mkCustomersWorld c (wo_mirror w) (wo_credits w) (wo_outside w).
Definition set_mirror (m : M) (w : CustomersWorld) : CustomersWorld := mkCustomersWorld (wo_customers w) (Some m) (wo_credits w) (wo_outside w).
Definition set_credits (l : L) (w : CustomersWorld) : CustomersWorld := mkCustomersWorld (wo_customers w) (wo_mirror w) (Some l) (wo_outside w).
Definition set_outside (b : B) (w : CustomersWorld) : CustomersWorld := mkCustomersWorld (wo_customers w) (wo_mirror w) (wo_credits w) b.

Definition resolveStripeID (s : string) (w : CustomersWorld) : res customers_error string * CustomersWorld :=
  match cu_Get s (wo_customers w) with
  | (Err e, c) => (Err (CuResolve s e), set_customers c w)
  | (Ok None, c) => (Err (CuNoCustomer s), set_customers c w)
  | (Ok (Some id), c) => (Ok id, set_customers c w)
  end.

(** ** Forget (forget.go) *)
Definition active_ids (subs : list stripe_subscription) : list string :=
  map xs_ID (List.filter (fun s => negb (isTerminalStatus (xs_Status s))) subs).
Definition count_revoked (r : ForgetReport) : ForgetReport :=
  mkForgetReport (fo_SubjectID r) (fo_StripeCustomerID r) (fo_StripeCustomerDeleted r) (fo_SubscriptionsRevoked r + 1)
    (fo_CreditsForgotten r) (fo_AppHookCalled r) (fo_AppHookError r).
Definition count_forgotten (r : ForgetReport) : ForgetReport :=
  mkForgetReport (fo_SubjectID r) (fo_StripeCustomerID r) (fo_StripeCustomerDeleted r) (fo_SubscriptionsRevoked r)
    (fo_CreditsForgotten r + 1) (fo_AppHookCalled r) (fo_AppHookError r).
Definition set_deleted (r : ForgetReport) : ForgetReport :=
  mkForgetReport (fo_SubjectID r) (fo_StripeCustomerID r) true (fo_SubscriptionsRevoked r)
    (fo_CreditsForgotten r) (fo_AppHookCalled r) (fo_AppHookError r).
Definition set_hook (e : option string) (r : ForgetReport) : ForgetReport :=
  mkForgetReport (fo_SubjectID r) (fo_StripeCustomerID r) (fo_StripeCustomerDeleted r) (fo_SubscriptionsRevoked r)
    (fo_CreditsForgotten r) true e.
Definition cancel_call (hooks : Hooks) (id : string) (b : B) : option customers_error * B :=
  match hk_SubscriptionCanceler hooks with
  | Some cancel => let '(e, b') := cancel id b in (CuStripe "SubscriptionCanceler" <$> e, b')
  | None => let '(e, b') := cl_Subscriptions_Cancel id b in (CuStripe "Subscriptions.Cancel" <$> e, b')
  end.
Fixpoint cancel_all (hooks : Hooks) (ids : list string) (report : ForgetReport) (b : B)
  : option customers_error * ForgetReport * B :=
  match ids with
  | [] => (None, report, b)
  | id :: rest =>
      match cancel_call hooks id b with
      | (Some e, b') => (Some e, report, b')
      | (None, b') => cancel_all hooks rest (count_revoked report) b'
      end
  end.
Definition cancelActiveSubscriptions (hooks : Hooks) (customerID : string) (report : ForgetReport) (b : B)
  : option customers_error * ForgetReport * B :=
  match cl_Subscriptions_List customerID b with
  | ((_, Some e), b') => (Some (CuStripe "Subscriptions.List" e), report, b')
  | ((subs, None), b') => cancel_all hooks (active_ids subs) report b'
  end.
(** [st] gives what the [k]-th revocation reads from outside. *)
Fixpoint revoke_all (st : nat -> stamp) (k : nat) (grants : list Grant) (report : ForgetReport) (l : L)
  : option customers_error * ForgetReport * L :=
  match grants with
  | [] => (None, report, l)
  | g :: rest =>
      match cr_RevokeGrant (st k) (g_ID g) "gdpr_forget" l with
      | (Err e, l') => (Some (CuCredits "RevokeGrant" e), report, l')
      | (Ok _, l') => revoke_all st (S k) rest (count_forgotten report) l'
      end
  end.
Definition revoke_credits (st : nat -> stamp) (s : string) (report : ForgetReport) (ledger : option L)
  : option customers_error * ForgetReport * option L :=
  match ledger with
  | None => (None, report, None)
  | Some l =>
      match cr_ListBySubject s l with
      | Err e => (Some (CuCredits "ListBySubject" e), report, Some l)
      | Ok grants => let '(e, report', l') := revoke_all st 0 grants report l in (e, report', Some l')
      end
  end.
Definition call_hook (hooks : Hooks) (s : string) (report : ForgetReport) (b : B)
  : option customers_error * ForgetReport * B :=
  match hk_AppDataForgetter hooks with
  | None => (None, report, b)
  | Some forget =>
      match forget s b with
      | (Some e, b') => (Some (CuApp e), set_hook (Some e) report, b')
      | (None, b') => (None, set_hook None report, b')
      end
  end.
Definition Forget (hooks : Hooks) (st : nat -> stamp) (s : string) (w : CustomersWorld)
  : option ForgetReport * option customers_error * CustomersWorld :=
  match resolveStripeID s w with
  | (Err e, w) => (None, Some e, w)
  | (Ok stripeID, w) =>
      let report := mkForgetReport s stripeID false 0 0 false None in
      match cancelActiveSubscriptions hooks stripeID report (wo_outside w) with
      | (Some e, report, b) => (Some report, Some e, set_outside b w)
      | (None, report, b) =>
          match revoke_credits st s report (wo_credits w) with
          | (Some e, report, l) => (Some report, Some e, mkCustomersWorld (wo_customers w) (wo_mirror w) l b)
          | (None, report, l) =>
              match cl_Customers_Delete stripeID b with
              | (Some e, b) => (Some report, Some (CuStripe "Customers.Delete" e), mkCustomersWorld (wo_customers w) (wo_mirror w) l b)
              | (None, b) =>
                  let '(e, report, b) := call_hook hooks s (set_deleted report) b in
                  (Some report, e, mkCustomersWorld (wo_customers w) (wo_mirror w) l b)
              end
          end
      end
  end.

(** ** ImportCustomer (backfill.go) *)
(** [ctx] is the caller's idempotency key, as in StripeApi.v. *)
Fixpoint backfill_loop (ctx s namespace : string) (subs : list stripe_subscription) (count : Z) (m : M) (b : B)
  : Z * option customers_error * M * B :=
  match subs with
  | [] => (count, None, m, b)
  | ss :: rest =>
      let '(r, b) :=
        if bool_decide (xs_Metadata ss !! MetadataKeyNamespace = Some namespace) then (Ok ss, b)
        else cl_Subscriptions_Stamp (xs_ID ss) namespace (ApplyIdempotencyKey ctx "customers.import.stamp_sub" [xs_ID ss; namespace]) b in
      match r with
      | Err e => (count, Some (CuStripe "Subscriptions.Update" e), m, b)
      | Ok ss =>
          match sr_Upsert (projectImportedSubscription s ss) m with
          | (Some e, m) => (count, Some (CuRepo "SubscriptionRepo.Upsert" e), m, b)
          | (None, m) => backfill_loop ctx s namespace rest (count + 1) m b
          end
      end
  end.
Definition backfillSubscriptions (ctx s stripeCustomerID namespace : string) (m : M) (b : B)
  : Z * option customers_error * M * B :=
  let '((subs, end_), b) := cl_Subscriptions_List stripeCustomerID b in
  match backfill_loop ctx s namespace subs 0 m b with
  | (count, None, m, b) => (count, CuStripe "Subscriptions.List" <$> end_, m, b)
  | r => r
  end.
(** What is done about the namespace of the customer: the result so far, the error. *)
Definition stamp_customer (ctx : string) (input : ImportCustomerInput) (existing : option string) (result : ImportCustomerResult) (b : B)
  : ImportCustomerResult * option customers_error * B :=
  let differs (stamped : bool) (r : ImportCustomerResult) (previous : string) :=
    mkImportResult (ir_SubjectID r) (ir_StripeCustomerID r) stamped true previous (ir_SubscriptionsBackfilled r) in
  let stamp :=
    match cl_Customers_Stamp (im_StripeCustomerID input) (im_Namespace input)
            (ApplyIdempotencyKey ctx "customers.import.stamp" [im_StripeCustomerID input; im_Namespace input]) b with
    | (Some e, b) => (result, Some (CuStripe "Customers.Update" e), b)
    | (None, b) =>
        (match existing with
         | Some ns => if String.eqb ns (im_Namespace input)
                      then mkImportResult (ir_SubjectID result) (ir_StripeCustomerID result) true false "" 0
                      else differs true result ns
         | None => mkImportResult (ir_SubjectID result) (ir_StripeCustomerID result) true false "" 0
         end, None, b)
    end in
  match existing with
  | Some ns =>
      if String.eqb ns (im_Namespace input) then (result, None, b)
      else if negb (im_AdoptNamespace input) then (differs false result ns, Some ErrNamespaceConflict, b)
      else stamp
  | None => stamp
  end.
Definition set_backfilled (n : Z) (r : ImportCustomerResult) : ImportCustomerResult :=
  mkImportResult (ir_SubjectID r) (ir_StripeCustomerID r) (ir_NamespaceStamped r) (ir_PreviouslyHadDifferentNS r)
    (ir_PreviousNamespace r) n.
Definition check_import (input : ImportCustomerInput) : option customers_error :=
  if String.eqb (im_SubjectID input) "" then Some (CuRequired "SubjectID")
  else if String.eqb (im_StripeCustomerID input) "" then Some (CuRequired "StripeCustomerID")
  else if String.eqb (im_Namespace input) "" then Some (CuRequired "Namespace")
  else None.
Definition ImportCustomer (ctx : string) (input : ImportCustomerInput) (w : CustomersWorld)
  : option ImportCustomerResult * option customers_error * CustomersWorld :=
  match check_import input with
  | Some e => (None, Some e, w)
  | None =>
      let result := mkImportResult (im_SubjectID input) (im_StripeCustomerID input) false false "" 0 in
      match cl_Customers_Retrieve (im_StripeCustomerID input) (wo_outside w) with
      | (Err e, b) => (None, Some (CuStripe "Customers.Retrieve" e), set_outside b w)
      | (Ok cust, b) =>
          match stamp_customer ctx input (xc_Metadata cust !! MetadataKeyNamespace) result b with
          | (result, Some e, b) => (Some result, Some e, set_outside b w)
          | (result, None, b) =>
              match cu_Upsert (im_SubjectID input) (im_StripeCustomerID input) (wo_customers w) with
              | (Some e, c) => (Some result, Some (CuRepo "CustomerRepo.Upsert" e), set_outside b (set_customers c w))
              | (None, c) =>
                  let backfillSubs := im_BackfillSubscriptions input || negb (explicitOptOut input) in
                  match wo_mirror w with
                  | Some m =>
                      if backfillSubs then
                        match backfillSubscriptions ctx (im_SubjectID input) (im_StripeCustomerID input) (im_Namespace input) m b with
                        | (_, Some e, m, b) => (Some result, Some e, set_mirror m (set_outside b (set_customers c w)))
                        | (n, None, m, b) => (Some (set_backfilled n result), None, set_mirror m (set_outside b (set_customers c w)))
                        end
                      else (Some result, None, set_outside b (set_customers c w))
                  | None => (Some result, None, set_outside b (set_customers c w))
                  end
              end
          end
      end
  end.

(** ** Export (export.go) *)
Record Export := mkExport {
  ex_SubjectID : string; ex_StripeCustomerID : string; ex_GeneratedAt : Z; ex_Stripe : StripeCustomerExport;
  ex_Subscriptions : list Subscription; ex_Credits : option CreditsExport; ex_App : option A }.
(** What was listed is kept when the listing ends in an error. *)
Definition exportFromStripe (customerID : string) (b : B) : StripeCustomerExport * option customers_error * B :=
  match cl_Customers_Retrieve customerID b with
  | (Err e, b) => (mkStripeExport None [] [] [] [] [], Some (CuStripe "Customers.Retrieve" e), b)
  | (Ok cust, b) =>
      let customer := Some (projectCustomer cust) in
      let '((subs, e), b) := cl_Subscriptions_List customerID b in
      let subs := map projectSubscriptionSnapshot subs in
      match e with
      | Some e => (mkStripeExport customer subs [] [] [] [], Some (CuStripe "Subscriptions.List" e), b)
      | None =>
      let '((invs, e), b) := cl_Invoices_List customerID b in
      let invs := map projectInvoiceSnapshot invs in
      match e with
      | Some e => (mkStripeExport customer subs invs [] [] [], Some (CuStripe "Invoices.List" e), b)
      | None =>
      let '((chs, e), b) := cl_Charges_List customerID b in
      let chs := map projectChargeSnapshot chs in
      match e with
      | Some e => (mkStripeExport customer subs invs chs [] [], Some (CuStripe "Charges.List" e), b)
      | None =>
      let '((txs, e), b) := cl_TaxIDs_List customerID b in
      let txs := map projectTaxIDSnapshot txs in
      match e with
      | Some e => (mkStripeExport customer subs invs chs txs [], Some (CuStripe "TaxIDs.List" e), b)
      | None =>
      let '((pms, e), b) := cl_PaymentMethods_List customerID b in
      (mkStripeExport customer subs invs chs txs (map projectPaymentMethodSnapshot pms), CuStripe "PaymentMethods.List" <$> e, b)
      end end end end
  end.
Definition exportCredits (st : stamp) (s : string) (l : L) : res credits_error CreditsExport :=
  match cr_AllBalances st s l with
  | Err e => Err e
  | Ok balances =>
      match cr_ListBySubject s l with
      | Err e => Err e
      | Ok grants =>
          Ok (mkCreditsExport (b_Total <$> balances) grants
                (match cr_History s time_zero l with Ok history => history | Err _ => [] end))
      end
  end.
Definition export_mirror (s : string) (w : CustomersWorld) : res customers_error (list Subscription) :=
  match wo_mirror w with
  | None => Ok []
  | Some m => match sr_ListBySubject s m with Ok subs => Ok subs | Err e => Err (CuRepo "subscription mirror" e) end
  end.
Definition export_credits (st : stamp) (s : string) (w : CustomersWorld) : res customers_error (option CreditsExport) :=
  match wo_credits w with
  | None => Ok None
  | Some l => match exportCredits st s l with Ok cx => Ok (Some cx) | Err e => Err (CuCredits "credits" e) end
  end.
Definition ExportCustomer (hooks : Hooks) (now : Z) (st : stamp) (s : string) (w : CustomersWorld)
  : option Export * option customers_error * CustomersWorld :=
  match resolveStripeID s w with
  | (Err e, w) => (None, Some e, w)
  | (Ok id, w) =>
      let '(stripe, err, b) := exportFromStripe id (wo_outside w) in
      let w := set_outside b w in
      match err with
      | Some e => (Some (mkExport s id now stripe [] None None), Some e, w)
      | None =>
          match export_mirror s w with
          | Err e => (Some (mkExport s id now stripe [] None None), Some e, w)
          | Ok subs =>
              match export_credits st s w with
              | Err e => (Some (mkExport s id now stripe subs None None), Some e, w)
              | Ok cx =>
                  match hk_AppDataExporter hooks with
                  | None => (Some (mkExport s id now stripe subs cx None), None, w)
                  | Some f =>
                      match f s b with
                      | (Err e, b) => (Some (mkExport s id now stripe subs cx None), Some (CuApp e), set_outside b w)
                      | (Ok app, b) => (Some (mkExport s id now stripe subs cx (Some app)), None, set_outside b w)
                      end
                  end
              end
          end
      end
  end.

(** ** Tax ids (tax_ids.go) *)
Definition AddTaxID (ctx : string) (input : AddTaxIDInput) (w : CustomersWorld) : res customers_error TaxID * CustomersWorld :=
  if String.eqb (ai_SubjectID input) "" then (Err (CuRequired "SubjectID"), w)
  else if String.eqb (ai_Type input) "" || String.eqb (ai_Value input) "" then (Err (CuRequired "Type and Value"), w)
  else match resolveStripeID (ai_SubjectID input) w with
  | (Err e, w) => (Err e, w)
  | (Ok id, w) =>
      match cl_TaxIDs_Create id (ai_Type input) (ai_Value input)
              (ApplyIdempotencyKey ctx "customers.tax_id.add" [id; ai_Type input; ai_Value input]) (wo_outside w) with
      | (Err e, b) => (Err (CuStripe "TaxIDs.Create" e), set_outside b w)
      | (Ok created, b) => (Ok (projectTaxID created id), set_outside b w)
      end
  end.
Definition ListTaxIDs (s : string) (w : CustomersWorld) : res customers_error (list TaxID) * CustomersWorld :=
  match resolveStripeID s w with
  | (Err e, w) => (Err e, w)
  | (Ok id, w) =>
      match cl_TaxIDs_List id (wo_outside w) with
      | ((_, Some e), b) => (Err (CuStripe "ListTaxIDs" e), set_outside b w)
      | ((ts, None), b) => (Ok (map (fun t => projectTaxID t id) ts), set_outside b w)
      end
  end.
Definition RemoveTaxID (s taxIDStripeID : string) (w : CustomersWorld) : option customers_error * CustomersWorld :=
  if String.eqb taxIDStripeID "" then (Some (CuRequired "taxIDStripeID"), w)
  else match resolveStripeID s w with
  | (Err e, w) => (Some e, w)
  | (Ok id, w) =>
      let '(e, b) := cl_TaxIDs_Delete taxIDStripeID id (wo_outside w) in
      (CuStripe "TaxIDs.Delete" <$> e, set_outside b w)
  end.
End customers.
Arguments CustomersWorld : clear implicits.
Arguments Hooks : clear implicits.
