(* ===== verification/CustomersFacts.v ===== *)
(** * CustomersFacts: what erasure leaves behind, in which order it happens, and what an
      import does. *)
From S2P Require Import Prelude Postgres Json Events StripeApi Credits CreditsMemory CreditsMemoryFacts CreditsLedger CreditsSpec.
From S2P Require Import CreditsTheorems Subscriptions SubscriptionWitnesses Checkout CheckoutFacts Customers.
Import Memory.

(** ** The order of an erasure *)
Section noted.
Context {C M L B A : Type} `{CustomerRepo C} `{SubscriptionRepo M} `{CreditRepo L} `{StripeClient B} `{Sha256}.

(** What has been done outside, in order: a client, and hooks, that note it. *)
Inductive step_done := Cancelled (id : string) | Deleted (id : string) | AppForgot (s : string).
Record noted := mkNoted { nd_outside : B; nd_done : list step_done }.
Definition note (d : step_done) (r : option string * B) (done : list step_done) : option string * noted :=
  (fst r, mkNoted (snd r) (match fst r with None => done ++ [d] | Some _ => done end)).
Definition pass {R} (r : R * B) (done : list step_done) : R * noted := (fst r, mkNoted (snd r) done).
#[export] Instance noted_client : StripeClient noted := {
  cl_Customers_Retrieve id b := pass (cl_Customers_Retrieve id (nd_outside b)) (nd_done b);
  cl_Customers_Stamp id ns key b := pass (cl_Customers_Stamp id ns key (nd_outside b)) (nd_done b);
  cl_Customers_Delete id b := note (Deleted id) (cl_Customers_Delete id (nd_outside b)) (nd_done b);
  cl_Subscriptions_List id b := pass (cl_Subscriptions_List id (nd_outside b)) (nd_done b);
  cl_Subscriptions_Stamp id ns key b := pass (cl_Subscriptions_Stamp id ns key (nd_outside b)) (nd_done b);
  cl_Subscriptions_Cancel id b := note (Cancelled id) (cl_Subscriptions_Cancel id (nd_outside b)) (nd_done b);
  cl_Invoices_List id b := pass (cl_Invoices_List id (nd_outside b)) (nd_done b);
  cl_Charges_List id b := pass (cl_Charges_List id (nd_outside b)) (nd_done b);
  cl_TaxIDs_List id b := pass (cl_TaxIDs_List id (nd_outside b)) (nd_done b);
  cl_PaymentMethods_List id b := pass (cl_PaymentMethods_List id (nd_outside b)) (nd_done b);
  cl_TaxIDs_Create id type value key b := pass (cl_TaxIDs_Create id type value key (nd_outside b)) (nd_done b);
  cl_TaxIDs_Delete tid id b := pass (cl_TaxIDs_Delete tid id (nd_outside b)) (nd_done b);
}.
Definition note_hooks (h : Hooks B A) : Hooks noted A :=
  mkHooks ((fun f s b => pass (f s (nd_outside b)) (nd_done b)) <$> hk_AppDataExporter h)
    ((fun f s b => note (AppForgot s) (f s (nd_outside b)) (nd_done b)) <$> hk_AppDataForgetter h)
    ((fun f id b => note (Cancelled id) (f id (nd_outside b)) (nd_done b)) <$> hk_SubscriptionCanceler h).
Definition noted_world (w : CustomersWorld C M L B) : CustomersWorld C M L noted :=
  mkCustomersWorld (wo_customers w) (wo_mirror w) (wo_credits w) (mkNoted (wo_outside w) []).
Context (hooks : Hooks B A).

Lemma cancel_call_noted id b :
  match cancel_call (note_hooks hooks) id b with
  | (None, b') => nd_done b' = nd_done b ++ [Cancelled id]
  | (Some _, b') => nd_done b' = nd_done b
  end.
Proof.
  unfold cancel_call, note_hooks. cbn. destruct (hk_SubscriptionCanceler hooks) as [f|]; cbn.
  - by destruct (f id (nd_outside b)) as [[e|] b'].
  - by destruct (cl_Subscriptions_Cancel id (nd_outside b)) as [[e|] b'].
Qed.
Definition added (report report' : ForgetReport) (n : nat) : Prop :=
  report' = mkForgetReport (fo_SubjectID report) (fo_StripeCustomerID report) (fo_StripeCustomerDeleted report)
    (fo_SubscriptionsRevoked report + Z.of_nat n) (fo_CreditsForgotten report) (fo_AppHookCalled report) (fo_AppHookError report).
Lemma added_0 report : added report report 0.
Proof. unfold added. rewrite Z.add_0_r. by destruct report. Qed.
Lemma cancel_all_noted ids report b :
  match cancel_all (note_hooks hooks) ids report b with
  | (None, report', b') => nd_done b' = nd_done b ++ map Cancelled ids /\ added report report' (List.length ids)
  | (Some _, report', b') => exists k, (k < List.length ids)%nat /\
      nd_done b' = nd_done b ++ map Cancelled (take k ids) /\ added report report' k
  end.
Proof.
  revert report b. induction ids as [|id ids IH]; intros report b; cbn [cancel_all].
  - rewrite app_nil_r. split; [done|apply added_0].
  - pose proof (cancel_call_noted id b) as Hc. destruct (cancel_call _ id b) as [[e|] b1].
    + exists 0%nat. rewrite app_nil_r. cbn. split; [lia|]. split; [done|apply added_0].
    + specialize (IH (count_revoked report) b1). destruct (cancel_all _ ids _ b1) as [[[e|] report'] b2].
      * destruct IH as (k & Hk & Hd & Ha). exists (S k). cbn. split; [lia|]. rewrite Hd, Hc, <- app_assoc. split; [done|].
        unfold added in *. rewrite Ha. cbn. f_equal. lia.
      * destruct IH as [Hd Ha]. rewrite Hd, Hc, <- app_assoc. split; [done|]. unfold added in *. rewrite Ha. cbn. f_equal. lia.
Qed.
Definition forgot (report report' : ForgetReport) : Prop := exists z,
  report' = mkForgetReport (fo_SubjectID report) (fo_StripeCustomerID report) (fo_StripeCustomerDeleted report)
    (fo_SubscriptionsRevoked report) z (fo_AppHookCalled report) (fo_AppHookError report).
Lemma forgot_refl report : forgot report report.
Proof. exists (fo_CreditsForgotten report). by destruct report. Qed.
Lemma revoke_all_report st k grants report (l : L) : forgot report (snd (fst (revoke_all st k grants report l))).
Proof.
  revert k report l. induction grants as [|g grants IH]; intros k report l; cbn [revoke_all]; [apply forgot_refl|].
  destruct (cr_RevokeGrant _ _ _ l) as [[[]|e] l']; [|apply forgot_refl]. destruct (IH (S k) (count_forgotten report) l') as [z ->]. by exists z.
Qed.
Lemma revoke_credits_report st s report (l : option L) : forgot report (snd (fst (revoke_credits st s report l))).
Proof.
  unfold revoke_credits. destruct l as [l|]; [|apply forgot_refl]. destruct (cr_ListBySubject s l) as [grants|e]; [|apply forgot_refl].
  pose proof (revoke_all_report st 0 grants report l) as Hr. by destruct (revoke_all st 0 grants report l) as [[e report'] l'].
Qed.
Definition app_step (s : string) : list step_done := match hk_AppDataForgetter hooks with None => [] | Some _ => [AppForgot s] end.
Lemma call_hook_noted s report b :
  match call_hook (note_hooks hooks) s report b with
  | (e, report', b') =>
      fo_StripeCustomerID report' = fo_StripeCustomerID report /\ fo_SubscriptionsRevoked report' = fo_SubscriptionsRevoked report /\
      fo_StripeCustomerDeleted report' = fo_StripeCustomerDeleted report /\
      match e with
      | None => nd_done b' = nd_done b ++ app_step s
      | Some _ => nd_done b' = nd_done b /\ app_step s <> []
      end
  end.
Proof.
  unfold call_hook, app_step, note_hooks. cbn. destruct (hk_AppDataForgetter hooks) as [f|]; cbn; [|by rewrite app_nil_r].
  by destruct (f s (nd_outside b)) as [[e|] b'].
Qed.

(** What an erasure is to do outside the ledger, in order. The credits are revoked between the
    cancellations and the deletion. *)
Definition forget_plan (id s : string) (subs : list stripe_subscription) : list step_done :=
  map Cancelled (active_ids subs) ++ Deleted id :: app_step s.

(** How far along the plan things are, by the report, the error and what was done. *)
Definition stands (id s : string) (subs : list stripe_subscription) (rep : ForgetReport) (err : option customers_error)
    (done : list step_done) : Prop :=
  let plan := forget_plan id s subs in
  let n := List.length (active_ids subs) in
  exists k, (k <= List.length plan)%nat /\ done = take k plan /\ (err = None <-> k = List.length plan) /\
    fo_SubscriptionsRevoked rep = Z.of_nat (Nat.min k n) /\ (fo_StripeCustomerDeleted rep = true <-> (n < k)%nat).
Lemma forget_plan_length id s subs : List.length (forget_plan id s subs) = (List.length (active_ids subs) + S (List.length (app_step s)))%nat.
Proof. unfold forget_plan. by rewrite length_app, length_map. Qed.
Lemma stands_cancelling id s subs rep e k :
  (k <= List.length (active_ids subs))%nat -> fo_SubscriptionsRevoked rep = Z.of_nat k -> fo_StripeCustomerDeleted rep = false ->
  stands id s subs rep (Some e) (map Cancelled (take k (active_ids subs))).
Proof.
  intros Hk Hr Hdel. exists k. rewrite forget_plan_length. unfold forget_plan. rewrite take_app_le by (rewrite length_map; lia).
  rewrite firstn_map, Hr, Hdel. split_and!; [lia|done|split; [done|lia]|lia|split; [done|lia]].
Qed.
Lemma stands_deleted id s subs rep err done :
  fo_SubscriptionsRevoked rep = Z.of_nat (List.length (active_ids subs)) -> fo_StripeCustomerDeleted rep = true ->
  match err with
  | None => done = forget_plan id s subs
  | Some _ => done = map Cancelled (active_ids subs) ++ [Deleted id] /\ app_step s <> []
  end -> stands id s subs rep err done.
Proof.
  intros Hr Hdel Herr. unfold stands. rewrite forget_plan_length, Hr, Hdel. destruct err as [e|].
  - destruct Herr as [-> Hne]. exists (S (List.length (active_ids subs))).
    assert (List.length (app_step s) <> 0%nat) by (by destruct (app_step s)).
    unfold forget_plan. rewrite take_app, length_map, take_ge by (rewrite length_map; lia).
    replace (S _ - _)%nat with 1%nat by lia. change (take 1 (Deleted id :: app_step s)) with [Deleted id]. split_and!; [lia|done|split; [done|lia]|lia|split; [lia|done]].
  - exists (List.length (forget_plan id s subs)). rewrite firstn_all, forget_plan_length.
    split_and!; [lia|done|done|lia|split; [lia|done]].
Qed.

(** C14: Erasure goes in order and its report is true. Whatever fails, what has been done is a
    beginning of the plan: cancel every subscription that is not over, delete the
    customer, let the application forget; and the credits are touched only after the last
    cancellation and are all revoked before the deletion. All of it is done exactly when no error is
    returned; the report counts the cancellations and says whether the customer is deleted,
    so that a customer is never deleted while a subscription of the listing is live. *)
Theorem Forget_in_order st s w rep err w' :
  Forget (note_hooks hooks) st s (noted_world w) = (Some rep, err, w') ->
  exists subs e, fst (cl_Subscriptions_List (fo_StripeCustomerID rep) (wo_outside w)) = (subs, e) /\
    let plan := forget_plan (fo_StripeCustomerID rep) s subs in
    let n := List.length (active_ids subs) in
    exists k, (k <= List.length plan)%nat /\ nd_done (wo_outside w') = take k plan /\
      (err = None <-> k = List.length plan) /\
      fo_SubscriptionsRevoked rep = Z.of_nat (Nat.min k n) /\
      (fo_StripeCustomerDeleted rep = true <-> (n < k)%nat) /\
      ((k < n)%nat -> wo_credits w' = wo_credits w) /\
      ((n < k)%nat -> exists rep0 rep1, revoke_credits st s rep0 (wo_credits w) = (None, rep1, wo_credits w')).
Proof.
  unfold Forget. destruct (resolveStripeID s (noted_world w)) as [[id|e] w1] eqn:Er; [|done].
  assert (wo_outside w1 = mkNoted (wo_outside w) [] /\ wo_credits w1 = wo_credits w) as [Ho Hcr].
  { revert Er. unfold resolveStripeID. destruct (cu_Get s _) as [[[?|]|?] ?]; by intros [= _ <-]. }
  clear Er. unfold cancelActiveSubscriptions. rewrite Ho. cbn [cl_Subscriptions_List noted_client nd_outside nd_done]. unfold pass.
  destruct (cl_Subscriptions_List id (wo_outside w)) as [[subs lerr] b1] eqn:El; cbn [fst snd].
  intros Hf. enough (fo_StripeCustomerID rep = id /\ stands id s subs rep err (nd_done (wo_outside w')) /\
    (fo_SubscriptionsRevoked rep < Z.of_nat (List.length (active_ids subs)) -> wo_credits w' = wo_credits w) /\
    (fo_StripeCustomerDeleted rep = true -> exists rep0 rep1, revoke_credits st s rep0 (wo_credits w) = (None, rep1, wo_credits w')))
    as (-> & (k & Hk & Hd & He & Hn & Hdel) & Hc1 & Hc2).
  { exists subs, lerr. rewrite El. split; [done|]. exists k. split_and!; try done; [intros Hlt; apply Hc1; lia|]. intros Hlt. by apply Hc2, Hdel. }
  revert Hf. destruct lerr as [e|].
  { intros [= <- <- <-]. split; [done|]. split; [by apply (stands_cancelling id s subs _ _ 0); [lia|..]|done]. }
  pose proof (cancel_all_noted (active_ids subs) (mkForgetReport s id false 0 0 false None) (mkNoted b1 [])) as Hc.
  destruct (cancel_all _ _ _ _) as [[[e|] rep1] b2].
  { destruct Hc as (k & Hk & Hd & ->). intros [= <- <- <-]. split; [done|]. cbn in *. rewrite Hd. split; [apply stands_cancelling; [lia|done..]|done]. }
  destruct Hc as [Hd ->]. cbn in Hd.
  pose proof (revoke_credits_report st s (mkForgetReport s id false (0 + Z.of_nat (List.length (active_ids subs))) 0 false None) (wo_credits w1)) as [z Hz].
  cbn in *. destruct (revoke_credits st s _ (wo_credits w1)) as [[er rep2] l2] eqn:Erev. cbn in Hz. subst rep2.
  assert (Hcan : forall rep e, fo_SubscriptionsRevoked rep = Z.of_nat (List.length (active_ids subs)) -> fo_StripeCustomerDeleted rep = false ->
            stands id s subs rep (Some e) (nd_done b2)).
  { intros rep0 e Hr Hdel. rewrite Hd, <- (firstn_all (active_ids subs)). by apply stands_cancelling. }
  destruct er as [e|]; [intros [= <- <- <-]; split; [done|]; split; [by apply Hcan|]; cbn; split; [lia|done]|].
  destruct (cl_Customers_Delete id (nd_outside b2)) as [[e|] b3]; cbn;
    [intros [= <- <- <-]; split; [done|]; split; [by apply Hcan|]; cbn; split; [lia|done]|].
  pose proof (call_hook_noted s (set_deleted (mkForgetReport s id false (Z.of_nat (List.length (active_ids subs))) z false None))
    (mkNoted b3 (nd_done b2 ++ [Deleted id]))) as Hh.
  destruct (call_hook _ s _ _) as [[eh rep3] b4]. cbn in Hh. destruct Hh as (Hid & Hrev & Hdel & Hdone). intros [= <- <- <-].
  split; [done|]. split; [|split; [lia|]; intros _; rewrite <- Hcr; by do 2 eexists].
  apply stands_deleted; [done|done|]. cbn. destruct eh; [by rewrite <- Hd|].
  unfold forget_plan. by rewrite Hdone, Hd, <- app_assoc.
Qed.
End noted.

(** ** What each stage leaves of the report *)
Section stages.
Context {B A : Type} `{StripeClient B} (hooks : Hooks B A).
Lemma call_hook_report s rep b :
  let rep' := snd (fst (call_hook hooks s rep b)) in
  fo_CreditsForgotten rep' = fo_CreditsForgotten rep /\ fo_StripeCustomerDeleted rep' = fo_StripeCustomerDeleted rep /\
  fo_StripeCustomerID rep' = fo_StripeCustomerID rep.
Proof. unfold call_hook. destruct (hk_AppDataForgetter hooks) as [f|]; [|done]. by destruct (f s b) as [[e|] b']. Qed.
Lemma cancel_report id rep b :
  let rep' := snd (fst (cancelActiveSubscriptions hooks id rep b)) in
  fo_CreditsForgotten rep' = fo_CreditsForgotten rep /\ fo_StripeCustomerDeleted rep' = fo_StripeCustomerDeleted rep /\
  fo_StripeCustomerID rep' = fo_StripeCustomerID rep /\ fo_AppHookCalled rep' = fo_AppHookCalled rep.
Proof.
  unfold cancelActiveSubscriptions. destruct (cl_Subscriptions_List id b) as [[subs [e|]] b1]; [done|].
  revert rep b1. induction (active_ids subs) as [|i ids IH]; intros rep b1; cbn [cancel_all]; [done|].
  destruct (cancel_call hooks i b1) as [[e|] b2]; [done|]. by destruct (IH (count_revoked rep) b2) as (-> & -> & -> & ->).
Qed.

Context {C M L : Type} `{CustomerRepo C} `{SubscriptionRepo M} `{CreditRepo L} `{Sha256}.
Lemma resolveStripeID_rest s (w : CustomersWorld C M L B) r w1 :
  resolveStripeID s w = (r, w1) -> wo_outside w1 = wo_outside w /\ wo_credits w1 = wo_credits w /\ wo_mirror w1 = wo_mirror w.
Proof. unfold resolveStripeID. destruct (cu_Get s _) as [[[?|]|?] ?]; by intros [= _ <-]. Qed.
(** A customer is deleted at the end of these stages. *)
Lemma Forget_deleted_inv st s (w : CustomersWorld C M L B) rep err w' :
  Forget hooks st s w = (Some rep, err, w') -> fo_StripeCustomerDeleted rep = true ->
  exists id w1 rep0 b1 rep1 b2, resolveStripeID s w = (Ok id, w1) /\
    cancelActiveSubscriptions hooks id (mkForgetReport s id false 0 0 false None) (wo_outside w) = (None, rep0, b1) /\
    revoke_credits st s rep0 (wo_credits w) = (None, rep1, wo_credits w') /\
    cl_Customers_Delete id b1 = (None, b2) /\ call_hook hooks s (set_deleted rep1) b2 = (err, rep, wo_outside w').
Proof.
  unfold Forget. destruct (resolveStripeID s w) as [[id|e] w1] eqn:Er; [|done].
  pose proof (resolveStripeID_rest _ _ _ _ Er) as (-> & -> & _).
  pose proof (cancel_report id (mkForgetReport s id false 0 0 false None) (wo_outside w)) as Hc.
  destruct (cancelActiveSubscriptions _ _ _ _) as [[[e|] rep0] b1] eqn:Ecan; cbn in Hc; destruct Hc as (_ & Hdel & _).
  { intros [= <- _ _]. by rewrite Hdel. }
  pose proof (revoke_credits_report st s rep0 (wo_credits w)) as [z Hz].
  destruct (revoke_credits st s rep0 (wo_credits w)) as [[[e|] rep1] l] eqn:Erev; cbn in Hz; subst rep1.
  { intros [= <- _ _]. cbn. by rewrite Hdel. }
  destruct (cl_Customers_Delete id b1) as [[e|] b2] eqn:Ed; [intros [= <- _ _]; cbn; by rewrite Hdel|].
  destruct (call_hook _ _ _ b2) as [[e rep3] b3] eqn:Eh. intros [= <- <- <-] _. exists id, w1, rep0, b1. eexists _, b2. split; [done|]. split; [done|]. split; [exact Erev|]. split; [done|]. exact Eh.
Qed.
End stages.

(** ** Nothing is left to spend *)
Section forgotten.
Context `{GoRuntime} {C M B A : Type} `{CustomerRepo C} `{SubscriptionRepo M} `{StripeClient B} `{Sha256}.

Lemma RevokeGrant_closes now id reason r s g :
  ledger_inv r -> g ∈ grants_of (repo_RevokeGrant now id reason r) s ->
  g_AmountRemaining g = 0 \/ g ∈ grants_of r s /\ g_ID g <> id.
Proof.
  intros Hinv Hg. destruct (RevokeGrant_cases now id reason r) as [[Hf E]|(s' & i & g0 & Hi & Hid & E)]; rewrite E in Hg.
  { right. split; [done|]. intros <-. apply (Hf s), elem_of_map. by exists g. }
  rewrite (revoke_at_grants _ _ _ _ _ _ _ g0) in Hg by done. pose proof (list_elem_of_lookup_2 _ _ _ Hi) as Hg0.
  destruct (decide (s' = s)) as [->|Hne].
  - apply list_elem_of_lookup in Hg as [j Hj]. destruct (decide (i = j)) as [->|Hij].
    + rewrite list_lookup_insert_eq in Hj by (by eapply lookup_lt_Some). injection Hj as <-. by left.
    + rewrite list_lookup_insert_ne in Hj by done. right. split; [by eapply list_elem_of_lookup_2|]. intros E'. apply Hij.
      apply (NoDup_map_inj g_ID (grants_of r s) i j g0 g); [apply (acct_ids _ _ (inv_acct r Hinv s))|done..|congruence].
  - right. split; [done|]. intros E'. apply Hne, (inv_ids r Hinv s' s g0 g); [done..|congruence].
Qed.
Lemma RevokeGrant_elsewhere now id reason r s :
  id ∉ map g_ID (grants_of r s) -> grants_of (repo_RevokeGrant now id reason r) s = grants_of r s.
Proof.
  intros Hs. destruct (RevokeGrant_cases now id reason r) as [[_ ->]|(s' & i & g & Hi & Hg & ->)]; [done|].
  rewrite (revoke_at_grants _ _ _ _ _ _ _ g) by done. destruct (decide (s' = s)) as [->|]; [|done].
  destruct Hs. apply elem_of_map. exists g. split; [done|]. by eapply list_elem_of_lookup_2.
Qed.
Lemma revoke_all_closes st k grants rep r :
  ledger_inv r ->
  let '(e, rep', r') := revoke_all st k grants rep r in
  e = None /\ ledger_inv r' /\ fo_CreditsForgotten rep' = fo_CreditsForgotten rep + Z.of_nat (List.length grants) /\
  (forall s, deductions_of r' s = deductions_of r s) /\
  (forall s g, g ∈ grants_of r' s -> g_AmountRemaining g = 0 \/ g ∈ grants_of r s /\ g_ID g ∉ map g_ID grants) /\
  (forall s, Forall (fun g => g_ID g ∉ map g_ID (grants_of r s)) grants -> grants_of r' s = grants_of r s).
Proof.
  revert k rep r. induction grants as [|g grants IH]; intros k rep r Hinv; cbn [revoke_all].
  { split_and!; [done|done|cbn; lia|done| |done]. intros s g Hg. right. split; [done|]. apply not_elem_of_nil. }
  cbn [cr_RevokeGrant memory_CreditRepo]. set (r1 := repo_RevokeGrant (st_now (st k)) (g_ID g) "gdpr_forget" r).
  specialize (IH (S k) (count_forgotten rep) r1 ltac:(by apply RevokeGrant_inv)).
  destruct (revoke_all st (S k) grants _ r1) as [[e rep'] r']. destruct IH as (-> & Hinv' & Hn & Hd & Hz & Ho). split_and!; [done|done|..].
  - rewrite Hn. cbn. lia.
  - intros s. rewrite Hd. apply RevokeGrant_deductions.
  - intros s g' [Hg'|[Hg' Hid]]%Hz; [by left|]. destruct (RevokeGrant_closes _ _ _ _ _ _ Hinv Hg') as [?|[??]]; [by left|].
    right. split; [done|]. cbn. rewrite not_elem_of_cons. done.
  - intros s [Hg Hgs]%Forall_cons. assert (E : grants_of r1 s = grants_of r s) by (by apply RevokeGrant_elsewhere).
    rewrite <- E in Hgs |- *. by apply Ho.
Qed.
Lemma avail_closed t b gs : Forall (fun g => g_AmountRemaining g = 0) gs -> avail t b gs = 0.
Proof.
  unfold avail. induction 1 as [|g gs Hg _ IH]; [done|]. cbn [map]. rewrite sumZ_cons, IH. unfold spendable, eligible. by rewrite Hg.
Qed.
End forgotten.

(** ** After an erasure: the mapping, and trying again *)
Section afterwards.
Context {M L B A : Type} `{SubscriptionRepo M} `{CreditRepo L} `{StripeClient B} `{Sha256} (hooks : Hooks B A).

Lemma Forget_keeps st s (w : CustomersWorld memoryCustomerRepo M L B) rep err w' :
  Forget hooks st s w = (rep, err, w') ->
  wo_customers w' = wo_customers w /\ wo_mirror w' = wo_mirror w /\
  forall rep0, rep = Some rep0 -> mc_Get s (wo_customers w) = Some (fo_StripeCustomerID rep0).
Proof.
  destruct w as [c m l b]. unfold Forget, resolveStripeID. cbn. destruct (mc_Get s c) as [id|] eqn:Eg; [|by intros [= <- <- <-]].
  pose proof (cancel_report hooks id (mkForgetReport s id false 0 0 false None) b) as Hc. cbn in *.
  destruct (cancelActiveSubscriptions hooks id _ b) as [[[e|] rep1] b1]; cbn in Hc; destruct Hc as (_ & _ & Hid & _).
  { intros [= <- <- <-]. split_and!; [done..|]. intros rep0 [= <-]. by rewrite Hid. }
  pose proof (revoke_credits_report st s rep1 l) as [z Hz].
  destruct (revoke_credits st s rep1 l) as [[[e|] rep2] l2]; cbn in Hz; subst rep2.
  { intros [= <- <- <-]. split_and!; [done..|]. intros rep0 [= <-]. by rewrite <- Hid. }
  destruct (cl_Customers_Delete id b1) as [[e|] b2].
  { intros [= <- <- <-]. split_and!; [done..|]. intros rep0 [= <-]. by rewrite <- Hid. }
  match goal with |- context [call_hook hooks s ?r b2] => pose proof (call_hook_report hooks s r b2) as (_ & _ & Hh) end.
  destruct (call_hook _ _ _ _) as [[e rep3] b3]. cbn in Hh. intros [= <- <- <-]. split_and!; [done..|]. intros rep0 [= <-]. by rewrite Hh, Hid.
Qed.

(** Erasure does not forget the mapping: after a customer has been deleted, the next checkout
    of the subject is still made for that customer, and no new one is created. *)
Theorem deleted_customer_is_reused {B'} `{CheckoutBackend B'} ns st s (w : CustomersWorld memoryCustomerRepo M L B) rep err w' email (b' : B') :
  Forget hooks st s w = (Some rep, err, w') ->
  resolveCustomer ns s email (wo_customers w', b') = (Ok (fo_StripeCustomerID rep), (wo_customers w', b')).
Proof.
  intros (Hc & _ & Hid)%Forget_keeps. unfold resolveCustomer. cbn. by rewrite Hc, (Hid rep eq_refl).
Qed.

(** Stripe refuses to delete a customer that is deleted, and goes on refusing. *)
Context (gone : string -> B -> Prop).
Context (delete_gone : forall id b b', cl_Customers_Delete id b = (None, b') -> gone id b')
        (gone_refused : forall id b, gone id b -> exists e b', cl_Customers_Delete id b = (Some e, b') /\ gone id b')
        (gone_list : forall id c b, gone id b -> gone id (snd (cl_Subscriptions_List c b)))
        (gone_cancel : forall id i b, gone id b -> gone id (snd (cancel_call hooks i b)))
        (gone_hook : forall id f s b, hk_AppDataForgetter hooks = Some f -> gone id b -> gone id (snd (f s b))).

Lemma cancel_gone c id rep b : gone id b -> gone id (snd (cancelActiveSubscriptions hooks c rep b)).
Proof.
  intros Hg. unfold cancelActiveSubscriptions. pose proof (gone_list id c b Hg) as Hl.
  destruct (cl_Subscriptions_List c b) as [[subs [e|]] b1]; [done|]. cbn in Hl. clear Hg. revert rep b1 Hl.
  induction (active_ids subs) as [|i ids IH]; intros rep b1 Hg; cbn [cancel_all]; [done|].
  pose proof (gone_cancel id i b1 Hg) as Hc. destruct (cancel_call hooks i b1) as [[e|] b2]; [done|]. by apply IH.
Qed.
Definition refused (s id : string) (w : CustomersWorld memoryCustomerRepo M L B) : Prop :=
  mc_Get s (wo_customers w) = Some id /\ gone id (wo_outside w).
Lemma retry_refused st s id w rep err w' :
  refused s id w -> Forget hooks st s w = (rep, err, w') ->
  refused s id w' /\ err <> None /\ forall rep0, rep = Some rep0 -> fo_AppHookCalled rep0 = false.
Proof.
  destruct w as [c m l b]. intros [Hid Hg]. cbn in *. unfold Forget, resolveStripeID. cbn. rewrite Hid.
  pose proof (cancel_report hooks id (mkForgetReport s id false 0 0 false None) b) as Hc.
  pose proof (cancel_gone id id (mkForgetReport s id false 0 0 false None) b Hg) as Hg1. cbn in *.
  destruct (cancelActiveSubscriptions hooks id _ b) as [[[e|] rep1] b1]; cbn in Hc, Hg1; destruct Hc as (_ & _ & _ & Hh).
  { intros [= <- <- <-]. split_and!; [done|done|]. by intros rep0 [= <-]. }
  pose proof (revoke_credits_report st s rep1 l) as [z Hz].
  destruct (revoke_credits st s rep1 l) as [[[e|] rep2] l2]; cbn in Hz; subst rep2.
  { intros [= <- <- <-]. split_and!; [done|done|]. by intros rep0 [= <-]. }
  destruct (gone_refused id b1 Hg1) as (e & b2 & -> & Hg2). intros [= <- <- <-]. split_and!; [done|done|]. by intros rep0 [= <-].
Qed.

(** An erasure whose application hook failed cannot be completed by trying again: the customer
    is deleted by then, Stripe refuses to delete it once more, and however often Forget is
    repeated it ends in that error before the hook is reached. *)
Theorem forget_retry_misses_app st s (w : CustomersWorld memoryCustomerRepo M L B) rep err w' sts st' :
  Forget hooks st s w = (Some rep, err, w') -> fo_StripeCustomerDeleted rep = true ->
  let w'' := foldl (fun w st => snd (Forget hooks st s w)) w' sts in
  let '(rep', err', _) := Forget hooks st' s w'' in
  err' <> None /\ forall rep0, rep' = Some rep0 -> fo_AppHookCalled rep0 = false.
Proof.
  intros Hf Hdel. assert (Hr : refused s (fo_StripeCustomerID rep) w').
  { pose proof (Forget_keeps _ _ _ _ _ _ Hf) as (Hc & _ & Hid). split; [rewrite Hc; by apply Hid|].
    destruct (Forget_deleted_inv _ _ _ _ _ _ _ Hf Hdel) as (id & w1 & rep0 & b1 & rep1 & b2 & Hres & _ & _ & Hd & Hh).
    assert (fo_StripeCustomerID rep = id) as ->.
    { specialize (Hid rep eq_refl). unfold resolveStripeID in Hres. cbn in Hres. rewrite Hid in Hres. by injection Hres. }
    apply delete_gone in Hd. revert Hh. unfold call_hook. destruct (hk_AppDataForgetter hooks) as [f|] eqn:Ef; [|by intros [= _ _ <-]].
    pose proof (gone_hook id f s b2 eq_refl Hd) as Hg. destruct (f s b2) as [[e|] b3]; by intros [= _ _ <-]. }
  clear Hf. cbn zeta. revert w' Hr. induction sts as [|st0 sts IH]; intros w' Hr; cbn [foldl].
  - destruct (Forget hooks st' s w') as [[rep' err'] w''] eqn:E. destruct (retry_refused _ _ _ _ _ _ _ Hr E) as (_ & ? & ?). done.
  - apply IH. destruct (Forget hooks st0 s w') as [[rep' err'] w''] eqn:E. by destruct (retry_refused _ _ _ _ _ _ _ Hr E).
Qed.
End afterwards.

(** ** Import *)
Section import.
Context {L B : Type} `{GoRuntime} `{CreditRepo L} `{StripeClient B} `{Sha256}.
Abbreviation mirror := MemSubs.memoryRepo.

(** A row of the mirror is only replaced by one that is no older. *)
Definition not_older (m m' : mirror) : Prop :=
  forall id row, m !! id = Some row -> exists row', m' !! id = Some row' /\ sub_StripeUpdatedAt row <= sub_StripeUpdatedAt row'.
#[export] Instance not_older_preorder : PreOrder not_older.
Proof.
  split; [intros m id row Hrow; by exists row|]. intros m1 m2 m3 H12 H23 id row Hrow.
  destruct (H12 id row Hrow) as (row2 & Hrow2 & ?), (H23 id row2 Hrow2) as (row3 & Hrow3 & ?). exists row3. split; [done|lia].
Qed.
Lemma mem_Upsert_not_older s (m : mirror) :
  exists m', MemSubs.mem_Upsert s m = (None, m') /\ not_older m m' /\
    exists row, m' !! sub_StripeID s = Some row /\ sub_StripeUpdatedAt s <= sub_StripeUpdatedAt row.
Proof.
  unfold MemSubs.mem_Upsert. destruct (m !! sub_StripeID s) as [old|] eqn:Eo.
  - destruct (Z.ltb_spec (sub_StripeUpdatedAt s) (sub_StripeUpdatedAt old)).
    + exists m. split_and!; [done|done|]. exists old. split; [done|lia].
    + eexists. split_and!; [done| |exists s; by simplify_map_eq]. intros id row Hrow. destruct (decide (id = sub_StripeID s)) as [->|].
      * exists s. simplify_map_eq. split; [done|lia].
      * exists row. by simplify_map_eq.
  - eexists. split_and!; [done| |exists s; by simplify_map_eq]. intros id row Hrow. exists row. 
    rewrite lookup_insert_ne; [done|]. by intros <-; rewrite Hrow in Eo.
Qed.
Lemma imported_id s ss : sub_StripeID (projectImportedSubscription s ss) = xs_ID ss.
Proof. unfold projectImportedSubscription. by destruct (import_period _ _ _). Qed.

(** Stripe answers an update with the subscription it updated. *)
Context (stamp_same : forall id ns key (b : B) ss b', cl_Subscriptions_Stamp id ns key b = (Ok ss, b') -> xs_ID ss = id).
(** What is mirrored of a listed subscription: the listed one if it has the stamp, and else the
    answer to stamping it. *)
Definition read_back (ns : string) (ss ss' : stripe_subscription) : Prop :=
  ss' = ss \/ exists key (b b' : B), cl_Subscriptions_Stamp (xs_ID ss) ns key b = (Ok ss', b').
(** A row of the mirror after an import of [subs]: it is no older than the subscription, and it is
    the row there was or one that was imported. *)
Definition mirrored (s ns : string) (subs : list stripe_subscription) (m m' : mirror) (ss : stripe_subscription) : Prop :=
  exists row ss', m' !! xs_ID ss = Some row /\ read_back ns ss ss' /\
    sub_StripeUpdatedAt (projectImportedSubscription s ss') <= sub_StripeUpdatedAt row /\
    (m !! xs_ID ss = Some row \/
     exists ss2 ss2', ss2 ∈ subs /\ xs_ID ss2 = xs_ID ss /\ read_back ns ss2 ss2' /\ row = projectImportedSubscription s ss2').
Lemma read_back_id ns ss ss' : read_back ns ss ss' -> xs_ID ss' = xs_ID ss.
Proof. intros [->|(key & b & b' & E)]; [done|]. by eapply stamp_same. Qed.
Lemma backfill_loop_ok ctx s ns subs count (m : mirror) b count' m' b' :
  backfill_loop ctx s ns subs count m b = (count', None, m', b') ->
  count' = count + Z.of_nat (List.length subs) /\ not_older m m' /\
  (forall id, m' !! id = m !! id \/ exists ss2 ss2', ss2 ∈ subs /\ xs_ID ss2 = id /\ read_back ns ss2 ss2' /\
     m' !! id = Some (projectImportedSubscription s ss2')) /\
  Forall (fun ss => exists row ss', m' !! xs_ID ss = Some row /\ read_back ns ss ss' /\
    sub_StripeUpdatedAt (projectImportedSubscription s ss') <= sub_StripeUpdatedAt row) subs.
Proof.
  revert count m b. induction subs as [|ss subs IH]; intros count m b; cbn [backfill_loop].
  { intros [= <- <- <-]. split_and!; [cbn; lia|done|by left|constructor]. }
  destruct (if bool_decide _ then _ else _) as [[ss'|e] b1] eqn:Es; [|done].
  assert (Hr : read_back ns ss ss').
  { revert Es. destruct (bool_decide _); [intros [= <- _]; by left|]. intros Es. right. eauto. }
  cbn [sr_Upsert MemSubs.memory_SubscriptionRepo]. destruct (mem_Upsert_not_older (projectImportedSubscription s ss') m) as (m1 & Eu & Ho & row & Hrow & Hnew).
  assert (Hm1 : forall id, m1 !! id = m !! id \/ id = xs_ID ss /\ m1 !! id = Some (projectImportedSubscription s ss')).
  { intros id. revert Eu. unfold MemSubs.mem_Upsert. rewrite imported_id, (read_back_id _ _ _ Hr).
    repeat case_match; intros [= <-];
      first [by left|destruct (decide (id = xs_ID ss)) as [->|]; [right; by rewrite lookup_insert_eq|left; by rewrite lookup_insert_ne]]. }
  rewrite Eu. rewrite imported_id, (read_back_id _ _ _ Hr) in Hrow.
  intros (-> & Ho' & Hrows & Hf)%IH. split_and!; [cbn [List.length]; lia|by transitivity m1| |].
  - intros id. destruct (Hrows id) as [E|(ss2 & ss2' & Hin & Hid & Hr2 & E)]; [|right; exists ss2, ss2'; split; [by right|done]].
    rewrite E. destruct (Hm1 id) as [?|[-> E1]]; [by left|right; exists ss, ss'; split; [by left|done]].
  - constructor; [|done]. destruct (Ho' _ _ Hrow) as (row' & Hrow' & Hle). exists row', ss'. split; [done|]. split; [done|]. lia.
Qed.
Lemma backfill_loop_mirrored ctx s ns subs count (m : mirror) b count' m' b' :
  backfill_loop ctx s ns subs count m b = (count', None, m', b') -> Forall (mirrored s ns subs m m') subs.
Proof.
  intros (_ & _ & Hrows & Hf)%backfill_loop_ok. eapply Forall_impl; [exact Hf|]. intros ss (row & ss' & Hrow & Hr & Hle).
  exists row, ss'. split_and!; [done..|]. destruct (Hrows (xs_ID ss)) as [E|(ss2 & ss2' & Hin & Hid & Hr2 & E)]; rewrite Hrow in E; [by left|].
  right. exists ss2, ss2'. injection E as ->. done.
Qed.

Lemma backfill_loop_error ctx s ns subs count (m : mirror) (b : B) : snd (fst (fst (backfill_loop ctx s ns subs count m b))) <> Some ErrNamespaceConflict.
Proof.
  revert count m b. induction subs as [|ss subs IH]; intros count m b; cbn [backfill_loop]; [done|].
  destruct (if bool_decide _ then _ else _) as [[ss'|e] b1]; [|done]. by destruct (sr_Upsert _ m) as [[e|] m1].
Qed.
Lemma backfill_ok ctx s id ns (m : mirror) b n e m' b' :
  backfillSubscriptions ctx s id ns m b = (n, e, m', b') ->
  e <> Some ErrNamespaceConflict /\ (e = None -> exists subs b1, cl_Subscriptions_List id b = ((subs, None), b1) /\
    n = Z.of_nat (List.length subs) /\ not_older m m' /\ Forall (mirrored s ns subs m m') subs).
Proof.
  unfold backfillSubscriptions. destruct (cl_Subscriptions_List id b) as [[subs lerr] b1].
  pose proof (backfill_loop_error ctx s ns subs 0 m b1) as Hne.
  destruct (backfill_loop ctx s ns subs 0 m b1) as [[[count [e1|]] m1] b2] eqn:El; cbn in Hne; intros [= <- <- <- <-]; [done|].
  pose proof (backfill_loop_mirrored _ _ _ _ _ _ _ _ _ _ El) as Hf. apply backfill_loop_ok in El as (-> & Ho & _).
  split; [by destruct lerr|]. intros He. exists subs, b1. by destruct lerr.
Qed.
Lemma stamp_customer_ok ctx input existing result (b : B) result' e b' :
  stamp_customer ctx input existing result b = (result', e, b') ->
  (e = Some ErrNamespaceConflict <-> (exists ns, existing = Some ns /\ ns <> im_Namespace input) /\ im_AdoptNamespace input = false) /\
  (e = Some ErrNamespaceConflict -> b' = b) /\
  (e = None -> if bool_decide (existing = Some (im_Namespace input)) then b' = b
   else cl_Customers_Stamp (im_StripeCustomerID input) (im_Namespace input)
          (ApplyIdempotencyKey ctx "customers.import.stamp" [im_StripeCustomerID input; im_Namespace input]) b = (None, b')).
Proof.
  unfold stamp_customer. case_bool_decide as Hex.
  - subst existing. rewrite String.eqb_refl. intros [= _ <- <-]. split_and!; [|done|done]. split; [done|]. by intros [(ns & [= <-] & ?) _].
  - destruct existing as [ns|]; [rewrite (proj2 (String.eqb_neq ns (im_Namespace input))) by congruence; destruct (im_AdoptNamespace input); cbn [negb]|].
    + destruct (cl_Customers_Stamp _ _ _ b) as [[msg|] b1]; intros [= _ <- <-]; (split_and!; [split; [done|by intros [_ ?]]|done|done]).
    + intros [= _ <- <-]. split_and!; [|done|done]. split; [|done]. intros _. split; [exists ns; split; [done|congruence]|done].
    + destruct (cl_Customers_Stamp _ _ _ b) as [[msg|] b1]; intros [= _ <- <-]; (split_and!; [split; [done|by intros [(? & ? & _) _]]|done|done]).
Qed.

End import.

Module CustomersDemo.
Import KeysDemo.
(** Stripe, for evaluation: the subscriptions of one customer, and who is deleted. *)
Record demo_stripe := mkDemo { ds_subs : list stripe_subscription; ds_deleted : list string }.
Definition set_xs (status : string) (meta : smap) (s : stripe_subscription) : stripe_subscription :=
  mkStripeSub (xs_ID s) status (xs_Customer s) (xs_Items s) (xs_CancelAtPeriodEnd s) (xs_CanceledAt s) (xs_EndedAt s) (xs_TrialEnd s)
    (xs_Created s) meta.
Definition find_sub (id : string) (b : demo_stripe) : option stripe_subscription := List.find (fun s => String.eqb (xs_ID s) id) (ds_subs b).
#[export] Instance demo_client : StripeClient demo_stripe := {
  cl_Customers_Retrieve id b := (Ok (mkStripeCustomer id "a@b.c" "" "" "" "eur" 0 0 ∅ None), b);
  cl_Customers_Stamp id ns key b := (None, b);
  cl_Customers_Delete id b :=
    if bool_decide (id ∈ ds_deleted b) then (Some "resource_missing", b) else (None, mkDemo (ds_subs b) (id :: ds_deleted b));
  cl_Subscriptions_List id b := ((ds_subs b, None), b);
  cl_Subscriptions_Stamp id ns key b :=
    match find_sub id b with
    | Some s => (Ok (set_xs (xs_Status s) (<[MetadataKeyNamespace := ns]> (xs_Metadata s)) s), b)
    | None => (Err "resource_missing", b)
    end;
  cl_Subscriptions_Cancel id b :=
    (None, mkDemo (map (fun s => if String.eqb (xs_ID s) id then set_xs "canceled" (xs_Metadata s) s else s) (ds_subs b)) (ds_deleted b));
  cl_Invoices_List id b := (([], None), b);
  cl_Charges_List id b := (([], None), b);
  cl_TaxIDs_List id b := (([], None), b);
  cl_PaymentMethods_List id b := (([], None), b);
  cl_TaxIDs_Create id type value key b := (Ok (mkStripeTaxID "txi_1" type value "" 0 None), b);
  cl_TaxIDs_Delete tid id b := (None, b);
}.
Definition sub (id status : string) : stripe_subscription :=
  mkStripeSub id status (Some "cus_1") None false 0 0 0 1700000000 {["subject_id" := "user_1"]}.
Definition outside : demo_stripe := mkDemo [sub "sub_1" "active"; sub "sub_2" "canceled"; sub "sub_3" "past_due"] [].
(** The application's own hook is down. *)
Definition hooks (up : bool) : Hooks demo_stripe unit :=
  mkHooks None (Some (fun s b => ((if up : bool then None else Some "timeout"), b))) None.
Definition world : CustomersWorld memoryCustomerRepo MemSubs.memoryRepo memoryRepo demo_stripe :=
  mkCustomersWorld (mkMemoryCustomers {["user_1" := "cus_1"]}) (Some ∅) (Some Demo.repo) outside.
Definition st (k : nat) : stamp := Demo.at_ 500 "x".
Definition report (up : bool) : ForgetReport := mkForgetReport "user_1" "cus_1" true 2 3 true (if up then None else Some "timeout").

Definition noted_run := Forget (note_hooks (hooks true)) st "user_1" (noted_world world).
Lemma noted_run_eq : noted_run = (Some (report true), None, snd noted_run).
Proof. vm_compute. reflexivity. Qed.
Lemma Forget_in_order_witness :
  nd_done (wo_outside (snd noted_run)) = [Cancelled "sub_1"; Cancelled "sub_3"; Deleted "cus_1"; AppForgot "user_1"].
Proof.
  destruct (Forget_in_order (hooks true) st "user_1" world (report true) None _ noted_run_eq)
    as (subs & e & El & k & _ & Hd & [Hk _] & _). rewrite (Hk eq_refl) in Hd. injection El as <- <-. exact Hd.
Defined.
Definition run := Forget (hooks false) st "user_1" world.
Lemma run_eq : run = (Some (report false), Some (CuApp "timeout"), snd run).
Proof. vm_compute. reflexivity. Qed.
#[local] Existing Instance CheckoutDemo.demo_backend.
Lemma deleted_customer_is_reused_witness :
  fst (resolveCustomer (B := list SessionCreate) "demo" "user_1" "a@b.c" (wo_customers (snd run), [])) = Ok "cus_1".
Proof. by rewrite (deleted_customer_is_reused (hooks false) "demo" st "user_1" world (report false) _ _ "a@b.c" [] run_eq). Defined.
(** Trying again, with the hook up or not. *)
Lemma forget_retry_misses_app_witness :
  let w := snd (Forget (hooks false) st "user_1" (snd run)) in
  let '(rep, err, _) := Forget (hooks false) st "user_1" w in
  err <> None /\ forall rep0, rep = Some rep0 -> fo_AppHookCalled rep0 = false.
Proof.
  apply (forget_retry_misses_app (hooks false) (fun id b => id ∈ ds_deleted b)) with (sts := [st]) (w := world) (st := st) (rep := report false) (err := Some (CuApp "timeout")).
  - intros id b b'. cbn. destruct (bool_decide _); [done|]. intros [= <-]. cbn. set_solver.
  - intros id b Hid. cbn. rewrite bool_decide_true by done. by eexists _, _.
  - done.
  - intros id i b Hid. done.
  - intros id f s b [= <-]. done.
  - exact run_eq.
  - done.
Defined.
(** A subscription created at 1700000000 and cancelled since, as Stripe holds it now, and an
    event of a minute after its creation that is delivered after the import. *)
Definition canceled_world : CustomersWorld memoryCustomerRepo MemSubs.memoryRepo memoryRepo demo_stripe :=
  mkCustomersWorld NewMemoryCustomerRepo (Some ∅) None (mkDemo [sub "sub_1" "canceled"] []).
Definition late : Event := SubscriptionWitnesses.event "evt_1" "customer.subscription.updated" "active" 1700000060.
Definition statuses (w : option MemSubs.memoryRepo) : option string := m ← w; row ← m !! "sub_1"; Some (sub_Status row).
Definition input : ImportCustomerInput := mkImportInput "user_1" "cus_1" "demo" false true.
Definition imported := ImportCustomer "" input world.
Lemma imported_eq : imported = (Some (mkImportResult "user_1" "cus_1" true false "" 3), None, snd imported).
Proof. vm_compute. reflexivity. Qed.

(** An import can be undone by an old event. The imported row is dated by the creation of the
    subscription and not by what was read, so that a late event about an earlier state
    replaces it: a cancelled subscription grants access again. *)
Theorem late_event_undoes_import :
  let '(_, err, w) := ImportCustomer "" input canceled_world in
  err = None /\ statuses (wo_mirror w) = Some "canceled" /\
  statuses ((fun m => snd (ApplyEventToMirror 1 2 None late m)) <$> wo_mirror w) = Some "active".
Proof. vm_compute. done. Qed.
End CustomersDemo.
