(* ===== verification/PortalConfig.v ===== *)
(** * PortalConfig: the configuration of the customer portal, declared and synced
      (src/checkout/portalconfig/portalconfig.go).

    The client of Stripe is the class [PortalApi] over its state. A pointer of stripe-go is an
    option; the parameters of a creation and of an update are one type, since the two
    of stripe-go have the same fields. *)
From S2P Require Import Prelude Json Events StripeApi Customers.

(** ** The declared configuration *)
Record CustomerUpdateFeature := mkCustomerUpdate { cuf_Enabled : bool; cuf_AllowedFields : list string }.
Record SubscriptionCancelFeature := mkSubCancel { scf_Enabled : bool; scf_Mode : string; scf_ProrationBehavior : string }.
Record SubscriptionUpdateProduct := mkUpdateProduct { sup_StripeProductID : string; sup_StripePriceIDs : list string }.
Record SubscriptionUpdateFeature := mkSubUpdate {
  suf_Enabled : bool; suf_DefaultAllowedUpdates : list string; suf_ProrationBehavior : string; suf_Products : list SubscriptionUpdateProduct }.
Record Features := mkFeatures {
  fe_CustomerUpdate : CustomerUpdateFeature; fe_InvoiceHistoryEnabled : bool; fe_PaymentMethodUpdateEnabled : bool;
  fe_SubscriptionCancel : SubscriptionCancelFeature; fe_SubscriptionUpdate : SubscriptionUpdateFeature }.
Record PortalSpec := mkPortalSpec {
  po_Namespace : string; po_Name : string; po_DefaultReturnURL : string; po_BusinessHeadline : string; po_PrivacyPolicyURL : string;
  po_TermsOfServiceURL : string; po_Features : Features }.
Definition Validate (s : PortalSpec) : option string :=
  if String.eqb (po_Namespace s) "" then Some "portalconfig: Namespace is required"
  else if String.eqb (po_DefaultReturnURL s) "" then Some "portalconfig: DefaultReturnURL is required"
  else None.

(** ** The configuration of Stripe, and the parameters that change it *)
Record business_profile := mkProfile { bp_Headline : string; bp_PrivacyPolicyURL : string; bp_TermsOfServiceURL : string }.
Record portal_features := mkPortalFeatures {
  pf_InvoiceHistory : option bool; pf_PaymentMethodUpdate : option bool; pf_CustomerUpdate : option (bool * list string);
  pf_SubscriptionCancel : option (bool * string * string);
  pf_SubscriptionUpdate : option (bool * string * list string * list (string * list string)) }.
Record portal_configuration := mkConfiguration {
  bc_ID : string; bc_Created : Z; bc_Metadata : smap; bc_Name : string; bc_DefaultReturnURL : string;
  bc_BusinessProfile : option business_profile; bc_Features : option portal_features }.
Record profile_params := mkProfileParams {
  pp_Headline : option string; pp_PrivacyPolicyURL : option string; pp_TermsOfServiceURL : option string }.
(** The lists are left out when they are empty. *)
Record features_params := mkFeaturesParams {
  fp_InvoiceHistory : bool; fp_PaymentMethodUpdate : bool; fp_CustomerUpdate : bool; fp_AllowedUpdates : list string;
  fp_SubscriptionCancel : bool; fp_CancelMode : option string; fp_CancelProration : option string;
  fp_SubscriptionUpdate : bool; fp_UpdateProration : option string; fp_DefaultAllowedUpdates : list string;
  fp_Products : list (string * list string) }.
Record portal_params := mkPortalParams {
  px_Name : string; px_DefaultReturnURL : string; px_BusinessProfile : profile_params; px_Features : features_params; px_Metadata : smap }.
Class PortalApi (B : Type) := {
  pa_List : B -> listing portal_configuration * B;
  (** the last argument is the idempotency key *)
  pa_Create : portal_params -> string -> B -> res string portal_configuration * B;
  pa_Update : string -> portal_params -> string -> B -> res string portal_configuration * B;
}.

(** ** Building parameters *)
Definition nilIfEmpty (s : string) : option string := if String.eqb s "" then None else Some s.
Definition resolveName (spec : PortalSpec) : string :=
  if negb (String.eqb (po_Name spec) "") then po_Name spec else po_Namespace spec ^^ " portal".
(** [strings.ToLower], on ASCII. *)
Definition to_lower (s : string) : string := NormalizeCurrency s.
Definition buildCreateFeaturesParams (f : Features) : features_params :=
  let cu := fe_CustomerUpdate f in let sc := fe_SubscriptionCancel f in let su := fe_SubscriptionUpdate f in
  mkFeaturesParams (fe_InvoiceHistoryEnabled f) (fe_PaymentMethodUpdateEnabled f)
    (cuf_Enabled cu) (if cuf_Enabled cu then map to_lower (cuf_AllowedFields cu) else [])
    (scf_Enabled sc) (if scf_Enabled sc then nilIfEmpty (scf_Mode sc) else None)
    (if scf_Enabled sc then nilIfEmpty (scf_ProrationBehavior sc) else None)
    (suf_Enabled su) (if suf_Enabled su then nilIfEmpty (suf_ProrationBehavior su) else None)
    (if suf_Enabled su then suf_DefaultAllowedUpdates su else [])
    (if suf_Enabled su then map (fun p => (sup_StripeProductID p, sup_StripePriceIDs p)) (suf_Products su) else []).
(** The code says the same again for an update. *)
Definition buildUpdateFeaturesParams (f : Features) : features_params := buildCreateFeaturesParams f.
Definition profile_of (spec : PortalSpec) : profile_params :=
  mkProfileParams (nilIfEmpty (po_BusinessHeadline spec)) (nilIfEmpty (po_PrivacyPolicyURL spec)) (nilIfEmpty (po_TermsOfServiceURL spec)).
Definition buildCreateParams (spec : PortalSpec) : portal_params :=
  mkPortalParams (resolveName spec) (po_DefaultReturnURL spec) (profile_of spec) (buildCreateFeaturesParams (po_Features spec)) ∅.
Definition buildUpdateParams (spec : PortalSpec) : portal_params :=
  mkPortalParams (resolveName spec) (po_DefaultReturnURL spec) (profile_of spec) (buildUpdateFeaturesParams (po_Features spec)) ∅.
Definition AddMetadata (k v : string) (p : portal_params) : portal_params :=
  mkPortalParams (px_Name p) (px_DefaultReturnURL p) (px_BusinessProfile p) (px_Features p) (<[k := v]> (px_Metadata p)).

(** ** Comparing *)
Definition enabled (p : option bool) : bool := default false p.
Definition boolFromInvoiceHistory (p : option bool) : bool := enabled p.
Definition boolFromPMUpdate (p : option bool) : bool := enabled p.
Definition boolFromCustomerUpdate (p : option (bool * list string)) : bool := enabled (fst <$> p).
Definition boolFromSubCancel (p : option (bool * string * string)) : bool := enabled ((fun x => x.1.1) <$> p).
Definition boolFromSubUpdate (p : option (bool * string * list string * list (string * list string))) : bool :=
  enabled ((fun x => x.1.1.1) <$> p).
Definition neq_str (a b : string) : bool := negb (String.eqb a b).
Definition neq_bool (a b : bool) : bool := negb (Bool.eqb a b).
Definition specDiffersFromExisting (spec : PortalSpec) (existing : portal_configuration) : bool :=
  let f := po_Features spec in
  neq_str (po_DefaultReturnURL spec) (bc_DefaultReturnURL existing) ||
  match bc_BusinessProfile existing with
  | Some bp => neq_str (po_BusinessHeadline spec) (bp_Headline bp) || neq_str (po_PrivacyPolicyURL spec) (bp_PrivacyPolicyURL bp) ||
               neq_str (po_TermsOfServiceURL spec) (bp_TermsOfServiceURL bp)
  | None => neq_str (po_BusinessHeadline spec) "" || neq_str (po_PrivacyPolicyURL spec) "" || neq_str (po_TermsOfServiceURL spec) ""
  end ||
  match bc_Features existing with
  | Some p => neq_bool (fe_InvoiceHistoryEnabled f) (boolFromInvoiceHistory (pf_InvoiceHistory p)) ||
              neq_bool (fe_PaymentMethodUpdateEnabled f) (boolFromPMUpdate (pf_PaymentMethodUpdate p)) ||
              neq_bool (cuf_Enabled (fe_CustomerUpdate f)) (boolFromCustomerUpdate (pf_CustomerUpdate p)) ||
              neq_bool (scf_Enabled (fe_SubscriptionCancel f)) (boolFromSubCancel (pf_SubscriptionCancel p)) ||
              neq_bool (suf_Enabled (fe_SubscriptionUpdate f)) (boolFromSubUpdate (pf_SubscriptionUpdate p))
  | None => false
  end.

(** ** Sync *)
Record SyncResult := mkSyncResult { sy_ConfigID : string; sy_Created : bool; sy_Updated : bool; sy_Unchanged : bool }.
Inductive portal_error := PoInvalid (msg : string) | PoFind (msg : string) | PoUpdate (id msg : string) | PoCreate (msg : string).
(** The newest, and the first of those. *)
Definition newest (first : portal_configuration) (rest : list portal_configuration) : portal_configuration :=
  foldl (fun newest c => if bc_Created newest <? bc_Created c then c else newest) first rest.
Definition in_namespace (ns : string) (c : portal_configuration) : bool := String.eqb (mget (bc_Metadata c) MetadataKeyNamespace) ns.
Section sync.
Context {B : Type} `{PortalApi B} `{Sha256}.
Definition findByNamespace (ns : string) (b : B) : res string (option portal_configuration) * B :=
  match pa_List b with
  | ((_, Some e), b) => (Err e, b)
  | ((l, None), b) =>
      (Ok (match List.filter (in_namespace ns) l with [] => None | c :: rest => Some (newest c rest) end), b)
  end.
Definition Sync (ctx : string) (spec : PortalSpec) (b : B) : res portal_error SyncResult * B :=
  match Validate spec with
  | Some e => (Err (PoInvalid e), b)
  | None =>
      match findByNamespace (po_Namespace spec) b with
      | (Err e, b) => (Err (PoFind e), b)
      | (Ok (Some existing), b) =>
          if negb (specDiffersFromExisting spec existing) then (Ok (mkSyncResult (bc_ID existing) false false true), b)
          else
          match pa_Update (bc_ID existing) (AddMetadata MetadataKeyNamespace (po_Namespace spec) (buildUpdateParams spec))
                  (ApplyIdempotencyKey ctx "portalconfig.update" [po_Namespace spec; bc_ID existing]) b with
          | (Err e, b) => (Err (PoUpdate (bc_ID existing) e), b)
          | (Ok updated, b) => (Ok (mkSyncResult (bc_ID updated) false true false), b)
          end
      | (Ok None, b) =>
          match pa_Create (AddMetadata MetadataKeyNamespace (po_Namespace spec) (buildCreateParams spec))
                  (ApplyIdempotencyKey ctx "portalconfig.create" [po_Namespace spec]) b with
          | (Err e, b) => (Err (PoCreate e), b)
          | (Ok created, b) => (Ok (mkSyncResult (bc_ID created) true false false), b)
          end
      end
  end.
End sync.
