(* ===== verification/PortalConfigFacts.v ===== *)
(** * PortalConfigFacts: when a sync of the portal configuration settles. *)
From S2P Require Import Prelude Json Events StripeApi Customers PortalConfig.

(** ** What Stripe does with an update: what is not given is left as it is *)
Definition merge_profile (p : profile_params) (o : option business_profile) : option business_profile :=
  let old := default (mkProfile "" "" "") o in
  Some (mkProfile (default (bp_Headline old) (pp_Headline p)) (default (bp_PrivacyPolicyURL old) (pp_PrivacyPolicyURL p))
          (default (bp_TermsOfServiceURL old) (pp_TermsOfServiceURL p))).
Definition or_old {A} (new old : list A) : list A := match new with [] => old | _ => new end.
Definition no_features : portal_features := mkPortalFeatures None None None None None.
Definition merge_features (p : features_params) (o : option portal_features) : option portal_features :=
  let old := default no_features o in
  let cancel := default (false, "", "") (pf_SubscriptionCancel old) in
  let update := default (false, "", [], []) (pf_SubscriptionUpdate old) in
  Some (mkPortalFeatures (Some (fp_InvoiceHistory p)) (Some (fp_PaymentMethodUpdate p))
    (Some (fp_CustomerUpdate p, or_old (fp_AllowedUpdates p) (default [] (snd <$> pf_CustomerUpdate old))))
    (Some (fp_SubscriptionCancel p, default cancel.1.2 (fp_CancelMode p), default cancel.2 (fp_CancelProration p)))
    (Some (fp_SubscriptionUpdate p, default update.1.1.2 (fp_UpdateProration p), or_old (fp_DefaultAllowedUpdates p) update.1.2,
           or_old (fp_Products p) update.2))).
Definition merge (p : portal_params) (c : portal_configuration) : portal_configuration :=
  mkConfiguration (bc_ID c) (bc_Created c) (px_Metadata p ∪ bc_Metadata c) (px_Name p) (px_DefaultReturnURL p)
    (merge_profile (px_BusinessProfile p) (bc_BusinessProfile c)) (merge_features (px_Features p) (bc_Features c)).
Definition blank (id : string) (created : Z) : portal_configuration := mkConfiguration id created ∅ "" "" None None.
Definition replace_id (id : string) (c' : portal_configuration) (l : list portal_configuration) : list portal_configuration :=
  map (fun c => if String.eqb (bc_ID c) id then c' else c) l.

(** The configurations Stripe holds. A call under a key that was used before has no effect;
    a call that fails has none either. *)
Class PortalLaws (B : Type) `{PortalApi B} := {
  configs : B -> list portal_configuration;
  key_used : string -> B -> Prop;
  list_configs : forall b l e b', pa_List b = ((l, e), b') -> configs b' = configs b /\ (e = None -> l = configs b);
  update_effect : forall id p key b r b', pa_Update id p key b = (r, b') ->
    configs b' = configs b \/ exists c, c ∈ configs b /\ bc_ID c = id /\ configs b' = replace_id id (merge p c) (configs b);
  update_done : forall id p key b c' b', pa_Update id p key b = (Ok c', b') -> ~ key_used key b ->
    exists c, c ∈ configs b /\ bc_ID c = id /\ c' = merge p c /\ configs b' = replace_id id c' (configs b);
  create_done : forall p key b c b', pa_Create p key b = (Ok c, b') -> ~ key_used key b ->
    exists id created, c = merge p (blank id created) /\ configs b' = c :: configs b;
}.

(** ** The newest configuration *)
Lemma newest_elem c l : newest c l ∈ c :: l.
Proof.
  unfold newest. revert c. induction l as [|x l IH]; intros c; cbn [foldl]; [by left|].
  specialize (IH (if bc_Created c <? bc_Created x then x else c)). apply elem_of_cons in IH as [->|?]; [|by right; right].
  destruct (_ <? _); [right|]; by left.
Qed.
Lemma newest_map (f : portal_configuration -> portal_configuration) c l :
  (forall x, x ∈ c :: l -> bc_Created (f x) = bc_Created x) -> newest (f c) (map f l) = f (newest c l).
Proof.
  unfold newest. revert c. induction l as [|x l IH]; intros c Hf; cbn [foldl map]; [done|].
  rewrite !Hf by (by left || by right; left). rewrite <- IH.
  - by destruct (_ <? _).
  - intros y [->|Hy]%elem_of_cons; [destruct (_ <? _); apply Hf; [right|]; by left|apply Hf; by right; right].
Qed.
Lemma filter_map_same (f : portal_configuration -> portal_configuration) p l :
  (forall x, x ∈ l -> p (f x) = p x) -> List.filter p (map f l) = map f (List.filter p l).
Proof.
  induction l as [|x l IH]; intros Hf; [done|]. cbn. rewrite Hf by (by left). rewrite IH by (intros y Hy; apply Hf; by right). by destruct (p x).
Qed.
Definition find_in (ns : string) (l : list portal_configuration) : option portal_configuration :=
  match List.filter (in_namespace ns) l with [] => None | c :: rest => Some (newest c rest) end.
Lemma find_in_elem ns l c : find_in ns l = Some c -> c ∈ l /\ in_namespace ns c = true.
Proof.
  unfold find_in. destruct (List.filter _ l) as [|c0 rest] eqn:E; [done|]. intros [= <-].
  pose proof (newest_elem c0 rest) as Hin. rewrite <- E in Hin. by apply list_elem_of_In, filter_In in Hin as [Hin%list_elem_of_In ?].
Qed.
Lemma find_replace ns l c c' :
  NoDup (map bc_ID l) -> find_in ns l = Some c -> in_namespace ns c' = true -> bc_Created c' = bc_Created c ->
  find_in ns (replace_id (bc_ID c) c' l) = Some c'.
Proof.
  intros Hnd Hfind Hns Hcr. pose proof (find_in_elem _ _ _ Hfind) as [Hc Hcns].
  assert (Hu : forall x, x ∈ l -> bc_ID x = bc_ID c -> x = c).
  { intros x [i Hi]%list_elem_of_lookup E. apply list_elem_of_lookup in Hc as [j Hj].
    rewrite (NoDup_map_inj bc_ID l i j x c Hnd Hi Hj E) in Hi. congruence. }
  unfold find_in, replace_id in *. set (f := fun x => if String.eqb (bc_ID x) (bc_ID c) then c' else x).
  rewrite (filter_map_same f).
  2:{ intros x Hx. unfold f. destruct (String.eqb_spec (bc_ID x) (bc_ID c)) as [E|]; [|done]. rewrite (Hu x Hx E). congruence. }
  destruct (List.filter _ l) as [|c0 rest] eqn:Ef; [done|]. injection Hfind as Hn. cbn [map]. f_equal. rewrite newest_map.
  - rewrite Hn. unfold f. by rewrite String.eqb_refl.
  - intros x Hx. rewrite <- Ef in Hx. apply list_elem_of_In, filter_In in Hx as [Hx%list_elem_of_In _]. unfold f.
    destruct (String.eqb_spec (bc_ID x) (bc_ID c)) as [E|]; [|done]. by rewrite (Hu x Hx E).
Qed.

(** ** Settling *)
(** A text that is to be cleared: declared empty, and not empty at Stripe. *)
Definition clears (spec : PortalSpec) (c : portal_configuration) : Prop := exists bp, bc_BusinessProfile c = Some bp /\
  (po_BusinessHeadline spec = "" /\ bp_Headline bp <> "" \/ po_PrivacyPolicyURL spec = "" /\ bp_PrivacyPolicyURL bp <> "" \/
   po_TermsOfServiceURL spec = "" /\ bp_TermsOfServiceURL bp <> "").
Definition params_of (spec : PortalSpec) : portal_params := AddMetadata MetadataKeyNamespace (po_Namespace spec) (buildUpdateParams spec).
Lemma merged_text new old : (new = "" -> old = "") -> default old (nilIfEmpty new) = new.
Proof. unfold nilIfEmpty. destruct (String.eqb_spec new "") as [->|]; [|done]. cbn. intros E. by rewrite E. Qed.
Lemma neq_str_refl s : neq_str s s = false.
Proof. unfold neq_str. by rewrite String.eqb_refl. Qed.
Lemma neq_bool_refl b : neq_bool b b = false.
Proof. by destruct b. Qed.
Lemma merged_namespace spec c : in_namespace (po_Namespace spec) (merge (params_of spec) c) = true.
Proof.
  unfold in_namespace, mget. cbn. rewrite (lookup_union_Some_l _ _ _ (po_Namespace spec)) by (by simplify_map_eq). cbn. apply String.eqb_refl.
Qed.
Lemma merged_profile spec c :
  ~ clears spec c ->
  merge_profile (profile_of spec) (bc_BusinessProfile c) =
    Some (mkProfile (po_BusinessHeadline spec) (po_PrivacyPolicyURL spec) (po_TermsOfServiceURL spec)).
Proof.
  intros Hc. unfold merge_profile, profile_of. cbn. destruct (bc_BusinessProfile c) as [bp|] eqn:Ebp; cbn; [|by rewrite !merged_text].
  assert (Hn : forall new old, (new = "" /\ old <> "" -> clears spec c) -> default old (nilIfEmpty new) = new).
  { intros new old Hcl. apply merged_text. intros E. destruct (decide (old = "")); [done|]. destruct Hc. by apply Hcl. }
  rewrite !Hn; [done|..]; intros Hcl; exists bp; (split; [done|]); tauto.
Qed.
Lemma merged_matches spec c : ~ clears spec c -> specDiffersFromExisting spec (merge (params_of spec) c) = false.
Proof.
  intros Hc. unfold specDiffersFromExisting.
  change (bc_BusinessProfile (merge (params_of spec) c)) with (merge_profile (profile_of spec) (bc_BusinessProfile c)).
  rewrite merged_profile by done. cbn. by rewrite !neq_str_refl, !neq_bool_refl.
Qed.

Section settles.
Context {B : Type} `{PortalLaws B} `{Sha256}.
Lemma findByNamespace_spec ns b r b' :
  findByNamespace ns b = (r, b') -> configs b' = configs b /\ (forall found, r = Ok found -> found = find_in ns (configs b)) /\ b' = snd (pa_List b).
Proof.
  unfold findByNamespace. destruct (pa_List b) as [[l [e|]] b1] eqn:El; destruct (list_configs _ _ _ _ El) as [Hc Hl]; intros [= <- <-].
  - done.
  - split; [done|]. split; [|done]. intros found [= <-]. by rewrite (Hl eq_refl).
Qed.
Lemma Sync_unchanged ctx spec b r b' c :
  find_in (po_Namespace spec) (configs b) = Some c -> specDiffersFromExisting spec c = false ->
  Sync ctx spec b = (Ok r, b') -> r = mkSyncResult (bc_ID c) false false true /\ b' = snd (pa_List b).
Proof.
  intros Hf Hd. unfold Sync. destruct (Validate spec); [done|]. destruct (findByNamespace _ b) as [[found|e] b1] eqn:Eb; [|done].
  apply findByNamespace_spec in Eb as (_ & Hfound & ->). rewrite (Hfound _ eq_refl), Hf, Hd. cbn. by intros [= <- <-].
Qed.

(** A sync settles. After a successful sync that did not have to clear a text, the next one of the
    same declaration that succeeds finds nothing to do: it says so of the same configuration
    and only lists. *)
Theorem portal_sync_settles ctx ctx' spec b r b' r2 b2 :
  NoDup (map bc_ID (configs b)) -> Sync ctx spec b = (Ok r, b') ->
  (forall c, c ∈ configs b -> in_namespace (po_Namespace spec) c = true -> ~ clears spec c) ->
  (forall op inputs, ~ key_used (ApplyIdempotencyKey ctx op inputs) (snd (pa_List b))) ->
  Sync ctx' spec b' = (Ok r2, b2) ->
  r2 = mkSyncResult (sy_ConfigID r) false false true /\ b2 = snd (pa_List b').
Proof.
  intros Hnd Hs1 Hclear Hkey Hs2. unfold Sync in Hs1. destruct (Validate spec); [done|].
  destruct (findByNamespace _ b) as [[found|e] b1] eqn:Eb; [|done]. apply findByNamespace_spec in Eb as (Hc1 & Hfound & ->).
  specialize (Hfound _ eq_refl). subst found. destruct (find_in (po_Namespace spec) (configs b)) as [c|] eqn:Ef.
  - pose proof (find_in_elem _ _ _ Ef) as [Hin Hns]. destruct (specDiffersFromExisting spec c) eqn:Ed; cbn [negb] in Hs1.
    + fold (params_of spec) in Hs1. destruct (pa_Update _ _ _ _) as [[u|e] b3] eqn:Eu; [|done]. injection Hs1 as <- <-.
      apply update_done in Eu as (c0 & Hc0 & Hid & -> & Hcfg); [|apply Hkey]. rewrite Hc1 in Hc0, Hcfg.
      assert (c0 = c) as ->.
      { apply list_elem_of_lookup in Hc0 as [i Hi], Hin as [j Hj]. rewrite (NoDup_map_inj bc_ID _ i j c0 c Hnd Hi Hj Hid) in Hi. congruence. }
      apply (Sync_unchanged ctx' spec b3 r2 b2 (merge (params_of spec) c)) in Hs2; [done| |].
      * rewrite Hcfg. apply find_replace; [done|done|apply merged_namespace|done].
      * by apply merged_matches, Hclear.
    + injection Hs1 as <- <-. apply (Sync_unchanged ctx' spec _ r2 b2 c) in Hs2; [done|by rewrite Hc1|done].
  - change (buildCreateParams spec) with (buildUpdateParams spec) in Hs1. fold (params_of spec) in Hs1.
    destruct (pa_Create _ _ _) as [[u|e] b3] eqn:Eu; [|done]. injection Hs1 as <- <-.
    apply create_done in Eu as (id & created & -> & Hcfg); [|apply Hkey]. rewrite Hc1 in Hcfg.
    apply (Sync_unchanged ctx' spec b3 r2 b2 (merge (params_of spec) (blank id created))) in Hs2; [done| |].
    + rewrite Hcfg. unfold find_in in *. cbn [List.filter]. rewrite merged_namespace. by destruct (List.filter _ (configs b)).
    + apply merged_matches. by intros (bp & ? & _).
Qed.

(** ** Not settling *)
Lemma clears_differs spec c : clears spec c -> specDiffersFromExisting spec c = true.
Proof.
  intros (bp & Hbp & Ht). unfold specDiffersFromExisting. rewrite Hbp. unfold neq_str.
  destruct Ht as [[-> Hne]|[[-> Hne]|[-> Hne]]]; apply not_eq_sym, String.eqb_neq in Hne; rewrite Hne; cbn [negb]; by rewrite ?orb_true_r.
Qed.
Lemma clears_merge spec c : clears spec c -> clears spec (merge (params_of spec) c).
Proof.
  intros (bp & Hbp & Ht). eexists. cbn. rewrite Hbp. split; [done|]. cbn.
  destruct Ht as [[E Hne]|[[E Hne]|[E Hne]]]; rewrite E; [left|right; left|right; right]; done.
Qed.
Definition cannot_clear (spec : PortalSpec) (b : B) : Prop :=
  NoDup (map bc_ID (configs b)) /\ exists c, find_in (po_Namespace spec) (configs b) = Some c /\ clears spec c.
Lemma replace_ids id c' l : bc_ID c' = id -> map bc_ID (replace_id id c' l) = map bc_ID l.
Proof.
  intros <-. unfold replace_id. rewrite map_map. apply map_ext. intros c. by destruct (String.eqb_spec (bc_ID c) (bc_ID c')).
Qed.
Lemma cannot_clear_step ctx spec b : cannot_clear spec b ->
  let '(r, b') := Sync ctx spec b in cannot_clear spec b' /\ forall r0, r = Ok r0 -> sy_Unchanged r0 = false.
Proof.
  intros (Hnd & c & Hf & Hcl). unfold Sync. destruct (Validate spec); [split; [by split; [|exists c]|done]|].
  destruct (findByNamespace _ b) as [[found|e] b1] eqn:Eb; apply findByNamespace_spec in Eb as (Hc1 & Hfound & _).
  2:{ split; [|done]. unfold cannot_clear. rewrite Hc1. by split; [|exists c]. }
  rewrite (Hfound _ eq_refl), Hf, clears_differs by done. cbn [negb]. fold (params_of spec).
  pose proof (find_in_elem _ _ _ Hf) as [Hin _]. destruct (pa_Update _ _ _ b1) as [r b2] eqn:Eu. pose proof (update_effect _ _ _ _ _ _ Eu) as He.
  assert (Hs : cannot_clear spec b2).
  { unfold cannot_clear. destruct He as [->|(c0 & Hc0 & Hid & ->)]; rewrite Hc1 in *; [by split; [|exists c]|].
    assert (c0 = c) as ->.
    { apply list_elem_of_lookup in Hc0 as [i Hi], Hin as [j Hj]. rewrite (NoDup_map_inj bc_ID _ i j c0 c Hnd Hi Hj Hid) in Hi. congruence. }
    split; [by rewrite replace_ids|]. exists (merge (params_of spec) c). split; [|by apply clears_merge]. apply find_replace; [done|done|apply merged_namespace|done]. }
  destruct r as [u|e]; (split; [done|]); [|done]. by intros r0 [= <-].
Qed.

(** A text that is to be cleared keeps every sync busy: its parameter is left out when it is empty,
    Stripe keeps the text, and no sync, however often it is repeated, ever reports that the
    configuration is as declared; the text is still there. *)
Theorem cleared_text_never_settles ctxs ctx spec b :
  cannot_clear spec b ->
  let b' := foldl (fun b ctx => snd (Sync ctx spec b)) b ctxs in
  cannot_clear spec b' /\ forall r, fst (Sync ctx spec b') = Ok r -> sy_Unchanged r = false.
Proof.
  cbn zeta. revert b. induction ctxs as [|ctx0 ctxs IH]; intros b Hs; cbn [foldl].
  - split; [done|]. pose proof (cannot_clear_step ctx spec b Hs) as Hst. destruct (Sync ctx spec b) as [r b']. by destruct Hst.
  - apply IH. pose proof (cannot_clear_step ctx0 spec b Hs) as Hst. destruct (Sync ctx0 spec b) as [r b']. by destruct Hst.
Qed.

(** Two declarations that differ at most in what is not compared: the name, the allowed fields,
    the modes, the products and prices. *)
Definition same_compared (spec spec' : PortalSpec) : Prop :=
  po_Namespace spec' = po_Namespace spec /\ po_DefaultReturnURL spec' = po_DefaultReturnURL spec /\
  po_BusinessHeadline spec' = po_BusinessHeadline spec /\ po_PrivacyPolicyURL spec' = po_PrivacyPolicyURL spec /\
  po_TermsOfServiceURL spec' = po_TermsOfServiceURL spec /\
  let f := po_Features spec in let f' := po_Features spec' in
  fe_InvoiceHistoryEnabled f' = fe_InvoiceHistoryEnabled f /\ fe_PaymentMethodUpdateEnabled f' = fe_PaymentMethodUpdateEnabled f /\
  cuf_Enabled (fe_CustomerUpdate f') = cuf_Enabled (fe_CustomerUpdate f) /\
  scf_Enabled (fe_SubscriptionCancel f') = scf_Enabled (fe_SubscriptionCancel f) /\
  suf_Enabled (fe_SubscriptionUpdate f') = suf_Enabled (fe_SubscriptionUpdate f).

(** A change below the toggles does not reach Stripe: when a declaration is in sync, any other
    that differs from it only in its name, allowed fields, modes, products or prices is
    reported as unchanged, and only a listing is made. *)
Theorem detail_changes_ignored ctx spec spec' b r b' :
  Sync ctx spec b = (Ok r, b') -> sy_Unchanged r = true -> same_compared spec spec' -> Sync ctx spec' b = (Ok r, b').
Proof.
  intros Hs Hu (E1 & E2 & E3 & E4 & E5 & E6 & E7 & E8 & E9 & E10). revert Hs. unfold Sync, Validate. rewrite E1, E2.
  destruct (String.eqb (po_Namespace spec) ""); [done|]. destruct (String.eqb (po_DefaultReturnURL spec) ""); [done|].
  destruct (findByNamespace _ b) as [[[c|]|e] b1]; [| |done].
  - replace (specDiffersFromExisting spec' c) with (specDiffersFromExisting spec c)
      by (unfold specDiffersFromExisting; by rewrite E2, E3, E4, E5, E6, E7, E8, E9, E10).
    destruct (negb _); [done|]. destruct (pa_Update _ _ _ b1) as [[u|e] b2]; [|done]. intros [= <- <-]. done.
  - destruct (pa_Create _ _ b1) as [[u|e] b2]; [|done]. intros [= <- <-]. done.
Qed.
End settles.

Module PortalDemo.
Import KeysDemo.
(** Stripe, for evaluation, with its idempotency keys: a key answers the same call with the same
    result, and refuses another call. *)
Record demo_portal := mkDemoPortal { dp_configs : list portal_configuration; dp_keys : gmap string (portal_params * portal_configuration) }.
#[local] Instance profile_params_eq : EqDecision profile_params.
Proof. solve_decision. Defined.
#[local] Instance features_params_eq : EqDecision features_params.
Proof. solve_decision. Defined.
#[local] Instance portal_params_eq : EqDecision portal_params.
Proof. solve_decision. Defined.
Definition keyed (p : portal_params) (key : string) (b : demo_portal) (k : res string portal_configuration * demo_portal)
  : res string portal_configuration * demo_portal :=
  match dp_keys b !! key with
  | Some (p', c) => if bool_decide (p = p') then (Ok c, b) else (Err "idempotency_error", b)
  | None => k
  end.
#[export] Instance demo_api : PortalApi demo_portal := {
  pa_List b := ((dp_configs b, None), b);
  pa_Create p key b := keyed p key b (
    let c := merge p (blank ("bpc_" ^^ pretty (List.length (dp_configs b))) (Z.of_nat (List.length (dp_configs b)))) in
    (Ok c, mkDemoPortal (c :: dp_configs b) (<[key := (p, c)]> (dp_keys b))));
  pa_Update id p key b := keyed p key b (
    match List.find (fun c => String.eqb (bc_ID c) id) (dp_configs b) with
    | None => (Err "resource_missing", b)
    | Some c => let c' := merge p c in (Ok c', mkDemoPortal (replace_id id c' (dp_configs b)) (<[key := (p, c')]> (dp_keys b)))
    end);
}.
#[export, refine] Instance demo_laws : PortalLaws demo_portal := {
  configs := dp_configs; key_used key b := is_Some (dp_keys b !! key) }.
Proof.
  - intros b l e b'. by intros [= <- <- <-].
  - intros id p key b r b'. cbn. unfold keyed. destruct (dp_keys b !! key) as [[p' c]|].
    + destruct (bool_decide _); intros [= _ <-]; by left.
    + destruct (List.find _ _) as [c|] eqn:E; [|intros [= _ <-]; by left]. intros [= _ <-]. right. exists c.
      apply find_some in E as [Hin%list_elem_of_In E%String.eqb_eq]. done.
  - intros id p key b c' b'. cbn. unfold keyed. destruct (dp_keys b !! key) as [[p' c]|]; [by intros _ []|]. intros E _. revert E.
    destruct (List.find _ _) as [c|] eqn:E; [|done]. intros [= <- <-]. exists c.
    apply find_some in E as [Hin%list_elem_of_In E%String.eqb_eq]. done.
  - intros p key b c b'. cbn. unfold keyed. destruct (dp_keys b !! key) as [[p' c']|]; [by intros _ []|]. intros [= <- <-] _.
    by eexists _, _.
Defined.
Definition features (cancel : bool) (mode : string) : Features :=
  mkFeatures (mkCustomerUpdate true ["Email"]) true true (mkSubCancel cancel mode "") (mkSubUpdate false [] "" []).
Definition spec (headline : string) (cancel : bool) (mode : string) : PortalSpec :=
  mkPortalSpec "demo" "" "https://app" headline "" "" (features cancel mode).
Definition nothing : demo_portal := mkDemoPortal [] ∅.
Definition made := Sync "" (spec "Welcome" true "at_period_end") nothing.
Definition after : demo_portal := snd made.
Lemma portal_made_eq : made = (Ok (mkSyncResult "bpc_0" true false false), after).
Proof. vm_compute. reflexivity. Qed.
Definition again := Sync "" (spec "Welcome" true "at_period_end") after.
Lemma portal_again_eq : again = (Ok (mkSyncResult "bpc_0" false false true), after).
Proof. vm_compute. reflexivity. Qed.
Lemma portal_sync_settles_witness : mkSyncResult "bpc_0" false false true = mkSyncResult "bpc_0" false false true /\ after = snd (pa_List after).
Proof.
  apply (portal_sync_settles "" "" (spec "Welcome" true "at_period_end") nothing (mkSyncResult "bpc_0" true false false) after _ after).
  - apply NoDup_nil_2.
  - exact portal_made_eq.
  - by intros c ?%not_elem_of_nil.
  - intros op inputs [x Hx]. by vm_compute in Hx.
  - exact portal_again_eq.
Defined.
Lemma cleared_text_never_settles_witness :
  fst (Sync "b" (spec "" true "at_period_end") after) = Ok (mkSyncResult "bpc_0" false true false) /\
  sy_Unchanged (mkSyncResult "bpc_0" false true false) = false.
Proof.
  split; [vm_compute; reflexivity|].
  apply (cleared_text_never_settles [] "b" (spec "" true "at_period_end") after); [|vm_compute; reflexivity].
  split; [vm_compute; apply NoDup_singleton|]. eexists. split; [vm_compute; reflexivity|]. eexists. split; [reflexivity|]. left. split; [done|]. cbn. done.
Defined.
Lemma detail_changes_ignored_witness :
  Sync "" (spec "Welcome" true "immediately") after = (Ok (mkSyncResult "bpc_0" false false true), after).
Proof. apply (detail_changes_ignored "" (spec "Welcome" true "at_period_end")); [exact portal_again_eq|done|]. unfold same_compared. split_and!; reflexivity. Defined.

(** A second change within the life of an idempotency key is refused: the key of an update names
    the application and the configuration and not what is changed, so that Stripe takes the
    next, different update for a misuse of the key. *)
Theorem second_change_refused :
  let b1 := snd (Sync "" (spec "Welcome back" true "at_period_end") after) in
  fst (Sync "" (spec "Welcome back" true "at_period_end") after) = Ok (mkSyncResult "bpc_0" false true false) /\
  fst (Sync "" (spec "Hello" true "at_period_end") b1) = Err (PoUpdate "bpc_0" "idempotency_error").
Proof. vm_compute. done. Qed.
End PortalDemo.
