(* ===== verification/Connector.v ===== *)
(** * Connector: the wiring of the library (src/connector/connector.go, builders.go,
      must.go, and the client of src/stripeapi/client.go).

    [New] checks a configuration, takes the lock on its namespace, warms the catalog
    cache, puts the library's own handlers in front of the application's and builds
    the subsystems. A handler is a function on a [Backing]: the ledger, the mirror, the
    cache, Stripe's subscriptions and the state of the application. Nil interfaces of
    the configuration are [false] or [None]; a panic is a value, [Panics]. *)
From S2P Require Import Prelude Json Events CatalogSpec CatalogCache Credits CreditHandlers Webhooks WebhookWorld WebhookSource Subscriptions SubscriptionOps.

(** ** Code that returns an error or panics *)
Inductive run (E A : Type) : Type :=
| Returns (a : A)
| Fails_with (e : E)
| Panics (msg : string).
Arguments Returns {E A}. Arguments Fails_with {E A}. Arguments Panics {E A}.
Definition run_bind {E A B} (m : run E A) (f : A -> run E B) : run E B :=
  match m with
  | Returns a => f a
  | Fails_with e => Fails_with e
  | Panics msg => Panics msg
  end.
Declare Scope run_scope.
Delimit Scope run_scope with run.
Notation "'let*' x := m 'in' k" := (run_bind m (fun x => k)) (at level 10, x pattern, k at level 200) : run_scope.
(** [if !given { panic(msg) }]. *)
Definition require {E} (given : bool) (msg : string) : run E unit :=
  if given then Returns tt else Panics msg.

(** ** The Stripe client (stripeapi/client.go) *)
Record stripe_client := mkClient { cl_SecretKey : string; cl_Timeout : Z; cl_MaxNetworkRetries : Z }.
Definition defaultMaxNetworkRetries : Z := 3.
Definition NewClient {E} (secretKey : string) (timeout maxNetworkRetries : Z) : run E stripe_client :=
  if String.eqb secretKey "" then Panics "stripeapi.NewClient: SecretKey is required"
  else
    let timeout := if timeout =? 0 then 30 * second else timeout in
    let retries := if maxNetworkRetries =? 0 then defaultMaxNetworkRetries else maxNetworkRetries in
    let retries := if retries <? 0 then 0 else retries in
    Returns (mkClient secretKey timeout retries).

(** ** Errors of [New] *)
Inductive connector_error :=
| ErrNamespaceRequired
| ErrCatalogRequired
| ErrNamespaceMismatch (app catalog : string)
| ErrCustomersRequired
| ErrEventsRequired
| ErrSecretKeyRequired
| ErrTestModeKey
| ErrDuplicateNamespace (ns : string)
| ErrWarmExceeded (timeout : Z) (e : warm_error)
| ErrWarm (e : warm_error)
| ErrNoSubscriptionBackend.

(** ** What the subsystems are built from *)
Record CheckoutOps := mkCheckoutOps { ck_Namespace : string; ck_Spec : Spec }.
Record InvoicesOps := mkInvoicesOps {
  iv_Override : bool; iv_Namespace : string; iv_NumberRepo : bool; iv_OrphanHook : bool }.
Record CustomerOps := mkCustomerOps {
  cm_Client : stripe_client; cm_SubscriptionRepo : bool; cm_CreditRepo : bool;
  cm_Exporter : bool; cm_Forgetter : bool; cm_Canceler : bool }.
Record PlanOps := mkPlanOps { pl_Spec : Spec; pl_CreditRepo : bool }.
Record customerAggregate := mkAggregate {
  ag_Customers : option CustomerOps;
  ag_PaymentMethods : option stripe_client;
  ag_Disputes : option stripe_client;
  ag_Quotes : option (stripe_client * string);
  ag_PortalConfig : option stripe_client;
  ag_Climate : option stripe_client;
  ag_Coupons : option (stripe_client * Spec);
  ag_Refunds : option (stripe_client * string);
}.
Definition customerAggregate_zero : customerAggregate := mkAggregate None None None None None None None None.

Inductive hook := HookQueue | HookDrift | HookPrune.
#[export] Instance hook_eq_dec : EqDecision hook.
Proof. solve_decision. Defined.

Definition DefaultWarmTimeout : Z := 30 * second.

(** ** What the handlers work on *)
Section connector.
Context `{GoRuntime}.
Context {L M B A : Type} `{CreditRepo L} `{SubscriptionRepo M}.

Record Backing := mkBacking {
  so_ledger : L;
  so_mirror : M;
  so_cache : Cache;
  so_stripe : B;
  so_app : A;
  (** how often the library's handlers have read the clock *)
  so_runs : nat;
}.
Definition set_ledger (l : L) (s : Backing) : Backing :=
  mkBacking l (so_mirror s) (so_cache s) (so_stripe s) (so_app s) (S (so_runs s)).
Definition set_mirror (m : M) (s : Backing) : Backing :=
  mkBacking (so_ledger s) m (so_cache s) (so_stripe s) (so_app s) (S (so_runs s)).
Definition set_stripe (b : B) (s : Backing) : Backing :=
  mkBacking (so_ledger s) (so_mirror s) (so_cache s) b (so_app s) (S (so_runs s)).

Definition Handler : Type := Event -> Backing -> option string * Backing.

(** The clock and the random ids one run of a handler sees. *)
Record Env := mkEnv {
  en_stamp : nat -> nat -> L -> stamp;
  en_now1 : Z;
  en_now2 : Z;
}.
Context (env : nat -> Env).
(** The texts of the errors, and the subscription backend. *)
Context (credit_text : handler_error -> string) (mirror_text : mirror_error -> string)
        (sub_call : backend_call -> B -> option string * B).

(** A price lister, under the deadline of its context; the one of stripe-go; and
    whether an error is [context.DeadlineExceeded]. *)
Definition PriceLister : Type := Z -> list string -> res string (list ResolvedPrice).
Context (stripe_lister : stripe_client -> PriceLister) (is_deadline : string -> bool).

Record Config := mkConfig {
  cfg_SecretKey : string;
  cfg_WebhookSecret : string;
  cfg_AppNamespace : string;
  cfg_Catalog : option Spec;
  cfg_Customers : bool;
  cfg_Events : bool;
  cfg_Handlers : Handlers Handler;
  cfg_Credits : bool;
  cfg_Usage : bool;
  cfg_Subscriptions : bool;
  cfg_HTTPTimeout : Z;
  cfg_DedupTTL : Z;
  cfg_SignatureTolerance : Z;
  (** a backend, which need not be a price lister *)
  cfg_BackendOverride : option (option PriceLister);
  cfg_CheckoutBackendOverride : bool;
  cfg_SubscriptionBackendOverride : bool;
  cfg_InvoiceBackendOverride : bool;
  (** capacity and workers *)
  cfg_AsyncWebhooks : option (Z * Z);
  cfg_WebhookPerEventPolicy : gmap string (EventPolicy Handler);
  cfg_WebhookEventLog : bool;
  cfg_InvoiceNumberRepo : bool;
  cfg_InvoiceOrphanHook : bool;
  cfg_DriftDetector : option Z;
  cfg_AutoRevokeCreditsOnRefund : bool;
  cfg_AutoCancelSubscriptionOnFailedRefund : bool;
  cfg_PaymentIntentToSubscriptionResolver : option (string -> res string string);
  cfg_AppDataExporter : bool;
  cfg_AppDataForgetter : bool;
  cfg_RequireLiveKey : bool;
  cfg_WebhookAutoPruneMaxAge : Z;
  cfg_WebhookAutoPruneInterval : Z;
  cfg_WarmTimeout : Z;
}.

Record Connector := mkConnector {
  cn_Catalog : Cache;
  cn_Checkout : CheckoutOps;
  cn_Webhooks : Receiver (H := Handler);
  cn_Queue : option MQ.MemoryQueue;
  cn_Subscriptions : option Operations;
  cn_Coupons : option (stripe_client * Spec);
  cn_Credits : option unit;
  cn_Metering : option unit;
  cn_Invoices : option InvoicesOps;
  cn_Refunds : option (stripe_client * string);
  cn_Plans : option PlanOps;
  cn_Climate : option stripe_client;
  cn_Customers : option CustomerOps;
  cn_PaymentMethods : option stripe_client;
  cn_Disputes : option stripe_client;
  cn_Quotes : option (stripe_client * string);
  cn_PortalConfig : option stripe_client;
  cn_Stripe : option stripe_client;
  cn_spec : option Spec;
  cn_shutdown : list hook;
}.
Implicit Types (cfg : Config) (s : Backing).

(** ** validateConfig *)
Definition hasOverrides cfg : bool :=
  bool_decide (is_Some (cfg_BackendOverride cfg)) && cfg_CheckoutBackendOverride cfg.

Definition validateConfig cfg : option connector_error :=
  if String.eqb (cfg_AppNamespace cfg) "" then Some ErrNamespaceRequired
  else match cfg_Catalog cfg with
  | None => Some ErrCatalogRequired
  | Some spec =>
      if negb (String.eqb (Namespace spec) (cfg_AppNamespace cfg)) then
        Some (ErrNamespaceMismatch (cfg_AppNamespace cfg) (Namespace spec))
      else if negb (cfg_Customers cfg) then Some ErrCustomersRequired
      else if negb (cfg_Events cfg) then Some ErrEventsRequired
      else if negb (hasOverrides cfg) && String.eqb (cfg_SecretKey cfg) "" then Some ErrSecretKeyRequired
      else if cfg_RequireLiveKey cfg && negb (hasOverrides cfg) then
        if Nat.leb 7 (String.length (cfg_SecretKey cfg)) &&
           String.eqb (substring 0 7 (cfg_SecretKey cfg)) "sk_test"
        then Some ErrTestModeKey else None
      else None
  end.

(** ** The library's handlers in front of the application's *)
Definition then_user (step : Handler) (user : option Handler) : Handler := fun evt s =>
  match step evt s with
  | (Some e, s') => (Some e, s')
  | (None, s') => match user with Some h => h evt s' | None => (None, s') end
  end.

Definition grants_step : Handler := fun evt s =>
  let '(e, l) := ApplyGrantsFromSession (en_stamp (env (so_runs s))) evt (so_ledger s) in
  (credit_text <$> e, set_ledger l s).
Definition recurring_step (spec : Spec) : Handler := fun evt s =>
  let '(e, l) := ApplyRecurringGrantsFromInvoice (en_stamp (env (so_runs s)) 0) spec evt (so_ledger s) in
  (credit_text <$> e, set_ledger l s).
Definition reversal_step : Handler := fun evt s =>
  let '(e, l) := ApplyRefundReversal (en_stamp (env (so_runs s))) evt (so_ledger s) in
  (credit_text <$> e, set_ledger l s).
Definition mirror_step : Handler := fun evt s =>
  let en := env (so_runs s) in
  let '(e, m) := ApplyEventToMirror (en_now1 en) (en_now2 en) (Some (PriceKeyByStripeID (so_cache s)))
                   evt (so_mirror s) in
  (mirror_text <$> e, set_mirror m s).
(** The error of the cancellation is logged. *)
Definition cancel_step (resolver : option (string -> res string string)) : Handler := fun evt s =>
  match CancelSubscriptionFromFailedRefund resolver evt with
  | Fails _ | Nothing => (None, s)
  | Calls c => let '(_, b) := sub_call c (so_stripe s) in (None, set_stripe b s)
  end.

Definition wrapSubscriptionHandler (userHandler : option Handler) : Handler :=
  then_user mirror_step userHandler.

Definition wire_handlers cfg (spec : Spec) (subOps : option Operations) : Handlers Handler :=
  let h := cfg_Handlers cfg in
  let credits := cfg_Credits cfg in
  let subs := cfg_Subscriptions cfg in
  let cancel := cfg_AutoCancelSubscriptionOnFailedRefund cfg && bool_decide (is_Some subOps) in
  let revoke := credits && cfg_AutoRevokeCreditsOnRefund cfg in
  mkHandlers
    (if credits then Some (then_user grants_step (OnCheckoutCompleted h)) else OnCheckoutCompleted h)
    (OnPaymentSucceeded h)
    (OnPaymentFailed h)
    (if credits then Some (then_user (recurring_step spec) (OnInvoicePaid h)) else OnInvoicePaid h)
    (OnInvoicePaymentFailed h)
    (if subs then Some (wrapSubscriptionHandler (OnSubscriptionCreated h)) else OnSubscriptionCreated h)
    (if subs then Some (wrapSubscriptionHandler (OnSubscriptionUpdated h)) else OnSubscriptionUpdated h)
    (if subs then Some (wrapSubscriptionHandler (OnSubscriptionCanceled h)) else OnSubscriptionCanceled h)
    (OnSubscriptionTrialWillEnd h)
    (if revoke then Some (then_user reversal_step (OnRefundCreated h)) else OnRefundCreated h)
    (if cancel then Some (then_user (cancel_step (cfg_PaymentIntentToSubscriptionResolver cfg)) (OnRefundFailed h))
     else OnRefundFailed h)
    (OnCustomerBalanceFunded h)
    (OnDisputeCreated h)
    (OnDisputeUpdated h)
    (OnDisputeClosed h)
    (OnDisputeFundsWithdrawn h)
    (OnDisputeFundsReinstated h)
    (OnOtherEvent h).

(** ** Builders (builders.go) *)
Open Scope run_scope.
(** The client, the price lister of the catalog backend, if it is one, and whether the
    checkout backend is given. *)
Definition buildStripeClient {E} cfg : run E (option stripe_client * option PriceLister) :=
  match cfg_BackendOverride cfg with
  | Some lister =>
      if cfg_CheckoutBackendOverride cfg then Returns (None, lister)
      else let* sc := NewClient (cfg_SecretKey cfg) (cfg_HTTPTimeout cfg) 0 in
           Returns (Some sc, Some (stripe_lister sc))
  | None => let* sc := NewClient (cfg_SecretKey cfg) (cfg_HTTPTimeout cfg) 0 in
            Returns (Some sc, Some (stripe_lister sc))
  end.

Definition errorLister : PriceLister := fun _ _ =>
  Err "connector: BackendOverride does not implement catalog.PriceLister; pass a backend that satisfies both interfaces".
Definition asPriceLister (b : option PriceLister) : PriceLister := default errorLister b.

(** [errors.Is(err, context.DeadlineExceeded)]: only the error of the listing wraps it. *)
Definition deadline_exceeded (e : warm_error) : bool :=
  match e with WarmList msg => is_deadline msg | WarmMissing _ => false end.
Definition warmCatalogWithTimeout (lister : PriceLister) (spec : Spec) (timeout : Z) : run connector_error Cache :=
  match Warm (lister timeout) spec NewCache with
  | (None, cache) => Returns cache
  | (Some e, _) => Fails_with (if deadline_exceeded e then ErrWarmExceeded timeout e else ErrWarm e)
  end.

Definition checkout_New {E} (ns : string) (spec : option Spec) (customers : bool) : run E CheckoutOps :=
  if String.eqb ns "" then Panics "checkout.New: Namespace is required"
  else match spec with
  | None => Panics "checkout.New: Spec is required"
  | Some spec =>
      if negb customers then Panics "checkout.New: Customers is required"
      else Returns (mkCheckoutOps ns spec)
  end.

Definition buildInvoiceOps cfg (sc : option stripe_client) : option InvoicesOps :=
  let backend :=
    if cfg_InvoiceBackendOverride cfg then Some true
    else match sc with Some _ => Some false | None => None end in
  match backend with
  | None => None
  | Some override =>
      Some (mkInvoicesOps override (cfg_AppNamespace cfg) (cfg_InvoiceNumberRepo cfg) (cfg_InvoiceOrphanHook cfg))
  end.

Definition buildCustomerAggregate {E} cfg (sc : option stripe_client) (subOps : option Operations)
  : run E customerAggregate :=
  match sc with
  | None => Returns customerAggregate_zero
  | Some sc =>
      let canceler := match subOps with Some _ => true | None => false end in
      let* _ := require (cfg_Customers cfg) "customers.New: CustomerRepo is required" in
      let* _ := require (cfg_Customers cfg) "paymentmethods.New: CustomerRepo is required" in
      match cfg_Catalog cfg with
      | None => Panics "coupons.New: Spec is required"
      | Some spec =>
          Returns (mkAggregate
            (Some (mkCustomerOps sc (cfg_Subscriptions cfg) (cfg_Credits cfg) (cfg_AppDataExporter cfg)
                     (cfg_AppDataForgetter cfg) canceler))
            (Some sc) (Some sc) (Some (sc, cfg_AppNamespace cfg)) (Some sc) (Some sc) (Some (sc, spec))
            (Some (sc, cfg_AppNamespace cfg)))
      end
  end.

(** Credits, metering and plans. *)
Definition buildOptionalSubsystems {E} cfg : run E (option unit * option unit * option PlanOps) :=
  let creditOps := if cfg_Credits cfg then Some tt else None in
  let meteringOps := if cfg_Usage cfg then Some tt else None in
  if cfg_Subscriptions cfg then
    match cfg_Catalog cfg with
    | None => Panics "plans.New: Spec is required"
    | Some spec => Returns (creditOps, meteringOps, Some (mkPlanOps spec (cfg_Credits cfg)))
    end
  else Returns (creditOps, meteringOps, None).

Definition buildSubscriptionOps cfg (sc : option stripe_client) (cache : Cache)
  : run connector_error (option Operations) :=
  if negb (cfg_Subscriptions cfg) then Returns None
  else
    let backend :=
      if cfg_SubscriptionBackendOverride cfg then true
      else match sc with Some _ => true | None => false end in
    if backend then Returns (Some (SubscriptionOps.New (cfg_Catalog cfg) (Some cache)))
    else Fails_with ErrNoSubscriptionBackend.

(** ** New *)
Definition webhooks_config cfg (handlers : Handlers Handler) : WebhooksConfig :=
  mkWebhooksConfig (cfg_WebhookSecret cfg) [] (cfg_Events cfg) (cfg_AppNamespace cfg) handlers
    (cfg_DedupTTL cfg) (cfg_SignatureTolerance cfg) (cfg_WebhookEventLog cfg) false
    (cfg_WebhookPerEventPolicy cfg) 0 0 [] "".
Definition webhooks_New {E} (c : WebhooksConfig) : run E (Receiver (H := Handler)) :=
  match NewWebhooks c with Ok r => Returns r | Err msg => Panics msg end.
Definition set_queue (r : Receiver (H := Handler)) : Receiver :=
  mkReceiver (SetQueue true (rc_webhooks r)) (rc_dedupTTL r) (rc_sigTolerance r) (rc_allowedCIDRs r)
    (rc_realIPHeader r) (rc_syncDispatchTimeout r).

Definition prune_interval cfg : Z :=
  if cfg_WebhookAutoPruneInterval cfg =? 0 then 24 * 3600 * second else cfg_WebhookAutoPruneInterval cfg.
Definition shutdown_hooks cfg : list hook :=
  (match cfg_AsyncWebhooks cfg with Some _ => [HookQueue] | None => [] end) ++
  (match cfg_DriftDetector cfg with Some _ => [HookDrift] | None => [] end) ++
  (if (0 <? cfg_WebhookAutoPruneMaxAge cfg) && cfg_WebhookEventLog cfg then [HookPrune] else []).

(** Everything between taking the lock and [ok = true]. *)
Definition construct cfg : run connector_error Connector :=
  let* (sc, lister) := buildStripeClient cfg in
  let warmTimeout := if cfg_WarmTimeout cfg <=? 0 then DefaultWarmTimeout else cfg_WarmTimeout cfg in
  match cfg_Catalog cfg with
  | None => Panics "runtime error: invalid memory address or nil pointer dereference"
  | Some spec =>
      let* cache := warmCatalogWithTimeout (asPriceLister lister) spec warmTimeout in
      let* ck := checkout_New (cfg_AppNamespace cfg) (cfg_Catalog cfg) (cfg_Customers cfg) in
      let* subOps := buildSubscriptionOps cfg sc cache in
      let* wh := webhooks_New (webhooks_config cfg (wire_handlers cfg spec subOps)) in
      let '(wh, queue) :=
        match cfg_AsyncWebhooks cfg with
        | None => (wh, None)
        | Some (capacity, workers) => (set_queue wh, Some (MQ.NewMemoryQueue capacity workers))
        end in
      let invoiceOps := buildInvoiceOps cfg sc in
      let* (creditOps, meteringOps, planOps) := buildOptionalSubsystems cfg in
      let* agg := buildCustomerAggregate cfg sc subOps in
      Returns (mkConnector cache ck wh queue subOps (ag_Coupons agg) creditOps meteringOps invoiceOps
        (ag_Refunds agg) planOps (ag_Climate agg) (ag_Customers agg) (ag_PaymentMethods agg)
        (ag_Disputes agg) (ag_Quotes agg) (ag_PortalConfig agg) sc (cfg_Catalog cfg) (shutdown_hooks cfg))
  end.

(** [active] is the set of namespaces of the process, which every path that does not
    return a connector leaves without this one: the deferred release. *)
Definition New cfg (active : gset string) : run connector_error Connector * gset string :=
  match validateConfig cfg with
  | Some e => (Fails_with e, active)
  | None =>
      if decide (cfg_AppNamespace cfg ∈ active) then
        (Fails_with (ErrDuplicateNamespace (cfg_AppNamespace cfg)), active)
      else
        let active := {[cfg_AppNamespace cfg]} ∪ active in
        match construct cfg with
        | Returns c => (Returns c, active)
        | r => (r, active ∖ {[cfg_AppNamespace cfg]})
        end
  end.

(** ** Shutdown *)

(** [ctx] is the error of the context when it ends before the workers of the queue. *)
Definition run_hook (ctx : option string) (h : hook) : option string :=
  match h with HookQueue => ctx | HookDrift | HookPrune => None end.
Fixpoint run_hooks (ctx : option string) (hooks : list hook) (firstErr : option string) : option string :=
  match hooks with
  | [] => firstErr
  | h :: rest =>
      run_hooks ctx rest
        (match run_hook ctx h, firstErr with Some e, None => Some e | _, _ => firstErr end)
  end.
Definition clear_hooks (c : Connector) : Connector :=
  mkConnector (cn_Catalog c) (cn_Checkout c) (cn_Webhooks c) (cn_Queue c) (cn_Subscriptions c) (cn_Coupons c)
    (cn_Credits c) (cn_Metering c) (cn_Invoices c) (cn_Refunds c) (cn_Plans c) (cn_Climate c) (cn_Customers c)
    (cn_PaymentMethods c) (cn_Disputes c) (cn_Quotes c) (cn_PortalConfig c) (cn_Stripe c) (cn_spec c) [].
Definition Shutdown (ctx : option string) (c : Connector) (active : gset string)
  : option string * Connector * gset string :=
  let err := run_hooks ctx (cn_shutdown c) None in
  (err, clear_hooks c,
   match cn_spec c with Some spec => active ∖ {[Namespace spec]} | None => active end).

Definition GetSpec (c : Connector) : option Spec := cn_spec c.

(** ** must.go *)
Definition must {T} (o : option T) (msg : string) : run connector_error T :=
  match o with Some x => Returns x | None => Panics msg end.
Definition MustSubscriptions (c : Connector) : run connector_error Operations :=
  must (cn_Subscriptions c) "connector: Subscriptions is nil".
Definition MustCredits (c : Connector) : run connector_error unit :=
  must (cn_Credits c) "connector: Credits is nil".
Definition MustMetering (c : Connector) : run connector_error unit :=
  must (cn_Metering c) "connector: Metering is nil".
Definition MustPlans (c : Connector) : run connector_error PlanOps :=
  must (cn_Plans c) "connector: Plans is nil".
End connector.
Arguments Backing : clear implicits.
Arguments Handler : clear implicits.
Arguments Config : clear implicits.
Arguments Connector : clear implicits.
