(* ===== verification/ConnectorHealth.v ===== *)
(** * ConnectorHealth: the readiness probe (src/connector/health.go).

    Times are nanoseconds. The state is shared by the requests that are being served:
    [hstep] interleaves them at the loads, the stores and the lock of
    [maybeProbeStripe] and [recordStripeProbe], while the clock goes on. *)
From S2P Require Import Prelude WebhookWorld.

(** ** State and snapshots *)
Record healthState := mkHealth {
  started : Z;
  lastStripeOK : bool;
  (** the last error, which is empty after a success and before any probe *)
  lastStripeErr : string;
  lastStripeCheck : Z;  (* unix seconds *)
  probeInterval : Z;
}.
Definition newHealthState (now : Z) : healthState := mkHealth now false "" 0 (30 * second).

Record HealthSnapshot := mkSnapshot {
  hs_OK : bool;
  hs_Uptime : Z;
  hs_CatalogWarmed : bool;
  hs_StripeReachable : bool;
  hs_StripeError : string;
  hs_LastStripeCheck : Z;
  hs_CheckedAt : Z;
  hs_QueueDepth : Z;
  hs_QueueCapacity : Z;
}.
Definition snapshot (now : Z) (catalogWarmed : bool) (qd qc : Z) (h : healthState) : HealthSnapshot :=
  let lastCheck := if 0 <? lastStripeCheck h then time_Unix (lastStripeCheck h) else time_zero in
  let reachable := lastStripeOK h in
  mkSnapshot (catalogWarmed && reachable) (now - started h) catalogWarmed reachable (lastStripeErr h)
    lastCheck now qd qc.
Definition health_status (s : HealthSnapshot) : Z := if hs_OK s then 200 else 503.

Definition store_check (now : Z) (h : healthState) : healthState :=
  mkHealth (started h) (lastStripeOK h) (lastStripeErr h) (Unix now) (probeInterval h).
(** The two stores after the time of the check. *)
Definition store_result (err : option string) (h : healthState) : healthState :=
  mkHealth (started h) (match err with None => true | Some _ => false end) (default "" err)
    (lastStripeCheck h) (probeInterval h).
Definition recordStripeProbe (now : Z) (err : option string) (h : healthState) : healthState :=
  store_result err (store_check now h).

(** [last > 0 && now.Sub(time.Unix(last, 0)) < probeInterval]. *)
Definition fresh (now : Z) (h : healthState) : bool :=
  (0 <? lastStripeCheck h) && (now - lastStripeCheck h * second <? probeInterval h).

(** ** One request at a time *)

(** [client] is whether there is a Stripe client; the probe starts at [now], answers
    [answer] and is recorded at [later]. The flag says that Stripe was called. *)
Definition maybeProbeStripe (client : bool) (now later : Z) (answer : option string) (h : healthState)
  : bool * healthState :=
  if fresh now h then (false, h)
  else if negb client then (false, recordStripeProbe now None h)
  else if fresh now h then (false, h)
  else (true, recordStripeProbe later answer h).

Definition queueStats (q : option MQ.MemoryQueue) : Z * Z :=
  match q with Some q => (MQ.Depth q, MQ.Capacity q) | None => (0, 0) end.

Definition HealthHandler (client : bool) (now later : Z) (answer : option string) (warmed : bool)
    (q : option MQ.MemoryQueue) (h : healthState) : Z * HealthSnapshot * healthState :=
  let '(_, h1) := maybeProbeStripe client now later answer h in
  let '(qd, qc) := queueStats q in
  let snap := snapshot later warmed qd qc h1 in
  (health_status snap, snap, h1).

Definition SetHealthClock (now : Z) (h : healthState) : healthState :=
  mkHealth now (lastStripeOK h) (lastStripeErr h) (lastStripeCheck h) (probeInterval h).

(** ** Requests side by side, with a client *)
Inductive request :=
| AtCheck                             (* before the first load *)
| AtLock                              (* wants the mutex *)
| AtRecheck                           (* holds it *)
| AtProbe                             (* the call to Stripe is under way *)
| AtStore (err : option string)       (* the time of the check is stored *)
| AtSnapshot.                         (* back from maybeProbeStripe *)
Record hsys := mkHsys {
  hy_now : Z;
  hy_state : healthState;
  hy_holder : option nat;
  hy_requests : list request;
  (** the times Stripe was called at, the last one first *)
  hy_probes : list Z;
  (** the status codes answered *)
  hy_answers : list Z;
}.

Inductive hstep (warmed : bool) : hsys -> hsys -> Prop :=
| hs_tick d y :
    0 < d ->
    hstep warmed y (mkHsys (hy_now y + d) (hy_state y) (hy_holder y) (hy_requests y) (hy_probes y) (hy_answers y))
| hs_arrive y :
    hstep warmed y (mkHsys (hy_now y) (hy_state y) (hy_holder y) (hy_requests y ++ [AtCheck]) (hy_probes y) (hy_answers y))
| hs_check i y :
    hy_requests y !! i = Some AtCheck ->
    hstep warmed y (mkHsys (hy_now y) (hy_state y) (hy_holder y)
      (<[i := if fresh (hy_now y) (hy_state y) then AtSnapshot else AtLock]> (hy_requests y)) (hy_probes y) (hy_answers y))
| hs_lock i y :
    hy_requests y !! i = Some AtLock -> hy_holder y = None ->
    hstep warmed y (mkHsys (hy_now y) (hy_state y) (Some i) (<[i := AtRecheck]> (hy_requests y)) (hy_probes y) (hy_answers y))
| hs_again i y :
    hy_requests y !! i = Some AtRecheck -> fresh (hy_now y) (hy_state y) = true ->
    hstep warmed y (mkHsys (hy_now y) (hy_state y) None (<[i := AtSnapshot]> (hy_requests y)) (hy_probes y) (hy_answers y))
| hs_probe i y :
    hy_requests y !! i = Some AtRecheck -> fresh (hy_now y) (hy_state y) = false ->
    hstep warmed y (mkHsys (hy_now y) (hy_state y) (hy_holder y) (<[i := AtProbe]> (hy_requests y))
      (hy_now y :: hy_probes y) (hy_answers y))
| hs_stamp i err y :
    hy_requests y !! i = Some AtProbe ->
    hstep warmed y (mkHsys (hy_now y) (store_check (hy_now y) (hy_state y)) (hy_holder y)
      (<[i := AtStore err]> (hy_requests y)) (hy_probes y) (hy_answers y))
| hs_store i err y :
    hy_requests y !! i = Some (AtStore err) ->
    hstep warmed y (mkHsys (hy_now y) (store_result err (hy_state y)) None
      (<[i := AtSnapshot]> (hy_requests y)) (hy_probes y) (hy_answers y))
| hs_answer i y :
    hy_requests y !! i = Some AtSnapshot ->
    hstep warmed y (mkHsys (hy_now y) (hy_state y) (hy_holder y) (<[i := AtCheck]> (hy_requests y)) (hy_probes y)
      (health_status (snapshot (hy_now y) warmed 0 0 (hy_state y)) :: hy_answers y)).

Inductive hreach (warmed : bool) : hsys -> Prop :=
| hreach_start now :
    second <= now -> hreach warmed (mkHsys now (newHealthState now) None [] [] [])
| hreach_step y y' : hreach warmed y -> hstep warmed y y' -> hreach warmed y'.

(** ** The spacing of the probes *)

(** The request that holds the mutex is in the locked part of the code. *)
Definition locked (r : request) : Prop :=
  match r with AtRecheck | AtProbe | AtStore _ => True | _ => False end.
(** Consecutive calls lie more than [gap] apart. *)
Fixpoint spaced (gap : Z) (probes : list Z) : Prop :=
  match probes with
  | t :: (t' :: _) as rest => gap < t - t' /\ spaced gap rest
  | _ => True
  end.
(** The last call is accounted for by the time of the check. *)
Definition accounted (y : hsys) : Prop :=
  match hy_probes y with
  | [] => True
  | t :: _ => 0 < lastStripeCheck (hy_state y) /\ t < (lastStripeCheck (hy_state y) + 1) * second
  end.
Record health_inv (y : hsys) : Prop := mkHealthInv {
  hi_now : second <= hy_now y;
  hi_interval : probeInterval (hy_state y) = 30 * second;
  hi_holder : forall i r, hy_requests y !! i = Some r -> locked r -> hy_holder y = Some i;
  hi_past : Forall (fun t => t <= hy_now y) (hy_probes y);
  hi_accounted : (forall i, hy_requests y !! i <> Some AtProbe) -> accounted y;
  hi_spaced : spaced (29 * second) (hy_probes y);
}.

Lemma unix_bounds now : second <= now -> 0 < Unix now /\ now < (Unix now + 1) * second.
Proof.
  unfold Unix. intros Hn. assert (Hs : 0 < second) by (unfold second; lia).
  split; [apply Z.div_str_pos; lia|]. pose proof (Z.mul_succ_div_gt now second Hs). lia.
Qed.

Lemma not_fresh_gap now h t :
  probeInterval h = 30 * second -> fresh now h = false -> 0 < lastStripeCheck h ->
  t < (lastStripeCheck h + 1) * second -> 29 * second < now - t.
Proof.
  unfold fresh. intros -> Hf Hl Ht. rewrite (proj2 (Z.ltb_lt _ _) Hl) in Hf. cbn in Hf.
  apply Z.ltb_ge in Hf. lia.
Qed.

(** What a step does to one entry of the requests. *)
Lemma insert_cases {X} (l : list X) i j x y :
  <[i := x]> l !! j = Some y -> (j = i /\ y = x) \/ (j <> i /\ l !! j = Some y).
Proof.
  destruct (decide (j = i)) as [->|Hn].
  - destruct (decide (i < List.length l)%nat) as [Hl|Hl].
    + rewrite list_lookup_insert_eq by done. intros [= <-]. by left.
    + rewrite list_insert_ge by lia. intros E%lookup_lt_Some. lia.
  - rewrite list_lookup_insert_ne by done. auto.
Qed.

(** A request moved from [r0] to [r]: who holds the mutex, and who is probing. *)
Lemma holder_moved (l : list request) (o o' : option nat) i r :
  (forall j x, l !! j = Some x -> locked x -> o = Some j) ->
  (locked r -> o' = Some i) -> (forall j, j <> i -> o = Some j -> o' = Some j) ->
  forall j x, <[i := r]> l !! j = Some x -> locked x -> o' = Some j.
Proof.
  intros Hh Hr Ho j x Hj Hl. apply insert_cases in Hj as [[-> ->]|[Hn Hj]]; [auto|].
  apply Ho; [done|]. by eapply Hh.
Qed.
Lemma none_probing (l : list request) i r0 r :
  l !! i = Some r0 -> r0 <> AtProbe ->
  (forall j, <[i := r]> l !! j <> Some AtProbe) -> forall j, l !! j <> Some AtProbe.
Proof.
  intros Hi Hr Hn j Hj. apply (Hn j). rewrite list_lookup_insert_ne; [done|]. intros <-. congruence.
Qed.

Lemma health_inv_step warmed y y' : health_inv y -> hstep warmed y y' -> health_inv y'.
Proof.
  intros [Hnow Hint Hh Hp Ha Hsp] Hs.
  destruct Hs as [d y Hd|y|i y Hi|i y Hi Hf|i y Hi Hf|i y Hi Hf|i err y Hi|i err y Hi|i y Hi];
    (constructor; cbn in *; [lia|done| | |unfold accounted; cbn|]);
    try done; try (intros Hn; apply Ha; by eapply none_probing);
    try (eapply holder_moved; [exact Hh|try done|try (intros j; congruence)]).
  - eapply Forall_impl; [exact Hp|]. cbn. lia.
  - intros j r Hj Hl. apply lookup_snoc_Some in Hj as [[_ Hj]|[_ <-]]; [eauto|done].
  - intros Hn. apply Ha. intros i Hi. apply (Hn i). by apply lookup_app_l_Some.
  - by destruct (fresh _ _).
  - pose proof (Hh i _ Hi I). intros j. congruence.
  - intros _. by apply (Hh i _ Hi).
  - constructor; [lia|done].
  - intros Hn. exfalso. apply (Hn i). apply list_lookup_insert_eq. by eapply lookup_lt_Some.
  - assert (Hacc : accounted y).
    { apply Ha. intros j Hj. pose proof (Hh j _ Hj I). pose proof (Hh i _ Hi I). congruence. }
    unfold accounted in Hacc. destruct (hy_probes y) as [|t ts]; [done|].
    destruct Hacc as [Hl Ht]. split; [|done]. by eapply not_fresh_gap.
  - intros _. by apply (Hh i _ Hi).
  - intros _. destruct (hy_probes y) as [|t ts]; [done|]. inv Hp.
    destruct (unix_bounds (hy_now y) Hnow). split; [done|lia].
  - pose proof (Hh i _ Hi I). intros j. congruence.
Qed.

Lemma hreach_inv warmed y : hreach warmed y -> health_inv y.
Proof.
  induction 1 as [now Hn|y y' _ IH Hs]; [|by eapply health_inv_step].
  constructor; cbn; done.
Qed.

(** The probe does not slam Stripe. However many readiness requests are served at
    the same time and however long a probe takes, two calls to Stripe are more than 29
    seconds apart: the interval of 30 seconds less the second to which the time of
    the last check is cut. *)
Theorem probes_spaced warmed y : hreach warmed y -> spaced (29 * second) (hy_probes y).
Proof. intros Hr. apply (hreach_inv _ _ Hr). Qed.

(** ** One request *)
Lemma status_iff snap : health_status snap = 200 <-> hs_OK snap = true.
Proof. unfold health_status. by destruct (hs_OK snap). Qed.
Lemma status_cases snap : health_status snap = 200 \/ health_status snap = 503.
Proof. unfold health_status. destruct (hs_OK snap); auto. Qed.

(** A readiness request answers 200 exactly when the catalog is warmed and the last
    probe of Stripe succeeded, which is its own unless an earlier one is fresh. *)
Theorem HealthHandler_correct client now later answer warmed q h :
  let '(status, snap, h') := HealthHandler client now later answer warmed q h in
  (status = 200 <-> warmed = true /\ lastStripeOK h' = true) /\ (status = 200 \/ status = 503) /\
  hs_QueueDepth snap = fst (queueStats q) /\
  (fresh now h = true -> h' = h) /\
  (fresh now h = false ->
     lastStripeOK h' = negb client || bool_decide (answer = None)) /\
  (fresh now h = false -> client = true -> lastStripeErr h' = default "" answer /\ lastStripeCheck h' = Unix later).
Proof.
  unfold HealthHandler, maybeProbeStripe. destruct (queueStats q) as [qd qc].
  destruct (fresh now h) eqn:E; [|destruct client]; cbn [negb];
    (split; [rewrite status_iff; cbn; apply andb_true_iff|]; split; [apply status_cases|]);
    repeat split; try done; intros; by destruct answer.
Qed.

(** A failed probe decides for the whole interval: until it is over every request answers
    503, whatever Stripe would answer now. *)
Theorem failed_probe_sticks now later err h now' later' answer' warmed q :
  second <= later -> probeInterval h = 30 * second -> fresh now h = false ->
  now' < Unix later * second + 30 * second ->
  let h1 := snd (maybeProbeStripe true now later (Some err) h) in
  fst (fst (HealthHandler true now' later' answer' warmed q h1)) = 503.
Proof.
  intros Hl Hi Hf Hn. unfold maybeProbeStripe at 1. rewrite Hf. cbn [negb snd].
  assert (Hfr : fresh now' (recordStripeProbe later (Some err) h) = true).
  { unfold fresh, recordStripeProbe. cbn. rewrite Hi.
    rewrite (proj2 (Z.ltb_lt _ _)) by (by apply unix_bounds). apply Z.ltb_lt. lia. }
  unfold HealthHandler, maybeProbeStripe. rewrite Hfr. destruct (queueStats q). cbn.
  unfold health_status. cbn. by rewrite andb_false_r.
Qed.

(** ** Concrete runs *)
Module HealthDemo.
Definition start : hsys := mkHsys (100 * second) (newHealthState (100 * second)) None [] [] [].
(** One request is served, Stripe answers after a second, and half a minute later the
    next one finds the check stale. *)
Definition probed : healthState := mkHealth (100 * second) true "" 101 (30 * second).
Definition twice : hsys :=
  mkHsys (131 * second) probed (Some 0%nat) [AtProbe] [131 * second; 100 * second] [200].

Ltac go c := eapply (hreach_step _ _ _); [|exact (c ltac:(reflexivity) ltac:(reflexivity)) || exact (c ltac:(reflexivity)) || exact c].
Lemma twice_reached : hreach true twice.
Proof.
  go (hs_probe true 0 (mkHsys (131 * second) probed (Some 0%nat) [AtRecheck] [100 * second] [200])).
  go (hs_lock true 0 (mkHsys (131 * second) probed None [AtLock] [100 * second] [200])).
  go (hs_check true 0 (mkHsys (131 * second) probed None [AtCheck] [100 * second] [200])).
  go (hs_tick true (30 * second) (mkHsys (101 * second) probed None [AtCheck] [100 * second] [200])).
  go (hs_answer true 0 (mkHsys (101 * second) probed None [AtSnapshot] [100 * second] [])).
  go (hs_store true 0 None (mkHsys (101 * second) (store_check (101 * second) (newHealthState (100 * second)))
    (Some 0%nat) [AtStore None] [100 * second] [])).
  go (hs_stamp true 0 None (mkHsys (101 * second) (newHealthState (100 * second)) (Some 0%nat) [AtProbe] [100 * second] [])).
  go (hs_tick true second (mkHsys (100 * second) (newHealthState (100 * second)) (Some 0%nat) [AtProbe] [100 * second] [])).
  go (hs_probe true 0 (mkHsys (100 * second) (newHealthState (100 * second)) (Some 0%nat) [AtRecheck] [] [])).
  go (hs_lock true 0 (mkHsys (100 * second) (newHealthState (100 * second)) None [AtLock] [] [])).
  go (hs_check true 0 (mkHsys (100 * second) (newHealthState (100 * second)) None [AtCheck] [] [])).
  go (hs_arrive true start). apply hreach_start. done.
Qed.
End HealthDemo.

Lemma probes_spaced_witness : 29 * second < 131 * second - 100 * second.
Proof. exact (proj1 (probes_spaced true HealthDemo.twice HealthDemo.twice_reached)). Defined.

(** The time of a check is published before its result: a request that comes in between
    answers 503 although the only probe succeeds. *)
Theorem early_reader_unready :
  exists y, hreach true y /\ hy_answers y = [200; 503] /\ hy_probes y = [100 * second] /\
    lastStripeOK (hy_state y) = true.
Proof.
  set (h0 := newHealthState (100 * second)). set (h1 := store_check (100 * second) h0).
  exists (mkHsys (100 * second) (store_result None h1) None [AtCheck; AtSnapshot] [100 * second] [200; 503]).
  split; [|done].
  HealthDemo.go (hs_answer true 0 (mkHsys (100 * second) (store_result None h1) None [AtSnapshot; AtSnapshot] [100 * second] [503])).
  HealthDemo.go (hs_store true 0 None (mkHsys (100 * second) h1 (Some 0%nat) [AtStore None; AtSnapshot] [100 * second] [503])).
  HealthDemo.go (hs_check true 1 (mkHsys (100 * second) h1 (Some 0%nat) [AtStore None; AtCheck] [100 * second] [503])).
  HealthDemo.go (hs_answer true 1 (mkHsys (100 * second) h1 (Some 0%nat) [AtStore None; AtSnapshot] [100 * second] [])).
  HealthDemo.go (hs_check true 1 (mkHsys (100 * second) h1 (Some 0%nat) [AtStore None; AtCheck] [100 * second] [])).
  HealthDemo.go (hs_stamp true 0 None (mkHsys (100 * second) h0 (Some 0%nat) [AtProbe; AtCheck] [100 * second] [])).
  HealthDemo.go (hs_probe true 0 (mkHsys (100 * second) h0 (Some 0%nat) [AtRecheck; AtCheck] [] [])).
  HealthDemo.go (hs_lock true 0 (mkHsys (100 * second) h0 None [AtLock; AtCheck] [] [])).
  HealthDemo.go (hs_check true 0 (mkHsys (100 * second) h0 None [AtCheck; AtCheck] [] [])).
  HealthDemo.go (hs_arrive true (mkHsys (100 * second) h0 None [AtCheck] [] [])).
  HealthDemo.go (hs_arrive true (mkHsys (100 * second) h0 None [] [] [])).
  apply hreach_start. done.
Qed.
