(* ===== verification/ConnectorFacts.v ===== *)
(** * ConnectorFacts: what a connector that [New] returned does with an event, which
      configurations it accepts, and the lock on the namespace.

    The theorems on deliveries compose the ones of the receiver (WebhookTheorems) with
    the ones of the library's handlers (CreditHandlerFacts, SubscriptionFacts). *)
From S2P Require Import Prelude Json Events CatalogSpec CatalogCache Credits CreditHandlers Webhooks WebhookWorld WebhookTheorems WebhookSource Subscriptions SubscriptionOps Connector.

(** ** Programs that may fail or panic *)
Lemma run_bind_returns {E A B} (m : run E A) (f : A -> run E B) b :
  run_bind m f = Returns b -> exists a, m = Returns a /\ f a = Returns b.
Proof. destruct m; cbn; [|done|done]. eauto. Qed.
Lemma run_bind_panics {E A B} (m : run E A) (f : A -> run E B) msg :
  run_bind m f = Panics msg -> m = Panics msg \/ exists a, m = Returns a /\ f a = Panics msg.
Proof. destruct m; cbn; [right; eauto|done|intros [= ->]; by left]. Qed.

(** What [webhooks.New] makes of its configuration. *)
Lemma NewWebhooks_fields {H} (c : WebhooksConfig (H := H)) r :
  NewWebhooks c = Ok r -> exists nets,
  rc_webhooks r = mkWebhooks (wc_SigningSecret c) (wc_AdditionalSigningSecrets c) (wc_Namespace c) (wc_Handlers c) ∅
    (wc_EventLog c) (wc_Queue c) (wc_PerEventPolicy c) (limit_or_default (wc_MaxBodyBytes c) DefaultMaxBodyBytes) /\
  parse_cidrs (wc_AllowedSourceCIDRs c) = Ok nets /\ rc_allowedCIDRs r = nets.
Proof.
  unfold NewWebhooks. destruct (String.eqb _ _); [done|]. destruct (negb _); [done|].
  destruct (parse_cidrs _) as [nets|]; [|done]. intros [= <-]. by exists nets.
Qed.

Section connector.
Context `{GoRuntime}.
Context {L M B A : Type} `{CreditRepo L} `{SubscriptionRepo M}.
Context (env : nat -> Env (L := L)) (credit_text : handler_error -> string) (mirror_text : mirror_error -> string)
        (sub_call : backend_call -> B -> option string * B).
Context (stripe_lister : stripe_client -> PriceLister) (is_deadline : string -> bool).
Abbreviation Backing := (Backing L M B A).
Abbreviation Handler := (Handler L M B A).
Abbreviation Config := (Config L M B A).
Abbreviation Connector := (Connector L M B A).
Implicit Types (cfg : Config) (c : Connector) (s : Backing).
Abbreviation New := (New env credit_text mirror_text sub_call stripe_lister is_deadline).
Abbreviation construct := (construct env credit_text mirror_text sub_call stripe_lister is_deadline).
Abbreviation wire_handlers := (wire_handlers env credit_text mirror_text sub_call).

(** ** Configurations *)

(** What a configuration must satisfy. *)
Record config_ok cfg : Prop := mkConfigOk {
  ok_namespace : cfg_AppNamespace cfg <> "";
  ok_catalog : exists spec, cfg_Catalog cfg = Some spec /\ Namespace spec = cfg_AppNamespace cfg;
  ok_customers : cfg_Customers cfg = true;
  ok_events : cfg_Events cfg = true;
  ok_key : hasOverrides cfg = true \/ cfg_SecretKey cfg <> "";
  ok_live : cfg_RequireLiveKey cfg = true -> hasOverrides cfg = false ->
    forall rest, cfg_SecretKey cfg <> "sk_test" ^^ rest;
}.

Lemma substring_whole (k : string) : substring 0 (String.length k) k = k.
Proof. induction k as [|x k IH]; [done|]. cbn. by f_equal. Qed.
Lemma prefix7 (k : string) :
  Nat.leb 7 (String.length k) && String.eqb (substring 0 7 k) "sk_test" = true <->
  exists rest, k = "sk_test" ^^ rest.
Proof.
  rewrite andb_true_iff, Nat.leb_le, String.eqb_eq. split.
  - intros [_ E]. exists (substring 7 (String.length k - 7) k).
    do 7 (destruct k as [|? k]; [by cbn in E|]). cbn in E. injection E as -> -> -> -> -> -> ->.
    cbn. rewrite Nat.sub_0_r, substring_whole. done.
  - intros [rest ->]. split; [cbn; lia|]. cbn. by destruct rest.
Qed.

Lemma validateConfig_ok cfg : validateConfig cfg = None <-> config_ok cfg.
Proof.
  unfold validateConfig. split.
  - intros E. destruct (String.eqb_spec (cfg_AppNamespace cfg) "") as [|Hns]; [done|].
    destruct (cfg_Catalog cfg) as [spec|] eqn:Ec; [|done].
    destruct (String.eqb_spec (Namespace spec) (cfg_AppNamespace cfg)) as [Hm|]; [|done]. cbn in E.
    destruct (cfg_Customers cfg) eqn:Ecu; [|done]. destruct (cfg_Events cfg) eqn:Ee; [|done]. cbn in E.
    constructor; try done; [by exists spec| |].
    + destruct (hasOverrides cfg); [by left|]. cbn in E. right. by destruct (String.eqb_spec (cfg_SecretKey cfg) "").
    + intros Hl Ho rest Hk. rewrite Hl, Ho in E. cbn [negb andb] in E.
      destruct (String.eqb (cfg_SecretKey cfg) ""); [done|].
      pose proof (proj2 (prefix7 (cfg_SecretKey cfg)) (ex_intro _ rest Hk)) as [E1 E2]%andb_true_iff.
      cbn in E1. by rewrite E1, E2 in E.
  - intros [Hns (spec & Ec & Hm) Hcu He Hk Hl].
    rewrite (proj2 (String.eqb_neq _ _) Hns), Ec, Hm, String.eqb_refl, Hcu, He. cbn [negb].
    destruct (hasOverrides cfg) eqn:Eo; cbn [negb andb]; [by rewrite andb_false_r|].
    destruct Hk as [|Hk]; [done|]. rewrite (proj2 (String.eqb_neq _ _) Hk), andb_true_r.
    destruct (cfg_RequireLiveKey cfg) eqn:El; [|done].
    match goal with |- (if ?b then _ else _) = _ => destruct b eqn:Eb end; [|done].
    apply prefix7 in Eb as [rest Hr]. by edestruct Hl.
Qed.

(** ** What [construct] returns *)
Definition warm_timeout cfg : Z := if cfg_WarmTimeout cfg <=? 0 then DefaultWarmTimeout else cfg_WarmTimeout cfg.

Lemma construct_inv cfg c :
  construct cfg = Returns c ->
  exists sc lister spec wh,
    buildStripeClient stripe_lister cfg = Returns (E := connector_error) (sc, lister) /\
    cfg_Catalog cfg = Some spec /\
    Warm (asPriceLister lister (warm_timeout cfg)) spec NewCache = (None, cn_Catalog c) /\
    buildSubscriptionOps cfg sc (cn_Catalog c) = Returns (cn_Subscriptions c) /\
    NewWebhooks (webhooks_config cfg (wire_handlers cfg spec (cn_Subscriptions c))) = Ok wh /\
    cn_Webhooks c = (match cfg_AsyncWebhooks cfg with None => wh | Some _ => set_queue wh end) /\
    cn_Checkout c = mkCheckoutOps (cfg_AppNamespace cfg) spec /\
    cn_Stripe c = sc /\ cn_spec c = Some spec /\ cn_shutdown c = shutdown_hooks cfg /\
    cn_Invoices c = buildInvoiceOps cfg sc /\
    cn_Credits c = (if cfg_Credits cfg then Some tt else None) /\
    cn_Metering c = (if cfg_Usage cfg then Some tt else None) /\
    cn_Plans c = (if cfg_Subscriptions cfg then Some (mkPlanOps spec (cfg_Credits cfg)) else None) /\
    exists agg, buildCustomerAggregate cfg sc (cn_Subscriptions c) = Returns (E := connector_error) agg /\
      cn_Customers c = ag_Customers agg /\ cn_Refunds c = ag_Refunds agg /\ cn_Quotes c = ag_Quotes agg /\
      cn_Coupons c = ag_Coupons agg /\ cn_PaymentMethods c = ag_PaymentMethods agg /\ cn_Disputes c = ag_Disputes agg /\
      cn_PortalConfig c = ag_PortalConfig agg /\ cn_Climate c = ag_Climate agg /\
      cn_Queue c = ((fun '(capacity, workers) => MQ.NewMemoryQueue capacity workers) <$> cfg_AsyncWebhooks cfg).
Proof.
  unfold Connector.construct. intros ([sc lister] & Eb & E)%run_bind_returns.
  destruct (cfg_Catalog cfg) as [spec|] eqn:Ec; [|done].
  apply run_bind_returns in E as (cache & Ew & E). apply run_bind_returns in E as (ck & Eck & E).
  apply run_bind_returns in E as (subOps & Es & E). apply run_bind_returns in E as (wh & Ewh & E).
  exists sc, lister, spec, wh. unfold checkout_New in Eck. unfold webhooks_New in Ewh.
  unfold warmCatalogWithTimeout in Ew.
  destruct (Warm _ spec NewCache) as [[?|] cache'] eqn:Ewarm; [done|]. injection Ew as <-.
  destruct (NewWebhooks _) as [wh'|] eqn:Enw; [|done]. injection Ewh as <-.
  repeat (destruct (String.eqb _ ""); [done|]). destruct (negb (cfg_Customers cfg)); [done|]. injection Eck as <-.
  assert (Hopt : forall r, buildOptionalSubsystems cfg = Returns (E := connector_error) r ->
    r = (if cfg_Credits cfg then Some tt else None, if cfg_Usage cfg then Some tt else None,
         if cfg_Subscriptions cfg then Some (mkPlanOps spec (cfg_Credits cfg)) else None)).
  { unfold buildOptionalSubsystems. rewrite Ec. destruct (cfg_Subscriptions cfg); congruence. }
  destruct (cfg_AsyncWebhooks cfg) as [[cap wk]|];
    apply run_bind_returns in E as ([[cr me] pl] & Eo & E); apply run_bind_returns in E as (agg & Ea & E);
    apply Hopt in Eo; simplify_eq; cbn; repeat (split; [done|]); exists agg; done.
Qed.

(** ** New *)
Lemma New_cases cfg active :
  (exists e, New cfg active = (Fails_with e, active)) \/
  (config_ok cfg /\ cfg_AppNamespace cfg ∉ active /\
   New cfg active = (construct cfg, match construct cfg with
                                    | Returns _ => ({[cfg_AppNamespace cfg]} ∪ active)
                                    | _ => active end)).
Proof.
  unfold Connector.New. destruct (validateConfig cfg) eqn:Ev; [by left; eexists|].
  apply validateConfig_ok in Ev. destruct (decide _) as [|Hn]; [by left; eexists|].
  right. split; [done|]. split; [done|].
  assert (({[cfg_AppNamespace cfg]} ∪ active) ∖ {[cfg_AppNamespace cfg]} = active) as -> by (apply set_eq; set_solver).
  by destruct (construct cfg).
Qed.

(** [construct] of a valid configuration panics only for want of a signing secret. *)
Lemma construct_panics cfg msg :
  config_ok cfg -> construct cfg = Panics msg -> cfg_WebhookSecret cfg = "".
Proof.
  intros [Hns (spec & Ec & Hm) Hcu He Hk _]. unfold Connector.construct. intros E.
  assert (Hb : forall m, buildStripeClient stripe_lister cfg <> Panics (E := connector_error) m).
  { intros m. unfold buildStripeClient, NewClient, hasOverrides in *.
    destruct (cfg_BackendOverride cfg), (cfg_CheckoutBackendOverride cfg);
      rewrite ?bool_decide_eq_true_2 in Hk by done; try done;
      (destruct Hk as [|Hk%String.eqb_neq]; [done|by rewrite Hk]). }
  apply run_bind_panics in E as [E|([sc lister] & _ & E)]; [by apply Hb in E|]. rewrite Ec in E.
  apply run_bind_panics in E as [E|(cache & _ & E)];
    [unfold warmCatalogWithTimeout in E; by destruct (Warm _ _ _) as [[]]|].
  apply run_bind_panics in E as [E|(ck & _ & E)];
    [unfold checkout_New in E; by rewrite (proj2 (String.eqb_neq _ _) Hns), Hcu in E|].
  apply run_bind_panics in E as [E|(subOps & _ & E)];
    [unfold buildSubscriptionOps in E; by destruct (negb _), (cfg_SubscriptionBackendOverride cfg), sc|].
  apply run_bind_panics in E as [E|(wh & _ & E)].
  { unfold webhooks_New, NewWebhooks in E. cbn in E. rewrite He in E. cbn in E.
    by destruct (String.eqb_spec (cfg_WebhookSecret cfg) ""). }
  exfalso. destruct (cfg_AsyncWebhooks cfg) as [[cap wk]|];
    (apply run_bind_panics in E as [E|([[cr me] pl] & _ & E)];
      [unfold buildOptionalSubsystems in E; rewrite Ec in E; by destruct (cfg_Subscriptions cfg)|];
     apply run_bind_panics in E as [E|(agg & _ & E)]; [|done];
     unfold buildCustomerAggregate in E; rewrite Hcu, Ec in E; by destruct sc).
Qed.

Lemma New_outcome cfg active :
  let '(r, active') := New cfg active in
  match r with
  | Returns c => config_ok cfg /\ cfg_AppNamespace cfg ∉ active /\ active' = ({[cfg_AppNamespace cfg]} ∪ active)
  | Fails_with _ => active' = active
  | Panics _ => active' = active /\ config_ok cfg /\ cfg_WebhookSecret cfg = ""
  end.
Proof.
  destruct (New_cases cfg active) as [[e ->]|(Hok & Hn & ->)]; [done|].
  destruct (construct cfg) as [c|e|msg] eqn:E; [done|done|]. split; [done|]. split; [done|].
  by eapply construct_panics.
Qed.

(** The connector has the catalog of its configuration, and so its namespace. *)
Lemma New_spec_ns cfg active c active' :
  New cfg active = (Returns c, active') ->
  exists spec, cn_spec c = Some spec /\ cfg_Catalog cfg = Some spec /\ Namespace spec = cfg_AppNamespace cfg.
Proof.
  destruct (New_cases cfg active) as [[e ->]|([_ (spec0 & Ec0 & Hm) _ _ _ _] & _ & ->)]; [done|].
  intros [= E _]. apply construct_inv in E as (sc & lister & spec & wh & _ & Ec & _ & _ & _ & _ & _ & _ & Esp & _).
  exists spec. rewrite Ec in Ec0. by simplify_eq.
Qed.

(** C30: [New] succeeds or leaves no trace. A connector is returned only for a valid
    configuration of a namespace that no live connector has, which it then holds. Any
    other outcome gives the namespace back, so that the call can be repeated: an error,
    or a panic, which happens only when the signing secret of the webhooks is missing. *)
Theorem New_correct cfg active :
  let '(r, active') := New cfg active in
  match r with
  | Returns c => config_ok cfg /\ cfg_AppNamespace cfg ∉ active /\ active' = ({[cfg_AppNamespace cfg]} ∪ active)
  | Fails_with _ => active' = active
  | Panics _ => active' = active /\ config_ok cfg /\ cfg_WebhookSecret cfg = ""
  end.
Proof. exact (New_outcome cfg active). Qed.

(** The subsystems that talk to Stripe directly: all of them, with the one client, the
    namespace and the catalog of the application, or none. *)
Definition stripe_subsystems cfg c (spec : Spec) : Prop :=
  match cn_Stripe c with
  | Some sc =>
      cn_PaymentMethods c = Some sc /\ cn_Disputes c = Some sc /\ cn_PortalConfig c = Some sc /\ cn_Climate c = Some sc /\
      cn_Quotes c = Some (sc, cfg_AppNamespace cfg) /\ cn_Refunds c = Some (sc, cfg_AppNamespace cfg) /\
      cn_Coupons c = Some (sc, spec) /\
      exists canceler,
        cn_Customers c = Some (mkCustomerOps sc (cfg_Subscriptions cfg) (cfg_Credits cfg) (cfg_AppDataExporter cfg)
                                 (cfg_AppDataForgetter cfg) canceler) /\
        (canceler = true <-> is_Some (cn_Subscriptions c))
  | None =>
      cn_PaymentMethods c = None /\ cn_Disputes c = None /\ cn_PortalConfig c = None /\ cn_Climate c = None /\
      cn_Quotes c = None /\ cn_Refunds c = None /\ cn_Coupons c = None /\ cn_Customers c = None
  end.
(** The subsystems of a connector are the ones its configuration asks for. *)
Record connector_wf cfg c : Prop := mkConnectorWf {
  wf_spec : exists spec, cn_spec c = Some spec /\ cfg_Catalog cfg = Some spec /\ Namespace spec = cfg_AppNamespace cfg /\
    cn_Checkout c = mkCheckoutOps (cfg_AppNamespace cfg) spec /\
    cn_Plans c = (if cfg_Subscriptions cfg then Some (mkPlanOps spec (cfg_Credits cfg)) else None) /\
    stripe_subsystems cfg c spec;
  wf_cache : Warmed (cn_Catalog c) = true /\
    forall spec k, cn_spec c = Some spec -> k ∈ AllLookupKeys spec -> is_Some (Lookup (cn_Catalog c) k);
  wf_client : is_Some (cn_Stripe c) <-> hasOverrides cfg = false;
  wf_credits : is_Some (cn_Credits c) <-> cfg_Credits cfg = true;
  wf_metering : is_Some (cn_Metering c) <-> cfg_Usage cfg = true;
  wf_subscriptions : is_Some (cn_Subscriptions c) <-> cfg_Subscriptions cfg = true;
  wf_invoices : (is_Some (cn_Invoices c) <-> is_Some (cn_Stripe c) \/ cfg_InvoiceBackendOverride cfg = true) /\
    forall iv, cn_Invoices c = Some iv ->
      iv = mkInvoicesOps (cfg_InvoiceBackendOverride cfg) (cfg_AppNamespace cfg) (cfg_InvoiceNumberRepo cfg) (cfg_InvoiceOrphanHook cfg);
  wf_webhooks : let w := rc_webhooks (cn_Webhooks c) in
    w_namespace w = cfg_AppNamespace cfg /\ w_signingSecret w = cfg_WebhookSecret cfg /\
    w_eventLog w = cfg_WebhookEventLog cfg /\ w_perEventPolicy w = cfg_WebhookPerEventPolicy cfg;
  wf_queue : (is_Some (cn_Queue c) <-> is_Some (cfg_AsyncWebhooks cfg)) /\
    (w_queue (rc_webhooks (cn_Webhooks c)) = true <-> is_Some (cfg_AsyncWebhooks cfg)) /\
    (HookQueue ∈ cn_shutdown c <-> is_Some (cfg_AsyncWebhooks cfg));
  wf_background : (HookDrift ∈ cn_shutdown c <-> is_Some (cfg_DriftDetector cfg)) /\
    (HookPrune ∈ cn_shutdown c <-> 0 < cfg_WebhookAutoPruneMaxAge cfg /\ cfg_WebhookEventLog cfg = true);
}.

Lemma is_Some_if {X} (b : bool) (x : X) : is_Some (if b then Some x else None) <-> b = true.
Proof. destruct b; split; done. Qed.

Lemma subscriptions_wf cfg active c active' :
  New cfg active = (Returns c, active') -> is_Some (cn_Subscriptions c) <-> cfg_Subscriptions cfg = true.
Proof.
  destruct (New_cases cfg active) as [[e ->]|(_ & _ & ->)]; [done|].
  intros [= (sc & lister & spec & wh & _ & _ & _ & Es & _)%construct_inv _]. unfold buildSubscriptionOps in Es.
  destruct (cfg_Subscriptions cfg); cbn in Es; [|injection Es as Es; rewrite <- Es; split; done].
  destruct (if cfg_SubscriptionBackendOverride cfg then true else _); [|done].
  injection Es as Es. rewrite <- Es. split; [done|by eexists].
Qed.

Lemma build_client_wf {E} cfg sc lister :
  buildStripeClient (E := E) stripe_lister cfg = Returns (sc, lister) -> is_Some sc <-> hasOverrides cfg = false.
Proof.
  unfold buildStripeClient, NewClient, hasOverrides. intros Eb.
  destruct (cfg_BackendOverride cfg); rewrite ?bool_decide_eq_true_2 by done; rewrite ?bool_decide_eq_false_2 by by intros [? ?].
  - destruct (cfg_CheckoutBackendOverride cfg); [simplify_eq; split; [by intros [? ?]|done]|].
    destruct (String.eqb _ ""); [done|]. cbn in Eb. simplify_eq. split; [done|by eexists].
  - destruct (String.eqb _ ""); [done|]. cbn in Eb. simplify_eq. split; [done|by eexists].
Qed.

Lemma invoices_wf cfg sc :
  (is_Some (buildInvoiceOps cfg sc) <-> is_Some sc \/ cfg_InvoiceBackendOverride cfg = true) /\
  forall iv, buildInvoiceOps cfg sc = Some iv ->
    iv = mkInvoicesOps (cfg_InvoiceBackendOverride cfg) (cfg_AppNamespace cfg) (cfg_InvoiceNumberRepo cfg) (cfg_InvoiceOrphanHook cfg).
Proof.
  unfold buildInvoiceOps. destruct (cfg_InvoiceBackendOverride cfg).
  - split; [split; [by right|by eexists]|by intros iv [= <-]].
  - destruct sc; [split; [split; [by left; eexists|by eexists]|by intros iv [= <-]]|].
    split; [split; [by intros [? ?]|by intros [[? ?]|?]]|done].
Qed.
Lemma hooks_wf cfg :
  (HookQueue ∈ shutdown_hooks cfg <-> is_Some (cfg_AsyncWebhooks cfg)) /\
  (HookDrift ∈ shutdown_hooks cfg <-> is_Some (cfg_DriftDetector cfg)) /\
  (HookPrune ∈ shutdown_hooks cfg <-> 0 < cfg_WebhookAutoPruneMaxAge cfg /\ cfg_WebhookEventLog cfg = true).
Proof.
  rewrite <- Z.ltb_lt, <- andb_true_iff. unfold shutdown_hooks.
  destruct (cfg_AsyncWebhooks cfg), (cfg_DriftDetector cfg), (_ && _); cbn [app];
    rewrite ?elem_of_cons, ?elem_of_nil, <- ?not_eq_None_Some; intuition congruence.
Qed.
Lemma aggregate_wf cfg sc spec subOps agg :
  buildCustomerAggregate cfg sc subOps = Returns (E := connector_error) agg -> cfg_Catalog cfg = Some spec ->
  agg = match sc with
        | None => customerAggregate_zero
        | Some sc => mkAggregate
            (Some (mkCustomerOps sc (cfg_Subscriptions cfg) (cfg_Credits cfg) (cfg_AppDataExporter cfg) (cfg_AppDataForgetter cfg)
                     (bool_decide (is_Some subOps))))
            (Some sc) (Some sc) (Some (sc, cfg_AppNamespace cfg)) (Some sc) (Some sc) (Some (sc, spec)) (Some (sc, cfg_AppNamespace cfg))
        end.
Proof.
  unfold buildCustomerAggregate. intros Ea Ec. rewrite Ec in Ea. destruct sc; [|by injection Ea as <-].
  destruct (cfg_Customers cfg); [|done]. cbn in Ea. injection Ea as <-. by destruct subOps.
Qed.

(** C39: A connector is what its configuration says. The catalog, the checkout, the
    webhooks, the invoices, the quotes and the refunds have the namespace of the
    application, and plans and coupons its catalog; the cache resolves every declared price.
    There is a Stripe client unless both backends are overridden; with it there are the
    customers, payment methods, disputes, quotes, portal configuration, climate, coupons
    and refunds, all with that client, and without it none of them. Credits, metering,
    subscriptions and plans are there exactly when their repositories are configured,
    invoices when there is a client or an invoice backend. The webhooks have a queue, which
    [Shutdown] drains, exactly when asynchronous webhooks are configured, and the drift
    detector and the pruning run exactly when they are. *)
Theorem New_wellformed cfg active c active' :
  New cfg active = (Returns c, active') -> connector_wf cfg c.
Proof.
  intros E. pose proof (subscriptions_wf _ _ _ _ E) as Hsub. revert E.
  destruct (New_cases cfg active) as [[e ->]|([_ (spec0 & Ec0 & Hm) _ _ _ _] & _ & ->)]; [done|].
  intros [= Ec _]. apply construct_inv in Ec
    as (sc & lister & spec & wh & Eb & Ec & Ew & Es & Enw & Ewh & Eck & Esc & Esp & Esh & Ei & Ecr & Eme & Epl &
        agg & Ea & Ecu & Ere & Equ & Eco & Epm & Edi & Epo & Ecl & Eq).
  rewrite Ec in Ec0. injection Ec0 as <-. apply (aggregate_wf _ _ spec) in Ea; [|done].
  pose proof (build_client_wf _ _ _ Eb) as Hcl. destruct (hooks_wf cfg) as (Hq & Hd & Hp).
  apply NewWebhooks_fields in Enw as (nets & Hwh & _).
  constructor; rewrite ?Esc, ?Ei, ?Esh; [|..|by apply invoices_wf| | |done].
  - exists spec. do 5 (split; [done|]). unfold stripe_subsystems. rewrite Esc, Ecu, Ere, Equ, Eco, Epm, Edi, Epo, Ecl, Ea.
    destruct sc; [|done]. do 7 (split; [done|]). eexists. split; [done|]. apply bool_decide_eq_true.
  - pose proof (Warm_correct (asPriceLister lister (warm_timeout cfg)) spec NewCache) as W. rewrite Ew in W.
    destruct W as [Hw W]. split; [done|]. intros spec' k Hs' Hk. rewrite Esp in Hs'. simplify_eq.
    destruct (W k Hk) as (id & resolved & _ & Hid). destruct Hid as [Hid _]. rewrite Hid. by eexists.
  - done.
  - rewrite Ecr. apply is_Some_if.
  - rewrite Eme. apply is_Some_if.
  - done.
  - rewrite Ewh. destruct (cfg_AsyncWebhooks cfg); cbn [set_queue rc_webhooks]; by rewrite Hwh.
  - rewrite Hq, Eq, Ewh, fmap_is_Some. split; [done|]. split; [|done].
    destruct (cfg_AsyncWebhooks cfg); cbn [set_queue rc_webhooks]; rewrite Hwh; cbn; split; done.
Qed.

(** ** The namespaces of a process *)

(** The namespaces that are locked, and the connectors made so far with whether they are
    live, not yet shut down. *)
Record process := mkProcess { pr_active : gset string; pr_conns : list (Connector * bool) }.
(** [again] lets a connector be shut down more than once. *)
Inductive pstep (again : bool) : process -> process -> Prop :=
| p_new cfg c active' p :
    New cfg (pr_active p) = (Returns c, active') ->
    pstep again p (mkProcess active' (pr_conns p ++ [(c, true)]))
| p_new_fails cfg r active' p :
    New cfg (pr_active p) = (r, active') -> (forall c, r <> Returns c) ->
    pstep again p (mkProcess active' (pr_conns p))
| p_shutdown i c live ctx err c' active' p :
    pr_conns p !! i = Some (c, live) -> again || live = true ->
    Shutdown ctx c (pr_active p) = (err, c', active') ->
    pstep again p (mkProcess active' (<[i := (c', false)]> (pr_conns p))).
Inductive preach (again : bool) : process -> Prop :=
| preach_start : preach again (mkProcess ∅ [])
| preach_step p p' : preach again p -> pstep again p p' -> preach again p'.

Definition conn_ns c : string := match cn_spec c with Some spec => Namespace spec | None => "" end.
Definition live_namespaces (l : list (Connector * bool)) : list string :=
  map (fun x => conn_ns (fst x)) (List.filter snd l).

Lemma live_app l l' : live_namespaces (l ++ l') = live_namespaces l ++ live_namespaces l'.
Proof. unfold live_namespaces. by rewrite List.filter_app, map_app. Qed.

Definition process_inv (p : process) : Prop :=
  Forall (fun x => is_Some (cn_spec (fst x))) (pr_conns p) /\
  NoDup (live_namespaces (pr_conns p)) /\
  forall ns, ns ∈ pr_active p <-> ns ∈ live_namespaces (pr_conns p).

Lemma Shutdown_active ctx c active err c' active' :
  Shutdown ctx c active = (err, c', active') -> is_Some (cn_spec c) ->
  cn_spec c' = cn_spec c /\ active' = active ∖ {[conn_ns c]}.
Proof. unfold Shutdown, conn_ns. intros [= _ <- <-] [spec E]. by rewrite E. Qed.

Lemma process_inv_step p p' : process_inv p -> pstep false p p' -> process_inv p'.
Proof.
  intros (Hs & Hnd & Ha) Hst.
  destruct Hst as [cfg c active' p E|cfg r active' p E Hr|i c live ctx err c' active' p Hi Hl E]; cbn in *.
  - pose proof (New_outcome cfg (pr_active p)) as C. rewrite E in C. destruct C as (_ & Hn & ->).
    apply New_spec_ns in E as (spec & Hsp & _ & Hns).
    assert (Hc : live_namespaces [(c, true)] = [cfg_AppNamespace cfg]) by (cbn; unfold conn_ns; by rewrite Hsp, Hns).
    unfold process_inv. cbn [pr_conns pr_active]. rewrite live_app, Hc.
    split; [apply Forall_app; split; [done|]; constructor; [by eexists|constructor]|].
    rewrite Ha in Hn. split; [apply NoDup_app; split; [done|]; split; [set_solver|apply NoDup_singleton]|].
    intros ns. rewrite elem_of_union, elem_of_app, Ha. set_solver.
  - pose proof (New_outcome cfg (pr_active p)) as C. rewrite E in C.
    destruct r; [by edestruct Hr|by subst|by destruct C as [-> _]].
  - destruct live; [|done]. assert (Hsc : is_Some (cn_spec c)) by exact (proj1 (Forall_lookup _ _) Hs _ _ Hi).
    destruct (Shutdown_active _ _ _ _ _ _ E Hsc) as [Hsp ->].
    assert (Hlt : (i < List.length (pr_conns p))%nat) by by eapply lookup_lt_Some.
    set (l1 := take i (pr_conns p)) in *. set (l2 := drop (S i) (pr_conns p)) in *.
    assert (El : pr_conns p = l1 ++ (c, true) :: l2) by (symmetry; by apply take_drop_middle).
    assert (En : live_namespaces (pr_conns p) ≡ₚ conn_ns c :: live_namespaces (l1 ++ l2)).
    { rewrite El, !live_app. cbn. by rewrite Permutation_middle. }
    unfold process_inv. cbn [pr_conns pr_active]. rewrite insert_take_drop by done. fold l1 l2.
    assert (En' : live_namespaces (l1 ++ (c', false) :: l2) = live_namespaces (l1 ++ l2)) by by rewrite !live_app.
    rewrite En'. rewrite En in Hnd. apply NoDup_cons in Hnd as [Hnin Hnd].
    split; [|split; [done|]].
    + rewrite El, Forall_app, Forall_cons in Hs. destruct Hs as (? & _ & ?).
      rewrite Forall_app, Forall_cons. cbn. by rewrite Hsp.
    + intros ns. rewrite elem_of_difference, Ha, En, elem_of_cons, elem_of_singleton. set_solver.
Qed.

(** C29: A namespace has one connector. As long as no connector is shut down twice, in
    every state of a process the live connectors have different namespaces, and the
    locked namespaces are theirs. *)
Theorem namespaces_exclusive p :
  preach false p ->
  NoDup (live_namespaces (pr_conns p)) /\ forall ns, ns ∈ pr_active p <-> ns ∈ live_namespaces (pr_conns p).
Proof.
  intros Hr. enough (process_inv p) as (_ & ?) by done.
  induction Hr as [|p p' _ IH Hs]; [|by eapply process_inv_step]. split; [constructor|]. split; [constructor|].
  intros ns. cbn. set_solver.
Qed.

(** [Shutdown] is documented as safe to call again, but it gives up the namespace
    whoever holds it: a second call for a connector that has been replaced lets a third
    one come up beside the second. *)
Theorem second_shutdown_unlocks cfg c active' :
  New cfg ∅ = (Returns c, active') ->
  exists p, preach true p /\ live_namespaces (pr_conns p) = [cfg_AppNamespace cfg; cfg_AppNamespace cfg].
Proof.
  intros E. pose proof (New_outcome cfg ∅) as C. rewrite E in C. destruct C as (_ & _ & ->).
  pose proof (New_spec_ns _ _ _ _ E) as (spec & Hsp & _ & Hns).
  assert (Hsh : forall c0, cn_spec c0 = Some spec ->
    Shutdown None c0 ({[cfg_AppNamespace cfg]} ∪ ∅) = (run_hooks None (cn_shutdown c0) None, clear_hooks c0, ∅)).
  { intros c0 Hc0. unfold Shutdown. rewrite Hc0, Hns. do 2 f_equal. apply set_eq. set_solver. }
  exists (mkProcess ({[cfg_AppNamespace cfg]} ∪ ∅) [(clear_hooks (clear_hooks c), false); (c, true); (c, true)]).
  split; [|cbn; unfold conn_ns; by rewrite Hsp, Hns].
  eapply (preach_step _ (mkProcess ∅ [(clear_hooks (clear_hooks c), false); (c, true)])); [|exact (p_new true cfg c _ (mkProcess ∅ _) E)].
  eapply (preach_step _ (mkProcess ({[cfg_AppNamespace cfg]} ∪ ∅) [(clear_hooks c, false); (c, true)]));
    [|exact (p_shutdown true 0 (clear_hooks c) false None _ _ _ (mkProcess _ [_; _]) eq_refl eq_refl (Hsh (clear_hooks c) Hsp))].
  eapply (preach_step _ (mkProcess ∅ [(clear_hooks c, false)])); [|exact (p_new true cfg c _ (mkProcess ∅ _) E)].
  eapply (preach_step _ (mkProcess ({[cfg_AppNamespace cfg]} ∪ ∅) [(c, true)]));
    [|exact (p_shutdown true 0 c true None _ _ _ (mkProcess _ [_]) eq_refl eq_refl (Hsh c Hsp))].
  eapply (preach_step _ (mkProcess ∅ [])); [constructor|exact (p_new true cfg c _ (mkProcess ∅ []) E)].
Qed.
End connector.
