(* ===== verification/ConnectorDelivery.v ===== *)
(** * ConnectorDelivery: an event from Stripe's request to the books, through a connector
      that [New] returned.

    [lib_step] says which of the library's handlers comes first for an event; the theorems
    compose it with the receiver of WebhookTheorems, the handlers of CreditHandlerFacts
    and the checkout of CheckoutFacts. *)
From S2P Require Import Prelude Json Events CatalogSpec CatalogCache Credits CreditsMemory CreditHandlers CreditHandlerFacts Checkout CheckoutFacts Webhooks WebhookWorld WebhookTheorems WebhookSource Subscriptions SubscriptionOps Connector ConnectorFacts.
Import MemoryLog.

Section delivery.
Context `{GoRuntime}.
Context {L M B A : Type} `{CreditRepo L} `{SubscriptionRepo M}.
Context (env : nat -> Env (L := L)) (credit_text : handler_error -> string) (mirror_text : mirror_error -> string)
        (sub_call : backend_call -> B -> option string * B).
Context (stripe_lister : stripe_client -> PriceLister) (is_deadline : string -> bool).
Context (ConstructEvent : string -> string -> string -> option stripe_event).
Abbreviation Backing := (Backing L M B A).
Abbreviation Handler := (Handler L M B A).
Abbreviation Config := (Config L M B A).
Abbreviation Connector := (Connector L M B A).
Implicit Types (cfg : Config) (c : Connector) (s : Backing) (W : World Backing).
Abbreviation New := (New env credit_text mirror_text sub_call stripe_lister is_deadline).
Abbreviation wire_handlers := (wire_handlers env credit_text mirror_text sub_call).

(** The library's part in handling an event. *)
Definition lib_step cfg (spec : Spec) : Handler := fun evt s =>
  let eq := String.eqb (ev_Type evt) in
  if eq "checkout.session.completed" then
    if cfg_Credits cfg then grants_step env credit_text evt s else (None, s)
  else if eq "invoice.paid" || eq "invoice.payment_succeeded" then
    if cfg_Credits cfg then recurring_step env credit_text spec evt s else (None, s)
  else if eq "customer.subscription.created" || eq "customer.subscription.updated" || eq "customer.subscription.deleted" then
    if cfg_Subscriptions cfg then mirror_step env mirror_text evt s else (None, s)
  else if eq "charge.refunded" || eq "refund.created" then
    if cfg_Credits cfg && cfg_AutoRevokeCreditsOnRefund cfg then reversal_step env credit_text evt s else (None, s)
  else if eq "refund.failed" || eq "charge.refund.updated" then
    if cfg_AutoCancelSubscriptionOnFailedRefund cfg && cfg_Subscriptions cfg then
      cancel_step sub_call (cfg_PaymentIntentToSubscriptionResolver cfg) evt s
    else (None, s)
  else (None, s).

(** What [run_dispatch] does with a handler. *)
Definition run_handler (o : option Handler) (evt : Event) s : option string * Backing :=
  match o with Some h => h evt s | None => (None, s) end.

Lemma wire_typed cfg spec subOps evt s :
  (is_Some subOps <-> cfg_Subscriptions cfg = true) ->
  run_handler (typed_handler (wire_handlers cfg spec subOps) (ev_Type evt)) evt s =
  then_user (lib_step cfg spec) (typed_handler (cfg_Handlers cfg) (ev_Type evt)) evt s.
Proof.
  intros Hsub. unfold then_user, lib_step, typed_handler.
  assert (Es : bool_decide (is_Some subOps) = cfg_Subscriptions cfg).
  { destruct (cfg_Subscriptions cfg); [by apply bool_decide_eq_true_2, Hsub|].
    apply bool_decide_eq_false_2. by intros ?%Hsub. }
  generalize (ev_Type evt). intros ty.
  repeat match goal with |- context [String.eqb ty ?t] => destruct (String.eqb_spec ty t) as [->|_]; cbn [orb] end;
    cbn; rewrite ?Es; repeat match goal with |- context [if ?b then Some _ else _] => destruct b; cbn end; done.
Qed.

(** The receiver of a connector. *)
Lemma New_receiver cfg active c active' :
  New cfg active = (Returns c, active') -> exists spec,
  cfg_Catalog cfg = Some spec /\ (is_Some (cn_Subscriptions c) <-> cfg_Subscriptions cfg = true) /\
  cn_Checkout c = mkCheckoutOps (cfg_AppNamespace cfg) spec /\
  rc_allowedCIDRs (cn_Webhooks c) = [] /\
  rc_webhooks (cn_Webhooks c) =
    mkWebhooks (cfg_WebhookSecret cfg) [] (cfg_AppNamespace cfg) (wire_handlers cfg spec (cn_Subscriptions c)) ∅
      (cfg_WebhookEventLog cfg) (match cfg_AsyncWebhooks cfg with Some _ => true | None => false end)
      (cfg_WebhookPerEventPolicy cfg) DefaultMaxBodyBytes.
Proof.
  intros E. pose proof (subscriptions_wf _ _ _ _ _ _ _ _ _ _ E) as Hs.
  destruct (New_cases env credit_text mirror_text sub_call stripe_lister is_deadline cfg active)
    as [[e Ee]|(_ & _ & Ee)]; rewrite Ee in E; [done|].
  injection E as Ec _. apply construct_inv in Ec as (sc & lister & spec & wh & _ & Ec & _ & _ & Enw & Ewh & Eck & _).
  apply NewWebhooks_fields in Enw as (nets & Erw & [= <-] & En). exists spec. split; [done|]. split; [done|]. split; [done|].
  rewrite Ewh. destruct (cfg_AsyncWebhooks cfg); cbn; rewrite Erw; done.
Qed.

Lemma dispatch_wired cfg active c active' evt s :
  New cfg active = (Returns c, active') -> exists spec, cfg_Catalog cfg = Some spec /\
  run_dispatch (fun (h : Handler) => h) (rc_webhooks (cn_Webhooks c)) evt s =
  then_user (lib_step cfg spec) (typed_handler (cfg_Handlers cfg) (ev_Type evt)) evt s.
Proof.
  intros (spec & Ec & Hs & _ & _ & Ew)%New_receiver. exists spec. split; [done|].
  rewrite Ew. unfold run_dispatch. cbn. rewrite lookup_empty. rewrite <- (wire_typed cfg spec _ evt s Hs). done.
Qed.

(** C38: The library comes first, then the application. Dispatching an event through the
    receiver of a connector runs the library's handler for its type, grants for a
    checkout or an invoice, the mirror for a subscription, a revocation or a
    cancellation for a refund, each only if it is configured; then, unless that failed,
    the application's handler for the type, on the state the library left. *)
Theorem dispatch_composed cfg active c active' evt s :
  New cfg active = (Returns c, active') -> exists spec, cfg_Catalog cfg = Some spec /\
  run_dispatch (fun (h : Handler) => h) (rc_webhooks (cn_Webhooks c)) evt s =
  then_user (lib_step cfg spec) (typed_handler (cfg_Handlers cfg) (ev_Type evt)) evt s.
Proof. exact (dispatch_wired cfg active c active' evt s). Qed.

(** ** Deliveries *)
Context (exhausted : Handler -> LoggedEvent -> Backing -> option string * Backing).
(** A request to the endpoint of the connector, run to its end. *)
Definition deliver c (src : HttpSource) (body : string) W : Z * World Backing :=
  exec (fun (h : Handler) => h) exhausted
    (Handle ConstructEvent (rc_webhooks (cn_Webhooks c)) (http_request (cn_Webhooks c) src body false)) W.

Section credited.
Context {GL : GrantLaws L}.
Context cfg active c active' (HN : New cfg active = (Returns c, active'))
  (Hcredits : cfg_Credits cfg = true) (Hsync : cfg_AsyncWebhooks cfg = None)
  (** no policy gives up on checkout events, and the application's handler of them
      leaves the ledger alone *)
  (Hpolicy : cfg_WebhookPerEventPolicy cfg !! "checkout.session.completed" = None)
  (Happ : forall h evt s, OnCheckoutCompleted (cfg_Handlers cfg) = Some h -> so_ledger (snd (h evt s)) = so_ledger s)
  (Henv : forall r i u, fresh_env (en_stamp (env r) i u)).
Context (src : HttpSource) (body : string) (e : stripe_event)
  (Hsize : Z.of_nat (String.length body) <= DefaultMaxBodyBytes)
  (Hsigned : ConstructEvent body (hs_Header src "Stripe-Signature") (cfg_WebhookSecret cfg) = Some e)
  (Htype : se_Type e = "checkout.session.completed")
  (Hours : classifyNamespace (cfg_AppNamespace cfg) e = filterDispatch)
  (Hevent : session_event_ok (S := L) (fromStripeEvent e)).

(** The event is not being handled right now, and the ledger is sound. *)
Definition settled W : Prop :=
  (slot_at W (se_ID e) = Free \/ slot_at W (se_ID e) = Done) /\ gl_ok (so_ledger (wd_app W)).

Lemma grants_step_ok s :
  gl_ok (so_ledger s) ->
  let r := ApplyGrantsFromSession (en_stamp (env (so_runs s))) (fromStripeEvent e) (so_ledger s) in
  gl_ok (snd r) /\
  grants_step env credit_text (fromStripeEvent e) s = (credit_text <$> fst r, set_ledger (snd r) s).
Proof.
  intros Hok. cbv zeta. split; [|unfold grants_step; by destruct (ApplyGrantsFromSession _ _ _)].
  destruct (ApplyGrants_cases _ Hevent) as [[r Hr]|(session & grants & subj & _ & _ & _ & Hg & Hr)]; rewrite Hr; [done|].
  destruct (grant_all_inputs (en_stamp (env (so_runs s))) session subj 0 grants (Henv _) Hg _ Hok) as (s1 & -> & Hok1 & _). done.
Qed.

(** A delivery when the event is free: the grants are applied, and the event is done or
    free again. *)
Lemma deliver_free W :
  slot_at W (se_ID e) = Free -> gl_ok (so_ledger (wd_app W)) ->
  let W' := snd (deliver c src body W) in
  settled W' /\
  so_ledger (wd_app W') =
    snd (ApplyGrantsFromSession (en_stamp (env (so_runs (wd_app W)))) (fromStripeEvent e) (so_ledger (wd_app W))).
Proof.
  intros Hfree Hok. cbv zeta. destruct (New_receiver _ _ _ _ HN) as (spec & Ec & _ & _ & Hcidr & Ew).
  destruct (dispatch_wired _ _ _ _ (fromStripeEvent e) (wd_app W) HN) as (spec' & Ec' & Hd).
  rewrite Ec in Ec'. injection Ec' as <-. unfold then_user in Hd.
  unfold lib_step in Hd. cbn [ev_Type fromStripeEvent] in Hd. rewrite Htype, Hcredits in Hd. cbn in Hd.
  destruct (grants_step_ok (wd_app W) Hok) as [Hok' Hg].
  set (r := ApplyGrantsFromSession _ _ _) in *. rewrite Hg in Hd.
  pose proof (Handle_ends (fun (h : Handler) => h) exhausted ConstructEvent (rc_webhooks (cn_Webhooks c))
    (http_request (cn_Webhooks c) src body false) e W) as HO. fold (deliver c src body W) in HO.
  assert (Hled : so_ledger (snd (run_dispatch (fun h : Handler => h) (rc_webhooks (cn_Webhooks c)) (fromStripeEvent e) (wd_app W))) = snd r).
  { rewrite Hd. destruct (fst r) as [err|]; [done|]. cbn.
    destruct (OnCheckoutCompleted (cfg_Handlers cfg)) as [h|] eqn:Eh; [|done]. by rewrite (Happ h). }
  specialize (HO ltac:(cbn; by rewrite Hcidr) eq_refl ltac:(by rewrite Ew)
    ltac:(unfold verifySignature; rewrite Ew; cbn; by rewrite Hsigned) ltac:(by rewrite Ew)
    ltac:(rewrite Ew; cbn; by rewrite Hsync) Hfree). cbv zeta in HO.
  destruct (run_dispatch _ _ _ _) as [err a]. cbn in Hled.
  assert (Hp : forall n, policy_of (rc_webhooks (cn_Webhooks c)) (se_Type e) n = None).
  { intros n. unfold policy_of. rewrite Ew. cbn. by rewrite Htype, Hpolicy. }
  destruct err as [err|]; [rewrite Hp in HO|]; destruct HO as (_ & Hslot & Ha & _);
    (unfold settled; split; [split; [auto|]|]); by rewrite Ha, Hled.
Qed.

(** A delivery when it is done. *)
Lemma deliver_done W : slot_at W (se_ID e) = Done -> deliver c src body W = (200, W).
Proof.
  intros Hdone. destruct (New_receiver _ _ _ _ HN) as (spec & _ & _ & _ & Hcidr & Ew).
  unfold deliver, Handle, verifySignature. rewrite Ew. cbn. rewrite Hcidr. cbn.
  rewrite (proj2 (Z.ltb_ge _ _) Hsize), Hsigned, andb_false_r. cbn. by rewrite Hdone.
Qed.

(** The world after [n] deliveries of the event. *)
Definition deliveries (n : nat) W : World Backing := Nat.iter n (fun W => snd (deliver c src body W)) W.

(** Handling the event again changes nothing. *)
Definition neutral (l : L) : Prop :=
  forall st, (forall i u, fresh_env (st i u)) -> gl_same l (snd (ApplyGrantsFromSession st (fromStripeEvent e) l)).
Definition first_ledger W : L :=
  snd (ApplyGrantsFromSession (en_stamp (env (so_runs (wd_app W)))) (fromStripeEvent e) (so_ledger (wd_app W))).

Lemma deliveries_ledger n W :
  slot_at W (se_ID e) = Free -> gl_ok (so_ledger (wd_app W)) ->
  let l := so_ledger (wd_app (deliveries (S n) W)) in
  settled (deliveries (S n) W) /\ neutral l /\ gl_same (first_ledger W) l.
Proof.
  intros Hfree Hok. cbv zeta. induction n as [|n [[Hs Hok'] [Hn Hsame]]].
  - destruct (deliver_free W Hfree Hok) as [Hs Hl]. change (deliveries 1 W) with (snd (deliver c src body W)).
    rewrite Hl. split; [done|]. split; [|reflexivity]. intros st Hst.
    exact (proj2 (session_redelivery _ st _ _ Hok (Henv _) Hst Hevent)).
  - change (deliveries (S (S n)) W) with (snd (deliver c src body (deliveries (S n) W))).
    set (Wn := deliveries (S n) W) in *. destruct Hs as [Hf|Hd].
    + destruct (deliver_free Wn Hf Hok') as [Hs2 Hl]. rewrite Hl. split; [done|]. split.
      * intros st Hst. exact (proj2 (session_redelivery _ st _ _ Hok' (Henv _) Hst Hevent)).
      * etransitivity; [exact Hsame|]. apply Hn, Henv.
    + rewrite (deliver_done Wn Hd). cbn [snd]. by repeat split; [right|..].
Qed.
End credited.

(** C7: From the order to the books. A connector is made with a credit ledger, an
    order for items that carry credits is placed through its checkout, and Stripe
    delivers the completed session, with the metadata it was created with, to the
    endpoint of the connector, once or any number of times and whatever the
    application's own handler answers, which does not touch the ledger. Deliveries are handled
    at once, without a queue, and events of the type have no policy. Then every unit that
    was bought is on the books of the subject with its amount, under a reference of its own,
    where that reference was not on the books before; and the ledger is the one that the
    first delivery alone gives. *)
Theorem order_to_books {GL : GrantLaws L} {CR BK} `{CustomerRepo CR} `{CheckoutBackend BK}
    cfg active c active' input (w : CR * BK) sess (w' : CR * BK) :
  New cfg active = (Returns c, active') ->
  cfg_Credits cfg = true -> cfg_AsyncWebhooks cfg = None ->
  cfg_WebhookPerEventPolicy cfg !! "checkout.session.completed" = None ->
  (forall h evt s, OnCheckoutCompleted (cfg_Handlers cfg) = Some h -> so_ledger (snd (h evt s)) = so_ledger s) ->
  (forall r i u, fresh_env (en_stamp (env r) i u)) ->
  let ck := cn_Checkout c in
  let bought := collectPendingGrants (ck_Spec ck) (in_LineItems input) in
  CreateSession (ck_Namespace ck) (ck_Spec ck) (CatalogCache.Lookup (cn_Catalog c)) input w = (Ok sess, w') ->
  Forall pending_ok bought -> Forall (session_ok (S := L) (in_SubjectID input)) bought ->
  exists p b, bk_CreateCheckoutSession p b = (Ok sess, snd w') /\
    forall src body e session W n i g u,
      Z.of_nat (String.length body) <= DefaultMaxBodyBytes ->
      ConstructEvent body (hs_Header src "Stripe-Signature") (cfg_WebhookSecret cfg) = Some e ->
      se_Type e = "checkout.session.completed" ->
      classifyNamespace (cfg_AppNamespace cfg) e = filterDispatch ->
      decodeSession (fromStripeEvent e) = Some session -> ss_Metadata session = Checkout.sc_Metadata p ->
      slot_at W (se_ID e) = Free -> gl_ok (so_ledger (wd_app W)) ->
      bought !! i = Some g -> (u < units g)%nat ->
      ~ gl_has (so_ledger (wd_app W)) (in_SubjectID input) (pg_Bucket g) (session_ref session i u) ->
      let l := so_ledger (wd_app (deliveries c src body (S n) W)) in
      gl_worth l (in_SubjectID input) (pg_Bucket g) (session_ref session i u) (pg_Amount g) /\
      gl_same (so_ledger (wd_app (deliveries c src body 1 W))) l.
Proof.
  intros HN Hcr Has Hpol Happ Henv ck bought Hcs Hpo Hso.
  destruct (CreateSession_carries _ _ _ _ _ _ _ Hcs Hpo) as (p & b & Eb & _ & Hdec & Hsub & Hne).
  exists p, b. split; [done|]. intros src body e session W n i g u Hsz Hsig Hty Hns Hd Hm Hfree Hok Hi Hu Hnew. cbv zeta.
  fold bought in Hdec. specialize (Hdec ltac:(by intros E0; rewrite E0 in Hi)). rewrite <- Hm in Hdec, Hsub.
  assert (Hev : session_event_ok (S := L) (fromStripeEvent e)).
  { intros session' grants' Hd' Hg'. rewrite Hd in Hd'. injection Hd' as <-. rewrite Hdec in Hg'. injection Hg' as <-. by rewrite Hsub. }
  pose proof (fun n => deliveries_ledger _ _ _ _ HN Hcr Has Hpol Happ Henv src body e Hsz Hsig Hty Hns Hev n W Hfree Hok) as HL.
  destruct (HL n) as (_ & _ & Hn). destruct (HL 0%nat) as (_ & _ & Hone). split.
  - eapply gl_same_worth; [exact Hn|]. rewrite <- Hsub in Hnew |- *. revert Hnew.
    apply (session_grants_each (en_stamp (env (so_runs (wd_app W)))) (fromStripeEvent e) (so_ledger (wd_app W)) session bought);
      try done; try apply Henv; congruence.
  - etransitivity; [symmetry; exact Hone|exact Hn].
Qed.

(** An event whose object carries no namespace of its own is acknowledged without the
    library's handlers, whatever its type. Stripe puts the metadata of a subscription
    into [subscription_details] of its invoices, where the recurring grants look for the
    subject, but not into the metadata of the invoice, where the filter looks. *)
Theorem unstamped_skips_library cfg active c active' src body e W :
  New cfg active = (Returns c, active') -> OnOtherEvent (cfg_Handlers cfg) = None ->
  Z.of_nat (String.length body) <= DefaultMaxBodyBytes ->
  ConstructEvent body (hs_Header src "Stripe-Signature") (cfg_WebhookSecret cfg) = Some e ->
  extractAppNamespace e = None -> slot_at W (se_ID e) = Free ->
  let '(status, W') := deliver c src body W in
  status = 200 /\ slot_at W' (se_ID e) = Done /\ wd_app W' = wd_app W.
Proof.
  intros HN Ho Hsz Hsig Hns Hfree.
  pose proof (New_outcome env credit_text mirror_text sub_call stripe_lister is_deadline cfg active) as C.
  rewrite HN in C. destruct C as ([Hne _ _ _ _ _] & _ & _).
  destruct (New_receiver _ _ _ _ HN) as (spec & _ & _ & _ & Hcidr & Ew).
  unfold deliver, Handle, verifySignature. rewrite Ew. cbn [w_signingSecret w_additionalSecrets w_maxBodyBytes http_request rq_source_allowed rq_body rq_read_error rq_signature].
  rewrite Hcidr, (proj2 (Z.ltb_ge _ _) Hsz), Hsig, andb_false_r. cbn [negb source_allowed allowlistConfigured Datatypes.length Nat.ltb Nat.leb].
  cbn [exec]. rewrite Hfree. cbn [exec]. rewrite Hfree. cbn [negb].
  unfold handle_claimed. cbn [w_namespace]. unfold classifyNamespace.
  rewrite (proj2 (String.eqb_neq _ _) Hne), Hns. cbn [w_handlers wire_handlers OnOtherEvent]. rewrite Ho. cbn.
  rewrite decide_True by (unfold slot_at; cbn; by rewrite lookup_insert_eq).
  unfold recordToLog. cbn. destruct (cfg_WebhookEventLog cfg); cbn; (split; [done|]; split; [|done]);
    unfold slot_at; cbn; by rewrite lookup_insert_eq.
Qed.

(** The grants of a checkout paid with a delayed method are applied when the session
    completes, before the money is there, and the event that says it has come reaches
    no handler of the library. *)
Theorem async_payment_unhandled cfg active c active' evt s :
  New cfg active = (Returns c, active') -> ev_Type evt = "checkout.session.async_payment_succeeded" ->
  run_dispatch (fun (h : Handler) => h) (rc_webhooks (cn_Webhooks c)) evt s =
  run_handler (OnOtherEvent (cfg_Handlers cfg)) evt s.
Proof.
  intros HN Ht. destruct (dispatch_wired _ _ _ _ evt s HN) as (spec & _ & ->).
  unfold then_user, lib_step. by rewrite Ht.
Qed.

(** A handler registered for a type replaces the library's own as well. *)
Theorem registered_replaces_library cfg active c active' (h : Handler) evt s :
  New cfg active = (Returns c, active') -> ev_Type evt <> "" ->
  run_dispatch (fun (h : Handler) => h) (Register (ev_Type evt) (Some h) (rc_webhooks (cn_Webhooks c))) evt s = h evt s.
Proof.
  intros HN Ht. unfold Register, run_dispatch. rewrite (proj2 (String.eqb_neq _ _) Ht). cbn. by rewrite lookup_insert_eq.
Qed.

(** A cancellation that Stripe refuses is not an error of the handler, so that the event is
    done and never tried again. *)
Theorem failed_cancel_forgotten resolver evt s call msg b :
  CancelSubscriptionFromFailedRefund resolver evt = Calls call -> sub_call call (so_stripe s) = (Some msg, b) ->
  cancel_step sub_call resolver evt s = (None, set_stripe b s).
Proof. intros Ec Es. unfold cancel_step. by rewrite Ec, Es. Qed.
End delivery.

(** ** A run of the model *)
Module ConnectorDemo.
Import Memory HandlerDemo CheckoutDemo.
Abbreviation App := (list string).
Abbreviation State := (Backing memoryRepo MemSubs.memoryRepo (list backend_call) App).
Abbreviation H := (Handler memoryRepo MemSubs.memoryRepo (list backend_call) App).
Definition clock (n : nat) : Env (L := memoryRepo) :=
  mkEnv (fun _ _ => env (100 + Z.of_nat n)) 0 0.
Definition lister : PriceLister := fun _ keys => Ok (map (fun k => mkResolved k "price_1" "prod_1" true) keys).
(** The application's handler fails when it first sees an event. *)
Definition on_checkout : H := fun evt s =>
  let s' := mkBacking (so_ledger s) (so_mirror s) (so_cache s) (so_stripe s) (ev_ID evt :: so_app s) (so_runs s) in
  (if decide (ev_ID evt ∈ so_app s) then None else Some "busy", s').
Definition handlers : Handlers H :=
  mkHandlers (Some on_checkout) None None None None None None None None None None None None None None None None None.
Definition config : Config memoryRepo MemSubs.memoryRepo (list backend_call) App :=
  mkConfig "" "whsec" "demo" (Some demo_spec) true true handlers true false true 0 0 0 (Some (Some lister)) true true false
    None ∅ true false false None false false None false false false 0 0 0.
Definition made_with := New clock (fun _ => "credits") (fun _ => "mirror") (fun call b => (None, call :: b))
  (fun _ => lister) (fun _ => false) config.
Definition signed (body sig secret : string) : option stripe_event :=
  if String.eqb secret "whsec" then Some (mkStripeEvent "evt_9" "checkout.session.completed" true 1779885296 (Some paid_payload)) else None.
Definition stripe : HttpSource := mkSource (fun _ => "t=1,v1=ab") "3.18.12.63:443".
Definition world : World State :=
  mkWorld ∅ 0 ∅ [] true 0 (mkBacking NewMemoryRepo ∅ NewCache [] [] 0).
Definition shown (r : run connector_error (Connector memoryRepo MemSubs.memoryRepo (list backend_call) App))
  : option (CheckoutOps * Cache) :=
  match r with Returns c => Some (cn_Checkout c, cn_Catalog c) | _ => None end.
Definition cache : Cache := mkCache {["demo.starter.once" := "price_1"]} true.
Lemma conn_made :
  exists c a, made_with ∅ = (Returns c, a) /\ cn_Checkout c = mkCheckoutOps "demo" demo_spec /\ cn_Catalog c = cache.
Proof.
  assert (E : shown (fst (made_with ∅)) = Some (mkCheckoutOps "demo" demo_spec, cache)) by (vm_compute; reflexivity).
  destruct (made_with ∅) as [[c|err|msg] a]; cbn in E; [|done|done]. exists c, a. by simplify_eq.
Qed.
Definition placed : res checkout_error CheckoutSession * (memoryCustomerRepo * list SessionCreate) :=
  CreateSession "demo" demo_spec (CatalogCache.Lookup cache) order (NewMemoryCustomerRepo, []).
Lemma placed_eq : placed = (Ok demo_session, (mkMemoryCustomers {["user_1" := "cus_user_1"]}, [demo_params])).
Proof. vm_compute. reflexivity. Qed.
Definition event : stripe_event :=
  mkStripeEvent "evt_9" "checkout.session.completed" true 1779885296 (Some paid_payload).
End ConnectorDemo.
Import Memory CheckoutDemo.

Lemma dispatch_composed_witness :
  exists c a, ConnectorDemo.made_with ∅ = (Returns c, a) /\ forall evt s,
  exists spec, cfg_Catalog ConnectorDemo.config = Some spec /\
  run_dispatch (fun h : ConnectorDemo.H => h) (rc_webhooks (cn_Webhooks c)) evt s =
  then_user (lib_step ConnectorDemo.clock (fun _ => "credits") (fun _ => "mirror") (fun call b => (None, call :: b)) ConnectorDemo.config spec)
    (typed_handler ConnectorDemo.handlers (ev_Type evt)) evt s.
Proof.
  destruct ConnectorDemo.conn_made as (c & a & Hc & _). exists c, a. split; [done|]. intros evt s.
  exact (dispatch_composed _ _ _ _ _ _ _ _ c a evt s Hc).
Defined.

Lemma order_to_books_witness :
  exists c a, ConnectorDemo.made_with ∅ = (Returns c, a) /\
  exists g, g ∈ grants_of (so_ledger (wd_app (deliveries ConnectorDemo.signed (fun _ _ s => (None, s)) c
      ConnectorDemo.stripe "body" 3 ConnectorDemo.world))) "user_1" /\
    g_Bucket g = "api" /\ g_SourceRef g = "pi_1:0:1" /\ g_AmountInitial g = 500.
Proof.
  destruct ConnectorDemo.conn_made as (c & a & Hc & Hck & Hca). exists c, a. split; [done|].
  destruct (order_to_books ConnectorDemo.clock (fun _ => "credits") (fun _ => "mirror") (fun call b => (None, call :: b))
    (fun _ => ConnectorDemo.lister) (fun _ => false) ConnectorDemo.signed (fun _ _ s => (None, s))
    ConnectorDemo.config ∅ c a CheckoutDemo.order (NewMemoryCustomerRepo, []) CheckoutDemo.demo_session
    (mkMemoryCustomers {["user_1" := "cus_user_1"]}, [CheckoutDemo.demo_params]) Hc eq_refl eq_refl (lookup_empty _))
    as (p & b & Ep & Hr).
  - by intros h evt s [= <-].
  - intros r i u. apply HandlerDemo.env_fresh.
  - rewrite Hck, Hca. exact ConnectorDemo.placed_eq.
  - rewrite Hck. unfold ck_Spec. rewrite CheckoutDemo.order_pending. repeat constructor; cbn; unfold int64_min, int64_max; lia.
  - rewrite Hck. unfold ck_Spec. rewrite CheckoutDemo.order_pending. constructor; [|constructor].
    intros ref m _. split; [split; reflexivity|]. cbn. unfold int64_max. lia.
  - injection Ep as -> _. rewrite Hck in Hr. unfold ck_Spec in Hr.
    apply (Hr ConnectorDemo.stripe "body" ConnectorDemo.event CheckoutDemo.paid_session ConnectorDemo.world 2%nat 0%nat HandlerDemo.pack 1%nat);
      [vm_compute; discriminate|reflexivity|reflexivity|vm_compute; reflexivity|exact CheckoutDemo.paid_decodes|reflexivity|
       reflexivity|exact HandlerDemo.empty_ok|by rewrite CheckoutDemo.order_pending|vm_compute; lia|by intros (g & Hg%not_elem_of_nil & _)].
Defined.

Lemma New_wellformed_witness :
  exists c a, ConnectorDemo.made_with ∅ = (Returns c, a) /\ connector_wf ConnectorDemo.config c.
Proof.
  destruct ConnectorDemo.conn_made as (c & a & Hc & _). exists c, a. split; [done|].
  exact (New_wellformed _ _ _ _ _ _ _ _ c a Hc).
Defined.

Lemma namespaces_exclusive_witness :
  exists c, live_namespaces [(c : Connector memoryRepo MemSubs.memoryRepo (list backend_call) (list string), true)] = ["demo"] /\
  NoDup (live_namespaces [(c, true)]).
Proof.
  destruct ConnectorDemo.conn_made as (c & a & Hc & _). exists c.
  pose proof (New_spec_ns _ _ _ _ _ _ _ _ c a Hc) as (spec & Hs & [= <-] & _).
  split; [cbn; unfold conn_ns; by rewrite Hs|].
  refine (proj1 (namespaces_exclusive ConnectorDemo.clock (fun _ => "credits") (fun _ => "mirror") (fun call b => (None, call :: b))
    (fun _ => ConnectorDemo.lister) (fun _ => false) (mkProcess a [(c, true)]) _)).
  eapply preach_step; [apply preach_start|]. exact (p_new _ _ _ _ _ _ false ConnectorDemo.config c a (mkProcess ∅ []) Hc).
Defined.

Lemma second_shutdown_unlocks_witness :
  exists p : process (L := memoryRepo) (M := MemSubs.memoryRepo) (B := list backend_call) (A := list string),
    live_namespaces (pr_conns p) = ["demo"; "demo"].
Proof.
  destruct ConnectorDemo.conn_made as (c & a & Hc & _).
  destruct (second_shutdown_unlocks _ _ _ _ _ _ _ c a Hc) as (p & _ & Hp). by exists p.
Defined.

(** An unpaid session is credited: the payload says that nothing has been paid. *)
Definition unpaid_payload : string :=
  render (JObj [("id", JStr "cs_1"); ("payment_intent", JStr "pi_1"); ("payment_status", JStr "unpaid");
    ("metadata", JObj [(MetadataKeyNamespace, JStr "demo"); ("subject_id", JStr "user_1");
       (SessionMetadataKey, JStr (render (JArr [enc_PendingGrant HandlerDemo.pack])))])]).
Example unpaid_session_credited :
  let evt := fromStripeEvent (mkStripeEvent "evt_9" "checkout.session.completed" true 1779885296 (Some unpaid_payload)) in
  let r := ApplyGrantsFromSession (fun _ _ => HandlerDemo.env 100) evt NewMemoryRepo in
  fst r = None /\ map g_SourceRef (grants_of (snd r) "user_1") = ["pi_1:0:0"; "pi_1:0:1"].
Proof. vm_compute. done. Qed.
