(* ===== verification/StripeCalls.v ===== *)
(** * StripeCalls: requests to the Stripe API, and what an idempotency key does to them.

    The backends of src/stripeapi/ build the parameters of stripe-go, set an idempotency
    key and send one request after the other. A backend operation is a program of type
    [calls]: requests, each with what happens for its answer. The parameters are the
    fields that are set, under the names of the API. stripe-go and Stripe answer a
    [request]; [with_idempotency] is the documented treatment of the key on top of any
    such server. *)
From Stdlib Require Import SpecFloat.
From S2P Require Import Prelude StripeApi.

(** ** Parameters *)
#[export] Instance spec_float_eq_dec : EqDecision spec_float.
Proof. solve_decision. Defined.
#[local] Unset Elimination Schemes.
Inductive pval :=
| PStr (s : string)
| PInt (z : Z)
| PBool (b : bool)
| PFloat (f : spec_float)
| PMap (m : smap)
| PRec (l : list (string * pval))
| PList (l : list pval).
#[local] Set Elimination Schemes.
#[export] Instance pval_eq_dec : EqDecision pval.
Proof.
  refine (fix go x y : Decision (x = y) := let _ : EqDecision pval := @go in
    match x, y with
    | PStr a, PStr b => cast_if (decide (a = b))
    | PInt a, PInt b => cast_if (decide (a = b))
    | PBool a, PBool b => cast_if (decide (a = b))
    | PFloat a, PFloat b => cast_if (decide (a = b))
    | PMap a, PMap b => cast_if (decide (a = b))
    | PRec a, PRec b => cast_if (decide (a = b))
    | PList a, PList b => cast_if (decide (a = b))
    | _, _ => right _
    end); abstract congruence.
Defined.
Abbreviation params := (list (string * pval)).

Definition str (name s : string) : params := [(name, PStr s)].
Definition int (name : string) (z : Z) : params := [(name, PInt z)].
Definition bool_ (name : string) (b : bool) : params := [(name, PBool b)].
Definition rec_ (name : string) (l : params) : params := [(name, PRec l)].
Definition when (b : bool) (l : params) : params := if b then l else [].
(** [if s != ""] around a pointer to [s]. *)
Definition opt_str (name s : string) : params := when (negb (String.eqb s "")) (str name s).
(** [if z > 0] around a pointer to [z]. *)
Definition pos_int (name : string) (z : Z) : params := when (0 <? z) (int name z).
(** [AddMetadata] for every entry of a map. *)
Definition meta (m : smap) : params := when (negb (bool_decide (m = ∅))) [("metadata", PMap m)].

Definition param (name : string) (l : params) : option pval := snd <$> List.find (fun x => String.eqb (fst x) name) l.
Definition str_param (name : string) (l : params) : option string :=
  match param name l with Some (PStr s) => Some s | _ => None end.
Definition int_param (name : string) (l : params) : option Z :=
  match param name l with Some (PInt z) => Some z | _ => None end.
Definition bool_param (name : string) (l : params) : option bool :=
  match param name l with Some (PBool b) => Some b | _ => None end.
Definition rec_param (name : string) (l : params) : option params :=
  match param name l with Some (PRec r) => Some r | _ => None end.

(** ** Requests and answers *)
Record request := mkReq { rq_op : string; rq_target : string; rq_params : params; rq_key : string }.
#[export] Instance request_eq_dec : EqDecision request.
Proof. solve_decision. Defined.

(** The objects of stripe-go, as far as the backends read them. *)
Record stripe_product := mkStripeProduct {
  sp_ID : string; sp_Name : string; sp_TaxCode : option string; sp_Active : bool; sp_Description : string; sp_Metadata : smap }.
Record stripe_price := mkStripePrice {
  st_ID : string; st_LookupKey : string; st_Product : option string; st_Active : bool; st_UnitAmount : Z; st_Currency : string;
  st_Type : string; st_Recurring : option (string * Z); st_Metadata : smap }.
Record stripe_meter := mkStripeMeter {
  sm_ID : string; sm_EventName : string; sm_DisplayName : string; sm_Status : string; sm_Formula : option string }.
Record stripe_item := mkStripeItem {
  im_ID : string; im_Quantity : Z; im_Price : option (string * string) (* id and lookup key *);
  im_PeriodStart : Z; im_PeriodEnd : Z }.
Record stripe_subscription := mkStripeSub {
  ss_ID : string; ss_Status : string; ss_CancelAtPeriodEnd : bool; ss_Metadata : smap; ss_Created : Z;
  ss_Customer : option string; ss_CanceledAt : Z; ss_EndedAt : Z; ss_TrialStart : Z; ss_TrialEnd : Z;
  ss_Items : option (list stripe_item) }.
Record stripe_invoice := mkStripeInvoice {
  sv_ID : string; sv_Number : string; sv_Status : string; sv_Currency : string; sv_Total : Z; sv_Subtotal : Z;
  sv_AmountDue : Z; sv_AmountPaid : Z; sv_TotalTaxes : list (option Z); sv_Created : Z; sv_DueDate : Z;
  sv_HostedInvoiceURL : string; sv_InvoicePDF : string;
  sv_Customer : option (string * string * option string) (* id, email and the country of the address *);
  sv_CustomerTaxIDs : list string;
  sv_StatusTransitions : option (Z * Z * Z) (* finalized, paid and voided *);
  sv_Lines : option (list (string * Z * option string)) (* description, amount and price *) }.
Record stripe_promo := mkStripePromo {
  so_ID : string; so_Code : string; so_Active : bool; so_MaxRedemptions : Z; so_TimesRedeemed : Z; so_Metadata : smap;
  so_Created : Z; so_Coupon : option string; so_Customer : option string; so_ExpiresAt : Z;
  so_Restrictions : option (bool * Z * string) }.
Record stripe_refund := mkStripeRefund {
  sf_ID : string; sf_Amount : Z; sf_Currency : string; sf_Status : string; sf_Reason : string; sf_Created : Z;
  sf_Charge : option string }.
Record stripe_balance_tx := mkStripeTx {
  sx_ID : string; sx_Type : string; sx_Amount : Z; sx_Currency : string; sx_Description : string; sx_Created : Z;
  sx_Invoice : option string }.

Record stripe_dispute := mkStripeDispute {
  sd_ID : string; sd_Amount : Z; sd_Currency : string; sd_Reason : string; sd_Status : string; sd_IsChargeRefundable : bool;
  sd_Created : Z; sd_Charge : option string; sd_PaymentIntent : option string;
  sd_EvidenceDetails : option (Z * bool) (* due by, and whether there is evidence *) }.
Record stripe_setup_intent := mkStripeSetupIntent {
  sn_ID : string; sn_ClientSecret : string; sn_Status : string; sn_Created : Z;
  sn_NextAction : option (string * option (string * string)) (* type, and the URL and return URL of a redirect *) }.
Record stripe_payment_method := mkStripePM {
  sy_ID : string; sy_Type : string; sy_Created : Z; sy_Metadata : smap;
  sy_Card : option (string * string * Z * Z) (* brand, last four digits, month and year *) }.
Record stripe_quote := mkStripeQuote {
  sq_ID : string; sq_Number : string; sq_Status : string; sq_AmountTotal : Z; sq_AmountSubtotal : Z; sq_Currency : string;
  sq_Created : Z; sq_Customer : option string; sq_ExpiresAt : Z; sq_Subscription : option string; sq_Invoice : option string }.
Record stripe_climate_order := mkStripeOrder {
  sk_ID : string; sk_AmountTotal : Z; sk_Currency : string; sk_MetricTons : spec_float; sk_Created : Z; sk_Status : string }.

Inductive object :=
| OProduct (p : stripe_product)
| OPrice (p : stripe_price)
| OMeter (m : stripe_meter)
| OCustomer (id currency : string) (balance : Z) (default_pm : option string)
| OSession (id url secret : string)
| OPortal (id url : string)
| OSubscription (s : stripe_subscription)
| OSchedule (id status : string)
| OInvoice (i : stripe_invoice)
| OPromo (p : stripe_promo)
| ORefund (r : stripe_refund)
| OBalanceTx (t : stripe_balance_tx)
| OClock (id status : string) (frozen : Z)
| ODispute (d : stripe_dispute)
| OSetupIntent (s : stripe_setup_intent)
| OPaymentMethod (p : stripe_payment_method)
| OQuote (q : stripe_quote)
| OClimateOrder (o : stripe_climate_order)
| OOther (id : string).
(** A listing is its objects, over all pages, and the error that ends it, if any. *)
Inductive answer := One (o : object) | Listing (l : list object) (err : option string).

(** ** Programs *)
Inductive calls (A : Type) : Type :=
| Give (a : A)
| Send (r : request) (k : res string answer -> calls A).
Arguments Give {A}. Arguments Send {A}.
Fixpoint cbind {A B} (p : calls A) (f : A -> calls B) : calls B :=
  match p with
  | Give a => f a
  | Send r k => Send r (fun x => cbind (k x) f)
  end.
Declare Scope calls_scope.
Delimit Scope calls_scope with calls.
Notation "'do' x <- p ; q" := (cbind p (fun x => q)) (at level 10, x pattern, q at level 200) : calls_scope.
Open Scope calls_scope.

(** One write whose answer is read by [f], or whose error is prefixed. *)
Definition send_one {A} (r : request) (what : string) (f : object -> option A) : calls (res string A) :=
  Send r (fun x => Give
    match x with
    | Err e => Err (what ^^ e)
    | Ok (One o) => match f o with Some a => Ok a | None => Err (what ^^ "unexpected object") end
    | Ok (Listing _ _) => Err (what ^^ "unexpected list")
    end).
(** A write whose answer is not read. *)
Definition send_unit (r : request) (what : string) : calls (option string) :=
  Send r (fun x => Give match x with Err e => Some (what ^^ e) | Ok _ => None end).
(** [for x, err := range List(ctx, params)]: the objects in order, or the error. *)
Definition send_list {A} (op : string) (ps : params) (what : string) (f : object -> option A) : calls (res string (list A)) :=
  Send (mkReq op "" ps "") (fun x => Give
    match x with
    | Err e => Err (what ^^ e)
    | Ok (One _) => Err (what ^^ "unexpected object")
    | Ok (Listing l (Some e)) => Err (what ^^ e)
    | Ok (Listing l None) => Ok (omap f l)
    end).
(** The same with [break] once [limit] objects are read, which is before a later error. *)
Definition send_first {A} (limit : nat) (op : string) (ps : params) (what : string) (f : object -> option A)
  : calls (res string (list A)) :=
  Send (mkReq op "" ps "") (fun x => Give
    match x with
    | Err e => Err (what ^^ e)
    | Ok (One _) => Err (what ^^ "unexpected object")
    | Ok (Listing l err) =>
        let read := omap f l in
        if Nat.leb limit (List.length read) then Ok (take limit read)
        else match err with Some e => Err (what ^^ e) | None => Ok read end
    end).

(** ** Running *)
Section run.
Context {X : Type} (serve : request -> X -> res string answer * X).
Fixpoint perform {A} (p : calls A) (x : X) : A * X :=
  match p with
  | Give a => (a, x)
  | Send r k => let '(a, x') := serve r x in perform (k a) x'
  end.
(** The requests a run sends. *)
Fixpoint sent {A} (p : calls A) (x : X) : list request :=
  match p with
  | Give _ => []
  | Send r k => let '(a, x') := serve r x in r :: sent (k a) x'
  end.
(** The same with the answers. *)
Fixpoint trace {A} (p : calls A) (x : X) : list (request * res string answer) :=
  match p with
  | Give _ => []
  | Send r k => let '(a, x') := serve r x in (r, a) :: trace (k a) x'
  end.
Lemma sent_trace {A} (p : calls A) x : sent p x = map fst (trace p x).
Proof. revert x. induction p as [a|r k IH]; intros x; cbn; [done|]. destruct (serve r x). cbn. by rewrite IH. Qed.
Lemma trace_bind {A B} (p : calls A) (f : A -> calls B) x :
  trace (cbind p f) x = trace p x ++ trace (f (fst (perform p x))) (snd (perform p x)).
Proof. revert x. induction p as [a|r k IH]; intros x; cbn; [done|]. destruct (serve r x). cbn. by rewrite IH. Qed.
Lemma perform_bind {A B} (p : calls A) (f : A -> calls B) x :
  perform (cbind p f) x = perform (f (fst (perform p x))) (snd (perform p x)).
Proof. revert x. induction p as [a|r k IH]; intros x; cbn; [done|]. destruct (serve r x). apply IH. Qed.
End run.

(** Every request of the program carries a key. *)
Inductive keyed {A} : calls A -> Prop :=
| keyed_give a : keyed (Give a)
| keyed_send r k : rq_key r <> "" -> (forall x, keyed (k x)) -> keyed (Send r k).
Lemma keyed_bind {A B} (p : calls A) (f : A -> calls B) :
  keyed p -> (forall a, keyed (f a)) -> keyed (cbind p f).
Proof. induction 1 as [a|r k Hr _ IH]; intros Hf; cbn; [auto|]. constructor; auto. Qed.

(** ** Idempotency *)
Lemma applied_key `{Sha256} ctx op inputs : op <> "" -> ApplyIdempotencyKey ctx op inputs <> "".
Proof. unfold ApplyIdempotencyKey, deriveKey. intros Hop. destruct (String.eqb_spec ctx ""); cbn; [by destruct op|done]. Qed.

(** Stripe keeps the first request with a key and its answer, whether that is a success
    or an error. The same request with the same key is answered the same and not carried
    out again, and another request with the key is refused. *)
Record idem (X : Type) := mkIdem { id_core : X; id_seen : gmap string (request * res string answer) }.
Arguments mkIdem {X}. Arguments id_core {X}. Arguments id_seen {X}.
Definition idempotency_error : string := "Keys for idempotent requests can only be used with the same parameters they were first used with.".

Section idem.
Context {X : Type} (serve : request -> X -> res string answer * X).
Definition with_idempotency (r : request) (s : idem X) : res string answer * idem X :=
  if String.eqb (rq_key r) "" then
    let '(a, x) := serve r (id_core s) in (a, mkIdem x (id_seen s))
  else match id_seen s !! rq_key r with
  | Some (r', a) => if decide (r' = r) then (a, s) else (Err idempotency_error, s)
  | None => let '(a, x) := serve r (id_core s) in (a, mkIdem x (<[rq_key r := (r, a)]> (id_seen s)))
  end.

Lemma with_idempotency_grows r s : id_seen s ⊆ id_seen (snd (with_idempotency r s)).
Proof.
  unfold with_idempotency. destruct (String.eqb _ ""); [by destruct (serve _ _)|].
  destruct (id_seen s !! rq_key r) as [[r' a]|] eqn:E; [by destruct (decide _)|].
  destruct (serve _ _). cbn. by apply insert_subseteq.
Qed.
Lemma perform_grows {A} (p : calls A) s : id_seen s ⊆ id_seen (snd (perform with_idempotency p s)).
Proof.
  revert s. induction p as [a|r k IH]; intros s; cbn; [done|].
  pose proof (with_idempotency_grows r s) as Hg. destruct (with_idempotency r s) as [a s'].
  etransitivity; [exact Hg|apply IH].
Qed.
(** Once answered, a keyed request is answered the same. *)
Lemma answered_again r s s2 :
  rq_key r <> "" -> id_seen (snd (with_idempotency r s)) ⊆ id_seen s2 ->
  with_idempotency r s2 = (fst (with_idempotency r s), s2).
Proof.
  unfold with_idempotency. intros Hk%String.eqb_neq Hsub. rewrite Hk in *.
  destruct (id_seen s !! rq_key r) as [[r' a]|] eqn:E.
  - assert (E2 : id_seen s2 !! rq_key r = Some (r', a)).
    { eapply lookup_weaken; [exact E|]. by destruct (decide _). }
    rewrite E2. by destruct (decide _).
  - destruct (serve r (id_core s)) as [a x]. cbn in *.
    rewrite (lookup_weaken _ _ (rq_key r) (r, a) (lookup_insert_eq _ _ _) Hsub). by rewrite decide_True.
Qed.
(** A run whose requests all carried a key is repeated without effect. *)
Definition has_key (r : request) : Prop := rq_key r <> "".
Lemma replayed_path {A} (p : calls A) s s2 :
  Forall has_key (sent with_idempotency p s) -> id_seen (snd (perform with_idempotency p s)) ⊆ id_seen s2 ->
  perform with_idempotency p s2 = (fst (perform with_idempotency p s), s2) /\
  trace with_idempotency p s2 = trace with_idempotency p s.
Proof.
  revert s s2. induction p as [a|r k IH]; intros s s2 Hs Hsub; cbn in *; [done|].
  assert (Hr : has_key r) by (destruct (with_idempotency r s); by apply Forall_cons in Hs as [? _]).
  rewrite (answered_again r s s2 Hr).
  - destruct (with_idempotency r s) as [a s']. apply Forall_cons in Hs as [_ Hs]. cbn.
    destruct (IH a s' s2 Hs Hsub) as [-> ->]. done.
  - destruct (with_idempotency r s) as [a s']. cbn in *. etransitivity; [apply (perform_grows (k a))|exact Hsub].
Qed.
Lemma keyed_sent {A} (p : calls A) s : keyed p -> Forall has_key (sent with_idempotency p s).
Proof.
  intros Hp. revert s. induction Hp as [a|r k Hr _ IH]; intros s; cbn; [constructor|].
  destruct (with_idempotency r s). constructor; auto.
Qed.
End idem.
