(* ===== verification/StripeCatalog.v ===== *)
(** * StripeCatalog: the catalog backend over the Stripe API (src/stripeapi/backend.go).

    Each operation of [catalog.Backend] and [catalog.PriceLister] as the requests it
    sends. [ctx] is the key of the caller, [""] when there is none. *)
From S2P Require Import Prelude StripeApi StripeCalls CatalogSpec CatalogCache CatalogSync.

Section backend.
Context `{Sha256} `{GoRuntime} (ctx : string).
Abbreviation applyIdem := (ApplyIdempotencyKey ctx).

(** ** Helpers *)
Definition FormatBool (b : bool) : string := if b then "true" else "false".
Definition nonEmptyStringPtr (name s : string) : params := opt_str name s.
Definition productTaxCode (p : stripe_product) : string := default "" (sp_TaxCode p).
Definition recurringInterval (p : stripe_price) : string := match st_Recurring p with Some (i, _) => i | None => "" end.
Definition recurringIntervalCount (p : stripe_price) : Z := match st_Recurring p with Some (_, n) => n | None => 0 end.
Definition intervalCountOrOne (n : Z) : Z := if n <=? 0 then 1 else n.
Definition aggregationFormula (s : string) : string :=
  if String.eqb s "count" || String.eqb s "sum" || String.eqb s "last" || String.eqb s "last_value" then
    if String.eqb s "last_value" then "last" else s
  else "sum".

Definition product_of (o : object) : option stripe_product := match o with OProduct p => Some p | _ => None end.
Definition price_of (o : object) : option stripe_price := match o with OPrice p => Some p | _ => None end.
Definition meter_of (o : object) : option stripe_meter := match o with OMeter m => Some m | _ => None end.

(** ** Lookup keys *)
Definition resolved_of (p : stripe_price) : ResolvedPrice :=
  mkResolved (st_LookupKey p) (st_ID p) (default "" (st_Product p)) (st_Active p).
Definition lookup_params (keys : list string) : params := [("lookup_keys", PList (map PStr keys)); ("limit", PStr "100")].
Definition listByLookupKeysBatch (keys : list string) : calls (res string (list ResolvedPrice)) :=
  send_list "V1Prices.List" (lookup_params keys) "" (fun o => resolved_of <$> price_of o).
Definition batchSize : nat := 10.
(** [for start := 0; start < len(keys); start += batchSize]: the keys from [start] on. *)
Fixpoint list_batches (fuel : nat) (start : Z) (keys : list string) (out : list ResolvedPrice) : calls (res string (list ResolvedPrice)) :=
  match fuel, keys with
  | _, [] => Give (Ok out)
  | O, _ => Give (Ok out)
  | S fuel, _ =>
      do batch <- listByLookupKeysBatch (take batchSize keys);
      match batch with
      | Err e =>
          let end_ := start + Z.of_nat (List.length (take batchSize keys)) in
          Give (Err ("list lookup_keys batch " ^^ fmt_d start ^^ ".." ^^ fmt_d end_ ^^ ": " ^^ e))
      | Ok batch => list_batches fuel (start + Z.of_nat batchSize) (drop batchSize keys) (out ++ batch)
      end
  end.
Definition ListByLookupKeys (keys : list string) : calls (res string (list ResolvedPrice)) :=
  list_batches (List.length keys) 0 keys [].

(** ** Products and prices *)
Definition existing_price (p : stripe_price) : ExistingPrice :=
  mkExPrice (st_ID p) (st_LookupKey p) (st_Active p) (st_UnitAmount p) (st_Currency p) (st_Type p)
    (recurringInterval p) (recurringIntervalCount p) (st_Metadata p).
Definition existing_product (p : stripe_product) (prices : list ExistingPrice) : ExistingProduct :=
  mkExProduct (sp_ID p) (sp_Name p) (productTaxCode p) (sp_Active p) (sp_Description p) (sp_Metadata p) prices.

Definition listPricesForProduct (productID : string) : calls (res string (list ExistingPrice)) :=
  send_list "V1Prices.List" [("product", PStr productID); ("limit", PStr "100")] "" (fun o => existing_price <$> price_of o).

(** The body of the range over the products; [err] is the error that ends it. *)
Fixpoint list_products (prefix : string) (products : list stripe_product) (err : option string)
    (out : list ExistingProduct) : calls (res string (list ExistingProduct)) :=
  match products with
  | [] => Give (match err with Some e => Err ("list products: " ^^ e) | None => Ok out end)
  | p :: rest =>
      if negb (has_prefix prefix (sp_ID p)) then list_products prefix rest err out
      else
        do prices <- listPricesForProduct (sp_ID p);
        match prices with
        | Err e => Give (Err ("list prices for " ^^ sp_ID p ^^ ": " ^^ e))
        | Ok prices => list_products prefix rest err (out ++ [existing_product p prices])
        end
  end.
Definition ListProductsByNamespace (namespace : string) : calls (res string (list ExistingProduct)) :=
  Send (mkReq "V1Products.List" "" [("limit", PStr "100")] "") (fun x =>
    match x with
    | Err e => Give (Err ("list products: " ^^ e))
    | Ok (One _) => Give (Err "list products: unexpected object")
    | Ok (Listing l err) => list_products ("prod_" ^^ namespace ^^ "_") (omap product_of l) err []
    end).

Definition product_create_params (p : NewProduct) : params :=
  str "id" (np_ID p) ++ str "name" (np_Name p) ++ nonEmptyStringPtr "description" (np_Description p) ++
  nonEmptyStringPtr "tax_code" (np_TaxCode p) ++ meta (np_Metadata p).
Definition CreateProduct (p : NewProduct) : calls (res string ExistingProduct) :=
  send_one (mkReq "V1Products.Create" "" (product_create_params p)
              (applyIdem "product.create" [np_ID p; np_Name p; np_TaxCode p; CanonicalMap (np_Metadata p)]))
    "stripe.Products.Create: " (fun o => (fun c => existing_product c []) <$> product_of o).

Definition product_update_params (u : ProductUpdate) : params :=
  opt_str "name" (pu_Name u) ++ opt_str "description" (pu_Description u) ++ meta (pu_Metadata u).
Definition UpdateProduct (productID : string) (u : ProductUpdate) : calls (option string) :=
  send_unit (mkReq "V1Products.Update" productID (product_update_params u)
               (applyIdem "product.update" [productID; pu_Name u; pu_Description u; CanonicalMap (pu_Metadata u)]))
    ("stripe.Products.Update(" ^^ productID ^^ "): ").
Definition UpdateProductActive (productID : string) (active : bool) : calls (option string) :=
  send_unit (mkReq "V1Products.Update" productID (bool_ "active" active)
               (applyIdem "product.set_active" [productID; FormatBool active]))
    ("stripe.Products.Update(" ^^ productID ^^ ", active=" ^^ FormatBool active ^^ "): ").

Definition price_create_params (p : NewPrice) : params :=
  str "product" (nr_ProductID p) ++ str "lookup_key" (nr_LookupKey p) ++ str "currency" (nr_Currency p) ++
  int "unit_amount" (nr_Amount p) ++ when (nr_TransferLookupKey p) (bool_ "transfer_lookup_key" true) ++
  when (String.eqb (nr_Type p) PriceTypeRecurring)
    (rec_ "recurring" (str "interval" (nr_Interval p) ++ int "interval_count" (intervalCountOrOne (nr_IntervalCount p)))) ++
  opt_str "tax_behavior" (nr_TaxBehavior p) ++ meta (nr_Metadata p).
Definition CreatePrice (p : NewPrice) : calls (res string ExistingPrice) :=
  send_one (mkReq "V1Prices.Create" "" (price_create_params p)
              (applyIdem "price.create"
                 [nr_ProductID p; nr_LookupKey p; nr_Currency p; CanonicalInt64 (nr_Amount p); nr_Type p; nr_Interval p;
                  CanonicalInt64 (nr_IntervalCount p); FormatBool (nr_TransferLookupKey p); nr_TaxBehavior p;
                  CanonicalMap (nr_Metadata p)]))
    ("stripe.Prices.Create(" ^^ nr_LookupKey p ^^ "): ") (fun o => existing_price <$> price_of o).
Definition UpdatePriceActive (priceID : string) (active : bool) : calls (option string) :=
  send_unit (mkReq "V1Prices.Update" priceID (bool_ "active" active)
               (applyIdem "price.set_active" [priceID; FormatBool active]))
    ("stripe.Prices.Update(" ^^ priceID ^^ ", active=" ^^ FormatBool active ^^ "): ").

(** ** Meters *)
Definition projectMeter (m : stripe_meter) : ExistingMeter :=
  mkExMeter (sm_ID m) (sm_EventName m) (sm_DisplayName m) (default "" (sm_Formula m)) (String.eqb (sm_Status m) "active").
Definition ListMetersByNamespace (namespace : string) : calls (res string (list ExistingMeter)) :=
  send_list "V1BillingMeters.List" [("limit", PStr "100")] "stripe.BillingMeters.List: "
    (fun o => match meter_of o with
              | Some m => if has_prefix (namespace ^^ ".") (sm_EventName m) then Some (projectMeter m) else None
              | None => None
              end).
Definition CreateMeter (m : NewMeter) : calls (res string ExistingMeter) :=
  send_one (mkReq "V1BillingMeters.Create" ""
              (str "display_name" (nm_DisplayName m) ++ str "event_name" (nm_EventName m) ++
               rec_ "default_aggregation" (str "formula" (aggregationFormula (nm_AggregateBy m))))
              (applyIdem "meter.create" [nm_DisplayName m; nm_EventName m; nm_AggregateBy m]))
    ("stripe.BillingMeters.Create(" ^^ nm_EventName m ^^ "): ") (fun o => projectMeter <$> meter_of o).
Definition ArchiveMeter (meterID : string) : calls (option string) :=
  send_unit (mkReq "V1BillingMeters.Deactivate" meterID [] (applyIdem "meter.archive" [meterID]))
    ("stripe.BillingMeters.Deactivate(" ^^ meterID ^^ "): ").
End backend.
