(* ===== verification/StripeCatalogFacts.v ===== *)
(** * StripeCatalogFacts: the requests of the catalog backend have the effects that a sync
      relies on.

    [CatalogServer] is what the API reference of Stripe says of products and prices, in
    terms of the parameters of a request that is carried out. Stripe itself is such a server
    behind [with_idempotency], which answers a request whose key it has seen without carrying
    it out: what a call does when its key is new, and when it is not, is [backend_refines]. *)
From S2P Require Import Prelude StripeApi StripeCalls StripeCatalog CatalogSpec CatalogCache CatalogSync CatalogSyncFacts.

(** ** Stripe's products and prices *)
Abbreviation raw_maps := (gmap string stripe_product * gmap string stripe_price)%type.

Definition updated_product (ps : params) (p : stripe_product) : stripe_product :=
  mkStripeProduct (sp_ID p) (default (sp_Name p) (str_param "name" ps)) (sp_TaxCode p)
    (default (sp_Active p) (bool_param "active" ps)) (default (sp_Description p) (str_param "description" ps)) (sp_Metadata p).
Definition with_active (a : bool) (p : stripe_price) : stripe_price :=
  mkStripePrice (st_ID p) (st_LookupKey p) (st_Product p) a (st_UnitAmount p) (st_Currency p) (st_Type p) (st_Recurring p) (st_Metadata p).
Definition without_key (key : string) (p : stripe_price) : stripe_price :=
  if String.eqb (st_LookupKey p) key then
    mkStripePrice (st_ID p) "" (st_Product p) (st_Active p) (st_UnitAmount p) (st_Currency p) (st_Type p) (st_Recurring p) (st_Metadata p)
  else p.
(** A product and a price as created from parameters. *)
Definition product_as (ps : params) (c : stripe_product) : Prop :=
  Some (sp_ID c) = str_param "id" ps /\ Some (sp_Name c) = str_param "name" ps /\
  sp_Description c = default "" (str_param "description" ps) /\ sp_Active c = true.
Definition price_as (ps : params) (c : stripe_price) : Prop :=
  st_Product c = str_param "product" ps /\ Some (st_LookupKey c) = str_param "lookup_key" ps /\ st_Active c = true /\
  Some (st_UnitAmount c) = int_param "unit_amount" ps /\ Some (st_Currency c) = str_param "currency" ps /\
  match rec_param "recurring" ps with
  | Some r => st_Type c = PriceTypeRecurring /\
      match str_param "interval" r, int_param "interval_count" r with
      | Some i, Some n => st_Recurring c = Some (i, n)
      | _, _ => True
      end
  | None => st_Type c = PriceTypeOneTime
  end.

(** The server behind the idempotency layer: what carrying out a request does. *)
Class CatalogServer (X : Type) := {
  serve : request -> X -> res string answer * X;
  raw : X -> raw_maps;
  raw_product x id p : fst (raw x) !! id = Some p -> sp_ID p = id;
  raw_price x id p : snd (raw x) !! id = Some p -> st_ID p = id;
  raw_owner x id p : snd (raw x) !! id = Some p -> exists o, st_Product p = Some o /\ is_Some (fst (raw x) !! o);
  raw_key x i j p q : snd (raw x) !! i = Some p -> snd (raw x) !! j = Some q ->
    st_LookupKey p <> "" -> st_LookupKey p = st_LookupKey q -> i = j;
  (** listing changes nothing *)
  reads_only op ps x : op = "V1Products.List" \/ op = "V1Prices.List" -> snd (serve (mkReq op "" ps "") x) = x;
  list_products_law ps x l : fst (serve (mkReq "V1Products.List" "" ps "") x) = Ok (Listing l None) ->
    NoDup (map sp_ID (omap product_of l)) /\ forall p, p ∈ omap product_of l <-> fst (raw x) !! sp_ID p = Some p;
  list_prices_law ps pid x l : fst (serve (mkReq "V1Prices.List" "" ps "") x) = Ok (Listing l None) ->
    str_param "product" ps = Some pid -> param "lookup_keys" ps = None ->
    forall p, p ∈ omap price_of l <-> snd (raw x) !! st_ID p = Some p /\ st_Product p = Some pid;
  list_keys_law keys x l : fst (serve (mkReq "V1Prices.List" "" (lookup_params keys) "") x) = Ok (Listing l None) ->
    forall p, p ∈ omap price_of l <-> snd (raw x) !! st_ID p = Some p /\ st_LookupKey p ∈ keys;
  create_product_raw ps key x c x' :
    serve (mkReq "V1Products.Create" "" ps key) x = (Ok (One (OProduct c)), x') ->
    product_as ps c /\ fst (raw x) !! sp_ID c = None /\ raw x' = (<[sp_ID c := c]> (fst (raw x)), snd (raw x));
  update_product_raw id ps key x a x' :
    serve (mkReq "V1Products.Update" id ps key) x = (Ok a, x') ->
    raw x' = (alter (updated_product ps) id (fst (raw x)), snd (raw x));
  create_price_raw ps key x c x' :
    serve (mkReq "V1Prices.Create" "" ps key) x = (Ok (One (OPrice c)), x') ->
    price_as ps c /\ snd (raw x) !! st_ID c = None /\
    (bool_param "transfer_lookup_key" ps <> Some true ->
       forall i p, snd (raw x) !! i = Some p -> st_LookupKey p <> st_LookupKey c) /\
    raw x' = (fst (raw x), <[st_ID c := c]> (without_key (st_LookupKey c) <$> snd (raw x)));
  update_price_raw id ps key a x ans x' :
    serve (mkReq "V1Prices.Update" id ps key) x = (Ok ans, x') -> bool_param "active" ps = Some a ->
    raw x' = (fst (raw x), alter (with_active a) id (snd (raw x)));
  meters_raw op id ps key x a x' :
    op = "V1BillingMeters.Create" \/ op = "V1BillingMeters.Deactivate" ->
    serve (mkReq op id ps key) x = (Ok a, x') -> raw x' = raw x;
}.

Section refinement.
Context `{Sha256} `{GoRuntime} (ctx : string) {X : Type} `{CatalogServer X}.

(** ** The abstraction *)
Definition product_state (p : stripe_product) : pstate := (sp_Name p, sp_Description p, sp_Active p).
Definition owned_price (p : stripe_price) : string * ExistingPrice := (default "" (st_Product p), existing_price p).
Definition catalog_view (x : X) : maps := (product_state <$> fst (raw x), owned_price <$> snd (raw x)).

Definition done {A} (r : res string A) : option string := match r with Ok _ => None | Err e => Some e end.
#[export] Instance stripe_backend : Backend X := {
  bk_ListProductsByNamespace ns x := fst (perform serve (ListProductsByNamespace ns) x);
  bk_CreateProduct n x := let '(r, x') := perform serve (CreateProduct ctx n) x in (done r, x');
  bk_UpdateProduct id u x := perform serve (UpdateProduct ctx id u) x;
  bk_UpdateProductActive id a x := perform serve (UpdateProductActive ctx id a) x;
  bk_CreatePrice n x := let '(r, x') := perform serve (CreatePrice ctx n) x in (done r, x');
  bk_UpdatePriceActive pid a x := perform serve (UpdatePriceActive ctx pid a) x;
  bk_ListMetersByNamespace ns x := fst (perform serve (ListMetersByNamespace ns) x);
  bk_CreateMeter n x := let '(r, x') := perform serve (CreateMeter ctx n) x in (done r, x');
  bk_ArchiveMeter id x := perform serve (ArchiveMeter ctx id) x;
}.

(** ** One request *)
Lemma send_one_ok {A} r what (f : object -> option A) x x' :
  (let '(a, y) := perform serve (send_one r what f) x in (done a, y)) = (None, x') ->
  exists o a, serve r x = (Ok (One o), x') /\ f o = Some a.
Proof.
  cbn. destruct (serve r x) as [[[o|l e]|e] y]; cbn; [|done|done].
  destruct (f o) as [a|] eqn:E; [|done]. intros [= <-]. by exists o, a.
Qed.
Lemma send_unit_ok r what x x' :
  perform serve (send_unit r what) x = (None, x') -> exists a, serve r x = (Ok a, x').
Proof. cbn. destruct (serve r x) as [[a|e] y]; cbn; [|done]. intros [= <-]. by exists a. Qed.
Lemma send_list_ok {A} op ps what (f : object -> option A) x l :
  fst (perform serve (send_list op ps what f) x) = Ok l ->
  exists objs, fst (serve (mkReq op "" ps "") x) = Ok (Listing objs None) /\ l = omap f objs.
Proof.
  cbn. destruct (serve _ x) as [[[o|objs [e|]]|e] y]; cbn; [done|done| |done]. intros [= <-]. by exists objs.
Qed.

(** ** Listing *)
Lemma listPrices_spec pid x l :
  fst (perform serve (listPricesForProduct pid) x) = Ok l ->
  forall e, e ∈ l <-> snd (catalog_view x) !! ep_ID e = Some (pid, e).
Proof.
  intros (objs & Es & ->)%send_list_ok e. pose proof (list_prices_law _ pid x objs Es eq_refl eq_refl) as L. cbn.
  rewrite lookup_fmap, list_elem_of_omap, fmap_Some. split.
  - intros (o & Ho & He). destruct o; try done. cbn in He. injection He as <-.
    destruct (proj1 (L p)) as [Hr Hp]; [apply list_elem_of_omap; by exists (OPrice p)|].
    exists p. split; [done|]. unfold owned_price. by rewrite Hp.
  - intros (p & Hp & E). injection E as E1 E2. destruct (raw_owner _ _ _ Hp) as (o & Ho & _). rewrite Ho in E1. cbn in E1. subst.
    assert (Hin : p ∈ omap price_of objs) by (apply L; by rewrite (raw_price _ _ _ Hp)).
    apply list_elem_of_omap in Hin as (o' & Ho' & Eo). exists o'. split; [done|]. by rewrite Eo.
Qed.

Lemma listPrices_reads pid x : snd (perform serve (listPricesForProduct pid) x) = x.
Proof.
  cbn. pose proof (reads_only "V1Prices.List" [("product", PStr pid); ("limit", PStr "100")] x (or_intror eq_refl)) as R.
  by destruct (serve _ x).
Qed.

(** The rows of the products of the namespace, in order. *)
Definition rows_of (prefix : string) (x : X) (products : list stripe_product) (rows : list ExistingProduct) : Prop :=
  Forall2 (fun p row => exists prices, row = existing_product p prices /\
             forall e, e ∈ prices <-> snd (catalog_view x) !! ep_ID e = Some (sp_ID p, e))
    (List.filter (fun p => has_prefix prefix (sp_ID p)) products) rows.

Lemma list_products_spec prefix products err out x l :
  fst (perform serve (list_products prefix products err out) x) = Ok l ->
  err = None /\ exists rows, l = out ++ rows /\ rows_of prefix x products rows.
Proof.
  revert out. induction products as [|p products IH]; intros out; cbn [list_products].
  - destruct err; [done|]. intros [= <-]. split; [done|]. exists []. rewrite app_nil_r. by split; [|constructor].
  - unfold rows_of. cbn [List.filter]. destruct (has_prefix prefix (sp_ID p)); cbn [negb]; [|apply IH].
    rewrite perform_bind, listPrices_reads.
    pose proof (listPrices_spec (sp_ID p) x) as L.
    destruct (fst (perform serve (listPricesForProduct (sp_ID p)) x)) as [prices|e]; [|done].
    intros (-> & rows & -> & Hr)%IH. split; [done|]. eexists (_ :: rows). rewrite <- app_assoc. split; [done|].
    constructor; [|done]. exists prices. split; [done|]. by apply L.
Qed.

Lemma ListProducts_spec ns x l :
  fst (perform serve (ListProductsByNamespace ns) x) = Ok l ->
  exists products, NoDup (map sp_ID products) /\ (forall p, p ∈ products <-> fst (raw x) !! sp_ID p = Some p) /\
    rows_of ("prod_" ^^ ns ^^ "_") x products l.
Proof.
  unfold ListProductsByNamespace. cbn [perform].
  pose proof (reads_only "V1Products.List" [("limit", PStr "100")] x (or_introl eq_refl)) as R.
  pose proof (list_products_law [("limit", PStr "100")] x) as L.
  destruct (serve _ x) as [[[o|objs err]|e] y]; [done| |done]. cbn in R, L. subst y.
  intros (-> & rows & -> & Hr)%list_products_spec. destruct (L objs eq_refl) as [Hn Hp]. by exists (omap product_of objs).
Qed.

Lemma rows_lists ns x l : fst (perform serve (ListProductsByNamespace ns) x) = Ok l -> lists ns (catalog_view x) l.
Proof.
  intros (products & Hn & Hp & Hr)%ListProducts_spec. unfold rows_of in Hr. set (prefix := "prod_" ^^ ns ^^ "_") in *.
  set (kept := List.filter (fun p => has_prefix prefix (sp_ID p)) products) in *.
  assert (Hk : forall p, p ∈ kept <-> fst (raw x) !! sp_ID p = Some p /\ has_prefix prefix (sp_ID p) = true).
  { intros p. unfold kept. by rewrite list_elem_of_In, filter_In, <- list_elem_of_In, Hp. }
  assert (Hids : map xp_ID l = map sp_ID kept).
  { clear -Hr. induction Hr as [|p row ps rows (prices & -> & _) _ IH]; cbn; [done|]. by rewrite IH. }
  assert (Hrow : forall row, row ∈ l -> exists p prices, p ∈ kept /\ row = existing_product p prices /\
            forall e, e ∈ prices <-> snd (catalog_view x) !! ep_ID e = Some (sp_ID p, e)).
  { intros row (i & Hi)%list_elem_of_lookup. destruct (Forall2_lookup_r _ _ _ _ _ Hr Hi) as (p & Hpi & prices & -> & He).
    exists p, prices. split; [by eapply list_elem_of_lookup_2|done]. }
  constructor.
  - rewrite Hids. unfold kept. clear -Hn. induction products as [|p ps IH]; [constructor|]. cbn in *.
    apply NoDup_cons in Hn as [Hnin Hn]. destruct (has_prefix _ _); [|auto]. cbn. constructor; [|auto].
    intros (q & E & Hq)%elem_of_map. apply Hnin, elem_of_map. exists q. split; [done|].
    rewrite list_elem_of_In, filter_In, <- list_elem_of_In in Hq. tauto.
  - intros id. cbn [fst catalog_view]. rewrite lookup_fmap, fmap_is_Some. split.
    + intros (row & (p & prices & [Hp1 Hp2]%Hk & -> & _)%Hrow & <-). cbn. split; [by eexists|done].
    + intros [[p Hid] Hpre]. pose proof (raw_product _ _ _ Hid) as Ei.
      assert (Hin : id ∈ map xp_ID l).
      { rewrite Hids. apply elem_of_map. exists p. split; [done|]. apply Hk. rewrite Ei. done. }
      apply elem_of_map in Hin as (row & -> & Hrow'). by exists row.
  - intros row (p & prices & [Hp1 _]%Hk & -> & _)%Hrow. cbn. by rewrite lookup_fmap, Hp1.
  - intros row e (p & prices & _ & -> & He)%Hrow. cbn. apply He.
Qed.

(** ** Effects *)
Lemma create_product_effect n x x' :
  bk_CreateProduct n x = (None, x') -> effect (KCreateProduct n) (catalog_view x) (catalog_view x').
Proof.
  intros (o & a & Es & Eo)%send_one_ok. destruct o; try done.
  destruct (create_product_raw _ _ _ _ _ Es) as ((Hid & Hname & Hdesc & Hact) & Hfree & Hraw).
  cbn in Hid, Hname. injection Hid as Hid. injection Hname as Hname.
  assert (Hd : sp_Description p = np_Description n).
  { rewrite Hdesc. unfold product_create_params, nonEmptyStringPtr, opt_str.
    destruct (String.eqb_spec (np_Description n) "") as [->|]; [|done]. cbn.
    destruct (String.eqb (np_TaxCode n) ""); cbn; unfold meta; by destruct (bool_decide _). }
  unfold catalog_view. rewrite Hraw. cbn. rewrite <- Hid. split; [by rewrite lookup_fmap, Hfree|].
  rewrite fmap_insert. unfold product_state at 1. by rewrite Hname, Hd, Hact.
Qed.

Lemma updated_by u p :
  product_state (updated_product (product_update_params u) p) = update_product u (product_state p).
Proof.
  unfold product_state, update_product, updated_product, product_update_params, opt_str. cbn.
  destruct (String.eqb (pu_Name u) ""), (String.eqb (pu_Description u) ""); cbn;
    unfold meta; by destruct (bool_decide _).
Qed.

Lemma update_product_effect id u x x' :
  bk_UpdateProduct id u x = (None, x') -> effect (KUpdateProduct id u) (catalog_view x) (catalog_view x').
Proof.
  intros (a & Es)%send_unit_ok. apply update_product_raw in Es. unfold catalog_view. rewrite Es. cbn.
  f_equal. apply fmap_alter. intros p _. apply updated_by.
Qed.
Lemma product_active_effect id a x x' :
  bk_UpdateProductActive id a x = (None, x') -> effect (KProductActive id a) (catalog_view x) (catalog_view x').
Proof.
  intros (ans & Es)%send_unit_ok. apply update_product_raw in Es. unfold catalog_view. rewrite Es. cbn.
  f_equal. by apply fmap_alter.
Qed.
Lemma price_active_effect pid a x x' :
  bk_UpdatePriceActive pid a x = (None, x') -> effect (KPriceActive pid a) (catalog_view x) (catalog_view x').
Proof.
  intros (ans & Es)%send_unit_ok. apply (update_price_raw _ _ _ a) in Es; [|done]. unfold catalog_view. rewrite Es. cbn.
  f_equal. by apply fmap_alter.
Qed.

Lemma price_created n c :
  price_as (price_create_params n) c -> price_from n (st_ID c) (existing_price c) /\ st_Product c = Some (nr_ProductID n).
Proof.
  intros (Hp & Hk & Ha & Hu & Hc & Hrec). cbn in Hp, Hk, Hu, Hc. injection Hk as Hk. injection Hu as Hu. injection Hc as Hc.
  split; [|done]. unfold price_from. cbn.
  assert (Hr : rec_param "recurring" (price_create_params n) =
    if String.eqb (nr_Type n) PriceTypeRecurring then
      Some (str "interval" (nr_Interval n) ++ int "interval_count" (intervalCountOrOne (nr_IntervalCount n))) else None).
  { unfold price_create_params, opt_str, meta.
    destruct (nr_TransferLookupKey n), (String.eqb (nr_Type n) PriceTypeRecurring), (String.eqb (nr_TaxBehavior n) ""), (bool_decide _); done. }
  rewrite Hr in Hrec. repeat (split; [done|]). split.
  - intros E. rewrite E, String.eqb_refl in Hrec. destruct Hrec as [Ht Hrec]. cbn in Hrec.
    unfold recurringInterval, recurringIntervalCount. rewrite Hrec. split; [done|]. split; [done|].
    intros Hpos. unfold intervalCountOrOne. by rewrite (proj2 (Z.leb_gt _ _) Hpos).
  - intros E. by rewrite E in Hrec.
Qed.

Lemma sent_price_effect n x x' :
  bk_CreatePrice n x = (None, x') -> effect (KCreatePrice n) (catalog_view x) (catalog_view x').
Proof.
  intros (o & a & Es & Eo)%send_one_ok. destruct o; try done.
  destruct (create_price_raw _ _ _ _ _ Es) as (Has & Hfree & Hkey & Hraw).
  pose proof (price_created n p Has) as [Hfrom Howner]. pose proof Hfrom as (_ & Hlk & _). cbn in Hlk.
  exists (st_ID p), (existing_price p). unfold catalog_view. rewrite Hraw. cbn.
  split; [by rewrite lookup_fmap, Hfree|]. split; [done|]. split.
  - intros Ht i o e He. rewrite lookup_fmap in He. apply fmap_Some in He as (q & Hq & E). injection E as _ ->. cbn.
    rewrite <- Hlk. apply (Hkey) with (i := i); [|done]. unfold price_create_params. rewrite Ht. unfold opt_str, meta.
    by destruct (String.eqb (nr_Type n) PriceTypeRecurring), (String.eqb (nr_TaxBehavior n) ""), (bool_decide _).
  - rewrite fmap_insert. unfold owned_price at 1. rewrite Howner, Hlk. cbn. do 2 f_equal.
    rewrite <- !map_fmap_compose. apply map_fmap_ext. intros i q _. unfold compose, owned_price, clear_key, without_key. cbn.
    by destruct (String.eqb (st_LookupKey q) (nr_LookupKey n)).
Qed.

Lemma meter_effect op id ps key x a x' :
  op = "V1BillingMeters.Create" \/ op = "V1BillingMeters.Deactivate" ->
  serve (mkReq op id ps key) x = (Ok a, x') -> effect KMeter (catalog_view x) (catalog_view x').
Proof. intros Ho Es. unfold catalog_view. by rewrite (meters_raw _ _ _ _ _ _ _ Ho Es). Qed.

(** As long as every key is new, the backend obeys the laws that the theorems on sync rest on:
    they hold of it over the server without the idempotency layer. *)
#[export, refine] Instance stripe_backend_laws : StripeLaws X := {| view := catalog_view |}.
Proof.
  - intros x pid o e He. cbn in He. rewrite lookup_fmap in He. apply fmap_Some in He as (p & Hp & [= _ ->]). cbn.
    by apply raw_price in Hp.
  - intros x pid o e He. cbn in He |- *. rewrite lookup_fmap in He. apply fmap_Some in He as (p & Hp & E). injection E as -> _.
    destruct (raw_owner _ _ _ Hp) as (o & Ho & Hs). rewrite Ho, lookup_fmap. by apply fmap_is_Some.
  - intros x i j o o' e e' Hi Hj. cbn in Hi, Hj. rewrite lookup_fmap in Hi, Hj.
    apply fmap_Some in Hi as (p & Hp & [= _ ->]). apply fmap_Some in Hj as (q & Hq & [= _ ->]). cbn.
    by apply (raw_key x).
  - intros ns x l. apply rows_lists.
  - apply create_product_effect.
  - apply update_product_effect.
  - apply product_active_effect.
  - apply sent_price_effect.
  - apply price_active_effect.
  - intros n x x' (o & a & Es & _)%send_one_ok. eapply meter_effect; [|exact Es]. by left.
  - intros id x x' (a & Es)%send_unit_ok. eapply meter_effect; [|exact Es]. by right.
Defined.

(** ** Lookup keys in batches *)
Lemma batch_spec keys x l :
  fst (perform serve (listByLookupKeysBatch keys) x) = Ok l ->
  forall r, r ∈ l <-> exists p, snd (raw x) !! st_ID p = Some p /\ st_LookupKey p ∈ keys /\ r = resolved_of p.
Proof.
  intros (objs & Es & ->)%send_list_ok r. pose proof (list_keys_law _ _ _ Es) as L. rewrite list_elem_of_omap. split.
  - intros (o & Ho & He). destruct o; try done. cbn in He. injection He as <-.
    destruct (proj1 (L p)) as [Hr Hk]; [apply list_elem_of_omap; by exists (OPrice p)|]. by exists p.
  - intros (p & Hp & Hk & ->). pose proof (proj2 (L p) (conj Hp Hk)) as Hin.
    apply list_elem_of_omap in Hin as (o & Ho & Eo). exists o. split; [done|]. by rewrite Eo.
Qed.
Lemma batch_reads keys x : snd (perform serve (listByLookupKeysBatch keys) x) = x.
Proof. cbn. pose proof (reads_only "V1Prices.List" (lookup_params keys) x (or_intror eq_refl)) as R. by destruct (serve _ x). Qed.

Lemma batches_spec fuel start keys out x l :
  (List.length keys <= fuel)%nat -> fst (perform serve (list_batches fuel start keys out) x) = Ok l ->
  forall r, r ∈ l <-> r ∈ out \/ exists p, snd (raw x) !! st_ID p = Some p /\ st_LookupKey p ∈ keys /\ r = resolved_of p.
Proof.
  revert start keys out. induction fuel as [|fuel IH]; intros start keys out Hf; destruct keys as [|k keys]; cbn in Hf; try lia; cbn [list_batches].
  1,2: intros [= <-] r; split; [by left|]; intros [?|(p & _ & []%not_elem_of_nil & _)]; done.
  rewrite perform_bind, batch_reads. set (ks := k :: keys) in *.
  pose proof (batch_spec (take batchSize ks) x) as Hb.
  destruct (fst (perform serve (listByLookupKeysBatch (take batchSize ks)) x)) as [b|e]; [|done].
  intros E r. rewrite (IH (start + Z.of_nat batchSize) (drop batchSize ks) (out ++ b)) with (r := r); [|rewrite length_drop; cbn; lia|done].
  rewrite elem_of_app, (Hb b eq_refl r). setoid_rewrite <- (take_drop batchSize ks) at 3. setoid_rewrite elem_of_app.
  split; [intros [[?|(p & ? & ? & ?)]|(p & ? & ? & ?)]|intros [?|(p & ? & [?|?] & ?)]]; eauto 9.
Qed.

(** The prices behind a catalog are found whatever its size. The lookup keys are sent to
    Stripe ten at a time; together the answers are the prices that carry one of the keys,
    as if they had been asked for at once. *)
Theorem lookup_complete keys x l :
  fst (perform serve (ListByLookupKeys keys) x) = Ok l ->
  forall r, r ∈ l <-> exists p, snd (raw x) !! st_ID p = Some p /\ st_LookupKey p ∈ keys /\ r = resolved_of p.
Proof.
  intros E r. rewrite (batches_spec (List.length keys) 0 keys [] x l (Nat.le_refl _) E r). set_solver.
Qed.

(** ** Behind idempotency keys *)
Abbreviation stripe := (with_idempotency serve).

(** The writes of a sync, the programs that send them and the call each stands for. *)
Inductive sync_write :=
| WCreateProduct (n : NewProduct)
| WUpdateProduct (id : string) (u : ProductUpdate)
| WProductActive (id : string) (a : bool)
| WCreatePrice (n : NewPrice)
| WPriceActive (pid : string) (a : bool)
| WCreateMeter (n : NewMeter)
| WArchiveMeter (id : string).
Definition send_write (w : sync_write) : calls (option string) :=
  match w with
  | WCreateProduct n => do r <- CreateProduct ctx n; Give (done r)
  | WUpdateProduct id u => UpdateProduct ctx id u
  | WProductActive id a => UpdateProductActive ctx id a
  | WCreatePrice n => do r <- CreatePrice ctx n; Give (done r)
  | WPriceActive pid a => UpdatePriceActive ctx pid a
  | WCreateMeter n => do r <- CreateMeter ctx n; Give (done r)
  | WArchiveMeter id => ArchiveMeter ctx id
  end.
Definition contract (w : sync_write) : call :=
  match w with
  | WCreateProduct n => KCreateProduct n
  | WUpdateProduct id u => KUpdateProduct id u
  | WProductActive id a => KProductActive id a
  | WCreatePrice n => KCreatePrice n
  | WPriceActive pid a => KPriceActive pid a
  | WCreateMeter _ | WArchiveMeter _ => KMeter
  end.
(** The key of the first request of a program. *)
Definition first_key {A} (p : calls A) : string := match p with Send r _ => rq_key r | Give _ => "" end.

Lemma write_single w : exists r f, send_write w = Send r (fun a => Give (f a)) /\ rq_key r <> "".
Proof. destruct w; (do 2 eexists; split; [reflexivity|by apply applied_key]). Qed.
Lemma core_effect w x x' :
  perform serve (send_write w) x = (None, x') -> effect (contract w) (catalog_view x) (catalog_view x').
Proof.
  intros Ep. destruct w; cbn [send_write contract] in *; rewrite ?perform_bind in Ep; cbn [perform] in Ep.
  - apply create_product_effect. unfold bk_CreateProduct, stripe_backend. by destruct (perform serve (CreateProduct ctx n) x).
  - by apply update_product_effect.
  - by apply product_active_effect.
  - apply sent_price_effect. unfold bk_CreatePrice, stripe_backend. by destruct (perform serve (CreatePrice ctx n) x).
  - by apply price_active_effect.
  - change (effect KMeter (view x) (view x')). apply (create_meter_law n). unfold bk_CreateMeter, stripe_backend. by destruct (perform serve (CreateMeter ctx n) x).
  - change (effect KMeter (view x) (view x')). by apply (archive_meter_law id).
Qed.
Lemma fresh_core w s e s' :
  id_seen s !! first_key (send_write w) = None -> perform stripe (send_write w) s = (e, s') ->
  perform serve (send_write w) (id_core s) = (e, id_core s').
Proof.
  destruct (write_single w) as (r & f & -> & Hk). cbn. unfold with_idempotency. rewrite (proj2 (String.eqb_neq _ _) Hk).
  intros ->. destruct (serve r (id_core s)) as [a x]. cbn. by intros [= <- <-].
Qed.
Lemma unkeyed_core {A} (p : calls A) (s : idem X) :
  Forall (fun r => rq_key r = "") (sent serve p (id_core s)) ->
  perform stripe p s = (fst (perform serve p (id_core s)), mkIdem (snd (perform serve p (id_core s))) (id_seen s)).
Proof.
  revert s. induction p as [a|r k IH]; intros s; cbn; [by destruct s|]. unfold with_idempotency at 1.
  pose proof (fun a x => IH a (mkIdem x (id_seen s))) as IH'. cbn in IH'.
  destruct (serve r (id_core s)) as [a x]. intros [-> Hs]%Forall_cons. cbn. by apply IH'.
Qed.
Lemma list_products_unkeyed prefix products err out x :
  Forall (fun r => rq_key r = "") (sent serve (list_products prefix products err out) x).
Proof.
  revert out x. induction products as [|p products IH]; intros out x; cbn [list_products]; [constructor|].
  destruct (negb _); [apply IH|]. cbn. destruct (serve _ x) as [a y]. constructor; [done|].
  destruct a as [[o|l [e|]]|e]; cbn; first [constructor|apply IH].
Qed.
Lemma listing_unkeyed ns x : Forall (fun r => rq_key r = "") (sent serve (ListProductsByNamespace ns) x).
Proof.
  cbn. destruct (serve _ x) as [a y]. constructor; [done|]. destruct a as [[o|l err]|e]; cbn; [constructor|apply list_products_unkeyed|constructor].
Qed.

(** C23: The catalog backend implements what sync relies on, over a Stripe that remembers
    idempotency keys. A write of a sync that succeeds and whose key Stripe does not remember
    has on the products and prices exactly the effect its contract states, however its
    parameters are put together (a write of a meter has none); one whose key Stripe
    remembers has no effect at all, whatever it answers; and a listing of a namespace shows
    exactly the products with its prefix, each with all of its prices. *)
Theorem backend_refines (s : idem X) :
  (forall w s', id_seen s !! first_key (send_write w) = None -> perform stripe (send_write w) s = (None, s') ->
     effect (contract w) (catalog_view (id_core s)) (catalog_view (id_core s'))) /\
  (forall w, is_Some (id_seen s !! first_key (send_write w)) -> snd (perform stripe (send_write w) s) = s) /\
  (forall ns l, fst (perform stripe (ListProductsByNamespace ns) s) = Ok l -> lists ns (catalog_view (id_core s)) l).
Proof.
  split; [|split].
  - intros w s' Hf Hp. eapply core_effect, fresh_core; eassumption.
  - intros w. destruct (write_single w) as (r & f & -> & Hk). cbn. unfold with_idempotency.
    rewrite (proj2 (String.eqb_neq _ _) Hk). intros [[r' a] ->]. by destruct (decide _).
  - intros ns l. rewrite unkeyed_core by apply listing_unkeyed. apply rows_lists.
Qed.
End refinement.

(** ** A server that obeys the laws *)
Module RawStore.
Definition valid (s : raw_maps) : Prop :=
  map_Forall (fun id p => sp_ID p = id) (fst s) /\
  map_Forall (fun id p => st_ID p = id /\ match st_Product p with Some o => is_Some (fst s !! o) | None => False end) (snd s) /\
  map_Forall (fun i p => map_Forall (fun j q => st_LookupKey p = "" \/ st_LookupKey p <> st_LookupKey q \/ i = j) (snd s)) (snd s).
#[export] Instance valid_raw_dec s : Decision (valid s).
Proof.
  unfold valid. apply and_dec; [apply _|]. apply and_dec; [|apply _].
  apply map_Forall_dec. intros id p. apply and_dec; [apply _|]. destruct (st_Product p); apply _.
Defined.
Definition shown (s : raw_maps) : raw_maps := if decide (valid s) then s else (∅, ∅).

Definition key_taken (key : string) (s : raw_maps) : Prop := ~ map_Forall (fun _ p => st_LookupKey p <> key) (snd s).
#[export] Instance key_taken_dec key s : Decision (key_taken key s).
Proof. unfold key_taken. apply _. Defined.
Definition stored_price (ps : params) (s : raw_maps) : stripe_price :=
  mkStripePrice (Nat.iter (size (snd s)) (String "p") "price_") (default "" (str_param "lookup_key" ps)) (str_param "product" ps) true
    (default 0 (int_param "unit_amount" ps)) (default "" (str_param "currency" ps))
    (match rec_param "recurring" ps with Some _ => PriceTypeRecurring | None => PriceTypeOneTime end)
    (match rec_param "recurring" ps with
     | Some r => Some (default "" (str_param "interval" r), default 0 (int_param "interval_count" r))
     | None => None
     end) ∅.
Definition stored_product (ps : params) : stripe_product :=
  mkStripeProduct (default "" (str_param "id" ps)) (default "" (str_param "name" ps)) (str_param "tax_code" ps) true
    (default "" (str_param "description" ps)) ∅.
#[export] Instance price_as_dec ps c : Decision (price_as ps c).
Proof.
  unfold price_as. repeat (apply and_dec; [apply _|]). destruct (rec_param "recurring" ps) as [l|]; [|apply _].
  apply and_dec; [apply _|]. destruct (str_param "interval" l), (int_param "interval_count" l); apply _.
Defined.

(** The next state and the answer, or a refusal. *)
Definition step (r : request) (s : raw_maps) : option (object * raw_maps) :=
  let ps := rq_params r in
  if String.eqb (rq_op r) "V1Products.Create" then
    let c := stored_product ps in
    if bool_decide (fst s !! sp_ID c = None) && bool_decide (product_as ps c) then
      Some (OProduct c, (<[sp_ID c := c]> (fst s), snd s)) else None
  else if String.eqb (rq_op r) "V1Products.Update" then
    Some (OOther (rq_target r), (alter (updated_product ps) (rq_target r) (fst s), snd s))
  else if String.eqb (rq_op r) "V1Prices.Create" then
    let c := stored_price ps s in
    if bool_decide (snd s !! st_ID c = None) && bool_decide (price_as ps c) &&
       (bool_decide (bool_param "transfer_lookup_key" ps = Some true) || negb (bool_decide (key_taken (st_LookupKey c) s))) then
      Some (OPrice c, (fst s, <[st_ID c := c]> (without_key (st_LookupKey c) <$> snd s))) else None
  else if String.eqb (rq_op r) "V1Prices.Update" then
    match bool_param "active" ps with
    | Some a => Some (OOther (rq_target r), (fst s, alter (with_active a) (rq_target r) (snd s)))
    | None => None
    end
  else if String.eqb (rq_op r) "V1BillingMeters.Create" || String.eqb (rq_op r) "V1BillingMeters.Deactivate" then
    Some (OMeter (mkStripeMeter "mtr_1" "" "" "active" None), s)
  else None.

Definition listing (r : request) (s : raw_maps) : option (list object) :=
  if String.eqb (rq_op r) "V1Products.List" then Some (map (fun x => OProduct (snd x)) (map_to_list (fst s)))
  else if String.eqb (rq_op r) "V1Prices.List" then
    Some (map (fun x => OPrice (snd x))
      (List.filter (fun x => bool_decide (str_param "product" (rq_params r) = None \/ st_Product (snd x) = str_param "product" (rq_params r))
                            && match param "lookup_keys" (rq_params r) with
                               | Some (PList keys) => bool_decide (PStr (st_LookupKey (snd x)) ∈ keys)
                               | _ => true
                               end)
         (map_to_list (snd s))))
  else if String.eqb (rq_op r) "V1BillingMeters.List" then Some []
  else None.

(** A request fails on a state that is not valid, and when it would leave one. *)
Definition raw_serve (r : request) (s : raw_maps) : res string answer * raw_maps :=
  if decide (valid s) then
    match listing r s with
    | Some l => (Ok (Listing l None), s)
    | None =>
        match step r s with
        | Some (o, s') => if decide (valid s') then (Ok (One o), s') else (Err "invalid request", s)
        | None => (Err "invalid request", s)
        end
    end
  else (Err "invalid state", s).

Lemma shown_valid s : valid (shown s).
Proof. unfold shown. destruct (decide (valid s)); [done|]. split; [|split]; apply map_Forall_empty. Qed.
Lemma raw_serve_ok r s a s' :
  listing r (∅, ∅) = None -> raw_serve r s = (Ok a, s') ->
  exists o, a = One o /\ step r s = Some (o, s') /\ shown s = s /\ shown s' = s'.
Proof.
  intros Hl. unfold raw_serve, shown. destruct (decide (valid s)) as [Hv|]; [|done].
  assert (listing r s = None) as ->. { unfold listing in *. by repeat (destruct (String.eqb _ _); [done|]). }
  destruct (step r s) as [[o s1]|]; [|done]. destruct (decide (valid s1)) as [Hv1|]; [|done].
  intros [= <- <-]. exists o. by rewrite decide_True.
Qed.
Lemma raw_serve_list r s l :
  is_Some (listing r (∅, ∅)) -> fst (raw_serve r s) = Ok (Listing l None) -> listing r s = Some l /\ shown s = s.
Proof.
  intros Hl. unfold raw_serve, shown. destruct (decide (valid s)) as [Hv|]; [|done].
  destruct (listing r s) as [l'|] eqn:E; [intros [= ->]; done|].
  exfalso. unfold listing in *. repeat (destruct (String.eqb _ _); [done|]). by destruct Hl.
Qed.

Lemma omap_products l : omap product_of (map (fun x : string * stripe_product => OProduct (snd x)) l) = map snd l.
Proof. induction l as [|x xs IH]; cbn; [done|]. by rewrite IH. Qed.
Lemma omap_prices l : omap price_of (map (fun x : string * stripe_price => OPrice (snd x)) l) = map snd l.
Proof. induction l as [|x xs IH]; cbn; [done|]. by rewrite IH. Qed.

#[export, refine] Instance raw_server : CatalogServer raw_maps := {| serve := raw_serve; raw := shown |}.
Proof.
  - intros s id p. apply (proj1 (shown_valid s)).
  - intros s id p Hp. by apply (proj1 (proj2 (shown_valid s)) id p).
  - intros s id p Hp. pose proof (proj2 (proj1 (proj2 (shown_valid s)) id p Hp)) as Ho.
    destruct (st_Product p) as [o|]; [by exists o|done].
  - intros s i j p q Hi Hj Hne E. by destruct (proj2 (proj2 (shown_valid s)) i p Hi j q Hj) as [?|[?|?]].
  - intros op ps s Hop. unfold raw_serve. destruct (decide (valid s)); [|done].
    destruct Hop as [-> | ->]; done.
  - intros ps s l E. apply raw_serve_list in E as [[= <-] Hs]; [|done]. pose proof (proj1 (shown_valid s)) as Hv. rewrite Hs in *.
    rewrite omap_products. split.
    + rewrite map_map, (map_ext_in _ fst); [apply NoDup_fst_map_to_list|].
      intros [id p] Hin. apply (Hv id p). by apply list_elem_of_In, elem_of_map_to_list in Hin.
    + intros p. rewrite elem_of_map. split.
      * intros ([id q] & -> & Hq%elem_of_map_to_list). cbn. by rewrite (Hv id q Hq).
      * intros Hp. exists (sp_ID p, p). split; [done|]. by apply elem_of_map_to_list.
  - intros ps pid s l E Hpid Hlk p. apply raw_serve_list in E as [[= <-] Hs]; [|done].
    pose proof (proj1 (proj2 (shown_valid s))) as Hv. rewrite Hs in *. cbn [rq_params]. rewrite Hpid, Hlk, omap_prices, elem_of_map. split.
    + intros ([id q] & -> & Hq). rewrite list_elem_of_In, filter_In, <- list_elem_of_In, elem_of_map_to_list, andb_true_r, bool_decide_eq_true in Hq.
      cbn in Hq. destruct Hq as [Hq [?|Hp]]; [done|]. cbn. by rewrite (proj1 (Hv id q Hq)).
    + intros [Hp Ho]. exists (st_ID p, p). split; [done|].
      rewrite list_elem_of_In, filter_In, <- list_elem_of_In, elem_of_map_to_list, andb_true_r, bool_decide_eq_true. cbn. auto.
  - intros keys s l E p. apply raw_serve_list in E as [[= <-] Hs]; [|done].
    pose proof (proj1 (proj2 (shown_valid s))) as Hv. rewrite Hs in *. cbn [rq_params lookup_params]. rewrite omap_prices, elem_of_map. split.
    + intros ([id q] & -> & Hq). rewrite list_elem_of_In, filter_In, <- list_elem_of_In, elem_of_map_to_list in Hq.
      cbn in Hq. destruct Hq as [Hq Hk%bool_decide_eq_true]. apply elem_of_map in Hk as (k & Ek & Hk). injection Ek as Ek. cbn. by rewrite (proj1 (Hv id q Hq)), Ek.
    + intros [Hp Ho]. exists (st_ID p, p). split; [done|].
      rewrite list_elem_of_In, filter_In, <- list_elem_of_In, elem_of_map_to_list. cbn. split; [done|].
      apply bool_decide_eq_true, elem_of_map. by exists (st_LookupKey p).
  - intros ps key s c s' E. apply raw_serve_ok in E as (o & [= <-] & Es & -> & ->); [|done]. cbn in Es.
    destruct (_ && _) eqn:Eb; [|done]. injection Es as <- <-. apply andb_true_iff in Eb as [E1%bool_decide_eq_true E2%bool_decide_eq_true]. done.
  - intros id ps key s a s' E. apply raw_serve_ok in E as (o & _ & Es & -> & ->); [|done]. by injection Es as _ <-.
  - intros ps key s c s' E. apply raw_serve_ok in E as (o & [= <-] & Es & -> & ->); [|done]. cbn in Es.
    destruct (_ && _) eqn:Eb; [|done]. injection Es as <- <-.
    apply andb_true_iff in Eb as [[E1%bool_decide_eq_true E2%bool_decide_eq_true]%andb_true_iff E3].
    split; [done|]. split; [done|]. split; [|done]. intros Ht i p Hp.
    rewrite (bool_decide_eq_false_2 _ Ht) in E3. cbn in E3. apply negb_true_iff, bool_decide_eq_false in E3.
    unfold key_taken in E3. apply dec_stable in E3. exact (E3 i p Hp).
  - intros id ps key a s ans s' E Ha. apply raw_serve_ok in E as (o & _ & Es & -> & ->); [|done].
    cbn in Es. rewrite Ha in Es. by injection Es as _ <-.
  - intros op id ps key s a s' Hop E. apply raw_serve_ok in E as (o & _ & Es & -> & ->); [|by destruct Hop as [-> | ->]].
    destruct Hop as [-> | ->]; by injection Es as _ <-.
Defined.
End RawStore.

(** ** A run *)
Module CatalogDemo.
Import KeysDemo RawStore.
Definition pro : NewProduct := mkNewProduct "prod_acme_pro" "Pro" "" "The plan" ∅.
Definition monthly : NewPrice := mkNewPrice "prod_acme_pro" "acme.pro.monthly" 2000 "usd" PriceTypeRecurring "month" 0 ∅ false "" [].
Definition empty_store : idem raw_maps := mkIdem (∅, ∅) ∅.
Definition one_product : idem raw_maps := snd (perform (with_idempotency serve) (send_write "" (WCreateProduct pro)) empty_store).
Definition one_price : idem raw_maps := snd (perform (with_idempotency serve) (send_write "" (WCreatePrice monthly)) one_product).
Lemma created :
  fst (perform (with_idempotency serve) (send_write "" (WCreateProduct pro)) empty_store) = None /\
  fst (perform (with_idempotency serve) (send_write "" (WCreatePrice monthly)) one_product) = None /\
  id_seen one_product !! first_key (send_write "" (WCreatePrice monthly)) = None.
Proof. vm_compute. done. Qed.
End CatalogDemo.
Import KeysDemo RawStore.
(** The price is created, and sent a second time without effect. *)
Lemma backend_refines_witness :
  effect (KCreatePrice CatalogDemo.monthly) (catalog_view (id_core CatalogDemo.one_product)) (catalog_view (id_core CatalogDemo.one_price)) /\
  snd (perform (with_idempotency serve) (send_write "" (WCreatePrice CatalogDemo.monthly)) CatalogDemo.one_price) = CatalogDemo.one_price.
Proof.
  destruct CatalogDemo.created as (_ & Hok & Hfresh). split.
  - apply (proj1 (backend_refines "" CatalogDemo.one_product) (WCreatePrice CatalogDemo.monthly)); [exact Hfresh|].
    unfold CatalogDemo.one_price. rewrite <- Hok. by destruct (perform _ _ _).
  - apply (proj1 (proj2 (backend_refines "" CatalogDemo.one_price)) (WCreatePrice CatalogDemo.monthly)).
    eexists. vm_compute. reflexivity.
Defined.
Lemma lookup_complete_witness :
  exists l, fst (perform serve (ListByLookupKeys ["acme.pro.monthly"; "acme.none"]) (id_core CatalogDemo.one_price)) = Ok l /\
    mkResolved "acme.pro.monthly" "price_" "prod_acme_pro" true ∈ l.
Proof.
  eexists. split; [vm_compute; reflexivity|].
  apply (lookup_complete ["acme.pro.monthly"; "acme.none"] (id_core CatalogDemo.one_price)); [vm_compute; reflexivity|].
  exists (mkStripePrice "price_" "acme.pro.monthly" (Some "prod_acme_pro") true 2000 "usd" PriceTypeRecurring (Some ("month", 1)) ∅).
  split; [vm_compute; reflexivity|]. split; [by left|reflexivity].
Defined.
