(* ===== verification/StripeCheckout.v ===== *)
(** * StripeCheckout: the checkout backend over the Stripe API
      (src/stripeapi/checkout_backend.go), as the requests it sends.

    [ctx] is the key of the caller, [""] when there is none. Logging of a failed clean-up
    is left out, its requests are not. *)
From S2P Require Import Prelude CatalogSpec StripeApi StripeCalls StripeCatalog Checkout.

Section backend.
Context `{Sha256} `{GoRuntime} (ctx : string).
Abbreviation applyIdem := (ApplyIdempotencyKey ctx).

(** ** Customers *)
Definition customer_of (o : object) : option (string * string * Z) :=
  match o with OCustomer id currency balance _ => Some (id, currency, balance) | _ => None end.
Definition stripe_CreateCustomer (p : CustomerCreate) : calls (res string string) :=
  send_one (mkReq "V1Customers.Create" "" (opt_str "email" (cc_Email p) ++ meta (cc_Metadata p))
              (applyIdem "customer.create" [CanonicalMap (cc_Metadata p)]))
    "stripe.Customers.Create: " (fun o => (fun c => fst (fst c)) <$> customer_of o).

(** ** Prices of a pay-what-you-want line *)
Definition adhoc_params (sessionMeta : smap) (ca : CustomAmount) : params :=
  let taxCode := if String.eqb (ca_TaxCategory ca) "" then "txcd_99999999" else ca_TaxCategory ca in
  str "currency" (ca_Currency ca) ++
  rec_ "product_data" (str "name" (ca_Name ca) ++ str "tax_code" taxCode ++ meta sessionMeta) ++
  rec_ "custom_unit_amount" (bool_ "enabled" true ++ int "minimum" (ca_Min ca) ++ int "maximum" (ca_Max ca) ++ pos_int "preset" (ca_Preset ca)) ++
  meta sessionMeta.
Definition adhoc_request (sessionMeta : smap) (ca : CustomAmount) : request :=
  mkReq "V1Prices.Create" "" (adhoc_params sessionMeta ca)
    (applyIdem "price.create.adhoc"
       [ca_Name ca; ca_Currency ca; CanonicalInt64 (ca_Min ca); CanonicalInt64 (ca_Max ca); CanonicalInt64 (ca_Preset ca);
        CanonicalMap sessionMeta]).
Definition createAdHocCustomPrice (sessionMeta : smap) (ca : CustomAmount) : calls (res string string) :=
  send_one (adhoc_request sessionMeta ca) "stripe.Prices.Create(custom_unit_amount): " (fun o => st_ID <$> price_of o).

(** Without a key: stripe-go then draws a random one. *)
Definition archive_request (id : string) : request := mkReq "V1Prices.Update" id (bool_ "active" false) "".
Fixpoint archiveOrphanAdHocPrices (ids : list string) : calls unit :=
  match ids with
  | [] => Give tt
  | id :: rest => Send (archive_request id) (fun _ => archiveOrphanAdHocPrices rest)
  end.

(** ** Sessions *)
Definition stripeMode (m : Mode) : string := match m with ModeSubscription => "subscription" | ModePayment => "payment" end.
Definition canonical_item (li : SessionLineItem) : string :=
  sl_StripePriceID li ^^ ":" ^^ CanonicalInt64 (sl_Quantity li) ^^
  match sl_CustomAmount li with
  | None => ""
  | Some ca => ":custom=" ^^ ca_Name ca ^^ "/" ^^ ca_Currency ca ^^ "/" ^^ CanonicalInt64 (ca_Min ca) ^^ "-" ^^
               CanonicalInt64 (ca_Max ca) ^^ "@" ^^ CanonicalInt64 (ca_Preset ca)
  end.
Definition canonicalLineItems (items : list SessionLineItem) : string := CanonicalStrings (map canonical_item items).

Definition line_params (price : string) (li : SessionLineItem) : pval :=
  PRec (int "quantity" (sl_Quantity li) ++ str "price" price).
(** [for _, li := range p.LineItems]: the lines so far and the prices made for them. *)
Fixpoint session_lines (sessionMeta : smap) (items : list SessionLineItem) (out : list pval) (adHocPriceIDs : list string)
  : calls (res string (list pval * list string)) :=
  match items with
  | [] => Give (Ok (out, adHocPriceIDs))
  | li :: rest =>
      match sl_CustomAmount li with
      | Some ca =>
          do r <- createAdHocCustomPrice sessionMeta ca;
          match r with
          | Err e => do _ <- archiveOrphanAdHocPrices adHocPriceIDs; Give (Err e)
          | Ok priceID => session_lines sessionMeta rest (out ++ [line_params priceID li]) (adHocPriceIDs ++ [priceID])
          end
      | None => session_lines sessionMeta rest (out ++ [line_params (sl_StripePriceID li) li]) adHocPriceIDs
      end
  end.

Definition is_custom (li : SessionLineItem) : bool := match sl_CustomAmount li with Some _ => true | None => false end.
(** The objects that follow from the session carry its metadata. *)
Definition downstream_params (p : SessionCreate) (d : ResolvedSessionDefaults) : params :=
  match sc_Mode p with
  | ModeSubscription =>
      rec_ "subscription_data" (meta (sc_Metadata p) ++ pos_int "trial_period_days" (sc_TrialDays p)) ++
      when ((0 <? sc_TrialDays p) && negb (rd_RequirePaymentMethodForTrial d)) (str "payment_method_collection" "if_required")
  | ModePayment => rec_ "payment_intent_data" (meta (sc_Metadata p))
  end.
Definition session_request_params (p : SessionCreate) (lines : list pval) : params :=
  let d := Resolve (sc_Defaults p) in
  let promo := negb (String.eqb (sc_PromoCodeID p) "") in
  let custom := existsb is_custom (sc_LineItems p) in
  str "mode" (stripeMode (sc_Mode p)) ++ str "customer" (sc_StripeCustomerID p) ++
  rec_ "automatic_tax" (bool_ "enabled" (rd_AutomaticTax d)) ++
  rec_ "tax_id_collection" (bool_ "enabled" (rd_TaxIDCollection d)) ++
  str "billing_address_collection" (rd_BillingAddressCollection d) ++
  rec_ "customer_update" (str "address" (rd_CustomerUpdateAddress d) ++ str "name" (rd_CustomerUpdateName d)) ++
  bool_ "allow_promotion_codes" (if promo || custom then false else rd_AllowPromotionCodes d) ++
  opt_str "locale" (sc_Locale p) ++
  (if String.eqb (sc_UIMode p) UIModeEmbedded then str "ui_mode" "embedded" ++ str "return_url" (sc_ReturnURL p)
   else str "success_url" (sc_SuccessURL p) ++ str "cancel_url" (sc_CancelURL p)) ++
  opt_str "client_reference_id" (sc_ClientReference p) ++
  when (negb (bool_decide (sc_PaymentMethods p = []))) [("payment_method_types", PList (map PStr (sc_PaymentMethods p)))] ++
  when promo [("discounts", PList [PRec (str "promotion_code" (sc_PromoCodeID p))])] ++
  meta (sc_Metadata p) ++ downstream_params p d ++
  when (negb (bool_decide (lines = []))) [("line_items", PList lines)].
Definition session_key (p : SessionCreate) : string :=
  applyIdem "checkout.session.create"
    [sc_StripeCustomerID p; stripeMode (sc_Mode p); sc_SuccessURL p; sc_CancelURL p; sc_ReturnURL p; sc_ClientReference p;
     CanonicalMap (sc_Metadata p); canonicalLineItems (sc_LineItems p)].
Definition session_of (o : object) : option CheckoutSession :=
  match o with OSession id url secret => Some (mkCheckoutSession id url secret) | _ => None end.
Definition stripe_CreateCheckoutSession (p : SessionCreate) : calls (res string CheckoutSession) :=
  do lines <- session_lines (sc_Metadata p) (sc_LineItems p) [] [];
  match lines with
  | Err e => Give (Err e)
  | Ok (lines, adHocPriceIDs) =>
      do r <- send_one (mkReq "V1CheckoutSessions.Create" "" (session_request_params p lines) (session_key p))
                "stripe.CheckoutSessions.Create: " session_of;
      match r with
      | Err e => do _ <- archiveOrphanAdHocPrices adHocPriceIDs; Give (Err e)
      | Ok s => Give (Ok s)
      end
  end.

(** ** Customer balances *)
Definition projectBalanceTx (tx : stripe_balance_tx) : CustomerBalanceTransaction :=
  mkBalanceTx (sx_ID tx) (sx_Type tx) (sx_Amount tx) (sx_Currency tx) (sx_Description tx) (default "" (sx_Invoice tx)) (time_Unix (sx_Created tx)).
Definition balance_tx_of (o : object) : option CustomerBalanceTransaction :=
  match o with OBalanceTx t => Some (projectBalanceTx t) | _ => None end.
Definition stripe_AdjustCustomerBalance (customerID : string) (amount : Z) (currency description : string)
  : calls (res string CustomerBalanceTransaction) :=
  send_one (mkReq "V1CustomerBalanceTransactions.Create" customerID
              (int "amount" amount ++ str "currency" currency ++ str "description" description)
              (applyIdem "customer_balance_tx.create" [customerID; CanonicalInt64 amount; currency; description]))
    "stripe.CustomerBalanceTransactions.Create: " balance_tx_of.
Definition stripe_GetCustomerBalance (customerID : string) : calls (res string CustomerBalance) :=
  send_one (mkReq "V1Customers.Retrieve" customerID [] "") ("stripe.Customers.Retrieve(" ^^ customerID ^^ "): ")
    (fun o => (fun c => mkCustomerBalance customerID (snd (fst c)) (snd c)) <$> customer_of o).
Definition stripe_ListCustomerBalanceTransactions (customerID : string) (limit : Z)
  : calls (res string (list CustomerBalanceTransaction)) :=
  let limit := if limit <=? 0 then 50 else limit in
  send_first (Z.to_nat limit) "V1CustomerBalanceTransactions.List" [("customer", PStr customerID); ("limit", PStr (fmt_d limit))]
    "stripe.CustomerBalanceTransactions.List: " balance_tx_of.

(** ** The portal *)
Definition flow_type (t : PortalFlowType) : string :=
  match t with
  | PortalFlowSubscriptionCancel => "subscription_cancel"
  | PortalFlowSubscriptionUpdate => "subscription_update"
  | PortalFlowOther s => s
  end.
Definition buildFlowDataParams (f : PortalFlow) : res string params :=
  match pf_Type f with
  | PortalFlowSubscriptionCancel =>
      Ok (str "type" "subscription_cancel" ++ rec_ "subscription_cancel" (str "subscription" (pf_SubscriptionID f)))
  | PortalFlowSubscriptionUpdate =>
      Ok (str "type" "subscription_update" ++ rec_ "subscription_update" (str "subscription" (pf_SubscriptionID f)))
  | PortalFlowOther s =>
      if String.eqb s "payment_method_update" then Ok (str "type" s)
      else Err ("stripeapi: unsupported PortalFlowType " ^^ quoted s)
  end.
Definition stripe_CreatePortalSession (p : PortalSessionCreate) : calls (res string PortalSession) :=
  match match pc_Flow p with None => Ok [] | Some f => match buildFlowDataParams f with Ok fp => Ok (rec_ "flow_data" fp) | Err e => Err e end end with
  | Err e => Give (Err e)
  | Ok flow =>
      let flowKey := match pc_Flow p with Some f => flow_type (pf_Type f) ^^ ":" ^^ pf_SubscriptionID f | None => "" end in
      send_one (mkReq "V1BillingPortalSessions.Create" ""
                  (str "customer" (pc_StripeCustomerID p) ++ str "return_url" (pc_ReturnURL p) ++ flow)
                  (applyIdem "portal.session.create" [pc_StripeCustomerID p; pc_ReturnURL p; flowKey]))
        "stripe.BillingPortalSessions.Create: "
        (fun o => match o with OPortal id url => Some (mkPortalSession id url) | _ => None end)
  end.
End backend.
