(* ===== verification/StripeSubscriptions.v ===== *)
(** * StripeSubscriptions: the subscription backend over the Stripe API
      (src/stripeapi/subscription_backend.go), as the requests it sends.

    [stripe_backend_call] answers the calls that the operations of SubscriptionOps decide
    on. [ctx] is the key of the caller, [""] when there is none. *)
From S2P Require Import Prelude StripeApi StripeCalls StripeCatalog Subscriptions SubscriptionOps.

(** ** Projections *)
Definition item_price_key (it : stripe_item) : string :=
  match im_Price it with
  | None => ""
  | Some (id, lookup) => if String.eqb lookup "" then "stripe:" ^^ id else lookup
  end.
Definition project_item (it : stripe_item) : SubscriptionItem :=
  mkSubItem (im_ID it) (item_price_key it) (im_Quantity it).
(** The period of the first item that has one; [conv] is the conversion of its ends. *)
Fixpoint first_period (conv : Z -> Z) (start end_ : Z) (items : list stripe_item) : Z * Z :=
  match items with
  | [] => (start, end_)
  | it :: rest =>
      if IsZero start && (0 <? im_PeriodStart it) then first_period conv (conv (im_PeriodStart it)) (conv (im_PeriodEnd it)) rest
      else first_period conv start end_ rest
  end.
Definition sub_items (s : stripe_subscription) : list stripe_item := default [] (ss_Items s).

Definition projectSubscription (s : stripe_subscription) : ReconciledSubscription :=
  let '(start, end_) := first_period time_Unix time_zero time_zero (sub_items s) in
  mkReconciled (ss_ID s) (default "" (ss_Customer s)) (ss_Status s) (ss_CancelAtPeriodEnd s)
    (UnixToTimePtr (ss_CanceledAt s)) (UnixToTimePtr (ss_EndedAt s)) (UnixToTimePtr (ss_TrialStart s)) (UnixToTimePtr (ss_TrialEnd s))
    (ss_Metadata s) (map project_item (sub_items s)) start end_ (ss_Created s).
Definition projectCreatedSubscription (s : stripe_subscription) : Subscription :=
  let '(start, end_) := first_period UnixToTime time_zero time_zero (sub_items s) in
  mkSub (ss_ID s) "" (default "" (ss_Customer s)) (ss_Status s) (map project_item (sub_items s)) start end_
    (ss_CancelAtPeriodEnd s) None None
    (if 0 <? ss_TrialStart s then Some (UnixToTime (ss_TrialStart s)) else None)
    (if 0 <? ss_TrialEnd s then Some (UnixToTime (ss_TrialEnd s)) else None)
    (ss_Metadata s) (UnixToTime (ss_Created s)) (UnixToTime (ss_Created s)) None.
Definition subscription_of (o : object) : option stripe_subscription := match o with OSubscription s => Some s | _ => None end.

Section backend.
Context `{Sha256} `{GoRuntime} (ctx : string).
Abbreviation applyIdem := (ApplyIdempotencyKey ctx).
Definition update_sub (id : string) (ps : params) (key what : string) : calls (option string) :=
  send_unit (mkReq "V1Subscriptions.Update" id ps key) ("stripe.Subscriptions.Update(" ^^ id ^^ what ^^ "): ").

(** ** Changing a subscription *)
Definition stripe_CancelAtPeriodEnd (stripeSubID : string) (cancelAtPeriodEnd : bool) : calls (option string) :=
  update_sub stripeSubID (bool_ "cancel_at_period_end" cancelAtPeriodEnd)
    (applyIdem "subscription.cancel_at_period_end" [stripeSubID; FormatBool cancelAtPeriodEnd]) (", cancel_at_period_end=" ^^ FormatBool cancelAtPeriodEnd).
Definition stripe_CancelNow (stripeSubID : string) (opts : CancelNowOptions) : calls (option string) :=
  send_unit (mkReq "V1Subscriptions.Cancel" stripeSubID
               (when (cn_Prorate opts) (bool_ "invoice_now" true ++ bool_ "prorate" true) ++
                when (negb (String.eqb (cn_Reason opts) "")) (rec_ "cancellation_details" (str "comment" (cn_Reason opts))))
               (applyIdem "subscription.cancel_now" [stripeSubID; FormatBool (cn_Prorate opts); cn_Reason opts]))
    ("stripe.Subscriptions.Cancel(" ^^ stripeSubID ^^ "): ").

Definition item_change_params (it : ItemChange) : params :=
  opt_str "id" (ic_StripeItemID it) ++ opt_str "price" (ic_PriceID it) ++ pos_int "quantity" (ic_Quantity it) ++
  when (ic_Deleted it) (bool_ "deleted" true).
Definition canonicalItemChanges (items : list ItemChange) : string :=
  CanonicalStrings (map (fun it => ic_StripeItemID it ^^ "|" ^^ ic_PriceID it ^^ "|" ^^ CanonicalInt64 (ic_Quantity it) ^^ "|" ^^
                                   FormatBool (ic_Deleted it)) items).
Definition items_params (name : string) (items : list params) : params :=
  when (negb (bool_decide (items = []))) [(name, PList (map PRec items))].
Definition stripe_UpdateItems (stripeSubID : string) (items : list ItemChange) (opts : UpdateOptions) : calls (option string) :=
  update_sub stripeSubID
    (opt_str "proration_behavior" (uo_ProrationBehavior opts) ++ items_params "items" (map item_change_params items))
    (applyIdem "subscription.update_items" [stripeSubID; uo_ProrationBehavior opts; canonicalItemChanges items]) ", items".

Definition stripe_ApplyCoupon (stripeSubID couponID : string) : calls (option string) :=
  update_sub stripeSubID [("discounts", PList [PRec (str "coupon" couponID)])]
    (applyIdem "subscription.apply_coupon" [stripeSubID; couponID]) (", coupon=" ^^ couponID).
Definition stripe_RemoveCoupon (stripeSubID : string) : calls (option string) :=
  update_sub stripeSubID [("discounts", PList [])] (applyIdem "subscription.remove_coupon" [stripeSubID]) ", remove coupon".

Definition stripe_Pause (stripeSubID : string) (opts : PauseOptions) : calls (option string) :=
  let behavior := if String.eqb (pa_Behavior opts) "" then "keep_as_draft" else pa_Behavior opts in
  let resumes := negb (IsZero (pa_ResumesAt opts)) in
  update_sub stripeSubID
    (rec_ "pause_collection" (str "behavior" behavior ++ when resumes (int "resumes_at" (Unix (pa_ResumesAt opts)))))
    (applyIdem "subscription.pause" [stripeSubID; behavior; if resumes then CanonicalInt64 (Unix (pa_ResumesAt opts)) else ""]) ", pause".
(** [AddExtra("pause_collection", "")]. *)
Definition stripe_Resume (stripeSubID : string) : calls (option string) :=
  update_sub stripeSubID (str "pause_collection" "") (applyIdem "subscription.resume" [stripeSubID]) ", clear pause_collection".

(** ** Reading *)
Definition ListSince (since : Z) : calls (res string (list ReconciledSubscription)) :=
  send_list "V1Subscriptions.List" [("status", PStr "all"); ("created[gte]", PStr (fmt_d (Unix since))); ("limit", PStr "100")]
    "stripe.Subscriptions.List: " (fun o => projectSubscription <$> subscription_of o).
Definition stripe_ListByCustomer (stripeCustomerID : string) : calls (res string (list ReconciledSubscription)) :=
  send_list "V1Subscriptions.List" [("customer", PStr stripeCustomerID); ("status", PStr "all"); ("limit", PStr "100")]
    ("stripe.Subscriptions.List(customer=" ^^ stripeCustomerID ^^ "): ") (fun o => projectSubscription <$> subscription_of o).
Definition stripe_GetSubscriptionItems (stripeSubID : string) : calls (res string (list SubscriptionItem)) :=
  send_one (mkReq "V1Subscriptions.Retrieve" stripeSubID [] "") ("stripe.Subscriptions.Retrieve(" ^^ stripeSubID ^^ "): ")
    (fun o => (fun s => map project_item (sub_items s)) <$> subscription_of o).

Record MigratePreviewLine := mkPreviewLine { ml_Description : string; ml_Amount : Z; ml_PriceID : string }.
Record MigratePreview := mkPreview {
  mp_Currency : string; mp_AmountDueNow : Z; mp_AmountSubtotal : Z; mp_AmountTax : Z; mp_ProrationLineItems : list MigratePreviewLine }.
Fixpoint sum_taxes (taxes : list (option Z)) (sum : Z) : Z :=
  match taxes with
  | [] => sum
  | Some t :: rest => sum_taxes rest (add64 sum t)
  | None :: rest => sum_taxes rest sum
  end.
Definition sumInvoiceTaxes (taxes : list (option Z)) : Z := sum_taxes taxes 0.
Definition preview_of (inv : stripe_invoice) : MigratePreview :=
  mkPreview (sv_Currency inv) (sv_AmountDue inv) (sv_Subtotal inv) (sumInvoiceTaxes (sv_TotalTaxes inv))
    (map (fun l => mkPreviewLine (fst (fst l)) (snd (fst l)) (default "" (snd l))) (default [] (sv_Lines inv))).
Definition PreviewItemChange (stripeSubID : string) (items : list ItemChange) : calls (res string MigratePreview) :=
  send_one (mkReq "V1Invoices.CreatePreview" ""
              (str "subscription" stripeSubID ++
               rec_ "subscription_details" (items_params "items" (map item_change_params items) ++ str "proration_behavior" "create_prorations"))
              "")
    ("stripe.Invoices.CreatePreview(" ^^ stripeSubID ^^ "): ")
    (fun o => match o with OInvoice i => Some (preview_of i) | _ => None end).

(** ** Schedules *)
Definition canonicalSchedulePhases (phases : list BackendPhase) : string :=
  CanonicalStrings (map (fun p => bp_StripePriceID p ^^ "|" ^^ CanonicalInt64 (bp_Quantity p) ^^ "|" ^^ CanonicalInt64 (bp_Iterations p) ^^
                                  "|" ^^ bp_StripeCouponID p) phases).
Definition phase_params (p : BackendPhase) : params :=
  [("items", PList [PRec (str "price" (bp_StripePriceID p) ++ int "quantity" (bp_Quantity p))])] ++
  pos_int "iterations" (bp_Iterations p) ++
  when (negb (String.eqb (bp_StripeCouponID p) "")) [("discounts", PList [PRec (str "coupon" (bp_StripeCouponID p))])].
Definition schedule_params (input : ScheduleBackendInput) : params :=
  str "customer" (sb_StripeCustomerID input) ++ items_params "phases" (map phase_params (sb_Phases input)) ++
  str "end_behavior" (sb_EndBehavior input) ++
  (if IsZero (sb_StartAt input) then str "start_date" "now" else int "start_date" (Unix (sb_StartAt input))) ++
  meta (sb_Metadata input).
Definition schedule_key (input : ScheduleBackendInput) : string :=
  applyIdem "subscription_schedule.create"
    [sb_StripeCustomerID input; sb_EndBehavior input; canonicalSchedulePhases (sb_Phases input); CanonicalMap (sb_Metadata input)].
(** The id and status of the schedule. *)
Definition CreateSubscriptionSchedule (input : ScheduleBackendInput) : calls (res string (string * string)) :=
  send_one (mkReq "V1SubscriptionSchedules.Create" "" (schedule_params input) (schedule_key input))
    "stripe.SubscriptionSchedules.Create: " (fun o => match o with OSchedule id status => Some (id, status) | _ => None end).

(** ** Invoiced subscriptions *)
Definition setup_fee_request (item : AddInvoiceItem) (sessionMeta : smap) : request :=
  mkReq "V1Products.Create" "" (str "name" (ai_Name item) ++ meta sessionMeta)
    (applyIdem "product.create.setup_fee" [ai_Name item; CanonicalMap sessionMeta]).
(** The parameters, and the id of the product made for them, if one was. *)
Definition buildAddInvoiceItemParams (item : AddInvoiceItem) (sessionMeta : smap) : calls (res string (params * string)) :=
  let qty := int "quantity" (if ai_Quantity item <=? 0 then 1 else ai_Quantity item) in
  if negb (String.eqb (ai_StripePriceID item) "") then Give (Ok (qty ++ str "price" (ai_StripePriceID item), ""))
  else if (0 <? ai_InlineAmount item) && negb (String.eqb (ai_Currency item) "") && negb (String.eqb (ai_Name item) "") then
    do prod <- send_one (setup_fee_request item sessionMeta) "stripe.Products.Create(setup-fee inline): " product_of;
    match prod with
    | Err e => Give (Err e)
    | Ok prod =>
        Give (Ok (qty ++ rec_ "price_data" (str "currency" (ai_Currency item) ++ int "unit_amount" (ai_InlineAmount item) ++
                                            str "product" (sp_ID prod)), sp_ID prod))
    end
  else Give (Err "stripeapi: AddInvoiceItem requires StripePriceID OR (InlineAmount>0 + Currency + Name)").

Definition archive_product_request (id : string) : request := mkReq "V1Products.Update" id (bool_ "active" false) "".
Fixpoint archiveOrphanProducts (ids : list string) : calls unit :=
  match ids with
  | [] => Give tt
  | id :: rest => Send (archive_product_request id) (fun _ => archiveOrphanProducts rest)
  end.
Fixpoint invoice_items (sessionMeta : smap) (items : list AddInvoiceItem) (out : list params) (inlineProductIDs : list string)
  : calls (res string (list params * list string)) :=
  match items with
  | [] => Give (Ok (out, inlineProductIDs))
  | item :: rest =>
      do r <- buildAddInvoiceItemParams item sessionMeta;
      match r with
      | Err e => do _ <- archiveOrphanProducts inlineProductIDs; Give (Err e)
      | Ok (ai, inlineID) =>
          invoice_items sessionMeta rest (out ++ [ai])
            (inlineProductIDs ++ if String.eqb inlineID "" then [] else [inlineID])
      end
  end.
(** [int64(DueIn / (24 * time.Hour))], at least one. *)
Definition due_days (dueIn : Z) : Z := let days := Z.quot dueIn day in if days <? 1 then 1 else days.
Definition invoiced_params (input : InvoicedSubscriptionInput) (added : list params) : params :=
  str "customer" (ib_StripeCustomerID input) ++ str "collection_method" "send_invoice" ++
  [("items", PList [PRec (str "price" (ib_StripePriceID input) ++ int "quantity" (ib_Quantity input))])] ++
  when (0 <? ib_DueIn input) (int "days_until_due" (due_days (ib_DueIn input))) ++
  pos_int "trial_period_days" (ib_TrialDays input) ++ meta (ib_Metadata input) ++ items_params "add_invoice_items" added.
Definition invoiced_key (input : InvoicedSubscriptionInput) : string :=
  applyIdem "subscription.create_invoiced"
    [ib_StripeCustomerID input; ib_StripePriceID input; CanonicalInt64 (ib_Quantity input); CanonicalInt64 (ib_DueIn input);
     CanonicalInt64 (ib_TrialDays input); CanonicalMap (ib_Metadata input)].
Definition stripe_CreateInvoiced (input : InvoicedSubscriptionInput) : calls (res string Subscription) :=
  do items <- invoice_items (ib_Metadata input) (ib_AddInvoiceItems input) [] [];
  match items with
  | Err e => Give (Err e)
  | Ok (added, inlineProductIDs) =>
      do r <- send_one (mkReq "V1Subscriptions.Create" "" (invoiced_params input added) (invoiced_key input))
                "stripe.Subscriptions.Create(invoiced): " subscription_of;
      match r with
      | Err e => do _ <- archiveOrphanProducts inlineProductIDs; Give (Err e)
      | Ok sub => Give (Ok (projectCreatedSubscription sub))
      end
  end.

(** ** The calls of SubscriptionOps *)
Definition discard {A} (p : calls (res string A)) : calls (option string) :=
  do r <- p; Give (match r with Ok _ => None | Err e => Some e end).
Definition stripe_backend_call (c : backend_call) : calls (option string) :=
  match c with
  | CallCancelAtPeriodEnd id cancel => stripe_CancelAtPeriodEnd id cancel
  | CallCancelNow id opts => stripe_CancelNow id opts
  | CallUpdateItems id items opts => stripe_UpdateItems id items opts
  | CallApplyCoupon id coupon => stripe_ApplyCoupon id coupon
  | CallRemoveCoupon id => stripe_RemoveCoupon id
  | CallPause id opts => stripe_Pause id opts
  | CallResume id => stripe_Resume id
  | CallPreview id items => discard (PreviewItemChange id items)
  | CallCreateInvoiced input => discard (stripe_CreateInvoiced input)
  | CallCreateSchedule input => discard (CreateSubscriptionSchedule input)
  end.
End backend.
