(* ===== verification/StripeInvoices.v ===== *)
(** * StripeInvoices: the invoice backend over the Stripe API
      (src/stripeapi/invoice_backend.go), as the requests it sends.

    [stripe_InvoiceBackend] runs them against a server and implements the interface the
    operations of Invoices are written against. [ctx] is the key of the caller, [""] when
    there is none. *)
From S2P Require Import Prelude StripeApi StripeCalls StripeCatalog StripeSubscriptions Invoices.

(** ** Projections *)
Definition qtyOrOne (q : Z) : Z := if q <=? 0 then 1 else q.
(** [if u > 0] around a pointer to [time.Unix(u, 0)]. *)
Definition set_time (u : Z) : option Z := if 0 <? u then Some (time_Unix u) else None.
Definition transition (sel : Z * Z * Z -> Z) (inv : stripe_invoice) : option Z :=
  match sv_StatusTransitions inv with None => None | Some t => set_time (sel t) end.
Definition projectInvoice (inv : stripe_invoice) : AuditEntry :=
  let '(id, email, country) := match sv_Customer inv with
                               | Some (id, email, country) => (id, email, default "" country)
                               | None => ("", "", "")
                               end in
  mkAuditEntry (sv_ID inv) (sv_Number inv) EntryTypeInvoice (sv_Status inv) id email (default "" (head (sv_CustomerTaxIDs inv))) country
    (sv_Currency inv) (sv_Total inv) (sumInvoiceTaxes (sv_TotalTaxes inv)) (sv_AmountPaid inv) (time_Unix (sv_Created inv))
    (transition (fun t => fst (fst t)) inv) (transition (fun t => snd (fst t)) inv) (transition snd inv) (sv_HostedInvoiceURL inv).
Definition projectInvoiceLite (inv : stripe_invoice) : Invoice :=
  mkInvoice (sv_ID inv) (sv_Number inv) (sv_Status inv) (match sv_Customer inv with Some (id, _, _) => id | None => "" end)
    (sv_Currency inv) (sv_Total inv) (sv_AmountPaid inv) (set_time (sv_DueDate inv)) (sv_HostedInvoiceURL inv) (sv_InvoicePDF inv).
Definition invoice_of (o : object) : option stripe_invoice := match o with OInvoice i => Some i | _ => None end.
Definition lite_of (o : object) : option Invoice := projectInvoiceLite <$> invoice_of o.

Section backend.
Context `{Sha256} `{GoRuntime} (ctx : string).
Abbreviation applyIdem := (ApplyIdempotencyKey ctx).

(** ** Drafts *)
Definition item_request (input : CreateInput) (i : Z) (li : CreateLineItem) : request :=
  mkReq "V1InvoiceItems.Create" ""
    (str "customer" (ci_Customer input) ++ int "amount" (wrap64 (li_Amount li * qtyOrOne (li_Quantity li))) ++
     str "currency" (li_Currency li) ++ str "description" (li_Description li))
    (applyIdem "invoice_item.create"
       [ci_Customer input; CanonicalInt64 i; li_Description li; li_Currency li; CanonicalInt64 (li_Amount li);
        CanonicalInt64 (li_Quantity li); ci_NumberOverride input; CanonicalMap (ci_Metadata input)]).
(** [for i, li := range in.LineItems]. *)
Fixpoint create_items (input : CreateInput) (i : Z) (items : list CreateLineItem) : calls (option string) :=
  match items with
  | [] => Give None
  | li :: rest =>
      do r <- send_unit (item_request input i li) "stripe.InvoiceItems.Create: ";
      match r with
      | Some e => Give (Some e)
      | None => create_items input (i + 1) rest
      end
  end.
Definition draft_params (input : CreateInput) : params :=
  str "customer" (ci_Customer input) ++ str "collection_method" "send_invoice" ++
  when (0 <? ci_DueIn input) (int "days_until_due" (due_days (ci_DueIn input))) ++
  opt_str "description" (ci_Memo input) ++ opt_str "number" (ci_NumberOverride input) ++ meta (ci_Metadata input).
Definition draft_request (input : CreateInput) : request :=
  mkReq "V1Invoices.Create" "" (draft_params input)
    (applyIdem "invoice.create_draft"
       [ci_Customer input; ci_NumberOverride input; ci_Memo input; CanonicalInt64 (ci_DueIn input); CanonicalMap (ci_Metadata input)]).
Definition stripe_CreateDraft (input : CreateInput) : calls (res string Invoice) :=
  do items <- create_items input 0 (ci_LineItems input);
  match items with
  | Some e => Give (Err e)
  | None => send_one (draft_request input) "stripe.Invoices.Create: " lite_of
  end.

(** ** The life of an invoice *)
Definition about_invoice (call : string) (invoiceID : string) : string := "stripe.Invoices." ^^ call ^^ "(" ^^ invoiceID ^^ "): ".
Definition stripe_Finalize (invoiceID : string) : calls (res string Invoice) :=
  send_one (mkReq "V1Invoices.FinalizeInvoice" invoiceID [] (applyIdem "invoice.finalize" [invoiceID]))
    (about_invoice "FinalizeInvoice" invoiceID) lite_of.
(** The finalized invoice is returned next to the error of the sending. *)
Definition stripe_FinalizeAndSend (invoiceID : string) : calls (Invoice * option string) :=
  do f <- stripe_Finalize invoiceID;
  match f with
  | Err e => Give (Invoice_zero, Some e)
  | Ok finalized =>
      do s <- send_one (mkReq "V1Invoices.SendInvoice" invoiceID [] (applyIdem "invoice.send" [invoiceID]))
                (about_invoice "SendInvoice" invoiceID) lite_of;
      Give match s with Err e => (finalized, Some e) | Ok inv => (inv, None) end
  end.
Definition stripe_Void (invoiceID : string) : calls (option string) :=
  send_unit (mkReq "V1Invoices.VoidInvoice" invoiceID [] (applyIdem "invoice.void" [invoiceID])) (about_invoice "VoidInvoice" invoiceID).
Definition stripe_MarkUncollectible (invoiceID : string) : calls (option string) :=
  send_unit (mkReq "V1Invoices.MarkUncollectible" invoiceID [] (applyIdem "invoice.mark_uncollectible" [invoiceID]))
    (about_invoice "MarkUncollectible" invoiceID).

Definition canonicalCreditNoteLines (lines : list CreateLineItem) : string :=
  CanonicalStrings (map (fun li => li_Description li ^^ "|" ^^ CanonicalInt64 (li_Amount li) ^^ "|" ^^ CanonicalInt64 (li_Quantity li)) lines).
Definition credit_line_params (li : CreateLineItem) : params :=
  str "type" "custom_line_item" ++ str "description" (li_Description li) ++ int "unit_amount" (li_Amount li) ++
  int "quantity" (qtyOrOne (li_Quantity li)).
Definition credit_note_request (input : CreditNoteInput) : request :=
  mkReq "V1CreditNotes.Create" ""
    (str "invoice" (cn_InvoiceID input) ++ opt_str "reason" (cn_Reason_ input) ++ when (cn_Refund input) (int "refund_amount" 0) ++
     items_params "lines" (map credit_line_params (cn_Lines input)))
    (applyIdem "credit_note.create"
       [cn_InvoiceID input; cn_Reason_ input; FormatBool (cn_Refund input); canonicalCreditNoteLines (cn_Lines input)]).
Definition stripe_IssueCreditNote (input : CreditNoteInput) : calls (option string) :=
  send_unit (credit_note_request input) ("stripe.CreditNotes.Create(" ^^ cn_InvoiceID input ^^ "): ").

(** ** Listings *)
Definition stripe_ListInvoices (period : InvoicePeriod) : calls (res string (list AuditEntry)) :=
  send_list "V1Invoices.List"
    [("created[gte]", PStr (fmt_d (Unix (pe_Start period)))); ("created[lt]", PStr (fmt_d (Unix (pe_End period)))); ("limit", PStr "100")]
    "list invoices: " (fun o => projectInvoice <$> invoice_of o).
Definition stripe_ListOverdue (now : Z) : calls (res string (list Invoice)) :=
  send_list "V1Invoices.List" [("status", PStr "open"); ("due_date[lt]", PStr (fmt_d (Unix now))); ("limit", PStr "100")]
    "stripe.Invoices.List(overdue): " lite_of.
Definition page_limit (limit : Z) : Z := if limit <=? 0 then 50 else limit.
Definition stripe_ListInvoicesByCustomer (customerID status : string) (limit : Z) : calls (res string (list Invoice)) :=
  let limit := page_limit limit in
  send_first (Z.to_nat limit) "V1Invoices.List"
    ([("customer", PStr customerID)] ++ opt_str "status" status ++ [("limit", PStr (fmt_d limit))])
    ("stripe.Invoices.List(customer=" ^^ customerID ^^ "): ") lite_of.
Definition last_id (l : list Invoice) : string := match last l with Some i => iv_StripeID i | None => "" end.
(** One more than the page is asked for, and tells whether there is a next one. *)
Definition stripe_ListByCustomerPage (req : InvoicePageRequest) : calls (res string InvoicePage) :=
  let limit := page_limit (pq_Limit req) in
  let n := Z.to_nat limit in
  do r <- send_first (S n) "V1Invoices.List"
            ([("customer", PStr (pq_CustomerID req))] ++ opt_str "status" (pq_Status req) ++
             opt_str "starting_after" (pq_StartingAfter req) ++ [("limit", PStr (fmt_d (add64 limit 1)))])
            "stripe.Invoices.List(page): " lite_of;
  Give match r with
       | Err e => Err e
       | Ok read => let page := take n read in Ok (mkPage page (Nat.ltb n (List.length read)) (last_id page))
       end.

(** ** The interface of the operations *)
Section interface.
Context {X : Type} (serve : request -> X -> res string answer * X) (now : Z).
Definition stripe_InvoiceBackend : InvoiceBackend X := {|
  ib_ListInvoices period x := fst (perform serve (stripe_ListInvoices period) x);
  ib_CreateDraft input x := perform serve (stripe_CreateDraft input) x;
  ib_Finalize id x := perform serve (stripe_Finalize id) x;
  ib_FinalizeAndSend id x := perform serve (stripe_FinalizeAndSend id) x;
  ib_Void id x := perform serve (stripe_Void id) x;
  ib_MarkUncollectible id x := perform serve (stripe_MarkUncollectible id) x;
  ib_IssueCreditNote input x := perform serve (stripe_IssueCreditNote input) x;
  ib_ListOverdue x := fst (perform serve (stripe_ListOverdue now) x);
  ib_ListByCustomer customer status limit x := fst (perform serve (stripe_ListInvoicesByCustomer customer status limit) x);
  ib_ListByCustomerPage req x := fst (perform serve (stripe_ListByCustomerPage req) x);
|}.
End interface.
End backend.
