(* ===== verification/Coupons.v ===== *)
(** * Coupons: promotion codes for the coupons of the catalog (src/coupons/ and
      src/stripeapi/coupon_backend.go). *)
From S2P Require Import Prelude Events CatalogSpec StripeApi StripeCalls.

(** ** types.go, backend.go *)
Record Restrictions := mkRestrictions {
  rs_FirstTimeTransaction : bool; rs_MinimumAmount : Z; rs_MinimumAmountCurrency : string }.
Record PromoCode := mkPromoCode {
  po_ID : string; po_Code : string; po_CouponID : string; po_Active : bool; po_MaxRedemptions : Z; po_TimesRedeemed : Z;
  po_ExpiresAt : option Z; po_Restrictions : option Restrictions; po_BoundCustomer : string; po_Metadata : smap; po_Created : Z }.
Record PromoInput := mkPromoInput {
  pn_CouponKey : string; pn_Code : string; pn_MaxRedemptions : Z; pn_ExpiresAt : Z; pn_BoundCustomer : string;
  pn_Restrictions : option Restrictions; pn_Metadata : smap }.
Record PromoListInput := mkPromoListInput { pl_CouponKey : string; pl_ActiveOnly : bool; pl_Limit : Z }.
Record PromoParams := mkPromoParams {
  pp_CouponID : string; pp_Code : string; pp_MaxRedemptions : Z; pp_ExpiresAt : Z; pp_BoundCustomer : string;
  pp_Restrictions : option Restrictions; pp_Metadata : smap }.
Record PromoListParams := mkPromoListParams { lp_CouponID : string; lp_ActiveOnly : bool; lp_Limit : Z }.

(** ** coupon_backend.go *)
Definition project_restrictions (r : bool * Z * string) : Restrictions :=
  let '(first, amount, currency) := r in mkRestrictions first amount currency.
Definition projectPromoCode (p : stripe_promo) : PromoCode :=
  mkPromoCode (so_ID p) (so_Code p) (default "" (so_Coupon p)) (so_Active p) (so_MaxRedemptions p) (so_TimesRedeemed p)
    (if 0 <? so_ExpiresAt p then Some (UnixToTime (so_ExpiresAt p)) else None)
    (project_restrictions <$> so_Restrictions p) (default "" (so_Customer p)) (so_Metadata p) (UnixToTime (so_Created p)).
Definition promo_of (o : object) : option PromoCode := match o with OPromo p => Some (projectPromoCode p) | _ => None end.
Definition restriction_params (r : Restrictions) : params :=
  when (rs_FirstTimeTransaction r) (bool_ "first_time_transaction" true) ++
  when (0 <? rs_MinimumAmount r) (int "minimum_amount" (rs_MinimumAmount r) ++ opt_str "minimum_amount_currency" (rs_MinimumAmountCurrency r)).
Definition promo_params (p : PromoParams) : params :=
  str "coupon" (pp_CouponID p) ++ opt_str "code" (pp_Code p) ++ pos_int "max_redemptions" (pp_MaxRedemptions p) ++
  pos_int "expires_at" (pp_ExpiresAt p) ++ opt_str "customer" (pp_BoundCustomer p) ++
  match pp_Restrictions p with Some r => rec_ "restrictions" (restriction_params r) | None => [] end ++ meta (pp_Metadata p).

Section backend.
Context `{Sha256} `{GoRuntime} (ctx : string).
Abbreviation applyIdem := (ApplyIdempotencyKey ctx).
Definition promo_request (p : PromoParams) : request :=
  mkReq "V1PromotionCodes.Create" "" (promo_params p)
    (applyIdem "promo_code.create"
       [pp_CouponID p; pp_Code p; CanonicalInt64 (pp_MaxRedemptions p); CanonicalInt64 (pp_ExpiresAt p); pp_BoundCustomer p;
        CanonicalMap (pp_Metadata p)]).
Definition stripe_CreatePromoCode (p : PromoParams) : calls (res string PromoCode) :=
  send_one (promo_request p) "stripe.PromotionCodes.Create: " promo_of.
Definition stripe_ListPromoCodes (p : PromoListParams) : calls (res string (list PromoCode)) :=
  send_list "V1PromotionCodes.List"
    (opt_str "coupon" (lp_CouponID p) ++ when (lp_ActiveOnly p) (bool_ "active" true) ++
     when (0 <? lp_Limit p) [("limit", PStr (fmt_d (lp_Limit p)))])
    "stripe.PromotionCodes.List: " promo_of.
Definition stripe_DeactivatePromoCode (promoID : string) : calls (option string) :=
  send_unit (mkReq "V1PromotionCodes.Update" promoID (bool_ "active" false) (applyIdem "promo_code.deactivate" [promoID]))
    ("stripe.PromotionCodes.Update(" ^^ promoID ^^ ", active=false): ").

(** ** operations.go *)
Inductive coupon_error :=
| CouponKeyRequired
| ErrCouponNotInCatalog (key : string)
| PromoIDRequired
| CouponStripe (e : string).
Context (spec : Spec).
Definition coupon_result {A} (r : res string A) : res coupon_error A := match r with Ok a => Ok a | Err e => Err (CouponStripe e) end.
Definition coupon_params (input : PromoInput) : PromoParams :=
  mkPromoParams (NamespacedCouponID spec (pn_CouponKey input)) (pn_Code input) (pn_MaxRedemptions input)
    (if IsZero (pn_ExpiresAt input) then 0 else Unix (pn_ExpiresAt input)) (pn_BoundCustomer input) (pn_Restrictions input)
    (StampNamespace (pn_Metadata input) (Namespace spec)).
Definition CreatePromoCode (input : PromoInput) : calls (res coupon_error PromoCode) :=
  if String.eqb (pn_CouponKey input) "" then Give (Err CouponKeyRequired)
  else match Coupons spec !! pn_CouponKey input with
  | None => Give (Err (ErrCouponNotInCatalog (pn_CouponKey input)))
  | Some _ => do r <- stripe_CreatePromoCode (coupon_params input); Give (coupon_result r)
  end.
Definition ListPromoCodes (input : PromoListInput) : calls (res coupon_error (list PromoCode)) :=
  let list_ id := do r <- stripe_ListPromoCodes (mkPromoListParams id (pl_ActiveOnly input) (pl_Limit input)); Give (coupon_result r) in
  if String.eqb (pl_CouponKey input) "" then list_ ""
  else match Coupons spec !! pl_CouponKey input with
  | None => Give (Err (ErrCouponNotInCatalog (pl_CouponKey input)))
  | Some _ => list_ (NamespacedCouponID spec (pl_CouponKey input))
  end.
Definition DeactivatePromoCode (promoID : string) : calls (option coupon_error) :=
  if String.eqb promoID "" then Give (Some PromoIDRequired)
  else do r <- stripe_DeactivatePromoCode promoID; Give (CouponStripe <$> r).
End backend.
