(* ===== verification/Refunds.v ===== *)
(** * Refunds: refunds and payment method presets (src/payments/ and
      src/stripeapi/refund_backend.go). *)
From S2P Require Import Prelude Events StripeApi StripeCalls.

(** ** presets.go *)
Definition IntentSubscription : string := "subscription".
Definition IntentOneTime : string := "one_time".
Definition IntentCreditTopUp : string := "credit_top_up".
Definition IntentInvoice : string := "invoice".
Definition IntentSEPAOnly : string := "sepa_only".
Definition IntentBankTransferEU : string := "bank_transfer_eu".
Definition IntentBankTransferUS : string := "bank_transfer_us".
Definition IntentBankTransferUK : string := "bank_transfer_uk".
Definition IntentCardOnly : string := "card_only".
Definition presets : list (string * list string) :=
  [(IntentSubscription, ["card"; "sepa_debit"; "apple_pay"; "google_pay"]);
   (IntentOneTime, ["card"; "sepa_debit"; "apple_pay"; "google_pay"]);
   (IntentCreditTopUp, ["card"; "apple_pay"; "google_pay"]);
   (IntentInvoice, ["customer_balance"; "card"]);
   (IntentSEPAOnly, ["sepa_debit"]);
   (IntentBankTransferEU, ["customer_balance"]);
   (IntentBankTransferUS, ["customer_balance"; "us_bank_account"]);
   (IntentBankTransferUK, ["customer_balance"; "bacs_debit"]);
   (IntentCardOnly, ["card"])].
(** A fresh copy of the preset, nil for an unknown intent. *)
Definition MethodsFor (intent : string) : list string :=
  match List.find (fun p => String.eqb (fst p) intent) presets with Some (_, l) => l | None => [] end.

(** ** refunds.go *)
Definition RefundReasonDuplicate : string := "duplicate".
Definition RefundReasonFraudulent : string := "fraudulent".
Definition RefundReasonRequestedByCustomer : string := "requested_by_customer".
Record RefundInput := mkRefundInput {
  rf_ChargeID : string; rf_PaymentIntentID : string; rf_Amount : Z; rf_Reason : string; rf_Metadata : smap }.
Record Refund := mkRefund {
  rd_StripeID : string; rd_ChargeID : string; rd_Amount : Z; rd_Currency : string; rd_Status : string; rd_Reason : string;
  rd_CreatedAt : Z }.
Inductive refund_error :=
| RefundNoTarget
| RefundTwoTargets
| RefundNegative (amount : Z)
| RefundBadReason (reason : string)
| RefundStripe (e : string).
Definition refund_reason (reason : string) : option string :=
  if String.eqb reason "" then Some RefundReasonRequestedByCustomer
  else if existsb (String.eqb reason) [RefundReasonDuplicate; RefundReasonFraudulent; RefundReasonRequestedByCustomer] then Some reason
  else None.
(** What the backend is given, or the error. *)
Definition check_refund (namespace : string) (input : RefundInput) : res refund_error RefundInput :=
  let charge := negb (String.eqb (rf_ChargeID input) "") in
  let intent := negb (String.eqb (rf_PaymentIntentID input) "") in
  if negb charge && negb intent then Err RefundNoTarget
  else if charge && intent then Err RefundTwoTargets
  else if rf_Amount input <? 0 then Err (RefundNegative (rf_Amount input))
  else match refund_reason (rf_Reason input) with
  | None => Err (RefundBadReason (rf_Reason input))
  | Some reason =>
      Ok (mkRefundInput (rf_ChargeID input) (rf_PaymentIntentID input) (rf_Amount input) reason
            (StampNamespace (rf_Metadata input) namespace))
  end.

(** ** refund_backend.go *)
Definition project_refund (r : stripe_refund) : Refund :=
  mkRefund (sf_ID r) (default "" (sf_Charge r)) (sf_Amount r) (sf_Currency r) (sf_Status r) (sf_Reason r) (time_Unix (sf_Created r)).
Definition refund_of (o : object) : option Refund := match o with ORefund r => Some (project_refund r) | _ => None end.

Section backend.
Context `{Sha256} `{GoRuntime} (ctx : string).
Definition refund_request (input : RefundInput) : request :=
  mkReq "V1Refunds.Create" ""
    (str "reason" (rf_Reason input) ++ opt_str "charge" (rf_ChargeID input) ++ opt_str "payment_intent" (rf_PaymentIntentID input) ++
     pos_int "amount" (rf_Amount input) ++ meta (rf_Metadata input))
    (ApplyIdempotencyKey ctx "refund.create"
       [rf_ChargeID input; rf_PaymentIntentID input; CanonicalInt64 (rf_Amount input); rf_Reason input; CanonicalMap (rf_Metadata input)]).
Definition stripe_Refund (input : RefundInput) : calls (res string Refund) :=
  send_one (refund_request input) "stripe.Refunds.Create: " refund_of.
Definition refund (namespace : string) (input : RefundInput) : calls (res refund_error Refund) :=
  match check_refund namespace input with
  | Err e => Give (Err e)
  | Ok input => do r <- stripe_Refund input; Give match r with Ok x => Ok x | Err e => Err (RefundStripe e) end
  end.
End backend.
