(* ===== verification/Disputes.v ===== *)
(** * Disputes: answering chargebacks (src/disputes/disputes.go). *)
From S2P Require Import Prelude StripeApi StripeCalls.

Record Dispute := mkDispute {
  dp_StripeID : string; dp_ChargeID : string; dp_PaymentIntentID : string; dp_Amount : Z; dp_Currency : string; dp_Reason : string;
  dp_Status : string; dp_EvidenceDueBy : option Z; dp_IsChargeRefundable : bool; dp_HasEvidence : bool; dp_CreatedAt : Z }.
Record VisaCE3 := mkCE3 { ce_DisputedTransactionID : string; ce_PriorUndisputedTransactions : list string }.
Record VisaCompliance := mkCompliance { vc_FeeAcknowledged : bool }.
Record EnhancedEvidence := mkEnhanced { en_VisaCompellingEvidence3 : option VisaCE3; en_VisaCompliance : option VisaCompliance }.
Record Evidence := mkEvidence {
  ed_CustomerName : string; ed_CustomerEmail : string; ed_CustomerPurchaseIP : string; ed_BillingAddress : string;
  ed_ProductDescription : string; ed_ServiceDate : string; ed_ServiceDocumentation : string;
  ed_ShippingAddress : string; ed_ShippingDate : string; ed_ShippingCarrier : string; ed_ShippingTrackingNumber : string;
  ed_ShippingDocumentation : string;
  ed_CustomerSignature : string; ed_CustomerCommunication : string; ed_Receipt : string; ed_RefundPolicy : string;
  ed_RefundPolicyDisclosure : string; ed_RefundRefusalExplanation : string;
  ed_CancellationPolicy : string; ed_CancellationPolicyDisclosure : string; ed_CancellationRebuttal : string;
  ed_DuplicateChargeID : string; ed_DuplicateChargeExplanation : string; ed_DuplicateChargeDocumentation : string;
  ed_AccessActivityLog : string; ed_UncategorizedFile : string; ed_UncategorizedText : string;
  ed_EnhancedEvidence : option EnhancedEvidence }.

(** ** The content hash *)
Fixpoint with_commas (l : list string) : string := match l with [] => "" | t :: rest => t ^^ "," ^^ with_commas rest end.
Definition hashBytes (e : EnhancedEvidence) : string :=
  match en_VisaCompellingEvidence3 e with
  | Some c => "ce3:" ^^ ce_DisputedTransactionID c ^^ ":" ^^ with_commas (ce_PriorUndisputedTransactions c)
  | None => ""
  end ^^
  match en_VisaCompliance e with
  | Some v => "comp:" ^^ if vc_FeeAcknowledged v then "1" else "0"
  | None => ""
  end.
Definition text_fields (e : Evidence) : list (string * string) :=
  [("AccessActivityLog", ed_AccessActivityLog e); ("BillingAddress", ed_BillingAddress e);
   ("CancellationPolicy", ed_CancellationPolicy e); ("CancellationPolicyDisclosure", ed_CancellationPolicyDisclosure e);
   ("CancellationRebuttal", ed_CancellationRebuttal e); ("CustomerCommunication", ed_CustomerCommunication e);
   ("CustomerEmail", ed_CustomerEmail e); ("CustomerName", ed_CustomerName e); ("CustomerPurchaseIP", ed_CustomerPurchaseIP e);
   ("CustomerSignature", ed_CustomerSignature e); ("DuplicateChargeDocumentation", ed_DuplicateChargeDocumentation e);
   ("DuplicateChargeExplanation", ed_DuplicateChargeExplanation e); ("DuplicateChargeID", ed_DuplicateChargeID e);
   ("ProductDescription", ed_ProductDescription e); ("Receipt", ed_Receipt e); ("RefundPolicy", ed_RefundPolicy e);
   ("RefundPolicyDisclosure", ed_RefundPolicyDisclosure e); ("RefundRefusalExplanation", ed_RefundRefusalExplanation e);
   ("ServiceDate", ed_ServiceDate e); ("ServiceDocumentation", ed_ServiceDocumentation e); ("ShippingAddress", ed_ShippingAddress e);
   ("ShippingCarrier", ed_ShippingCarrier e); ("ShippingDate", ed_ShippingDate e);
   ("ShippingDocumentation", ed_ShippingDocumentation e); ("ShippingTrackingNumber", ed_ShippingTrackingNumber e);
   ("UncategorizedFile", ed_UncategorizedFile e); ("UncategorizedText", ed_UncategorizedText e)].
Definition evidence_fields (e : Evidence) : smap :=
  let fields : smap := list_to_map (text_fields e) in
  match ed_EnhancedEvidence e with Some en => <["EnhancedEvidence" := hashBytes en]> fields | None => fields end.

(** ** The request *)
Definition buildEnhancedEvidenceParams (e : EnhancedEvidence) : params :=
  match en_VisaCompellingEvidence3 e with
  | Some c => rec_ "visa_compelling_evidence_3"
                (rec_ "disputed_transaction" (opt_str "customer_account_id" (ce_DisputedTransactionID c)))
  | None => []
  end ++
  match en_VisaCompliance e with
  | Some v => rec_ "visa_compliance" (bool_ "fee_acknowledged" (vc_FeeAcknowledged v))
  | None => []
  end.
Definition buildEvidenceParams (e : Evidence) : params :=
  opt_str "access_activity_log" (ed_AccessActivityLog e) ++ opt_str "billing_address" (ed_BillingAddress e) ++
  opt_str "cancellation_policy" (ed_CancellationPolicy e) ++
  opt_str "cancellation_policy_disclosure" (ed_CancellationPolicyDisclosure e) ++
  opt_str "cancellation_rebuttal" (ed_CancellationRebuttal e) ++ opt_str "customer_communication" (ed_CustomerCommunication e) ++
  opt_str "customer_email_address" (ed_CustomerEmail e) ++ opt_str "customer_name" (ed_CustomerName e) ++
  opt_str "customer_purchase_ip" (ed_CustomerPurchaseIP e) ++ opt_str "customer_signature" (ed_CustomerSignature e) ++
  opt_str "duplicate_charge_documentation" (ed_DuplicateChargeDocumentation e) ++
  opt_str "duplicate_charge_explanation" (ed_DuplicateChargeExplanation e) ++ opt_str "duplicate_charge_id" (ed_DuplicateChargeID e) ++
  opt_str "product_description" (ed_ProductDescription e) ++ opt_str "receipt" (ed_Receipt e) ++
  opt_str "refund_policy" (ed_RefundPolicy e) ++ opt_str "refund_policy_disclosure" (ed_RefundPolicyDisclosure e) ++
  opt_str "refund_refusal_explanation" (ed_RefundRefusalExplanation e) ++ opt_str "service_date" (ed_ServiceDate e) ++
  opt_str "service_documentation" (ed_ServiceDocumentation e) ++ opt_str "shipping_address" (ed_ShippingAddress e) ++
  opt_str "shipping_carrier" (ed_ShippingCarrier e) ++ opt_str "shipping_date" (ed_ShippingDate e) ++
  opt_str "shipping_documentation" (ed_ShippingDocumentation e) ++
  opt_str "shipping_tracking_number" (ed_ShippingTrackingNumber e) ++ opt_str "uncategorized_file" (ed_UncategorizedFile e) ++
  opt_str "uncategorized_text" (ed_UncategorizedText e) ++
  match ed_EnhancedEvidence e with Some en => rec_ "enhanced_evidence" (buildEnhancedEvidenceParams en) | None => [] end.

Definition projectDispute (d : stripe_dispute) : Dispute :=
  let '(due, evidence) := match sd_EvidenceDetails d with
                          | Some (by_, has) => if 0 <? by_ then (Some (time_Unix by_), has) else (None, false)
                          | None => (None, false)
                          end in
  mkDispute (sd_ID d) (default "" (sd_Charge d)) (default "" (sd_PaymentIntent d)) (sd_Amount d) (sd_Currency d) (sd_Reason d)
    (sd_Status d) due (sd_IsChargeRefundable d) evidence (time_Unix (sd_Created d)).
Definition dispute_of (o : object) : option Dispute := match o with ODispute d => Some (projectDispute d) | _ => None end.

(** ** Operations *)
Record DisputeListInput := mkDisputeList { di_ChargeID : string; di_PaymentIntentID : string; di_Limit : Z }.
Section operations.
Context `{Sha256} `{GoRuntime} (ctx : string).
Abbreviation applyIdem := (ApplyIdempotencyKey ctx).
Definition evidenceContentHash (e : Evidence) : string := ContentHash "disputes.evidence" (evidence_fields e).
Definition evidence_request (disputeID : string) (e : Evidence) : request :=
  mkReq "V1Disputes.Update" disputeID (rec_ "evidence" (buildEvidenceParams e))
    (applyIdem "disputes.submit_evidence" [disputeID; evidenceContentHash e]).
Definition need_dispute {A} (what disputeID : string) (p : calls (res string A)) : calls (res string A) :=
  if String.eqb disputeID "" then Give (Err ("disputes." ^^ what ^^ ": disputeID is required")) else p.
Definition SubmitEvidence (disputeID : string) (e : Evidence) : calls (res string Dispute) :=
  need_dispute "SubmitEvidence" disputeID
    (send_one (evidence_request disputeID e) ("disputes.SubmitEvidence: Disputes.Update(" ^^ disputeID ^^ "): ") dispute_of).
Definition Close (disputeID : string) : calls (res string Dispute) :=
  need_dispute "Close" disputeID
    (send_one (mkReq "V1Disputes.Close" disputeID [] (applyIdem "disputes.close" [disputeID])) ("disputes.Close(" ^^ disputeID ^^ "): ") dispute_of).
Definition dispute_Retrieve (disputeID : string) : calls (res string Dispute) :=
  need_dispute "Retrieve" disputeID
    (send_one (mkReq "V1Disputes.Retrieve" disputeID [] "") ("disputes.Retrieve(" ^^ disputeID ^^ "): ") dispute_of).
Definition dispute_List (input : DisputeListInput) : calls (res string (list Dispute)) :=
  let limit := if di_Limit input <=? 0 then 50 else di_Limit input in
  send_first (Z.to_nat limit) "V1Disputes.List"
    (opt_str "charge" (di_ChargeID input) ++ opt_str "payment_intent" (di_PaymentIntentID input) ++ [("limit", PStr (fmt_d limit))])
    "disputes.List: " dispute_of.
End operations.
