(* ===== verification/PaymentMethods.v ===== *)
(** * PaymentMethods: cards on file (src/paymentmethods/paymentmethods.go), over the
      customer repository of Checkout.

    An operation looks the customer up first and then runs a program of requests. *)
From S2P Require Import Prelude StripeApi StripeCalls Checkout.

Record SetupIntentNextAction := mkNextAction { na_Type : string; na_RedirectToURL : string; na_ReturnURL : string }.
Record SetupIntent := mkSetupIntent {
  si_StripeID : string; si_ClientSecret : string; si_Status : string; si_CreatedAt : Z; si_NextAction : option SetupIntentNextAction }.
Record CreateSetupIntentInput := mkSetupInput {
  su_SubjectID : string; su_Usage : string; su_PaymentMethodTypes : list string; su_Metadata : smap }.
Record CardSnapshot := mkCard { cd_Brand : string; cd_Last4 : string; cd_ExpMonth : Z; cd_ExpYear : Z }.
Record PaymentMethod := mkPaymentMethod {
  py_StripeID : string; py_StripeCustomerID : string; py_Type : string; py_Card : option CardSnapshot; py_IsDefault : bool;
  py_CreatedAt : Z; py_Metadata : smap }.

Definition project_next (n : string * option (string * string)) : SetupIntentNextAction :=
  mkNextAction (fst n) (default "" (fst <$> snd n)) (default "" (snd <$> snd n)).
Definition projectSetupIntent (s : stripe_setup_intent) : SetupIntent :=
  mkSetupIntent (sn_ID s) (sn_ClientSecret s) (sn_Status s) (time_Unix (sn_Created s)) (project_next <$> sn_NextAction s).
Definition project_card (c : string * string * Z * Z) : CardSnapshot :=
  let '(brand, last4, month, year) := c in mkCard brand last4 month year.
Definition projectPaymentMethod (pm : stripe_payment_method) (customerID : string) (is_default : bool) : PaymentMethod :=
  mkPaymentMethod (sy_ID pm) customerID (sy_Type pm) (project_card <$> sy_Card pm) is_default (time_Unix (sy_Created pm)) (sy_Metadata pm).

Section operations.
Context `{Sha256} `{GoRuntime} (ctx : string) {C : Type} `{CustomerRepo C}.
Abbreviation applyIdem := (ApplyIdempotencyKey ctx).
Definition resolveCustomer (s : string) (c : C) : res string string * C :=
  match cu_Get s c with
  | (Err e, c') => (Err ("paymentmethods: resolve " ^^ s ^^ ": " ^^ e), c')
  | (Ok None, c') => (Err ("paymentmethods: no Stripe customer for subject " ^^ s), c')
  | (Ok (Some id), c') => (Ok id, c')
  end.
(** The customer, and then the requests for it. *)
Definition for_customer {A} (s : string) (p : string -> calls (res string A)) (c : C) : calls (res string A) * C :=
  let '(r, c') := resolveCustomer s c in
  (match r with Err e => Give (Err e) | Ok id => p id end, c').
Definition for_customer_unit (s : string) (p : string -> calls (option string)) (c : C) : calls (option string) * C :=
  let '(r, c') := resolveCustomer s c in
  (match r with Err e => Give (Some e) | Ok id => p id end, c').

(** ** Setup intents *)
Definition setup_request (customerID : string) (input : CreateSetupIntentInput) : request :=
  let usage := if String.eqb (su_Usage input) "" then "off_session" else su_Usage input in
  let pmTypes := match su_PaymentMethodTypes input with [] => ["card"] | l => l end in
  mkReq "V1SetupIntents.Create" ""
    (str "customer" customerID ++ str "usage" usage ++ [("payment_method_types", PList (map PStr pmTypes))] ++ meta (su_Metadata input))
    (applyIdem "paymentmethods.setup_intent.create" [customerID; usage]).
Definition CreateSetupIntent (input : CreateSetupIntentInput) (c : C) : calls (res string SetupIntent) * C :=
  if String.eqb (su_SubjectID input) "" then (Give (Err "paymentmethods.CreateSetupIntent: SubjectID is required"), c)
  else for_customer (su_SubjectID input) (fun customerID =>
    send_one (setup_request customerID input) "paymentmethods.CreateSetupIntent: SetupIntents.Create: "
      (fun o => match o with OSetupIntent s => Some (projectSetupIntent s) | _ => None end)) c.

(** ** Listing *)
Definition default_of (o : object) : option string := match o with OCustomer _ _ _ pm => Some (default "" pm) | _ => None end.
Definition project_listed (customerID defaultPMID : string) (o : object) : option PaymentMethod :=
  match o with
  | OPaymentMethod pm => Some (projectPaymentMethod pm customerID (String.eqb (sy_ID pm) defaultPMID))
  | _ => None
  end.
Fixpoint list_types (customerID defaultPMID : string) (types : list string) (out : list PaymentMethod)
  : calls (res string (list PaymentMethod)) :=
  match types with
  | [] => Give (Ok out)
  | pmType :: rest =>
      do r <- send_list "V1PaymentMethods.List" [("customer", PStr customerID); ("type", PStr pmType); ("limit", PStr "100")]
                ("paymentmethods.List(type=" ^^ pmType ^^ "): ") (project_listed customerID defaultPMID);
      match r with
      | Err e => Give (Err e)
      | Ok l => list_types customerID defaultPMID rest (out ++ l)
      end
  end.
Definition pm_List (s : string) (types : list string) (c : C) : calls (res string (list PaymentMethod)) * C :=
  for_customer s (fun customerID =>
    do cust <- send_one (mkReq "V1Customers.Retrieve" customerID [] "") "paymentmethods.List: Customers.Retrieve: " default_of;
    match cust with
    | Err e => Give (Err e)
    | Ok defaultPMID => list_types customerID defaultPMID (match types with [] => ["card"] | l => l end) []
    end) c.

(** ** Attaching and the default *)
Definition need_pm (what paymentMethodID : string) (c : C) (p : calls (option string) * C) : calls (option string) * C :=
  if String.eqb paymentMethodID "" then (Give (Some ("paymentmethods." ^^ what ^^ ": paymentMethodID is required")), c) else p.
Definition attach_request (customerID paymentMethodID : string) : request :=
  mkReq "V1PaymentMethods.Attach" paymentMethodID (str "customer" customerID)
    (applyIdem "paymentmethods.attach" [customerID; paymentMethodID]).
Definition AttachPaymentMethod (s paymentMethodID : string) (c : C) : calls (option string) * C :=
  need_pm "AttachPaymentMethod" paymentMethodID c
    (for_customer_unit s (fun customerID => send_unit (attach_request customerID paymentMethodID) "paymentmethods.AttachPaymentMethod: ") c).
Definition detach_request (paymentMethodID : string) : request :=
  mkReq "V1PaymentMethods.Detach" paymentMethodID [] (applyIdem "paymentmethods.detach" [paymentMethodID]).
Definition DetachPaymentMethod (paymentMethodID : string) (c : C) : calls (option string) * C :=
  need_pm "DetachPaymentMethod" paymentMethodID c
    (send_unit (detach_request paymentMethodID) "paymentmethods.DetachPaymentMethod: ", c).
Definition set_default_request (customerID paymentMethodID : string) : request :=
  mkReq "V1Customers.Update" customerID (rec_ "invoice_settings" (str "default_payment_method" paymentMethodID))
    (applyIdem "paymentmethods.set_default" [customerID; paymentMethodID]).
Definition SetDefaultPaymentMethod (s paymentMethodID : string) (c : C) : calls (option string) * C :=
  need_pm "SetDefaultPaymentMethod" paymentMethodID c
    (for_customer_unit s (fun customerID =>
       send_unit (set_default_request customerID paymentMethodID) "paymentmethods.SetDefaultPaymentMethod: ") c).
End operations.
