(* ===== verification/Quotes.v ===== *)
(** * Quotes: offers of the sales team (src/quotes/quotes.go). *)
From S2P Require Import Prelude Events StripeApi StripeCalls StripeSubscriptions.

Record QuoteLine := mkQuoteLine { ql_StripePriceID : string; ql_Quantity : Z }.
Record QuoteInput := mkQuoteInput {
  qi_StripeCustomerID : string; qi_LineItems : list QuoteLine; qi_Description : string; qi_Footer : string; qi_Header : string;
  qi_ExpiresAt : Z; qi_CollectionMethod : string; qi_TrialPeriodDays : Z; qi_Metadata : smap }.
Record Quote := mkQuote {
  qo_StripeID : string; qo_Number : string; qo_Status : string; qo_StripeCustomerID : string; qo_AmountTotal : Z;
  qo_AmountSubtotal : Z; qo_Currency : string; qo_ExpiresAt : Z; qo_CreatedAt : Z; qo_PDFURL : string; qo_SubscriptionID : string;
  qo_InvoiceID : string }.
Definition projectQuote (q : stripe_quote) : Quote :=
  mkQuote (sq_ID q) (sq_Number q) (sq_Status q) (default "" (sq_Customer q)) (sq_AmountTotal q) (sq_AmountSubtotal q) (sq_Currency q)
    (if 0 <? sq_ExpiresAt q then time_Unix (sq_ExpiresAt q) else time_zero) (time_Unix (sq_Created q)) ""
    (default "" (sq_Subscription q)) (default "" (sq_Invoice q)).
Definition quote_of (o : object) : option Quote := match o with OQuote q => Some (projectQuote q) | _ => None end.

(** ** The content hash *)
Definition line_text (li : QuoteLine) : string := ql_StripePriceID li ^^ "x" ^^ fmt_d (ql_Quantity li).
Definition input_fields (input : QuoteInput) : smap :=
  let fields : smap :=
    {["Description" := qi_Description input; "Footer" := qi_Footer input; "Header" := qi_Header input;
      "CollectionMethod" := qi_CollectionMethod input; "TrialPeriodDays" := fmt_d (qi_TrialPeriodDays input)]} in
  let fields := if IsZero (qi_ExpiresAt input) then fields else <["ExpiresAt" := fmt_d (Unix (qi_ExpiresAt input))]> fields in
  let fields := <["LineItems" := CanonicalStrings (map line_text (qi_LineItems input))]> fields in
  kmap (String.append "meta:") (qi_Metadata input) ∪ fields.

(** ** The request *)
Definition quote_line_params (li : QuoteLine) : params :=
  str "price" (ql_StripePriceID li) ++ int "quantity" (if ql_Quantity li <=? 0 then 1 else ql_Quantity li).
(** The namespace is added first, then the caller's metadata over it. *)
Definition quote_metadata (namespace : string) (m : smap) : smap :=
  m ∪ (if String.eqb namespace "" then ∅ else {[MetadataKeyNamespace := namespace]}).
Definition quote_params (namespace : string) (input : QuoteInput) : params :=
  str "customer" (qi_StripeCustomerID input) ++ opt_str "description" (qi_Description input) ++ opt_str "footer" (qi_Footer input) ++
  opt_str "header" (qi_Header input) ++ when (negb (IsZero (qi_ExpiresAt input))) (int "expires_at" (Unix (qi_ExpiresAt input))) ++
  opt_str "collection_method" (qi_CollectionMethod input) ++
  when (0 <? qi_TrialPeriodDays input) (rec_ "subscription_data" (int "trial_period_days" (qi_TrialPeriodDays input))) ++
  items_params "line_items" (map quote_line_params (qi_LineItems input)) ++ meta (quote_metadata namespace (qi_Metadata input)).

(** ** Operations *)
Section operations.
Context `{Sha256} `{GoRuntime} (ctx : string) (namespace : string).
Abbreviation applyIdem := (ApplyIdempotencyKey ctx).
Definition createInputHash (input : QuoteInput) : string := ContentHash "quotes.create" (input_fields input).
Definition quote_request (input : QuoteInput) : request :=
  mkReq "V1Quotes.Create" "" (quote_params namespace input)
    (applyIdem "quotes.create" [qi_StripeCustomerID input; createInputHash input]).
Definition quote_Create (input : QuoteInput) : calls (res string Quote) :=
  if String.eqb (qi_StripeCustomerID input) "" then Give (Err "quotes.Create: StripeCustomerID is required")
  else match qi_LineItems input with
  | [] => Give (Err "quotes.Create: at least one LineItem is required")
  | _ => send_one (quote_request input) "quotes.Create: Quotes.Create: " quote_of
  end.
(** Finalize, Accept, Cancel and Retrieve: one request about a quote. *)
Definition about_quote (name : string) (r : request) : calls (res string Quote) :=
  if String.eqb (rq_target r) "" then Give (Err ("quotes." ^^ name ^^ ": quoteID is required"))
  else send_one r ("quotes." ^^ name ^^ "(" ^^ rq_target r ^^ "): ") quote_of.
Definition quote_Finalize (quoteID : string) : calls (res string Quote) :=
  about_quote "Finalize" (mkReq "V1Quotes.FinalizeQuote" quoteID [] (applyIdem "quotes.finalize" [quoteID])).
Definition quote_Accept (quoteID : string) : calls (res string Quote) :=
  about_quote "Accept" (mkReq "V1Quotes.Accept" quoteID [] (applyIdem "quotes.accept" [quoteID])).
Definition quote_Cancel (quoteID : string) : calls (res string Quote) :=
  about_quote "Cancel" (mkReq "V1Quotes.Cancel" quoteID [] (applyIdem "quotes.cancel" [quoteID])).
Definition quote_Retrieve (quoteID : string) : calls (res string Quote) :=
  about_quote "Retrieve" (mkReq "V1Quotes.Retrieve" quoteID [] "").
End operations.
