(* ===== verification/Climate.v ===== *)
(** * Climate: the writes that set no idempotency key, carbon removal orders
      (src/climate/climate.go) and test clocks (src/stripeapi/test_clock.go). *)
From Stdlib Require Import SpecFloat.
From S2P Require Import Prelude StripeApi StripeCalls.

(** ** climate.go *)
Record Order := mkOrder {
  or_StripeID : string; or_Amount : Z; or_Currency : string; or_MetricTons : spec_float; or_CreatedAt : Z; or_Status : string }.
Definition projectOrder (o : stripe_climate_order) : Order :=
  mkOrder (sk_ID o) (sk_AmountTotal o) (sk_Currency o) (sk_MetricTons o) (time_Unix (sk_Created o)) (sk_Status o).
Definition order_of (o : object) : option Order := match o with OClimateOrder c => Some (projectOrder c) | _ => None end.
Definition beneficiary_params (publicName : string) : params :=
  when (negb (String.eqb publicName "")) (rec_ "beneficiary" (str "public_name" publicName)).
Definition climate_order (ps : params) : calls (res string Order) :=
  send_one (mkReq "V1ClimateOrders.Create" "" ps "") "stripe.climate.Order.Create: " order_of.
Definition PurchaseAmount (amount : Z) (currency publicName : string) : calls (res string Order) :=
  if amount <=? 0 then Give (Err "climate.PurchaseAmount: amount must be > 0")
  else if String.eqb currency "" then Give (Err "climate.PurchaseAmount: currency required")
  else climate_order (int "amount" amount ++ str "currency" currency ++ beneficiary_params publicName).
(** [tons <= 0] on float64, which is false of NaN. *)
Definition PurchaseMetricTons (tons : spec_float) (publicName : string) : calls (res string Order) :=
  if SFleb tons (S754_zero false) then Give (Err "climate.PurchaseMetricTons: tons must be > 0")
  else climate_order ([("metric_tons", PFloat tons)] ++ beneficiary_params publicName).

(** ** test_clock.go *)
Record TestClock := mkTestClock { tk_StripeID : string; tk_Status : string; tk_FrozenAt : Z }.
Definition clock_of (o : object) : option TestClock :=
  match o with OClock id status frozen => Some (mkTestClock id status (time_Unix frozen)) | _ => None end.
(** [client] is whether the client is there. The other operations do not test it. *)
Definition CreateTestClock (client : bool) (frozenAt : Z) (name : string) : calls (res string TestClock) :=
  if negb client then Give (Err "stripeapi.CreateTestClock: nil StripeClient")
  else send_one (mkReq "V1TestHelpersTestClocks.Create" "" (int "frozen_time" (Unix frozenAt) ++ opt_str "name" name) "")
         "stripeapi.CreateTestClock: " clock_of.
Definition AdvanceTestClock (testClockID : string) (advanceTo : Z) : calls (res string TestClock) :=
  if String.eqb testClockID "" then Give (Err "stripeapi.AdvanceTestClock: testClockID is required")
  else send_one (mkReq "V1TestHelpersTestClocks.Advance" testClockID (int "frozen_time" (Unix advanceTo)) "")
         ("stripeapi.AdvanceTestClock(" ^^ testClockID ^^ "): ") clock_of.
Definition DeleteTestClock (testClockID : string) : calls (option string) :=
  if String.eqb testClockID "" then Give (Some "stripeapi.DeleteTestClock: testClockID is required")
  else send_unit (mkReq "V1TestHelpersTestClocks.Delete" testClockID [] "") ("stripeapi.DeleteTestClock(" ^^ testClockID ^^ "): ").
Definition GetTestClock (testClockID : string) : calls (res string TestClock) :=
  send_one (mkReq "V1TestHelpersTestClocks.Retrieve" testClockID [] "") ("stripeapi.GetTestClock(" ^^ testClockID ^^ "): ") clock_of.
