(* ===== verification/StripeBackendFacts.v ===== *)
(** * StripeBackendFacts: what repeating a write does, and what a failed one leaves behind.

    The theorems hold of every server, with the treatment of idempotency keys of
    StripeCalls on top where a key matters. [backend_write] is the list of the keyed writes
    of the catalog, checkout, subscription and invoice backends and of the coupon, refund,
    dispute, payment-method and quote packages. Not in it: portal sessions, which are meant
    to be new at every click; meter events, the stamps of an import, tax ids and the portal
    configuration, which are written behind interfaces of their own (Metering, Customers,
    PortalConfig); climate orders, which set no key. *)
From S2P Require Import Prelude StripeApi StripeCalls CatalogSync StripeCatalog Checkout StripeCheckout SubscriptionOps StripeSubscriptions Invoices StripeInvoices Coupons Refunds Disputes PaymentMethods Quotes.

(** ** Keys *)
Ltac key_set := intros; unfold has_key; cbn [rq_key]; apply applied_key; done.
Lemma keyed_one {A} r what (f : object -> option A) : has_key r -> keyed (send_one r what f).
Proof. intros. constructor; [done|]. intros. constructor. Qed.
Lemma keyed_unit r what : has_key r -> keyed (send_unit r what).
Proof. intros. constructor; [done|]. intros. constructor. Qed.
Create HintDb keyed.
#[export] Hint Resolve keyed_one keyed_unit keyed_give : keyed.
#[export] Hint Extern 1 (has_key _) => key_set : keyed.
Ltac head_of t := lazymatch t with ?f _ => head_of f | _ => t end.
(** Walk through a program of keyed requests, opening the definitions on the way. *)
Ltac walk := repeat (cbn [fst snd]; first
  [ solve [auto with keyed]
  | match goal with
    | |- keyed (cbind _ _) => apply keyed_bind; [|intros]
    | |- keyed (match ?x with _ => _ end) => destruct x
    | |- keyed (fst (match ?x with _ => _ end)) => destruct x
    | |- keyed (fst ?p) => let h := head_of p in unfold h
    | |- keyed ?p => let h := head_of p in unfold h
    end ]).

Section facts.
Context `{Sha256} `{GoRuntime}.

(** ** The writes *)
Definition always {A} (_ : A) : bool := true.
Definition is_ok {A} (r : res string A) : bool := match r with Ok _ => true | Err _ => false end.

(** A keyed write of these packages, and the results after which repeating it has no
    effect: all of them, but for the two writes that clean up after an error. *)
Inductive backend_write (ctx : string) : forall {A}, calls A -> (A -> bool) -> Prop :=
| w_product p : backend_write ctx (CreateProduct ctx p) always
| w_product_update id u : backend_write ctx (UpdateProduct ctx id u) always
| w_product_active id b : backend_write ctx (UpdateProductActive ctx id b) always
| w_price p : backend_write ctx (CreatePrice ctx p) always
| w_price_active id b : backend_write ctx (UpdatePriceActive ctx id b) always
| w_meter m : backend_write ctx (CreateMeter ctx m) always
| w_meter_archive id : backend_write ctx (ArchiveMeter ctx id) always
| w_customer p : backend_write ctx (stripe_CreateCustomer ctx p) always
| w_session p : backend_write ctx (stripe_CreateCheckoutSession ctx p) is_ok
| w_balance c a cur d : backend_write ctx (stripe_AdjustCustomerBalance ctx c a cur d) always
| w_cancel_at_end id b : backend_write ctx (stripe_CancelAtPeriodEnd ctx id b) always
| w_cancel_now id o : backend_write ctx (stripe_CancelNow ctx id o) always
| w_items id l o : backend_write ctx (stripe_UpdateItems ctx id l o) always
| w_coupon id c : backend_write ctx (stripe_ApplyCoupon ctx id c) always
| w_remove_coupon id : backend_write ctx (stripe_RemoveCoupon ctx id) always
| w_pause id o : backend_write ctx (stripe_Pause ctx id o) always
| w_resume id : backend_write ctx (stripe_Resume ctx id) always
| w_schedule i : backend_write ctx (CreateSubscriptionSchedule ctx i) always
| w_invoiced i : backend_write ctx (stripe_CreateInvoiced ctx i) is_ok
| w_draft i : backend_write ctx (stripe_CreateDraft ctx i) always
| w_finalize id : backend_write ctx (stripe_Finalize ctx id) always
| w_send id : backend_write ctx (stripe_FinalizeAndSend ctx id) always
| w_void id : backend_write ctx (stripe_Void ctx id) always
| w_uncollectible id : backend_write ctx (stripe_MarkUncollectible ctx id) always
| w_credit_note i : backend_write ctx (stripe_IssueCreditNote ctx i) always
| w_promo spec i : backend_write ctx (CreatePromoCode ctx spec i) always
| w_deactivate id : backend_write ctx (DeactivatePromoCode ctx id) always
| w_refund ns i : backend_write ctx (refund ctx ns i) always
| w_evidence id e : backend_write ctx (SubmitEvidence ctx id e) always
| w_close id : backend_write ctx (Close ctx id) always
| w_setup {C} `{CustomerRepo C} i (c : C) : backend_write ctx (fst (CreateSetupIntent ctx i c)) always
| w_attach {C} `{CustomerRepo C} s id (c : C) : backend_write ctx (fst (AttachPaymentMethod ctx s id c)) always
| w_detach {C} id (c : C) : backend_write ctx (fst (DetachPaymentMethod ctx id c)) always
| w_default {C} `{CustomerRepo C} s id (c : C) : backend_write ctx (fst (SetDefaultPaymentMethod ctx s id c)) always
| w_quote ns i : backend_write ctx (quote_Create ctx ns i) always
| w_quote_finalize id : backend_write ctx (quote_Finalize ctx id) always
| w_quote_accept id : backend_write ctx (quote_Accept ctx id) always
| w_quote_cancel id : backend_write ctx (quote_Cancel ctx id) always.

Lemma create_items_keyed ctx input i items : keyed (create_items ctx input i items).
Proof. revert i. induction items as [|li rest IH]; intros i; cbn [create_items]; walk. Qed.
Lemma for_customer_keyed {C} `{CustomerRepo C} {A} s (p : string -> calls (res string A)) (c : C) :
  (forall id, keyed (p id)) -> keyed (fst (for_customer s p c)).
Proof. intros Hp. unfold for_customer. destruct (resolveCustomer s c) as [[id|e] c']; cbn; auto with keyed. Qed.
Lemma for_customer_unit_keyed {C} `{CustomerRepo C} s (p : string -> calls (option string)) (c : C) :
  (forall id, keyed (p id)) -> keyed (fst (for_customer_unit s p c)).
Proof. intros Hp. unfold for_customer_unit. destruct (resolveCustomer s c) as [[id|e] c']; cbn; auto with keyed. Qed.

#[local] Hint Resolve create_items_keyed for_customer_keyed for_customer_unit_keyed : keyed.

(** *** The two writes that clean up, when they succeed *)
Section server.
Context {X : Type} (serve : request -> X -> res string answer * X).
Lemma trace_one {A} r what (f : object -> option A) x : trace serve (send_one r what f) x = [(r, fst (serve r x))].
Proof. cbn. by destruct (serve r x). Qed.
Lemma sent_one {A} r what (f : object -> option A) x : sent serve (send_one r what f) x = [r].
Proof. cbn. by destruct (serve r x). Qed.
Lemma sent_bind {A B} (p : calls A) (f : A -> calls B) x :
  sent serve (cbind p f) x = sent serve p x ++ sent serve (f (fst (perform serve p x))) (snd (perform serve p x)).
Proof. by rewrite !sent_trace, trace_bind, map_app. Qed.

Lemma session_lines_sent ctx m items out ids x r :
  fst (perform serve (session_lines ctx m items out ids) x) = Ok r -> Forall has_key (sent serve (session_lines ctx m items out ids) x).
Proof.
  revert out ids x. induction items as [|li rest IH]; intros out ids x; cbn [session_lines]; [constructor|].
  destruct (sl_CustomAmount li) as [ca|]; [|apply IH].
  rewrite perform_bind, sent_bind. destruct (perform serve (createAdHocCustomPrice ctx m ca) x) as [[id|e] x1] eqn:E; cbn [fst snd].
  - intros Hok. apply Forall_app. split; [|by apply IH].
    unfold createAdHocCustomPrice. rewrite sent_one. constructor; [key_set|constructor].
  - rewrite perform_bind. cbn. done.
Qed.
Lemma session_sent ctx p x :
  is_ok (fst (perform serve (stripe_CreateCheckoutSession ctx p) x)) = true ->
  Forall has_key (sent serve (stripe_CreateCheckoutSession ctx p) x).
Proof.
  unfold stripe_CreateCheckoutSession. rewrite perform_bind, sent_bind.
  pose proof (session_lines_sent ctx (Checkout.sc_Metadata p) (Checkout.sc_LineItems p) [] [] x) as Hl.
  destruct (perform serve (session_lines _ _ _ _ _) x) as [[[lines ids]|e] x1]; cbn [fst snd] in *; [|done].
  rewrite perform_bind, sent_bind, sent_one. intros Hok. apply Forall_app. split; [by eapply Hl|].
  constructor; [key_set|]. destruct (perform serve (send_one _ _ _) x1) as [[s|e] x2]; cbn [fst snd] in *; [constructor|].
  rewrite perform_bind in Hok. done.
Qed.
Lemma invoice_items_sent ctx m items out ids x r :
  fst (perform serve (invoice_items ctx m items out ids) x) = Ok r -> Forall has_key (sent serve (invoice_items ctx m items out ids) x).
Proof.
  revert out ids x. induction items as [|it rest IH]; intros out ids x; cbn [invoice_items]; [constructor|].
  rewrite perform_bind, sent_bind.
  assert (Hb : Forall has_key (sent serve (buildAddInvoiceItemParams ctx it m) x)).
  { unfold buildAddInvoiceItemParams. destruct (negb _); [constructor|]. destruct (_ && _); [|constructor].
    rewrite sent_bind, sent_one. constructor; [key_set|]. by destruct (fst _). }
  destruct (perform serve (buildAddInvoiceItemParams ctx it m) x) as [[[ai id]|e] x1]; cbn [fst snd].
  - intros Hok. apply Forall_app. split; [done|]. by apply IH.
  - rewrite perform_bind. done.
Qed.
Lemma invoiced_sent ctx i x :
  is_ok (fst (perform serve (stripe_CreateInvoiced ctx i) x)) = true -> Forall has_key (sent serve (stripe_CreateInvoiced ctx i) x).
Proof.
  unfold stripe_CreateInvoiced. rewrite perform_bind, sent_bind.
  pose proof (invoice_items_sent ctx (ib_Metadata i) (ib_AddInvoiceItems i) [] [] x) as Hl.
  destruct (perform serve (invoice_items _ _ _ _ _) x) as [[[added ids]|e] x1]; cbn [fst snd] in *; [|done].
  rewrite perform_bind, sent_bind, sent_one. intros Hok. apply Forall_app. split; [by eapply Hl|].
  constructor; [key_set|]. destruct (perform serve (send_one _ _ _) x1) as [[s|e] x2]; cbn [fst snd] in *; [constructor|].
  rewrite perform_bind in Hok. done.
Qed.
End server.

Lemma write_sent {X} (serve : request -> X -> res string answer * X) ctx {A} (p : calls A) okay s :
  backend_write ctx p okay -> okay (fst (perform (with_idempotency serve) p s)) = true ->
  Forall has_key (sent (with_idempotency serve) p s).
Proof.
  intros Hw. destruct Hw; intros Hok; try (by apply session_sent); try (by apply invoiced_sent); apply keyed_sent; walk.
Qed.

Lemma write_replayed {X} (serve : request -> X -> res string answer * X) ctx {A} (p : calls A) okay s s2 :
  backend_write ctx p okay -> okay (fst (perform (with_idempotency serve) p s)) = true ->
  id_seen (snd (perform (with_idempotency serve) p s)) ⊆ id_seen s2 ->
  perform (with_idempotency serve) p s2 = (fst (perform (with_idempotency serve) p s), s2).
Proof. intros Hw Hok Hsub. apply (replayed_path serve p s s2); [by eapply write_sent|done]. Qed.


(** ** The same write again *)

(** For the same reason a write that is meant a second time is not carried out: after
    another write in between, the second one leaves Stripe where the one in between has
    put it. A subscription that is set to end, resumed and set to end again within the
    lifetime of a key goes on; so with the default card, and with a second credit or
    partial refund of the same amount. *)
Section meant_twice.
Context {X : Type} (serve : request -> X -> res string answer * X).
Definition after {A} (p : calls A) (s : idem X) : idem X := snd (perform (with_idempotency serve) p s).
Lemma swallowed ctx {A B} (p : calls A) (q : calls B) okay s :
  backend_write ctx p okay -> okay (fst (perform (with_idempotency serve) p s)) = true ->
  after p (after q (after p s)) = after q (after p s).
Proof.
  intros Hw Hok. unfold after. rewrite (write_replayed serve ctx p okay s); [done..|]. apply perform_grows.
Qed.
Theorem second_cancel_swallowed ctx id s :
  let cancel := stripe_CancelAtPeriodEnd ctx id true in let undo := stripe_CancelAtPeriodEnd ctx id false in
  after cancel (after undo (after cancel s)) = after undo (after cancel s).
Proof. apply (swallowed ctx _ _ always); [constructor|done]. Qed.
Theorem second_pause_swallowed ctx id opts s :
  let pause := stripe_Pause ctx id opts in let resume := stripe_Resume ctx id in
  after pause (after resume (after pause s)) = after resume (after pause s).
Proof. apply (swallowed ctx _ _ always); [constructor|done]. Qed.
Theorem default_back_swallowed ctx {C} `{CustomerRepo C} subject pm pm' (c : C) s :
  let to_first := fst (SetDefaultPaymentMethod ctx subject pm c) in
  let to_second := fst (SetDefaultPaymentMethod ctx subject pm' c) in
  after to_first (after to_second (after to_first s)) = after to_second (after to_first s).
Proof. apply (swallowed ctx _ _ always); [constructor|done]. Qed.
Theorem equal_credit_swallowed ctx customer amount currency description s :
  let credit := stripe_AdjustCustomerBalance ctx customer amount currency description in
  after credit (after credit s) = after credit s.
Proof. unfold after. cbn zeta. rewrite (write_replayed serve ctx _ always s); [done|constructor|done|done]. Qed.
Theorem equal_refund_swallowed ctx ns input s :
  let r := refund ctx ns input in after r (after r s) = after r s.
Proof. unfold after. cbn zeta. rewrite (write_replayed serve ctx _ always s); [done|constructor|done|done]. Qed.
(** A second order of the same things gives the first session, paid or not. *)
Theorem equal_order_gets_first_session ctx p s session :
  fst (perform (with_idempotency serve) (stripe_CreateCheckoutSession ctx p) s) = Ok session ->
  let s1 := after (stripe_CreateCheckoutSession ctx p) s in
  perform (with_idempotency serve) (stripe_CreateCheckoutSession ctx p) s1 = (Ok session, s1).
Proof.
  intros Hok. cbn zeta. unfold after. rewrite (write_replayed serve ctx _ is_ok s); [by rewrite Hok|constructor|by rewrite Hok|done].
Qed.
End meant_twice.
End facts.

Module RetryDemo.
Export KeysDemo.
(** A server that counts the requests it carries out. *)
Definition count (r : request) (n : Z) : res string answer * Z := (Ok (One (OOther (fmt_d (n + 1)))), n + 1).
Definition untouched : idem Z := mkIdem 0 ∅.
End RetryDemo.
