(* ===== verification/StripeOrphans.v ===== *)
(** * StripeOrphans: the writes that take several requests, when one of them fails.

    A checkout session first creates prices for its pay-what-you-want lines, an invoiced
    subscription products for its setup fees; after an error it asks Stripe to archive these,
    without looking at the answers. *)
From S2P Require Import Prelude StripeApi StripeCalls StripeCatalog Checkout StripeCheckout SubscriptionOps StripeSubscriptions Invoices StripeInvoices StripeBackendFacts.

(** ** What a run created and asked to archive

    A price or product counts as created when the answer says so; an archiving counts as
    asked for whatever its answer, and as done when the answer is no error. *)
Definition created_price (t : request * res string answer) : option string :=
  if String.eqb (rq_op (fst t)) "V1Prices.Create"
  then match snd t with Ok (One (OPrice p)) => Some (st_ID p) | _ => None end else None.
Definition archive_price_asked (t : request * res string answer) : option string :=
  if String.eqb (rq_op (fst t)) "V1Prices.Update" && bool_decide (bool_param "active" (rq_params (fst t)) = Some false)
  then Some (rq_target (fst t)) else None.
Definition archived_price (t : request * res string answer) : option string :=
  match snd t with Ok _ => archive_price_asked t | Err _ => None end.
Definition created_product (t : request * res string answer) : option string :=
  if String.eqb (rq_op (fst t)) "V1Products.Create"
  then match snd t with Ok (One (OProduct p)) => if String.eqb (sp_ID p) "" then None else Some (sp_ID p) | _ => None end else None.
Definition archive_product_asked (t : request * res string answer) : option string :=
  if String.eqb (rq_op (fst t)) "V1Products.Update" && bool_decide (bool_param "active" (rq_params (fst t)) = Some false)
  then Some (rq_target (fst t)) else None.

Section facts.
Context `{Sha256} `{GoRuntime} (ctx : string).
Section server.
Context {X : Type} (serve : request -> X -> res string answer * X).

(** *** Prices *)
Lemma archive_prices_trace ids x :
  omap created_price (trace serve (archiveOrphanAdHocPrices ids) x) = [] /\
  omap archive_price_asked (trace serve (archiveOrphanAdHocPrices ids) x) = ids.
Proof.
  revert x. induction ids as [|id ids IH]; intros x; cbn [archiveOrphanAdHocPrices trace]; [done|].
  destruct (serve _ x) as [a x']. destruct (IH x') as [IH1 IH2]. cbn. by rewrite IH1, IH2.
Qed.
Lemma adhoc_trace m ca x :
  omap archive_price_asked (trace serve (createAdHocCustomPrice ctx m ca) x) = [] /\
  omap created_price (trace serve (createAdHocCustomPrice ctx m ca) x) =
    match fst (perform serve (createAdHocCustomPrice ctx m ca) x) with Ok id => [id] | Err _ => [] end.
Proof.
  unfold createAdHocCustomPrice. rewrite trace_one. cbn. destruct (serve _ x) as [[[[]|]|] x']; cbn; done.
Qed.
(** The prices so far and those the loop created are with the result, or archived. *)
Lemma session_lines_trace m items out ids x :
  let p := session_lines ctx m items out ids in
  match fst (perform serve p x) with
  | Ok (_, ids') => ids' = ids ++ omap created_price (trace serve p x) /\ omap archive_price_asked (trace serve p x) = []
  | Err _ => omap archive_price_asked (trace serve p x) = ids ++ omap created_price (trace serve p x)
  end.
Proof.
  revert out ids x. induction items as [|li rest IH]; intros out ids x; cbn zeta; cbn [session_lines].
  - cbn. by rewrite app_nil_r.
  - destruct (sl_CustomAmount li) as [ca|]; [|apply IH].
    rewrite !perform_bind, !trace_bind, !omap_app. destruct (adhoc_trace m ca x) as [-> ->].
    destruct (perform serve (createAdHocCustomPrice ctx m ca) x) as [[id|e] x1]; cbn [fst snd].
    + specialize (IH (out ++ [line_params id li]) (ids ++ [id]) x1). cbn zeta in IH.
      destruct (fst (perform serve (session_lines _ _ _ _ _) x1)) as [[lines ids']|e]; [destruct IH as [-> ->]|rewrite IH];
        by rewrite <- app_assoc.
    + rewrite perform_bind, !trace_bind, !omap_app. destruct (archive_prices_trace ids x1) as [-> ->]. cbn. by rewrite !app_nil_r.
Qed.
Lemma session_trace p x :
  let t := trace serve (stripe_CreateCheckoutSession ctx p) x in
  omap archive_price_asked t =
    match fst (perform serve (stripe_CreateCheckoutSession ctx p) x) with
    | Ok _ => []
    | Err _ => omap created_price t
    end.
Proof.
  cbn zeta. unfold stripe_CreateCheckoutSession. rewrite perform_bind, trace_bind, !omap_app.
  pose proof (session_lines_trace (Checkout.sc_Metadata p) (sc_LineItems p) [] [] x) as Hl. cbn zeta in Hl.
  destruct (perform serve (session_lines _ _ _ _ _) x) as [[[lines ids]|e] x1]; cbn [fst snd] in *.
  - destruct Hl as [-> ->]. rewrite perform_bind, trace_bind, !omap_app, trace_one.
    destruct (perform serve (send_one _ _ _) x1) as [[s|e] x2]; cbn [fst snd app].
    + by destruct (fst _) as [[]|].
    + rewrite perform_bind, trace_bind, !omap_app. cbn [omap list_omap app].
      destruct (archive_prices_trace (omap created_price (trace serve (session_lines ctx (Checkout.sc_Metadata p) (sc_LineItems p) [] []) x)) x2)
        as [-> ->]. cbn. by rewrite !app_nil_r.
  - rewrite Hl. cbn. by rewrite !app_nil_r.
Qed.
Lemma asked_answered (t : list (request * res string answer)) id :
  id ∈ omap archive_price_asked t -> id ∈ omap archived_price t \/ exists r e, (r, Err e) ∈ t /\ archive_price_asked (r, Err e) = Some id.
Proof.
  rewrite !list_elem_of_omap. intros ([r [a|e]] & Hin & Ha); [left; by exists (r, Ok a)|right; by exists r, e].
Qed.

(** C31: A checkout session that fails, at whichever of its requests, cleans up after itself
    as far as Stripe lets it: it asks to archive exactly the prices it has created, once
    each and in their order, so that a created price stays active only when Stripe answered
    the request to archive it with an error, which is not looked at. One that succeeds
    archives none. *)
Theorem session_cleans_up p x :
  let t := trace serve (stripe_CreateCheckoutSession ctx p) x in
  match fst (perform serve (stripe_CreateCheckoutSession ctx p) x) with
  | Ok _ => omap archive_price_asked t = []
  | Err _ =>
      omap archive_price_asked t = omap created_price t /\
      forall id, id ∈ omap created_price t ->
        id ∈ omap archived_price t \/ exists r e, (r, Err e) ∈ t /\ archive_price_asked (r, Err e) = Some id
  end.
Proof.
  cbn zeta. pose proof (session_trace p x) as Ht. cbn zeta in Ht. destruct (fst _); [done|]. split; [done|].
  rewrite <- Ht. apply asked_answered.
Qed.

(** *** Products *)
Lemma archive_products_trace ids x :
  omap created_product (trace serve (archiveOrphanProducts ids) x) = [] /\
  omap archive_product_asked (trace serve (archiveOrphanProducts ids) x) = ids.
Proof.
  revert x. induction ids as [|id ids IH]; intros x; cbn [archiveOrphanProducts trace]; [done|].
  destruct (serve _ x) as [a x']. destruct (IH x') as [IH1 IH2]. cbn. by rewrite IH1, IH2.
Qed.
Lemma add_item_trace it m x :
  omap archive_product_asked (trace serve (buildAddInvoiceItemParams ctx it m) x) = [] /\
  omap created_product (trace serve (buildAddInvoiceItemParams ctx it m) x) =
    match fst (perform serve (buildAddInvoiceItemParams ctx it m) x) with
    | Ok (_, id) => if String.eqb id "" then [] else [id]
    | Err _ => []
    end.
Proof.
  unfold buildAddInvoiceItemParams. destruct (negb _); [done|]. destruct (_ && _); [|done].
  rewrite perform_bind, trace_bind, !omap_app, trace_one. cbn.
  destruct (serve _ x) as [[[[]|]|] x']; cbn; try done. by destruct (String.eqb (sp_ID p) "").
Qed.
Lemma invoice_items_trace m items out ids x :
  let p := invoice_items ctx m items out ids in
  match fst (perform serve p x) with
  | Ok (_, ids') => ids' = ids ++ omap created_product (trace serve p x) /\ omap archive_product_asked (trace serve p x) = []
  | Err _ => omap archive_product_asked (trace serve p x) = ids ++ omap created_product (trace serve p x)
  end.
Proof.
  revert out ids x. induction items as [|it rest IH]; intros out ids x; cbn zeta; cbn [invoice_items].
  - cbn. by rewrite app_nil_r.
  - rewrite !perform_bind, !trace_bind, !omap_app. destruct (add_item_trace it m x) as [-> ->].
    destruct (perform serve (buildAddInvoiceItemParams ctx it m) x) as [[[ai id]|e] x1]; cbn [fst snd].
    + specialize (IH (out ++ [ai]) (ids ++ if String.eqb id "" then [] else [id]) x1). cbn zeta in IH.
      destruct (fst (perform serve (invoice_items _ _ _ _ _) x1)) as [[added ids']|e]; [destruct IH as [-> ->]|rewrite IH];
        by rewrite <- app_assoc.
    + rewrite perform_bind, !trace_bind, !omap_app. destruct (archive_products_trace ids x1) as [-> ->]. cbn. by rewrite !app_nil_r.
Qed.
(** The same of an invoiced subscription and the products of its setup fees. *)
Theorem invoiced_cleans_up input x :
  let t := trace serve (stripe_CreateInvoiced ctx input) x in
  omap archive_product_asked t =
    match fst (perform serve (stripe_CreateInvoiced ctx input) x) with
    | Ok _ => []
    | Err _ => omap created_product t
    end.
Proof.
  cbn zeta. unfold stripe_CreateInvoiced. rewrite perform_bind, trace_bind, !omap_app.
  pose proof (invoice_items_trace (ib_Metadata input) (ib_AddInvoiceItems input) [] [] x) as Hl. cbn zeta in Hl.
  destruct (perform serve (invoice_items _ _ _ _ _) x) as [[[added ids]|e] x1]; cbn [fst snd] in *.
  - destruct Hl as [-> ->]. rewrite perform_bind, trace_bind, !omap_app, trace_one.
    destruct (perform serve (send_one _ _ _) x1) as [[s|e] x2]; cbn [fst snd app].
    + by destruct (fst _) as [[]|].
    + rewrite perform_bind, trace_bind, !omap_app. cbn [omap list_omap app].
      destruct (archive_products_trace (omap created_product (trace serve (invoice_items ctx (ib_Metadata input) (ib_AddInvoiceItems input) [] []) x)) x2)
        as [-> ->]. cbn. by rewrite !app_nil_r.
  - rewrite Hl. cbn. by rewrite !app_nil_r.
Qed.
End server.

(** ** Failures and keys *)
Section idempotent.
Context {X : Type} (serve : request -> X -> res string answer * X).
Abbreviation stripe := (with_idempotency serve).

Lemma adhoc_sent_keyed m ca s : Forall has_key (sent stripe (createAdHocCustomPrice ctx m ca) s).
Proof. apply keyed_sent. walk. Qed.
Lemma session_lines_again m items out ids s s2 :
  let p := session_lines ctx m items out ids in
  id_seen (snd (perform stripe p s)) ⊆ id_seen s2 ->
  fst (perform stripe p s2) = fst (perform stripe p s) /\
  omap created_price (trace stripe p s2) = omap created_price (trace stripe p s).
Proof.
  cbn zeta. revert out ids s s2. induction items as [|li rest IH]; intros out ids s s2; cbn [session_lines]; [done|].
  destruct (sl_CustomAmount li) as [ca|]; [|apply IH]. rewrite !perform_bind, !trace_bind, !omap_app.
  intros Hsub. destruct (replayed_path serve (createAdHocCustomPrice ctx m ca) s s2) as [-> ->]; [apply adhoc_sent_keyed| |].
  { etransitivity; [apply perform_grows|exact Hsub]. }
  cbn [fst snd]. destruct (perform stripe (createAdHocCustomPrice ctx m ca) s) as [[id|e] s1]; cbn [fst snd] in *.
  - destruct (IH _ _ s1 s2 Hsub) as [-> ->]. done.
  - rewrite !perform_bind, !trace_bind, !omap_app. cbn [fst perform trace].
    by destruct (archive_prices_trace stripe ids s1) as [-> _], (archive_prices_trace stripe ids s2) as [-> _].
Qed.
Lemma session_created p {Y} (serve' : request -> Y -> res string answer * Y) x :
  omap created_price (trace serve' (stripe_CreateCheckoutSession ctx p) x) =
  omap created_price (trace serve' (session_lines ctx (Checkout.sc_Metadata p) (sc_LineItems p) [] []) x).
Proof.
  unfold stripe_CreateCheckoutSession. rewrite trace_bind, omap_app.
  destruct (fst (perform serve' (session_lines _ _ _ _ _) x)) as [[lines ids]|e]; [|apply app_nil_r].
  rewrite trace_bind, omap_app, trace_one. cbn [omap list_omap].
  change (created_price (mkReq "V1CheckoutSessions.Create" _ _ _, _)) with (@None string). cbn [app].
  destruct (fst (perform serve' (send_one _ _ _) _)); [apply app_nil_r|]. rewrite trace_bind, omap_app.
  destruct (archive_prices_trace serve' ids (snd (perform serve' (send_one (mkReq "V1CheckoutSessions.Create" "" (session_request_params p lines)
    (session_key ctx p)) "stripe.CheckoutSessions.Create: " session_of)
    (snd (perform serve' (session_lines ctx (Checkout.sc_Metadata p) (sc_LineItems p) [] []) x))))) as [-> _]. cbn. apply app_nil_r.
Qed.
(** The keys of the prices outlive the clean-up: the next attempt at an order that failed
    is given the very prices which the failed one asked to archive, and asks for a session over
    them. *)
Theorem retry_reuses_archived p e s s2 :
  fst (perform stripe (stripe_CreateCheckoutSession ctx p) s) = Err e ->
  id_seen (snd (perform stripe (stripe_CreateCheckoutSession ctx p) s)) ⊆ id_seen s2 ->
  omap created_price (trace stripe (stripe_CreateCheckoutSession ctx p) s2) =
  omap archive_price_asked (trace stripe (stripe_CreateCheckoutSession ctx p) s).
Proof.
  intros He Hsub. pose proof (session_trace stripe p s) as Hc. cbn zeta in Hc. rewrite He in Hc. rewrite Hc, !session_created.
  apply session_lines_again. etransitivity; [|exact Hsub]. unfold stripe_CreateCheckoutSession. rewrite perform_bind. apply perform_grows.
Qed.

(** *** A key of the caller *)

(** The key of the context is set on every request of an operation, so that Stripe takes
    the second request for a misuse of the key. *)
Lemma second_refused r r' s :
  rq_key r <> "" -> id_seen s !! rq_key r = None -> rq_key r' = rq_key r -> r' <> r ->
  stripe r' (snd (stripe r s)) = (Err idempotency_error, snd (stripe r s)).
Proof.
  intros Hk Hfresh Hsame Hne. unfold with_idempotency. rewrite Hsame, (proj2 (String.eqb_neq _ _) Hk), Hfresh.
  destruct (serve r (id_core s)) as [a x]. cbn. rewrite lookup_insert_eq. by rewrite decide_False by congruence.
Qed.
Lemma caller_key op inputs : ctx <> "" -> ApplyIdempotencyKey ctx op inputs = ctx.
Proof. intros Hc. unfold ApplyIdempotencyKey. by rewrite (proj2 (String.eqb_neq _ _) Hc). Qed.
Lemma held_key r r' s :
  rq_key r <> "" -> id_seen s !! rq_key r = None -> rq_key r' = rq_key r ->
  exists a, stripe r' (snd (stripe r s)) = (a, snd (stripe r s)).
Proof.
  intros Hk Hfresh Hsame. destruct (decide (r' = r)) as [->|Hne].
  - exists (fst (stripe r s)). by apply answered_again.
  - exists (Err idempotency_error). by apply second_refused.
Qed.
Lemma item_key input i li : ctx <> "" -> rq_key (item_request ctx input i li) = ctx.
Proof. apply caller_key. Qed.
Lemma items_stuck input r s items i :
  ctx <> "" -> rq_key r = ctx -> id_seen s !! ctx = None ->
  exists o, perform stripe (create_items ctx input i items) (snd (stripe r s)) = (o, snd (stripe r s)).
Proof.
  intros Hc Hk Hfresh. revert i. induction items as [|li rest IH]; intros i; cbn [create_items]; [by eexists|].
  rewrite perform_bind. unfold send_unit. cbn [perform].
  destruct (held_key r (item_request ctx input i li) s) as [a ->]; [by rewrite ?Hk, ?item_key..|]. cbn [fst snd perform].
  destruct a; [apply IH|by eexists].
Qed.
(** With a key of the caller no draft is ever created. Its first line becomes a pending
    item of the customer, and the request for the invoice is refused at the latest. *)
Theorem draft_fails_with_caller_key input li rest s :
  ci_LineItems input = li :: rest -> ctx <> "" -> id_seen s !! ctx = None ->
  exists e, perform stripe (stripe_CreateDraft ctx input) s = (Err e, snd (stripe (item_request ctx input 0 li) s)).
Proof.
  intros Hl Hc Hfresh. unfold stripe_CreateDraft. rewrite Hl, perform_bind. cbn [create_items]. rewrite perform_bind.
  pose proof (items_stuck input (item_request ctx input 0 li) s rest (0 + 1) Hc (item_key _ _ _ Hc) Hfresh) as [o Ho].
  assert (Hr : stripe (draft_request ctx input) (snd (stripe (item_request ctx input 0 li) s)) =
               (Err idempotency_error, snd (stripe (item_request ctx input 0 li) s))).
  { apply second_refused; rewrite ?item_key by done; [done|done|by apply caller_key|done]. }
  unfold send_unit. cbn [perform]. destruct (stripe (item_request ctx input 0 li) s) as [[a|e] s1]; cbn [fst snd perform] in *; [|by eexists].
  rewrite Ho. cbn [fst snd]. destruct o as [e|]; [cbn; eauto|]. unfold send_one. cbn [perform]. rewrite Hr. cbn. eauto.
Qed.
(** Nor is an invoice ever sent: it is finalized, and the sending refused. *)
Theorem send_fails_with_caller_key id s :
  ctx <> "" -> id_seen s !! ctx = None ->
  perform stripe (stripe_FinalizeAndSend ctx id) s =
    (match fst (perform stripe (stripe_Finalize ctx id) s) with
     | Ok finalized => (finalized, Some (about_invoice "SendInvoice" id ^^ idempotency_error))
     | Err e => (Invoice_zero, Some e)
     end, snd (perform stripe (stripe_Finalize ctx id) s)).
Proof.
  intros Hc Hfresh. unfold stripe_FinalizeAndSend. rewrite perform_bind.
  set (r := mkReq "V1Invoices.FinalizeInvoice" id [] (ApplyIdempotencyKey ctx "invoice.finalize" [id])).
  assert (Hr : stripe (mkReq "V1Invoices.SendInvoice" id [] (ApplyIdempotencyKey ctx "invoice.send" [id])) (snd (stripe r s)) =
               (Err idempotency_error, snd (stripe r s))).
  { subst r. apply second_refused; cbn; by rewrite ?caller_key. }
  assert (Hs : snd (perform stripe (stripe_Finalize ctx id) s) = snd (stripe r s)).
  { unfold stripe_Finalize, send_one. fold r. cbn [perform]. by destruct (stripe r s). }
  destruct (perform stripe (stripe_Finalize ctx id) s) as [[inv|e] s1]; cbn [fst snd] in *; [|done].
  rewrite Hs, perform_bind. unfold send_one. cbn [perform]. rewrite Hr. done.
Qed.
End idempotent.
End facts.
