(* ===== verification/StripeKeyFacts.v ===== *)
(** * StripeKeyFacts: what an idempotency key tells apart.

    A key must change with the request it stands for: a request that differs from an
    earlier one with its key is refused. The content hashes of disputes and quotes take
    every field, and the theorems say that equal keys mean equal requests. The keys of
    several other writes leave a field out. *)
From Stdlib Require Import DecimalString.
From S2P Require Import Prelude StripeApi StripeCalls CatalogSync StripeCatalog SubscriptionOps StripeSubscriptions Checkout StripeCheckout Coupons PaymentMethods StripeOrphans Events Disputes Quotes.

(** ** Separators *)
Fixpoint lacks (c : ascii) (s : string) : bool :=
  match s with EmptyString => true | String d s => negb (Ascii.eqb d c) && lacks c s end.
Lemma lacks_app c a b : lacks c (a ^^ b) = lacks c a && lacks c b.
Proof. induction a as [|d a IH]; cbn; [done|]. by rewrite IH, andb_assoc. Qed.
Lemma split_first c a a' b b' :
  lacks c a = true -> lacks c a' = true -> a ^^ String c b = a' ^^ String c b' -> a = a' /\ b = b'.
Proof.
  revert a'. induction a as [|d a IH]; intros [|d' a'] Ha Ha' E; cbn in *; try apply andb_true_iff in Ha as [Hd Ha];
    try apply andb_true_iff in Ha' as [Hd' Ha']; simplify_eq.
  - done.
  - by rewrite Ascii.eqb_refl in *.
  - by rewrite Ascii.eqb_refl in *.
  - by match goal with E : _ ^^ _ = _ |- _ => destruct (IH _ Ha Ha' E) as [-> ->] end.
Qed.
Lemma split_last c a a' b b' :
  lacks c b = true -> lacks c b' = true -> a ^^ String c b = a' ^^ String c b' -> a = a' /\ b = b'.
Proof.
  intros Hb Hb'. revert a'. induction a as [|d a IH]; intros [|d' a'] E; cbn in E.
  - by injection E.
  - injection E as -> ->. rewrite lacks_app in Hb. cbn in Hb. rewrite Ascii.eqb_refl, andb_false_r in Hb. done.
  - injection E as -> <-. rewrite lacks_app in Hb'. cbn in Hb'. rewrite Ascii.eqb_refl, andb_false_r in Hb'. done.
  - injection E as -> E. by destruct (IH a' E) as [-> ->].
Qed.
Definition nul_char : ascii := "000".
Lemma uint_lacks c u : (forall d, d ∈ ["0";"1";"2";"3";"4";"5";"6";"7";"8";"9"]%char -> Ascii.eqb d c = false) ->
  lacks c (NilEmpty.string_of_uint u) = true.
Proof. intros Hc. induction u; cbn [NilEmpty.string_of_uint lacks]; [done|..]; (rewrite Hc; [done|set_solver]). Qed.
Lemma fmt_d_lacks c z : (forall d, d ∈ ["-";"0";"1";"2";"3";"4";"5";"6";"7";"8";"9"]%char -> Ascii.eqb d c = false) -> lacks c (fmt_d z) = true.
Proof.
  intros Hc. assert (Hd : forall n, lacks c (dec_digits n) = true).
  { intros n. destruct (dec_digits_nonnil n) as [-> _]. apply uint_lacks. intros d Hd. apply Hc, elem_of_cons. by right. }
  unfold fmt_d. destruct (z <? 0); [|done]. cbn [String.append lacks]. rewrite Hd, Hc; [done|apply elem_of_cons; by left].
Qed.
(** Parts that are not empty and lack the separator can be told from their joining. *)
Lemma CanonicalStrings_inj l l' :
  Forall (fun s => s <> "" /\ lacks nul_char s = true) l -> Forall (fun s => s <> "" /\ lacks nul_char s = true) l' ->
  CanonicalStrings l = CanonicalStrings l' -> l = l'.
Proof.
  intros Hl. revert l'. induction Hl as [|s l [Hs Hn] Hl IH]; intros l' Hl' E; destruct Hl' as [|s' l' [Hs' Hn'] Hl'].
  - done.
  - destruct l'; cbn in E; [done|]. by destruct s'.
  - destruct l; cbn in E; [done|]. by destruct s.
  - assert (Hj : forall t (m : list string), m <> [] -> CanonicalStrings (t :: m) = t ^^ String nul_char (CanonicalStrings m)) by (intros t [|x m] Hm; [by destruct Hm|]; cbn [CanonicalStrings]; by rewrite append_assoc).
    assert (Hno : forall t u v, lacks nul_char t = true -> t = u ^^ String nul_char v -> False).
    { intros t u v Ht ->. rewrite lacks_app in Ht. cbn in Ht. by rewrite andb_false_r in Ht. }
    destruct (decide (l = [])) as [->|Hne], (decide (l' = [])) as [->|Hne'].
    + cbn in E. by subst.
    + rewrite (Hj s') in E by done. by apply Hno in E.
    + rewrite (Hj s) in E by done. symmetry in E. by apply Hno in E.
    + rewrite !Hj in E by done. apply split_first in E as [-> E]; [|done..]. f_equal. by apply IH.
Qed.

(** ** Content hashes *)
Lemma list_to_map_same_keys (l l' : list (string * string)) :
  l.*1 = l'.*1 -> NoDup l.*1 -> (list_to_map l : smap) = list_to_map l' -> l = l'.
Proof.
  revert l'. induction l as [|[k v] l IH]; intros [|[k' v'] l']; cbn; try done. intros [= <- Hk] Hnd E. apply NoDup_cons in Hnd as [Hni Hnd].
  assert (v = v') as <-.
  { apply (f_equal (lookup k)) in E. rewrite !lookup_insert_eq in E. by injection E. }
  f_equal. apply IH; [done..|]. apply (f_equal (delete k)) in E. rewrite !delete_insert_eq in E.
  rewrite !delete_id in E; [done|..]; apply not_elem_of_list_to_map_1; [by rewrite <- Hk|done].
Qed.

Section keys.
Context `{Sha256} `{GoRuntime}.
#[local] Instance collide_dec l l' : Decision (collide l l').
Proof. unfold collide. apply _. Defined.
(** Two requests, each with an id and a content hash, that share their key. *)
Definition same_digests (op hash_op : string) (id id' : string) (m m' : smap) : Prop :=
  collide [op; id; ContentHash hash_op m] [op; id'; ContentHash hash_op m'] \/
  collide (hash_op :: fields_of m) (hash_op :: fields_of m').
Lemma content_key_inj op hash_op id id' m m' :
  fits op -> fits hash_op -> fits id -> fits id' -> fields_fit m -> fields_fit m' ->
  deriveKey op [id; ContentHash hash_op m] = deriveKey op [id'; ContentHash hash_op m'] ->
  (id = id' /\ m = m') \/ same_digests op hash_op id id' m m'.
Proof.
  intros Hop Hh Hi Hi' Hm Hm' E.
  assert (Hf : forall m0, fits (ContentHash hash_op m0)).
  { intros m0. unfold ContentHash, fits, strlen. rewrite hex_length, digest16_length. done. }
  apply deriveKey_inj in E as [[_ [= -> E]]|E]; [|by right; left|by repeat constructor..].
  destruct (decide (collide (hash_op :: fields_of m) (hash_op :: fields_of m'))) as [Hc|Hc]; [by right; right|].
  left. split; [done|]. by apply (ContentHash_identifies _ _ hash_op m hash_op m') in E as [_ ->].
Qed.

(** ** Evidence *)

(** Ids of transactions, in which neither of the separators of [hashBytes] occurs. *)
Definition plain_ids (e : Evidence) : bool :=
  match ed_EnhancedEvidence e with
  | Some en => match en_VisaCompellingEvidence3 en with
               | Some c => lacks ":" (ce_DisputedTransactionID c) && forallb (lacks ",") (ce_PriorUndisputedTransactions c)
               | None => true
               end
  | None => true
  end.
Definition comp_text (v : option VisaCompliance) : string :=
  match v with Some v => "comp:" ^^ if vc_FeeAcknowledged v then "1" else "0" | None => "" end.
Lemma comp_text_inj v v' : comp_text v = comp_text v' -> v = v'.
Proof. destruct v as [[[]]|], v' as [[[]]|]; cbn; congruence. Qed.
Lemma with_commas_inj l l' v v' :
  forallb (lacks ",") l = true -> forallb (lacks ",") l' = true ->
  with_commas l ^^ comp_text v = with_commas l' ^^ comp_text v' -> l = l' /\ comp_text v = comp_text v'.
Proof.
  assert (Hno : forall w t r, comp_text w = t ^^ String "," r -> False).
  { intros w t r E. assert (Hw : lacks "," (comp_text w) = true) by by destruct w as [[[]]|]. rewrite E, lacks_app in Hw. cbn in Hw.
    by rewrite andb_false_r in Hw. }
  revert l'. induction l as [|t l IH]; intros [|t' l'] Hl Hl' E; cbn in Hl, Hl', E; rewrite ?append_assoc in E; [done| | |].
  - by apply Hno in E.
  - symmetry in E. by apply Hno in E.
  - apply andb_true_iff in Hl as [Ht Hl]. apply andb_true_iff in Hl' as [Ht' Hl'].
    apply split_first in E as [-> E]; [|done..]. by destruct (IH l' Hl Hl' E) as [-> ->].
Qed.
Lemma hashBytes_inj en en' :
  (forall c, en_VisaCompellingEvidence3 en = Some c -> lacks ":" (ce_DisputedTransactionID c) && forallb (lacks ",") (ce_PriorUndisputedTransactions c) = true) ->
  (forall c, en_VisaCompellingEvidence3 en' = Some c -> lacks ":" (ce_DisputedTransactionID c) && forallb (lacks ",") (ce_PriorUndisputedTransactions c) = true) ->
  hashBytes en = hashBytes en' -> en = en'.
Proof.
  destruct en as [c v], en' as [c' v']. cbn. intros Hc Hc' E. unfold hashBytes in E. cbn [en_VisaCompellingEvidence3 en_VisaCompliance] in E.
  fold (comp_text v) in E. fold (comp_text v') in E. rewrite ?append_assoc in E.
  destruct c as [[id prior]|], c' as [[id' prior']|]; cbn in E.
  - specialize (Hc _ eq_refl). specialize (Hc' _ eq_refl). cbn in Hc, Hc'. apply andb_true_iff in Hc as [Hi Hp], Hc' as [Hi' Hp'].
    rewrite !append_assoc in E. injection E as E. apply split_first in E as [-> E]; [|done..].
    apply with_commas_inj in E as [-> E]; [|done..]. by rewrite (comp_text_inj _ _ E).
  - by destruct v' as [[[]]|].
  - by destruct v as [[[]]|].
  - by rewrite (comp_text_inj _ _ E).
Qed.
Lemma text_fields_inj e e' : text_fields e = text_fields e' -> ed_EnhancedEvidence e = ed_EnhancedEvidence e' -> e = e'.
Proof. destruct e, e'. unfold text_fields. cbn. intros E ->. injection E. intros. by subst. Qed.
Lemma text_names e : NoDup (text_fields e).*1 /\ "EnhancedEvidence" ∉ (text_fields e).*1.
Proof. split; apply (bool_decide_unpack _); by vm_compute. Qed.
Lemma evidence_fields_inj e e' :
  plain_ids e = true -> plain_ids e' = true -> evidence_fields e = evidence_fields e' -> e = e'.
Proof.
  intros Hp Hp' E. destruct (text_names e) as [Hnd Hni], (text_names e') as [Hnd' Hni'].
  apply not_elem_of_list_to_map_1 in Hni, Hni'. change ((text_fields e').*1) with ((text_fields e).*1) in *.
  assert (Hl : (list_to_map (text_fields e) : smap) = list_to_map (text_fields e')).
  { apply (f_equal (delete "EnhancedEvidence")) in E. unfold evidence_fields in E.
    destruct (ed_EnhancedEvidence e), (ed_EnhancedEvidence e'); rewrite ?delete_insert_eq, !delete_id in E; done. }
  apply text_fields_inj; [by apply list_to_map_same_keys|].
  apply (f_equal (lookup "EnhancedEvidence")) in E. unfold evidence_fields, plain_ids in *.
  destruct (ed_EnhancedEvidence e) as [en|], (ed_EnhancedEvidence e') as [en'|]; rewrite ?lookup_insert_eq, ?Hni, ?Hni' in E; try done.
  injection E as E. f_equal. by apply hashBytes_inj; [intros c Ec; rewrite Ec in *..|].
Qed.
(** C27: The key of a submission of evidence identifies it, when the id of the disputed
    transaction has no colon and those of the prior ones have no comma, the separators of
    [hashBytes]: two submissions share their key only if they are about the same dispute and
    every field of the evidence agrees, or SHA-256 collides. So evidence that is submitted again is recognised, and evidence
    in which any field has changed replaces the earlier one. *)
Theorem evidence_key_identifies d d' e e' :
  fits d -> fits d' -> fields_fit (evidence_fields e) -> fields_fit (evidence_fields e') ->
  plain_ids e = true -> plain_ids e' = true ->
  rq_key (evidence_request "" d e) = rq_key (evidence_request "" d' e') ->
  (d = d' /\ e = e') \/ same_digests "disputes.submit_evidence" "disputes.evidence" d d' (evidence_fields e) (evidence_fields e').
Proof.
  intros Hd Hd' He He' Hp Hp' E. unfold evidence_request, evidenceContentHash in E. cbn [rq_key] in E.
  apply content_key_inj in E as [[-> E]|E]; [left|by right|by apply KeysDemo.fits_short|by apply KeysDemo.fits_short|done..].
  split; [done|]. by apply evidence_fields_inj.
Qed.
(** The transactions that were not disputed, which Compelling Evidence 3.0 is about, are
    part of the key but not of the request. *)
Theorem prior_transactions_not_sent d e c v prior :
  ed_EnhancedEvidence e = Some (mkEnhanced (Some (mkCE3 c prior)) v) ->
  forall prior', rq_params (evidence_request "" d e) =
    rq_params (evidence_request "" d
      (mkEvidence (ed_CustomerName e) (ed_CustomerEmail e) (ed_CustomerPurchaseIP e) (ed_BillingAddress e) (ed_ProductDescription e)
         (ed_ServiceDate e) (ed_ServiceDocumentation e) (ed_ShippingAddress e) (ed_ShippingDate e) (ed_ShippingCarrier e)
         (ed_ShippingTrackingNumber e) (ed_ShippingDocumentation e) (ed_CustomerSignature e) (ed_CustomerCommunication e) (ed_Receipt e)
         (ed_RefundPolicy e) (ed_RefundPolicyDisclosure e) (ed_RefundRefusalExplanation e) (ed_CancellationPolicy e)
         (ed_CancellationPolicyDisclosure e) (ed_CancellationRebuttal e) (ed_DuplicateChargeID e) (ed_DuplicateChargeExplanation e)
         (ed_DuplicateChargeDocumentation e) (ed_AccessActivityLog e) (ed_UncategorizedFile e) (ed_UncategorizedText e)
         (Some (mkEnhanced (Some (mkCE3 c prior')) v)))).
Proof. intros He prior'. unfold evidence_request, buildEvidenceParams. cbn [rq_params]. by rewrite He. Qed.

(** ** Quotes *)
Definition base_fields (i : QuoteInput) : smap :=
  let fields : smap :=
    {["Description" := qi_Description i; "Footer" := qi_Footer i; "Header" := qi_Header i;
      "CollectionMethod" := qi_CollectionMethod i; "TrialPeriodDays" := fmt_d (qi_TrialPeriodDays i)]} in
  let fields := if IsZero (qi_ExpiresAt i) then fields else <["ExpiresAt" := fmt_d (Unix (qi_ExpiresAt i))]> fields in
  <["LineItems" := CanonicalStrings (map line_text (qi_LineItems i))]> fields.
#[local] Instance meta_prefix_inj : Inj (=) (=) (String.append "meta:").
Proof. intros a b. apply append_inj_l. Qed.
Lemma input_fields_meta i k : input_fields i !! ("meta:" ^^ k) = qi_Metadata i !! k.
Proof.
  unfold input_fields. change (_ ∪ _) with (kmap (String.append "meta:") (qi_Metadata i) ∪ base_fields i).
  rewrite lookup_union_l.
  - apply (lookup_kmap _).
  - unfold base_fields. destruct (IsZero _); by rewrite !lookup_insert_ne.
Qed.
Lemma input_fields_base i k : (forall s, k <> "meta:" ^^ s) -> input_fields i !! k = base_fields i !! k.
Proof.
  intros Hk. unfold input_fields. change (_ ∪ _) with (kmap (String.append "meta:") (qi_Metadata i) ∪ base_fields i).
  apply lookup_union_r. apply (lookup_kmap_None _). intros k' ->. by destruct (Hk k').
Qed.
(** Price ids without a NUL and numbers of 64 bits. *)
Definition quote_ok (i : QuoteInput) : Prop :=
  Forall (fun li => lacks nul_char (ql_StripePriceID li) = true /\ in_int64 (ql_Quantity li)) (qi_LineItems i) /\
  in_int64 (qi_TrialPeriodDays i) /\ in_int64 (Unix (qi_ExpiresAt i)).
Lemma line_text_ok li : lacks nul_char (ql_StripePriceID li) = true -> line_text li <> "" /\ lacks nul_char (line_text li) = true.
Proof.
  intros Hp. unfold line_text. rewrite append_assoc. split; [by destruct (ql_StripePriceID li)|]. rewrite !lacks_app, Hp. cbn [andb].
  apply fmt_d_lacks. intros d Hd. repeat (apply elem_of_cons in Hd as [->|Hd]; [done|]). by apply not_elem_of_nil in Hd.
Qed.
Lemma line_text_inj li li' :
  in_int64 (ql_Quantity li) -> in_int64 (ql_Quantity li') -> line_text li = line_text li' -> li = li'.
Proof.
  destruct li as [p q], li' as [p' q']. cbn. unfold line_text. rewrite !append_assoc. cbn. intros Hq Hq' E.
  apply split_last in E as [-> E]; [by rewrite (fmt_d_inj q q')|..];
    apply fmt_d_lacks; intros d Hd; repeat (apply elem_of_cons in Hd as [->|Hd]; [done|]); by apply not_elem_of_nil in Hd.
Qed.
Lemma lines_inj l l' :
  Forall (fun li => lacks nul_char (ql_StripePriceID li) = true /\ in_int64 (ql_Quantity li)) l ->
  Forall (fun li => lacks nul_char (ql_StripePriceID li) = true /\ in_int64 (ql_Quantity li)) l' ->
  CanonicalStrings (map line_text l) = CanonicalStrings (map line_text l') -> l = l'.
Proof.
  intros Hl Hl' E. apply CanonicalStrings_inj in E.
  - revert l' Hl' E. induction Hl as [|li l [_ Hq] Hl IH]; intros l' Hl' E; destruct Hl' as [|li' l' [_ Hq'] Hl']; cbn in E; try done.
    injection E as E1 E. apply line_text_inj in E1 as ->; [|done..]. f_equal. by apply IH.
  - apply Forall_map. eapply Forall_impl; [exact Hl|]. intros li [Hp _]. by apply line_text_ok.
  - apply Forall_map. eapply Forall_impl; [exact Hl'|]. intros li [Hp _]. by apply line_text_ok.
Qed.
Lemma base_values i :
  base_fields i !! "Description" = Some (qi_Description i) /\ base_fields i !! "Footer" = Some (qi_Footer i) /\
  base_fields i !! "Header" = Some (qi_Header i) /\ base_fields i !! "CollectionMethod" = Some (qi_CollectionMethod i) /\
  base_fields i !! "TrialPeriodDays" = Some (fmt_d (qi_TrialPeriodDays i)) /\
  base_fields i !! "ExpiresAt" = (if IsZero (qi_ExpiresAt i) then None else Some (fmt_d (Unix (qi_ExpiresAt i)))) /\
  base_fields i !! "LineItems" = Some (CanonicalStrings (map line_text (qi_LineItems i))).
Proof. unfold base_fields. destruct (IsZero (qi_ExpiresAt i)); split_and!; by simplify_map_eq. Qed.
Lemma input_fields_params ns i i' :
  quote_ok i -> quote_ok i' -> qi_StripeCustomerID i = qi_StripeCustomerID i' -> input_fields i = input_fields i' ->
  quote_params ns i = quote_params ns i'.
Proof.
  intros (Hl & Ht & Hx) (Hl' & Ht' & Hx') Hcust E.
  assert (Hm : qi_Metadata i = qi_Metadata i') by (apply map_eq; intros k; by rewrite <- !input_fields_meta, E).
  assert (Hb : forall k, (forall s, k <> "meta:" ^^ s) -> base_fields i !! k = base_fields i' !! k).
  { intros k Hk. by rewrite <- !input_fields_base, E. }
  destruct (base_values i) as (E1 & E2 & E3 & E4 & E5 & E6 & E7), (base_values i') as (F1 & F2 & F3 & F4 & F5 & F6 & F7).
  pose proof (Hb "LineItems" ltac:(done)) as G7. rewrite E7, F7 in G7. injection G7 as G7%lines_inj; [|done..].
  pose proof (Hb "Description" ltac:(done)) as G1. rewrite E1, F1 in G1. injection G1 as G1.
  pose proof (Hb "Footer" ltac:(done)) as G2. rewrite E2, F2 in G2. injection G2 as G2.
  pose proof (Hb "Header" ltac:(done)) as G3. rewrite E3, F3 in G3. injection G3 as G3.
  pose proof (Hb "CollectionMethod" ltac:(done)) as G4. rewrite E4, F4 in G4. injection G4 as G4.
  pose proof (Hb "TrialPeriodDays" ltac:(done)) as G5. rewrite E5, F5 in G5. injection G5 as G5%fmt_d_inj; [|done..].
  pose proof (Hb "ExpiresAt" ltac:(done)) as G6. rewrite E6, F6 in G6.
  unfold quote_params. rewrite Hcust, Hm, G1, G2, G3, G4, G5, G7. do 4 f_equal.
  destruct (IsZero (qi_ExpiresAt i)), (IsZero (qi_ExpiresAt i')); [done|done|done|]. injection G6 as ->%fmt_d_inj; done.
Qed.
(** The key of a quote determines the quote: two calls that share their key send the
    same request, or SHA-256 collides. So no change of any field is answered with an
    earlier quote or refused. *)
Theorem quote_key_identifies ns i i' :
  quote_ok i -> quote_ok i' -> fits (qi_StripeCustomerID i) -> fits (qi_StripeCustomerID i') ->
  fields_fit (input_fields i) -> fields_fit (input_fields i') ->
  rq_key (quote_request "" ns i) = rq_key (quote_request "" ns i') ->
  quote_request "" ns i = quote_request "" ns i' \/
  same_digests "quotes.create" "quotes.create" (qi_StripeCustomerID i) (qi_StripeCustomerID i') (input_fields i) (input_fields i').
Proof.
  intros Hi Hi' Hc Hc' Hf Hf' E. pose proof E as E'. unfold quote_request, createInputHash in E'. cbn [rq_key] in E'.
  apply content_key_inj in E' as [[Ec Em]|E']; [left|by right|by apply KeysDemo.fits_short|by apply KeysDemo.fits_short|done..].
  unfold quote_request. by rewrite (input_fields_params ns i i'), Ec, (f_equal (ContentHash "quotes.create") Em : createInputHash i = createInputHash i').
Qed.
(** The routing stamp of a quote is that of the caller's metadata, if it has one. *)
Theorem quote_stamp_overridden ns m ns' :
  m !! MetadataKeyNamespace = Some ns' -> quote_metadata ns m !! MetadataKeyNamespace = Some ns'.
Proof. intros Hm. unfold quote_metadata. by apply lookup_union_Some_l. Qed.
End keys.

Module KeyDemo.
Export KeysDemo.
Definition proof_of_delivery (carrier : string) : Evidence :=
  mkEvidence "Ada" "ada@example.org" "" "" "A book" "" "" "Main Street 1" "2025-01-02" carrier "1Z" "" "" "" "" "" "" "" "" "" "" "" "" "" "" "" ""
    (Some (mkEnhanced (Some (mkCE3 "pi_1" ["pi_2"; "pi_3"])) (Some (mkCompliance true)))).
Lemma fits_all (m : smap) : forallb (fun '(k, v) => Nat.leb (String.length k) 4096 && Nat.leb (String.length v) 4096) (map_to_list m) = true -> fields_fit m.
Proof.
  intros Hm k v Hkv%elem_of_map_to_list. rewrite forallb_forall in Hm. apply list_elem_of_In, Hm in Hkv. cbn in Hkv.
  apply andb_true_iff in Hkv as [? ?]. split; by apply fits_short.
Qed.
Lemma evidence_key_identifies_witness :
  ("dp_1" = "dp_1" /\ proof_of_delivery "UPS" = proof_of_delivery "UPS") \/
  same_digests (H := demo_Sha256) (H0 := reference_runtime) "disputes.submit_evidence" "disputes.evidence" "dp_1" "dp_1"
    (evidence_fields (proof_of_delivery "UPS")) (evidence_fields (proof_of_delivery "UPS")).
Proof.
  apply (evidence_key_identifies (H := demo_Sha256) (H0 := reference_runtime) "dp_1" "dp_1" (proof_of_delivery "UPS") (proof_of_delivery "UPS"));
    [apply fits_short; reflexivity|apply fits_short; reflexivity|apply fits_all; vm_compute; reflexivity|apply fits_all; vm_compute; reflexivity
    |reflexivity|reflexivity|reflexivity].
Defined.
Definition offer (expiresAt : Z) : QuoteInput :=
  mkQuoteInput "cus_1" [mkQuoteLine "price_1" 5; mkQuoteLine "price_2" 1] "Seats" "" "Acme" expiresAt "send_invoice" 14 {["deal" := "42"]}.
Definition noon : Z := 1700000000 * second.
Lemma small z : (int64_min <=? z) && (z <=? int64_max) = true -> in_int64 z.
Proof. rewrite andb_true_iff, !Z.leb_le. done. Qed.
Lemma offer_ok t : (int64_min <=? Unix t) && (Unix t <=? int64_max) = true -> quote_ok (offer t).
Proof.
  intros Ht. split_and!; [|by apply small|by apply small].
  repeat (apply Forall_cons; split; [split; [done|by apply small]|]). apply Forall_nil. done.
Qed.
(** Two quotes that expire within the same second are the same request. *)
Lemma quote_key_identifies_witness :
  quote_request (H := demo_Sha256) (H0 := reference_runtime) "" "shop" (offer noon) =
    quote_request (H := demo_Sha256) (H0 := reference_runtime) "" "shop" (offer (noon + 7)) \/
  same_digests (H := demo_Sha256) (H0 := reference_runtime) "quotes.create" "quotes.create" "cus_1" "cus_1" (input_fields (offer noon))
    (input_fields (offer (noon + 7))).
Proof.
  apply (quote_key_identifies (H := demo_Sha256) (H0 := reference_runtime) "shop" (offer noon) (offer (noon + 7)));
    [apply offer_ok; reflexivity|apply offer_ok; reflexivity|apply fits_short; reflexivity|apply fits_short; reflexivity
    |apply fits_all; vm_compute; reflexivity|apply fits_all; vm_compute; reflexivity|vm_compute; reflexivity].
Defined.
End KeyDemo.

(** ** Keys that leave out a field

    A changed request then meets the key of the earlier one and is refused. *)
Section gaps.
Context `{Sha256} `{GoRuntime} (ctx : string).
(** Two requests that differ and share their key. *)
Definition blind (r r' : request) : Prop := rq_key r = rq_key r' /\ rq_params r <> rq_params r'.

(** ** Sessions *)
Definition with_terms (p : SessionCreate) (promo locale ui : string) (methods : list string) (d : SessionDefaults) (trial : Z) : SessionCreate :=
  mkSessionCreate (sc_StripeCustomerID p) (sc_Mode p) (sc_LineItems p) (sc_SuccessURL p) (sc_CancelURL p) (sc_ClientReference p)
    (sc_PromoCode p) promo (Checkout.sc_Metadata p) methods ui (sc_ReturnURL p) d trial locale.
(** The promotion code, the locale, the embedding, the methods of payment, the defaults
    and the trial of a session are not in its key. *)
Theorem session_key_misses_terms p promo locale ui methods d trial :
  session_key ctx (with_terms p promo locale ui methods d trial) = session_key ctx p.
Proof. done. Qed.
Definition session_request (p : SessionCreate) (lines : list pval) : request :=
  mkReq "V1CheckoutSessions.Create" "" (session_request_params p lines) (session_key ctx p).
Definition plain_defaults : SessionDefaults := mkSessionDefaults None None "" "" "" None None.
Definition plain_session : SessionCreate :=
  mkSessionCreate "cus_1" ModeSubscription [] "https://app/ok" "https://app/no" "" "" "" ∅ [] "" "" plain_defaults 0 "".
Lemma promo_blind : blind (session_request plain_session []) (session_request (with_terms plain_session "promo_1" "" "" [] plain_defaults 0) []).
Proof. split; [done|]. by vm_compute. Qed.
Lemma trial_blind : blind (session_request plain_session []) (session_request (with_terms plain_session "" "" "" [] plain_defaults 14) []).
Proof. split; [done|]. by vm_compute. Qed.

(** ** The other writes *)
Lemma setup_blind customer (i : CreateSetupIntentInput) :
  su_PaymentMethodTypes i = [] ->
  blind (setup_request ctx customer i)
    (setup_request ctx customer (mkSetupInput (su_SubjectID i) (su_Usage i) ["sepa_debit"] (su_Metadata i))).
Proof. intros Ht. split; [done|]. unfold setup_request. cbn [rq_params su_PaymentMethodTypes]. rewrite Ht.
  intros E%(f_equal (param "payment_method_types")). discriminate E. Qed.
Lemma promo_code_blind (p : PromoParams) :
  pp_Restrictions p = None ->
  blind (promo_request ctx p)
    (promo_request ctx (mkPromoParams (pp_CouponID p) (pp_Code p) (pp_MaxRedemptions p) (pp_ExpiresAt p) (pp_BoundCustomer p)
       (Some (mkRestrictions true 0 "")) (pp_Metadata p))).
Proof.
  intros Hr. split; [done|]. unfold promo_request, promo_params. cbn [rq_params pp_CouponID pp_Code pp_MaxRedemptions pp_ExpiresAt pp_BoundCustomer pp_Restrictions pp_Metadata].
  rewrite Hr. intros E%(f_equal List.length). rewrite !length_app in E. cbn in E. lia.
Qed.
Lemma adhoc_blind m (ca : CustomAmount) :
  ca_TaxCategory ca = "" ->
  blind (adhoc_request ctx m ca)
    (adhoc_request ctx m (mkCustomAmount (ca_Currency ca) (ca_Min ca) (ca_Max ca) (ca_Preset ca) (ca_Name ca) "txcd_10103000")).
Proof. intros Ht. split; [done|]. unfold adhoc_request, adhoc_params. cbn [rq_params ca_TaxCategory ca_Currency]. rewrite Ht.
  intros E%(f_equal (param "product_data")). discriminate E. Qed.
Definition schedule_request (i : ScheduleBackendInput) : request :=
  mkReq "V1SubscriptionSchedules.Create" "" (schedule_params i) (schedule_key ctx i).
Lemma schedule_blind (i : ScheduleBackendInput) t :
  IsZero (sb_StartAt i) = true -> IsZero t = false ->
  blind (schedule_request i) (schedule_request (mkScheduleBackend (sb_StripeCustomerID i) (sb_Phases i) (sb_EndBehavior i) t (sb_Metadata i))).
Proof.
  intros Hz Ht. split; [done|]. unfold schedule_request, schedule_params. cbn. rewrite Hz, Ht. intros [= E].
  apply app_inv_head in E. done.
Qed.
Definition invoiced_request (i : InvoicedSubscriptionInput) (added : list params) : request :=
  mkReq "V1Subscriptions.Create" "" (invoiced_params i added) (invoiced_key ctx i).
Lemma invoiced_blind (i : InvoicedSubscriptionInput) fee :
  blind (invoiced_request i []) (invoiced_request i [fee]).
Proof.
  split; [done|]. unfold invoiced_request, invoiced_params. cbn [rq_params].
  intros E%(f_equal List.length). rewrite !length_app in E. cbn in E. lia.
Qed.

(** Whether the invoices of a subscription are finalized without a review is not part of
    any request. *)
Theorem auto_finalize_ignored (i : InvoicedSubscriptionInput) b :
  stripe_CreateInvoiced ctx (mkInvoicedSub (ib_StripeCustomerID i) (ib_StripePriceID i) (ib_Quantity i) (ib_DueIn i) b (ib_Metadata i)
    (ib_TrialDays i) (ib_AddInvoiceItems i)) = stripe_CreateInvoiced ctx i.
Proof. done. Qed.

(** Each of these writes is refused when it is made again with other terms while Stripe
    remembers the first: a session with a promotion code after one without, a setup
    intent for other methods of payment, a promotion code with restrictions after one
    without, a price of another tax category, a schedule that starts later, a
    subscription with a setup fee. *)
Theorem changed_terms_refused {X} (serve : request -> X -> res string answer * X) s r r' :
  blind r r' -> rq_key r <> "" -> id_seen s !! rq_key r = None ->
  with_idempotency serve r' (snd (with_idempotency serve r s)) = (Err idempotency_error, snd (with_idempotency serve r s)).
Proof. intros [Hk Hp] Hne Hfresh. apply second_refused; [done|done|done|]. by intros ->. Qed.
End gaps.
