(* ===== verification/StripeInvoiceFacts.v ===== *)
(** * StripeInvoiceFacts: pages of invoices, drafts and the numbers of the ledger on them. *)
From S2P Require Import Prelude Events StripeApi StripeCalls InvoiceNumbers Invoices StripeInvoices StripeBackendFacts.

(** ** Pages *)

(** The invoices that come after the one with the id [id]. *)
Fixpoint after_id (id : string) (l : list stripe_invoice) : list stripe_invoice :=
  match l with
  | [] => []
  | i :: rest => if String.eqb (sv_ID i) id then rest else after_id id rest
  end.
Definition from_cursor (cursor : option string) (l : list stripe_invoice) : list stripe_invoice :=
  match cursor with None => l | Some id => after_id id l end.
(** The documented listing of invoices, with the iteration over all pages that stripe-go
    adds: the invoices of the customer, from the cursor on, as long as the size of a page
    is between 1 and 100. *)
Class InvoiceListing {X : Type} (serve : request -> X -> res string answer * X) := {
  customer_invoices : string -> string -> X -> list stripe_invoice;
  invoices_listed : forall ps n x, param "limit" ps = Some (PStr (fmt_d n)) -> 1 <= n <= 100 ->
    serve (mkReq "V1Invoices.List" "" ps "") x =
      (Ok (Listing (OInvoice <$> from_cursor (str_param "starting_after" ps)
                      (customer_invoices (default "" (str_param "customer" ps)) (default "" (str_param "status" ps)) x)) None), x);
  invoice_ids_distinct : forall c st x, NoDup (sv_ID <$> customer_invoices c st x);
  invoice_ids_set : forall c st x, Forall (fun i => sv_ID i <> "") (customer_invoices c st x);
}.

Section pages.
Context {X : Type} (serve : request -> X -> res string answer * X) `{!InvoiceListing serve}.

(** The loop of a client: page after page, each from the last id of the one before. *)
Fixpoint all_pages (fuel : nat) (req : InvoicePageRequest) (x : X) : res string (option (list Invoice)) :=
  match fuel with
  | O => Ok None
  | S fuel =>
      match fst (perform serve (stripe_ListByCustomerPage req) x) with
      | Err e => Err e
      | Ok page =>
          if pg_HasMore page then
            match all_pages fuel (mkPageRequest (pq_CustomerID req) (pq_Status req) (pq_Limit req) (pg_LastID page)) x with
            | Err e => Err e
            | Ok None => Ok None
            | Ok (Some l) => Ok (Some (pg_Invoices page ++ l))
            end
          else Ok (Some (pg_Invoices page))
      end
  end.

Definition next_invoices (req : InvoicePageRequest) (x : X) : list stripe_invoice :=
  from_cursor (if String.eqb (pq_StartingAfter req) "" then None else Some (pq_StartingAfter req))
    (customer_invoices (pq_CustomerID req) (pq_Status req) x).
Lemma omap_lite l : omap lite_of (OInvoice <$> l) = map projectInvoiceLite l.
Proof. induction l as [|i l IH]; cbn; [done|]. by rewrite IH. Qed.
Lemma page_params req n :
  let ps := [("customer", PStr (pq_CustomerID req))] ++ opt_str "status" (pq_Status req) ++
            opt_str "starting_after" (pq_StartingAfter req) ++ [("limit", PStr (fmt_d n))] in
  param "limit" ps = Some (PStr (fmt_d n)) /\ str_param "customer" ps = Some (pq_CustomerID req) /\
  default "" (str_param "status" ps) = pq_Status req /\
  str_param "starting_after" ps = if String.eqb (pq_StartingAfter req) "" then None else Some (pq_StartingAfter req).
Proof.
  unfold opt_str, when, str. destruct (String.eqb_spec (pq_Status req) "") as [->|], (String.eqb_spec (pq_StartingAfter req) "");
    cbn; done.
Qed.
(** A page is the next invoices, at most the limit; there are more exactly if some are left. *)
Lemma page_exact req x :
  let limit := page_limit (pq_Limit req) in let l := next_invoices req x in
  limit <= 99 ->
  fst (perform serve (stripe_ListByCustomerPage req) x) =
    Ok (mkPage (take (Z.to_nat limit) (map projectInvoiceLite l)) (Nat.ltb (Z.to_nat limit) (List.length l))
          (last_id (take (Z.to_nat limit) (map projectInvoiceLite l)))).
Proof.
  cbn zeta. intros Hlim. assert (Hpos : 1 <= page_limit (pq_Limit req)) by (unfold page_limit; destruct (Z.leb_spec (pq_Limit req) 0); lia).
  unfold stripe_ListByCustomerPage. rewrite perform_bind. unfold send_first. cbn [perform].
  assert (Hadd : add64 (page_limit (pq_Limit req)) 1 = page_limit (pq_Limit req) + 1).
  { apply add64_exact. unfold in_int64, int64_min, int64_max. lia. }
  rewrite Hadd. destruct (page_params req (page_limit (pq_Limit req) + 1)) as (P1 & P2 & P3 & P4).
  rewrite (invoices_listed _ _ x P1) by lia. rewrite P2, P3, P4. cbn [fst snd perform default]. unfold id. fold (next_invoices req x).
  rewrite omap_lite. set (l := next_invoices req x). set (n := Z.to_nat (page_limit (pq_Limit req))).
  destruct (Nat.leb_spec (S n) (List.length (map projectInvoiceLite l))) as [Hle|Hlt]; cbn [fst snd perform]; rewrite length_map in *.
  - rewrite length_take, length_map, take_take, Nat.min_l by lia. rewrite (proj2 (Nat.ltb_lt n (List.length l))) by lia.
    by rewrite (proj2 (Nat.ltb_lt n _)) by lia.
  - done.
Qed.

Lemma after_id_app pre i post : NoDup (sv_ID <$> pre ++ i :: post) -> after_id (sv_ID i) (pre ++ i :: post) = post.
Proof.
  induction pre as [|j pre IH]; cbn; [by rewrite String.eqb_refl|]. intros [Hni Hnd]%NoDup_cons.
  destruct (String.eqb_spec (sv_ID j) (sv_ID i)) as [E|]; [|by apply IH].
  destruct Hni. rewrite E, fmap_app. apply elem_of_app. right. by left.
Qed.
Lemma last_id_snoc l i : last_id (map projectInvoiceLite (l ++ [i])) = sv_ID i.
Proof. unfold last_id. rewrite map_app. cbn [map]. by rewrite last_snoc. Qed.
Lemma all_pages_from fuel pre post req x :
  customer_invoices (pq_CustomerID req) (pq_Status req) x = pre ++ post -> next_invoices req x = post ->
  page_limit (pq_Limit req) <= 99 -> (List.length post < fuel)%nat ->
  all_pages fuel req x = Ok (Some (map projectInvoiceLite post)).
Proof.
  revert pre post req. induction fuel as [|fuel IH]; intros pre post req Hall Hnext Hlim Hf; [lia|].
  cbn [all_pages]. rewrite page_exact, Hnext by done. cbn [pg_HasMore pg_Invoices pg_LastID].
  set (n := Z.to_nat (page_limit (pq_Limit req))).
  assert (Hn : (1 <= n)%nat) by (subst n; unfold page_limit in *; destruct (Z.leb_spec (pq_Limit req) 0); lia).
  rewrite firstn_map. destruct (Nat.ltb_spec n (List.length post)) as [Hlt|Hge]; [|by rewrite take_ge].
  destruct (exists_last (l := take n post)) as (front & i & Hfront).
  { intros E. apply (f_equal List.length) in E. rewrite length_take in E. cbn in E. lia. }
  rewrite Hfront, last_id_snoc, <- Hfront.
  pose proof (invoice_ids_distinct (pq_CustomerID req) (pq_Status req) x) as Hnd.
  pose proof (invoice_ids_set (pq_CustomerID req) (pq_Status req) x) as Hset.
  assert (Hsplit : pre ++ post = (pre ++ front) ++ i :: drop n post).
  { rewrite <- app_assoc. f_equal. rewrite <- (take_drop n post) at 1. rewrite Hfront, <- app_assoc. done. }
  rewrite Hall, Hsplit in Hnd, Hset. assert (Hi : sv_ID i <> "") by (apply Forall_app in Hset as [_ Hs]; by apply Forall_cons in Hs as [? _]).
  rewrite (IH ((pre ++ front) ++ [i]) (drop n post)).
  - by rewrite <- map_app, take_drop.
  - cbn [pq_CustomerID pq_Status]. rewrite Hall, Hsplit. by rewrite <- (app_assoc (pre ++ front)).
  - unfold next_invoices. cbn [pq_CustomerID pq_Status pq_StartingAfter]. rewrite (proj2 (String.eqb_neq _ _) Hi).
    cbn [from_cursor]. rewrite Hall, Hsplit. by apply after_id_app.
  - done.
  - rewrite length_drop. lia.
Qed.
(** C11: Following the pages of a customer's invoices terminates and returns every invoice
    once, in the order of Stripe: the extra invoice each page asks for is never lost nor
    returned twice, whatever the number of invoices and the size of the pages, up to 99: a
    page of 100 asks for 101 invoices, more than Stripe gives. *)
Theorem pages_complete req x :
  page_limit (pq_Limit req) <= 99 -> pq_StartingAfter req = "" ->
  let l := customer_invoices (pq_CustomerID req) (pq_Status req) x in
  all_pages (S (List.length l)) req x = Ok (Some (map projectInvoiceLite l)).
Proof.
  intros Hlim Hstart. cbn zeta. apply (all_pages_from _ []); [done| |done|lia]. unfold next_invoices. by rewrite Hstart.
Qed.
End pages.

(** ** Drafts *)
Section drafts.
Context `{Sha256} `{GoRuntime} (ctx : string) {X : Type} (serve : request -> X -> res string answer * X).
Fixpoint item_requests (input : CreateInput) (i : Z) (items : list CreateLineItem) : list request :=
  match items with [] => [] | li :: rest => item_request ctx input i li :: item_requests input (i + 1) rest end.
Lemma create_items_sent input i items x :
  match fst (perform serve (create_items ctx input i items) x) with
  | None => sent serve (create_items ctx input i items) x = item_requests input i items
  | Some _ => sent serve (create_items ctx input i items) x `prefix_of` item_requests input i items
  end.
Proof.
  revert i x. induction items as [|li rest IH]; intros i x; cbn [create_items item_requests]; [done|].
  rewrite perform_bind, sent_bind. unfold send_unit. cbn [perform sent].
  destruct (serve (item_request ctx input i li) x) as [[a|e] x1]; cbn [fst snd perform sent app].
  - specialize (IH (i + 1) x1). destruct (fst (perform serve _ x1)); cbn; [by apply prefix_cons|by rewrite IH].
  - apply prefix_cons, prefix_nil.
Qed.
(** A draft that is created was preceded by exactly its lines, each of them once, in
    order and with the amount times the quantity, at least one. One that is not created
    left a prefix of them pending. *)
Theorem draft_lines_sent input x :
  match fst (perform serve (stripe_CreateDraft ctx input) x) with
  | Ok _ => sent serve (stripe_CreateDraft ctx input) x = item_requests input 0 (ci_LineItems input) ++ [draft_request ctx input]
  | Err _ => sent serve (stripe_CreateDraft ctx input) x `prefix_of` item_requests input 0 (ci_LineItems input) ++ [draft_request ctx input]
  end.
Proof.
  unfold stripe_CreateDraft. rewrite perform_bind, sent_bind. pose proof (create_items_sent input 0 (ci_LineItems input) x) as Hi.
  destruct (perform serve (create_items ctx input 0 (ci_LineItems input)) x) as [[e|] x1]; cbn [fst snd] in *.
  - cbn [perform sent fst]. rewrite app_nil_r. by apply prefix_app_r.
  - rewrite Hi, sent_one. by destruct (fst (perform serve (send_one _ _ _) x1)).
Qed.
(** No request of a draft says which pending items the invoice takes up, nor names the
    invoice of an item; by the default of the API an invoice takes up none. *)
Theorem draft_takes_no_items input r :
  r ∈ item_requests input 0 (ci_LineItems input) ++ [draft_request ctx input] ->
  param "pending_invoice_items_behavior" (rq_params r) = None /\ (rq_op r = "V1InvoiceItems.Create" -> param "invoice" (rq_params r) = None).
Proof.
  intros [Hr|Hr]%elem_of_app; [|apply list_elem_of_singleton in Hr as ->].
  - revert Hr. generalize 0. induction (ci_LineItems input) as [|li rest IH]; intros i Hr; cbn in Hr; [by apply not_elem_of_nil in Hr|].
    apply elem_of_cons in Hr as [->|Hr]; [done|]. by eapply IH.
  - split; [|done]. unfold draft_request, draft_params, opt_str, meta, when. cbn [rq_params].
    destruct (0 <? _), (negb (String.eqb (ci_Memo input) "")), (negb (String.eqb (ci_NumberOverride input) "")),
      (negb (bool_decide (ci_Metadata input = ∅))); done.
Qed.
(** The number of the ledger and the stamp of the application are on the draft. *)
Theorem draft_numbered_and_stamped ns num input :
  num <> "" -> ns <> "" ->
  let r := draft_request ctx (stamped ns (with_override num input)) in
  str_param "number" (rq_params r) = Some num /\
  exists m, param "metadata" (rq_params r) = Some (PMap m) /\ m !! MetadataKeyNamespace = Some ns.
Proof.
  intros Hnum Hns. cbn zeta. unfold draft_request, draft_params, opt_str, meta, when.
  cbn [rq_params stamped with_override ci_Customer ci_DueIn ci_Memo ci_NumberOverride ci_Metadata].
  rewrite (proj2 (String.eqb_neq _ _) Hnum). cbn [negb].
  assert (Hst : StampNamespace (ci_Metadata input) ns !! MetadataKeyNamespace = Some ns) by by apply StampNamespace_lookup.
  rewrite bool_decide_eq_false_2 by (intros E; by rewrite E in Hst). cbn [negb].
  destruct (0 <? _), (negb (String.eqb (ci_Memo input) "")); (split; [done|by eexists]).
Qed.
End drafts.

(** ** A concrete account *)
Module PagesDemo.
Definition invoice (id : string) (total : Z) : stripe_invoice :=
  mkStripeInvoice id ("2025-" ^^ id) "paid" "eur" total total 0 total [] 1700000000 0 "" "" (Some ("cus_1", "ada@example.org", None)) [] None None.
Definition account : list stripe_invoice := [invoice "in_1" 100; invoice "in_2" 200; invoice "in_3" 300; invoice "in_4" 400].
Definition serve (r : request) (x : unit) : res string answer * unit :=
  let ps := rq_params r in
  if String.eqb (rq_op r) "V1Invoices.List" then
    (Ok (Listing (OInvoice <$> from_cursor (str_param "starting_after" ps)
       (if String.eqb (default "" (str_param "customer" ps)) "cus_1" then account else [])) None), x)
  else (Err "unknown operation", x).
#[export] Instance serve_listing : InvoiceListing serve.
Proof.
  refine {| customer_invoices c _ _ := if String.eqb c "cus_1" then account else [] |}.
  - done.
  - intros c _ _. destruct (String.eqb c "cus_1"); [apply (bool_decide_unpack _); by vm_compute|constructor].
  - intros c _ _. destruct (String.eqb c "cus_1"); repeat constructor; done.
Defined.
Lemma pages_complete_witness :
  all_pages serve 5 (mkPageRequest "cus_1" "" 2 "") tt = Ok (Some (map projectInvoiceLite account)).
Proof. exact (pages_complete serve (mkPageRequest "cus_1" "" 2 "") tt ltac:(vm_compute; discriminate) eq_refl). Defined.
End PagesDemo.
