(* ===== verification/BillingFacts.v ===== *)
(** * BillingFacts: refunds, promotion codes and carbon removal, from the call of the
      application to the request. *)
From Stdlib Require Import SpecFloat.
From S2P Require Import Prelude Events CatalogSpec CatalogSync StripeApi StripeCalls StripeCatalog Coupons Refunds Climate StripeBackendFacts.

Section facts.
Context `{Sha256} `{GoRuntime} (ctx : string) {X : Type} (serve : request -> X -> res string answer * X).

(** ** Refunds *)

(** A refund names one charge or one payment intent, an amount that is not negative and
    one of the reasons of Stripe or none. *)
Definition refund_valid (i : RefundInput) : Prop :=
  (rf_ChargeID i = "" <-> rf_PaymentIntentID i <> "") /\ 0 <= rf_Amount i /\
  (rf_Reason i = "" \/ rf_Reason i ∈ [RefundReasonDuplicate; RefundReasonFraudulent; RefundReasonRequestedByCustomer]).
Definition reason_or_default (reason : string) : string := if String.eqb reason "" then RefundReasonRequestedByCustomer else reason.
Lemma refund_reason_spec reason :
  match refund_reason reason with
  | Some r => r = reason_or_default reason /\
      (reason = "" \/ reason ∈ [RefundReasonDuplicate; RefundReasonFraudulent; RefundReasonRequestedByCustomer])
  | None => ~ (reason = "" \/ reason ∈ [RefundReasonDuplicate; RefundReasonFraudulent; RefundReasonRequestedByCustomer])
  end.
Proof.
  unfold refund_reason, reason_or_default. destruct (String.eqb_spec reason "") as [->|Hne]; [by eauto|].
  destruct (existsb _ _) eqn:E.
  - split; [done|right]. apply existsb_exists in E as (r & Hr & ->%String.eqb_eq). by apply list_elem_of_In.
  - intros [?|Hr]; [done|]. rewrite <- not_true_iff_false in E. apply E, existsb_exists. exists reason.
    rewrite String.eqb_refl. split; [by apply list_elem_of_In|done].
Qed.
Lemma check_refund_spec ns i :
  match check_refund ns i with
  | Ok j => refund_valid i /\ j = mkRefundInput (rf_ChargeID i) (rf_PaymentIntentID i) (rf_Amount i) (reason_or_default (rf_Reason i))
                                    (StampNamespace (rf_Metadata i) ns)
  | Err _ => ~ refund_valid i
  end.
Proof.
  unfold check_refund, refund_valid. pose proof (refund_reason_spec (rf_Reason i)) as Hr.
  destruct (String.eqb_spec (rf_ChargeID i) ""), (String.eqb_spec (rf_PaymentIntentID i) ""); cbn [negb andb]; try (by intros [? _]; tauto);
    (destruct (Z.ltb_spec (rf_Amount i) 0); [intros (_ & ? & _); lia|]); destruct (refund_reason (rf_Reason i));
    try (by intros (_ & _ & ?); apply Hr); destruct Hr as [-> Hr]; (split; [split_and!; [tauto|lia|done]|done]).
Qed.
(** A refund reaches Stripe exactly if it is valid, and then as one request that names
    its one target, has an amount only for a partial refund, and carries a reason Stripe
    knows and the stamp of the application. *)
Theorem refund_correct ns i x :
  match sent serve (refund ctx ns i) x with
  | [] => ~ refund_valid i
  | [r] => refund_valid i /\ rq_op r = "V1Refunds.Create" /\ rq_key r <> "" /\
      rq_params r = str "reason" (reason_or_default (rf_Reason i)) ++
        (if String.eqb (rf_ChargeID i) "" then str "payment_intent" (rf_PaymentIntentID i) else str "charge" (rf_ChargeID i)) ++
        when (negb (rf_Amount i =? 0)) (int "amount" (rf_Amount i)) ++ meta (StampNamespace (rf_Metadata i) ns)
  | _ => False
  end.
Proof.
  unfold refund. pose proof (check_refund_spec ns i) as Hc. destruct (check_refund ns i) as [j|e]; [|done]. destruct Hc as [Hv ->].
  rewrite sent_bind. unfold stripe_Refund. rewrite sent_one. cbn [sent app]. split; [done|]. split; [done|]. split; [key_set|].
  unfold refund_request. cbn [rq_params rf_ChargeID rf_PaymentIntentID rf_Amount rf_Reason rf_Metadata]. destruct Hv as (Ht & Ha & _).
  unfold opt_str, pos_int, when. destruct (String.eqb_spec (rf_ChargeID i) ""), (String.eqb_spec (rf_PaymentIntentID i) "");
    try tauto; cbn [negb]; (destruct (Z.ltb_spec 0 (rf_Amount i)), (Z.eqb_spec (rf_Amount i) 0); try lia); done.
Qed.

(** ** Promotion codes *)
(** A promotion code is for a coupon of the catalog, under its name in Stripe, and carries
    the stamp; for another coupon nothing is sent. *)
Theorem promo_code_correct spec i x :
  match sent serve (CreatePromoCode ctx spec i) x with
  | [] => pn_CouponKey i = "" \/ Coupons spec !! pn_CouponKey i = None
  | [r] => is_Some (Coupons spec !! pn_CouponKey i) /\ rq_op r = "V1PromotionCodes.Create" /\
      str_param "coupon" (rq_params r) = Some (pn_CouponKey i ^^ "_" ^^ Namespace spec)
  | _ => False
  end.
Proof.
  unfold CreatePromoCode. destruct (String.eqb_spec (pn_CouponKey i) ""); [by left|].
  destruct (Coupons spec !! pn_CouponKey i) eqn:E; [|by right]. rewrite sent_bind. unfold stripe_CreatePromoCode. rewrite sent_one. by eauto.
Qed.
(** Two catalogs with different namespaces can use one name for their coupons. *)
Theorem coupon_ids_collide :
  exists s s' k k', namespaceRegex (Namespace s) = true /\ namespaceRegex (Namespace s') = true /\ couponKeyRegex k = true /\ couponKeyRegex k' = true /\
    Namespace s <> Namespace s' /\ NamespacedCouponID s k = NamespacedCouponID s' k'.
Proof.
  exists (mkSpec "shop" ∅ ∅ ∅), (mkSpec "eu_shop" ∅ ∅ ∅), "SAVE20_eu", "SAVE20". split_and!; by vm_compute.
Qed.
(** The catalog sync creates products, prices and meters: no coupon of a catalog is ever
    created. *)
Theorem sync_creates_no_coupon np id u b pr m x :
  Forall (fun r => rq_op r ∈ ["V1Products.Create"; "V1Products.Update"; "V1Prices.Create"; "V1Prices.Update"; "V1BillingMeters.Create";
                              "V1BillingMeters.Deactivate"])
    (sent serve (CreateProduct ctx np) x ++ sent serve (UpdateProduct ctx id u) x ++ sent serve (UpdateProductActive ctx id b) x ++
     sent serve (CreatePrice ctx pr) x ++ sent serve (UpdatePriceActive ctx id b) x ++ sent serve (CreateMeter ctx m) x ++
     sent serve (ArchiveMeter ctx id) x).
Proof.
  unfold CreateProduct, UpdateProduct, UpdateProductActive, CreatePrice, UpdatePriceActive, CreateMeter, ArchiveMeter, send_unit.
  rewrite !sent_one. cbn [sent]. repeat match goal with |- context [serve ?r x] => destruct (serve r x) end. cbn [app].
  repeat constructor; cbn [rq_op]; apply (bool_decide_unpack _); by vm_compute.
Qed.

(** ** Carbon removal *)
(** The guard on the tonnage lets NaN through. *)
Theorem nan_tons_ordered name x : sent serve (PurchaseMetricTons S754_nan name) x <> [].
Proof. unfold PurchaseMetricTons, climate_order. cbn [SFleb SFcompare]. by rewrite sent_one. Qed.
(** An order carries no key: Stripe carries every repetition out. *)
Theorem climate_order_repeated amount currency name s :
  0 < amount -> currency <> "" -> exists r,
  perform (with_idempotency serve) (PurchaseAmount amount currency name) s =
    let '(a, x) := serve r (id_core s) in
    (match a with
     | Err e => Err ("stripe.climate.Order.Create: " ^^ e)
     | Ok (One o) => match order_of o with Some c => Ok c | None => Err "stripe.climate.Order.Create: unexpected object" end
     | Ok (Listing _ _) => Err "stripe.climate.Order.Create: unexpected list"
     end, mkIdem x (id_seen s)).
Proof.
  intros Ha Hc. unfold PurchaseAmount. rewrite (proj2 (Z.leb_gt _ _) Ha), (proj2 (String.eqb_neq _ _) Hc).
  exists (mkReq "V1ClimateOrders.Create" "" (int "amount" amount ++ str "currency" currency ++ beneficiary_params name) "").
  unfold climate_order, send_one. cbn [perform]. unfold with_idempotency. cbn [rq_key String.eqb].
  destruct (serve _ (id_core s)) as [[[o|]|] x']; cbn [perform]; [by destruct (order_of o)|done|done].
Qed.
End facts.
