(* ===== verification/Drift.v ===== *)
(** * Drift: what the catalog sync prints, and the drift detector (src/catalog/diff.go,
      drift.go).

    The detector is a goroutine, a ticker, a channel that is closed to stop it and any
    number of callers of [stop]; [dstep] interleaves them. *)
From S2P Require Import Prelude CatalogSpec CatalogSync.

(** ** Text *)
Definition newline : string := String "010" "".
Fixpoint spaces (n : nat) : string := match n with O => "" | S n => String " " (spaces n) end.
(** The verb [%-ws] of a text of ASCII. *)
Definition pad (w : nat) (s : string) : string := s ^^ spaces (w - String.length s).
(** [strconv.Quote]. Bytes outside ASCII are those of printable runes, which are kept. *)
Definition quote_char (c : ascii) : string :=
  let n := N_of_ascii c in
  if Ascii.eqb c "034" then String "092" (String "034" "")
  else if Ascii.eqb c "092" then String "092" (String "092" "")
  else if (n =? 7)%N then String "092" "a"
  else if (n =? 8)%N then String "092" "b"
  else if (n =? 9)%N then String "092" "t"
  else if (n =? 10)%N then String "092" "n"
  else if (n =? 11)%N then String "092" "v"
  else if (n =? 12)%N then String "092" "f"
  else if (n =? 13)%N then String "092" "r"
  else if (n <? 32)%N || (n =? 127)%N then
    let digit d := String (if (d <? 10)%N then ascii_of_N (48 + d) else ascii_of_N (87 + d)) "" in
    String "092" "x" ^^ digit (n / 16)%N ^^ digit (n mod 16)%N
  else String c "".
Fixpoint quote_chars (s : string) : string :=
  match s with EmptyString => "" | String c s => quote_char c ^^ quote_chars s end.
Definition Quote (s : string) : string := String "034" (quote_chars s ^^ String "034" "").

Definition op_text (op : PlanOp) : string :=
  match op with
  | OpCreate => "create" | OpUpdate => "update" | OpReplace => "replace" | OpArchive => "archive"
  | OpUnarchive => "unarchive" | OpDrift => "drift"
  end.
Definition op_upper (op : PlanOp) : string :=
  match op with
  | OpCreate => "CREATE" | OpUpdate => "UPDATE" | OpReplace => "REPLACE" | OpArchive => "ARCHIVE"
  | OpUnarchive => "UNARCHIVE" | OpDrift => "DRIFT"
  end.
Definition kind_text (k : PlanKind) : string :=
  match k with KindProduct => "product" | KindPrice => "price" | KindMeter => "meter" end.
Definition changed (what old new : string) : string := what ^^ " changed: " ^^ old ^^ " → " ^^ new.
Definition reason_text (r : reason) : string :=
  match r with
  | ProductMissing => "product not present in Stripe"
  | ProductArchived => "product is in spec but archived in Stripe; reactivating"
  | ProductGone => "product no longer in spec"
  | PriceMissing => "price not present in Stripe"
  | PriceGone => "price no longer in spec"
  | MeterMissing => "meter not present in Stripe"
  | MeterGone => "meter no longer in spec"
  | NameChanged old new => changed "name" (Quote old) (Quote new)
  | DescriptionChanged => "description changed"
  | ProductChanged => "product values changed"
  | AmountChanged old new => changed "amount" (fmt_d old) (fmt_d new)
  | CurrencyChanged old new => changed "currency" old new
  | TypeChanged old new => changed "type" old new
  | IntervalChanged old new => changed "interval" old new
  | IntervalCountChanged old new => changed "interval_count" (fmt_d old) (fmt_d new)
  | PriceChanged => "price values changed"
  end.
Definition item_lines (it : PlanItem) : string :=
  "  " ^^ pad 8 (op_upper (it_Op it)) ^^ " " ^^ pad 7 (kind_text (it_Kind it)) ^^ " " ^^ it_Key it ^^ newline ^^
  "           reason: " ^^ reason_text (it_Reason it) ^^ newline.
Definition Plan_String (p : Plan) : string :=
  match pl_Items p with
  | [] => "Sync plan for namespace " ^^ Quote (pl_Namespace p) ^^ ": no changes." ^^ newline
  | items => "Sync plan for namespace " ^^ Quote (pl_Namespace p) ^^ ":" ^^ newline ^^ foldr String.append "" (map item_lines items)
  end.

Definition or_else (s t : string) : string := if String.eqb s "" then t else s.
Definition planItemLabel (it : PlanItem) : string :=
  if negb (String.eqb (it_Key it) "") then it_Key it
  else
    let kind := kind_text (it_Kind it) in
    match it_Kind it with
    | KindProduct =>
        or_else (match it_NewProduct it with Some n => np_Name n | None => "" end)
          (match it_ExistingProduct it with Some e => or_else (xp_Name e) (xp_ID e) | None => kind end)
    | KindPrice =>
        or_else (match it_NewPrice it with Some n => nr_LookupKey n | None => "" end)
          (match it_ExistingPrice it with Some e => ep_LookupKey e | None => kind end)
    | KindMeter =>
        or_else (match it_NewMeter it with Some n => nm_DisplayName n | None => "" end)
          (match it_ExistingMeter it with Some e => xm_ID e | None => kind end)
    end.
Definition FormatHuman (r : DriftReport) : string :=
  if negb (dr_HasDrift r) then ""
  else
    "Catalog drift detected in namespace " ^^ Quote (dr_Namespace r) ^^ " at " ^^ format_rfc3339 (dr_CheckedAt r) ^^ newline ^^
    fmt_d (Z.of_nat (List.length (dr_Items r))) ^^ " item(s) need attention:" ^^ newline ^^
    foldr String.append ""
      (map (fun it => "  - [" ^^ op_text (it_Op it) ^^ "] " ^^ kind_text (it_Kind it) ^^ " " ^^ planItemLabel it ^^ newline) (dr_Items r)).

(** ** The detector *)
Definition detector_interval (interval : Z) : Z := if interval <=? 0 then 15 * 60 * second else interval.

(** What the goroutine is at: the [select], a check with the report still to come, the
    callback of the application, a call of [stop] from within that callback, its end. *)
Inductive phase := Selecting | Checking | Reporting (r : DriftReport) | CallbackStops (r : DriftReport) | Exited.
Record detector := mkDetector {
  de_phase : phase;
  de_stopped : bool;      (** [stopCh] is closed *)
  de_cancelled : bool;    (** [ctx] is done *)
  de_tick : bool;         (** a tick is in the channel, which holds one *)
  de_callback : bool;     (** [onReport] is not nil *)
  de_reported : list DriftReport;
  de_failed : nat;        (** warnings logged *)
  de_returned : nat;      (** calls of [stop] that have returned *)
}.
Definition RunDriftDetector (callback : bool) : detector := mkDetector Selecting false false false callback [] 0 0.
Definition with_phase (p : phase) (d : detector) : detector :=
  mkDetector p (de_stopped d) (de_cancelled d) (de_tick d) (de_callback d) (de_reported d) (de_failed d) (de_returned d).

Inductive dstep : detector -> detector -> Prop :=
| d_tick d : dstep d (mkDetector (de_phase d) (de_stopped d) (de_cancelled d) true (de_callback d) (de_reported d) (de_failed d) (de_returned d))
| d_cancel d : dstep d (mkDetector (de_phase d) (de_stopped d) true (de_tick d) (de_callback d) (de_reported d) (de_failed d) (de_returned d))
(** [stopOnce.Do], by a caller outside the callback *)
| d_stop d : dstep d (mkDetector (de_phase d) true (de_cancelled d) (de_tick d) (de_callback d) (de_reported d) (de_failed d) (de_returned d))
(** [<-done] *)
| d_return d : de_stopped d = true -> de_phase d = Exited ->
    dstep d (mkDetector Exited true (de_cancelled d) (de_tick d) (de_callback d) (de_reported d) (de_failed d) (S (de_returned d)))
(** the [select] takes any case that is ready *)
| d_exit d : de_phase d = Selecting -> de_stopped d = true \/ de_cancelled d = true -> dstep d (with_phase Exited d)
| d_check d : de_phase d = Selecting -> de_tick d = true ->
    dstep d (mkDetector Checking (de_stopped d) (de_cancelled d) false (de_callback d) (de_reported d) (de_failed d) (de_returned d))
| d_failed d : de_phase d = Checking ->
    dstep d (mkDetector Selecting (de_stopped d) (de_cancelled d) (de_tick d) (de_callback d) (de_reported d) (S (de_failed d)) (de_returned d))
| d_checked d r : de_phase d = Checking -> dstep d (with_phase (if de_callback d then Reporting r else Selecting) d)
| d_reported d r : de_phase d = Reporting r ->
    dstep d (mkDetector Selecting (de_stopped d) (de_cancelled d) (de_tick d) (de_callback d) (de_reported d ++ [r]) (de_failed d) (de_returned d))
(** the callback calls [stop], which closes the channel and waits for the goroutine *)
| d_callback_stops d r : de_phase d = Reporting r ->
    dstep d (mkDetector (CallbackStops r) true (de_cancelled d) (de_tick d) (de_callback d) (de_reported d) (de_failed d) (de_returned d)).

(** ** Theorems *)
Definition stop_inv (d : detector) : Prop := (0 < de_returned d)%nat -> de_phase d = Exited.
Lemma stop_inv_step d d' : dstep d d' -> stop_inv d -> stop_inv d'.
Proof. unfold stop_inv. destruct 1; cbn; try done; intros Hi Hr; specialize (Hi Hr); congruence. Qed.
Lemma exited_step d d' : dstep d d' -> de_phase d = Exited ->
  de_phase d' = Exited /\ de_reported d' = de_reported d /\ de_failed d' = de_failed d.
Proof. destruct 1; cbn; intros E; try done; congruence. Qed.
(** After a call of [stop] has returned no check runs and no report is delivered, however
    the goroutine, the ticker and the callers of [stop] interleave. *)
Theorem stopped_is_silent callback d d' :
  rtc dstep (RunDriftDetector callback) d -> (0 < de_returned d)%nat -> rtc dstep d d' ->
  de_phase d' = Exited /\ de_reported d' = de_reported d /\ de_failed d' = de_failed d.
Proof.
  intros Hd Hr Hd'. assert (Hi : stop_inv d).
  { eapply (rtc_ind_r stop_inv (RunDriftDetector callback)); [intros Hz; cbn in Hz; lia|intros; by eapply stop_inv_step|done]. }
  specialize (Hi Hr). clear Hd Hr. induction Hd' as [|d d1 d2 Hs _ IH]; [done|].
  destruct (exited_step _ _ Hs Hi) as (Hp & E1 & E2). destruct (IH Hp) as (? & -> & ->). done.
Qed.
(** Stopping needs no more than the end of the check under way: from any state of the
    goroutine outside a call of [stop] within the callback, [stop] can return. *)
Theorem stop_can_return d :
  (forall r, de_phase d <> CallbackStops r) -> exists d', rtc dstep d d' /\ (de_returned d < de_returned d')%nat.
Proof.
  intros Hp. set (d1 := mkDetector (de_phase d) true (de_cancelled d) (de_tick d) (de_callback d) (de_reported d) (de_failed d) (de_returned d)).
  assert (Hsel : forall e, de_phase e = Selecting -> de_stopped e = true -> exists e', rtc dstep e e' /\ (de_returned e < de_returned e')%nat).
  { intros e He Hs. eexists. split.
    - eapply rtc_l; [apply d_exit; [done|by left]|]. eapply rtc_l; [apply d_return; done|]. apply rtc_refl.
    - cbn. lia. }
  assert (H1 : dstep d d1) by apply d_stop.
  destruct (de_phase d) as [| |r|r|] eqn:E; [..|by destruct (Hp r)|].
  - destruct (Hsel d1) as (e & He & Hr); [done|done|]. exists e. split; [by eapply rtc_l|done].
  - destruct (Hsel (mkDetector Selecting true (de_cancelled d) (de_tick d) (de_callback d) (de_reported d) (S (de_failed d)) (de_returned d)))
      as (e & He & Hr); [done|done|]. exists e. split; [|done]. eapply rtc_l; [exact H1|]. eapply rtc_l; [apply d_failed; done|done].
  - destruct (Hsel (mkDetector Selecting true (de_cancelled d) (de_tick d) (de_callback d) (de_reported d ++ [r]) (de_failed d) (de_returned d)))
      as (e & He & Hr); [done|done|]. exists e. split; [|done]. eapply rtc_l; [exact H1|]. eapply rtc_l; [apply d_reported; done|done].
  - eexists. split; [eapply rtc_l; [exact H1|]; eapply rtc_l; [apply d_return; done|]; apply rtc_refl|]. cbn. lia.
Qed.
(** A callback that calls [stop] waits for itself: from then on no call of [stop] returns,
    and no check runs. *)
Theorem stop_in_callback_deadlocks d d' r :
  de_phase d = CallbackStops r -> rtc dstep d d' ->
  de_phase d' = CallbackStops r /\ de_returned d' = de_returned d /\ de_reported d' = de_reported d.
Proof.
  intros Hp Hd. induction Hd as [|d d1 d2 Hs _ IH]; [done|].
  assert (He : de_phase d1 = CallbackStops r /\ de_returned d1 = de_returned d /\ de_reported d1 = de_reported d).
  { destruct Hs; cbn; try done; congruence. }
  destruct He as (Hp1 & E1 & E2). destruct (IH Hp1) as (? & -> & ->). done.
Qed.
