(* ===== verification/Flags.v ===== *)
(** * Flags: package flag of Go, as the command line uses it: string, boolean and integer
      flags of a [FlagSet] with [ContinueOnError].

    What [Parse] prints on an error goes to the standard error of the process and is left
    out. *)
From Stdlib Require Import DecimalString DecimalN.
From S2P Require Import Prelude.

Inductive flag_kind := FBool | FString | FInt64.
Abbreviation flag_set := (list (string * flag_kind)).
(** The values of the flags; a flag that is not set has none and its default counts. *)
Record flag_values := mkFlags { fl_bool : gmap string bool; fl_string : smap; fl_int : gmap string Z }.
Definition no_flags : flag_values := mkFlags ∅ ∅ ∅.
Definition set_bool (n : string) (b : bool) (v : flag_values) : flag_values := mkFlags (<[n := b]> (fl_bool v)) (fl_string v) (fl_int v).
Definition set_string (n s : string) (v : flag_values) : flag_values := mkFlags (fl_bool v) (<[n := s]> (fl_string v)) (fl_int v).
Definition set_int (n : string) (z : Z) (v : flag_values) : flag_values := mkFlags (fl_bool v) (fl_string v) (<[n := z]> (fl_int v)).
Definition flag_on (n : string) (def : bool) (v : flag_values) : bool := default def (fl_bool v !! n).
Definition flag_value (n def : string) (v : flag_values) : string := default def (fl_string v !! n).
Definition flag_int (n : string) (def : Z) (v : flag_values) : Z := default def (fl_int v !! n).

Inductive flag_error := BadSyntax (arg : string) | ErrHelp | NotDefined (name : string) | BadBool (value name : string) | BadInt (value name : string) | NeedsArgument (name : string).

(** [strconv.ParseBool]. *)
Definition ParseBool (s : string) : option bool :=
  if existsb (String.eqb s) ["1"; "t"; "T"; "TRUE"; "true"; "True"] then Some true
  else if existsb (String.eqb s) ["0"; "f"; "F"; "FALSE"; "false"; "False"] then Some false
  else None.
(** [strconv.ParseInt] with base 0 and 64 bits, which [Int64] flags and, on a 64-bit
    machine, [Int] flags are read with. *)
Definition lower_byte (c : ascii) : Z := Z.lor (Z.of_N (N_of_ascii c)) 32.
Definition digit_of (c : ascii) : option Z :=
  let n := Z.of_N (N_of_ascii c) in
  if (48 <=? n) && (n <=? 57) then Some (n - 48)
  else if (97 <=? lower_byte c) && (lower_byte c <=? 122) then Some (lower_byte c - 87)
  else None.
Definition base_letter (c : ascii) : option Z :=
  if lower_byte c =? 98 then Some 2 else if lower_byte c =? 111 then Some 8 else if lower_byte c =? 120 then Some 16 else None.
(** The base of a number without its sign, and its digits: a letter after the zero counts
    when a digit follows it. *)
Definition base_prefix (s : string) : Z * string :=
  match s with
  | String "0" rest =>
      match rest with
      | String c (String _ _ as digits) => match base_letter c with Some base => (base, digits) | None => (8, rest) end
      | _ => (8, rest)
      end
  | _ => (10, s)
  end.
(** The digits, and whether an underscore was passed; [None] is a syntax or range error. *)
Fixpoint base_digits (base n : Z) (underscores : bool) (s : string) : option (Z * bool) :=
  match s with
  | EmptyString => Some (n, underscores)
  | String c rest =>
      if Ascii.eqb c "_" then base_digits base n true rest
      else match digit_of c with
           | None => None
           | Some d => if base <=? d then None
                       else if 2 ^ 64 <=? n * base + d then None
                       else base_digits base (n * base + d) underscores rest
           end
  end.
(** [underscoreOK]: an underscore stands between digits, the prefix counting as one. [prev]
    is the class of the byte before. *)
Inductive byte_class := AtStart | AfterDigit | AfterUnderscore | AfterOther.
Fixpoint underscores_between (hex : bool) (prev : byte_class) (s : string) : bool :=
  match s with
  | EmptyString => match prev with AfterUnderscore => false | _ => true end
  | String c rest =>
      let n := Z.of_N (N_of_ascii c) in
      if (48 <=? n) && (n <=? 57) || hex && (97 <=? lower_byte c) && (lower_byte c <=? 102) then underscores_between hex AfterDigit rest
      else if Ascii.eqb c "_" then
        match prev with AfterDigit => underscores_between hex AfterUnderscore rest | _ => false end
      else match prev with AfterUnderscore => false | _ => underscores_between hex AfterOther rest end
  end.
Definition underscoreOK (s : string) : bool :=
  match s with
  | String "0" (String c rest) =>
      match base_letter c with
      | Some base => underscores_between (base =? 16) AfterDigit rest
      | None => underscores_between false AtStart s
      end
  | _ => underscores_between false AtStart s
  end.
Definition ParseUint (s : string) : option Z :=
  if String.eqb s "" then None
  else let '(base, digits) := base_prefix s in
       match base_digits base 0 false digits with
       | Some (n, underscores) => if underscores && negb (underscoreOK s) then None else Some n
       | None => None
       end.
Definition ParseInt (s : string) : option Z :=
  match s with
  | String "-" s' => match ParseUint s' with Some n => if 2 ^ 63 <? n then None else Some (- n) | None => None end
  | String "+" s' => match ParseUint s' with Some n => if 2 ^ 63 <=? n then None else Some n | None => None end
  | _ => match ParseUint s with Some n => if 2 ^ 63 <=? n then None else Some n | None => None end
  end.
Definition lookup_flag (fs : flag_set) (name : string) : option flag_kind :=
  snd <$> List.find (fun f => String.eqb (fst f) name) fs.

(** What an argument is: not a flag, the terminator, malformed, or a flag with its name
    and the value after the first [=], if there is one. *)
Inductive arg_shape := Positional | Terminator | Malformed | Flag (name : string) (value : option string).
(** The name up to the first [=] that is not its first byte. *)
Fixpoint split_equals (s : string) : string * option string :=
  match s with
  | EmptyString => ("", None)
  | String c rest =>
      if Ascii.eqb c "=" then ("", Some rest)
      else let '(n, v) := split_equals rest in (String c n, v)
  end.
Definition shape_name (name : string) : arg_shape :=
  match name with
  | EmptyString => Malformed
  | String c rest =>
      if Ascii.eqb c "-" || Ascii.eqb c "=" then Malformed
      else let '(n, v) := split_equals rest in Flag (String c n) v
  end.
Definition shape (s : string) : arg_shape :=
  match s with
  | String "-" (String "-" "") => Terminator
  | String "-" (String "-" name) => shape_name name
  | String "-" (String c name) => shape_name (String c name)
  | _ => Positional
  end.

(** [Parse]: the values and the arguments that are left. *)
Fixpoint Parse (fs : flag_set) (v : flag_values) (args : list string) : res flag_error (flag_values * list string) :=
  match args with
  | [] => Ok (v, [])
  | arg :: rest =>
      match shape arg with
      | Positional => Ok (v, args)
      | Terminator => Ok (v, rest)
      | Malformed => Err (BadSyntax arg)
      | Flag name value =>
          match lookup_flag fs name with
          | None => if String.eqb name "help" || String.eqb name "h" then Err ErrHelp else Err (NotDefined name)
          | Some FBool =>
              match value with
              | None => Parse fs (set_bool name true v) rest
              | Some s => match ParseBool s with
                          | Some b => Parse fs (set_bool name b v) rest
                          | None => Err (BadBool s name)
                          end
              end
          | Some FString =>
              match value, rest with
              | Some s, _ => Parse fs (set_string name s v) rest
              | None, s :: rest => Parse fs (set_string name s v) rest
              | None, [] => Err (NeedsArgument name)
              end
          | Some FInt64 =>
              match value, rest with
              | Some s, _ => match ParseInt s with Some z => Parse fs (set_int name z v) rest | None => Err (BadInt s name) end
              | None, s :: rest => match ParseInt s with Some z => Parse fs (set_int name z v) rest | None => Err (BadInt s name) end
              | None, [] => Err (NeedsArgument name)
              end
          end
      end
  end.

(** ** Facts *)
(** A name a flag can have: not empty, without [=], not starting with a dash. *)
Definition flag_name (n : string) : bool :=
  match n with String c rest => negb (Ascii.eqb c "-") && negb (Ascii.eqb c "=") && negb (string_has "=" rest) | EmptyString => false end.
Lemma split_equals_app n v : string_has "=" n = false -> split_equals (n ^^ String "=" v) = (n, Some v).
Proof.
  induction n as [|c n IH]; [done|]. cbn [string_has]. intros Hn. apply orb_false_iff in Hn as [Hc Hn]. cbn. by rewrite Hc, IH.
Qed.
Lemma shape_assignment n v : flag_name n = true -> shape ("--" ^^ n ^^ "=" ^^ v) = Flag n (Some v).
Proof.
  destruct n as [|c n]; [done|]. cbn. intros Hn. apply andb_true_iff in Hn as [Hn H3]. apply andb_true_iff in Hn as [H1 H2].
  apply negb_true_iff in H1, H2, H3. rewrite !append_assoc. cbn. rewrite H1, H2. cbn. by rewrite split_equals_app.
Qed.
(** Flags that are written as assignments set what they say, the last one counting, and
    stop at the first argument that is none. *)
Theorem assignments_parsed fs v l rest :
  Forall (fun nv => flag_name (fst nv) = true /\ lookup_flag fs (fst nv) = Some FString) l ->
  Parse fs v (map (fun nv => "--" ^^ fst nv ^^ "=" ^^ snd nv) l ++ "--" :: rest) =
    Ok (foldl (fun v nv => set_string (fst nv) (snd nv) v) v l, rest).
Proof.
  revert v. induction l as [|[n s] l IH]; intros v Hl; cbn [map app foldl]; [done|]. apply Forall_cons in Hl as [[Hn Hk] Hl].
  cbn [Parse]. rewrite shape_assignment by done. cbn [fst snd] in *. rewrite Hk. by apply IH.
Qed.

(** ** Integers *)
Lemma base_digits_bound base n u s m u' :
  0 <= n < 2 ^ 64 -> 2 <= base -> base_digits base n u s = Some (m, u') -> 0 <= m < 2 ^ 64.
Proof.
  intros Hn Hb. revert n u Hn. induction s as [|c s IH]; intros n u Hn; cbn [base_digits]; [intros [= <- <-]; done|].
  destruct (Ascii.eqb c "_"); [by apply IH|]. destruct (digit_of c) as [d|] eqn:Ed; [|done].
  destruct (base <=? d); [done|]. destruct (2 ^ 64 <=? n * base + d) eqn:Eo; [done|]. apply Z.leb_gt in Eo.
  apply IH. unfold digit_of in Ed. repeat case_match; simplify_eq; nia.
Qed.
(** Whatever the text, an integer flag is an [int64]. *)
Theorem ParseInt_bound s z : ParseInt s = Some z -> - 2 ^ 63 <= z < 2 ^ 63.
Proof.
  assert (Hu : forall t n, ParseUint t = Some n -> 0 <= n < 2 ^ 64).
  { intros t n. unfold ParseUint. destruct (String.eqb t ""); [done|]. destruct (base_prefix t) as [base digits] eqn:Eb.
    destruct (base_digits base 0 false digits) as [[m u]|] eqn:Ed; [|done]. destruct (u && _); [done|]. intros [= <-].
    eapply base_digits_bound; [| |exact Ed]; [lia|]. unfold base_prefix, base_letter in Eb. repeat case_match; simplify_eq; lia. }
  unfold ParseInt. repeat case_match; intros [=]; subst;
    repeat match goal with H : ParseUint _ = Some _ |- _ => apply Hu in H end; lia.
Qed.
(** Numbers as they are written: decimal, with a sign or with a prefix for the base, with
    underscores between digits; a leading zero makes the number octal. *)
Example ParseInt_examples :
  map ParseInt ["0"; "30"; "-5"; "+7"; "0x1F"; "0b101"; "0o17"; "017"; "1_000"; "0x_1"] =
    [Some 0; Some 30; Some (-5); Some 7; Some 31; Some 5; Some 15; Some 15; Some 1000; Some 1] /\
  map ParseInt [""; "-"; "5x"; "089"; "1__0"; "_1"; "1_"; "0x"; "9223372036854775808"; "1.5"] = repeat None 10 /\
  ParseInt "-9223372036854775808" = Some (- 2 ^ 63).
Proof. vm_compute. done. Qed.

(** ** Decimal numbers *)
Lemma of_uint_acc_le u acc : (acc <= Pos.of_uint_acc u acc)%positive.
Proof. revert acc. induction u as [|u IH|u IH|u IH|u IH|u IH|u IH|u IH|u IH|u IH|u IH]; intros acc; cbn [Pos.of_uint_acc]; [lia|..]; (etransitivity; [|apply IH]; lia). Qed.
Lemma base_digits_step c d n us s :
  Ascii.eqb c "_" = false -> digit_of c = Some d -> d < 10 -> n * 10 + d < 2 ^ 64 ->
  base_digits 10 n us (String c s) = base_digits 10 (n * 10 + d) us s.
Proof.
  intros Hc Hd H10 Hb. cbn [base_digits]. rewrite Hc, Hd. by rewrite (proj2 (Z.leb_gt 10 d)), (proj2 (Z.leb_gt (2 ^ 64) _)).
Qed.
Lemma base_digits_acc u acc us :
  Z.pos (Pos.of_uint_acc u acc) < 2 ^ 64 ->
  base_digits 10 (Z.pos acc) us (NilEmpty.string_of_uint u) = Some (Z.pos (Pos.of_uint_acc u acc), us).
Proof.
  revert acc. induction u as [|u IH|u IH|u IH|u IH|u IH|u IH|u IH|u IH|u IH|u IH]; intros acc; cbn [Pos.of_uint_acc NilEmpty.string_of_uint]; [done|..];
    match goal with |- context [Pos.of_uint_acc u ?a] => intros Hb; pose proof (of_uint_acc_le u a) end;
    (erewrite base_digits_step; [|done|cbv; reflexivity|lia|lia]); rewrite <- IH by done; f_equal; lia.
Qed.
Lemma base_digits_dec n us : Z.of_N n < 2 ^ 64 -> base_digits 10 0 us (dec_digits n) = Some (Z.of_N n, us).
Proof.
  intros Hn. pose proof (dec_digits_head n) as Hh. destruct (dec_digits_nonnil n) as [E (c0 & s0 & E0)].
  pose proof (DecimalN.Unsigned.of_to n) as Hv.
  destruct Hh as [Hz|(c & s & Hs & Hc & _)].
  - rewrite Hz. pose proof (parse_dec_digits n) as P. rewrite Hz in P. injection P as <-. done.
  - rewrite E in *. destruct (N.to_uint n) as [|u|u|u|u|u|u|u|u|u|u]; cbn in Hs, Hv; try done; [by injection Hs as <- _|..];
    subst n; cbn [NilEmpty.string_of_uint] in *; (erewrite base_digits_step; [|done|cbv; reflexivity|lia|lia]);
    cbn [Z.mul Z.add]; by apply base_digits_acc.
Qed.
Lemma ParseUint_dec n : Z.of_N n < 2 ^ 64 -> ParseUint (dec_digits n) = Some (Z.of_N n).
Proof.
  intros Hn. unfold ParseUint. destruct (dec_digits_head n) as [Hz|(c & s & Hs & Hc & _)].
  - rewrite Hz. pose proof (parse_dec_digits n) as P. rewrite Hz in P. by injection P as <-.
  - assert (base_prefix (dec_digits n) = (10, dec_digits n)) as ->.
    { rewrite Hs. unfold base_prefix. repeat case_match; done. }
    rewrite base_digits_dec by done. by rewrite Hs.
Qed.
(** Every [int64] is read back from its decimal text. *)
Theorem ParseInt_fmt_d z : in_int64 z -> ParseInt (fmt_d z) = Some z.
Proof.
  unfold in_int64, int64_min, int64_max. intros Hz. unfold fmt_d. destruct (z <? 0) eqn:E; reflect_bools.
  - change ("-" ^^ ?s) with (String "-" s). cbn [ParseInt]. rewrite ParseUint_dec by lia. rewrite Z2N.id by lia.
    rewrite (proj2 (Z.ltb_ge (2 ^ 63) _)) by lia. f_equal. lia.
  - assert (ParseInt (dec_digits (Z.to_N z)) = match ParseUint (dec_digits (Z.to_N z)) with Some n => if 2 ^ 63 <=? n then None else Some n | None => None end) as ->.
    { destruct (dec_digits_head (Z.to_N z)) as [->|(c & s & -> & _ & Hm & Hp)]; [done|].
      unfold ParseInt. repeat case_match; done. }
    rewrite ParseUint_dec, Z2N.id by lia. by rewrite (proj2 (Z.leb_gt (2 ^ 63) _)) by lia.
Qed.
