(* ===== verification/Cli.v ===== *)
(** * Cli: the command line (src/cli/cli.go): dispatch, the catalog, schedules, checkout.

    A command is a function of its arguments and of the services it talks to; its result
    is the exit code and what it prints. The texts of errors of other components are
    parameters. CliServices.v has the other commands. *)
From S2P Require Import Prelude Events CatalogSpec CatalogCache CatalogSync Drift Flags StripeApi StripeCalls SubscriptionOps Checkout.

Record cli_out := mkOut { co_code : Z; co_stdout : string; co_stderr : string }.
Definition line (s : string) : string := s ^^ newline.
Definition exits (code : Z) : cli_out := mkOut code "" "".
Definition complains (code : Z) (msg : string) : cli_out := mkOut code "" (line msg).

(** ** Dispatch *)
Inductive cli_command :=
| CmdDiff (args : list string) | CmdSync (args : list string) | CmdVerifyAccount | CmdCheckout (args : list string)
| CmdPortal (args : list string) | CmdDriftCheck (args : list string)
| CmdSubsSchedule (args : list string) | CmdSubsSeats (args : list string)
| CmdWebhookReplay (args : list string) | CmdInvoiceCreate (args : list string) | CmdCouponPromo (args : list string)
| CmdGDPRExport (args : list string) | CmdGDPRForget (args : list string)
| CmdTaxID (sub : string) (args : list string) | CmdCustomerImport (args : list string) | CmdCompletion (args : list string)
| CmdHelp | CmdUnknown (cmd : string) | CmdUsage (text : string) | CmdUnknownSub (family cmd : string).
(** A family of subcommands: none given, one of them, another. *)
Definition family (name usage : string) (subs : list (string * (list string -> cli_command))) (args : list string) : cli_command :=
  match args with
  | [] => CmdUsage usage
  | sub :: rest => match List.find (fun s => String.eqb (fst s) sub) subs with
                   | Some (_, f) => f rest
                   | None => CmdUnknownSub name sub
                   end
  end.
Definition runSubs : list string -> cli_command :=
  family "subs" "usage: subs <schedule|seats> [args]" [("schedule", CmdSubsSchedule); ("seats", CmdSubsSeats)].
Definition runWebhook : list string -> cli_command :=
  family "webhook" "usage: webhook replay <event-id>" [("replay", CmdWebhookReplay)].
Definition runInvoice : list string -> cli_command :=
  family "invoice" "usage: invoice create --customer cus_… --amount N --currency eur [--description … --finalize --send]"
    [("create", CmdInvoiceCreate)].
Definition runCoupon : list string -> cli_command :=
  family "coupon" "usage: coupon promo --coupon-key SAVE20 --code WELCOME [--max N]" [("promo", CmdCouponPromo)].
Definition runGDPR : list string -> cli_command :=
  family "gdpr" "usage: gdpr export <subject> | gdpr forget <subject>" [("export", CmdGDPRExport); ("forget", CmdGDPRForget)].
Definition runCustomer : list string -> cli_command :=
  family "customer" "usage: customer import --subject … --stripe-id cus_…" [("import", CmdCustomerImport)].
(** [Run]. *)
Definition dispatch (args : list string) : cli_command :=
  let '(cmd, rest) := match args with [] => ("diff", []) | cmd :: rest => (cmd, rest) end in
  if String.eqb cmd "diff" then CmdDiff rest
  else if String.eqb cmd "sync" then CmdSync rest
  else if String.eqb cmd "verify-account" then CmdVerifyAccount
  else if String.eqb cmd "checkout" then CmdCheckout rest
  else if String.eqb cmd "portal" then CmdPortal rest
  else if String.eqb cmd "drift-check" then CmdDriftCheck rest
  else if String.eqb cmd "subs" then runSubs rest
  else if String.eqb cmd "webhook" then runWebhook rest
  else if String.eqb cmd "invoice" then runInvoice rest
  else if String.eqb cmd "coupon" then runCoupon rest
  else if String.eqb cmd "gdpr" then runGDPR rest
  else if String.eqb cmd "tax-id" then
    match rest with [] => CmdUsage "usage: tax-id add|list|remove …" | sub :: rest => CmdTaxID sub rest end
  else if String.eqb cmd "customer" then runCustomer rest
  else if String.eqb cmd "completion" then CmdCompletion rest
  else if existsb (String.eqb cmd) ["help"; "-h"; "--help"] then CmdHelp
  else CmdUnknown cmd.
(** The results that need no service. *)
Definition runCompletion (bash zsh : string) (args : list string) : cli_out :=
  let shell := match args with [] => "bash" | s :: _ => s end in
  if String.eqb shell "bash" then mkOut 0 bash ""
  else if String.eqb shell "zsh" then mkOut 0 zsh ""
  else complains 2 ("unknown shell " ^^ Quote shell ^^ " (supported: bash, zsh)").
Definition no_service (help bash zsh : string) (c : cli_command) : option cli_out :=
  match c with
  | CmdHelp => Some (mkOut 0 "" help)
  | CmdUnknown cmd => Some (mkOut 2 "" (line ("unknown subcommand " ^^ Quote cmd) ^^ newline ^^ help))
  | CmdUsage text => Some (complains 2 text)
  | CmdUnknownSub name cmd => Some (complains 2 ("unknown " ^^ name ^^ " subcommand " ^^ Quote cmd))
  | CmdCompletion args => Some (runCompletion bash zsh args)
  | _ => None
  end.

(** ** The catalog *)
Definition apply_text (e : apply_error) : string := "catalog.Apply: " ^^ ae_step e ^^ " " ^^ Quote (ae_Key e) ^^ ": " ^^ ae_err e.
Definition drift_text (e : drift_error) : string :=
  match e with
  | ListProducts msg => "catalog.CheckDrift: list products: " ^^ msg
  | ListMeters msg => "catalog.CheckDrift: list meters: " ^^ msg
  | DiffPanic => "panic"
  end.

Section catalog.
Context `{GoRuntime} {B : Type} `{Backend B} (secretKey : string) (spec : Spec).
(** [None] is a panic of the comparison. *)
Definition with_key (b : B) (k : option (cli_out * B)) : option (cli_out * B) :=
  if String.eqb secretKey "" then Some (complains 1 "STRIPE_SECRET_KEY is not set", b) else k.
(** The flags are parsed and the result is ignored. *)
Definition runDiff (args : list string) (b : B) : option (cli_out * B) :=
  with_key b
    match bk_ListProductsByNamespace (Namespace spec) b with
    | Err e => Some (complains 1 ("list products: " ^^ e), b)
    | Ok current => plan ← Diff spec current; Some (mkOut 0 (Plan_String plan) "", b)
    end.
Definition sync_flags : flag_set := [("apply", FBool)].
Definition runSync (args : list string) (b : B) : option (cli_out * B) :=
  with_key b
    match Parse sync_flags no_flags args with
    | Err _ => Some (exits 2, b)
    | Ok (v, _) =>
        match bk_ListProductsByNamespace (Namespace spec) b with
        | Err e => Some (complains 1 ("list products: " ^^ e), b)
        | Ok current =>
            plan ← Diff spec current;
            if negb (flag_on "apply" false v) then
              Some (mkOut 0 (Plan_String plan ^^ line "(dry-run; pass --apply to execute)") "", b)
            else if Empty plan then Some (mkOut 0 (Plan_String plan) "", b)
            else match Apply plan b with
                 | (Some e, b') => Some (mkOut 1 (Plan_String plan) (line ("apply failed: " ^^ apply_text e)), b')
                 | (None, b') => Some (mkOut 0 (Plan_String plan ^^ line "applied.") "", b')
                 end
        end
    end.

Definition drift_flags : flag_set := [("no-fail", FBool); ("apply", FBool)].
(** The second check is at another time. *)
Definition runDriftCheck (now now' : Z) (args : list string) (b : B) : cli_out * B :=
  if String.eqb secretKey "" then (complains 1 "STRIPE_SECRET_KEY is not set", b)
  else match Parse drift_flags no_flags args with
  | Err _ => (exits 2, b)
  | Ok (v, _) =>
      match CheckDrift now spec b with
      | Err e => (complains 1 ("drift-check: " ^^ drift_text e), b)
      | Ok rep =>
          if negb (dr_HasDrift rep) then (mkOut 0 (line "no drift") "", b)
          else if flag_on "apply" false v then
            match CheckDrift now' spec b with
            | Err e => (mkOut 1 (FormatHuman rep) (line ("drift-check: re-check before apply: " ^^ drift_text e)), b)
            | Ok fresh =>
                match report_Apply fresh b with
                | (Some e, b') => (mkOut 1 (FormatHuman rep) (line ("drift-check: apply: " ^^ apply_text e)), b')
                | (None, b') => (mkOut 0 (FormatHuman rep ^^ line "drift applied.") "", b')
                end
            end
          else (mkOut (if flag_on "no-fail" false v then 0 else 1) (FormatHuman rep) "", b)
      end
  end.
End catalog.

(** ** Schedules *)
Fixpoint splitOn (sep : ascii) (s : string) : list string :=
  match s with
  | EmptyString => [""]
  | String c rest =>
      if Ascii.eqb c sep then "" :: splitOn sep rest
      else match splitOn sep rest with
           | [] => [String c ""]
           | part :: parts => String c part :: parts
           end
  end.
Definition split_or_nil (sep : ascii) (s : string) : list string := if String.eqb s "" then [] else splitOn sep s.
Definition splitCommas (s : string) : list string := split_or_nil "," s.
Definition splitColons (s : string) : list string := split_or_nil ":" s.
Fixpoint atoi_from (n : Z) (s : string) : option Z :=
  match s with
  | EmptyString => Some n
  | String c rest =>
      let d := Z.of_N (N_of_ascii c) - 48 in
      if (d <? 0) || (9 <? d) then None else atoi_from (wrap64 (n * 10 + d)) rest
  end.
Definition atoi (s : string) : option Z := atoi_from 0 s.
Definition parse_phase (i : Z) (raw : string) : res string SchedulePhase :=
  match splitColons raw with
  | [] | "" :: _ => Err ("phase[" ^^ fmt_d i ^^ "]: empty price key")
  | key :: more =>
      let iterations := default "" (head more) in
      match (if String.eqb iterations "" then Some 0 else atoi iterations) with
      | None => Err ("phase[" ^^ fmt_d i ^^ "]: bad iterations " ^^ Quote iterations ^^ ": not a number")
      | Some n => Ok (mkPhase key 0 n (default "" (head (tail more))))
      end
  end.
Fixpoint parse_phases (i : Z) (raws : list string) : res string (list SchedulePhase) :=
  match raws with
  | [] => Ok []
  | raw :: rest =>
      match parse_phase i raw with
      | Err e => Err e
      | Ok ph => match parse_phases (i + 1) rest with Err e => Err e | Ok phs => Ok (ph :: phs) end
      end
  end.
Definition parseSchedulePhases (arg : string) : res string (list SchedulePhase) :=
  if String.eqb arg "" then Err "empty phase list" else parse_phases 0 (splitCommas arg).

Definition schedule_flags : flag_set := [("customer", FString); ("phases", FString); ("end-behavior", FString)].
Section schedule.
Context `{GoRuntime} (list_keys : list string -> res string (list ResolvedPrice)) (warm_text : warm_error -> string)
        (sub_text : sub_error -> string).
(** [create] is the backend: the id of the schedule, [None] for the nil a backend may return. *)
Context {B : Type} (create : ScheduleBackendInput -> B -> res string (option string) * B).
Definition runSubsSchedule (secretKey : string) (spec : Spec) (args : list string) (b : B) : cli_out * B :=
  if String.eqb secretKey "" then (complains 1 "STRIPE_SECRET_KEY is not set", b)
  else match Parse schedule_flags no_flags args with
  | Err _ => (exits 2, b)
  | Ok (v, _) =>
      let customer := flag_value "customer" "" v in
      let phasesArg := flag_value "phases" "" v in
      if String.eqb customer "" || String.eqb phasesArg "" then
        (complains 2 "usage: subs schedule --customer cus_… --phases 'pro.monthly_eur:3:SAVE20,pro.monthly_eur'", b)
      else match Warm list_keys spec NewCache with
      | (Some e, _) => (complains 1 ("warm cache: " ^^ warm_text e), b)
      | (None, cache) =>
          match parseSchedulePhases phasesArg with
          | Err e => (complains 2 ("bad --phases: " ^^ e), b)
          | Ok phases =>
              match CreateSchedule (New (Some spec) (Some cache))
                      (mkScheduleInput customer phases (flag_value "end-behavior" "release" v) ∅ time_zero) with
              | Calls (CallCreateSchedule input) =>
                  match create input b with
                  | (Err e, b') => (complains 1 ("create schedule: " ^^ sub_text (SubscriptionOps.ErrBackend e)), b')
                  | (Ok None, b') => (complains 1 "create schedule: backend returned nil schedule", b')
                  | (Ok (Some id), b') => (mkOut 0 (line ("schedule: " ^^ id)) "", b')
                  end
              | Fails e => (complains 1 ("create schedule: " ^^ sub_text e), b)
              | _ => (exits 0, b)
              end
          end
      end
  end.
End schedule.

(** ** Checkout and the portal *)
Section checkout.
Context `{GoRuntime} (list_keys : list string -> res string (list ResolvedPrice)) (warm_text : warm_error -> string)
        (checkout_text : checkout_error -> string).
Context {B : Type} `{CheckoutBackend B}.
Definition checkout_flags : flag_set :=
  [("subject", FString); ("success", FString); ("cancel", FString); ("promo", FString); ("embed", FBool); ("return", FString)].
Definition checkout_input (v : flag_values) (keys : list string) : CheckoutInput :=
  let embed := flag_on "embed" false v in
  mkCheckoutInput (flag_value "subject" "cli_demo" v) "" "" (map (fun k => mkLineItem k 0 None) keys)
    (if embed then "" else flag_value "success" "https://example.com/success" v)
    (if embed then "" else flag_value "cancel" "https://example.com/cancel" v)
    (flag_value "promo" "" v) "" ∅ [] (if embed then UIModeEmbedded else "")
    (if embed then flag_value "return" "https://example.com/return?cs={CHECKOUT_SESSION_ID}" v else "")
    (mkSessionDefaults None None "" "" "" None None) 0 "".
Definition runCheckout (secretKey : string) (spec : Spec) (args : list string) (b : B) : cli_out * B :=
  if String.eqb secretKey "" then (complains 1 "STRIPE_SECRET_KEY is not set", b)
  else match Parse checkout_flags no_flags args with
  | Err _ => (exits 2, b)
  | Ok (_, []) =>
      (mkOut 2 "" (line "usage: checkout [flags] <price_key> [<price_key>...]" ^^ line "example: checkout pro_plan.monthly_eur"), b)
  | Ok (v, keys) =>
      match Warm list_keys spec NewCache with
      | (Some e, _) => (complains 1 ("warm cache: " ^^ warm_text e), b)
      | (None, cache) =>
          match CreateSession (Namespace spec) spec (Lookup cache) (checkout_input v keys) (NewMemoryCustomerRepo, b) with
          | (Err e, (_, b')) => (complains 1 ("create checkout: " ^^ checkout_text e), b')
          | (Ok sess, (repo, b')) =>
              (mkOut 0
                 (line ("session:  " ^^ cs_ID sess) ^^
                  (if flag_on "embed" false v then
                     line ("client_secret: " ^^ cs_ClientSecret sess) ^^
                     line "Pass client_secret to Stripe.js initEmbeddedCheckout({clientSecret}) in your frontend."
                   else
                     line ("url:      " ^^ cs_URL sess) ^^
                     line "Open the URL in a browser; complete payment with test card 4242 4242 4242 4242 (any future expiry, any CVC).") ^^
                  match mc_Get (flag_value "subject" "cli_demo" v) repo with
                  | Some id => line ("customer: " ^^ id ^^ " (pass to `portal --customer ...`)")
                  | None => ""
                  end) "", b')
          end
      end
  end.

Definition portal_flags : flag_set := [("customer", FString); ("return", FString)].
Definition runPortal (secretKey : string) (args : list string) (b : B) : cli_out * B :=
  if String.eqb secretKey "" then (complains 1 "STRIPE_SECRET_KEY is not set", b)
  else match Parse portal_flags no_flags args with
  | Err _ => (exits 2, b)
  | Ok (v, _) =>
      let customerID := flag_value "customer" "" v in
      if String.eqb customerID "" then
        (mkOut 2 "" (line "missing --customer cus_…" ^^
           line "(the demo CLI doesn't persist subject↔customer across runs; pass the cus_ id directly from your dashboard or from a prior `checkout` run's logs)"), b)
      else
        let repo := mc_Upsert "cli_demo" customerID NewMemoryCustomerRepo in
        match CreatePortalSession (mkPortalInput "cli_demo" (flag_value "return" "https://example.com/billing" v) None) (repo, b) with
        | (Err e, (_, b')) => (complains 1 ("create portal: " ^^ checkout_text e), b')
        | (Ok sess, (_, b')) =>
            (mkOut 0 (line ("session: " ^^ ps_ID sess) ^^ line ("url:     " ^^ ps_URL sess) ^^
               line "Open the URL in a browser; the customer can manage their subscriptions, payment methods, and invoices.") "", b')
        end
  end.
End checkout.
