(* ===== verification/CliServices.v ===== *)
(** * CliServices: the commands on subscriptions, invoices, codes, logged events and
      customers (src/cli/cli.go, customers_helpers.go).

    The seats, invoice, coupon, verify-account, replay, gdpr, tax-id and customer commands
    over the components they call. [get_items] and [Accounts_Retrieve] are calls of
    stripe-go. The command line has no table of customers: it asks Stripe's search, a
    read of stripe-go that yields customer ids and the error that ends it, if any. Each
    command resolves its customer once, before its other calls, so that the repository can
    hold the state of Stripe as the command finds it. *)
From S2P Require Import Prelude Events CatalogSpec CatalogCache Drift Flags StripeApi Credits Subscriptions Checkout Customers StripeCalls SubscriptionOps InvoiceNumbers Invoices StripeInvoices Coupons Webhooks WebhookSource Cli.

(** ** Seats *)
Section seats.
Context `{GoRuntime} (list_keys : list string -> res string (list ResolvedPrice)) (warm_text : warm_error -> string)
        (sub_text : sub_error -> string).
Context {B : Type} (get_items : B -> string -> res string (list SubscriptionItem))
        (update_items : string -> list ItemChange -> UpdateOptions -> B -> option string * B).
Definition seats_flags : flag_set :=
  [("action", FString); ("subject", FString); ("sub", FString); ("price", FString); ("n", FInt64); ("prorate", FBool)].
(** The backend call of a seat operation, what is printed when it has worked. *)
Definition seats_done (label done_ : string) (o : outcome) (b : B) : cli_out * B :=
  match o with
  | Fails e => (complains 1 (label ^^ sub_text e), b)
  | Calls (CallUpdateItems id items opts) =>
      match update_items id items opts b with
      | (Some e, b') => (complains 1 (label ^^ sub_text (SubscriptionOps.ErrBackend e)), b')
      | (None, b') => (mkOut 0 (line done_) "", b')
      end
  | _ => (mkOut 0 (line done_) "", b)
  end.
(** The mirror is a fresh memory repository. *)
Definition runSubsSeats (secretKey : string) (spec : Spec) (args : list string) (b : B) : cli_out * B :=
  if String.eqb secretKey "" then (complains 1 "STRIPE_SECRET_KEY is not set", b)
  else match Parse seats_flags no_flags args with
  | Err _ => (exits 2, b)
  | Ok (v, _) =>
      let action := flag_value "action" "get" v in
      let subject := flag_value "subject" "cli_demo" v in
      let subID := flag_value "sub" "" v in
      let priceKey := flag_value "price" "" v in
      let n := flag_int "n" 0 v in
      let prorate := flag_on "prorate" true v in
      if String.eqb subID "" || String.eqb priceKey "" then
        (complains 2 "usage: subs seats --sub sub_… --price pro.per_seat_eur --action {get|set|add} [--n N]", b)
      else match Warm list_keys spec NewCache with
      | (Some e, _) => (complains 1 ("warm cache: " ^^ warm_text e), b)
      | (None, cache) =>
          let o := New (Some spec) (Some cache) in
          if String.eqb action "get" then
            match SeatCount (get_items b) o subject subID priceKey MemSubs.mem_NewMemoryRepo with
            | Err e => (complains 1 ("seats get: " ^^ sub_text e), b)
            | Ok count => (mkOut 0 (line ("seats: " ^^ fmt_d count)) "", b)
            end
          else if String.eqb action "set" then
            if n <=? 0 then (complains 2 "--n must be > 0 for set", b)
            else seats_done "seats set: " ("set seats to " ^^ fmt_d n)
                   (SetSeats (get_items b) o subject subID priceKey n prorate MemSubs.mem_NewMemoryRepo) b
          else if String.eqb action "add" then
            seats_done "seats add: " ("added " ^^ fmt_d n ^^ " seats")
              (AddSeats (get_items b) o subject subID priceKey n prorate MemSubs.mem_NewMemoryRepo) b
          else (complains 2 ("unknown --action " ^^ Quote action), b)
      end
  end.
End seats.

(** ** Invoices *)
Section invoices.
Context (invoice_text : invoice_error -> string) {B : Type} `{InvoiceBackend B}.
Definition invoice_flags : flag_set :=
  [("customer", FString); ("amount", FInt64); ("currency", FString); ("description", FString); ("due", FInt64);
   ("finalize", FBool); ("send", FBool)].
Definition hour : Z := 3600 * second.
(** [time.Duration(days) * 24 * time.Hour]. *)
Definition due_duration (days : Z) : Z := wrap64 (wrap64 (days * 24) * hour).
Definition invoice_input (v : flag_values) : CreateInput :=
  mkCreateInput (flag_value "customer" "" v) (due_duration (flag_int "due" 30 v)) ""
    [mkLineItem (flag_value "description" "" v) (flag_int "amount" 0 v) (flag_value "currency" "eur" v) 1] ∅ "" "".
(** [invoices.New(backend)]: no numbers, no namespace, no hook. *)
Definition cli_invoices : InvoiceOps unit := mkInvoiceOps false "" None.
Definition runInvoiceCreate (secretKey : string) (args : list string) (b : B) : cli_out * B :=
  if String.eqb secretKey "" then (complains 1 "STRIPE_SECRET_KEY is not set", b)
  else match Parse invoice_flags no_flags args with
  | Err _ => (exits 2, b)
  | Ok (v, _) =>
      if String.eqb (flag_value "customer" "" v) "" || (flag_int "amount" 0 v <=? 0) then
        (complains 2 "missing required --customer and --amount > 0", b)
      else
        let '(inv, err, w) := CreateDraft cli_invoices (invoice_input v) (mkInvoiceWorld NewMemoryNumberRepo b tt []) in
        let b := iw_backend w in
        match err with
        | Some e => (complains 1 ("create draft: " ^^ invoice_text e), b)
        | None =>
            let draft := line ("draft: " ^^ iv_StripeID inv ^^ " (status=" ^^ iv_Status inv ^^ ")") in
            let finished (label verb : string) (r : Invoice * option invoice_error * B) :=
              match r with
              | (_, Some e, b) => (mkOut 1 draft (line (label ^^ invoice_text e)), b)
              | (out, None, b) => (mkOut 0 (draft ^^ line (verb ^^ iv_StripeID out ^^ " url=" ^^ iv_HostedInvoiceURL out)) "", b)
              end in
            if flag_on "send" false v then finished "finalize+send: " "sent: " (inv_FinalizeAndSend (iv_StripeID inv) b)
            else if flag_on "finalize" false v then finished "finalize: " "finalized: " (inv_Finalize (iv_StripeID inv) b)
            else (mkOut 0 draft "", b)
        end
  end.
End invoices.

(** ** Promotion codes *)
Section coupons.
Context `{Sha256} `{GoRuntime} (coupon_text : coupon_error -> string).
Definition promo_flags : flag_set := [("coupon-key", FString); ("code", FString); ("max", FInt64)].
Definition fmt_t (b : bool) : string := if b then "true" else "false".
Definition promo_input (v : flag_values) : PromoInput :=
  mkPromoInput (flag_value "coupon-key" "" v) (flag_value "code" "" v)
    (if 0 <? flag_int "max" 0 v then flag_int "max" 0 v else 0) time_zero "" None ∅.
Definition runCouponPromo (secretKey : string) (spec : Spec) (args : list string) : calls cli_out :=
  if String.eqb secretKey "" then Give (complains 1 "STRIPE_SECRET_KEY is not set")
  else match Parse promo_flags no_flags args with
  | Err _ => Give (exits 2)
  | Ok (v, _) =>
      if String.eqb (flag_value "coupon-key" "" v) "" || String.eqb (flag_value "code" "" v) "" then
        Give (complains 2 "missing --coupon-key and/or --code")
      else
        do r <- CreatePromoCode "" spec (promo_input v);
        Give match r with
             | Err e => complains 1 ("create promo: " ^^ coupon_text e)
             | Ok pc => mkOut 0 (line ("promo: " ^^ po_ID pc ^^ " code=" ^^ po_Code pc ^^ " coupon=" ^^ po_CouponID pc ^^
                          " active=" ^^ fmt_t (po_Active pc))) ""
             end
  end.
End coupons.

(** ** The account *)
(** The id, the country and the default currency, or the error of the call. *)
Definition runVerifyAccount {B : Type} (Accounts_Retrieve : B -> res string (string * string * string) * B) (secretKey : string) (b : B)
  : cli_out * B :=
  if String.eqb secretKey "" then (complains 1 "STRIPE_SECRET_KEY is not set", b)
  else match Accounts_Retrieve b with
  | (Err e, b') => (complains 1 ("Accounts.Retrieve: " ^^ e), b')
  | (Ok (id, country, currency), b') =>
      (mkOut 0 (line ("ok — account=" ^^ id ^^ " country=" ^^ country ^^ " currency=" ^^ currency)) "", b')
  end.

(** ** Replay *)
Section replay.
Context {H : Type} (UnmarshalEvent : string -> res string stripe_event) (replay_text : replay_error -> string).
(** The receiver that replays: a store of its own, the handlers of [HandlersFactory], the log. *)
Definition replay_config (handlers : Handlers H) : WebhooksConfig :=
  mkWebhooksConfig "whsec_replay_dummy" [] true "" handlers 0 0 true false ∅ 0 0 [] "".
Definition runWebhookReplay (hasLog : bool) (handlers : option (Handlers H)) (args : list string) : prog H cli_out :=
  match args with
  | [] => Ret (complains 2 "usage: webhook replay <event-id>")
  | eventID :: _ =>
      if negb hasLog then
        Ret (complains 2 "webhook replay: Options.EventLogFactory not set; apps must wire it (typically to a postgres-backed log)")
      else match handlers with
      | None =>
          Ret (complains 2 "webhook replay: Options.HandlersFactory not set; apps must provide the same handler registry the live server uses")
      | Some handlers =>
          match NewWebhooks (replay_config handlers) with
          | Err _ => Ret (exits 2)
          | Ok rc =>
              bind (ReplayEvent UnmarshalEvent (rc_webhooks rc) eventID) (fun err =>
              Ret match err with
                  | Some e => complains 1 ("replay " ^^ eventID ^^ ": " ^^ replay_text e)
                  | None => mkOut 0 (line ("replayed " ^^ eventID)) ""
                  end)
          end
      end
  end.
End replay.

(** ** Customers *)
(** The query, with the subject as it was given. *)
Definition search_query (s : string) : string :=
  "metadata[" ^^ String "034" "app_subject_id" ^^ String "034" "" ^^ "]:" ^^ String "034" s ^^ String "034" "".

Section customers.
Context `{GoRuntime} `{Sha256} {B A : Type} `{StripeClient B} (Customers_Search : string -> B -> list string * option string).
(** [stripeMetadataCustomerRepo], over the state of Stripe. *)
Definition metadata_Get (s : string) (b : B) : res string (option string) :=
  match Customers_Search (search_query s) b with
  | (id :: _, _) => Ok (Some id)
  | ([], Some e) => Err e
  | ([], None) => Ok None
  end.
#[local] Instance metadata_CustomerRepo : CustomerRepo B := {
  cu_Get s b := (metadata_Get s b, b);
  cu_Upsert _ _ b := (None, b);
}.
(** [customersOpsFor]: neither a mirror nor a ledger nor hooks. The type of the mirror and
    of the ledger, which are absent, is that of an empty one. *)
Context {M L : Type} `{SubscriptionRepo M} `{CreditRepo L}.
Definition customersOpsFor (b : B) : CustomersWorld B M L B := mkCustomersWorld b None None b.
Definition no_hooks : Hooks B A := mkHooks None None None.

Context (err_text : customers_error -> string)
        (export_json : option (Export (A := A)) -> res string string) (report_json : option ForgetReport -> res string string).
Definition encoded (r : res string string) : cli_out := match r with Ok s => mkOut 0 s "" | Err e => complains 1 e end.

(** ** gdpr *)
Definition with_subject (usage secretKey : string) (args : list string) (b : B) (k : string -> cli_out * B) : cli_out * B :=
  if String.eqb secretKey "" then (complains 1 "STRIPE_SECRET_KEY is not set", b)
  else match args with [] => (complains 2 usage, b) | s :: _ => k s end.
Definition runGDPRExport (now : Z) (st : stamp) (secretKey : string) (args : list string) (b : B) : cli_out * B :=
  with_subject "usage: gdpr export <subject>" secretKey args b (fun subjectID =>
    match ExportCustomer no_hooks now st subjectID (customersOpsFor b) with
    | (_, Some e, w) => (complains 1 (err_text e), wo_outside w)
    | (export, None, w) => (encoded (export_json export), wo_outside w)
    end).
Definition runGDPRForget (st : nat -> stamp) (secretKey : string) (args : list string) (b : B) : cli_out * B :=
  with_subject "usage: gdpr forget <subject>" secretKey args b (fun subjectID =>
    match Forget no_hooks st subjectID (customersOpsFor b) with
    | (_, Some e, w) => (complains 1 (err_text e), wo_outside w)
    | (report, None, w) => (encoded (report_json report), wo_outside w)
    end).

(** ** tax-id *)
Definition taxid_flags : flag_set := [("subject", FString); ("type", FString); ("value", FString); ("id", FString)].
Definition tab : string := String "009" "".
Definition tax_line (t : TaxID) : string := line (tx_StripeID t ^^ tab ^^ tx_Type t ^^ tab ^^ tx_Value t ^^ tab ^^ tx_Verification t).
(** The key is asked for before the flags are read. *)
Definition runTaxID (secretKey sub : string) (rest : list string) (b : B) : cli_out * B :=
  if String.eqb secretKey "" then (complains 1 "STRIPE_SECRET_KEY is not set", b)
  else match Parse taxid_flags no_flags rest with
  | Err _ => (exits 2, b)
  | Ok (v, _) =>
      let subject := flag_value "subject" "" v in
      let typ := flag_value "type" "" v in
      let value := flag_value "value" "" v in
      let id := flag_value "id" "" v in
      if String.eqb subject "" then (complains 2 "tax-id: --subject is required", b)
      else if String.eqb sub "add" then
        if String.eqb typ "" || String.eqb value "" then (complains 2 "tax-id add: --type and --value are required", b)
        else match AddTaxID "" (mkAddTaxID subject typ value) (customersOpsFor b) with
        | (Err e, w) => (complains 1 (err_text e), wo_outside w)
        | (Ok tid, w) => (mkOut 0 (line (tx_StripeID tid)) "", wo_outside w)
        end
      else if String.eqb sub "list" then
        match ListTaxIDs subject (customersOpsFor b) with
        | (Err e, w) => (complains 1 (err_text e), wo_outside w)
        | (Ok tids, w) => (mkOut 0 (foldr (fun t out => tax_line t ^^ out) "" tids) "", wo_outside w)
        end
      else if String.eqb sub "remove" then
        if String.eqb id "" then (complains 2 "tax-id remove: --id is required", b)
        else match RemoveTaxID subject id (customersOpsFor b) with
        | (Some e, w) => (complains 1 (err_text e), wo_outside w)
        | (None, w) => (mkOut 0 (line "ok") "", wo_outside w)
        end
      else (complains 2 ("unknown tax-id subcommand " ^^ Quote sub), b)
  end.

(** ** customer import *)
Definition import_flags : flag_set :=
  [("subject", FString); ("stripe-id", FString); ("adopt-namespace", FBool); ("skip-subs", FBool)].
(** The flags are read before the key is asked for. *)
Definition runCustomerImport (secretKey : string) (spec : Spec) (args : list string) (b : B) : cli_out * B :=
  match Parse import_flags no_flags args with
  | Err _ => (exits 2, b)
  | Ok (v, _) =>
      let subject := flag_value "subject" "" v in
      let stripeID := flag_value "stripe-id" "" v in
      if String.eqb subject "" || String.eqb stripeID "" then
        (complains 2 "customer import: --subject and --stripe-id are required", b)
      else if String.eqb secretKey "" then (complains 1 "STRIPE_SECRET_KEY is not set", b)
      else match ImportCustomer ""
                   (mkImportInput subject stripeID (Namespace spec) (flag_on "adopt-namespace" false v) (negb (flag_on "skip-subs" false v)))
                   (customersOpsFor b) with
      | (_, Some e, w) => (complains 1 (err_text e), wo_outside w)
      | (Some res, None, w) =>
          (mkOut 0 (line ("imported subject=" ^^ ir_SubjectID res ^^ " stripe=" ^^ ir_StripeCustomerID res ^^
             " subs_backfilled=" ^^ fmt_d (ir_SubscriptionsBackfilled res) ^^ " namespace_stamped=" ^^
             (if ir_NamespaceStamped res then "true" else "false"))) "", wo_outside w)
      | (None, None, w) => (exits 0, wo_outside w)
      end
  end.
End customers.
