(* ===== verification/CliFacts.v ===== *)
(** * CliFacts: what the commands do to Stripe, their exit codes, and what they do not reach. *)
From Stdlib Require Import DecimalString DecimalN.
From S2P Require Import Prelude Events StripeApi Credits Subscriptions Customers CatalogSpec CatalogCache CatalogSync CatalogSyncFacts CatalogSyncTheorems CatalogSyncResult Drift Flags Checkout StripeCalls SubscriptionOps InvoiceNumbers Invoices StripeSubscriptions StripeInvoices Webhooks WebhookSource Cli CliServices.

Section catalog.
Context `{GoRuntime} {B : Type} `{Backend B}.
Implicit Types (spec : Spec) (b : B) (args : list string).

(** ** Sync *)
(** Neither [diff] nor a [sync] without [--apply] changes anything in Stripe. *)
Theorem dry_run_changes_nothing key spec args b out b' :
  runDiff key spec args b = Some (out, b') \/
  (runSync key spec args b = Some (out, b') /\ forall v rest, Parse sync_flags no_flags args = Ok (v, rest) -> flag_on "apply" false v = false) ->
  b' = b.
Proof.
  intros [E|[E Hv]].
  - unfold runDiff, with_key in E. destruct (String.eqb key ""); [by injection E|].
    destruct (bk_ListProductsByNamespace _ b); [|by injection E]. destruct (Diff spec _); by simplify_option_eq.
  - unfold runSync, with_key in E. destruct (String.eqb key ""); [by injection E|].
    destruct (Parse sync_flags no_flags args) as [[v rest]|]; [|by injection E].
    destruct (bk_ListProductsByNamespace _ b); [|by injection E]. destruct (Diff spec _); [|done].
    cbn in E. rewrite (Hv v rest eq_refl) in E. by injection E.
Qed.
(** What a [sync --apply] that exits with 0 has done: the plan was empty, or all of it
    has been applied. *)
Lemma sync_applied key spec b out b' :
  runSync key spec ["--apply"] b = Some (out, b') -> co_code out = 0 ->
  exists l plan, bk_ListProductsByNamespace (Namespace spec) b = Ok l /\ Diff spec l = Some plan /\
    ((Empty plan = true /\ b' = b) \/ Apply plan b = (None, b')).
Proof.
  unfold runSync, with_key. destruct (String.eqb key ""); [intros [= <- <-]; done|].
  change (Parse sync_flags no_flags ["--apply"]) with (@Ok flag_error _ (set_bool "apply" true no_flags, @nil string)). cbn [flag_on].
  destruct (bk_ListProductsByNamespace _ b) as [l|e]; [|intros [= <- <-]; done].
  destruct (Diff spec l) as [plan|] eqn:Ed; [|done]. cbn -[Apply Empty].
  destruct (Empty plan) eqn:Ee; [intros [= <- <-] _; exists l, plan; auto|].
  destruct (Apply plan b) as [[e|] b1] eqn:Ea; intros [= <- <-] Hc; [done|exists l, plan; auto].
Qed.
(** No item of a plan is of the kind that is only reported, so that an empty plan has none. *)
Lemma diff_no_drift spec l plan it : Diff spec l = Some plan -> it ∈ pl_Items plan -> it_Op it <> OpDrift.
Proof.
  unfold Diff. destruct (sortedProductKeys l) as [keys|]; [|done]. intros [= <-]. cbn [pl_Items].
  intros [Hit|(k & _ & Hit)%in_concat_map]%elem_of_app.
  - unfold diff_spec in Hit. apply range_sorted_elem in Hit as (pk & product & _ & [Hit|Hit]%elem_of_app).
    + unfold diff_product in Hit. repeat case_match; set_solver.
    + apply range_sorted_elem in Hit as (prk & price & _ & Hit). unfold diff_price in Hit. repeat case_match; set_solver.
  - unfold diff_current in Hit. apply elem_of_app in Hit as [Hit|(ep & _ & Hit)%in_concat_map].
    + repeat case_match; set_solver.
    + destruct (_ && _) in Hit; set_solver.
Qed.
Lemma empty_plan spec l plan : Diff spec l = Some plan -> Empty plan = true -> plan = mkPlan (Namespace spec) [].
Proof.
  intros Hp He. assert (Hns : pl_Namespace plan = Namespace spec) by (unfold Diff in Hp; destruct (sortedProductKeys l); by simplify_option_eq).
  destruct plan as [ns [|it items]]; cbn in Hns; subst ns; [done|]. exfalso.
  pose proof (diff_no_drift spec l _ it Hp (list_elem_of_here _ _)) as Hit. unfold Empty in He. cbn in He.
  by rewrite bool_decide_eq_false_2 in He.
Qed.
Context `{!StripeLaws B}.
(** After [sync --apply] has exited with 0, [diff] says that there is nothing to change, as
    long as it can list the products. The conditions are those under which a sync
    converges. *)
Theorem sync_then_diff key s spec b out b' l out' b'' :
  NewSpec s = Ok spec -> string_has "_" (Namespace spec) = false ->
  (forall pk product prk price, Products s !! pk = Some product -> p_Prices product !! prk = Some price -> 0 <= pr_IntervalCount price) ->
  bk_ListProductsByNamespace (Namespace spec) b = Ok l ->
  (forall pk product p, Products spec !! pk = Some product -> p ∈ l -> xp_ID p = NamespacedProductID spec pk ->
     (p_Description product = "" -> xp_Description p = "") /\ (xp_Active p = false -> productNeedsUpdate product p = false)) ->
  runSync key spec ["--apply"] b = Some (out, b') -> co_code out = 0 ->
  runDiff key spec [] b' = Some (out', b'') -> co_code out' = 0 ->
  co_stdout out' = "Sync plan for namespace " ^^ Quote (Namespace spec) ^^ ": no changes." ^^ newline.
Proof.
  intros Hn Hns Hc Hl Hd Hs Hz Hdiff Hz'. destruct (sync_applied key spec b out b' Hs Hz) as (l1 & plan & Hl1 & Hp & Ha).
  rewrite Hl in Hl1. injection Hl1 as <-.
  unfold runDiff, with_key in Hdiff. destruct (String.eqb key ""); [injection Hdiff as <- <-; done|].
  destruct (bk_ListProductsByNamespace (Namespace spec) b') as [l'|e] eqn:El'; [|injection Hdiff as <- <-; done].
  assert (E : Diff spec l' = Some (mkPlan (Namespace spec) [])).
  { destruct Ha as [[He ->]|Ha]; [|exact (synced_empty s spec b b' l l' plan Hn Hns Hc Hl Hd Hp Ha El')].
    rewrite Hl in El'. injection El' as <-. rewrite Hp. f_equal. by eapply empty_plan. }
  rewrite E in Hdiff. by injection Hdiff as <- <-.
Qed.
End catalog.

(** ** Meters *)
Section meters.
Context `{GoRuntime} {B : Type} `{Backend B}.
Definition set_meters (m : gmap string Meter) (spec : Spec) : Spec := mkSpec (Namespace spec) (Products spec) (CatalogSpec.Coupons spec) m.
(** The meters a catalog declares make no difference to [sync] and [diff]; only
    [drift-check] compares and applies them. *)
Theorem sync_ignores_meters key spec m args (b : B) :
  runSync key (set_meters m spec) args b = runSync key spec args b /\ runDiff key (set_meters m spec) args b = runDiff key spec args b.
Proof. destruct spec. split; reflexivity. Qed.

(** ** Exit codes of drift-check *)
(** Without flags the command is a gate: it exits with 0 when a check has found no drift and
    with 1 otherwise, a missing key and a failed check included, and changes nothing. *)
Theorem drift_check_gates key spec now now' (b : B) :
  exists out, runDriftCheck key spec now now' [] b = (out, b) /\
    (co_code out = 0 \/ co_code out = 1) /\
    (co_code out = 0 <-> key <> "" /\ exists rep, CheckDrift now spec b = Ok rep /\ dr_HasDrift rep = false).
Proof.
  unfold runDriftCheck. destruct (String.eqb_spec key "") as [->|Hk]; [eexists; split; [done|]; cbn; split; [by right|split; [done|by intros []]]|].
  cbn [Parse]. destruct (CheckDrift now spec b) as [rep|e] eqn:E.
  - destruct (dr_HasDrift rep) eqn:Ed; cbn; eexists; (split; [done|]); cbn; [|split; [by left|]; split; [intros _; eauto 6|done]].
    split; [by right|]. split; [done|]. intros [_ (rep' & [= <-] & Hr)]. congruence.
  - eexists. split; [done|]. cbn. split; [by right|]. split; [done|]. by intros [_ (rep' & ? & _)].
Qed.
(** With [--apply] an exit with 0 says that no drift was found or that a second check was
    made and all it found was applied. *)
Theorem drift_apply_done key spec now now' (b : B) out b' :
  runDriftCheck key spec now now' ["--apply"] b = (out, b') -> co_code out = 0 ->
  exists rep, CheckDrift now spec b = Ok rep /\
    ((dr_HasDrift rep = false /\ b' = b) \/ exists fresh, CheckDrift now' spec b = Ok fresh /\ report_Apply fresh b = (None, b')).
Proof.
  unfold runDriftCheck. destruct (String.eqb key ""); [intros [= <- <-]; done|].
  change (Parse drift_flags no_flags ["--apply"]) with (@Ok flag_error _ (set_bool "apply" true no_flags, @nil string)).
  destruct (CheckDrift now spec b) as [rep|e]; [|intros [= <- <-]; done].
  destruct (dr_HasDrift rep) eqn:Ed; [|intros [= <- <-] _; exists rep; auto]. cbn -[report_Apply CheckDrift].
  destruct (CheckDrift now' spec b) as [fresh|e]; [|intros [= <- <-]; done].
  destruct (report_Apply fresh b) as [[e|] b1] eqn:Ea; intros [= <- <-]; [done|]. intros _. exists rep. eauto.
Qed.
End meters.

(** ** Phases of a schedule *)
Lemma atoi_step n d c s :
  Z.of_N (N_of_ascii c) - 48 = d -> 0 <= d <= 9 -> atoi_from (wrap64 n) (String c s) = atoi_from (wrap64 (n * 10 + d)) s.
Proof.
  intros Hd Hr. cbn [atoi_from]. rewrite Hd, (proj2 (Z.ltb_ge d 0)), (proj2 (Z.ltb_ge 9 d)) by lia. cbn [orb].
  f_equal. unfold wrap64 at 1. symmetry. unfold wrap64. f_equal.
  pose proof (Z_div_mod_eq_full (n + 2 ^ 63) (2 ^ 64)) as Hm.
  replace (((n + 2 ^ 63) mod 2 ^ 64 - 2 ^ 63) * 10 + d + 2 ^ 63) with (n * 10 + d + 2 ^ 63 + (- (10 * ((n + 2 ^ 63) / 2 ^ 64))) * 2 ^ 64) by lia.
  by rewrite Z_mod_plus_full.
Qed.
Lemma atoi_acc u acc :
  atoi_from (wrap64 (Z.pos acc)) (NilEmpty.string_of_uint u) = Some (wrap64 (Z.pos (Pos.of_uint_acc u acc))).
Proof.
  revert acc. induction u as [|u IH|u IH|u IH|u IH|u IH|u IH|u IH|u IH|u IH|u IH]; intros acc; cbn [Pos.of_uint_acc NilEmpty.string_of_uint]; [done|..];
    (erewrite atoi_step; [|cbv; reflexivity|lia]); rewrite <- IH; do 2 f_equal; lia.
Qed.
(** The number of iterations is read modulo [2 ^ 64]: a text out of range is not refused. *)
Theorem atoi_wraps z : 0 <= z -> atoi (fmt_d z) = Some (wrap64 z).
Proof.
  intros Hz. unfold fmt_d. rewrite (proj2 (Z.ltb_ge z 0)) by done. unfold atoi.
  replace z with (Z.of_N (Z.to_N z)) at 2 by lia. generalize (Z.to_N z) as n. clear z Hz. intros n.
  destruct (dec_digits_head n) as [Hz|(c & s & Hs & Hc & _)].
  - rewrite Hz. pose proof (parse_dec_digits n) as P. rewrite Hz in P. injection P as <-. done.
  - destruct (dec_digits_nonnil n) as [E _]. pose proof (DecimalN.Unsigned.of_to n) as Hv. rewrite E in *.
    destruct (N.to_uint n) as [|u|u|u|u|u|u|u|u|u|u]; cbn in Hs, Hv; try done; [by injection Hs as <- _|..];
    subst n; cbn [NilEmpty.string_of_uint]; (etransitivity; [eapply (atoi_step 0); [cbv; reflexivity|lia]|apply atoi_acc]).
Qed.
Example atoi_out_of_range : atoi "18446744073709551617" = Some 1.
Proof. vm_compute. done. Qed.

(** *** Splitting *)
Lemma splitOn_last sep a : string_has sep a = false -> splitOn sep a = [a].
Proof. induction a as [|c a IH]; [done|]. cbn. intros Ha. apply orb_false_iff in Ha as [Hc Ha]. by rewrite Hc, IH. Qed.
Lemma splitOn_cons sep a b : string_has sep a = false -> splitOn sep (a ^^ String sep b) = a :: splitOn sep b.
Proof.
  induction a as [|c a IH]; cbn; [by rewrite Ascii.eqb_refl|]. intros Ha. apply orb_false_iff in Ha as [Hc Ha]. by rewrite Hc, IH.
Qed.
(** The text of a phase and of a list of phases, in full. *)
Definition render_phase (ph : SchedulePhase) : string := ph_PriceKey ph ^^ String ":" (fmt_d (ph_Iterations ph) ^^ String ":" (ph_CouponKey ph)).
Fixpoint render_phases (phs : list SchedulePhase) : string :=
  match phs with
  | [] => ""
  | [ph] => render_phase ph
  | ph :: rest => render_phase ph ^^ String "," (render_phases rest)
  end.
(** A phase the syntax can express. *)
Definition phase_ok (ph : SchedulePhase) : Prop :=
  ph_PriceKey ph <> "" /\ ph_Quantity ph = 0 /\ 0 <= ph_Iterations ph < 2 ^ 63 /\
  forall c, c = ":"%char \/ c = ","%char -> string_has c (ph_PriceKey ph) = false /\ string_has c (ph_CouponKey ph) = false.
Lemma digits_have_no c z : 0 <= z -> c = ":"%char \/ c = ","%char -> string_has c (fmt_d z) = false.
Proof.
  intros Hz Hc. unfold fmt_d. rewrite (proj2 (Z.ltb_ge z 0)) by done. destruct (dec_digits_nonnil (Z.to_N z)) as [-> _].
  induction (N.to_uint (Z.to_N z)); destruct Hc as [-> | ->]; done.
Qed.
Lemma fmt_d_not_empty z : String.eqb (fmt_d z) "" = false.
Proof. unfold fmt_d. destruct (z <? 0); [done|]. by destruct (dec_digits_nonnil (Z.to_N z)) as [_ (c & s & ->)]. Qed.
Lemma parse_rendered i ph : phase_ok ph -> parse_phase i (render_phase ph) = Ok ph.
Proof.
  intros (Hk & Hq & Hi & Hs). destruct (Hs ":"%char) as [Hsk Hsc]; [by left|]. unfold parse_phase, splitColons, split_or_nil.
  destruct ph as [key q it coupon]. cbn [ph_PriceKey ph_Quantity ph_Iterations ph_CouponKey] in *. subst q.
  destruct (String.eqb (render_phase _) "") eqn:E; [by destruct key; reflect_bools|]. unfold render_phase. cbn [ph_PriceKey ph_Iterations ph_CouponKey].
  rewrite splitOn_cons, splitOn_cons, splitOn_last by first [done|apply digits_have_no; tauto || lia].
  destruct key as [|c key]; [done|]. cbn. rewrite fmt_d_not_empty, atoi_wraps, wrap64_id by (unfold in_int64, int64_min, int64_max; lia). done.
Qed.
(** What a schedule of phases is written as is read back. *)
Theorem phases_round_trip phs : phs <> [] -> Forall phase_ok phs -> parseSchedulePhases (render_phases phs) = Ok phs.
Proof.
  intros Hn Hok. assert (Hc : forall ph, phase_ok ph -> string_has "," (render_phase ph) = false).
  { intros ph (_ & _ & [Hi _] & Hs). destruct (Hs ","%char) as [Hk Hq]; [by right|]. unfold render_phase.
    rewrite string_has_append, Hk. cbn [string_has orb Ascii.eqb]. rewrite string_has_append, digits_have_no by auto. by cbn. }
  assert (Hp : forall i, parse_phases i (splitOn "," (render_phases phs)) = Ok phs).
  { induction phs as [|ph phs IH]; [done|]. intros i. apply Forall_cons in Hok as [Hph Hok].
    destruct phs as [|ph' phs].
    - cbn [render_phases]. rewrite splitOn_last by auto. cbn. by rewrite parse_rendered.
    - change (render_phases (ph :: ph' :: phs)) with (render_phase ph ^^ String "," (render_phases (ph' :: phs))).
      rewrite splitOn_cons by auto. cbn [parse_phases]. rewrite parse_rendered, IH by done. done. }
  assert (He : render_phases phs <> "").
  { destruct phs as [|ph [|ph' phs]]; [done|..]; apply Forall_cons in Hok as [(Hk & _) _]; unfold render_phases, render_phase; fold render_phases;
      by destruct (ph_PriceKey ph). }
  apply String.eqb_neq in He. unfold parseSchedulePhases, splitCommas, split_or_nil. by rewrite He, Hp.
Qed.
Lemma phases_round_trip_example :
  parseSchedulePhases "pro.monthly_eur:3:SAVE20,pro.monthly_eur:0:" = Ok [mkPhase "pro.monthly_eur" 0 3 "SAVE20"; mkPhase "pro.monthly_eur" 0 0 ""].
Proof.
  apply (phases_round_trip [mkPhase "pro.monthly_eur" 0 3 "SAVE20"; mkPhase "pro.monthly_eur" 0 0 ""]); [done|].
  repeat constructor; cbn; try done; destruct H as [-> | ->]; done.
Defined.

(** ** Seats *)
Section seats.
Context `{GoRuntime} (get_items : string -> res string (list SubscriptionItem)).
(** Over the empty mirror of the command the subject of a seat operation is not checked:
    every subject is answered as any other. *)
Lemma seat_item_any_subject subject subject' sub key :
  resolveSeatItem get_items subject sub key MemSubs.mem_NewMemoryRepo = resolveSeatItem get_items subject' sub key MemSubs.mem_NewMemoryRepo.
Proof. done. Qed.
Theorem seats_of_any_subject o subject subject' sub key n prorate :
  SeatCount get_items o subject sub key MemSubs.mem_NewMemoryRepo = SeatCount get_items o subject' sub key MemSubs.mem_NewMemoryRepo /\
  SetSeats get_items o subject sub key n prorate MemSubs.mem_NewMemoryRepo = SetSeats get_items o subject' sub key n prorate MemSubs.mem_NewMemoryRepo /\
  AddSeats get_items o subject sub key n prorate MemSubs.mem_NewMemoryRepo = AddSeats get_items o subject' sub key n prorate MemSubs.mem_NewMemoryRepo.
Proof. unfold SeatCount, SetSeats, AddSeats, SeatCount, SetSeats. by rewrite (seat_item_any_subject subject subject'). Qed.
End seats.

(** ** Invoices *)
Section invoices.
Context `{GoRuntime} `{Sha256} (ctx : string).
(** The days of [--due] come back out of the duration up to 106751 of them. *)
Theorem due_days_exact days : 1 <= days <= 106751 -> due_days (due_duration days) = days.
Proof.
  intros Hd. unfold due_duration, hour, second.
  rewrite !wrap64_id by (unfold in_int64, int64_min, int64_max; lia || (rewrite wrap64_id; unfold in_int64, int64_min, int64_max; lia)).
  unfold due_days. replace (days * 24 * (3600 * 1000000000)) with (days * day) by (unfold day, second; lia).
  rewrite Z.quot_mul by (unfold day, second; lia). by rewrite (proj2 (Z.ltb_ge days 1)) by lia.
Qed.
(** One more overflows to a negative duration, which is not sent, and twice as many to a
    duration below a day, which is sent as one day. *)
Theorem due_days_overflow customer item :
  (forall input, ci_DueIn input = due_duration 106752 -> param "days_until_due" (draft_params input) = None) /\
  int_param "days_until_due" (draft_params (mkCreateInput customer (due_duration 213504) "" [item] ∅ "" "")) = Some 1.
Proof.
  split; [|vm_compute; done]. intros input Hd. unfold draft_params. rewrite Hd.
  change (0 <? due_duration 106752) with false. cbn [when app]. unfold param, str, meta, opt_str, when.
  repeat case_match; done.
Qed.
(** Every draft of the command for a customer, with the same days, is the same request under
    the same key, whatever the amount, the currency and the description. *)
Theorem cli_drafts_share_key v v' :
  flag_value "customer" "" v = flag_value "customer" "" v' -> flag_int "due" 30 v = flag_int "due" 30 v' ->
  draft_request ctx (stamped "" (invoice_input v)) = draft_request ctx (stamped "" (invoice_input v')).
Proof. intros Hc Hd. unfold draft_request, draft_params, stamped, invoice_input. cbn. by rewrite Hc, Hd. Qed.
(** No metadata is sent with it: the invoice belongs to no namespace. *)
Theorem cli_draft_unstamped v : param "metadata" (rq_params (draft_request ctx (stamped "" (invoice_input v)))) = None.
Proof. unfold draft_request, draft_params, param, str, int, opt_str, when, meta. cbn. repeat case_match; done. Qed.
End invoices.

(** ** Replay *)
Section replay.
Context {H : Type} (UnmarshalEvent : string -> res string stripe_event) (replay_text : replay_error -> string).
(** A handler that is registered for a type of its own runs in the live receiver; a replay
    of such an event from the command line runs nothing and says that it was replayed. *)
Theorem replay_misses_custom (live : Webhooks H) fn (hs : Handlers H) id logged se :
  w_customHandlers live !! ev_Type (fromStripeEvent se) = Some fn ->
  typed_handler hs (ev_Type (fromStripeEvent se)) = None ->
  lg_Payload logged <> "" -> UnmarshalEvent (lg_Payload logged) = Ok se ->
  dispatchEvent live (fromStripeEvent se) = Run fn (fromStripeEvent se) Ret /\
  exists k, runWebhookReplay UnmarshalEvent replay_text true (Some hs) [id] = LogGet id k /\
    k (Ok (Some logged)) = Ret (mkOut 0 (line ("replayed " ^^ id)) "").
Proof.
  intros Hc Ht Hp%String.eqb_neq Hu. split; [unfold dispatchEvent; by rewrite Hc|].
  eexists. split; [reflexivity|]. cbn. rewrite Hp, Hu. unfold dispatchEvent. cbn [w_customHandlers w_handlers]. rewrite lookup_empty, Ht. done.
Qed.
End replay.

(** ** Customers *)
Section customers.
Context `{GoRuntime} `{Sha256} {B A M L : Type} `{StripeClient B} `{SubscriptionRepo M} `{CreditRepo L}.
Context (Customers_Search : string -> B -> list string * option string) (metadata_of : B -> string -> option smap).
(** The documented meaning of the search: it yields customers with that entry of metadata. *)
Hypothesis search_sound : forall s b id, id ∈ fst (Customers_Search (search_query s) b) ->
  exists m, metadata_of b id = Some m /\ m !! "app_subject_id" = Some s.
(** The customers of an account as [resolveCustomer] of the checkout creates them. *)
Definition made_by_checkout (b : B) : Prop :=
  forall id m, metadata_of b id = Some m -> exists ns subject, m = <["subject_id" := subject]> {[MetadataKeyNamespace := ns]}.
Lemma none_found s b id : made_by_checkout b -> metadata_Get Customers_Search s b <> Ok (Some id).
Proof.
  intros Hm. unfold metadata_Get. destruct (Customers_Search (search_query s) b) as [[|x l] e] eqn:E; [by destruct e|].
  exfalso. destruct (search_sound s b x) as (m & Em & Hs); [rewrite E; by left|].
  destruct (Hm x m Em) as (ns & subject & ->). by rewrite lookup_insert_ne, lookup_singleton_ne in Hs.
Qed.
Lemma not_resolved s b : made_by_checkout b ->
  exists e, resolveStripeID (H := metadata_CustomerRepo Customers_Search) s (customersOpsFor (M := M) (L := L) b) = (Err e, customersOpsFor b).
Proof.
  intros Hm. unfold resolveStripeID. cbn. destruct (metadata_Get Customers_Search s b) as [[id|]|e] eqn:E; cbn; [by apply none_found in E|eauto..].
Qed.
Context (err_text : customers_error -> string).
(** In an account whose customers the checkout has created, no command that takes a subject
    finds any of them: an erasure, whoever the subject, ends with exit code 1 and erases
    nothing. *)
Theorem cli_erases_nobody report_json st key s rest (b : B) :
  made_by_checkout b -> key <> "" ->
  exists e, runGDPRForget (A := A) (M := M) (L := L) Customers_Search err_text report_json st key (s :: rest) b = (complains 1 (err_text e), b).
Proof.
  intros Hm Hk%String.eqb_neq. destruct (not_resolved s b Hm) as [e He]. exists e.
  unfold runGDPRForget, with_subject, Forget. by rewrite Hk, He.
Qed.
(** The command has no mirror: an import stamps the customer in Stripe and leaves the
    subscriptions alone, whether [--skip-subs] is given or not. *)
Theorem import_backfills_nothing ctx subject id ns adopt skip (b : B) r e w :
  ImportCustomer (H := metadata_CustomerRepo Customers_Search) ctx (mkImportInput subject id ns adopt (negb skip)) (customersOpsFor (M := M) (L := L) b) = (Some r, e, w) ->
  ir_SubscriptionsBackfilled r = 0 /\ wo_customers w = b /\
  ImportCustomer (H := metadata_CustomerRepo Customers_Search) ctx (mkImportInput subject id ns adopt skip) (customersOpsFor (M := M) (L := L) b) = (Some r, e, w).
Proof.
  unfold ImportCustomer, check_import. cbn -[stamp_customer]. intros E. rewrite <- E.
  destruct (String.eqb subject ""), (String.eqb id ""), (String.eqb ns ""); try done.
  destruct (cl_Customers_Retrieve id b) as [[cust|]]; [|done].
  unfold stamp_customer in *. cbn in *. repeat (case_match; simplify_eq/=; try done).
Qed.
End customers.
(** A quote in a subject ends the value of the query: such a subject is a query of its own. *)
Theorem search_query_injection s t :
  search_query (s ^^ String "034" (" OR " ^^ "metadata[" ^^ String "034" "app_subject_id" ^^ String "034" "" ^^ "]:" ^^ String "034" t)) =
  search_query s ^^ " OR " ^^ search_query t.
Proof. unfold search_query. repeat (cbn; rewrite ?append_assoc). done. Qed.
