(* ===== verification/WebhookQueueLife.v ===== *)
(** * WebhookQueueLife: the workers of the durable queue from [Start] to [Shutdown]
      (src/repos/postgres/webhook_queue.go: Start, Shutdown, worker, sweeper).

    A process over the table of WebhookQueuePg.v. Every worker has a context that a watcher
    cancels some time after [Shutdown] has closed the stop channel; a database call under a
    cancelled context fails and does nothing, as package database/sql documents. Dispatch
    functions end when they like, with any answer. *)
From S2P Require Import Prelude Postgres Events Webhooks WebhookQueuePg WebhookQueueFacts.

(** Where a worker is: before the look at the stop channel, about to dequeue, waiting for
    the poll interval, in the dispatch function, about to settle the row, at its end. *)
Inductive worker_at := Looping | Dequeuing | Waiting | Dispatching (item : QueueItem)
| Settling (item : QueueItem) (err : option process_error) | Gone.
Record live_worker := mkLive { lw_at : worker_at; lw_cancelled : bool }.
Record queue_process := mkProcess {
  qp_table : queue_table;
  qp_workers : list live_worker;
  qp_sweeper : bool;                                        (* it is running *)
  qp_started : bool;                                        (* [dispatch] is set *)
  qp_stop : bool;                                           (* the stop channel is closed *)
  qp_dispatched : list (QueueItem * option process_error);  (* dispatches that have ended *)
  qp_returned : nat;                                        (* calls of [Shutdown] that returned nil *)
}.
Definition new_process (t : queue_table) : queue_process := mkProcess t [] false false false [] 0.
(** An error is a panic. *)
Definition Start (o : WebhookQueueOptions) (dispatch : bool) (q : queue_process) : res string queue_process :=
  if negb dispatch then Err "postgres.WebhookQueue.Start: dispatch is required"
  else if qp_started q then Err "postgres.WebhookQueue.Start: already started"
  else Ok (mkProcess (qp_table q) (qp_workers q ++ replicate (Z.to_nat (qo_Workers o)) (mkLive Looping false)) true true
             (qp_stop q) (qp_dispatched q) (qp_returned q)).
(** A database call under a context. *)
Definition under {A} (cancelled : bool) (p : sql queue_table A) : sql queue_table A := if cancelled then sfail "context canceled" else p.

Definition set_worker (i : nat) (w : live_worker) (q : queue_process) : queue_process :=
  mkProcess (qp_table q) (<[i := w]> (qp_workers q)) (qp_sweeper q) (qp_started q) (qp_stop q) (qp_dispatched q) (qp_returned q).
Definition set_table (t : queue_table) (q : queue_process) : queue_process :=
  mkProcess t (qp_workers q) (qp_sweeper q) (qp_started q) (qp_stop q) (qp_dispatched q) (qp_returned q).

Section life.
Context `{GoRuntime}.
Inductive life_step : queue_process -> queue_process -> Prop :=
| life_enqueue q now item fs n r n' t' :
    pq_Enqueue now item fs n (qp_table q) = (r, (n', t')) -> life_step q (set_table t' q)
(** [Shutdown] closes the channel; the watcher of a worker cancels its context. *)
| life_stop q : life_step q (mkProcess (qp_table q) (qp_workers q) (qp_sweeper q) (qp_started q) true (qp_dispatched q) (qp_returned q))
| life_cancel q i w : qp_stop q = true -> qp_workers q !! i = Some w -> life_step q (set_worker i (mkLive (lw_at w) true) q)
(** The loop: the stop channel is looked at before each dequeue and while waiting. *)
| life_quit q i w : qp_stop q = true -> qp_workers q !! i = Some w -> lw_at w = Looping \/ lw_at w = Waiting ->
    life_step q (set_worker i (mkLive Gone (lw_cancelled w)) q)
| life_go q i c : qp_stop q = false -> qp_workers q !! i = Some (mkLive Looping c) -> life_step q (set_worker i (mkLive Dequeuing c) q)
| life_dequeue q i c locked now host fs n r n' t' :
    qp_workers q !! i = Some (mkLive Dequeuing c) -> under c (dequeue locked now host) fs n (qp_table q) = (r, (n', t')) ->
    life_step q (set_worker i (mkLive (match r with Ok (Some item) => Dispatching item | _ => Waiting end) c) (set_table t' q))
| life_poll q i c : qp_workers q !! i = Some (mkLive Waiting c) -> life_step q (set_worker i (mkLive Looping c) q)
| life_dispatched q i c item err : qp_workers q !! i = Some (mkLive (Dispatching item) c) ->
    life_step q (mkProcess (qp_table q) (<[i := mkLive (Settling item err) c]> (qp_workers q)) (qp_sweeper q) (qp_started q) (qp_stop q)
                   (qp_dispatched q ++ [(item, err)]) (qp_returned q))
| life_settle q i c item err fs n r n' t' :
    qp_workers q !! i = Some (mkLive (Settling item err) c) -> under c (finish item err) fs n (qp_table q) = (r, (n', t')) ->
    life_step q (set_worker i (mkLive Looping c) (set_table t' q))
| life_sweep q cutoff fs n r n' t' : qp_sweeper q = true -> sweep cutoff fs n (qp_table q) = (r, (n', t')) -> life_step q (set_table t' q)
| life_sweeper_quits q : qp_stop q = true ->
    life_step q (mkProcess (qp_table q) (qp_workers q) false (qp_started q) (qp_stop q) (qp_dispatched q) (qp_returned q))
(** [wg.Wait] in a call of [Shutdown]. *)
| life_returned q : qp_stop q = true -> qp_sweeper q = false -> Forall (fun w => lw_at w = Gone) (qp_workers q) ->
    life_step q (mkProcess (qp_table q) (qp_workers q) false (qp_started q) true (qp_dispatched q) (S (qp_returned q))).
Definition life_reachable (o : WebhookQueueOptions) (t : queue_table) (q : queue_process) : Prop :=
  exists q0, Start o true (new_process t) = Ok q0 /\ rtc life_step q0 q.

(** ** After the shutdown *)
Definition over (q : queue_process) : Prop :=
  qp_stop q = true /\ qp_sweeper q = false /\ Forall (fun w => lw_at w = Gone) (qp_workers q).
Lemma over_worker q i w : over q -> qp_workers q !! i = Some w -> lw_at w = Gone.
Proof. intros (_ & _ & Hg) Hi. exact (Forall_lookup_1 _ _ _ _ Hg Hi). Qed.
Lemma over_step q q' : life_step q q' -> over q -> over q' /\ qp_dispatched q' = qp_dispatched q.
Proof.
  intros Hs Ho. pose proof Ho as (Hstop & Hsw & Hg).
  destruct Hs; try match goal with Hi : qp_workers _ !! _ = Some _ |- _ => pose proof (over_worker _ _ _ Ho Hi) as Hw end;
    try (exfalso; cbn in *; naive_solver); (split; [|done]); split_and!; try done; cbn.
  all: by apply Forall_insert.
Qed.
Lemma returned_over_step q q' : life_step q q' -> ((0 < qp_returned q)%nat -> over q) -> (0 < qp_returned q')%nat -> over q'.
Proof.
  intros Hs Ho Hr. destruct (decide (0 < qp_returned q)%nat) as [Hq|Hq]; [by apply (over_step q q' Hs), Ho|].
  destruct Hs; cbn in *; try lia. by split_and!.
Qed.
(** Once a call of [Shutdown] has returned nil every goroutine has ended: no worker
    dispatches anything any more. *)
Theorem shutdown_quiet o t q q' :
  life_reachable o t q -> (0 < qp_returned q)%nat -> rtc life_step q q' -> over q' /\ qp_dispatched q' = qp_dispatched q.
Proof.
  intros (q0 & [= <-] & Hr) Hpos Hq. assert (Ho : over q).
  { revert Hpos. refine (rtc_ind_r (fun q => (0 < qp_returned q)%nat -> over q) _ _ _ q Hr); [cbn; lia|].
    intros q1 q2 _ Hs IH. by eapply returned_over_step. }
  clear Hr Hpos. induction Hq as [|q q1 q2 Hs _ IH]; [done|]. destruct (over_step q q1 Hs Ho) as [Ho1 <-]. by apply IH.
Qed.

(** ** Progress *)
(** A path on which worker [i] ends and no other worker moves. *)
Definition quits (i : nat) (q : queue_process) : Prop :=
  exists q' w, rtc life_step q q' /\ lw_at w = Gone /\ qp_workers q' = <[i := w]> (qp_workers q) /\ qp_stop q' = true /\
    qp_returned q' = qp_returned q.
Lemma quits_step q q1 i w1 : life_step q q1 -> qp_workers q1 = <[i := w1]> (qp_workers q) -> qp_returned q1 = qp_returned q ->
  quits i q1 -> quits i q.
Proof.
  intros Hs Hw Hr (q' & w & Hq & Hg & Hw' & Hstop & Hr'). exists q', w. split; [by eapply rtc_l|]. split_and!; try done; [|congruence].
  rewrite Hw', Hw. apply list_insert_insert_eq.
Qed.
Lemma quits_idle q i w : qp_stop q = true -> qp_workers q !! i = Some w -> lw_at w = Looping \/ lw_at w = Waiting -> quits i q.
Proof. intros Hstop Hi Hw. eexists _, (mkLive Gone (lw_cancelled w)). split; [by eapply rtc_once, life_quit|]. by cbn. Qed.
Lemma quits_settling q i c item err : qp_stop q = true -> qp_workers q !! i = Some (mkLive (Settling item err) c) -> quits i q.
Proof.
  intros Hstop Hi. pose proof (lookup_lt_Some _ _ _ Hi) as Hlt.
  destruct (under c (finish item err) no_faults 0%nat (qp_table q)) as [r [n' t']] eqn:E.
  eapply quits_step; [by eapply life_settle|done|done|]. eapply quits_idle; [done|cbn; by rewrite list_lookup_insert_eq|by left].
Qed.
Lemma worker_quits q i w : qp_stop q = true -> qp_workers q !! i = Some w -> quits i q.
Proof.
  intros Hstop Hi. pose proof (lookup_lt_Some _ _ _ Hi) as Hlt. destruct w as [[| | |item|item err|] c].
  - by eapply quits_idle; [..|left].
  - eapply quits_step; [by eapply life_cancel|done|done|].
    eapply quits_step; [eapply (life_dequeue _ i true [] 0 "" no_faults 0%nat); [cbn; by rewrite list_lookup_insert_eq|reflexivity]|done|done|].
    eapply quits_idle; [done|cbn; rewrite list_lookup_insert_eq; [done|by rewrite length_insert]|by right].
  - by eapply quits_idle; [..|right].
  - eapply quits_step; [by eapply (life_dispatched q i c item None)|done|done|].
    eapply quits_settling; [done|cbn; by rewrite list_lookup_insert_eq].
  - by eapply quits_settling.
  - exists q, (mkLive Gone c). by rewrite list_insert_id.
Qed.
(** From any state of a process a call of [Shutdown] can return: no worker waits for
    anything but its own dispatch. *)
Theorem shutdown_returns q : exists q', rtc life_step q q' /\ (qp_returned q < qp_returned q')%nat.
Proof.
  assert (Hall : forall n q, qp_stop q = true -> (n <= List.length (qp_workers q))%nat ->
    exists q', rtc life_step q q' /\ qp_stop q' = true /\ qp_returned q' = qp_returned q /\ List.length (qp_workers q') = List.length (qp_workers q) /\
      forall i w, (i < n)%nat -> qp_workers q' !! i = Some w -> lw_at w = Gone).
  { clear q. induction n as [|n IH]; intros q Hstop Hn; [exists q; split_and!; try done; intros; lia|].
    destruct (IH q Hstop) as (q1 & Hq1 & Hs1 & Hr1 & Hl1 & Hg1); [lia|].
    destruct (lookup_lt_is_Some_2 (qp_workers q1) n) as [w Hw]; [lia|].
    destruct (worker_quits q1 n w Hs1 Hw) as (q2 & w2 & Hq2 & Hg2 & Hw2 & Hs2 & Hr2).
    exists q2. split; [by etransitivity|]. split_and!; [done|congruence|by rewrite Hw2, length_insert|].
    intros i x Hi. rewrite Hw2. destruct (decide (i = n)) as [->|Hne].
    - rewrite list_lookup_insert_eq by lia. by intros [= <-].
    - rewrite list_lookup_insert_ne by done. apply Hg1. lia. }
  set (q1 := mkProcess (qp_table q) (qp_workers q) (qp_sweeper q) (qp_started q) true (qp_dispatched q) (qp_returned q)).
  destruct (Hall (List.length (qp_workers q1)) q1) as (q2 & Hq2 & Hs2 & Hr2 & Hl2 & Hg2); [done|done|].
  eexists. split; [eapply rtc_l; [apply life_stop|]; etransitivity; [exact Hq2|]; eapply rtc_l; [by apply life_sweeper_quits|]; apply rtc_once, life_returned|].
  - done.
  - done.
  - cbn. apply Forall_lookup_2. intros i w Hi. apply (Hg2 i w); [|done]. rewrite <- Hl2. by eapply lookup_lt_Some.
  - cbn. rewrite Hr2. cbn. lia.
Qed.

(** ** An event in flight *)
Lemma only_row_dequeued now host row : qr_state row = Queued -> qr_attempt_count row < int32_max ->
  exists n, dequeue [] now host no_faults 0%nat {[qi_EventID (qr_item row) := row]} =
    (Ok (Some (qr_item row)), (n, {[qi_EventID (qr_item row) := set_lock now host row]})).
Proof.
  intros Hq Ha. set (t := {[qi_EventID (qr_item row) := row]}).
  assert (Hk : keyed t) by (apply map_Forall_singleton; done).
  assert (Hn : next_queued [] t = Some row).
  { destruct (next_queued [] t) as [r|] eqn:E.
    - destruct (next_queued_some [] t r Hk E) as [[_ ->]%lookup_singleton_Some _]. done.
    - apply next_queued_empty in E. exfalso. apply (not_elem_of_nil row). rewrite <- E, queued_rows_elem by done.
      split; [apply lookup_singleton_eq|done]. }
  pose proof (dequeue_some now host t row Hk Hn ltac:(unfold attempts_left; lia)) as Hr. unfold runs in Hr.
  destruct (dequeue [] now host no_faults 0%nat t) as [r [n' t']]. exists n'.
  injection Hr as -> ->. unfold t. by rewrite insert_singleton_eq.
Qed.
(** From a process of one worker whose table has one row, to the end of a dispatch. *)
Lemma one_dispatch t q now host row err :
  qp_workers q = [mkLive Looping false] -> qp_stop q = false -> qp_table q = {[qi_EventID (qr_item row) := row]} ->
  qr_state row = Queued -> qr_attempt_count row < int32_max -> t = {[qi_EventID (qr_item row) := set_lock now host row]} ->
  rtc life_step q (mkProcess t [mkLive (Settling (qr_item row) err) false] (qp_sweeper q) (qp_started q) false
                     (qp_dispatched q ++ [(qr_item row, err)]) (qp_returned q)).
Proof.
  intros Hw Hs Ht Hq Ha ->. destruct q as [t0 ws sw st stop ds ret]. cbn in *. subst.
  destruct (only_row_dequeued now host row Hq Ha) as [n Hd].
  eapply rtc_l; [by eapply (life_go _ 0%nat false)|]. eapply rtc_l; [eapply (life_dequeue _ 0%nat false [] now host no_faults 0%nat); [done|exact Hd]|].
  eapply rtc_l; [by eapply (life_dispatched _ 0%nat false (qr_item row) err)|]. apply rtc_refl.
Qed.
(** A handler that succeeds while the process shuts down: the context of its worker is
    cancelled, the row is not deleted, [Shutdown] returns nil all the same, and when the
    lock has aged the next process runs the handler again. *)
Theorem shutdown_redelivers o item enqueued :
  qo_Workers o = 1 ->
  exists q, life_reachable o {[qi_EventID item := mkQueueRow item Queued 0 enqueued None None]} q /\
    qp_dispatched q = [(item, None)] /\ qp_returned q = 1%nat /\ is_Some (qp_table q !! qi_EventID item) /\
    exists q', life_reachable o (qp_table q) q' /\ qp_dispatched q' = [(item, None)].
Proof.
  intros Ho. set (now := enqueued). set (host := ""). set (row := mkQueueRow item Queued 0 enqueued None None). set (locked := set_lock now host row).
  exists (mkProcess {[qi_EventID item := locked]} [mkLive Gone true] false true true [(item, None)] 1%nat). split_and!; [| done | done | |].
  - eexists. split; [reflexivity|]. cbn. rewrite Ho. etransitivity.
    + apply (one_dispatch {[qi_EventID item := locked]} _ now host row None); try done.
    + eapply rtc_l; [apply life_stop|]. eapply rtc_l; [by eapply (life_cancel _ 0%nat)|].
      eapply rtc_l; [by eapply (life_settle _ 0%nat true item None no_faults 0%nat)|]. eapply rtc_l; [by eapply (life_quit _ 0%nat); [..|left]|].
      eapply rtc_l; [by eapply life_sweeper_quits|]. eapply rtc_once. apply (life_returned (mkProcess _ _ _ _ _ _ 0%nat)); [done|done|]. by repeat constructor.
  - cbn. rewrite lookup_singleton_eq. eauto.
  - eexists. split; [eexists; split; [reflexivity|]; cbn; rewrite Ho|].
    + eapply rtc_l; [by eapply (life_sweep _ (now + 1) no_faults 0%nat)|].
      eapply (one_dispatch _ _ now host (set_queued locked) None); try done. cbn. rewrite map_fmap_singleton. unfold stuck. cbn.
      by rewrite (proj2 (Z.ltb_lt now (now + 1))) by lia.
    + done.
Qed.
End life.
