(* ===== verification/Observability.v ===== *)
(** * Observability: metrics and traces around the receiver, the queue and the calls to
      Stripe (src/observability/metrics/metrics.go, src/observability/otel/otel.go).

    Prometheus and OpenTelemetry are what they record: counters and gauges by name and
    labels, the observations of the histograms, and the spans with their ends. A clock is
    read by its result. The names, help texts and buckets of [New] are left out. *)
From S2P Require Import Prelude Webhooks.

(** ** Recorded values *)
Abbreviation series := (string * list string)%type.
Record Collector := mkCollector {
  co_values : gmap series Z;                 (** counters and gauges *)
  co_observed : list (series * Z);           (** histograms: the durations, in nanoseconds *)
}.
Definition NewCollector : Collector := mkCollector ∅ [].
Definition value (s : series) (c : Collector) : Z := default 0 (co_values c !! s).
Definition add_value (s : series) (d : Z) (c : Collector) : Collector := mkCollector (<[s := value s c + d]> (co_values c)) (co_observed c).
Definition Inc (s : series) : Collector -> Collector := add_value s 1.
Definition Dec (s : series) : Collector -> Collector := add_value s (-1).
Definition Set_ (s : series) (z : Z) (c : Collector) : Collector := mkCollector (<[s := z]> (co_values c)) (co_observed c).
Definition Observe (s : series) (dur : Z) (c : Collector) : Collector := mkCollector (co_values c) (co_observed c ++ [(s, dur)]).

Definition RecordQueueEnqueueBlocked (queue : string) : Collector -> Collector := Inc ("queue_enqueue_blocked_total", [queue]).
Definition ObserveSyncDispatch (eventType outcome : string) (dur : Z) : Collector -> Collector :=
  Observe ("sync_dispatch_seconds", [eventType; outcome]) dur.
Definition SetQueueDepth (queue : string) (depth : Z) : Collector -> Collector := Set_ ("queue_depth", [queue]) depth.

(** ** Calls to Stripe *)
(** The bytes of [s] before the [n]-th slash. *)
Fixpoint before_slash (n : nat) (s : string) : string :=
  match s with
  | EmptyString => ""
  | String c rest =>
      if Ascii.eqb c "/" then match n with O => "" | S n => String c (before_slash n rest) end
      else String c (before_slash n rest)
  end.
(** The first byte is not looked at. *)
Definition stripeAPIPathFamily (p : string) : string :=
  match p with EmptyString => "" | String c rest => String c (before_slash 1 rest) end.

Record outbound := mkOutbound { ob_Path : string; ob_Method : string; ob_RetryAttempt : string }.
Definition in_flight (req : outbound) : series := ("outbound_in_flight", [stripeAPIPathFamily (ob_Path req)]).
(** [RoundTrip] before and after the call of the transport: [status] is that of the response,
    if there is one. *)
Definition rt_begin (req : outbound) (c : Collector) : Collector :=
  let c := Inc (in_flight req) c in
  if String.eqb (ob_RetryAttempt req) "" then c else Inc ("outbound_retries_total", [stripeAPIPathFamily (ob_Path req)]) c.
Definition rt_labels (req : outbound) (status : option Z) : list string :=
  [stripeAPIPathFamily (ob_Path req); ob_Method req; match status with None => "error" | Some code => fmt_d code end].
Definition rt_end (req : outbound) (status : option Z) (dur : Z) (c : Collector) : Collector :=
  Dec (in_flight req) (Inc ("outbound_requests_total", rt_labels req status) (Observe ("outbound_request_seconds", rt_labels req status) dur c)).
Definition RoundTrip {X} (next : X -> option Z * option string * X) (req : outbound) (dur : Z) (c : Collector) (x : X)
  : option Z * option string * Collector * X :=
  let c := rt_begin req c in
  let '(status, err, x) := next x in
  (status, err, rt_end req status dur c, x).

(** ** The receiver *)
(** [statusCapturingWriter], and a response as the calls made on it. *)
Inductive write_call := CallWriteHeader (code : Z) | CallWrite (body : string).
Record statusCapturingWriter := mkCapture { sw_status : Z; sw_wroteHeader : bool; sw_passed : list write_call }.
Definition WriteHeader (code : Z) (w : statusCapturingWriter) : statusCapturingWriter :=
  if sw_wroteHeader w then mkCapture (sw_status w) true (sw_passed w ++ [CallWriteHeader code])
  else mkCapture code true (sw_passed w ++ [CallWriteHeader code]).
Definition Write (body : string) (w : statusCapturingWriter) : statusCapturingWriter :=
  let status := if negb (sw_wroteHeader w) && (sw_status w =? 0) then 200 else sw_status w in
  mkCapture status true (sw_passed w ++ [CallWrite body]).
Definition write_to (w : statusCapturingWriter) (c : write_call) : statusCapturingWriter :=
  match c with CallWriteHeader code => WriteHeader code w | CallWrite body => Write body w end.
(** What [Handle] writes is the list of its calls. *)
Definition captured (calls : list write_call) : statusCapturingWriter := foldl write_to (mkCapture 200 false []) calls.
Definition WrapWebhookHandler (calls : list write_call) (dur : Z) (c : Collector) : list write_call * Collector :=
  let w := captured calls in
  let labels := ["unknown"; fmt_d (sw_status w)] in
  (sw_passed w, Inc ("webhook_requests_total", labels) (Observe ("webhook_handle_seconds", labels) dur c)).
Definition WrapProcessQueued {X E} (dispatch : QueueItem -> X -> option E * X) (item : QueueItem) (dur : Z) (c : Collector) (x : X)
  : option E * Collector * X :=
  let '(err, x) := dispatch item x in
  let '(outcome, c) := match err with
                       | None => ("ok", c)
                       | Some _ => ("error", Inc ("queue_dispatch_errors_total", [qi_EventType item]) c)
                       end in
  (err, Observe ("queue_dispatch_seconds", [qi_EventType item; outcome]) dur c, x).

(** ** Traces (otel.go) *)
Record span := mkSpan { sn_name : string; sn_attributes : list (string * string); sn_error : option string; sn_ended : bool }.
Definition item_span (name : string) (item : QueueItem) (err : option string) : span :=
  mkSpan name [("stripe.event.id", qi_EventID item); ("stripe.event.type", qi_EventType item); ("stripe.app_namespace", qi_Namespace item)]
    err true.
Definition otel_WrapWebhookHandler (method path : string) (calls : list write_call) : list write_call * span :=
  let w := captured calls in
  (sw_passed w,
   mkSpan "stripe.webhook.handle" [("http.method", method); ("http.target", path); ("http.status_code", fmt_d (sw_status w))]
     (if 500 <=? sw_status w then Some "handler returned 5xx" else if 400 <=? sw_status w then Some "client error" else None) true).
Definition traced {X} (name : string) (f : QueueItem -> X -> option string * X) (item : QueueItem) (x : X) : option string * span * X :=
  let '(err, x) := f item x in (err, item_span name item err, x).
Definition tracingQueue_Enqueue {X} : (QueueItem -> X -> option string * X) -> QueueItem -> X -> option string * span * X :=
  traced "stripe.webhook.enqueue".
Definition otel_WrapProcessQueued {X} : (QueueItem -> X -> option string * X) -> QueueItem -> X -> option string * span * X :=
  traced "stripe.webhook.dispatch".

(** ** Facts *)
Fixpoint slashes (s : string) : nat :=
  match s with EmptyString => 0 | String c rest => (if Ascii.eqb c "/" then S (slashes rest) else slashes rest) end.
Lemma before_slash_few n s : (slashes (before_slash n s) <= n)%nat.
Proof. revert n. induction s as [|c s IH]; intros n; cbn; [lia|]. destruct (Ascii.eqb c "/") eqn:E; [|cbn; rewrite E; apply IH].
  destruct n; cbn; [lia|]. rewrite E. specialize (IH n). lia. Qed.
Lemma before_slash_all n s : (slashes s <= n)%nat -> before_slash n s = s.
Proof. revert n. induction s as [|c s IH]; intros n; cbn; [done|]. destruct (Ascii.eqb c "/"); intros Hn; [|by rewrite IH].
  destruct n; [lia|]. by rewrite IH by lia. Qed.
Lemma before_slash_app n a b : (slashes a <= n)%nat -> before_slash n (a ^^ String "/" b) = a ^^ before_slash (n - slashes a) (String "/" b).
Proof.
  revert n. induction a as [|c a IH]; intros n; cbn [String.append slashes]; [by rewrite Nat.sub_0_r|].
  cbn [before_slash]. destruct (Ascii.eqb c "/"); intros Hn; [|by rewrite IH]. destruct n; [lia|]. by rewrite IH by lia.
Qed.
(** The label of a call is the version and the resource: whatever follows, an id above all,
    does not change it, so that there are no more labels than resources. *)
Theorem path_family_bounded version resource rest :
  slashes version = 0%nat -> slashes resource = 0%nat ->
  stripeAPIPathFamily ("/" ^^ version ^^ "/" ^^ resource) = "/" ^^ version ^^ "/" ^^ resource /\
  stripeAPIPathFamily ("/" ^^ version ^^ "/" ^^ resource ^^ "/" ^^ rest) = "/" ^^ version ^^ "/" ^^ resource.
Proof.
  intros Hv Hr. rewrite !append_assoc. cbn [stripeAPIPathFamily String.append].
  assert (Hs : slashes (version ^^ String "/" resource) = 1%nat).
  { clear rest. induction version as [|c v IH]; cbn in *; [by rewrite Hr|]. destruct (Ascii.eqb c "/"); [done|by apply IH]. }
  split; [by rewrite before_slash_all by lia|]. f_equal.
  replace (version ^^ String "/" (resource ^^ String "/" rest)) with ((version ^^ String "/" resource) ^^ String "/" rest) by (by rewrite !append_assoc).
  rewrite before_slash_app by lia. rewrite Hs. cbn. by rewrite append_nil_r.
Qed.

(** *** Calls in flight *)
Inductive rt_step : gmap nat outbound * Collector -> gmap nat outbound * Collector -> Prop :=
| rt_begins flying c id req : flying !! id = None -> rt_step (flying, c) (<[id := req]> flying, rt_begin req c)
| rt_ends flying c id req status dur : flying !! id = Some req -> rt_step (flying, c) (delete id flying, rt_end req status dur c).
Definition of_family (path : string) (flying : gmap nat outbound) : gmap nat outbound :=
  filter (fun x => stripeAPIPathFamily (ob_Path (snd x)) = path) flying.
Definition gauge_exact (s : gmap nat outbound * Collector) : Prop :=
  forall path, value ("outbound_in_flight", [path]) (snd s) = Z.of_nat (size (of_family path (fst s))).
Lemma value_add s s' d c : value s (add_value s' d c) = value s c + (if decide (s = s') then d else 0).
Proof.
  unfold value at 1, add_value. cbn. case_decide as E; [subst; by rewrite lookup_insert_eq|]. rewrite lookup_insert_ne by done. fold (value s c). lia.
Qed.
Lemma family_opens path flying id req : flying !! id = None ->
  Z.of_nat (size (of_family path (<[id := req]> flying))) =
  Z.of_nat (size (of_family path flying)) + (if decide (stripeAPIPathFamily (ob_Path req) = path) then 1 else 0).
Proof.
  intros Hid. unfold of_family. case_decide as E.
  - rewrite map_filter_insert_True by done. rewrite map_size_insert_None by (by apply map_lookup_filter_None_2; left). lia.
  - rewrite map_filter_insert_False by done. rewrite delete_id by done. lia.
Qed.
Lemma begin_value path req c :
  value ("outbound_in_flight", [path]) (rt_begin req c) =
  value ("outbound_in_flight", [path]) c + (if decide (stripeAPIPathFamily (ob_Path req) = path) then 1 else 0).
Proof.
  unfold rt_begin, Inc, in_flight. destruct (String.eqb _ ""); rewrite !value_add; repeat case_decide; simplify_eq; lia.
Qed.
Lemma end_value path req status dur c :
  value ("outbound_in_flight", [path]) (rt_end req status dur c) =
  value ("outbound_in_flight", [path]) c - (if decide (stripeAPIPathFamily (ob_Path req) = path) then 1 else 0).
Proof.
  unfold rt_end, Inc, Dec, in_flight. rewrite !value_add. change (value ?s (Observe _ _ c)) with (value s c).
  repeat case_decide; simplify_eq; lia.
Qed.
Lemma gauge_exact_step s s' : rt_step s s' -> gauge_exact s -> gauge_exact s'.
Proof.
  intros [flying c id req Hid|flying c id req status dur Hid] Hg path; specialize (Hg path); cbn in *.
  - rewrite begin_value, family_opens by done. lia.
  - rewrite end_value. pose proof (family_opens path (delete id flying) id req (lookup_delete_eq _ _)) as Hf.
    rewrite insert_delete_id in Hf by done. lia.
Qed.
(** However calls overlap, the gauge of a path is the number of its calls under way; it is
    zero when there are none. *)
Theorem in_flight_exact flying c :
  rtc rt_step (∅, NewCollector) (flying, c) -> gauge_exact (flying, c).
Proof.
  intros Hr. cut (gauge_exact (∅, NewCollector)); [|by intros path]. revert Hr. generalize (∅ : gmap nat outbound, NewCollector) as s0.
  induction 1 as [|s s1 s2 Hs _ IH]; eauto using gauge_exact_step.
Qed.

(** *** Transparency *)
(** A call sequence reaches the client as it was made, and the recorded status is the one
    the client sees: that of the first [WriteHeader], or 200 when the body comes first. *)
Theorem captured_correct calls :
  sw_passed (captured calls) = calls /\
  sw_status (captured calls) = match calls with CallWriteHeader code :: _ => code | _ => 200 end.
Proof.
  assert (Hw : forall calls w, sw_wroteHeader w = true -> sw_status (foldl write_to w calls) = sw_status w /\ sw_passed (foldl write_to w calls) = sw_passed w ++ calls).
  { clear calls. induction calls as [|c calls IH]; intros w Hh; cbn; [by rewrite app_nil_r|].
    assert (Hc : sw_wroteHeader (write_to w c) = true /\ sw_status (write_to w c) = sw_status w /\ sw_passed (write_to w c) = sw_passed w ++ [c])
      by (destruct c; cbn; unfold WriteHeader, Write; by rewrite Hh).
    destruct Hc as (Hc & Es & Ep). destruct (IH _ Hc) as [-> ->]. by rewrite Es, Ep, <- app_assoc. }
  unfold captured. destruct calls as [|c calls]; [done|]. cbn. destruct (Hw calls (write_to (mkCapture 200 false []) c)) as [-> ->]; by destruct c.
Qed.
(** The wrappers answer as what they wrap, and a span is an error exactly when that is. *)
Theorem wrappers_transparent {X} (f : QueueItem -> X -> option string * X) item dur c x :
  fst (fst (WrapProcessQueued f item dur c x)) = fst (f item x) /\ snd (WrapProcessQueued f item dur c x) = snd (f item x) /\
  exists sp, otel_WrapProcessQueued f item x = (fst (f item x), sp, snd (f item x)) /\ sn_error sp = fst (f item x) /\ sn_ended sp = true.
Proof.
  unfold WrapProcessQueued, otel_WrapProcessQueued, traced. destruct (f item x) as [[e|] x']; cbn; split_and!; try done; eexists; split_and!; done.
Qed.
