(* ===== verification/Examples.v ===== *)
(** * Examples: what the repository ships for its users to start from: the event fixtures of
      src/connectortest, and the catalogs of src/examples and src/cmd.

    [Fixtures] models connectortest/fixtures.go down to the signed body a test posts at the
    webhook handler; it shows that such an event is read back by the library as the event that
    was built. [Catalogs] holds the example catalogs as values; it shows that each of them is
    accepted, and what the rest of the library makes of them. *)
From S2P Require Import Prelude Json StripeApi Events InvoiceFacts Metering CatalogSpec CatalogSync CatalogSyncFacts CatalogSyncResult Credits CreditsMemory CreditHandlers CreditHandlerFacts Checkout Webhooks WebhookSource WebhookSourceFacts.

Module Fixtures.
(** ** Go maps on their way to JSON *)

(** A [map[string]any] as the members it is written with: in the order of the keys, a later
    assignment to a key replacing the earlier one. *)
Fixpoint put (k : string) (v : json) (m : list (string * json)) : list (string * json) :=
  match m with
  | [] => [(k, v)]
  | (k', v') :: m' =>
      match String.compare k k' with
      | Lt => (k, v) :: m
      | Eq => (k, v) :: m'
      | Gt => (k', v') :: put k v m'
      end
  end.
Definition go_map (l : list (string * json)) : json := JObj (fold_left (fun m '(k, v) => put k v m) l []).

(** A number decoded into an [any] is a float64: [float_text] is its literal after
    [strconv.ParseFloat] and encoding/json's writing of a float, [None] where it is out of
    range. Integers of at most 53 bits come back as they were. *)
Class Float64Text := {
  float_text : string -> option string;
  float_text_int : forall z, Z.abs z <= 2 ^ 53 -> float_text (fmt_d z) = Some (fmt_d z);
}.

(** The order of literal keys. *)
Ltac in_order :=
  repeat match goal with
  | |- context [String.compare ?a ?b] =>
      let r := eval vm_compute in (String.compare a b) in
      replace (String.compare a b) with r by (vm_compute; reflexivity)
  end.
Ltac members := unfold go_map; cbn [app fold_left put]; repeat (progress in_order; cbn [fold_left put]).

Section fixtures.
Context `{Float64Text} `{Sha256}.

(** [json.Unmarshal] into an [any] followed by [json.Marshal]. *)
Fixpoint any_value (j : json) : option json :=
  match j with
  | JNum lit => JNum <$> float_text lit
  | JArr l => JArr <$> foldr (fun j r => v ← any_value j; r ← r; Some (v :: r)) (Some []) l
  | JObj l => go_map <$> foldr (fun '(k, j) r => v ← any_value j; r ← r; Some ((k, v) :: r)) (Some []) l
  | j => Some j
  end.

(** ** The fixtures; [now] is the clock *)
Definition wrapEvent (now : Z) (id eventType : string) (body : json) : Event :=
  let evt := mkStripeEvent ("evt_" ^^ id) eventType false (Unix now) (Some (render body)) in
  mkEvent (se_ID evt) (se_Type evt) (se_Livemode evt) (se_Created evt) (Some evt).

Definition stamp_metadata (namespace subject : string) : list (string * json) :=
  [("app_namespace", JStr namespace); ("subject_id", JStr subject)].

Definition CheckoutCompleted (now : Z) (namespace subject sessionID : string) : Event :=
  wrapEvent now sessionID "checkout.session.completed" (go_map
    [("id", JStr sessionID); ("object", JStr "checkout.session"); ("payment_intent", JStr ("pi_" ^^ sessionID));
     ("metadata", go_map (stamp_metadata namespace subject))]).
Definition CheckoutCompletedWithCredits (now : Z) (namespace subject sessionID : string) (grants : list PendingGrant)
  : res metadata_error Event :=
  match EncodeSessionMetadata grants with
  | Err e => Err e
  | Ok encoded =>
      Ok (wrapEvent now sessionID "checkout.session.completed" (go_map
        [("id", JStr sessionID); ("object", JStr "checkout.session"); ("payment_intent", JStr ("pi_" ^^ sessionID));
         ("metadata", go_map (stamp_metadata namespace subject ++ [("credit_grants", JStr encoded)]))]))
  end.
Definition InvoicePaid (now : Z) (namespace subject invoiceID : string) (amountPaid : Z) : Event :=
  wrapEvent now invoiceID "invoice.paid" (go_map
    [("id", JStr invoiceID); ("object", JStr "invoice"); ("amount_paid", JNum (fmt_d amountPaid));
     ("metadata", go_map (stamp_metadata namespace subject))]).
Definition SubscriptionCreated (now : Z) (namespace subject subscriptionID customerID : string) : Event :=
  wrapEvent now subscriptionID "customer.subscription.created" (go_map
    [("id", JStr subscriptionID); ("object", JStr "subscription"); ("customer", JStr customerID); ("status", JStr "active");
     ("metadata", go_map (stamp_metadata namespace subject))]).
Definition SubscriptionCanceled (now : Z) (namespace subject subscriptionID : string) : Event :=
  wrapEvent now subscriptionID "customer.subscription.deleted" (go_map
    [("id", JStr subscriptionID); ("object", JStr "subscription"); ("status", JStr "canceled");
     ("metadata", go_map (stamp_metadata namespace subject))]).
Definition PaymentFailed (now : Z) (namespace subject paymentIntentID declineCode : string) : Event :=
  wrapEvent now paymentIntentID "payment_intent.payment_failed" (go_map
    [("id", JStr paymentIntentID); ("object", JStr "payment_intent"); ("status", JStr "requires_payment_method");
     ("last_payment_error", go_map [("code", JStr declineCode); ("decline_code", JStr declineCode)]);
     ("metadata", go_map (stamp_metadata namespace subject))]).

(** ** SignedBody *)
Inductive sign_error := EventRawNil | DecodeInner.
(** A panic: a nil [Data], or a signer without a secret. *)
Inductive signed := Signed (body signature : string) | SignFailed (e : sign_error) | SignPanic.

Definition envelope (apiVersion : string) (raw : stripe_event) (data : json) : json :=
  go_map [("id", JStr (se_ID raw)); ("object", JStr "event"); ("api_version", JStr apiVersion);
          ("type", JStr (se_Type raw)); ("livemode", JBool (se_Livemode raw)); ("created", JNum (fmt_d (se_Created raw)));
          ("data", data)].
(** [apiVersion] is the [APIVersion] of the event, which the fixtures set to the SDK's. *)
Definition SignedBody (apiVersion secret : string) (now : Z) (evt : Event) : signed :=
  match ev_Raw evt with
  | None => SignFailed EventRawNil
  | Some raw =>
      match se_Data raw with
      | None => SignPanic
      | Some text =>
          let data :=
            if (0 <? String.length text)%nat then
              match parse text with
              | None => Err DecodeInner
              | Some j => match any_value j with
                          | None => Err DecodeInner
                          | Some inner => Ok (go_map [("object", inner)])
                          end
              end
            else Ok (go_map []) in
          match data with
          | Err e => SignFailed e
          | Ok data =>
              let body := render (envelope apiVersion raw data) in
              match NewSigner secret with
              | Err _ => SignPanic
              | Ok signer => Signed body (Sign signer body now)
              end
          end
      end
  end.

(** ** What a fixture is *)
Inductive is_fixture (now : Z) (namespace subject : string) : Event -> Prop :=
| fx_checkout id : utf8_ok id -> is_fixture now namespace subject (CheckoutCompleted now namespace subject id)
| fx_credits id grants evt : utf8_ok id -> Forall pending_ok grants ->
    CheckoutCompletedWithCredits now namespace subject id grants = Ok evt -> is_fixture now namespace subject evt
| fx_invoice id amount : utf8_ok id -> Z.abs amount <= 2 ^ 53 -> is_fixture now namespace subject (InvoicePaid now namespace subject id amount)
| fx_created id customer : utf8_ok id -> utf8_ok customer ->
    is_fixture now namespace subject (SubscriptionCreated now namespace subject id customer)
| fx_canceled id : utf8_ok id -> is_fixture now namespace subject (SubscriptionCanceled now namespace subject id)
| fx_failed id code : utf8_ok id -> utf8_ok code -> is_fixture now namespace subject (PaymentFailed now namespace subject id code).

(** A tree that survives an [any]: keys in order, integers of at most 53 bits. *)
Fixpoint plain (j : json) : Prop :=
  match j with
  | JNum lit => exists z, lit = fmt_d z /\ Z.abs z <= 2 ^ 53
  | JArr l => foldr (fun j P => plain j /\ P) True l
  | JObj l => go_map l = JObj l /\ foldr (fun '(_, j) P => plain j /\ P) True l
  | _ => True
  end.

(** The encoded grants are text. *)
Lemma encoded_ok grants v : Forall pending_ok grants -> EncodeSessionMetadata grants = Ok v -> utf8_ok v.
Proof.
  intros Hg. destruct grants as [|g gs]; [by intros [= <-]|]. unfold EncodeSessionMetadata. cbv zeta.
  destruct (Nat.ltb _ _); [done|]. intros E. assert (v = render (JArr (map enc_PendingGrant (g :: gs)))) as -> by congruence.
  apply utf8_ok_render, json_ok_arr, Forall_map. eapply Forall_impl; [exact Hg|]. apply json_ok_pending.
Qed.

Lemma any_value_plain j : plain j -> any_value j = Some j.
Proof.
  induction j as [| | | |l IH|l IH] using json_ind; cbn [plain any_value]; intros Hj; try done.
  - destruct Hj as (z & -> & Hz). by rewrite float_text_int.
  - enough (E : foldr (fun j r => v ← any_value j; r ← r; Some (v :: r)) (Some []) l = Some l) by (by rewrite E).
    induction IH as [|j l Hjk _ IHl]; [done|]. destruct Hj as [Hj Hl]. cbn [foldr]. by rewrite Hjk, IHl.
  - destruct Hj as [Hm Hj].
    enough (E : foldr (fun '(k, j) r => v ← any_value j; r ← r; Some ((k, v) :: r)) (Some []) l = Some l) by (rewrite E; cbn; by rewrite Hm).
    clear Hm. induction IH as [|[k j] l Hjk _ IHl]; [done|]. destruct Hj as [Hj Hl]. cbn [foldr snd] in *. by rewrite Hjk, IHl.
Qed.

(** What the theorems need of a fixture's body. *)
Record good_body (namespace : string) (body : json) : Prop := mkGood {
  gb_ok : json_ok body;
  gb_plain : plain body;
  gb_namespace : exists meta, dec_metadata ∅ body = Some meta /\ meta !! MetadataKeyNamespace = Some namespace;
  gb_object : exists text, render body = String "{" text }.

Lemma utf8_ok_prefix p s : keeps p -> utf8_ok s -> utf8_ok (p ^^ s).
Proof. unfold utf8_ok. intros Hp Hs. by rewrite Hp, Hs. Qed.
Ltac good_body :=
  unfold stamp_metadata; members; split;
    [cbn; repeat split; solve [assumption|reflexivity|eauto|apply (utf8_ok_prefix "pi_"); [intros ?; reflexivity|assumption]]
    |cbn; repeat split; solve [reflexivity|eauto]
    |eexists; unfold dec_metadata; cbn [dec_struct dec_field dec_smap dec_entries dec_string]; match_names; split; reflexivity
    |eexists; reflexivity].
Lemma fixture_body now namespace subject evt :
  utf8_ok namespace -> utf8_ok subject -> is_fixture now namespace subject evt ->
  exists id type body, evt = wrapEvent now id type body /\ utf8_ok id /\ utf8_ok type /\ good_body namespace body.
Proof.
  intros Hn Hs. destruct 1 as [id Hid|id grants evt Hid Hg E|id amount Hid Ha|id customer Hid Hc|id Hid|id code Hid Hc].
  1, 3, 4, 5, 6: do 3 eexists; split; [reflexivity|split; [exact Hid|split; [reflexivity|]]]; good_body.
  unfold CheckoutCompletedWithCredits in E. destruct (EncodeSessionMetadata grants) as [encoded|] eqn:Ee; [|done].
  assert (He : utf8_ok encoded) by (by eapply encoded_ok).
  injection E as <-. do 3 eexists; split; [reflexivity|split; [exact Hid|split; [reflexivity|]]]. good_body.
Qed.

(** A fixture carries its namespace to the filter: a handler of that namespace dispatches it,
    a handler of any other skips it. *)
Theorem fixture_routed now namespace subject evt raw other :
  utf8_ok namespace -> utf8_ok subject -> is_fixture now namespace subject evt -> namespace <> "" -> other <> "" ->
  ev_Raw evt = Some raw ->
  classifyNamespace other raw = if String.eqb namespace other then filterDispatch else filterSkip.
Proof.
  intros Hn Hs Hf Hne Ho. destruct (fixture_body _ _ _ _ Hn Hs Hf) as (id & type & body & -> & _ & _ & [Hok _ (meta & Hm & Hns) (text & Ht)]).
  intros [= <-]. unfold classifyNamespace, extractAppNamespace, raw_data. rewrite (proj2 (String.eqb_neq _ _) Ho). cbn [se_Data].
  rewrite Ht, <- Ht. unfold Unmarshal. rewrite parse_render, Hm by done. cbv iota beta. rewrite Hns.
  by rewrite (proj2 (String.eqb_neq _ _) Hne).
Qed.

(** The signed body of a fixture is a document that reads back as Stripe's envelope around
    the tree the fixture holds, and is signed with the secret. *)
Theorem signed_reads_back apiVersion secret now namespace subject evt raw t :
  utf8_ok namespace -> utf8_ok subject -> utf8_ok apiVersion -> secret <> "" ->
  is_fixture now namespace subject evt -> ev_Raw evt = Some raw ->
  exists body inner,
    SignedBody apiVersion secret t evt = Signed body (signPayload secret body t) /\
    se_Data raw = Some (render inner) /\
    parse body = Some (JObj [("api_version", JStr apiVersion); ("created", JNum (fmt_d (se_Created raw)));
      ("data", JObj [("object", inner)]); ("id", JStr (se_ID raw)); ("livemode", JBool (se_Livemode raw)); ("object", JStr "event");
      ("type", JStr (se_Type raw))]).
Proof.
  intros Hn Hs Hv Hsec Hf. destruct (fixture_body _ _ _ _ Hn Hs Hf) as (id & type & body & -> & Hid & Hty & [Hok Hp _ (text & Ht)]).
  intros [= <-]. unfold SignedBody. cbn [wrapEvent ev_Raw se_Data]. rewrite Ht. cbn [String.length Nat.ltb Nat.leb]. rewrite <- Ht.
  rewrite parse_render, any_value_plain by done. unfold NewSigner. rewrite (proj2 (String.eqb_neq _ _) Hsec).
  do 2 eexists. split; [reflexivity|]. split; [reflexivity|]. rewrite parse_render; [reflexivity|].
  unfold envelope. members. cbn. repeat split; solve [assumption|eauto|apply (utf8_ok_prefix "evt_"); [intros ?; reflexivity|assumption]].
Qed.

(** ** Posting a fixture *)

(** What stripe-go documents of a body signed with the endpoint's secret at the time [t]: the
    signature is accepted, the fields are read by their names and [Data.Raw] holds the bytes of
    data.object. *)
Definition constructs (ConstructEvent : string -> string -> string -> option stripe_event) (apiVersion : string) (t : Z) : Prop :=
  forall secret id type live created inner,
    utf8_ok id -> utf8_ok type -> in_int64 created -> json_ok inner ->
    let body := render (envelope apiVersion (mkStripeEvent id type live created None) (go_map [("object", inner)])) in
    ConstructEvent body (signPayload secret body t) secret = Some (mkStripeEvent id type live created (Some (render inner))).

(** A fixture posted at a handler with the same secret is verified as exactly the event that was
    built. *)
Theorem posted_fixture_verifies {A : Type} ConstructEvent apiVersion (w : Webhooks A) now namespace subject evt t :
  utf8_ok namespace -> utf8_ok subject -> in_int64 (Unix now) -> w_signingSecret w <> "" ->
  constructs ConstructEvent apiVersion t -> is_fixture now namespace subject evt ->
  exists body signature,
    SignedBody apiVersion (w_signingSecret w) t evt = Signed body signature /\
    verifySignature ConstructEvent w body signature = ev_Raw evt.
Proof.
  intros Hn Hs Hnow Hsec Hc Hf. destruct (fixture_body _ _ _ _ Hn Hs Hf) as (id & type & body & -> & Hid & Hty & [Hok Hp _ (text & Ht)]).
  unfold SignedBody. cbn [wrapEvent ev_Raw se_Data]. rewrite Ht. cbn [String.length Nat.ltb Nat.leb]. rewrite <- Ht.
  rewrite parse_render, any_value_plain by done. unfold NewSigner. rewrite (proj2 (String.eqb_neq _ _) Hsec).
  assert (Hid' : utf8_ok ("evt_" ^^ id)) by (apply (utf8_ok_prefix "evt_"); [intros ?; reflexivity|done]).
  do 2 eexists. split; [reflexivity|]. unfold verifySignature, Sign.
  change (envelope apiVersion _ ?data) with (envelope apiVersion (mkStripeEvent ("evt_" ^^ id) type false (Unix now) None) data).
  by rewrite Hc.
Qed.

(** The session a fixture with credits describes. *)
Definition fixture_session (namespace subject sessionID encoded : string) : sessionShape :=
  mkSession sessionID {["app_namespace" := namespace; "credit_grants" := encoded; "subject_id" := subject]} ("pi_" ^^ sessionID).
(** The credit handler grants exactly the credits the fixture was built with. *)
Theorem fixture_grants {S} `{CreditRepo S} (st : nat -> nat -> S -> stamp) now namespace subject id grants evt s :
  utf8_ok namespace -> utf8_ok subject -> utf8_ok id -> Forall pending_ok grants -> grants <> [] -> subject <> "" ->
  CheckoutCompletedWithCredits now namespace subject id grants = Ok evt ->
  exists encoded, EncodeSessionMetadata grants = Ok encoded /\
    ApplyGrantsFromSession st evt s = grant_all st (fixture_session namespace subject id encoded) subject 0 grants s.
Proof.
  intros Hn Hs Hid Hg Hne Hsub. unfold CheckoutCompletedWithCredits. destruct (EncodeSessionMetadata grants) as [encoded|] eqn:Ee; [|done].
  pose proof (encoded_ok _ _ Hg Ee) as He. pose proof (decode_encode_metadata _ _ Hg Ee) as Hd.
  intros [= <-]. exists encoded. split; [done|].
  set (body := go_map _). assert (good_body namespace body) as [Hok _ _ (text & Ht)] by (unfold body; good_body).
  assert (Hdec : decodeSession (wrapEvent now id "checkout.session.completed" body) = Some (fixture_session namespace subject id encoded)).
  { unfold decodeSession, event_data, raw_data. cbn [wrapEvent ev_Raw se_Data]. rewrite Ht, <- Ht. unfold Unmarshal. rewrite parse_render by done.
    unfold body, dec_session, stamp_metadata. members. cbn [dec_struct dec_field dec_smap dec_entries dec_string ss_ID ss_Metadata ss_PaymentIntent].
    match_names. reflexivity. }
  unfold ApplyGrantsFromSession. cbn [wrapEvent ev_Type]. cbn [negb andb]. rewrite Hdec. cbn [fixture_session ss_Metadata].
  change (mget _ SessionMetadataKey) with encoded. change (mget _ "subject_id") with subject. rewrite Hd.
  destruct (String.eqb_spec encoded "") as [->|_]; [destruct grants; [done|discriminate Hd]|].
  rewrite (proj2 (String.eqb_neq _ _) Hsub). by destruct grants.
Qed.
End fixtures.

(** ** connectortest.go; the event store is rho-kit's *)
Section repos.
Context {Store : Type} (idempotency_NewMemoryStore : Store).
Definition test_NewMemoryEventStore : Store := idempotency_NewMemoryStore.
Definition test_NewMemoryCustomerRepo : memoryCustomerRepo := NewMemoryCustomerRepo.
Definition test_NewMemoryCreditRepo : Memory.memoryRepo := Memory.NewMemoryRepo.
Definition test_NewSigner (secret : string) : res string string := NewSigner secret.
Record MemoryRepos := mkMemoryRepos { mr_Customers : memoryCustomerRepo; mr_Events : Store; mr_Credits : Memory.memoryRepo }.
Definition NewMemoryRepos : MemoryRepos :=
  mkMemoryRepos test_NewMemoryCustomerRepo test_NewMemoryEventStore test_NewMemoryCreditRepo.
End repos.

(** ** Witnesses *)
Module FixturesDemo.
Import KeysDemo.
(** Literals are kept: enough for integers of 53 bits. *)
#[refine] Definition literals : Float64Text := {| float_text lit := Some lit |}.
Proof. done. Defined.
(** A reader of envelopes that checks the signature it would have made itself. *)
Definition construct (t : Z) (body signature secret : string) : option stripe_event :=
  if negb (String.eqb signature (signPayload (H := demo_Sha256) secret body t)) then None
  else match parse body with
  | Some (JObj [_; (_, JNum created); (_, JObj [(_, inner)]); (_, JStr id); (_, JBool live); _; (_, JStr type)]) =>
      (fun c => mkStripeEvent id type live c (Some (render inner))) <$> parse_int64 created
  | _ => None
  end.
Lemma construct_ok t : constructs (H0 := demo_Sha256) (construct t) "2025-08-27" t.
Proof.
  intros secret id type live created inner Hid Hty Hc Hok body. unfold construct. rewrite String.eqb_refl. cbn [negb].
  unfold body, envelope. members. rewrite parse_render by (cbn; repeat split; solve [assumption|eauto]). cbn [se_ID se_Type se_Livemode se_Created].
  by rewrite parse_fmt_d.
Qed.
Definition handler : Webhooks unit := mkWebhooks "whsec_1" [] "shop" SourceDemo.no_handlers ∅ false false ∅ 0.
Definition noon : Z := 1760000000 * second.
Definition paid : Event := InvoicePaid noon "shop" "user_1" "in_1" 4900.
Lemma paid_fixture : is_fixture noon "shop" "user_1" paid.
Proof. apply fx_invoice; [reflexivity|lia]. Qed.
Lemma noon_ok : in_int64 (Unix noon).
Proof. split; vm_compute; discriminate. Qed.

Lemma posted_fixture_verifies_witness :
  exists body signature,
    SignedBody (H := literals) "2025-08-27" "whsec_1" noon paid = Signed body signature /\
    verifySignature (construct noon) handler body signature = ev_Raw paid.
Proof.
  exact (posted_fixture_verifies (H := literals) (construct noon) "2025-08-27" handler noon "shop" "user_1" paid noon eq_refl eq_refl noon_ok
           ltac:(discriminate) (construct_ok noon) paid_fixture).
Defined.
Lemma fixture_routed_witness :
  classifyNamespace "shop" (default (mkStripeEvent "" "" false 0 None) (ev_Raw paid)) = filterDispatch.
Proof.
  exact (fixture_routed noon "shop" "user_1" paid _ "shop" eq_refl eq_refl paid_fixture ltac:(discriminate) ltac:(discriminate) eq_refl).
Defined.
(** The text of the body, with apostrophes for the quotes. *)
Lemma paid_text :
  match SignedBody (H := literals) "2025-08-27" "whsec_1" noon paid with Signed body _ => body | _ => "" end =
  with_quotes ("{'api_version':'2025-08-27','created':1760000000,'data':{'object':{'amount_paid':4900,'id':'in_1'," ^^
    "'metadata':{'app_namespace':'shop','subject_id':'user_1'},'object':'invoice'}},'id':'evt_in_1','livemode':false,'object':'event'," ^^
    "'type':'invoice.paid'}").
Proof. vm_compute. reflexivity. Qed.
(** A body that was never set, or a missing secret. *)
Lemma unsigned :
  SignedBody (H := literals) "" "whsec_1" noon (mkEvent "" "" false 0 None) = SignFailed EventRawNil /\
  SignedBody (H := literals) "" "whsec_1" noon (mkEvent "" "" false 0 (Some (mkStripeEvent "" "" false 0 None))) = SignPanic /\
  SignedBody (H := literals) "" "" noon paid = SignPanic.
Proof. repeat split; vm_compute; reflexivity. Qed.
End FixturesDemo.
End Fixtures.

Module Catalogs.
(** ** The constants of catalog/types.go the catalogs are written with *)
Definition IntervalMonth : string := "month".
Definition IntervalYear : string := "year".
Definition IntervalWeek : string := "week".
Definition IntervalDay : string := "day".
(** The constants of catalog/types.go: name after [TaxCategory], and tax code. *)
Definition tax_categories : list (string * string) := [
  ("GeneralDigital", "txcd_10000000");
  ("GeneralService", "txcd_20030000");
  ("GeneralTangible", "txcd_99999999");
  ("Nontaxable", "txcd_00000000");
  ("SaaSPersonal", "txcd_10103000");
  ("SaaSBusiness", "txcd_10103001");
  ("SaaSDownloadablePersonal", "txcd_10103100");
  ("SaaSDownloadableBusiness", "txcd_10103101");
  ("BusinessProcessAsService", "txcd_10104001");
  ("IaaSPersonal", "txcd_10010001");
  ("IaaSBusiness", "txcd_10101000");
  ("PaaSBusiness", "txcd_10102000");
  ("PaaSPersonal", "txcd_10102001");
  ("AIaaSCloudPersonal", "txcd_10105001");
  ("AIaaSCloudBusiness", "txcd_10105002");
  ("AIaaSCloudDownloadPersonal", "txcd_10105003");
  ("AIaaSCloudDownloadBusiness", "txcd_10105004");
  ("DownloadableSoftwarePersonal", "txcd_10202000");
  ("DownloadableSoftwareNonRecreationalPersonal", "txcd_10202001");
  ("DownloadableSoftwareBusiness", "txcd_10202003");
  ("DownloadableSoftwareCustomPersonal", "txcd_10203000");
  ("DownloadableSoftwareCustomBusiness", "txcd_10203001");
  ("VideoGameDownloadPermanent", "txcd_10201000");
  ("VideoGameDownloadLimited", "txcd_10201001");
  ("VideoGameDownloadSubscription", "txcd_10201002");
  ("VideoGameStreamedNonSubscription", "txcd_10201003");
  ("VideoGameStreamedSubscription", "txcd_10201004");
  ("Audiobook", "txcd_10301000");
  ("DigitalBookDownloadPermanent", "txcd_10302000");
  ("DigitalBookDownloadLimited", "txcd_10302001");
  ("DigitalBookDownloadSubscription", "txcd_10302002");
  ("DigitalBookViewableSubscription", "txcd_10302003");
  ("DigitalTextbookLimited", "txcd_10305000");
  ("DigitalTextbookPermanent", "txcd_10305001");
  ("DigitalMagazineDownloadSubscription", "txcd_10303000");
  ("DigitalMagazineTangibleAndDigital", "txcd_10303001");
  ("DigitalMagazineViewableSubscription", "txcd_10303002");
  ("DigitalMagazineDownloadPermanent", "txcd_10303100");
  ("DigitalMagazineViewableLimited", "txcd_10303101");
  ("DigitalMagazineViewablePermanent", "txcd_10303102");
  ("DigitalMagazineDownloadLimited", "txcd_10303104");
  ("DigitalNewspaperDownloadPermanent", "txcd_10304000");
  ("DigitalNewspaperViewableLimited", "txcd_10304001");
  ("DigitalNewspaperViewablePermanent", "txcd_10304002");
  ("DigitalNewspaperDownloadLimited", "txcd_10304003");
  ("DigitalNewspaperDownloadSubscription", "txcd_10304100");
  ("DigitalNewspaperTangibleAndDigital", "txcd_10304101");
  ("DigitalNewspaperViewableSubscription", "txcd_10304102");
  ("DigitalAudioStreamedLimited", "txcd_10401000");
  ("DigitalAudioDownloadLimited", "txcd_10401001");
  ("DigitalAudioDownloadPermanent", "txcd_10401100");
  ("DigitalAudioStreamedSubscription", "txcd_10401200");
  ("DigitalVideoStreamedLimited", "txcd_10402000");
  ("DigitalVideoDownloadPermanent", "txcd_10402100");
  ("DigitalVideoDownloadLimited", "txcd_10402110");
  ("DigitalVideoStreamedSubscription", "txcd_10402200");
  ("DigitalVideoLiveEvent", "txcd_10402300");
  ("DigitalImagePermanent", "txcd_10501000");
  ("GiftCard", "txcd_10502000");
  ("DigitalGreetingAudio", "txcd_10506000");
  ("DigitalGreetingAudioVisual", "txcd_10506001");
  ("DigitalGreetingStatic", "txcd_10506002");
  ("WebsiteAdvertising", "txcd_10701000");
  ("WebsiteHosting", "txcd_10701100");
  ("WebsiteDesign", "txcd_10701200");
  ("WebsiteDataProcessing", "txcd_10701300");
  ("OnlineDating", "txcd_10702000");
  ("SoftwareDocCustom", "txcd_10504000");
  ("SoftwareDocPrewritten", "txcd_10504003")].
(** [TaxCategory<name>]; the one alias is [TaxCategorySaaS]. *)
Definition TaxCategory (name : string) : string :=
  let name := if String.eqb name "SaaS" then "SaaSPersonal" else name in
  match find (fun c => String.eqb c.1 name) tax_categories with Some (_, code) => code | None => "" end.

(** Go's keyed literals: the fields that are not named are zero. *)
Definition one_time (amount : Z) (currency : string) : Price := mkPrice amount currency PriceTypeOneTime "" 0 "" "" [].
Definition recurring (amount : Z) (currency interval : string) : Price := mkPrice amount currency PriceTypeRecurring interval 0 "" "" [].
Definition metered (amount : Z) (currency interval meter : string) : Price := mkPrice amount currency PriceTypeRecurring interval 0 meter "" [].
Definition percent_once (percent : Z) : Coupon := mkCoupon (float64 percent) 0 "" CouponDurationOnce 0 0 [] false.
Definition percent_for (percent months : Z) : Coupon := mkCoupon (float64 percent) 0 "" CouponDurationRepeating months 0 [] false.

(** ** examples/cohort_course *)
Definition AccessBucket : string := "course_access".
Definition cohort_course_Spec : Spec := mkSpec "cohort_demo"
  {["cohort_q1_2026" :=
      mkProduct "Building B2B SaaS — Q1 2026 cohort" "12 weekly live sessions + 6 months recording access"
        (TaxCategory "DigitalBookDownloadPermanent") {["default" := one_time 49900 "eur"]}
        (Some (mkCreditGrant AccessBucket 1 180)) None ∅;
    "cohort_q2_2026" :=
      mkProduct "Building B2B SaaS — Q2 2026 cohort" "Spring cohort, same format"
        (TaxCategory "DigitalBookDownloadPermanent") {["default" := one_time 49900 "eur"]}
        (Some (mkCreditGrant AccessBucket 1 180)) None ∅;
    "lifetime_access" :=
      mkProduct "Lifetime access — all current + future cohorts" "One-time purchase, no expiry"
        (TaxCategory "DigitalBookDownloadPermanent") {["default" := one_time 199900 "eur"]}
        (Some (mkCreditGrant AccessBucket 1 0)) None ∅]}
  {["EARLY_BIRD_20" := percent_once 20]} ∅.

(** ** examples/credit_topup *)
Definition CreditsBucket : string := "api_credits".
Definition credit_topup_Spec : Spec := mkSpec "credits_demo"
  {["pack_small" :=
      mkProduct "Credit Pack — 1,000 credits" "One-time top-up; credits never expire" (TaxCategory "SaaSPersonal")
        {["default" := one_time 1000 "eur"]} (Some (mkCreditGrant CreditsBucket 1000 0)) None ∅;
    "pack_medium" :=
      mkProduct "Credit Pack — 5,000 credits" "20% better unit price than the small pack" (TaxCategory "SaaSPersonal")
        {["default" := one_time 4000 "eur"]} (Some (mkCreditGrant CreditsBucket 5000 0)) None ∅;
    "pack_large" :=
      mkProduct "Credit Pack — 25,000 credits" "Best unit price" (TaxCategory "SaaSPersonal")
        {["default" := one_time 15000 "eur"]} (Some (mkCreditGrant CreditsBucket 25000 0)) None ∅;
    "auto_refill_pro" :=
      mkProduct "Auto-Refill — 10,000 credits/month" "Monthly subscription; credits expire 30 days after grant" (TaxCategory "SaaS")
        {["monthly_eur" := recurring 7900 "eur" IntervalMonth]} None (Some (mkRecurringGrant CreditsBucket 10000 30)) ∅]}
  ∅ ∅.

(** ** examples/included_quota *)
Definition VoiceMinutesBucket : string := "voice_minutes".
Definition VoiceOverageMetric : string := "voice_minutes_overage".
Definition included_quota_Spec : Spec := mkSpec "voicequota_demo"
  {["starter" :=
      mkProduct "Voice Starter" "60 minutes/month included. Hard cap — upgrade for more." (TaxCategory "SaaSBusiness")
        {["monthly_eur" := recurring 1900 "eur" IntervalMonth]}
        None (Some (mkRecurringGrant VoiceMinutesBucket 60 31))
        {["tier" := "starter"; "included_minutes" := "60"; "overage_allowed" := "false"]};
    "pro" :=
      mkProduct "Voice Pro" "600 minutes/month included; overage €0.05/min via metered billing" (TaxCategory "SaaSBusiness")
        {["monthly_eur" := recurring 9900 "eur" IntervalMonth; "overage_eur" := metered 5 "eur" IntervalMonth "voice_overage_meter"]}
        None (Some (mkRecurringGrant VoiceMinutesBucket 600 31))
        {["tier" := "pro"; "included_minutes" := "600"; "overage_allowed" := "true"; "overage_metric" := VoiceOverageMetric;
          "overage_unit_cents" := "5"]};
    "enterprise" :=
      mkProduct "Voice Enterprise" "Unlimited; custom-priced via Sales" (TaxCategory "SaaSBusiness")
        {["custom_yearly_eur" := recurring 1 "eur" IntervalYear]} None None
        {["tier" := "enterprise"; "included_minutes" := "unlimited"; "contact_only" := "true"]}]}
  ∅
  {["voice_overage_meter" := mkMeter "Voice transcription overage (minutes)" "voice_overage" "sum"]}.

(** ** examples/per_seat_metered *)
Definition APICallsMetric : string := "api_calls".
Definition per_seat_metered_Spec : Spec := mkSpec "perseat_demo"
  {["team_plan" :=
      mkProduct "Team Plan" "€15/seat/month + €0.001/API call after 100K free" (TaxCategory "SaaSBusiness")
        {["per_seat_monthly_eur" := recurring 1500 "eur" IntervalMonth; "per_seat_yearly_eur" := recurring 15000 "eur" IntervalYear;
          "api_calls_overage_eur" := metered 1 "eur" IntervalMonth "api_calls_meter"]}
        None (Some (mkRecurringGrant "api_calls_included" 100000 31))
        {["shape" := "per_seat_with_metered_overage"; "included_api_calls" := "100000"]}]}
  {["ANNUAL_DISCOUNT_15" := percent_for 15 12]}
  {["api_calls_meter" := mkMeter "API calls (over the included 100K)" "api_call" "sum"]}.

(** ** examples/saas_tiers *)
Definition saas_tiers_Spec : Spec := mkSpec "saas_tiers_demo"
  {["free" :=
      mkProduct "Free" "Get started with limited features at no cost" (TaxCategory "SaaS")
        {["monthly" := recurring 0 "eur" IntervalMonth]} None None
        {["tier" := "free"; "max_seats" := "1"; "max_api_calls_mo" := "1000"; "support" := "community"; "included_storage_gb" := "1"]};
    "standard" :=
      mkProduct "Standard" "Everything most teams need" (TaxCategory "SaaS")
        {["monthly_eur" := recurring 2900 "eur" IntervalMonth; "yearly_eur" := recurring 29000 "eur" IntervalYear;
          "monthly_usd" := recurring 3200 "usd" IntervalMonth; "yearly_usd" := recurring 32000 "usd" IntervalYear]} None None
        {["tier" := "standard"; "max_seats" := "10"; "max_api_calls_mo" := "50000"; "support" := "business-hours email";
          "included_storage_gb" := "50"]};
    "pro" :=
      mkProduct "Pro" "Advanced features for growing teams" (TaxCategory "SaaS")
        {["monthly_eur" := recurring 9900 "eur" IntervalMonth; "yearly_eur" := recurring 99000 "eur" IntervalYear;
          "monthly_usd" := recurring 10900 "usd" IntervalMonth; "yearly_usd" := recurring 109000 "usd" IntervalYear]} None None
        {["tier" := "pro"; "max_seats" := "50"; "max_api_calls_mo" := "500000"; "support" := "priority email + chat";
          "included_storage_gb" := "500"; "sso_enabled" := "true"; "audit_log_enabled" := "true"]};
    "enterprise" :=
      mkProduct "Enterprise" "Custom pricing, dedicated support, contractual SLAs" (TaxCategory "SaaS")
        {["custom_eur" := recurring 1 "eur" IntervalYear]} None None
        {["tier" := "enterprise"; "max_seats" := "custom"; "max_api_calls_mo" := "custom"; "support" := "dedicated CSM";
          "sso_enabled" := "true"; "audit_log_enabled" := "true"; "contact_only" := "true"]}]}
  {["NEW_CUSTOMER_20" := percent_once 20; "YEARLY_UPGRADE_10" := percent_for 10 12]} ∅.

(** ** examples/quickstart, cmd/example-sync and cmd/example-webhook *)
Definition quickstart_spec : Spec := mkSpec "quickstart"
  {["pro" := mkProduct "Pro plan" "" (TaxCategory "SaaSBusiness") {["monthly" := recurring 1900 "eur" IntervalMonth]} None None ∅]} ∅ ∅.
Definition demo_products (description : string) : gmap string Product :=
  {["pro_plan" :=
      mkProduct "Demo Pro Plan" description (TaxCategory "SaaS")
        {["monthly_eur" := recurring 4900 "eur" IntervalMonth; "yearly_eur" := recurring 49000 "eur" IntervalYear]} None None ∅;
    "credit_pack_1000_ai" :=
      mkProduct "1000 Demo AI Credits" "" (TaxCategory "SaaS") {["default" := one_time 1000 "eur"]}
        (Some (mkCreditGrant "ai" 1000 90)) None ∅]}.
Definition sync_demoCatalog : Spec := mkSpec "scdemo" (demo_products "Sample product created by rho-stripe example-sync") ∅ ∅.
Definition webhook_demoCatalog : Spec := mkSpec "scdemo" (demo_products "") ∅ ∅.

Definition examples : list Spec :=
  [cohort_course_Spec; credit_topup_Spec; included_quota_Spec; per_seat_metered_Spec; saas_tiers_Spec; quickstart_spec;
   sync_demoCatalog; webhook_demoCatalog].

(** ** Facts *)

(** Every tax code is txcd_ and eight digits, and no two constants share one. *)
Lemma tax_codes :
  Forall (fun c => exists d, c.2 = "txcd_" ^^ d /\ String.length d = 8%nat /\ all_chars digit d = true) tax_categories /\
  NoDup (map snd tax_categories) /\ NoDup (map fst tax_categories).
Proof.
  split; [|split; apply (bool_decide_eq_true_1 _); vm_compute; reflexivity].
  unfold tax_categories. repeat (constructor; [eexists; split; [reflexivity|by split]|]). constructor.
Qed.

(** Every example catalog passes the validation of its namespace, products, coupons and meters,
    whatever order maps are visited in: [MustSpec] does not panic at start-up. *)
Theorem examples_accepted `{GoRuntime} : Forall (fun s => MustSpec s = Some (normal_spec s)) examples.
Proof.
  assert (Hok : Forall spec_ok examples).
  { assert (Hr : Forall (fun s => is_Some (MustSpec (H := reference_runtime) s)) examples)
      by (apply (bool_decide_eq_true_1 _); vm_compute; reflexivity).
    eapply Forall_impl; [exact Hr|]. intros s [s' E]. unfold MustSpec in E. pose proof (NewSpec_spec (H := reference_runtime) s) as C.
    destruct (NewSpec (H := reference_runtime) s); [apply C|done]. }
  eapply Forall_impl; [exact Hok|]. intros s Hs. unfold MustSpec. pose proof (NewSpec_spec s) as C.
  destruct (NewSpec s) as [s'|fields]; [by destruct C as [_ ->]|]. by destruct C as [_ []].
Qed.

(** ** Usage that no meter hears *)

(** The meters the catalog declares, by the names Stripe knows them under. *)
Definition heard (s : Spec) (event : string) : Prop :=
  exists k m, Meters s !! k = Some m /\ Namespace s ^^ "." ^^ m_EventName m = event.
Lemma pushed_name customers_Get `{Sha256} ns metric period aggs events e :
  resolve_events customers_Get ns metric period aggs = Ok events -> e ∈ events -> pu_EventName e = ns ^^ "." ^^ metric.
Proof.
  revert events. induction aggs as [|a aggs IH]; intros events; cbn [resolve_events]; [intros [= <-] []%not_elem_of_nil|].
  destruct (customers_Get _) as [found|]; [|done]. destruct (resolve_events _ _ _ _ aggs) as [out|]; [|done].
  destruct found as [c|]; intros [= <-]; [|by apply IH]. intros [->|He]%elem_of_cons; [done|by eapply IH].
Qed.
(** The two catalogs with metered prices name a meter's event one way and the metric their
    applications record another: what a reconciliation pushes goes under a name no
    declared meter listens to. *)
Theorem overage_unheard customers_Get `{Sha256} period aggs events e s metric :
  (s, metric) ∈ [(included_quota_Spec, VoiceOverageMetric); (per_seat_metered_Spec, APICallsMetric)] ->
  resolve_events customers_Get (Namespace s) metric period aggs = Ok events -> e ∈ events ->
  ~ heard (normal_spec s) (pu_EventName e).
Proof.
  intros Hs Hr He. rewrite (pushed_name _ _ _ _ _ _ _ Hr He). intros (k & m & Hm & E).
  assert (Hall : map_Forall (fun _ m => Namespace s ^^ "." ^^ m_EventName m <> Namespace s ^^ "." ^^ metric) (Meters (normal_spec s))).
  { clear - Hs. apply (bool_decide_eq_true_1 _). repeat (apply elem_of_cons in Hs as [[= -> ->]|Hs]; [vm_compute; reflexivity|]).
    by apply not_elem_of_nil in Hs. }
  exact (Hall k m Hm E).
Qed.
Lemma overage_unheard_witness :
  let period := mkUsagePeriod 0 3600 "" in
  let aggs := [mkAggregate "user_1" VoiceOverageMetric 12 period] in
  exists e, resolve_events (H0 := KeysDemo.demo_Sha256) (fun _ => Ok (Some "cus_1")) "voicequota_demo" VoiceOverageMetric period aggs = Ok [e] /\
    pu_EventName e = "voicequota_demo.voice_minutes_overage" /\ ~ heard (normal_spec included_quota_Spec) (pu_EventName e).
Proof.
  intros period aggs. eexists. split; [reflexivity|]. split; [reflexivity|].
  eapply (overage_unheard (H := KeysDemo.demo_Sha256) (fun _ => Ok (Some "cus_1")) period aggs _ _ included_quota_Spec VoiceOverageMetric).
  - by left.
  - reflexivity.
  - by left.
Defined.

(** ** Namespaces with an underscore *)

Definition archives_nothing `{GoRuntime} '(s, a, c) : Prop :=
  Namespace s = a ^^ "_" ^^ c /\ forall l plan,
    (forall p, p ∈ l -> exists k, xp_ID p = NamespacedProductID (normal_spec s) k /\ has_prefix (c ^^ "_") k = false) ->
    Diff (normal_spec s) l = Some plan -> pl_Items plan = diff_spec (normal_spec s) l.
Lemma split_namespace `{GoRuntime} s a c : Namespace s = a ^^ "_" ^^ c -> string_has "_" a = false -> archives_nothing (s, a, c).
Proof. intros Hns Ha. split; [done|]. intros l plan Hl. by apply (underscore_archives_nothing (normal_spec s) a c l). Qed.
(** Five of the namespaces hold an underscore, so that a sync of these catalogs archives nothing. *)
Theorem examples_archive_nothing `{GoRuntime} :
  Forall archives_nothing
    [(cohort_course_Spec, "cohort", "demo"); (credit_topup_Spec, "credits", "demo"); (included_quota_Spec, "voicequota", "demo");
     (per_seat_metered_Spec, "perseat", "demo"); (saas_tiers_Spec, "saas", "tiers_demo")].
Proof. repeat (constructor; [by apply split_namespace|]). constructor. Qed.
End Catalogs.
